(* ===== verification/_CoqProject ===== *)
-Q . S2P
Prelude.v
Io.v
Wire.v
FlashProto.v
Payload.v
FirmwareProto.v
Tock.v
FlashHil.v
FlashHw.v
NvCounter.v
NvDevice.v
NvAtomic.v
NvSyscall.v
NvShared.v
FlashRefine.v
VirtualFlash.v
Sfdp.v
SpiTool.v
GlobalSec.v
FlashSyscalls.v
FirmwareController.v
SpiProcessor.v
SpiForward.v
SpiSafety.v
SpiAnswers.v
SpiDevice.v
Registers.v
SpiHw.v
SpiHwFacts.v
SpiSyscall.v
SpiPort.v
UsbTypes.v
Usb.v
UsbFacts.v
UsbDevice.v
U2f.v
Personality.v
Digest.v
Info.v
Dcrypto.v
SpiHost.v
Aes.v
Uart.v
Gpio.v
Timer.v
Chip.v
Board.v
PapaStart.v
Golf2Start.v
OtGpio.v
OtMain.v
OtStart.v
SizeTools.v
TestHarness.v
FakeFlash.v
NvTests.v
FlashTests.v
SpiTests.v
KernelTests.v
