(* ===== verification/Prelude.v ===== *)
(** * tock-on-titan: a verification library

    The repository is a Tock kernel for the H1 (Titan) chip with its drivers,
    system-call capsules and boards, a shared library [spiutils] with the SPI
    and firmware-update protocols, and the otpilot application, which sits
    between an SPI host and an SPI flash chip.  This library models the drivers
    and capsules, the protocols and otpilot, and proves what they promise each
    other.  Definitions follow the source functions one by one and keep their
    names; paths below are under [src/].

    ** The parts and how they interact

    - The flash driver turns erases and writes into "smart program" cycles of
      the flash controller, driven by an alarm; the multiplexer shares it among
      users; the counter, the personality and the flash system calls are such
      users.
    - The counter keeps its value in two flash pages by striking out words, so
      that a power loss at any point cannot roll it back.
    - The peripheral drivers (SPI device and host, USB, SHA, AES, dcrypto, UART,
      GPIO, timers, random numbers) work on registers and FIFOs and are called by
      the chip's interrupt dispatcher; capsules pass their results to processes.
    - [spiutils] defines byte readers and writers, the wire format of flash
      headers, payloads (with a CRC-8), firmware messages and kernel structures.
    - otpilot receives flash commands on its SPI device port.  A page program at
      the mailbox address carries a payload: firmware requests are carried out
      by the firmware controller on the segments that the kernel's GlobalSec
      driver reports as inactive, and answered; other writes are forwarded to
      the SPI host in pieces.  It also holds and releases the reset lines of the
      processors that boot from the flash chip.

    ** Files

    - [Prelude]: machine integers ([wrap], [fits]), the result and state monad
      ([M], with [Panic] as an outcome), preorders along which computations step
      ([steps_in]), bit notations, list lemmas, automation.
    - [Io], [Wire]: [shared-lib/spiutils/src/io.rs] and [protocol/wire.rs].  The
      traits [Read], [Write], [FromWire], [ToWire] and the enum macro are
      classes; [ReadLaws], [WriteLaws], [WireLaws] and [WireCanonical] are the
      interfaces that the formats are proved against.
    - [FlashProto], [Payload], [FirmwareProto]: [protocol/flash.rs],
      [protocol/payload.rs], and [protocol/firmware.rs], [protocol/error.rs],
      [driver/*.rs], [compat/firmware.rs].
    - [Tock], [Registers]: return codes and 32-bit arithmetic of the kernel code;
      Tock's register interface as a class with its laws.
    - [FlashHil], [FlashHw]: [kernel/h1/src/hil/flash/]: [driver.rs],
      [smart_program.rs], [hardware.rs], [flash.rs] against the interfaces
      [Alarm] and [Hardware]; [h1_hw.rs] and [fake.rs] as implementations.
      [FlashRefine]: the driver implements the abstract device [Dev].
      [VirtualFlash]: [virtual_flash.rs] over the abstract device.
    - [NvCounter], [NvDevice], [NvAtomic]: [kernel/h1/src/nvcounter/]: the
      counter, the abstract flash device with power loss, and the refinement.
      [NvSyscall], [NvShared]: its capsule [h1_syscalls/src/nvcounter_syscall.rs]
      and the composition of capsule, counter and device.
    - [GlobalSec], [Info]: [kernel/h1/src/globalsec.rs], the segments of
      [kernel/papa/src/main.rs], otpilot's [globalsec.rs]; [pmu.rs], [fuse.rs],
      the reset, fuse and globalsec capsules and otpilot's clients of them.
    - [FlashSyscalls]: [kernel/h1_syscalls/src/flash.rs] and otpilot's
      [flash.rs].
    - [SpiHw], [SpiHwFacts], [SpiSyscall], [SpiPort]: the SPI device driver
      [kernel/h1/src/spi_device.rs], its capsule, and both with otpilot's port.
    - [SpiHost]: [kernel/h1/src/spi_host.rs], its capsule, otpilot's client.
    - [UsbTypes], [Usb], [UsbFacts], [UsbDevice], [U2f]: [kernel/h1/src/usb/].
    - [Personality]: [personality.rs], its HIL and its capsule on golf2's
      multiplexer.
    - [Digest], [Aes], [Dcrypto]: [kernel/h1/src/crypto/] and the capsules.
    - [Uart], [Gpio], [Timer], [Chip]: [uart.rs]; [gpio.rs], [pinmux.rs] and
      papa's pins; [timels.rs], [timeus.rs], [trng.rs]; the dispatcher [chip.rs].
    - [Board], [PapaStart], [Golf2Start]: [lib.rs] (vector table, memory
      initialization), the driver numbers and [with_driver] of both boards, the
      flash regions, golf2's pins; the start-up of [kernel/papa/src/main.rs] and
      [kernel/golf2/src/main.rs] over the drivers' models.
    - [Sfdp], [SpiTool], [SizeTools]: [otpilot/src/sfdp.rs] with a reader of SFDP
      tables; [spiutils/tool/src/main.rs]; [tools/size_graph], [tools/size_diff].
    - [FirmwareController], [SpiProcessor], [SpiDevice]: otpilot's
      [firmware_controller.rs], [spi_processor.rs], [spi_device.rs];
      [SpiForward], [SpiSafety], [SpiAnswers] hold the theorems about them.
      [OtGpio]: its GPIO, alarm and console processors and the SPI host helpers.
      [OtMain], [OtStart]: the SPI branch of the loop of [main.rs]; the start-up
      before the loop, [console_reader.rs] and [manticore_support.rs].
    - [TestHarness]: the assertions and the test loop of
      [userspace/test_harness], and [runner/src/main.rs], which reads its output.
      [FakeFlash], [NvTests], [FlashTests], [SpiTests]: the fake flash and the
      tests of [userspace/nvcounter_test], the tests of [userspace/flash_test]
      and of [spiutils], run on the models.  [KernelTests]: the self tests of
      [kernel/h1/src/], on the abstract flash device and on [Dcrypto].

    ** How the state is modelled

    Mutable places are explicit states.  Integers are [Z] with the wrap-around
    of the release build written out where the source can overflow; bytes are
    values of [Z] that fit eight bits.  A slice out of range, an [unwrap] and an
    [expect] are the outcome [Panic].  Registers hold integers; FIFOs are lists.
    Hardware, alarms, the Tock kernel's grants and callbacks, libtock's system
    calls and the Manticore handler are not in the repository: they are classes
    or environments that the theorems quantify over, with their documented
    behaviour as named laws ([HardwareLaws], [RegisterLaws], [Returns],
    [Cooperative], [Sane]) that a concrete instance satisfies.  What a hardware
    engine computes (a digest, a cipher, a coprocessor program) is a parameter.
    For otpilot the services are an environment that answers each call as a
    function of the whole history, and the history of calls is what theorems
    speak about.

    ** What the theorems show

    - otpilot: updates never touch the running image (C1), the update protocol is
      implemented (C2), answers are well formed (C6), transactions are ended
      (C8), the board controller is held in reset while its flash is isolated
      (C13), resets are released last at start-up (C16), forwarded writes are
      complete (C31), and which packets panic (C36).
    - Wire formats: the round trip of firmware messages (C11), the CRC-8 as
      polynomial division (C32); further laws are lemmas of [Wire], [FlashProto],
      [Payload] and [Sfdp].
    - Flash: refinement of an abstract device (C4), one answer per operation (C9),
      no panic in any reachable state (C10); the multiplexer loses no request and
      answers the right user (C7).
    - Counter: refinement of a counter that only moves forward, with power loss
      at any point (C3, C5), also when processes share it through the system
      calls (C12, C19); the kernel's integration test of it completes from any
      contents of the flash (C20).
    - SPI: packets reach the application and answers the host (C14, C15), the
      passthrough filter lets nothing out that modifies the flash (C37), the host
      controller exchanges the bytes asked for (C24).
    - USB: setup packets are answered as by an abstract device (C21), the state
      stays well formed (C22), the device enumerates (C23), and which packets
      panic the kernel (C38).
    - Cryptography: AES never panics (C25), a process gets the digest of its own
      data (C26); that AES is always in ECB mode and that programs run on the
      coprocessor are unnumbered.
    - Chip: UART transmission and reception (C27, C28), independent pins (C18),
      alarms (C29), and the interrupt loop serves all interrupts and ends (C30);
      the delivery of entropy is unnumbered.
    - Boards: the resets are held from the first instruction (C17), papa and golf2
      start with every driver in the state that its theorems ask for (C33, C34);
      memory initialization, driver numbers and golf2's flash region are
      unnumbered.
    - Tests: the exit code of a test run tells whether all tests passed (C35); the
      suites of the counter, the flash driver and [spiutils] pass on the models,
      and the fake flash that the counter's suite runs on is an array of words as
      long as a page has at most five runs (unnumbered).
    - Where the code misbehaves: C36, C38, C39 (a personality write blocks the
      flash), C40 (papa's writable flash regions are one address too long) and
      the unnumbered theorems that the findings name.

    ** Bounds and fuel

    Loops whose length depends on data carry fuel, and running out of it is
    [Panic] (or [None]); the theorems that exclude it state how much is enough:
    the page count for erasing a segment, one more than the data length for
    [spi_host_send], the buffer length plus the interruptions for [StdWrite], one
    round per interrupt for the dispatcher.  Smart-program cycles are bounded by
    their attempt counters and need none.

    ** What is not modelled

    - What the boards do with the Tock kernel alone: static buffers, grants,
      capabilities, the loading of processes and the main loop.  That code is
      calls into Tock, which is third-party code, as libtock and Manticore are.
    - Panic output ([panic_fmt] of the boards) and debug prints, which have no effect
      on the state of a driver.
    - Register layouts and bit-field tables as far as no modelled code uses them:
      the macros that read them are Tock's.
    - The size test of [h1_hw.rs], which measures the compiler's layout of a
      struct; two tests of [io.rs] whose code does not compile; [rng_test.rs],
      which no module includes.
    - The C applications and the low-level debug application, which have no logic
      of their own beyond system calls.
    - The components are composed where they call each other (capsule, counter and
      device; driver, capsule and port; controller and segments; boards and
      drivers).  A single state of the whole kernel under the dispatcher is not
      built: the dispatcher is proved over the handlers' interface. *)

From Stdlib Require Import ZArith Lia.
From stdpp Require Import base decidable option list list_numbers.

#[global] Open Scope Z_scope.

(** ** Machine integers *)

(** [wrap w x] is the value of [x] in an unsigned [w]-bit register. *)
Definition wrap (w x : Z) : Z := x mod 2 ^ w.

(** [fits w x]: the mathematical integer [x] is a value of the [w]-bit type. *)
Definition fits (w x : Z) : Prop := 0 <= x < 2 ^ w.

#[global] Instance fits_dec w x : Decision (fits w x).
Proof. unfold fits. apply _. Defined.

(** Every element of a buffer is a byte. *)
Definition bytes_ok (bs : list Z) : Prop := Forall (fits 8) bs.

(** ** Results, panics and the state monad of the sources

    A Rust function returns a value, returns an error through [Result], or
    panics.  Code that mutates a place [S] is a function on [S]; what it did
    before it failed stays done. *)
Inductive outcome (E A : Type) : Type :=
| Ok (a : A)
| Err (e : E)
| Panic.
Arguments Ok {E A} a.
Arguments Err {E A} e.
Arguments Panic {E A}.

#[global] Instance outcome_eq_dec E A `{EqDecision E, EqDecision A} : EqDecision (outcome E A).
Proof. solve_decision. Defined.

Definition M (S E A : Type) : Type := S → outcome E A * S.

#[global] Instance M_ret {S E} : MRet (M S E) := λ A a s, (Ok a, s).
#[global] Instance M_bind {S E} : MBind (M S E) := λ A B f m s,
  match m s with
  | (Ok a, s') => f a s'
  | (Err e, s') => (Err e, s')
  | (Panic, s') => (Panic, s')
  end.

Definition throw {S E A} (e : E) : M S E A := λ s, (Err e, s).
Definition panic {S E A} : M S E A := λ s, (Panic, s).
Definition gets {S E A} (f : S → A) : M S E A := λ s, (Ok (f s), s).
Definition modify {S E} (f : S → S) : M S E unit := λ s, (Ok tt, f s).

(** [map_err f m] is [m.map_err(f)?]: the error conversion of the [?] operator. *)
Definition map_err {S E E' A} (f : E → E') (m : M S E A) : M S E' A := λ s,
  match m s with
  | (Ok a, s') => (Ok a, s')
  | (Err e, s') => (Err (f e), s')
  | (Panic, s') => (Panic, s')
  end.

(** [ok_or e o] is [o.ok_or(e)?]. *)
Definition ok_or {S E A} (e : E) (o : option A) : M S E A :=
  match o with
  | Some a => mret a
  | None => throw e
  end.

(** [unwrap o] panics on [None]. *)
Definition unwrap {S E A} (o : option A) : M S E A :=
  match o with
  | Some a => mret a
  | None => panic
  end.

(** [zoom get set m] runs [m] on a part of a larger state. *)
Definition zoom {S T E A} (get : S → T) (set : T → S → S) (m : M T E A) : M S E A := λ s,
  match m (get s) with
  | (r, t') => (r, set t' s)
  end.

Lemma bind_ok {S E A B} (m : M S E A) (f : A → M S E B) s a s' :
  m s = (Ok a, s') → (m ≫= f) s = f a s'.
Proof. intros H. unfold mbind, M_bind. by rewrite H. Qed.

Lemma bind_unfold {S E A B} (m : M S E A) (f : A → M S E B) s :
  (m ≫= f) s =
  match m s with
  | (Ok a, s') => f a s'
  | (Err e, s') => (Err e, s')
  | (Panic, s') => (Panic, s')
  end.
Proof. done. Qed.

(** Running a sequence of updates. *)
Lemma bind_gets {S E A B} (f : S → A) (k : A → M S E B) s : (gets f ≫= k) s = k (f s) s.
Proof. done. Qed.

Lemma bind_modify {S E B} (f : S → S) (k : unit → M S E B) s : (modify f ≫= k) s = k tt (f s).
Proof. done. Qed.

Lemma bind_mret {S E A B} (a : A) (k : A → M S E B) s : (mret a ≫= k) s = k a s.
Proof. done. Qed.

Lemma bind_assoc {S E A B C} (m : M S E A) (f : A → M S E B) (k : B → M S E C) s :
  ((m ≫= f) ≫= k) s = (m ≫= λ x, f x ≫= k) s.
Proof. rewrite !bind_unfold. by destruct (m s) as [[]]. Qed.

Ltac run := repeat first [rewrite bind_assoc | rewrite bind_modify | rewrite bind_gets | rewrite bind_mret].

(** [steps_in R m]: however [m] ends, it takes the state along the preorder [R].  Two such
    orders: a part of the state stays as it is, and an invariant is kept. *)
Definition steps_in {S E A} (R : S → S → Prop) (m : M S E A) : Prop := ∀ s, R s (m s).2.
Definition same {S B} (f : S → B) : S → S → Prop := λ s s', f s' = f s.
Definition inv_kept {S} (I : S → Prop) : S → S → Prop := λ s s', I s → I s'.

#[global] Instance same_preorder {S B} (f : S → B) : PreOrder (same f).
Proof. split; [by intros ?|]. intros ???. unfold same. congruence. Qed.
#[global] Instance inv_kept_preorder {S} (I : S → Prop) : PreOrder (inv_kept I).
Proof. split; [by intros ??|]. intros ??? H1 H2 H. by apply H2, H1. Qed.

Section StepsIn.
Context {S E : Type} (R : S → S → Prop) `{!PreOrder R}.

Lemma steps_bind {A B} (m : M S E A) (k : A → M S E B) : steps_in R m → (∀ a, steps_in R (k a)) → steps_in R (m ≫= k).
Proof.
  intros Hm Hk s. rewrite bind_unfold. specialize (Hm s). destruct (m s) as [[a|e|] s']; [|done..].
  transitivity s'; [done|apply Hk].
Qed.
Lemma steps_modify (f : S → S) : (∀ s, R s (f s)) → steps_in (E:=E) R (modify f).
Proof. intros Hf s. exact (Hf s). Qed.
Lemma steps_gets {A} (f : S → A) : steps_in (E:=E) R (gets f).
Proof. intros s. reflexivity. Qed.
Lemma steps_mret {A} (a : A) : steps_in (E:=E) R (mret a).
Proof. intros s. reflexivity. Qed.
Lemma steps_panic {A} : steps_in (E:=E) R (panic : M S E A).
Proof. intros s. reflexivity. Qed.
Lemma steps_unwrap {A} (o : option A) : steps_in (E:=E) R (unwrap o).
Proof. intros s. by destruct o. Qed.
End StepsIn.

Ltac steps := repeat first
  [ apply steps_bind; [apply _| |intros ?] | apply steps_gets; apply _ | apply steps_mret; apply _
  | apply steps_panic; apply _ | apply steps_unwrap; apply _ ].

Lemma bind_err {S E A B} (m : M S E A) (f : A → M S E B) s e s' :
  m s = (Err e, s') → (m ≫= f) s = (Err e, s').
Proof. intros H. unfold mbind, M_bind. by rewrite H. Qed.

Lemma bind_inv {S E A B} (m : M S E A) (f : A → M S E B) s b s'' :
  (m ≫= f) s = (Ok b, s'') → ∃ a s', m s = (Ok a, s') ∧ f a s' = (Ok b, s'').
Proof.
  unfold mbind, M_bind. destruct (m s) as [[a|e|] s'] eqn:Hm; intros H; simplify_eq. eauto.
Qed.

Lemma map_err_ok {S E E' A} (f : E → E') (m : M S E A) s a s' :
  m s = (Ok a, s') → map_err f m s = (Ok a, s').
Proof. intros H. unfold map_err. by rewrite H. Qed.

Lemma map_err_err {S E E' A} (f : E → E') (m : M S E A) s e s' :
  m s = (Err e, s') → map_err f m s = (Err (f e), s').
Proof. intros H. unfold map_err. by rewrite H. Qed.

Lemma map_err_inv {S E E' A} (f : E → E') (m : M S E A) s a s' :
  map_err f m s = (Ok a, s') → m s = (Ok a, s').
Proof. unfold map_err. destruct (m s) as [[?|?|] ?]; intros; by simplify_eq. Qed.

(** ** Integer lemmas *)

Lemma wrap_small w x : fits w x → wrap w x = x.
Proof. intros H. apply Z.mod_small, H. Qed.

Lemma wrap_fits w x : 0 <= w → fits w (wrap w x).
Proof. intros H. apply Z.mod_pos_bound. by apply Z.pow_pos_nonneg. Qed.

Lemma fits_bits w x i : fits w x → w <= i → Z.testbit x i = false.
Proof.
  intros [H0 H1] Hi. destruct (decide (x = 0)) as [->|Hx]; [apply Z.bits_0|].
  apply Z.bits_above_log2; [lia|].
  apply Z.log2_lt_pow2 in H1; lia.
Qed.

Lemma bits_fits w x : 0 <= w → 0 <= x → (∀ i, w <= i → Z.testbit x i = false) → fits w x.
Proof.
  intros Hw Hx Hb. split; [done|].
  rewrite <-(Z.mod_small x (2 ^ (Z.max w (Z.log2 x + 1)))).
  - replace (x mod 2 ^ Z.max w (Z.log2 x + 1)) with (x mod 2 ^ w); [by apply Z.mod_pos_bound, Z.pow_pos_nonneg|].
    apply Z.bits_inj'. intros n Hn.
    destruct (decide (n < w)).
    + rewrite !Z.mod_pow2_bits_low by lia. done.
    + rewrite Z.mod_pow2_bits_high by lia.
      destruct (decide (n < Z.max w (Z.log2 x + 1))).
      * rewrite Z.mod_pow2_bits_low by lia. symmetry. apply Hb. lia.
      * by rewrite Z.mod_pow2_bits_high by lia.
  - split; [done|]. destruct (decide (x = 0)) as [->|]; [apply Z.pow_pos_nonneg; lia|].
    apply Z.log2_lt_pow2; lia.
Qed.

(** ** List lemmas *)

Lemma take_drop_split {A} (l : list A) n : l = take n l ++ drop n l.
Proof. by rewrite take_drop. Qed.

Lemma bytes_ok_app a b : bytes_ok (a ++ b) ↔ bytes_ok a ∧ bytes_ok b.
Proof. apply Forall_app. Qed.

(** [copy_at dst off src] is [dst[off..off + src.len()].copy_from_slice(src)]
    where the range is in bounds. *)
Definition copy_at {A} (dst : list A) (off : nat) (src : list A) : list A :=
  take off dst ++ src ++ drop (off + length src) dst.

Lemma length_copy_at {A} (dst src : list A) off :
  (off + length src <= length dst)%nat → length (copy_at dst off src) = length dst.
Proof. intros H. unfold copy_at. rewrite !length_app, length_take, length_drop. lia. Qed.

Lemma take_copy_at {A} (dst src : list A) off :
  (off + length src <= length dst)%nat →
  take (off + length src) (copy_at dst off src) = take off dst ++ src.
Proof.
  intros H. unfold copy_at. rewrite app_assoc, take_app_le, take_ge; [done| |];
  rewrite length_app, length_take; lia.
Qed.

Lemma drop_copy_at {A} (dst src : list A) off :
  (off + length src <= length dst)%nat →
  drop (off + length src) (copy_at dst off src) = drop (off + length src) dst.
Proof.
  intros H. unfold copy_at. rewrite app_assoc. rewrite drop_app_length'; [done|].
  rewrite length_app, length_take. lia.
Qed.

Lemma drop_agree {A} n m (l k : list A) :
  (n <= m)%nat → drop n l = drop n k → drop m l = drop m k.
Proof.
  intros Hn H. replace m with (n + (m - n))%nat by lia. by rewrite <-!drop_drop, H.
Qed.

(** ** Notation

    The bit operators of the sources, on the integer values of the registers. *)
Declare Scope bits_scope.
Delimit Scope bits_scope with bits.
Infix ".|" := Z.lor (at level 51, left associativity) : bits_scope.
Infix ".&" := Z.land (at level 48, left associativity) : bits_scope.
Infix ".<<" := Z.shiftl (at level 46, left associativity) : bits_scope.
Infix ".>>" := Z.shiftr (at level 46, left associativity) : bits_scope.

(** ** Automation *)

Create HintDb titan discriminated.
#[export] Hint Resolve wrap_fits : titan.
#[export] Hint Extern 1 (fits _ _) => (unfold fits; lia) : titan.

(** Closed decidable facts, by evaluation. *)
Ltac by_compute := refine (bool_decide_unpack _ _); vm_compute; exact I.

(** Case analysis on the boolean and decidable tests of the code. *)
Ltac break_if :=
  match goal with
  | |- context [if ?b then _ else _] => let E := fresh "Eb" in destruct b eqn:E
  | H : context [if ?b then _ else _] |- _ => let E := fresh "Eb" in destruct b eqn:E
  end.

Ltac zb :=
  repeat match goal with
  | H : (_ <? _) = true |- _ => apply Z.ltb_lt in H
  | H : (_ <? _) = false |- _ => apply Z.ltb_ge in H
  | H : (_ <=? _) = true |- _ => apply Z.leb_le in H
  | H : (_ <=? _) = false |- _ => apply Z.leb_gt in H
  | H : (_ =? _) = true |- _ => apply Z.eqb_eq in H
  | H : (_ =? _) = false |- _ => apply Z.eqb_neq in H
  | H : (_ <? _)%nat = true |- _ => apply Nat.ltb_lt in H
  | H : (_ <? _)%nat = false |- _ => apply Nat.ltb_ge in H
  | H : (_ <=? _)%nat = true |- _ => apply Nat.leb_le in H
  | H : (_ <=? _)%nat = false |- _ => apply Nat.leb_gt in H
  | H : (_ && _) = true |- _ => apply andb_true_iff in H; destruct H
  | H : (_ || _) = false |- _ => apply orb_false_iff in H; destruct H
  | H : negb _ = true |- _ => apply negb_true_iff in H
  | H : negb _ = false |- _ => apply negb_false_iff in H
  end.
