(* ===== verification/Io.v ===== *)
(** * Byte I/O of the SPI protocol library ([shared-lib/spiutils/src/io.rs])

    [BitBuf] (a byte used as a queue of bits), the [Read] and [Write] traits as
    type classes, their implementations for byte slices, for [Cursor] and for
    [StdWrite], and the big- and little-endian integers of [BeInt] and [LeInt].
    [ReadLaws] and [WriteLaws] state what the protocol code relies on: a reader
    is a view of the bytes still to come, a writer appends to what it has
    already put out until its room is used up. *)

From S2P Require Import Prelude.
From Stdlib Require Import ZArith Lia.
From stdpp Require Import base decidable option list list_numbers.

#[local] Open Scope Z_scope.

Inductive IoError := BufferExhausted | Internal.

#[global] Instance IoError_eq_dec : EqDecision IoError.
Proof. solve_decision. Defined.

(** ** BitBuf *)

Module BitBuf.

Record t := mk { len : Z; bits : Z }.

#[global] Instance t_eq_dec : EqDecision t.
Proof. solve_decision. Defined.

(** [((1usize << n) - 1) as u8], with the 32-bit [usize] of the target: the
    shift amount is taken modulo 32 and the subtraction wraps. *)
Definition inverse_popcnt (n : Z) : Z :=
  wrap 8 (wrap 32 (wrap 32 (Z.shiftl 1 (n mod 32)) - 1)).

Definition new : t := mk 0 0.

Definition from_bits (bits : Z) : t := mk 8 bits.

Definition read_bits (n : Z) : M t IoError Z := λ s,
  if len s <? n then (Err BufferExhausted, s)
  else if n =? 0 then (Ok 0, s)
  else
    let mask := inverse_popcnt n in
    let offset := len s - n in
    let val := Z.land (Z.shiftr (bits s) offset) mask in
    let bits' := Z.land (bits s) (Z.lxor 255 (wrap 8 (Z.shiftl mask offset))) in
    (Ok val, mk (wrap 8 (len s - wrap 8 n)) bits').

Definition read_bit : M t IoError bool :=
  b ← read_bits 1; mret (negb (b =? 0)).

Definition write_bits (n bs : Z) : M t IoError unit := λ s,
  if 8 <? wrap 32 (len s + n) then (Err BufferExhausted, s)
  else
    let mask := inverse_popcnt n in
    let shifted := wrap 8 (Z.shiftl (bits s) (n mod 8)) in
    (Ok tt, mk (wrap 8 (len s + wrap 8 n)) (Z.lor shifted (Z.land bs mask))).

Definition write_bit (bit : bool) : M t IoError unit := write_bits 1 (Z.b2z bit).

Definition write_zero_bits (n : Z) : M t IoError unit := write_bits n 0.

(** The invariant of the type: [len] of the low bits are used and "all bits
    beyond [len] are guaranteed to be zero". *)
Definition wf (s : t) : Prop := 0 <= len s <= 8 ∧ fits (len s) (bits s).

End BitBuf.

(** ** Readers and writers *)

Class Read (R : Type) := {
  read_bytes : nat → M R IoError (list Z);
  remaining_data : R → nat;
}.

Class Write (W : Type) := {
  write_bytes : list Z → M W IoError unit;
}.

(** What a [Read] implementation promises. *)
Class ReadLaws (R : Type) `{Read R} := {
  rd_view : R → list Z;
  rd_remaining : ∀ r, remaining_data r = length (rd_view r);
  rd_ok : ∀ n r, (n <= length (rd_view r))%nat →
    ∃ r', read_bytes n r = (Ok (take n (rd_view r)), r') ∧ rd_view r' = drop n (rd_view r);
  rd_short : ∀ n r, (length (rd_view r) < n)%nat →
    read_bytes n r = (Err BufferExhausted, r);
}.

(** What a bounded [Write] implementation promises. *)
Class WriteLaws (W : Type) `{Write W} := {
  wr_out : W → list Z;
  wr_room : W → nat;
  wr_inv : W → Prop;
  wr_ok : ∀ bs w, wr_inv w → (length bs <= wr_room w)%nat →
    ∃ w', write_bytes bs w = (Ok tt, w') ∧ wr_inv w' ∧ wr_out w' = wr_out w ++ bs ∧
          wr_room w' = (wr_room w - length bs)%nat;
  wr_full : ∀ bs w, wr_inv w → (wr_room w < length bs)%nat →
    write_bytes bs w = (Err BufferExhausted, w);
}.

(** [impl Read for &[u8]] *)
Definition slice_read_bytes (n : nat) : M (list Z) IoError (list Z) := λ self,
  if (length self <? n)%nat then (Err BufferExhausted, self)
  else (Ok (take n self), drop n self).

Definition slice_remaining_data (self : list Z) : nat := length self.

#[global] Instance slice_Read : Read (list Z) := {
  read_bytes := slice_read_bytes;
  remaining_data := slice_remaining_data;
}.

(** [impl Read for &mut [u8]] and [impl Write for &mut [u8]].  The reference
    shrinks as it is used; [sm_done] keeps the part of the underlying buffer it
    has moved past, [sm_rest] is what the reference still covers. *)
Record SliceMut := mk_slice_mut { sm_done : list Z; sm_rest : list Z }.

Definition slice_mut_read_bytes (n : nat) : M SliceMut IoError (list Z) := λ self,
  if (length (sm_rest self) <? n)%nat then (Err BufferExhausted, self)
  else
    let result := take n (sm_rest self) in
    let rest := drop n (sm_rest self) in
    (Ok result, mk_slice_mut (sm_done self ++ result) rest).

Definition slice_mut_remaining_data (self : SliceMut) : nat := length (sm_rest self).

#[global] Instance slice_mut_Read : Read SliceMut := {
  read_bytes := slice_mut_read_bytes;
  remaining_data := slice_mut_remaining_data;
}.

Definition slice_mut_write_bytes (buf : list Z) : M SliceMut IoError unit := λ self,
  let n := length buf in
  if (length (sm_rest self) <? n)%nat then (Err BufferExhausted, self)
  else (Ok tt, mk_slice_mut (sm_done self ++ buf) (drop n (sm_rest self))).

#[global] Instance slice_mut_Write : Write SliceMut := {
  write_bytes := slice_mut_write_bytes;
}.

(** ** Cursor *)

Module Cursor.

Record t := mk { buf : list Z; cursor : nat }.

Definition new (b : list Z) : t := mk b 0.

(** [consume] returns the range of the buffer it hands out. *)
Definition consume (n : nat) (self : t) : option (nat * nat) * t :=
  let end_ := (Z.of_nat (cursor self) + Z.of_nat n) in
  if end_ <? 2 ^ 32 then
    let e := (cursor self + n)%nat in
    if (length (buf self) <? e)%nat then (None, self)
    else (Some (cursor self, e), mk (buf self) e)
  else (None, self).

Definition consumed_len (self : t) : nat := cursor self.

Definition consumed_bytes (self : t) : list Z := take (cursor self) (buf self).

Definition take_consumed_bytes (self : t) : list Z * t :=
  (take (cursor self) (buf self), mk (drop (cursor self) (buf self)) 0).

Definition cursor_write_bytes (bs : list Z) : M t IoError unit := λ self,
  match consume (length bs) self with
  | (None, self') => (Err BufferExhausted, self')
  | (Some (b, _), self') => (Ok tt, mk (copy_at (buf self') b bs) (cursor self'))
  end.

#[global] Instance cursor_Write : Write t := { write_bytes := cursor_write_bytes }.

(** "Invariant: cursor <= buf.len()", and a slice is at most the address space. *)
Definition wf (self : t) : Prop :=
  (cursor self <= length (buf self))%nat ∧ Z.of_nat (length (buf self)) < 2 ^ 32.

End Cursor.

(** ** StdWrite

    [StdWrite] drives a [std::io::Write]; its [write] is the parameter [write],
    which takes a buffer and reports how many bytes it accepted, or an error
    kind.  The loop runs until the buffer is empty, so it is modelled with
    fuel; running out of fuel is the value [None]. *)
Module StdWrite.

Inductive ErrorKind := Interrupted | OtherKind.

Section Loop.
Context {W : Type} (write : list Z → W → (nat + ErrorKind) * W).

Fixpoint std_write_bytes (fuel : nat) (buf : list Z) (w : W) : option (outcome IoError unit * W) :=
  match fuel with
  | O => None
  | S fuel' =>
    match buf with
    | [] => Some (Ok tt, w)
    | _ :: _ =>
      match write buf w with
      | (inl n, w') =>
        if (length buf <? n)%nat then Some (Panic, w')
        else std_write_bytes fuel' (drop n buf) w'
      | (inr Interrupted, w') => std_write_bytes fuel' buf w'
      | (inr OtherKind, w') => Some (Err Internal, w')
      end
    end
  end.

End Loop.
End StdWrite.

(** ** Big- and little-endian integers *)

(** [uN::to_be_bytes] and [uN::from_be_bytes] for a width of [n] bytes, and
    the little-endian pair; [byteorder]'s readers and writers are these. *)
Fixpoint le_bytes (n : nat) (v : Z) : list Z :=
  match n with
  | O => []
  | S n' => v mod 256 :: le_bytes n' (v / 256)
  end.

Fixpoint le_value (bs : list Z) : Z :=
  match bs with
  | [] => 0
  | b :: bs' => b + 256 * le_value bs'
  end.

Definition be_bytes (n : nat) (v : Z) : list Z := reverse (le_bytes n v).
Definition be_value (bs : list Z) : Z := le_value (reverse bs).

(** The integer types with an implementation of [BeInt] or [LeInt]. *)
Inductive int_ty := U8 | U16 | U24 | U32 | U64.

#[global] Instance int_ty_eq_dec : EqDecision int_ty.
Proof. solve_decision. Defined.

Definition size_of (t : int_ty) : nat :=
  match t with U8 => 1 | U16 => 2 | U24 => 3 | U32 => 4 | U64 => 8 end.

Definition width (t : int_ty) : Z := 8 * Z.of_nat (size_of t).

(** The [BeInt] trait: one instance per [impl]. *)
Class BeInt (t : int_ty) := {
  be_read_from : ∀ R `{Read R}, M R IoError Z;
  be_write_to : ∀ W `{Write W}, Z → M W IoError unit;
}.

Section BeIntImpls.
Context {R : Type} `{Read R} {W : Type} `{Write W}.

Definition u8_be_read_from : M R IoError Z := bs ← read_bytes 1; unwrap (bs !! 0%nat).
Definition u8_be_write_to (self : Z) : M W IoError unit := write_bytes [self].

Definition u16_be_read_from : M R IoError Z := bs ← read_bytes 2; mret (be_value (take 2 bs)).
Definition u16_be_write_to (self : Z) : M W IoError unit := write_bytes (be_bytes 2 self).

(** [ux::u24::new] panics on a value of more than 24 bits. *)
Definition u24_be_read_from : M R IoError Z :=
  bs ← read_bytes 3;
  let v := be_value (take 3 bs) in
  if v <? 2 ^ 24 then mret v else panic.
Definition u24_be_write_to (self : Z) : M W IoError unit := write_bytes (be_bytes 3 self).

Definition u32_be_read_from : M R IoError Z := bs ← read_bytes 4; mret (be_value (take 4 bs)).
Definition u32_be_write_to (self : Z) : M W IoError unit := write_bytes (be_bytes 4 self).

Definition u64_be_read_from : M R IoError Z := bs ← read_bytes 8; mret (be_value (take 8 bs)).
Definition u64_be_write_to (self : Z) : M W IoError unit := write_bytes (be_bytes 8 self).

Definition u32_le_read_from : M R IoError Z := bs ← read_bytes 4; mret (le_value (take 4 bs)).
Definition u32_le_write_to (self : Z) : M W IoError unit := write_bytes (le_bytes 4 self).

Definition u64_le_read_from : M R IoError Z := bs ← read_bytes 8; mret (le_value (take 8 bs)).
Definition u64_le_write_to (self : Z) : M W IoError unit := write_bytes (le_bytes 8 self).

End BeIntImpls.

#[global] Instance u8_BeInt : BeInt U8 :=
  { be_read_from := λ R _, u8_be_read_from; be_write_to := λ W _, u8_be_write_to }.
#[global] Instance u16_BeInt : BeInt U16 :=
  { be_read_from := λ R _, u16_be_read_from; be_write_to := λ W _, u16_be_write_to }.
#[global] Instance u24_BeInt : BeInt U24 :=
  { be_read_from := λ R _, u24_be_read_from; be_write_to := λ W _, u24_be_write_to }.
#[global] Instance u32_BeInt : BeInt U32 :=
  { be_read_from := λ R _, u32_be_read_from; be_write_to := λ W _, u32_be_write_to }.
#[global] Instance u64_BeInt : BeInt U64 :=
  { be_read_from := λ R _, u64_be_read_from; be_write_to := λ W _, u64_be_write_to }.

(** The implementation for each type. *)
Definition beint_of (t : int_ty) : BeInt t :=
  match t with
  | U8 => u8_BeInt | U16 => u16_BeInt | U24 => u24_BeInt | U32 => u32_BeInt | U64 => u64_BeInt
  end.

(** The provided methods [Read::read_be], [Write::write_be], [read_le], [write_le]. *)
Definition read_be (t : int_ty) `{BeInt t} {R} `{Read R} : M R IoError Z := be_read_from R.
Definition write_be (t : int_ty) `{BeInt t} {W} `{Write W} (v : Z) : M W IoError unit :=
  be_write_to W v.

(** The [LeInt] trait: one instance per [impl]. *)
Class LeInt (t : int_ty) := {
  le_read_from : ∀ R `{Read R}, M R IoError Z;
  le_write_to : ∀ W `{Write W}, Z → M W IoError unit;
}.

#[global] Instance u32_LeInt : LeInt U32 :=
  { le_read_from := λ R _, u32_le_read_from; le_write_to := λ W _, u32_le_write_to }.
#[global] Instance u64_LeInt : LeInt U64 :=
  { le_read_from := λ R _, u64_le_read_from; le_write_to := λ W _, u64_le_write_to }.

Definition read_le (t : int_ty) `{LeInt t} {R} `{Read R} : M R IoError Z := le_read_from R.
Definition write_le (t : int_ty) `{LeInt t} {W} `{Write W} (v : Z) : M W IoError unit :=
  le_write_to W v.

(** ** Lemmas: encodings *)

Lemma length_le_bytes n v : length (le_bytes n v) = n.
Proof. revert v. induction n as [|n IH]; intros v; simpl; [done|]. by rewrite IH. Qed.

Lemma length_be_bytes n v : length (be_bytes n v) = n.
Proof. unfold be_bytes. by rewrite length_reverse, length_le_bytes. Qed.

Lemma le_bytes_ok n v : bytes_ok (le_bytes n v).
Proof.
  revert v. induction n as [|n IH]; intros v; simpl; constructor; [|apply IH].
  unfold fits. change (2 ^ 8) with 256. apply Z.mod_pos_bound. lia.
Qed.

Lemma be_bytes_ok n v : bytes_ok (be_bytes n v).
Proof. unfold be_bytes, bytes_ok. rewrite Forall_reverse. apply le_bytes_ok. Qed.

Lemma pow256 n : 256 * 256 ^ Z.of_nat n = 256 ^ Z.of_nat (S n).
Proof. rewrite Nat2Z.inj_succ, Z.pow_succ_r; lia. Qed.

Lemma le_value_bytes n v : le_value (le_bytes n v) = v mod 256 ^ Z.of_nat n.
Proof.
  revert v. induction n as [|n IH]; intros v; simpl le_bytes; simpl le_value.
  - by rewrite Z.mod_1_r.
  - rewrite IH, <-pow256. rewrite Z.rem_mul_r; [done|lia|].
    apply Z.pow_pos_nonneg; lia.
Qed.

Lemma le_value_bound bs : bytes_ok bs → 0 <= le_value bs < 256 ^ Z.of_nat (length bs).
Proof.
  induction 1 as [|b bs Hb _ IH]; simpl le_value; simpl length; [simpl; lia|].
  rewrite <-pow256. unfold fits in Hb. change (2 ^ 8) with 256 in Hb. lia.
Qed.

Lemma le_bytes_value bs : bytes_ok bs → le_bytes (length bs) (le_value bs) = bs.
Proof.
  induction 1 as [|b bs Hb _ IH]; simpl; [done|].
  unfold fits in Hb. change (2 ^ 8) with 256 in Hb.
  rewrite (Z.mul_comm 256), Z.mod_add, Z.div_add, Z.mod_small, Z.div_small, Z.add_0_l by lia.
  by rewrite IH.
Qed.

Lemma be_value_bytes n v : be_value (be_bytes n v) = v mod 256 ^ Z.of_nat n.
Proof. unfold be_value, be_bytes. by rewrite reverse_involutive, le_value_bytes. Qed.

Lemma be_value_bound bs : bytes_ok bs → 0 <= be_value bs < 256 ^ Z.of_nat (length bs).
Proof.
  intros H. unfold be_value. rewrite <-(length_reverse bs). apply le_value_bound.
  unfold bytes_ok. by rewrite Forall_reverse.
Qed.

Lemma be_bytes_value bs : bytes_ok bs → be_bytes (length bs) (be_value bs) = bs.
Proof.
  intros H. unfold be_bytes, be_value. rewrite <-(length_reverse bs), le_bytes_value.
  - apply reverse_involutive.
  - unfold bytes_ok. by rewrite Forall_reverse.
Qed.

Lemma width_pow t : 256 ^ Z.of_nat (size_of t) = 2 ^ width t.
Proof. by destruct t. Qed.

(** ** The implementations keep the promises of the traits *)

#[global] Program Instance slice_ReadLaws : ReadLaws (list Z) := {| rd_view := id |}.
Next Obligation. done. Qed.
Next Obligation.
  intros n r Hn. simpl. unfold slice_read_bytes. destruct (_ <? _)%nat eqn:E; zb; [simpl in *; lia|].
  eauto.
Qed.
Next Obligation.
  intros n r Hn. simpl in *. unfold slice_read_bytes. destruct (_ <? _)%nat eqn:E; zb; [done|].
  simpl in *; lia.
Qed.

#[global] Program Instance slice_mut_ReadLaws : ReadLaws SliceMut := {| rd_view := sm_rest |}.
Next Obligation. done. Qed.
Next Obligation.
  intros n r Hn. simpl. unfold slice_mut_read_bytes. destruct (_ <? _)%nat eqn:E; zb; [lia|]. eauto.
Qed.
Next Obligation.
  intros n r Hn. simpl. unfold slice_mut_read_bytes. destruct (_ <? _)%nat eqn:E; zb; [done|lia].
Qed.

#[global] Program Instance slice_mut_WriteLaws : WriteLaws SliceMut :=
  {| wr_out := sm_done; wr_room w := length (sm_rest w); wr_inv _ := True |}.
Next Obligation.
  intros bs w _ Hn. simpl. unfold slice_mut_write_bytes. destruct (_ <? _)%nat eqn:E; zb; [lia|].
  eexists. split_and!; [done..|]. simpl. by rewrite length_drop.
Qed.
Next Obligation.
  intros bs w _ Hn. simpl. unfold slice_mut_write_bytes. destruct (_ <? _)%nat eqn:E; zb; [done|lia].
Qed.

Module CursorFacts.
Import Cursor.

Lemma cursor_write_ok bs c :
  wf c → (length bs <= length (buf c) - cursor c)%nat →
  cursor_write_bytes bs c
  = (Ok tt, mk (copy_at (buf c) (cursor c) bs) (cursor c + length bs)).
Proof.
  intros [Hc Hb] Hn. unfold cursor_write_bytes, consume.
  destruct (_ <? _) eqn:E; zb; [|lia].
  destruct (_ <? _)%nat eqn:E'; zb; [lia|]. done.
Qed.

Lemma cursor_write_full bs c :
  wf c → (length (buf c) - cursor c < length bs)%nat →
  cursor_write_bytes bs c = (Err BufferExhausted, c).
Proof.
  intros [Hc Hb] Hn. unfold cursor_write_bytes, consume.
  destruct (_ <? _) eqn:E; zb; [|done].
  destruct (_ <? _)%nat eqn:E'; zb; [done|lia].
Qed.

Lemma cursor_write_wf bs c :
  wf c → (length bs <= length (buf c) - cursor c)%nat →
  wf (mk (copy_at (buf c) (cursor c) bs) (cursor c + length bs)).
Proof. intros [Hc Hb] Hn. split; simpl; rewrite length_copy_at by lia; lia. Qed.

#[global] Program Instance cursor_WriteLaws : WriteLaws t :=
  {| wr_out := consumed_bytes; wr_room c := (length (buf c) - cursor c)%nat; wr_inv := wf |}.
Next Obligation.
  intros bs c Hwf Hn. simpl in *. rewrite cursor_write_ok by done.
  eexists. split_and!; [done|by apply cursor_write_wf| |].
  - unfold consumed_bytes. simpl. destruct Hwf. rewrite take_copy_at by lia. done.
  - simpl. destruct Hwf. rewrite length_copy_at by lia. lia.
Qed.
Next Obligation. intros bs c Hwf Hn. by apply cursor_write_full. Qed.

End CursorFacts.

(** ** Facts about BitBuf *)

Module BitBufFacts.
Import BitBuf.

Lemma inverse_popcnt_spec n : 0 <= n <= 8 → inverse_popcnt n = 2 ^ n - 1.
Proof.
  intros H.
  assert (n = 0 ∨ n = 1 ∨ n = 2 ∨ n = 3 ∨ n = 4 ∨ n = 5 ∨ n = 6 ∨ n = 7 ∨ n = 8) as Hn by lia.
  by destruct_or! Hn; subst n; vm_compute.
Qed.

Lemma lor_add_shift a b n : 0 <= n → 0 <= b < 2 ^ n → Z.lor (a * 2 ^ n) b = a * 2 ^ n + b.
Proof.
  intros Hn Hb.
  assert (Z.land (a * 2 ^ n) b = 0) as Hl.
  { apply Z.bits_inj'. intros i Hi. rewrite Z.land_spec, Z.bits_0.
    destruct (decide (i < n)).
    - by rewrite Z.mul_pow2_bits_low by lia.
    - rewrite (fits_bits n b i) by (done || lia). by rewrite andb_false_r. }
  rewrite <-Z.lxor_lor by done. by rewrite Z.add_nocarry_lxor.
Qed.

Lemma write_bits_spec n v s :
  wf s → 0 <= n → len s + n <= 8 →
  write_bits n v s = (Ok tt, mk (len s + n) (bits s * 2 ^ n + v mod 2 ^ n)).
Proof.
  intros [Hl Hb] Hn Hs. unfold write_bits.
  assert (wrap 32 (len s + n) = len s + n) as -> by (apply wrap_small; unfold fits; lia).
  destruct (8 <? _) eqn:E; zb; [lia|].
  rewrite inverse_popcnt_spec by lia.
  rewrite (wrap_small 8 n) by (unfold fits; lia).
  rewrite (wrap_small 8 (len s + n)) by (unfold fits; lia).
  do 2 f_equal.
  replace (2 ^ n - 1) with (Z.ones n) by (rewrite Z.ones_equiv; lia).
  rewrite Z.land_ones by lia.
  assert (0 <= v mod 2 ^ n < 2 ^ n) by (apply Z.mod_pos_bound, Z.pow_pos_nonneg; lia).
  rewrite <-lor_add_shift by lia. f_equal.
  destruct (decide (n = 8)) as [->|Hn8].
  - assert (len s = 0) as Hl0 by lia. rewrite Hl0 in Hb. unfold fits in Hb. simpl in Hb.
    by replace (bits s) with 0 by lia.
  - rewrite Z.mod_small, Z.shiftl_mul_pow2 by lia. apply wrap_small. unfold fits in *.
    split; [nia|]. apply Z.lt_le_trans with (2 ^ len s * 2 ^ n); [nia|].
    rewrite <-Z.pow_add_r by lia. apply Z.pow_le_mono_r; lia.
Qed.

Lemma read_bits_spec n s :
  wf s → 0 <= n <= len s →
  read_bits n s = (Ok (bits s / 2 ^ (len s - n)), mk (len s - n) (bits s mod 2 ^ (len s - n))).
Proof.
  intros [Hl Hb] Hn. unfold read_bits.
  destruct (_ <? _) eqn:E; zb; [lia|].
  destruct (n =? 0) eqn:E0; zb.
  { subst n. rewrite Z.sub_0_r. unfold fits in Hb.
    rewrite Z.div_small, Z.mod_small by done. by destruct s. }
  rewrite inverse_popcnt_spec by lia.
  rewrite (wrap_small 8 n) by (unfold fits; lia).
  rewrite (wrap_small 8 (len s - n)) by (unfold fits; lia).
  replace (2 ^ n - 1) with (Z.ones n) by (rewrite Z.ones_equiv; lia).
  rewrite Z.land_ones, Z.shiftr_div_pow2 by lia.
  assert (0 <= bits s / 2 ^ (len s - n) < 2 ^ n) as Hd.
  { unfold fits in Hb. split; [apply Z.div_pos; [lia|apply Z.pow_pos_nonneg; lia]|].
    apply Z.div_lt_upper_bound; [apply Z.pow_pos_nonneg; lia|].
    rewrite <-Z.pow_add_r by lia. replace (len s - n + n) with (len s) by lia. apply Hb. }
  rewrite (Z.mod_small (bits s / _)) by done. do 2 f_equal.
  apply Z.bits_inj'. intros i Hi. unfold wrap. change 255 with (Z.ones 8).
  rewrite Z.land_spec, Z.lxor_spec.
  destruct (decide (i < len s - n)).
  - rewrite Z.mod_pow2_bits_low, Z.mod_pow2_bits_low, Z.shiftl_spec_low, Z.ones_spec_low by lia.
    by rewrite andb_true_r.
  - rewrite (Z.mod_pow2_bits_high (bits s)) by lia.
    destruct (decide (i < len s)).
    + rewrite Z.mod_pow2_bits_low, Z.shiftl_spec, !Z.ones_spec_low by lia. by rewrite andb_false_r.
    + rewrite (fits_bits (len s) (bits s)) by (done || lia). done.
Qed.

Lemma write_bits_wf n v s :
  wf s → 0 <= n → len s + n <= 8 → wf (mk (len s + n) (bits s * 2 ^ n + v mod 2 ^ n)).
Proof.
  intros [Hl Hb] Hn Hs. split; simpl; [lia|]. unfold fits in *.
  assert (0 <= v mod 2 ^ n < 2 ^ n) by (apply Z.mod_pos_bound, Z.pow_pos_nonneg; lia).
  rewrite Z.pow_add_r by lia. nia.
Qed.

Lemma read_bits_wf n s : wf s → 0 <= n <= len s → wf (mk (len s - n) (bits s mod 2 ^ (len s - n))).
Proof.
  intros [Hl Hb] Hn. split; simpl; [lia|]. apply Z.mod_pos_bound, Z.pow_pos_nonneg; lia.
Qed.

(** A sequence of fields, each a bit count and a value. *)
Fixpoint write_fields (fs : list (Z * Z)) : M t IoError unit :=
  match fs with
  | [] => mret tt
  | (n, v) :: fs' => write_bits n v ;; write_fields fs'
  end.

Fixpoint read_fields (ns : list Z) : M t IoError (list Z) :=
  match ns with
  | [] => mret []
  | n :: ns' => v ← read_bits n; vs ← read_fields ns'; mret (v :: vs)
  end.

Fixpoint total_bits (fs : list (Z * Z)) : Z :=
  match fs with
  | [] => 0
  | (n, _) :: fs' => n + total_bits fs'
  end.

(** The number the fields make up, most significant first. *)
Fixpoint pack (fs : list (Z * Z)) : Z :=
  match fs with
  | [] => 0
  | (n, v) :: fs' => (v mod 2 ^ n) * 2 ^ total_bits fs' + pack fs'
  end.

Lemma total_bits_nonneg fs : Forall (λ f, 0 <= f.1) fs → 0 <= total_bits fs.
Proof. induction 1 as [|[n v] fs Hn _ IH]; simpl in *; lia. Qed.

Lemma pack_bound fs : Forall (λ f, 0 <= f.1) fs → 0 <= pack fs < 2 ^ total_bits fs.
Proof.
  induction 1 as [|[n v] fs Hn Hfs IH]; simpl in *; [lia|].
  pose proof (total_bits_nonneg fs Hfs).
  assert (0 <= v mod 2 ^ n < 2 ^ n) by (apply Z.mod_pos_bound, Z.pow_pos_nonneg; lia).
  rewrite Z.pow_add_r by lia. nia.
Qed.

Lemma write_fields_spec fs s :
  Forall (λ f, 0 <= f.1) fs → wf s → len s + total_bits fs <= 8 →
  write_fields fs s
  = (Ok tt, mk (len s + total_bits fs) (bits s * 2 ^ total_bits fs + pack fs)).
Proof.
  intros Hfs. revert s. induction Hfs as [|[n v] fs Hn Hfs IH]; intros s Hwf Hl; simpl in *.
  { rewrite !Z.add_0_r, Z.mul_1_r. by destruct s. }
  pose proof (total_bits_nonneg fs Hfs).
  erewrite bind_ok by (apply write_bits_spec; (done || lia)).
  rewrite IH; simpl; [|apply write_bits_wf; done || lia|lia].
  do 2 f_equal; [lia|]. rewrite Z.pow_add_r by lia. ring.
Qed.

Lemma read_fields_spec fs s :
  Forall (λ f, 0 <= f.1) fs → wf s → len s = total_bits fs → bits s = pack fs →
  read_fields (fs.*1) s = (Ok ((λ f, f.2 mod 2 ^ f.1) <$> fs), new).
Proof.
  intros Hfs. revert s. induction Hfs as [|[n v] fs Hn Hfs IH]; intros s Hwf Hl Hb; simpl in *.
  { destruct s; simpl in *; by subst. }
  pose proof (total_bits_nonneg fs Hfs). pose proof (pack_bound fs Hfs).
  erewrite bind_ok by (apply read_bits_spec; (done || lia)).
  replace (len s - n) with (total_bits fs) by lia.
  assert (0 < 2 ^ total_bits fs) by (apply Z.pow_pos_nonneg; lia).
  assert (bits s / 2 ^ total_bits fs = v mod 2 ^ n) as ->.
  { rewrite Hb, Z.div_add_l, (Z.div_small (pack fs)) by lia. lia. }
  assert (bits s mod 2 ^ total_bits fs = pack fs) as ->.
  { rewrite Hb, Z.add_comm, Z.mod_add, Z.mod_small by lia. done. }
  erewrite bind_ok; [|apply IH; simpl; try done].
  - done.
  - split; simpl; [destruct Hwf; lia|done].
Qed.

(** A queue of bits.  Any sequence of fields of at most eight bits in all
    can be written to an empty buffer, the buffer then holds exactly that many
    bits, and the same sequence of reads returns the fields in the order they
    were written and leaves the buffer empty: "the dual operation to a sequence
    of writes is a sequence of reads in the same order". *)
Theorem bitbuf_queue fs :
  Forall (λ f, 0 <= f.1) fs → total_bits fs <= 8 →
  ∃ s, write_fields fs new = (Ok tt, s) ∧ wf s ∧ len s = total_bits fs ∧
       read_fields (fs.*1) s = (Ok ((λ f, f.2 mod 2 ^ f.1) <$> fs), new).
Proof.
  intros Hfs Ht. pose proof (total_bits_nonneg fs Hfs). pose proof (pack_bound fs Hfs).
  assert (wf new) by (split; simpl; [lia|unfold fits; simpl; lia]).
  eexists. split; [apply write_fields_spec; (done || simpl; lia)|].
  assert (wf (mk (len new + total_bits fs) (bits new * 2 ^ total_bits fs + pack fs))).
  { split; simpl; [lia|done]. }
  split; [done|]. split; [done|]. by apply read_fields_spec.
Qed.

Lemma bitbuf_queue_witness :
  ∃ s, write_fields [(3, 5); (2, 2); (1, 1); (2, 0)] new = (Ok tt, s) ∧ wf s ∧
       len s = total_bits [(3, 5); (2, 2); (1, 1); (2, 0)] ∧
       read_fields [3; 2; 1; 2] s = (Ok [5; 2; 1; 0], new).
Proof.
  apply (bitbuf_queue [(3, 5); (2, 2); (1, 1); (2, 0)]); [repeat constructor; simpl; lia|simpl; lia].
Defined.

(** The error paths of the bit queue.  A read of more bits than are held, or
    a write that would pass eight bits, is refused with [BufferExhausted] and
    leaves the buffer as it was. *)
Theorem bitbuf_refuses n v s :
  wf s → 0 <= n < 2 ^ 31 →
  (len s < n → read_bits n s = (Err BufferExhausted, s)) ∧
  (8 < len s + n → write_bits n v s = (Err BufferExhausted, s)).
Proof.
  intros [Hl _] Hn. split; intros H.
  - unfold read_bits. by destruct (_ <? _) eqn:E; zb; [|lia].
  - unfold write_bits. rewrite wrap_small by (unfold fits; lia).
    by destruct (_ <? _) eqn:E; zb; [|lia].
Qed.

Lemma bitbuf_refuses_witness :
  wf (from_bits 85) ∧ read_bits 9 (from_bits 85) = (Err BufferExhausted, from_bits 85) ∧
  write_bits 1 1 (from_bits 85) = (Err BufferExhausted, from_bits 85).
Proof.
  assert (wf (from_bits 85)) as Hwf by (split; [simpl; lia|unfold fits; simpl; lia]).
  split; [done|]. split.
  - apply (bitbuf_refuses 9 0 (from_bits 85) Hwf); [lia|simpl; lia].
  - apply (bitbuf_refuses 1 1 (from_bits 85) Hwf); [lia|simpl; lia].
Defined.

End BitBufFacts.

(** ** Sequences of writes through a cursor *)

Module CursorTheorems.
Import Cursor CursorFacts.

Fixpoint write_all {W} `{Write W} (bss : list (list Z)) : M W IoError unit :=
  match bss with
  | [] => mret tt
  | bs :: bss' => write_bytes bs ;; write_all bss'
  end.

Lemma write_all_emits {W} `{WriteLaws W} bss w :
  wr_inv w → (length (concat bss) <= wr_room w)%nat →
  ∃ w', write_all bss w = (Ok tt, w') ∧ wr_inv w' ∧ wr_out w' = wr_out w ++ concat bss ∧
        wr_room w' = (wr_room w - length (concat bss))%nat.
Proof.
  revert w. induction bss as [|bs bss IH]; intros w Hi Hr; simpl in *.
  { exists w. rewrite app_nil_r. split_and!; [done..|lia]. }
  rewrite length_app in Hr.
  destruct (wr_ok bs w) as (w1 & Hw & Hi1 & Ho & Hr1); [done|lia|].
  destruct (IH w1) as (w2 & Hw2 & Hi2 & Ho2 & Hr2); [done|lia|].
  exists w2. erewrite bind_ok by done. split_and!; [done..| |].
  - by rewrite Ho2, Ho, app_assoc.
  - rewrite Hr2, Hr1, length_app. lia.
Qed.

Lemma write_all_tail bss (c c' : t) :
  wf c → write_all bss c = (Ok tt, c') →
  length (buf c') = length (buf c) ∧ drop (cursor c') (buf c') = drop (cursor c') (buf c) ∧
  (cursor c <= cursor c')%nat.
Proof.
  revert c. induction bss as [|bs bss IH]; intros c Hwf Hw; simpl in Hw.
  { unfold mret, M_ret in Hw. by simplify_eq. }
  apply bind_inv in Hw as ([] & c1 & Hw1 & Hw2).
  destruct (decide (length bs <= length (buf c) - cursor c)%nat) as [Hn|Hn];
    simpl in Hw1; [rewrite cursor_write_ok in Hw1 by done|rewrite cursor_write_full in Hw1 by (done || lia)];
    simplify_eq.
  apply IH in Hw2; [|by apply cursor_write_wf]. destruct Hw2 as (Hl & Hd & Hc). simpl in *.
  destruct Hwf. rewrite length_copy_at in Hl by lia. split_and!; [done| |lia].
  rewrite Hd. apply (drop_agree (cursor c + length bs)); [lia|]. by apply drop_copy_at; lia.
Qed.

(** A cursor over a scratch buffer.  Any list of writes that fits in the
    buffer succeeds; afterwards exactly the written bytes are consumed, the
    rest of the buffer is untouched, and [take_consumed_bytes] hands out the
    written bytes and leaves a fresh cursor on that rest.  A write that does
    not fit is refused and leaves the cursor as it was. *)
Theorem cursor_accumulates b bss :
  Z.of_nat (length b) < 2 ^ 32 → (length (concat bss) <= length b)%nat →
  ∃ c, write_all bss (new b) = (Ok tt, c) ∧ wf c ∧
    consumed_len c = length (concat bss) ∧ consumed_bytes c = concat bss ∧
    take_consumed_bytes c = (concat bss, new (drop (length (concat bss)) b)) ∧
    ∀ bs, (length b - length (concat bss) < length bs)%nat →
      cursor_write_bytes bs c = (Err BufferExhausted, c).
Proof.
  intros Hb Hl.
  assert (wf (new b)) as Hwf by (split; simpl; lia).
  destruct (write_all_emits bss (new b)) as (c & Hw & Hi & Ho & Hr); [done|simpl; lia|].
  pose proof (write_all_tail bss (new b) c Hwf Hw) as (Hlen & Hd & _). simpl in *.
  destruct Hi as [Hc Hc2].
  assert (consumed_bytes c = concat bss) as Hout by (rewrite Ho; done).
  assert (cursor c = length (concat bss)) as Hcur.
  { rewrite <-Hout. unfold consumed_bytes. rewrite length_take. lia. }
  exists c. split_and!; try done.
  - unfold take_consumed_bytes. unfold consumed_bytes in Hout. rewrite Hout, Hd, Hcur. done.
  - intros bs Hbs. apply cursor_write_full; [done|lia].
Qed.

Lemma cursor_accumulates_witness :
  ∃ c, write_all [[170; 255]; [170; 255]] (new [0; 0; 0; 0; 7; 7; 7; 7]) = (Ok tt, c) ∧ wf c ∧
    consumed_len c = 4%nat ∧ consumed_bytes c = [170; 255; 170; 255] ∧
    take_consumed_bytes c = ([170; 255; 170; 255], new [7; 7; 7; 7]) ∧
    ∀ bs, (4 < length bs)%nat → cursor_write_bytes bs c = (Err BufferExhausted, c).
Proof.
  apply (cursor_accumulates [0; 0; 0; 0; 7; 7; 7; 7] [[170; 255]; [170; 255]]); simpl; lia.
Defined.

End CursorTheorems.

(** ** The loop of StdWrite *)

Module StdWriteFacts.
Import StdWrite.

(** A [std::io::Write] that makes progress: each call accepts at least one byte
    of a nonempty buffer and appends what it accepted to its output, or is
    interrupted, which happens finitely often, or fails. *)
Class Progress {W} (write : list Z → W → (nat + ErrorKind) * W) := {
  out : W → list Z;
  interrupts : W → nat;
  progress : ∀ buf w, buf ≠ [] →
    match write buf w with
    | (inl n, w') => (1 <= n <= length buf)%nat ∧ out w' = out w ++ take n buf ∧
                     (interrupts w' <= interrupts w)%nat
    | (inr Interrupted, w') => out w' = out w ∧ (interrupts w' < interrupts w)%nat
    | (inr OtherKind, w') => True
    end;
}.

Section Loop.
Context {W : Type} (write : list Z → W → (nat + ErrorKind) * W) `{!Progress write}.

(** The loop of [StdWrite::write_bytes] ends.  Over a writer that makes
    progress it returns after at most one round per byte and per interruption;
    if it returns [Ok] every byte of the buffer has been written, in order, and
    the only error is [Internal]. *)
Theorem std_write_bytes_total fuel buf w :
  (length buf + interrupts w < fuel)%nat →
  ∃ r w', std_write_bytes write fuel buf w = Some (r, w') ∧
          (r = Ok tt ∧ out w' = out w ++ buf ∨ r = Err Internal).
Proof.
  revert buf w. induction fuel as [|fuel IH]; intros buf w Hf; [lia|].
  destruct buf as [|b buf]; simpl.
  { exists (Ok tt), w. rewrite app_nil_r. auto. }
  pose proof (progress (b :: buf) w ltac:(done)) as Hp.
  destruct (write (b :: buf) w) as [[n|[]] w'].
  - destruct Hp as (Hn & Ho & Hi). destruct (_ <? _)%nat eqn:E; zb; [simpl in *; lia|].
    destruct (IH (drop n (b :: buf)) w') as (r & w'' & Hr & Hcase).
    { rewrite length_drop. simpl in *. lia. }
    exists r, w''. split; [done|]. destruct Hcase as [[-> Hout]|]; [left|by right].
    split; [done|]. by rewrite Hout, Ho, <-app_assoc, take_drop.
  - destruct Hp as (Ho & Hi). destruct (IH (b :: buf) w') as (r & w'' & Hr & Hcase); [simpl in *; lia|].
    exists r, w''. split; [done|]. destruct Hcase as [[-> Hout]|]; [left|by right].
    split; [done|]. by rewrite Hout, Ho.
  - eauto.
Qed.
End Loop.

(** A pipe that accepts at most two bytes a call and is interrupted once. *)
Definition pipe_write (buf : list Z) (w : list Z * nat) : (nat + ErrorKind) * (list Z * nat) :=
  match w.2 with
  | S k => (inr Interrupted, (w.1, k))
  | O => (inl (Nat.min 2 (length buf)), (w.1 ++ take (Nat.min 2 (length buf)) buf, O))
  end.

#[global] Program Instance pipe_progress : Progress pipe_write := {| out w := w.1; interrupts w := w.2 |}.
Next Obligation.
  intros buf [o k] Hb. unfold pipe_write. destruct k; cbn [fst snd]; [|split; [done|lia]].
  destruct buf; [done|]. split_and!; cbn [length]; (lia || done).
Qed.

Lemma std_write_bytes_total_witness :
  ∃ r w', std_write_bytes pipe_write 5 [1; 2; 3] ([], 1%nat) = Some (r, w') ∧
          (r = Ok tt ∧ w'.1 = [1; 2; 3] ∨ r = Err Internal).
Proof.
  apply (@std_write_bytes_total _ pipe_write pipe_progress 5 [1; 2; 3] ([], 1%nat)). simpl. lia.
Defined.

(** A writer that answers [Ok(0)] (a closed pipe, a full device) is never
    reported: the loop makes no progress and does not return. *)
Theorem std_write_bytes_zero_diverges fuel buf :
  buf ≠ [] → std_write_bytes (λ _ (w : unit), (inl 0%nat, w)) fuel buf tt = None.
Proof.
  intros Hb. induction fuel as [|fuel IH]; simpl; [done|].
  destruct buf; [done|]. simpl. by rewrite IH.
Qed.

Lemma std_write_bytes_zero_diverges_witness :
  std_write_bytes (λ _ (w : unit), (inl 0%nat, w)) 1000 [1] tt = None.
Proof. by apply (std_write_bytes_zero_diverges 1000 [1]). Defined.

End StdWriteFacts.
