(* ===== verification/Wire.v ===== *)
(** * Wire format traits ([shared-lib/spiutils/src/protocol/wire.rs])

    The error types, the [FromWire] and [ToWire] traits, C-like enums with a
    wire representation and the [wire_enum!] macro that declares them.  A
    message format is described by [WireLaws]: its encoding, what serialization
    puts out and what deserialization accepts, for every lawful reader and
    writer.  The combinators [emits], [parses] and [reads] carry the proofs. *)

From S2P Require Import Prelude Io.
From Stdlib Require Import ZArith Lia.
From stdpp Require Import base decidable option list list_numbers strings.

#[local] Open Scope Z_scope.

Inductive FromWireError := FromIo (e : IoError) | OutOfRange.
Inductive ToWireError := ToIo (e : IoError) | InvalidData.

#[global] Instance FromWireError_eq_dec : EqDecision FromWireError.
Proof. solve_decision. Defined.
#[global] Instance ToWireError_eq_dec : EqDecision ToWireError.
Proof. solve_decision. Defined.

Class FromWire (T : Type) := from_wire : ∀ R `{Read R}, M R FromWireError T.
Class ToWire (T : Type) := to_wire : ∀ W `{Write W}, T → M W ToWireError unit.
Arguments from_wire T {_} {R _}.
Arguments to_wire {T _} {W _}.

(** The [?] operator on I/O results inside [from_wire] and [to_wire]. *)
Definition io_from {R A} (m : M R IoError A) : M R FromWireError A := map_err FromIo m.
Definition io_to {W A} (m : M W IoError A) : M W ToWireError A := map_err ToIo m.

(** ** Enums with a wire representation

    [wire_enum!] expands a table of variants, values and names into the
    functions of the [WireEnum] trait; [variants] is that table. *)
Class WireEnum (E : Type) `{EqDecision E} := {
  wire_ty : int_ty;
  variants : list (E * Z * string);
}.
Arguments wire_ty E {_ _}.
Arguments variants E {_ _}.

(** [self as $wire]: the discriminant the table gives the variant. *)
Definition to_wire_value {E} `{WireEnum E} (self : E) : Z :=
  from_option (λ v, v.1.2) 0 (snd <$> list_find (λ v, v.1.1 = self) (variants E)).

(** [match wire { $value => Some(Self::$variant), ..., _ => None }] *)
Definition from_wire_value {E} `{WireEnum E} (wire : Z) : option E :=
  (λ p, p.2.1.1) <$> list_find (λ v, v.1.2 = wire) (variants E).

Definition enum_name {E} `{WireEnum E} (self : E) : string :=
  from_option (λ v, v.2) "" (snd <$> list_find (λ v, v.1.1 = self) (variants E)).

Definition from_name {E} `{WireEnum E} (name : string) : option E :=
  (λ p, p.2.1.1) <$> list_find (λ v, v.2 = name) (variants E).

(** The table is a correct declaration of the enum. *)
Class WireEnumLaws (E : Type) `{WireEnum E} := {
  variants_complete : ∀ x : E, x ∈ (variants E).*1.*1;
  variants_nodup : NoDup (variants E).*1.*1;
  values_nodup : NoDup (variants E).*1.*2;
  names_nodup : NoDup (variants E).*2;
  values_fit : Forall (fits (width (wire_ty E))) (variants E).*1.*2;
}.

(** The blanket implementations of [FromWire] and [ToWire] for enums. *)
Definition enum_from_wire {E} `{WireEnum E} {R} `{Read R} : M R FromWireError E :=
  wire ← io_from (@be_read_from _ (beint_of (wire_ty E)) R _);
  ok_or OutOfRange (from_wire_value wire).

Definition enum_to_wire {E} `{WireEnum E} {W} `{Write W} (self : E) : M W ToWireError unit :=
  io_to (@be_write_to _ (beint_of (wire_ty E)) W _ (to_wire_value self)) ;; mret tt.

#[global] Instance enum_FromWire E `{WireEnum E} : FromWire E | 100 := λ R _, enum_from_wire.
#[global] Instance enum_ToWire E `{WireEnum E} : ToWire E | 100 := λ W _, enum_to_wire.

(** [from_str] of the macro's [FromStr] implementation. *)
Inductive WireEnumFromStrError := mk_WireEnumFromStrError.

Definition enum_from_str {E} `{WireEnum E} (s : string) : E + WireEnumFromStrError :=
  match from_name s with
  | Some val => inl val
  | None => inr mk_WireEnumFromStrError
  end.

(** ** Judgements on serializers and parsers *)

(** [m] appends exactly [bs]; when the writer has no room for all of it, [m]
    fails with [full] and keeps what it had already put out. *)
Definition emits {W} `{WriteLaws W} {E} (full : E) (m : M W E unit) (bs : list Z) : Prop :=
  ∀ w, wr_inv w →
    ((length bs <= wr_room w)%nat →
      ∃ w', m w = (Ok tt, w') ∧ wr_inv w' ∧ wr_out w' = wr_out w ++ bs ∧
            wr_room w' = (wr_room w - length bs)%nat) ∧
    ((wr_room w < length bs)%nat →
      ∃ w', m w = (Err full, w') ∧ wr_inv w' ∧ wr_out w `prefix_of` wr_out w').

(** [m] returns [a] on any input that starts with [bs] and consumes just [bs]. *)
Definition parses {R} `{ReadLaws R} {E A} (m : M R E A) (bs : list Z) (a : A) : Prop :=
  ∀ r rest, rd_view r = bs ++ rest → ∃ r', m r = (Ok a, r') ∧ rd_view r' = rest.

(** On any input of bytes [m] does not panic, and what it accepts satisfies [P]. *)
Definition reads {R} `{ReadLaws R} {E A} (m : M R E A) (P : list Z → A → Prop) : Prop :=
  ∀ r, bytes_ok (rd_view r) →
    match m r with
    | (Ok a, r') => ∃ bs, rd_view r = bs ++ rd_view r' ∧ P bs a
    | (Err _, _) => True
    | (Panic, _) => False
    end.

(** The contract of a message format. *)
Class WireLaws (T : Type) `{FromWire T, ToWire T} := {
  valid : T → Prop;
  encode : T → list Z;
  to_wire_emits : ∀ W `{WriteLaws W} (x : T), valid x →
    emits (ToIo BufferExhausted) (to_wire x) (encode x);
  from_wire_parses : ∀ R `{ReadLaws R} (x : T), valid x →
    parses (R := R) (from_wire T) (encode x) x;
}.

(** A canonical format: what is accepted is the encoding of the result. *)
Class WireCanonical (T : Type) `{WireLaws T} :=
  from_wire_reads : ∀ R `{ReadLaws R},
    reads (R := R) (from_wire T) (λ bs x, bs = encode x ∧ valid x).

(** ** Rules of the judgements *)

Section Rules.
Context {W : Type} `{WriteLaws W} {R : Type} `{ReadLaws R}.

Lemma emits_ret {E} (full : E) : emits full (mret tt) [].
Proof.
  intros w Hi. split; simpl; [|lia]. intros _. exists w. rewrite app_nil_r.
  split_and!; [done..|lia].
Qed.

Lemma emits_bind {E} (full : E) (m1 m2 : M W E unit) b1 b2 :
  emits full m1 b1 → emits full m2 b2 → emits full (m1 ;; m2) (b1 ++ b2).
Proof.
  intros J1 J2 w Hi. rewrite length_app. destruct (J1 w Hi) as [Hok1 Hf1]. split; intros Hr.
  - destruct Hok1 as (w1 & Hm1 & Hi1 & Ho1 & Hr1); [lia|].
    destruct (J2 w1 Hi1) as [Hok2 _].
    destruct Hok2 as (w2 & Hm2 & Hi2 & Ho2 & Hr2); [lia|].
    exists w2. erewrite bind_ok by done. split_and!; [done..| |lia].
    by rewrite Ho2, Ho1, app_assoc.
  - destruct (decide (length b1 <= wr_room w)%nat) as [Hl|Hl].
    + destruct Hok1 as (w1 & Hm1 & Hi1 & Ho1 & Hr1); [done|].
      destruct (J2 w1 Hi1) as [_ Hf2].
      destruct Hf2 as (w2 & Hm2 & Hi2 & Ho2); [lia|].
      exists w2. erewrite bind_ok by done. split_and!; [done..|].
      etrans; [|exact Ho2]. rewrite Ho1. by apply prefix_app_r.
    + destruct Hf1 as (w1 & Hm1 & Hi1 & Ho1); [lia|].
      exists w1. erewrite bind_err by done. done.
Qed.

Lemma emits_write bs : emits (ToIo BufferExhausted) (io_to (write_bytes bs)) bs.
Proof.
  intros w Hi. split; intros Hr.
  - destruct (wr_ok bs w Hi Hr) as (w' & Hw & ? & ? & ?). exists w'.
    unfold io_to. by erewrite map_err_ok.
  - exists w. unfold io_to. erewrite map_err_err by (by apply wr_full). done.
Qed.

Lemma emits_eq {E} (full : E) (m : M W E unit) b b' : b = b' → emits full m b → emits full m b'.
Proof. by intros ->. Qed.

Lemma parses_ret {E A} (a : A) : parses (E := E) (mret a) [] a.
Proof. intros r rest Hr. exists r. done. Qed.

Lemma parses_bind {E A B} (m : M R E A) (k : A → M R E B) b1 b2 a b :
  parses m b1 a → parses (k a) b2 b → parses (m ≫= k) (b1 ++ b2) b.
Proof.
  intros J1 J2 r rest Hr. rewrite <-app_assoc in Hr.
  destruct (J1 r _ Hr) as (r1 & Hm & Hr1). destruct (J2 r1 _ Hr1) as (r2 & Hk & Hr2).
  exists r2. by erewrite bind_ok.
Qed.

Lemma parses_eq {E A} (m : M R E A) b b' a : b = b' → parses m b a → parses m b' a.
Proof. by intros ->. Qed.

Lemma parses_io {A} (m : M R IoError A) bs a : parses m bs a → parses (io_from m) bs a.
Proof.
  intros J1 r rest Hr. destruct (J1 r rest Hr) as (r' & Hm & ?). exists r'.
  unfold io_from. by erewrite map_err_ok.
Qed.

Lemma parses_ok_or {E A} (e : E) (o : option A) a : o = Some a → parses (ok_or e o) [] a.
Proof. intros ->. apply parses_ret. Qed.

Lemma parses_read n bs : length bs = n → parses (read_bytes n) bs bs.
Proof.
  intros Hl r rest Hr. destruct (rd_ok n r) as (r' & Hm & Hv).
  { rewrite Hr, length_app. lia. }
  exists r'. rewrite Hm, Hr. split; [|by rewrite Hv, Hr, <-Hl, drop_app_length].
  by rewrite <-Hl, take_app_length.
Qed.

Lemma reads_ret {E A} (P : list Z → A → Prop) a : P [] a → reads (E := E) (mret a) P.
Proof. intros HP r Hr. exists []. done. Qed.

Lemma reads_throw {E A} (P : list Z → A → Prop) (e : E) : reads (throw e) P.
Proof. done. Qed.

Lemma reads_bind {E A B} (m : M R E A) (k : A → M R E B) P Q :
  reads m P → (∀ b1 a, bytes_ok b1 → P b1 a → reads (k a) (λ b2 b, Q (b1 ++ b2) b)) →
  reads (m ≫= k) Q.
Proof.
  intros Hm Hk r Hr. specialize (Hm r Hr). unfold mbind, M_bind.
  destruct (m r) as [[a|e|] r1]; [|done..]. destruct Hm as (b1 & Hv & HP).
  rewrite Hv in Hr. apply bytes_ok_app in Hr as [Hb1 Hr1].
  specialize (Hk b1 a Hb1 HP r1 Hr1). destruct (k a r1) as [[b|e|] r2]; [|done..].
  destruct Hk as (b2 & Hv2 & HQ). exists (b1 ++ b2). by rewrite Hv, Hv2, app_assoc.
Qed.

Lemma reads_weaken {E A} (m : M R E A) (P Q : list Z → A → Prop) :
  reads m P → (∀ bs a, P bs a → Q bs a) → reads m Q.
Proof.
  intros Hm HPQ r Hr. specialize (Hm r Hr). destruct (m r) as [[a|e|] r1]; [|done..].
  destruct Hm as (bs & ? & ?). eauto.
Qed.

Lemma reads_io {A} (m : M R IoError A) P : reads m P → reads (io_from m) P.
Proof.
  intros Hm r Hr. specialize (Hm r Hr). unfold io_from, map_err.
  by destruct (m r) as [[a|e|] r1].
Qed.

Lemma reads_ok_or {E A} (e : E) (o : option A) (P : list Z → A → Prop) :
  (∀ a, o = Some a → P [] a) → reads (ok_or e o) P.
Proof. intros HP. destruct o; [apply reads_ret; auto|apply reads_throw]. Qed.

Lemma reads_read n : reads (read_bytes n) (λ bs out, bs = out ∧ length out = n).
Proof.
  intros r Hr. destruct (decide (n <= length (rd_view r))%nat) as [Hn|Hn].
  - destruct (rd_ok n r Hn) as (r' & -> & Hv). exists (take n (rd_view r)).
    rewrite Hv, take_drop, length_take. split_and!; [done..|lia].
  - rewrite rd_short by lia. done.
Qed.

End Rules.

(** ** Integers on the wire *)

Section Integers.
Context {W : Type} `{WriteLaws W} {R : Type} `{ReadLaws R}.

Lemma emits_u8 v : emits (ToIo BufferExhausted) (io_to (write_be U8 v)) [v].
Proof. apply emits_write. Qed.
Lemma emits_u16 v : emits (ToIo BufferExhausted) (io_to (write_be U16 v)) (be_bytes 2 v).
Proof. apply emits_write. Qed.
Lemma emits_u24 v : emits (ToIo BufferExhausted) (io_to (write_be U24 v)) (be_bytes 3 v).
Proof. apply emits_write. Qed.
Lemma emits_u32 v : emits (ToIo BufferExhausted) (io_to (write_be U32 v)) (be_bytes 4 v).
Proof. apply emits_write. Qed.
Lemma emits_le_u32 v : emits (ToIo BufferExhausted) (io_to (write_le U32 v)) (le_bytes 4 v).
Proof. apply emits_write. Qed.
Lemma emits_le_u64 v : emits (ToIo BufferExhausted) (io_to (write_le U64 v)) (le_bytes 8 v).
Proof. apply emits_write. Qed.

(** Reading [n] bytes and combining them inverts splitting a value that fits. *)
Lemma parses_value n (f : list Z → Z) (g : Z → list Z) v :
  length (g v) = n → f (g v) = v →
  parses (bs ← read_bytes n; mret (f (take n bs))) (g v) v.
Proof.
  intros Hl Hf. rewrite <-(app_nil_r (g v)).
  eapply parses_bind; [by apply parses_read|].
  rewrite take_ge, Hf by lia. apply parses_ret.
Qed.

Lemma be_value_small n v : fits (8 * Z.of_nat n) v → be_value (be_bytes n v) = v.
Proof.
  intros Hv. rewrite be_value_bytes. apply Z.mod_small. unfold fits in Hv.
  rewrite Z.pow_mul_r in Hv by lia. done.
Qed.

Lemma le_value_small n v : fits (8 * Z.of_nat n) v → le_value (le_bytes n v) = v.
Proof.
  intros Hv. rewrite le_value_bytes. apply Z.mod_small. unfold fits in Hv.
  rewrite Z.pow_mul_r in Hv by lia. done.
Qed.

Lemma parses_u8 v : parses (io_from (read_be U8)) [v] v.
Proof.
  apply parses_io. eapply (parses_bind _ _ [v] []); [by apply parses_read|]. apply parses_ret.
Qed.
Lemma parses_u16 v : fits 16 v → parses (io_from (read_be U16)) (be_bytes 2 v) v.
Proof. intros. apply parses_io, parses_value; [apply length_be_bytes|by apply be_value_small]. Qed.
Lemma parses_u32 v : fits 32 v → parses (io_from (read_be U32)) (be_bytes 4 v) v.
Proof. intros. apply parses_io, parses_value; [apply length_be_bytes|by apply be_value_small]. Qed.
Lemma parses_le_u32 v : fits 32 v → parses (io_from (read_le U32)) (le_bytes 4 v) v.
Proof. intros. apply parses_io, parses_value; [apply length_le_bytes|by apply le_value_small]. Qed.
Lemma parses_le_u64 v : fits 64 v → parses (io_from (read_le U64)) (le_bytes 8 v) v.
Proof. intros. apply parses_io, parses_value; [apply length_le_bytes|by apply le_value_small]. Qed.
Lemma parses_u24 v : fits 24 v → parses (io_from (read_be U24)) (be_bytes 3 v) v.
Proof.
  intros Hv. apply parses_io. rewrite <-(app_nil_r (be_bytes 3 v)).
  eapply parses_bind; [by apply parses_read|].
  rewrite take_ge, be_value_small by (done || by rewrite length_be_bytes).
  cbv zeta. destruct (v <? 2 ^ 24) eqn:E; zb; [apply parses_ret|unfold fits in Hv; lia].
Qed.

Lemma reads_value n (f : list Z → Z) (g : Z → list Z) :
  (∀ bs, bytes_ok bs → length bs = n → bs = g (f bs) ∧ fits (8 * Z.of_nat n) (f bs)) →
  reads (bs ← read_bytes n; mret (f (take n bs)))
        (λ bs v, bs = g v ∧ fits (8 * Z.of_nat n) v).
Proof.
  intros Hf. eapply reads_bind; [apply reads_read|]. intros b1 a Hb [<- Hl].
  apply reads_ret. rewrite app_nil_r, take_ge by lia. by apply Hf.
Qed.

Lemma be_split n bs :
  bytes_ok bs → length bs = n → bs = be_bytes n (be_value bs) ∧ fits (8 * Z.of_nat n) (be_value bs).
Proof.
  intros Hb <-. split; [by rewrite be_bytes_value|].
  unfold fits. rewrite Z.pow_mul_r by lia. by apply be_value_bound.
Qed.

Lemma le_split n bs :
  bytes_ok bs → length bs = n → bs = le_bytes n (le_value bs) ∧ fits (8 * Z.of_nat n) (le_value bs).
Proof.
  intros Hb <-. split; [by rewrite le_bytes_value|].
  unfold fits. rewrite Z.pow_mul_r by lia. by apply le_value_bound.
Qed.

Lemma reads_u8 : reads (io_from (read_be U8)) (λ bs v, bs = [v] ∧ fits 8 v).
Proof.
  apply reads_io. eapply reads_bind; [apply reads_read|]. intros b1 a Hb [<- Hl].
  destruct b1 as [|b [|]]; try done. apply reads_ret. split; [done|].
  by apply Forall_cons in Hb as [].
Qed.
Lemma reads_u16 : reads (io_from (read_be U16)) (λ bs v, bs = be_bytes 2 v ∧ fits 16 v).
Proof. apply reads_io, (reads_value 2), be_split. Qed.
Lemma reads_u32 : reads (io_from (read_be U32)) (λ bs v, bs = be_bytes 4 v ∧ fits 32 v).
Proof. apply reads_io, (reads_value 4), be_split. Qed.
Lemma reads_le_u32 : reads (io_from (read_le U32)) (λ bs v, bs = le_bytes 4 v ∧ fits 32 v).
Proof. apply reads_io, (reads_value 4), le_split. Qed.
Lemma reads_le_u64 : reads (io_from (read_le U64)) (λ bs v, bs = le_bytes 8 v ∧ fits 64 v).
Proof. apply reads_io, (reads_value 8), le_split. Qed.
Lemma reads_u24 : reads (io_from (read_be U24)) (λ bs v, bs = be_bytes 3 v ∧ fits 24 v).
Proof.
  apply reads_io. eapply reads_bind; [apply reads_read|]. intros b1 a Hb [<- Hl].
  rewrite take_ge by lia. destruct (be_split 3 b1 Hb Hl) as [He Hf].
  cbv zeta. destruct (be_value b1 <? 2 ^ 24) eqn:E; zb; [|unfold fits in Hf; lia].
  apply reads_ret. by rewrite app_nil_r.
Qed.

End Integers.

(** ** Enums on the wire *)

Section EnumFacts.
Context {E : Type} `{WireEnumLaws E}.

(** The first match of a key in a list with distinct keys. *)
Lemma list_find_key {A K} `{EqDecision K} (f : A → K) (l : list A) a :
  NoDup (f <$> l) → a ∈ l → ∃ i, list_find (λ x, f x = f a) l = Some (i, a).
Proof.
  intros Hnd Ha. apply list_elem_of_lookup in Ha as [i Hi]. exists i.
  apply list_find_Some. split_and!; [done..|]. intros j y Hj Hlt Hy.
  assert (j = i); [|lia]. eapply NoDup_lookup; [exact Hnd| |];
    rewrite list_lookup_fmap; [by rewrite Hj|by rewrite Hi, Hy].
Qed.

Lemma variant_entry (x : E) : ∃ e, e ∈ variants E ∧ e.1.1 = x.
Proof.
  pose proof (variants_complete x) as Hx.
  apply list_elem_of_fmap in Hx as (p & -> & Hp). apply list_elem_of_fmap in Hp as (e & -> & He). eauto.
Qed.

Lemma to_wire_value_entry e : e ∈ variants E → to_wire_value e.1.1 = e.1.2.
Proof.
  intros He. unfold to_wire_value.
  destruct (list_find_key (λ v, v.1.1) (variants E) e) as [i Hi]; [|done|by rewrite Hi].
  pose proof variants_nodup as Hnd. by rewrite <-list_fmap_compose in Hnd.
Qed.

Lemma enum_name_entry e : e ∈ variants E → enum_name e.1.1 = e.2.
Proof.
  intros He. unfold enum_name.
  destruct (list_find_key (λ v, v.1.1) (variants E) e) as [i Hi]; [|done|by rewrite Hi].
  pose proof variants_nodup as Hnd. by rewrite <-list_fmap_compose in Hnd.
Qed.

Lemma from_to_wire_value (x : E) : from_wire_value (to_wire_value x) = Some x.
Proof.
  destruct (variant_entry x) as (e & He & <-). rewrite to_wire_value_entry by done.
  unfold from_wire_value.
  destruct (list_find_key (λ v, v.1.2) (variants E) e) as [i Hi]; [|done|by rewrite Hi].
  pose proof values_nodup as Hnd. by rewrite <-list_fmap_compose in Hnd.
Qed.

Lemma from_wire_value_inv (x : E) v : from_wire_value v = Some x → to_wire_value x = v.
Proof.
  unfold from_wire_value. intros Hf. apply fmap_Some in Hf as ([i e] & Hf & ->). simpl in *.
  apply list_find_Some in Hf as (Hi & <- & _). apply to_wire_value_entry.
  apply list_elem_of_lookup. eauto.
Qed.

Lemma from_name_name (x : E) : from_name (enum_name x) = Some x.
Proof.
  destruct (variant_entry x) as (e & He & <-). rewrite enum_name_entry by done.
  unfold from_name.
  destruct (list_find_key (λ v, v.2) (variants E) e) as [i Hi]; [|done|by rewrite Hi].
  apply names_nodup.
Qed.

Lemma to_wire_value_fits (x : E) : fits (width (wire_ty E)) (to_wire_value x).
Proof.
  destruct (variant_entry x) as (e & He & <-). rewrite to_wire_value_entry by done.
  pose proof values_fit as Hf. rewrite Forall_forall in Hf. apply Hf.
  apply list_elem_of_fmap. exists e.1. split; [done|]. apply list_elem_of_fmap. eauto.
Qed.

Lemma u8_enum_fits (x : E) : wire_ty E = U8 → fits 8 (to_wire_value x).
Proof. intros Hw. pose proof (to_wire_value_fits x) as Hf. by rewrite Hw in Hf. Qed.

End EnumFacts.

Section MoreRules.
Context {W : Type} `{WriteLaws W} {R : Type} `{ReadLaws R}.

Lemma parses_bind_ok_or {E A B} (e : E) (o : option A) (k : A → M R E B) a bs b :
  o = Some a → parses (k a) bs b → parses (ok_or e o ≫= k) bs b.
Proof. intros ->. done. Qed.

Lemma reads_bind_ok_or {E A B} (e : E) (o : option A) (k : A → M R E B) P :
  (∀ a, o = Some a → reads (k a) P) → reads (ok_or e o ≫= k) P.
Proof. intros Hk. destruct o as [a|]; [by apply Hk|]. intros r Hr. done. Qed.

Lemma parses_fail_closed {E A} (m : M R E A) P r :
  reads m P → bytes_ok (rd_view r) → (m r).1 ≠ Panic.
Proof. intros Hm Hr. specialize (Hm r Hr). by destruct (m r) as [[]]. Qed.

End MoreRules.

(** Syntax-directed use of the rules: serializers, parsers and their converse. *)
Ltac emits_step :=
  match goal with
  | |- emits _ (to_wire ?x) _ =>
      let T := type of x in refine (to_wire_emits (T := T) _ x _); solve [done | cbn; intuition auto]
  | |- emits _ (_ ≫= _) _ => eapply emits_bind
  | |- emits _ (mret _) _ => apply emits_ret
  | |- _ =>
      first [ apply emits_u8 | apply emits_u16 | apply emits_u24 | apply emits_u32
            | apply emits_le_u32 | apply emits_le_u64 | apply emits_write ]
  end.
Ltac emits_tac := repeat emits_step.

Ltac parses_step :=
  match goal with
  | |- parses (from_wire ?T) _ _ =>
      refine (from_wire_parses (T := T) _ _ _); solve [done | cbn; intuition auto]
  | |- parses (ok_or _ _ ≫= _) _ _ => eapply parses_bind_ok_or; [apply from_to_wire_value|]
  | |- parses (_ ≫= _) _ _ => eapply parses_bind
  | |- parses (mret _) _ _ => apply parses_ret
  | |- _ =>
      first [ apply parses_u8
            | (apply parses_u16; solve [intuition auto]) | (apply parses_u24; solve [intuition auto])
            | (apply parses_u32; solve [intuition auto]) | (apply parses_le_u32; solve [intuition auto])
            | (apply parses_le_u64; solve [intuition auto]) ]
  end.
Ltac parses_tac := repeat parses_step.

Ltac reads_step :=
  match goal with
  | |- reads (mret _) _ => apply reads_ret
  | |- reads (ok_or _ _ ≫= _) _ =>
      apply reads_bind_ok_or; let a := fresh "e" in let Hx := fresh "He" in
      intros a Hx; apply from_wire_value_inv in Hx; subst
  | |- reads (_ ≫= _) _ =>
      eapply reads_bind;
      [ first [ apply reads_u8 | apply reads_u16 | apply reads_u24 | apply reads_u32
              | apply reads_le_u32 | apply reads_le_u64 | apply from_wire_reads ]
      | let b := fresh "b" in let a := fresh "a" in let Hb := fresh "Hb" in let Ha := fresh "Ha" in
        intros b a Hb [-> Ha] ]
  end.
Ltac reads_tac := repeat reads_step.

(** The laws of an enum's table, checked by evaluation. *)
Ltac enum_laws :=
  split; [intros []| | | |]; by_compute.

(** ** What the contract gives *)

Section Contract.
Context {T : Type} `{Wl : WireLaws T}.

(** Serialize into any writer with room, then parse the bytes put out. *)
Lemma wire_roundtrip {W} `{WriteLaws W} {R} `{ReadLaws R} (x : T) (w : W) (r : R) rest :
  valid x → wr_inv w → (length (encode x) <= wr_room w)%nat →
  ∃ w' bs, to_wire x w = (Ok tt, w') ∧ wr_inv w' ∧ wr_out w' = wr_out w ++ bs ∧
    length bs = length (encode x) ∧
    (rd_view r = bs ++ rest → ∃ r', from_wire T r = (Ok x, r') ∧ rd_view r' = rest).
Proof.
  intros Hv Hi Hr. destruct (to_wire_emits W x Hv w Hi) as [Hok _].
  destruct (Hok Hr) as (w' & ? & ? & ? & ?). exists w', (encode x). split_and!; try done.
  intros Hview. by apply from_wire_parses.
Qed.

End Contract.

Section EnumContract.
Context {E : Type} `{WireEnumLaws E}.

Lemma be_bytes_1 v : fits 8 v → be_bytes 1 v = [v].
Proof. intros Hv. unfold be_bytes. simpl. by rewrite Z.mod_small. Qed.

Lemma emits_int {W} `{WriteLaws W} t v : fits (width t) v →
  emits (ToIo BufferExhausted) (io_to (@be_write_to _ (beint_of t) W _ v)) (be_bytes (size_of t) v).
Proof.
  intros Hv. destruct t; try apply emits_write. rewrite be_bytes_1 by done. apply emits_write.
Qed.

Lemma parses_int {R} `{ReadLaws R} t v : fits (width t) v →
  parses (io_from (@be_read_from _ (beint_of t) R _)) (be_bytes (size_of t) v) v.
Proof.
  intros Hv. destruct t; simpl.
  - rewrite be_bytes_1 by done. apply parses_u8.
  - by apply parses_u16.
  - by apply parses_u24.
  - by apply parses_u32.
  - apply parses_io, parses_value; [apply length_be_bytes|by apply be_value_small].
Qed.

#[global] Program Instance enum_WireLaws : WireLaws E :=
  {| valid _ := True; encode x := be_bytes (size_of (wire_ty E)) (to_wire_value x) |}.
Next Obligation.
  intros W ?? x _. unfold to_wire, enum_ToWire, enum_to_wire.
  rewrite <-(app_nil_r (be_bytes _ _)). eapply emits_bind; [|apply emits_ret].
  apply emits_int, to_wire_value_fits.
Qed.
Next Obligation.
  intros R ?? x _. unfold from_wire, enum_FromWire, enum_from_wire.
  rewrite <-(app_nil_r (be_bytes _ _)). eapply parses_bind.
  - apply parses_int, to_wire_value_fits.
  - apply parses_ok_or, from_to_wire_value.
Qed.

End EnumContract.
