(* ===== verification/FlashProto.v ===== *)
(** * SPI flash protocol ([shared-lib/spiutils/src/protocol/flash.rs])

    Address modes, op codes with their attributes, the [Address] trait and the
    header of a flash command.  [Header] is generic in the address type, as in
    the source; [Address] and [AddressLaws] are the interface it is proved
    against, and the 24- and 32-bit addresses discharge it. *)

From S2P Require Import Prelude Io Wire.
From Stdlib Require Import ZArith Lia.
From stdpp Require Import base decidable option list list_numbers strings.

#[local] Open Scope Z_scope.

Inductive AddressMode := ThreeByte | FourByte.

#[global] Instance AddressMode_eq_dec : EqDecision AddressMode.
Proof. solve_decision. Defined.

Definition address_mode_try_from (item : Z) : option AddressMode :=
  if item =? 0 then Some ThreeByte
  else if item =? 1 then Some FourByte
  else None.

Definition address_mode_to_usize (item : AddressMode) : Z :=
  match item with ThreeByte => 0 | FourByte => 1 end.

Inductive OpCode :=
| Nop | WriteStatusRegister | ReadStatusRegister | WriteDisable | WriteEnable
| WriteSuspend | WriteResume | SectorErase | BlockErase32KB | BlockErase64KB
| ChipErase | ChipErase2 | PageProgram | ReadJedec | ReadSfdp | NormalRead
| FastRead | FastRead4B | FastReadDualOutput | Enter4ByteAddressMode
| Exit4ByteAddressMode.

#[global] Instance OpCode_eq_dec : EqDecision OpCode.
Proof. solve_decision. Defined.

Definition OpCode_variants : list (OpCode * Z * string) := [
  (Nop, 0x00, "Nop");
  (WriteStatusRegister, 0x01, "WriteStatusRegister");
  (ReadStatusRegister, 0x05, "ReadStatusRegister");
  (WriteDisable, 0x04, "WriteDisable");
  (WriteEnable, 0x06, "WriteEnable");
  (WriteSuspend, 0xb0, "WriteSuspend");
  (WriteResume, 0x30, "WriteResume");
  (SectorErase, 0x20, "SectorErase");
  (BlockErase32KB, 0x52, "BlockErase32KB");
  (BlockErase64KB, 0xd8, "BlockErase64KB");
  (ChipErase, 0xc7, "ChipErase");
  (ChipErase2, 0x60, "ChipErase2");
  (PageProgram, 0x02, "PageProgram");
  (ReadJedec, 0x9f, "ReadJedec");
  (ReadSfdp, 0x5a, "ReadSfdp");
  (NormalRead, 0x03, "NormalRead");
  (FastRead, 0x0b, "FastRead");
  (FastRead4B, 0x0c, "FastRead4B");
  (FastReadDualOutput, 0x3b, "FastReadDualOutput");
  (Enter4ByteAddressMode, 0xb7, "Enter4ByteAddressMode");
  (Exit4ByteAddressMode, 0xe9, "Exit4ByteAddressMode") ].

#[global] Instance OpCode_WireEnum : WireEnum OpCode :=
  {| wire_ty := U8; variants := OpCode_variants |}.

#[global] Instance OpCode_WireEnumLaws : WireEnumLaws OpCode.
Proof. enum_laws. Qed.

Definition has_address (self : OpCode) : bool :=
  match self with
  | SectorErase | BlockErase32KB | BlockErase64KB | PageProgram | ReadSfdp
  | NormalRead | FastRead | FastRead4B | FastReadDualOutput => true
  | _ => false
  end.

Definition has_dummy_byte (self : OpCode) : bool :=
  match self with
  | FastRead | FastRead4B | FastReadDualOutput => true
  | _ => false
  end.

Definition has_data (self : OpCode) : bool :=
  match self with
  | PageProgram => true
  | _ => false
  end.

Definition wait_busy_clear (self : OpCode) : bool :=
  match self with
  | WriteSuspend | WriteResume | SectorErase | BlockErase32KB | BlockErase64KB
  | ChipErase | ChipErase2 | PageProgram => true
  | _ => false
  end.

Definition DUMMY_BYTE_VALUE : Z := 0xff.

(** The [Address] trait: a big-endian integer that can be made from a [u32]. *)
Class Address (t : int_ty) := {
  addr_BeInt :: BeInt t;
  addr_try_from : Z → option Z;
}.
Arguments addr_try_from t {_}.

Definition u24_try_from (val : Z) : option Z :=
  if (0 <=? val) && (val <=? 2 ^ 24 - 1) then Some val else None.

Definition u32_try_from (val : Z) : option Z := Some val.

#[global] Instance u24_Address : Address U24 :=
  {| addr_BeInt := u24_BeInt; addr_try_from := u24_try_from |}.
#[global] Instance u32_Address : Address U32 :=
  {| addr_BeInt := u32_BeInt; addr_try_from := u32_try_from |}.

Record Header (t : int_ty) := mk_Header { opcode : OpCode; address : option Z }.
Arguments mk_Header {t} opcode address.
Arguments opcode {t} _.
Arguments address {t} _.

Definition get_address {t} (self : Header t) : option Z := address self.

Definition header_from_wire {t} `{Address t} {R} `{Read R} : M R FromWireError (Header t) :=
  opcode_u8 ← io_from (read_be U8);
  opcode ← ok_or OutOfRange (from_wire_value opcode_u8);
  address ← (if has_address opcode then a ← io_from (read_be t); mret (Some a) else mret None);
  (if has_dummy_byte opcode then _ ← io_from (read_be U8); mret tt else mret tt) ;;
  mret (mk_Header opcode address).

Definition header_to_wire {t} `{Address t} {W} `{Write W} (self : Header t) : M W ToWireError unit :=
  io_to (write_be U8 (to_wire_value (opcode self))) ;;
  (if has_address (opcode self) then
     match address self with
     | None => throw InvalidData
     | Some a => io_to (write_be t a)
     end
   else mret tt) ;;
  (if has_dummy_byte (opcode self) then io_to (write_be U8 DUMMY_BYTE_VALUE) else mret tt) ;;
  mret tt.

#[global] Instance Header_FromWire t `{Address t} : FromWire (Header t) := λ R _, header_from_wire.
#[global] Instance Header_ToWire t `{Address t} : ToWire (Header t) := λ W _, header_to_wire.

(** ** What the header needs of its address type *)

Class AddressLaws (t : int_ty) `{Address t} := {
  addr_emits : ∀ W `{WriteLaws W} a, fits (width t) a →
    emits (ToIo BufferExhausted) (io_to (write_be t (W := W) a)) (be_bytes (size_of t) a);
  addr_parses : ∀ R `{ReadLaws R} a, fits (width t) a →
    parses (io_from (read_be t (R := R))) (be_bytes (size_of t) a) a;
  addr_reads : ∀ R `{ReadLaws R},
    reads (io_from (read_be t (R := R))) (λ bs a, bs = be_bytes (size_of t) a ∧ fits (width t) a);
  addr_try : ∀ a, 0 <= a < 2 ^ 32 → addr_try_from t a = if decide (fits (width t) a) then Some a else None;
}.

#[global] Instance u24_AddressLaws : AddressLaws U24.
Proof.
  split; intros.
  - apply emits_u24.
  - by apply parses_u24.
  - apply reads_u24.
  - simpl. unfold u24_try_from, fits in *. change (width U24) with 24.
    case_decide; destruct (_ && _) eqn:E; zb; try done; [|lia].
    apply andb_false_iff in E as [E|E]; zb; lia.
Qed.

#[global] Instance u32_AddressLaws : AddressLaws U32.
Proof.
  split; intros.
  - apply emits_u32.
  - by apply parses_u32.
  - apply reads_u32.
  - simpl. unfold u32_try_from, fits. by rewrite decide_True.
Qed.

(** ** The format of a header *)

Section HeaderFormat.
Context {t : int_ty} `{AddressLaws t}.

(** An address is present, and in range, exactly when the op code takes one. *)
Definition header_valid (h : Header t) : Prop :=
  match address h with
  | Some a => has_address (opcode h) = true ∧ fits (width t) a
  | None => has_address (opcode h) = false
  end.

Definition header_encode (h : Header t) : list Z :=
  [to_wire_value (opcode h)] ++
  (if address h is Some a then be_bytes (size_of t) a else []) ++
  (if has_dummy_byte (opcode h) then [DUMMY_BYTE_VALUE] else []) ++ [].

#[global] Program Instance Header_WireLaws : WireLaws (Header t) :=
  {| valid := header_valid; encode := header_encode |}.
Next Obligation.
  intros W ?? [op a] Hv. unfold to_wire, Header_ToWire, header_to_wire, header_encode.
  unfold header_valid in Hv. cbn [opcode address] in *. repeat apply emits_bind.
  - apply emits_u8.
  - destruct a as [a|].
    + destruct Hv as [-> Hf]. by apply addr_emits.
    + rewrite Hv. apply emits_ret.
  - destruct (has_dummy_byte op); [apply emits_u8|apply emits_ret].
  - apply emits_ret.
Qed.
Next Obligation.
  intros R ?? [op a] Hv. unfold from_wire, Header_FromWire, header_from_wire, header_encode.
  unfold header_valid in Hv. cbn [opcode address] in *.
  eapply parses_bind; [apply parses_u8|].
  eapply parses_bind_ok_or; [apply from_to_wire_value|].
  eapply (parses_bind _ _ _ _ a).
  - destruct a as [a|].
    + destruct Hv as [-> Hf]. rewrite <-(app_nil_r (be_bytes _ _)).
      eapply parses_bind; [by apply addr_parses|apply parses_ret].
    + rewrite Hv. apply parses_ret.
  - eapply (parses_bind _ _ _ _ tt); [|apply parses_ret].
    destruct (has_dummy_byte op); [|apply parses_ret].
    eapply (parses_bind _ _ [_] []); [apply parses_u8|apply parses_ret].
Qed.

(** What the parser accepts: the encoding of its result, up to the value of the
    dummy byte. *)
Lemma header_reads {R} `{ReadLaws R} :
  reads (R := R) (from_wire (Header t)) (λ bs h, header_valid h ∧
    ∃ d, bs = [to_wire_value (opcode h)] ++
              (if address h is Some a then be_bytes (size_of t) a else []) ++ d ∧
         length d = if has_dummy_byte (opcode h) then 1%nat else 0%nat).
Proof.
  unfold from_wire, Header_FromWire, header_from_wire. do 2 reads_step. cbn beta.
  eapply (reads_bind _ _ (λ bs a, header_valid (mk_Header (t := t) e a) ∧
            bs = if a is Some a then be_bytes (size_of t) a else [])).
  { unfold header_valid. cbn [opcode address]. destruct (has_address e) eqn:Ea.
    - eapply reads_bind; [apply addr_reads|]. intros b a Hb1 [-> Hf]. apply reads_ret.
      by rewrite app_nil_r.
    - by apply reads_ret. }
  intros b1 a Hb1 [Hv ->].
  eapply (reads_bind _ _ (λ bs _, length bs = if has_dummy_byte e then 1%nat else 0%nat)).
  { destruct (has_dummy_byte e); [|by apply reads_ret].
    eapply reads_bind; [apply reads_u8|]. intros b x Hbx [-> ?]. by apply reads_ret. }
  intros b2 _ Hb2 Hl. apply reads_ret. split; [done|]. exists b2. rewrite app_nil_r. done.
Qed.

End HeaderFormat.

(** ** Theorems *)

(** Headers survive the wire.  For either address width, serializing a header
    into any writer with room for it succeeds, and parsing the bytes it put out,
    whatever follows them, gives back the same header and stops right after it. *)
Theorem flash_header_roundtrip {t} `{AddressLaws t} {W} `{WriteLaws W} {R} `{ReadLaws R}
    (h : Header t) (w : W) (r : R) rest :
  header_valid h → wr_inv w → (length (header_encode h) <= wr_room w)%nat →
  ∃ w' bs, header_to_wire h w = (Ok tt, w') ∧ wr_inv w' ∧ wr_out w' = wr_out w ++ bs ∧
    length bs = length (header_encode h) ∧
    (rd_view r = bs ++ rest → ∃ r', header_from_wire r = (Ok h, r') ∧ rd_view r' = rest).
Proof. exact (wire_roundtrip (T := Header t) h w r rest). Qed.

Definition sample_header : Header U24 := mk_Header PageProgram (Some 0x12345).

Lemma flash_header_roundtrip_witness :
  ∃ w' bs, header_to_wire sample_header (Cursor.new [0; 0; 0; 0; 0]) = (Ok tt, w') ∧
    wr_inv w' ∧ wr_out w' = wr_out (Cursor.new [0; 0; 0; 0; 0]) ++ bs ∧ length bs = 4%nat ∧
    ([2; 1; 35; 69; 9; 9] = bs ++ [9; 9] →
     ∃ r', header_from_wire [2; 1; 35; 69; 9; 9] = (Ok sample_header, r') ∧ r' = [9; 9]).
Proof.
  refine (flash_header_roundtrip sample_header (Cursor.new [0; 0; 0; 0; 0])
            [2; 1; 35; 69; 9; 9] [9; 9] _ _ _).
  - split; [done|by_compute].
  - split; simpl; lia.
  - by_compute.
Defined.

(** Reading an address from a byte slice, on both branches. *)
Class SliceAddress (t : int_ty) `{AddressLaws t} :=
  read_addr_slice : ∀ buf, bytes_ok buf →
    io_from (read_be t) buf =
    if (length buf <? size_of t)%nat then (Err (FromIo BufferExhausted), buf)
    else (Ok (be_value (take (size_of t) buf)), drop (size_of t) buf).

#[global] Instance u24_SliceAddress : SliceAddress U24.
Proof.
  intros buf Hb. change (read_be U24) with (u24_be_read_from (R := list Z)). change (size_of U24) with 3%nat.
  unfold io_from, map_err, u24_be_read_from. rewrite bind_unfold. unfold read_bytes, slice_Read, slice_read_bytes.
  destruct (length buf <? 3)%nat eqn:E; [done|]; zb. cbv zeta.
  rewrite take_take. simpl (_ `min` _)%nat.
  destruct (be_value (take 3 buf) <? 2 ^ 24) eqn:Ev; [done|]. zb. exfalso.
  destruct (be_split 3 (take 3 buf)) as [_ Hf].
  - by apply Forall_take.
  - rewrite length_take. lia.
  - unfold fits in Hf. lia.
Qed.

#[global] Instance u32_SliceAddress : SliceAddress U32.
Proof.
  intros buf Hb. change (read_be U32) with (u32_be_read_from (R := list Z)). change (size_of U32) with 4%nat.
  unfold io_from, map_err, u32_be_read_from. rewrite bind_unfold. unfold read_bytes, slice_Read, slice_read_bytes.
  destruct (length buf <? 4)%nat eqn:E; [done|]; zb.
  by rewrite take_take.
Qed.

Lemma read_u8_slice buf :
  io_from (read_be U8) buf =
  match buf with
  | [] => (Err (FromIo BufferExhausted), [])
  | b :: rest => (Ok b, rest)
  end.
Proof. by destruct buf. Qed.

(** What the header parser does on any packet.  An empty packet and a packet
    cut inside the header are refused with [BufferExhausted], an unknown op code
    with [OutOfRange]; otherwise the header is the op code and, exactly when the
    op code takes one, the big-endian address, and what is left is the packet
    after the header and its dummy byte.  There is no other outcome: no packet
    makes the parser panic. *)
Theorem flash_header_parse {t} `{SliceAddress t} (buf : list Z) :
  bytes_ok buf →
  header_from_wire (t := t) buf =
  match buf with
  | [] => (Err (FromIo BufferExhausted), [])
  | b :: rest =>
    match from_wire_value b with
    | None => (Err OutOfRange, rest)
    | Some op =>
      let n := if has_address op then size_of t else 0%nat in
      let h := mk_Header op (if has_address op then Some (be_value (take n rest)) else None) in
      if (length rest <? n)%nat then (Err (FromIo BufferExhausted), rest)
      else if has_dummy_byte op then
        match drop n rest with
        | [] => (Err (FromIo BufferExhausted), [])
        | _ :: rest' => (Ok h, rest')
        end
      else (Ok h, drop n rest)
    end
  end.
Proof.
  intros Hb. unfold header_from_wire. rewrite bind_unfold, read_u8_slice.
  destruct buf as [|b rest]; [done|].
  apply Forall_cons in Hb as [_ Hb].
  rewrite bind_unfold. destruct (from_wire_value b) as [op|] eqn:Eop; cbn [ok_or]; [|done].
  unfold mret at 1, M_ret at 1. rewrite bind_unfold.
  destruct (has_address op) eqn:Ea; cbv zeta.
  - rewrite bind_unfold, read_addr_slice by done.
    destruct (length rest <? size_of t)%nat eqn:El; [done|].
    unfold mret at 1, M_ret at 1. rewrite bind_unfold.
    destruct (has_dummy_byte op) eqn:Ed; [|done].
    rewrite bind_unfold, read_u8_slice. by destruct (drop (size_of t) rest).
  - assert (has_dummy_byte op = false) as -> by by destruct op. done.
Qed.

Lemma flash_header_parse_witness :
  header_from_wire (t := U24) [11; 0; 0; 7; 255; 1] = (Ok (mk_Header FastRead (Some 7)), [1]).
Proof. refine (flash_header_parse (t := U24) [11; 0; 0; 7; 255; 1] _). by_compute. Defined.

(** A header that lacks the address its op code needs is refused with
    [InvalidData], after the op code byte has already been put out. *)
Theorem flash_header_to_wire_missing_address {t} `{Address t} {W} `{WriteLaws W} (op : OpCode) (w : W) :
  has_address op = true → wr_inv w → (1 <= wr_room w)%nat →
  ∃ w', header_to_wire (t := t) (mk_Header op None) w = (Err InvalidData, w') ∧
        wr_out w' = wr_out w ++ [to_wire_value op].
Proof.
  intros Ha Hi Hr. unfold header_to_wire. cbn [opcode address]. rewrite Ha.
  destruct (emits_u8 (to_wire_value op) w Hi) as [Hok _].
  destruct (Hok Hr) as (w' & Hw & _ & Ho & _). exists w'.
  erewrite bind_ok by done. done.
Qed.

Lemma flash_header_to_wire_missing_address_witness :
  ∃ w', header_to_wire (t := U32) (mk_Header SectorErase None) (Cursor.new [0; 0]) = (Err InvalidData, w') ∧
        wr_out w' = wr_out (Cursor.new [0; 0]) ++ [0x20].
Proof.
  apply (flash_header_to_wire_missing_address (t := U32) SectorErase (Cursor.new [0; 0])); [done| |simpl; lia].
  split; simpl; lia.
Defined.

(** The identities the [WireEnum] documentation demands hold for the op codes
    and for every enum declared by [wire_enum!] with a well-formed table: values
    and names round trip, and only the value of a variant is accepted for it. *)
Theorem wire_enum_identities {E} `{WireEnumLaws E} (x : E) (v : Z) :
  from_wire_value (to_wire_value x) = Some x ∧
  from_name (enum_name x) = Some x ∧
  enum_from_str (enum_name x) = inl x ∧
  (from_wire_value v = Some x → v = to_wire_value x).
Proof.
  split_and!.
  - apply from_to_wire_value.
  - apply from_name_name.
  - unfold enum_from_str. by rewrite from_name_name.
  - intros Hv. by rewrite (from_wire_value_inv x v).
Qed.

Lemma wire_enum_identities_witness :
  from_wire_value (to_wire_value Exit4ByteAddressMode) = Some Exit4ByteAddressMode ∧
  from_name (enum_name Exit4ByteAddressMode) = Some Exit4ByteAddressMode ∧
  enum_from_str (enum_name Exit4ByteAddressMode) = inl Exit4ByteAddressMode ∧
  (from_wire_value 0xe9 = Some Exit4ByteAddressMode → 0xe9 = to_wire_value Exit4ByteAddressMode).
Proof. apply (wire_enum_identities Exit4ByteAddressMode 0xe9). Defined.
