(* ===== verification/Payload.v ===== *)
(** * SPI payload header and checksum ([shared-lib/spiutils/src/protocol/payload.rs])

    The CRC-8 in its 16-bit register, the checksum of a payload, the content
    types and the payload header.  The CRC is proved equal to the remainder of
    polynomial long division by x^8+x^2+x+1 over the two-element field, and to
    detect every error confined to eight consecutive bits. *)

From S2P Require Import Prelude Io Wire.
From Stdlib Require Import ZArith Lia.
From stdpp Require Import base decidable option list list_numbers strings.

#[local] Open Scope Z_scope.

Module Crc8.

Record t := mk { crc : Z }.

Definition init : t := mk 0.

Definition get (self : t) : Z := wrap 8 (Z.land (Z.shiftr (crc self) 8) 0xff).

(** One round of the inner loop, on the 16-bit register. *)
Definition round (c : Z) : Z :=
  let c := if negb (Z.land c 0x8000 =? 0) then Z.lxor c (wrap 16 (Z.shiftl 0x1070 3)) else c in
  wrap 16 (Z.shiftl c 1).

Definition add_byte (c : Z) (byte : Z) : Z :=
  Nat.iter 8 round (Z.lxor c (wrap 16 (Z.shiftl byte 8))).

Definition add (data : list Z) (self : t) : t := mk (foldl add_byte (crc self) data).

End Crc8.

Inductive ContentType := CtError | CtManticore | CtFirmware.

#[global] Instance ContentType_eq_dec : EqDecision ContentType.
Proof. solve_decision. Defined.

Definition ContentType_variants : list (ContentType * Z * string) :=
  [(CtError, 0x00, "Error"); (CtManticore, 0x01, "Manticore"); (CtFirmware, 0x02, "Firmware")].

#[global] Instance ContentType_WireEnum : WireEnum ContentType :=
  {| wire_ty := U8; variants := ContentType_variants |}.

#[global] Instance ContentType_WireEnumLaws : WireEnumLaws ContentType.
Proof. enum_laws. Qed.

Record PayloadHeader := mk_PayloadHeader {
  content : ContentType;
  content_len : Z;
  checksum : Z;
}.

#[global] Instance PayloadHeader_eq_dec : EqDecision PayloadHeader.
Proof. solve_decision. Defined.

Definition HEADER_LEN : nat := 4.

(** [&payload[..header.content_len as usize]] panics when the payload is shorter;
    [None] is that panic. *)
Definition compute_checksum (header : PayloadHeader) (payload : list Z) : option Z :=
  let n := Z.to_nat (content_len header) in
  if (length payload <? n)%nat then None
  else Some (Crc8.get
         (Crc8.add (take n payload)
            (Crc8.add (be_bytes 2 (content_len header))
               (Crc8.add [to_wire_value (content header)] Crc8.init)))).

Definition payload_header_from_wire {R} `{Read R} : M R FromWireError PayloadHeader :=
  content_u8 ← io_from (read_be U8);
  content ← ok_or OutOfRange (from_wire_value content_u8);
  content_len ← io_from (read_be U16);
  checksum ← io_from (read_be U8);
  mret (mk_PayloadHeader content content_len checksum).

Definition payload_header_to_wire {W} `{Write W} (self : PayloadHeader) : M W ToWireError unit :=
  io_to (write_be U8 (to_wire_value (content self))) ;;
  io_to (write_be U16 (content_len self)) ;;
  io_to (write_be U8 (checksum self)) ;;
  mret tt.

#[global] Instance PayloadHeader_FromWire : FromWire PayloadHeader := λ R _, payload_header_from_wire.
#[global] Instance PayloadHeader_ToWire : ToWire PayloadHeader := λ W _, payload_header_to_wire.

(** ** The header's format *)

Definition payload_header_valid (h : PayloadHeader) : Prop :=
  fits 16 (content_len h) ∧ fits 8 (checksum h).

#[global] Program Instance PayloadHeader_WireLaws : WireLaws PayloadHeader := {|
  valid := payload_header_valid;
  encode h := [to_wire_value (content h)] ++ be_bytes 2 (content_len h) ++ [checksum h] ++ [];
|}.
Next Obligation. intros W ?? h Hv. unfold to_wire, PayloadHeader_ToWire, payload_header_to_wire. emits_tac. Qed.
Next Obligation.
  intros R ?? [c l k] [Hl Hk]. unfold from_wire, PayloadHeader_FromWire, payload_header_from_wire.
  parses_tac.
Qed.

#[global] Instance PayloadHeader_WireCanonical : WireCanonical PayloadHeader.
Proof.
  intros R ??. unfold from_wire, PayloadHeader_FromWire, payload_header_from_wire.
  reads_tac. done.
Qed.

(** ** The CRC as polynomial division *)

Module CrcTheory.
Import Crc8.

(** Textbook long division over the two-element field: shift in the next bit of
    the dividend and subtract the divisor x^8+x^2+x+1 when the leading
    coefficient of the partial remainder is set. *)
Definition div_step (r : Z) (bit : bool) : Z :=
  let r' := 2 * r + Z.b2z bit in
  if Z.testbit r' 8 then Z.lxor r' 0x107 else r'.

Definition byte_bits (b : Z) : list bool := (λ i, Z.testbit b i) <$> [7; 6; 5; 4; 3; 2; 1; 0].

Definition poly_rem (bits : list bool) : Z := foldl div_step 0 bits.

(** The remainder of the message, as a polynomial, times x^8. *)
Definition crc_reference (data : list Z) : Z :=
  poly_rem (concat (byte_bits <$> data) ++ replicate 8 false).

(** The round on the upper byte of the register; the lower byte stays zero. *)
Definition round8 (r : Z) : Z :=
  Z.lxor (wrap 8 (2 * r)) (if Z.testbit r 7 then 7 else 0).

Definition round8_8 (r : Z) : Z := Nat.iter 8 round8 r.

Definition all_bytes : list Z := seqZ 0 256.

Lemma all_bytes_spec b : fits 8 b → b ∈ all_bytes.
Proof. intros [??]. apply elem_of_seqZ. change (2 ^ 8) with 256 in *. lia. Qed.

(** A property of a byte, by evaluation on the 256 values. *)
Lemma byte_forall (P : Z → Prop) `{∀ b, Decision (P b)} :
  bool_decide (Forall P all_bytes) = true → ∀ b, fits 8 b → P b.
Proof.
  intros HF%bool_decide_eq_true b Hb. rewrite Forall_forall in HF. by apply HF, all_bytes_spec.
Qed.

(** Equations between exclusive ors. *)
Ltac lxor_solve :=
  apply Z.bits_inj'; intros ? ?; rewrite ?Z.lxor_spec, ?Z.bits_0;
  repeat match goal with |- context [Z.testbit ?x ?i] => destruct (Z.testbit x i) end; reflexivity.

Lemma lxor_fits w a b : 0 <= w → fits w a → fits w b → fits w (Z.lxor a b).
Proof.
  intros Hw Ha Hb. apply bits_fits; [done| |].
  - apply Z.lxor_nonneg. split; intros; [apply Hb|apply Ha].
  - intros i Hi. rewrite Z.lxor_spec, (fits_bits w a), (fits_bits w b) by done. done.
Qed.

Lemma wrap_lxor w a b : 0 <= w → wrap w (Z.lxor a b) = Z.lxor (wrap w a) (wrap w b).
Proof.
  intros Hw. unfold wrap. apply Z.bits_inj'. intros i Hi. rewrite Z.lxor_spec.
  destruct (decide (i < w)).
  - by rewrite !Z.mod_pow2_bits_low, Z.lxor_spec by lia.
  - by rewrite !Z.mod_pow2_bits_high by lia.
Qed.

Lemma mul2_lxor a b : 2 * Z.lxor a b = Z.lxor (2 * a) (2 * b).
Proof. rewrite !(Z.mul_comm 2), <-!(Z.shiftl_mul_pow2 _ 1) by lia. apply Z.shiftl_lxor. Qed.

Lemma round8_fits r : fits 8 (round8 r).
Proof. apply lxor_fits; [lia|apply wrap_fits; lia|]. case_match; unfold fits; lia. Qed.

Lemma round8_lxor a b : round8 (Z.lxor a b) = Z.lxor (round8 a) (round8 b).
Proof.
  unfold round8. rewrite mul2_lxor, wrap_lxor, Z.lxor_spec by lia.
  destruct (Z.testbit a 7), (Z.testbit b 7); cbn [xorb]; lxor_solve.
Qed.

Lemma iter_lxor n a b : Nat.iter n round8 (Z.lxor a b) = Z.lxor (Nat.iter n round8 a) (Nat.iter n round8 b).
Proof. induction n as [|n IH]; simpl; [done|]. by rewrite IH, round8_lxor. Qed.

#[local] Opaque round8.

Lemma round8_8_fits r : fits 8 (round8_8 r).
Proof. apply round8_fits. Qed.

Lemma round8_8_lxor a b : round8_8 (Z.lxor a b) = Z.lxor (round8_8 a) (round8_8 b).
Proof. apply iter_lxor. Qed.

(** Only zero is mapped to zero, so distinct bytes stay distinct. *)
Lemma round8_8_zero d : fits 8 d → round8_8 d = 0 → d = 0.
Proof.
  revert d. apply (byte_forall (λ d, round8_8 d = 0 → d = 0)). by vm_compute.
Qed.

Lemma lxor_eq_0 a b : Z.lxor a b = 0 → a = b.
Proof. apply Z.lxor_eq. Qed.

Lemma round8_8_inj a b : fits 8 a → fits 8 b → round8_8 a = round8_8 b → a = b.
Proof.
  intros Ha Hb He. apply lxor_eq_0. apply round8_8_zero; [by apply lxor_fits|].
  by rewrite round8_8_lxor, He, Z.lxor_nilpotent.
Qed.

(** The register holds the remainder in its upper byte. *)
Lemma round_upper r : fits 8 r → round (256 * r) = 256 * round8 r.
Proof. revert r. apply (byte_forall (λ r, round (256 * r) = 256 * round8 r)). by vm_compute. Qed.

Lemma iter_upper n r : fits 8 r → Nat.iter n round (256 * r) = 256 * Nat.iter n round8 r.
Proof.
  intros Hr. induction n as [|n IH]; simpl; [done|]. rewrite IH. apply round_upper.
  destruct n; simpl; [done|apply round8_fits].
Qed.

Lemma mul256_lxor a b : Z.lxor (256 * a) (256 * b) = 256 * Z.lxor a b.
Proof.
  rewrite !(Z.mul_comm 256). change 256 with (2 ^ 8). rewrite <-!Z.shiftl_mul_pow2 by lia.
  symmetry. apply Z.shiftl_lxor.
Qed.

Lemma add_byte_upper c b :
  fits 8 c → fits 8 b → add_byte (256 * c) b = 256 * round8_8 (Z.lxor c b).
Proof.
  intros Hc Hb. unfold add_byte.
  assert (wrap 16 (Z.shiftl b 8) = 256 * b) as ->.
  { rewrite Z.shiftl_mul_pow2 by lia. change (2 ^ 8) with 256. rewrite Z.mul_comm.
    apply wrap_small. unfold fits in *. change (2 ^ 8) with 256 in *. change (2 ^ 16) with 65536. lia. }
  rewrite mul256_lxor. apply iter_upper. by apply lxor_fits.
Qed.

(** The checksum of a byte string on one byte of state. *)
Definition crc_fold (c : Z) (data : list Z) : Z := foldl (λ c b, round8_8 (Z.lxor c b)) c data.

Lemma crc_fold_fits c data : fits 8 c → fits 8 (crc_fold c data).
Proof.
  revert c. induction data as [|b data IH]; intros c Hc; simpl; [done|].
  apply IH, round8_8_fits.
Qed.

Lemma foldl_add_byte c data :
  fits 8 c → bytes_ok data → foldl add_byte (256 * c) data = 256 * crc_fold c data.
Proof.
  intros Hc Hd. revert c Hc. induction Hd as [|b data Hb _ IH]; intros c Hc; simpl; [done|].
  rewrite add_byte_upper by done. apply IH, round8_8_fits.
Qed.

Lemma get_upper c : fits 8 c → get (mk (256 * c)) = c.
Proof. revert c. apply (byte_forall (λ c, get (mk (256 * c)) = c)). by vm_compute. Qed.

Lemma crc_get_fold data : bytes_ok data → get (add data init) = crc_fold 0 data.
Proof.
  intros Hd. unfold add, init. cbn [crc]. change 0 with (256 * 0) at 1.
  rewrite foldl_add_byte by (done || unfold fits; lia).
  apply get_upper, crc_fold_fits. unfold fits; lia.
Qed.

Lemma add_app a b s : add b (add a s) = add (a ++ b) s.
Proof. unfold add. cbn [crc]. by rewrite foldl_app. Qed.

(** *** Equivalence with long division *)

Lemma div_step_round8 r bit :
  fits 8 r → div_step r bit = Z.lxor (round8 r) (Z.b2z bit).
Proof.
  revert r. destruct bit.
  - apply (byte_forall (λ r, div_step r true = Z.lxor (round8 r) (Z.b2z true))). by vm_compute.
  - apply (byte_forall (λ r, div_step r false = Z.lxor (round8 r) (Z.b2z false))). by vm_compute.
Qed.

Lemma div_step_fits r bit : fits 8 r → fits 8 (div_step r bit).
Proof.
  intros Hr. rewrite div_step_round8 by done. apply lxor_fits; [lia|apply round8_fits|].
  destruct bit; unfold fits; simpl; lia.
Qed.

Lemma foldl_div_fits bits r : fits 8 r → fits 8 (foldl div_step r bits).
Proof. revert r. induction bits as [|b bits IH]; intros r Hr; simpl; [done|]. by apply IH, div_step_fits. Qed.

Lemma foldl_div_lxor bits r :
  fits 8 r → foldl div_step r bits = Z.lxor (Nat.iter (length bits) round8 r) (foldl div_step 0 bits).
Proof.
  assert (fits 8 0) as H0 by (unfold fits; lia).
  revert r. induction bits as [|bit bits IH]; intros r Hr; simpl foldl; simpl length.
  { by rewrite Z.lxor_0_r. }
  rewrite IH, (IH (div_step 0 bit)) by (by apply div_step_fits).
  rewrite !div_step_round8 by done. change (round8 0) with 0. rewrite Z.lxor_0_l.
  rewrite Nat.iter_succ_r, iter_lxor. by rewrite Z.lxor_assoc.
Qed.

Lemma div_byte b : fits 8 b → foldl div_step 0 (byte_bits b) = b.
Proof. revert b. apply (byte_forall (λ b, foldl div_step 0 (byte_bits b) = b)). by vm_compute. Qed.

Lemma foldl_div_byte r b : fits 8 r → fits 8 b → foldl div_step r (byte_bits b) = Z.lxor (round8_8 r) b.
Proof.
  intros Hr Hb. rewrite (foldl_div_lxor _ r Hr), (div_byte b Hb).
  change (length (byte_bits b)) with 8%nat. unfold round8_8. reflexivity.
Qed.

Lemma foldl_div_zeros r : fits 8 r → foldl div_step r (replicate 8 false) = round8_8 r.
Proof.
  intros Hr. rewrite (foldl_div_lxor _ r Hr), length_replicate.
  change (foldl div_step 0 (replicate 8 false)) with 0. rewrite Z.lxor_0_r. unfold round8_8. reflexivity.
Qed.

Lemma crc_fold_div r data :
  fits 8 r → bytes_ok data →
  crc_fold (round8_8 r) data = round8_8 (foldl div_step r (concat (byte_bits <$> data))).
Proof.
  intros Hr Hd. revert r Hr. induction Hd as [|b data Hb _ IH]; intros r Hr; [done|].
  cbn [fmap list_fmap concat]. rewrite foldl_app, foldl_div_byte by done.
  rewrite <-IH; [done|]. apply lxor_fits; [lia|apply round8_8_fits|done].
Qed.

(** *** Error detection *)

Lemma crc_fold_inj c c' data :
  fits 8 c → fits 8 c' → bytes_ok data → crc_fold c data = crc_fold c' data → c = c'.
Proof.
  intros Hc Hc' Hd. revert c c' Hc Hc'. induction Hd as [|b data Hb _ IH]; intros c c' Hc Hc' He; [done|].
  simpl in He. apply IH in He; [|apply round8_8_fits..].
  apply round8_8_inj in He; [|by apply lxor_fits..].
  apply lxor_eq_0. rewrite <-(Z.lxor_nilpotent (Z.lxor c b)). rewrite He at 2. lxor_solve.
Qed.

(** A nonzero pattern of at most eight consecutive bits in two bytes is not a
    multiple of the divisor. *)
Lemma burst_not_multiple e k :
  1 <= e < 256 → 0 <= k <= 8 →
  round8_8 (Z.shiftl e k / 256) ≠ Z.shiftl e k mod 256.
Proof.
  intros He Hk.
  assert (∀ k, k ∈ seqZ 0 9 → Forall (λ e, round8_8 (Z.shiftl e k / 256) ≠ Z.shiftl e k mod 256) (seqZ 1 255)) as HF.
  { intros k' Hk'. apply elem_of_seqZ in Hk'.
    assert (k' = 0 ∨ k' = 1 ∨ k' = 2 ∨ k' = 3 ∨ k' = 4 ∨ k' = 5 ∨ k' = 6 ∨ k' = 7 ∨ k' = 8) as Hc by lia.
    destruct_or! Hc; subst k'; by_compute. }
  specialize (HF k). rewrite Forall_forall in HF. apply HF; apply elem_of_seqZ; lia.
Qed.

Lemma crc_fold_burst c x1 x2 y1 y2 z e k :
  fits 8 c → bytes_ok [x1; x2; y1; y2] → bytes_ok z →
  1 <= e < 256 → 0 <= k <= 8 →
  Z.lxor x1 y1 = Z.shiftl e k / 256 → Z.lxor x2 y2 = Z.shiftl e k mod 256 →
  crc_fold c (x1 :: x2 :: z) ≠ crc_fold c (y1 :: y2 :: z).
Proof.
  intros Hc Hb Hz He Hk H1 H2 Heq.
  apply Forall_cons in Hb as [? Hb]. apply Forall_cons in Hb as [? Hb].
  apply Forall_cons in Hb as [? Hb]. apply Forall_cons in Hb as [? _].
  simpl in Heq. apply crc_fold_inj in Heq; [|apply round8_8_fits..|done].
  apply round8_8_inj in Heq; [|apply lxor_fits; [lia|apply round8_8_fits|done]..].
  apply (burst_not_multiple e k He Hk). rewrite <-H1, <-H2.
  assert (Z.lxor x1 y1 = Z.lxor (Z.lxor c x1) (Z.lxor c y1)) as -> by lxor_solve.
  rewrite round8_8_lxor. apply lxor_eq_0.
  replace (Z.lxor (Z.lxor (round8_8 (Z.lxor c x1)) (round8_8 (Z.lxor c y1))) (Z.lxor x2 y2))
    with (Z.lxor (Z.lxor (round8_8 (Z.lxor c x1)) x2) (Z.lxor (round8_8 (Z.lxor c y1)) y2)) by lxor_solve.
  rewrite Heq. apply Z.lxor_nilpotent.
Qed.

(** The bytes the checksum covers. *)
Definition covered (h : PayloadHeader) (payload : list Z) : list Z :=
  [to_wire_value (content h)] ++ be_bytes 2 (content_len h) ++ take (Z.to_nat (content_len h)) payload.

Lemma compute_checksum_spec h payload :
  bytes_ok payload →
  compute_checksum h payload =
  if (length payload <? Z.to_nat (content_len h))%nat then None else Some (crc_fold 0 (covered h payload)).
Proof.
  intros Hp. unfold compute_checksum. destruct (_ <? _)%nat; [done|].
  f_equal. rewrite !add_app. apply crc_get_fold.
  repeat apply Forall_app_2; [|apply be_bytes_ok|by apply Forall_take].
  by apply Forall_singleton, u8_enum_fits.
Qed.

End CrcTheory.

Import CrcTheory.

(** ** Theorems *)

(** C32: the checksum loop computes the CRC-8 it names.  On any bytes the register
    loop of [Crc8::add] gives the remainder of the message polynomial times x^8
    on long division by x^8+x^2+x+1 over the two-element field. *)
Theorem crc8_is_polynomial_remainder data :
  bytes_ok data → Crc8.get (Crc8.add data Crc8.init) = crc_reference data.
Proof.
  intros Hd. rewrite crc_get_fold by done. unfold crc_reference, poly_rem.
  assert (fits 8 0) by (unfold fits; lia).
  rewrite foldl_app, foldl_div_zeros by (by apply foldl_div_fits).
  by rewrite <-crc_fold_div.
Qed.

Lemma crc8_is_polynomial_remainder_witness :
  Crc8.get (Crc8.add [0x31; 0x32; 0x33] Crc8.init) = crc_reference [0x31; 0x32; 0x33].
Proof. apply (crc8_is_polynomial_remainder [0x31; 0x32; 0x33]). by_compute. Defined.

(** The checksum detects burst errors.  Two payloads under the same header
    that differ by a nonzero pattern of at most eight consecutive bits, which may
    straddle two bytes, anywhere in the covered content, have different
    checksums. *)
Theorem checksum_detects_burst h a x1 x2 y1 y2 z e k :
  fits 16 (content_len h) → bytes_ok (a ++ [x1; x2] ++ z) → bytes_ok [y1; y2] →
  (length a + 2 <= Z.to_nat (content_len h))%nat →
  (Z.to_nat (content_len h) <= length (a ++ [x1; x2] ++ z))%nat →
  1 <= e < 256 → 0 <= k <= 8 →
  Z.lxor x1 y1 * 256 + Z.lxor x2 y2 = Z.shiftl e k →
  compute_checksum h (a ++ [x1; x2] ++ z) ≠ compute_checksum h (a ++ [y1; y2] ++ z).
Proof.
  intros Hl Hx Hy Ha Hn He Hk Hd Heq.
  apply bytes_ok_app in Hx as [Hba Hx]. apply bytes_ok_app in Hx as [Hbx Hbz].
  rewrite !compute_checksum_spec in Heq by (repeat apply Forall_app_2; done).
  rewrite !length_app in Hn. cbn [length] in Hn.
  assert (∀ u v, (length (a ++ [u; v] ++ z) <? Z.to_nat (content_len h))%nat = false) as Hlen.
  { intros u v. apply Nat.ltb_ge. rewrite !length_app. cbn [length]. lia. }
  rewrite !Hlen in Heq. apply (inj Some) in Heq. unfold covered in Heq.
  assert (∀ u v, take (Z.to_nat (content_len h)) (a ++ [u; v] ++ z)
    = a ++ u :: v :: take (Z.to_nat (content_len h) - length a - 2) z) as Htk.
  { intros u v. rewrite take_app_ge by lia. f_equal.
    replace (Z.to_nat (content_len h) - length a)%nat
      with (S (S (Z.to_nat (content_len h) - length a - 2))) at 1 by lia. done. }
  rewrite !Htk in Heq. rewrite !app_assoc in Heq.
  unfold crc_fold in Heq. rewrite !(foldl_app _ _ (_ :: _ :: _)) in Heq.
  assert (fits 8 (Z.lxor x2 y2)) as Hf2.
  { apply lxor_fits; [lia|..]; [by apply Forall_cons in Hbx as [_ [? _]%Forall_cons]
                               |by apply Forall_cons in Hy as [_ [? _]%Forall_cons]]. }
  unfold fits in Hf2. change (2 ^ 8) with 256 in Hf2.
  revert Heq. apply (crc_fold_burst _ x1 x2 y1 y2 _ e k).
  - apply crc_fold_fits. unfold fits; lia.
  - by apply (Forall_app_2 _ [x1; x2]).
  - by apply Forall_take.
  - done.
  - done.
  - rewrite <-Hd, Z.div_add_l, Z.div_small by lia. lia.
  - rewrite <-Hd, Z.add_comm, Z.mod_add, Z.mod_small by lia. done.
Qed.

Lemma checksum_detects_burst_witness :
  compute_checksum (mk_PayloadHeader CtFirmware 4 0) [1; 2; 3; 4]
  ≠ compute_checksum (mk_PayloadHeader CtFirmware 4 0) [1; 3; 131; 4].
Proof.
  apply (checksum_detects_burst (mk_PayloadHeader CtFirmware 4 0) [1] 2 3 3 131 [4] 3 7);
    try by_compute; simpl; lia.
Defined.

(** Payload headers survive the wire, and the parser accepts nothing but
    encodings: what it consumes is exactly the encoding of the header it
    returns, whose fields are in range, and no input makes it panic. *)
Theorem payload_header_wire {W} `{WriteLaws W} {R} `{ReadLaws R} (h : PayloadHeader) (w : W) (r : R) rest :
  payload_header_valid h → wr_inv w → (HEADER_LEN <= wr_room w)%nat → bytes_ok (rd_view r) →
  (∃ w' bs, payload_header_to_wire h w = (Ok tt, w') ∧ wr_out w' = wr_out w ++ bs ∧
    length bs = HEADER_LEN ∧
    (rd_view r = bs ++ rest → ∃ r', payload_header_from_wire r = (Ok h, r') ∧ rd_view r' = rest)) ∧
  match payload_header_from_wire r with
  | (Ok h', r') => rd_view r = encode h' ++ rd_view r' ∧ payload_header_valid h'
  | (Err _, _) => True
  | (Panic, _) => False
  end.
Proof.
  intros Hv Hi Hr Hb. split.
  - destruct (wire_roundtrip (Wl := PayloadHeader_WireLaws) h w r rest Hv Hi) as (w' & bs & ? & _ & ? & Hl & ?).
    { exact Hr. }
    exists w', bs. split_and!; done.
  - pose proof (from_wire_reads (T := PayloadHeader) R r Hb) as Hreads.
    change (from_wire PayloadHeader r) with (payload_header_from_wire r) in Hreads.
    destruct (payload_header_from_wire r) as [[h'|e|] r']; [|done..].
    destruct Hreads as (bs & Hbs & -> & Hv'). done.
Qed.

Lemma payload_header_wire_witness :
  ∃ w' bs, payload_header_to_wire (mk_PayloadHeader CtManticore 258 7) (Cursor.new [0; 0; 0; 0; 0]) = (Ok tt, w')
    ∧ wr_out w' = wr_out (Cursor.new [0; 0; 0; 0; 0]) ++ bs ∧ length bs = HEADER_LEN ∧
    ([1; 1; 2; 7; 5] = bs ++ [5] → ∃ r', payload_header_from_wire [1; 1; 2; 7; 5]
       = (Ok (mk_PayloadHeader CtManticore 258 7), r') ∧ r' = [5]).
Proof.
  refine (proj1 (payload_header_wire (mk_PayloadHeader CtManticore 258 7) (Cursor.new [0; 0; 0; 0; 0])
            [1; 1; 2; 7; 5] [5] _ _ _ _)); [split; by_compute|split; simpl; lia|by_compute|by_compute].
Defined.
