(* ===== verification/FirmwareProto.v ===== *)
(** * Firmware and error messages, kernel interface structures

    [shared-lib/spiutils/src/protocol/firmware.rs], [protocol/error.rs],
    [driver/firmware.rs], [driver/spi_device.rs], [driver/reset.rs] and
    [compat/firmware.rs]: every structure with its [FromWire] and [ToWire]
    implementations, the length constants, and the contract of each format. *)

From S2P Require Import Prelude Io Wire.
From Stdlib Require Import ZArith Lia.
From stdpp Require Import base decidable option list list_numbers strings.

#[local] Open Scope Z_scope.

(** Laws of a structure whose code is a chain of field reads and writes. *)
Tactic Notation "wire_emits" reference(inst) reference(f) :=
  intros W ?? x Hv; destruct x; cbn in Hv; unfold to_wire at 1, inst, f; emits_tac.
Tactic Notation "wire_parses" reference(inst) reference(f) :=
  intros R ?? x Hv; destruct x; cbn in Hv; unfold from_wire at 1, inst, f; parses_tac.
Tactic Notation "wire_reads" reference(inst) reference(f) :=
  intros R ??; unfold from_wire at 1, inst, f; reads_tac;
  split; [done|];
  repeat match goal with Hb : bytes_ok _ |- _ => clear Hb end; cbn in *; intuition auto.

(** ** Build information ([compat/firmware.rs]) *)

Definition BUILD_INFO_OFFSET : nat := 860.
Definition BUILD_INFO_LEN : nat := 20.

Record BuildInfo := mk_BuildInfo { bi_epoch : Z; bi_major : Z; bi_minor : Z; bi_timestamp : Z }.

#[global] Instance BuildInfo_eq_dec : EqDecision BuildInfo.
Proof. solve_decision. Defined.

Definition build_info_from_wire {R} `{Read R} : M R FromWireError BuildInfo :=
  epoch ← io_from (read_le U32);
  major ← io_from (read_le U32);
  minor ← io_from (read_le U32);
  timestamp ← io_from (read_le U64);
  mret (mk_BuildInfo epoch major minor timestamp).

Definition build_info_to_wire {W} `{Write W} (self : BuildInfo) : M W ToWireError unit :=
  io_to (write_le U32 (bi_epoch self)) ;;
  io_to (write_le U32 (bi_major self)) ;;
  io_to (write_le U32 (bi_minor self)) ;;
  io_to (write_le U64 (bi_timestamp self)) ;;
  mret tt.

#[global] Instance BuildInfo_FromWire : FromWire BuildInfo := @build_info_from_wire.
#[global] Instance BuildInfo_ToWire : ToWire BuildInfo := @build_info_to_wire.

#[global] Program Instance BuildInfo_WireLaws : WireLaws BuildInfo := {|
  valid b := fits 32 (bi_epoch b) ∧ fits 32 (bi_major b) ∧ fits 32 (bi_minor b) ∧ fits 64 (bi_timestamp b);
  encode b := le_bytes 4 (bi_epoch b) ++ le_bytes 4 (bi_major b) ++ le_bytes 4 (bi_minor b) ++
              le_bytes 8 (bi_timestamp b) ++ [];
|}.
Next Obligation. wire_emits BuildInfo_ToWire build_info_to_wire. Qed.
Next Obligation. wire_parses BuildInfo_FromWire build_info_from_wire. Qed.

#[global] Instance BuildInfo_WireCanonical : WireCanonical BuildInfo.
Proof. wire_reads BuildInfo_FromWire build_info_from_wire. Qed.

(** ** Segments ([driver/firmware.rs], [protocol/firmware.rs]) *)

Inductive SegmentAndLocation := SalUnknown | RoA | RoB | RwA | RwB.

#[global] Instance SegmentAndLocation_eq_dec : EqDecision SegmentAndLocation.
Proof. solve_decision. Defined.

Definition SegmentAndLocation_variants : list (SegmentAndLocation * Z * string) :=
  [(SalUnknown, 0xff, "Unknown"); (RoA, 0x01, "RoA"); (RoB, 0x02, "RoB");
   (RwA, 0x03, "RwA"); (RwB, 0x04, "RwB")].

#[global] Instance SegmentAndLocation_WireEnum : WireEnum SegmentAndLocation :=
  {| wire_ty := U8; variants := SegmentAndLocation_variants |}.
#[global] Instance SegmentAndLocation_WireEnumLaws : WireEnumLaws SegmentAndLocation.
Proof. enum_laws. Qed.

Definition SEGMENT_INFO_LEN : nat := 17.

Record SegmentInfo := mk_SegmentInfo {
  identifier : SegmentAndLocation;
  seg_address : Z;
  seg_size : Z;
  start_page : Z;
  page_count : Z;
}.

#[global] Instance SegmentInfo_eq_dec : EqDecision SegmentInfo.
Proof. solve_decision. Defined.

Definition UNKNOWN_SEGMENT : SegmentInfo := mk_SegmentInfo SalUnknown 0 0 0 0.

Definition segment_info_from_wire {R} `{Read R} : M R FromWireError SegmentInfo :=
  sal_u8 ← io_from (read_be U8);
  identifier ← ok_or OutOfRange (from_wire_value sal_u8);
  address ← io_from (read_be U32);
  size ← io_from (read_be U32);
  start_page ← io_from (read_be U32);
  page_count ← io_from (read_be U32);
  mret (mk_SegmentInfo identifier address size start_page page_count).

Definition segment_info_to_wire {W} `{Write W} (self : SegmentInfo) : M W ToWireError unit :=
  io_to (write_be U8 (to_wire_value (identifier self))) ;;
  io_to (write_be U32 (seg_address self)) ;;
  io_to (write_be U32 (seg_size self)) ;;
  io_to (write_be U32 (start_page self)) ;;
  io_to (write_be U32 (page_count self)) ;;
  mret tt.

#[global] Instance SegmentInfo_FromWire : FromWire SegmentInfo := @segment_info_from_wire.
#[global] Instance SegmentInfo_ToWire : ToWire SegmentInfo := @segment_info_to_wire.

#[global] Program Instance SegmentInfo_WireLaws : WireLaws SegmentInfo := {|
  valid s := fits 32 (seg_address s) ∧ fits 32 (seg_size s) ∧ fits 32 (start_page s) ∧ fits 32 (page_count s);
  encode s := [to_wire_value (identifier s)] ++ be_bytes 4 (seg_address s) ++ be_bytes 4 (seg_size s) ++
              be_bytes 4 (start_page s) ++ be_bytes 4 (page_count s) ++ [];
|}.
Next Obligation. wire_emits SegmentInfo_ToWire segment_info_to_wire. Qed.
Next Obligation. wire_parses SegmentInfo_FromWire segment_info_from_wire. Qed.

#[global] Instance SegmentInfo_WireCanonical : WireCanonical SegmentInfo.
Proof. wire_reads SegmentInfo_FromWire segment_info_from_wire. Qed.

Definition RUNTIME_SEGMENT_INFO_LEN : nat := 4 * SEGMENT_INFO_LEN.

Record RuntimeSegmentInfo := mk_RuntimeSegmentInfo {
  active_ro : SegmentInfo;
  active_rw : SegmentInfo;
  inactive_ro : SegmentInfo;
  inactive_rw : SegmentInfo;
}.

Definition UNKNOWN_RUNTIME_SEGMENT_INFO : RuntimeSegmentInfo :=
  mk_RuntimeSegmentInfo UNKNOWN_SEGMENT UNKNOWN_SEGMENT UNKNOWN_SEGMENT UNKNOWN_SEGMENT.

Definition runtime_segment_info_from_wire {R} `{Read R} : M R FromWireError RuntimeSegmentInfo :=
  active_ro ← from_wire SegmentInfo;
  active_rw ← from_wire SegmentInfo;
  inactive_ro ← from_wire SegmentInfo;
  inactive_rw ← from_wire SegmentInfo;
  mret (mk_RuntimeSegmentInfo active_ro active_rw inactive_ro inactive_rw).

Definition runtime_segment_info_to_wire {W} `{Write W} (self : RuntimeSegmentInfo) : M W ToWireError unit :=
  to_wire (active_ro self) ;;
  to_wire (active_rw self) ;;
  to_wire (inactive_ro self) ;;
  to_wire (inactive_rw self) ;;
  mret tt.

#[global] Instance RuntimeSegmentInfo_FromWire : FromWire RuntimeSegmentInfo := @runtime_segment_info_from_wire.
#[global] Instance RuntimeSegmentInfo_ToWire : ToWire RuntimeSegmentInfo := @runtime_segment_info_to_wire.

#[global] Program Instance RuntimeSegmentInfo_WireLaws : WireLaws RuntimeSegmentInfo := {|
  valid s := valid (active_ro s) ∧ valid (active_rw s) ∧ valid (inactive_ro s) ∧ valid (inactive_rw s);
  encode s := encode (active_ro s) ++ encode (active_rw s) ++ encode (inactive_ro s) ++ encode (inactive_rw s) ++ [];
|}.
Next Obligation. wire_emits RuntimeSegmentInfo_ToWire runtime_segment_info_to_wire. Qed.
Next Obligation. wire_parses RuntimeSegmentInfo_FromWire runtime_segment_info_from_wire. Qed.

#[global] Instance RuntimeSegmentInfo_WireCanonical : WireCanonical RuntimeSegmentInfo.
Proof. wire_reads RuntimeSegmentInfo_FromWire runtime_segment_info_from_wire. Qed.

(** ** Firmware protocol ([protocol/firmware.rs]) *)

Inductive FwContentType :=
| CtUpdatePrepareRequest | CtUpdatePrepareResponse | CtWriteChunkRequest | CtWriteChunkResponse
| CtInactiveSegmentsInfoRequest | CtInactiveSegmentsInfoResponse | CtRebootRequest | CtRebootResponse.

#[global] Instance FwContentType_eq_dec : EqDecision FwContentType.
Proof. solve_decision. Defined.

Definition FwContentType_variants : list (FwContentType * Z * string) :=
  [(CtUpdatePrepareRequest, 0x01, "UpdatePrepareRequest");
   (CtUpdatePrepareResponse, 0x02, "UpdatePrepareResponse");
   (CtWriteChunkRequest, 0x03, "WriteChunkRequest");
   (CtWriteChunkResponse, 0x04, "WriteChunkResponse");
   (CtInactiveSegmentsInfoRequest, 0x05, "InactiveSegmentsInfoRequest");
   (CtInactiveSegmentsInfoResponse, 0x06, "InactiveSegmentsInfoResponse");
   (CtRebootRequest, 0x07, "RebootRequest");
   (CtRebootResponse, 0x08, "RebootResponse")].

#[global] Instance FwContentType_WireEnum : WireEnum FwContentType :=
  {| wire_ty := U8; variants := FwContentType_variants |}.
#[global] Instance FwContentType_WireEnumLaws : WireEnumLaws FwContentType.
Proof. enum_laws. Qed.

Record FwHeader := mk_FwHeader { fw_content : FwContentType }.

Definition FW_HEADER_LEN : nat := 1.

Definition fw_header_from_wire {R} `{Read R} : M R FromWireError FwHeader :=
  content_u8 ← io_from (read_be U8);
  content ← ok_or OutOfRange (from_wire_value content_u8);
  mret (mk_FwHeader content).

Definition fw_header_to_wire {W} `{Write W} (self : FwHeader) : M W ToWireError unit :=
  io_to (write_be U8 (to_wire_value (fw_content self))) ;;
  mret tt.

#[global] Instance FwHeader_FromWire : FromWire FwHeader := @fw_header_from_wire.
#[global] Instance FwHeader_ToWire : ToWire FwHeader := @fw_header_to_wire.

#[global] Program Instance FwHeader_WireLaws : WireLaws FwHeader := {|
  valid _ := True;
  encode h := [to_wire_value (fw_content h)] ++ [];
|}.
Next Obligation. wire_emits FwHeader_ToWire fw_header_to_wire. Qed.
Next Obligation. wire_parses FwHeader_FromWire fw_header_from_wire. Qed.

#[global] Instance FwHeader_WireCanonical : WireCanonical FwHeader.
Proof. wire_reads FwHeader_FromWire fw_header_from_wire. Qed.

(** The [Message] trait: a wire format with its content type. *)
Class Message (T : Type) := TYPE : FwContentType.
Arguments TYPE T {_}.

(** *** Inactive segments *)

Inductive InactiveSegmentsInfoRequest := mk_InactiveSegmentsInfoRequest.

Definition INACTIVE_SEGMENTS_INFO_REQUEST_LEN : nat := 0.

#[global] Instance InactiveSegmentsInfoRequest_Message : Message InactiveSegmentsInfoRequest :=
  CtInactiveSegmentsInfoRequest.

Definition isi_request_from_wire {R} `{Read R} : M R FromWireError InactiveSegmentsInfoRequest :=
  mret mk_InactiveSegmentsInfoRequest.

Definition isi_request_to_wire {W} `{Write W} (self : InactiveSegmentsInfoRequest) :
  M W ToWireError unit := mret tt.

#[global] Instance InactiveSegmentsInfoRequest_FromWire : FromWire InactiveSegmentsInfoRequest :=
  @isi_request_from_wire.
#[global] Instance InactiveSegmentsInfoRequest_ToWire : ToWire InactiveSegmentsInfoRequest :=
  @isi_request_to_wire.

#[global] Program Instance InactiveSegmentsInfoRequest_WireLaws : WireLaws InactiveSegmentsInfoRequest :=
  {| valid _ := True; encode _ := [] |}.
Next Obligation. wire_emits InactiveSegmentsInfoRequest_ToWire isi_request_to_wire. Qed.
Next Obligation. wire_parses InactiveSegmentsInfoRequest_FromWire isi_request_from_wire. Qed.

#[global] Instance InactiveSegmentsInfoRequest_WireCanonical : WireCanonical InactiveSegmentsInfoRequest.
Proof. wire_reads InactiveSegmentsInfoRequest_FromWire isi_request_from_wire. Qed.

Record InactiveSegmentsInfoResponse := mk_InactiveSegmentsInfoResponse {
  isi_ro : SegmentInfo;
  isi_rw : SegmentInfo;
}.

Definition INACTIVE_SEGMENTS_INFO_RESPONSE_LEN : nat := 2 * SEGMENT_INFO_LEN.

#[global] Instance InactiveSegmentsInfoResponse_Message : Message InactiveSegmentsInfoResponse :=
  CtInactiveSegmentsInfoResponse.

Definition isi_response_from_wire {R} `{Read R} : M R FromWireError InactiveSegmentsInfoResponse :=
  ro ← from_wire SegmentInfo;
  rw ← from_wire SegmentInfo;
  mret (mk_InactiveSegmentsInfoResponse ro rw).

Definition isi_response_to_wire {W} `{Write W} (self : InactiveSegmentsInfoResponse) :
  M W ToWireError unit :=
  to_wire (isi_ro self) ;;
  to_wire (isi_rw self) ;;
  mret tt.

#[global] Instance InactiveSegmentsInfoResponse_FromWire : FromWire InactiveSegmentsInfoResponse :=
  @isi_response_from_wire.
#[global] Instance InactiveSegmentsInfoResponse_ToWire : ToWire InactiveSegmentsInfoResponse :=
  @isi_response_to_wire.

#[global] Program Instance InactiveSegmentsInfoResponse_WireLaws : WireLaws InactiveSegmentsInfoResponse := {|
  valid s := valid (isi_ro s) ∧ valid (isi_rw s);
  encode s := encode (isi_ro s) ++ encode (isi_rw s) ++ [];
|}.
Next Obligation. wire_emits InactiveSegmentsInfoResponse_ToWire isi_response_to_wire. Qed.
Next Obligation. wire_parses InactiveSegmentsInfoResponse_FromWire isi_response_from_wire. Qed.

#[global] Instance InactiveSegmentsInfoResponse_WireCanonical : WireCanonical InactiveSegmentsInfoResponse.
Proof. wire_reads InactiveSegmentsInfoResponse_FromWire isi_response_from_wire. Qed.

(** *** Firmware information *)

Record FirmwareInfo := mk_FirmwareInfo { fi_segment : SegmentAndLocation; fi_build_info : BuildInfo }.

Definition FIRMWARE_INFO_LEN : nat := 1 + BUILD_INFO_LEN.

Definition firmware_info_from_wire {R} `{Read R} : M R FromWireError FirmwareInfo :=
  sal_u8 ← io_from (read_be U8);
  segment_and_location ← ok_or OutOfRange (from_wire_value sal_u8);
  build_info ← from_wire BuildInfo;
  mret (mk_FirmwareInfo segment_and_location build_info).

Definition firmware_info_to_wire {W} `{Write W} (self : FirmwareInfo) : M W ToWireError unit :=
  io_to (write_be U8 (to_wire_value (fi_segment self))) ;;
  to_wire (fi_build_info self) ;;
  mret tt.

#[global] Instance FirmwareInfo_FromWire : FromWire FirmwareInfo := @firmware_info_from_wire.
#[global] Instance FirmwareInfo_ToWire : ToWire FirmwareInfo := @firmware_info_to_wire.

#[global] Program Instance FirmwareInfo_WireLaws : WireLaws FirmwareInfo := {|
  valid s := valid (fi_build_info s);
  encode s := [to_wire_value (fi_segment s)] ++ encode (fi_build_info s) ++ [];
|}.
Next Obligation. wire_emits FirmwareInfo_ToWire firmware_info_to_wire. Qed.
Next Obligation. wire_parses FirmwareInfo_FromWire firmware_info_from_wire. Qed.

#[global] Instance FirmwareInfo_WireCanonical : WireCanonical FirmwareInfo.
Proof. wire_reads FirmwareInfo_FromWire firmware_info_from_wire. Qed.

(** *** Update preparation *)

Record UpdatePrepareRequest := mk_UpdatePrepareRequest { upq_segment : SegmentAndLocation }.

Definition UPDATE_PREPARE_REQUEST_LEN : nat := 1.

#[global] Instance UpdatePrepareRequest_Message : Message UpdatePrepareRequest := CtUpdatePrepareRequest.

Definition update_prepare_request_from_wire {R} `{Read R} : M R FromWireError UpdatePrepareRequest :=
  sal_u8 ← io_from (read_be U8);
  segment_and_location ← ok_or OutOfRange (from_wire_value sal_u8);
  mret (mk_UpdatePrepareRequest segment_and_location).

Definition update_prepare_request_to_wire {W} `{Write W} (self : UpdatePrepareRequest) : M W ToWireError unit :=
  io_to (write_be U8 (to_wire_value (upq_segment self))) ;;
  mret tt.

#[global] Instance UpdatePrepareRequest_FromWire : FromWire UpdatePrepareRequest := @update_prepare_request_from_wire.
#[global] Instance UpdatePrepareRequest_ToWire : ToWire UpdatePrepareRequest := @update_prepare_request_to_wire.

#[global] Program Instance UpdatePrepareRequest_WireLaws : WireLaws UpdatePrepareRequest := {|
  valid s := True;
  encode s := [to_wire_value (upq_segment s)] ++ [];
|}.
Next Obligation. wire_emits UpdatePrepareRequest_ToWire update_prepare_request_to_wire. Qed.
Next Obligation. wire_parses UpdatePrepareRequest_FromWire update_prepare_request_from_wire. Qed.

#[global] Instance UpdatePrepareRequest_WireCanonical : WireCanonical UpdatePrepareRequest.
Proof. wire_reads UpdatePrepareRequest_FromWire update_prepare_request_from_wire. Qed.

Inductive UpdatePrepareResult := UpSuccess | UpError | UpInvalidSegmentAndLocation.

#[global] Instance UpdatePrepareResult_eq_dec : EqDecision UpdatePrepareResult.
Proof. solve_decision. Defined.

Definition UpdatePrepareResult_variants : list (UpdatePrepareResult * Z * string) :=
  [(UpSuccess, 0x00, "Success"); (UpError, 0x01, "Error"); (UpInvalidSegmentAndLocation, 0x02, "InvalidSegmentAndLocation")].

#[global] Instance UpdatePrepareResult_WireEnum : WireEnum UpdatePrepareResult := {| wire_ty := U8; variants := UpdatePrepareResult_variants |}.
#[global] Instance UpdatePrepareResult_WireEnumLaws : WireEnumLaws UpdatePrepareResult.
Proof. enum_laws. Qed.

Record UpdatePrepareResponse := mk_UpdatePrepareResponse { upr_segment : SegmentAndLocation; max_chunk_length : Z; upr_result : UpdatePrepareResult }.

Definition UPDATE_PREPARE_RESPONSE_LEN : nat := 4.

#[global] Instance UpdatePrepareResponse_Message : Message UpdatePrepareResponse := CtUpdatePrepareResponse.

Definition update_prepare_response_from_wire {R} `{Read R} : M R FromWireError UpdatePrepareResponse :=
  sal_u8 ← io_from (read_be U8);
  segment_and_location ← ok_or OutOfRange (from_wire_value sal_u8);
  max_chunk_length ← io_from (read_be U16);
  result_u8 ← io_from (read_be U8);
  result ← ok_or OutOfRange (from_wire_value result_u8);
  mret (mk_UpdatePrepareResponse segment_and_location max_chunk_length result).

Definition update_prepare_response_to_wire {W} `{Write W} (self : UpdatePrepareResponse) : M W ToWireError unit :=
  io_to (write_be U8 (to_wire_value (upr_segment self))) ;;
  io_to (write_be U16 (max_chunk_length self)) ;;
  io_to (write_be U8 (to_wire_value (upr_result self))) ;;
  mret tt.

#[global] Instance UpdatePrepareResponse_FromWire : FromWire UpdatePrepareResponse := @update_prepare_response_from_wire.
#[global] Instance UpdatePrepareResponse_ToWire : ToWire UpdatePrepareResponse := @update_prepare_response_to_wire.

#[global] Program Instance UpdatePrepareResponse_WireLaws : WireLaws UpdatePrepareResponse := {|
  valid s := fits 16 (max_chunk_length s);
  encode s := [to_wire_value (upr_segment s)] ++ be_bytes 2 (max_chunk_length s) ++ [to_wire_value (upr_result s)] ++ [];
|}.
Next Obligation. wire_emits UpdatePrepareResponse_ToWire update_prepare_response_to_wire. Qed.
Next Obligation. wire_parses UpdatePrepareResponse_FromWire update_prepare_response_from_wire. Qed.

#[global] Instance UpdatePrepareResponse_WireCanonical : WireCanonical UpdatePrepareResponse.
Proof. wire_reads UpdatePrepareResponse_FromWire update_prepare_response_from_wire. Qed.

(** *** Write chunk

    The request takes the rest of the reader as its data, so it is described
    as the last message of its input. *)

Record WriteChunkRequest := mk_WriteChunkRequest {
  wcq_segment : SegmentAndLocation;
  wcq_offset : Z;
  wcq_data : list Z;
}.

Definition WRITE_CHUNK_REQUEST_LEN : nat := 5.

#[global] Instance WriteChunkRequest_Message : Message WriteChunkRequest := CtWriteChunkRequest.

Definition write_chunk_request_from_wire {R} `{Read R} : M R FromWireError WriteChunkRequest :=
  sal_u8 ← io_from (read_be U8);
  segment_and_location ← ok_or OutOfRange (from_wire_value sal_u8);
  offset ← io_from (read_be U32);
  data_len ← gets remaining_data;
  data ← io_from (read_bytes data_len);
  mret (mk_WriteChunkRequest segment_and_location offset data).

Definition write_chunk_request_to_wire {W} `{Write W} (self : WriteChunkRequest) :
  M W ToWireError unit :=
  io_to (write_be U8 (to_wire_value (wcq_segment self))) ;;
  io_to (write_be U32 (wcq_offset self)) ;;
  io_to (write_bytes (wcq_data self)) ;;
  mret tt.

#[global] Instance WriteChunkRequest_FromWire : FromWire WriteChunkRequest :=
  @write_chunk_request_from_wire.
#[global] Instance WriteChunkRequest_ToWire : ToWire WriteChunkRequest :=
  @write_chunk_request_to_wire.

Inductive WriteChunkResult := WcSuccess | WcError | WcInvalidSegmentAndLocation | WcInvalidOffset | WcDataTooLong | WcCompareFailed.

#[global] Instance WriteChunkResult_eq_dec : EqDecision WriteChunkResult.
Proof. solve_decision. Defined.

Definition WriteChunkResult_variants : list (WriteChunkResult * Z * string) :=
  [(WcSuccess, 0x00, "Success"); (WcError, 0x01, "Error"); (WcInvalidSegmentAndLocation, 0x02, "InvalidSegmentAndLocation"); (WcInvalidOffset, 0x03, "InvalidOffset"); (WcDataTooLong, 0x04, "DataTooLong"); (WcCompareFailed, 0x05, "CompareFailed")].

#[global] Instance WriteChunkResult_WireEnum : WireEnum WriteChunkResult := {| wire_ty := U8; variants := WriteChunkResult_variants |}.
#[global] Instance WriteChunkResult_WireEnumLaws : WireEnumLaws WriteChunkResult.
Proof. enum_laws. Qed.

Record WriteChunkResponse := mk_WriteChunkResponse { wcr_segment : SegmentAndLocation; wcr_offset : Z; wcr_result : WriteChunkResult }.

Definition WRITE_CHUNK_RESPONSE_LEN : nat := 6.

#[global] Instance WriteChunkResponse_Message : Message WriteChunkResponse := CtWriteChunkResponse.

Definition write_chunk_response_from_wire {R} `{Read R} : M R FromWireError WriteChunkResponse :=
  sal_u8 ← io_from (read_be U8);
  segment_and_location ← ok_or OutOfRange (from_wire_value sal_u8);
  offset ← io_from (read_be U32);
  result_u8 ← io_from (read_be U8);
  result ← ok_or OutOfRange (from_wire_value result_u8);
  mret (mk_WriteChunkResponse segment_and_location offset result).

Definition write_chunk_response_to_wire {W} `{Write W} (self : WriteChunkResponse) : M W ToWireError unit :=
  io_to (write_be U8 (to_wire_value (wcr_segment self))) ;;
  io_to (write_be U32 (wcr_offset self)) ;;
  io_to (write_be U8 (to_wire_value (wcr_result self))) ;;
  mret tt.

#[global] Instance WriteChunkResponse_FromWire : FromWire WriteChunkResponse := @write_chunk_response_from_wire.
#[global] Instance WriteChunkResponse_ToWire : ToWire WriteChunkResponse := @write_chunk_response_to_wire.

#[global] Program Instance WriteChunkResponse_WireLaws : WireLaws WriteChunkResponse := {|
  valid s := fits 32 (wcr_offset s);
  encode s := [to_wire_value (wcr_segment s)] ++ be_bytes 4 (wcr_offset s) ++ [to_wire_value (wcr_result s)] ++ [];
|}.
Next Obligation. wire_emits WriteChunkResponse_ToWire write_chunk_response_to_wire. Qed.
Next Obligation. wire_parses WriteChunkResponse_FromWire write_chunk_response_from_wire. Qed.

#[global] Instance WriteChunkResponse_WireCanonical : WireCanonical WriteChunkResponse.
Proof. wire_reads WriteChunkResponse_FromWire write_chunk_response_from_wire. Qed.

(** *** Reboot *)

Inductive RebootTime := RtImmediate | RtDelayed.

#[global] Instance RebootTime_eq_dec : EqDecision RebootTime.
Proof. solve_decision. Defined.

Definition RebootTime_variants : list (RebootTime * Z * string) :=
  [(RtImmediate, 0x00, "Immediate"); (RtDelayed, 0x01, "Delayed")].

#[global] Instance RebootTime_WireEnum : WireEnum RebootTime := {| wire_ty := U8; variants := RebootTime_variants |}.
#[global] Instance RebootTime_WireEnumLaws : WireEnumLaws RebootTime.
Proof. enum_laws. Qed.

Record RebootRequest := mk_RebootRequest { rbq_time : RebootTime }.

Definition REBOOT_REQUEST_LEN : nat := 1.

#[global] Instance RebootRequest_Message : Message RebootRequest := CtRebootRequest.

Definition reboot_request_from_wire {R} `{Read R} : M R FromWireError RebootRequest :=
  time_u8 ← io_from (read_be U8);
  time ← ok_or OutOfRange (from_wire_value time_u8);
  mret (mk_RebootRequest time).

Definition reboot_request_to_wire {W} `{Write W} (self : RebootRequest) : M W ToWireError unit :=
  io_to (write_be U8 (to_wire_value (rbq_time self))) ;;
  mret tt.

#[global] Instance RebootRequest_FromWire : FromWire RebootRequest := @reboot_request_from_wire.
#[global] Instance RebootRequest_ToWire : ToWire RebootRequest := @reboot_request_to_wire.

#[global] Program Instance RebootRequest_WireLaws : WireLaws RebootRequest := {|
  valid s := True;
  encode s := [to_wire_value (rbq_time s)] ++ [];
|}.
Next Obligation. wire_emits RebootRequest_ToWire reboot_request_to_wire. Qed.
Next Obligation. wire_parses RebootRequest_FromWire reboot_request_from_wire. Qed.

#[global] Instance RebootRequest_WireCanonical : WireCanonical RebootRequest.
Proof. wire_reads RebootRequest_FromWire reboot_request_from_wire. Qed.

Inductive RebootResult := RbSuccess | RbError.

#[global] Instance RebootResult_eq_dec : EqDecision RebootResult.
Proof. solve_decision. Defined.

Definition RebootResult_variants : list (RebootResult * Z * string) :=
  [(RbSuccess, 0x00, "Success"); (RbError, 0x01, "Error")].

#[global] Instance RebootResult_WireEnum : WireEnum RebootResult := {| wire_ty := U8; variants := RebootResult_variants |}.
#[global] Instance RebootResult_WireEnumLaws : WireEnumLaws RebootResult.
Proof. enum_laws. Qed.

Record RebootResponse := mk_RebootResponse { rbr_time : RebootTime; rbr_result : RebootResult }.

Definition REBOOT_RESPONSE_LEN : nat := 2.

#[global] Instance RebootResponse_Message : Message RebootResponse := CtRebootResponse.

Definition reboot_response_from_wire {R} `{Read R} : M R FromWireError RebootResponse :=
  time_u8 ← io_from (read_be U8);
  time ← ok_or OutOfRange (from_wire_value time_u8);
  result_u8 ← io_from (read_be U8);
  result ← ok_or OutOfRange (from_wire_value result_u8);
  mret (mk_RebootResponse time result).

Definition reboot_response_to_wire {W} `{Write W} (self : RebootResponse) : M W ToWireError unit :=
  io_to (write_be U8 (to_wire_value (rbr_time self))) ;;
  io_to (write_be U8 (to_wire_value (rbr_result self))) ;;
  mret tt.

#[global] Instance RebootResponse_FromWire : FromWire RebootResponse := @reboot_response_from_wire.
#[global] Instance RebootResponse_ToWire : ToWire RebootResponse := @reboot_response_to_wire.

#[global] Program Instance RebootResponse_WireLaws : WireLaws RebootResponse := {|
  valid s := True;
  encode s := [to_wire_value (rbr_time s)] ++ [to_wire_value (rbr_result s)] ++ [];
|}.
Next Obligation. wire_emits RebootResponse_ToWire reboot_response_to_wire. Qed.
Next Obligation. wire_parses RebootResponse_FromWire reboot_response_from_wire. Qed.

#[global] Instance RebootResponse_WireCanonical : WireCanonical RebootResponse.
Proof. wire_reads RebootResponse_FromWire reboot_response_from_wire. Qed.


(** ** Error protocol ([protocol/error.rs]) *)

Inductive ErrContentType := CtBadChecksum | CtContentTypeNotSupported.

#[global] Instance ErrContentType_eq_dec : EqDecision ErrContentType.
Proof. solve_decision. Defined.

Definition ErrContentType_variants : list (ErrContentType * Z * string) :=
  [(CtBadChecksum, 0x01, "BadChecksum"); (CtContentTypeNotSupported, 0x02, "ContentTypeNotSupported")].

#[global] Instance ErrContentType_WireEnum : WireEnum ErrContentType :=
  {| wire_ty := U8; variants := ErrContentType_variants |}.
#[global] Instance ErrContentType_WireEnumLaws : WireEnumLaws ErrContentType.
Proof. enum_laws. Qed.

Record ErrHeader := mk_ErrHeader { err_content : ErrContentType }.

Definition ERR_HEADER_LEN : nat := 1.

Definition err_header_from_wire {R} `{Read R} : M R FromWireError ErrHeader :=
  content_u8 ← io_from (read_be U8);
  content ← ok_or OutOfRange (from_wire_value content_u8);
  mret (mk_ErrHeader content).

Definition err_header_to_wire {W} `{Write W} (self : ErrHeader) : M W ToWireError unit :=
  io_to (write_be U8 (to_wire_value (err_content self))) ;;
  mret tt.

#[global] Instance ErrHeader_FromWire : FromWire ErrHeader := @err_header_from_wire.
#[global] Instance ErrHeader_ToWire : ToWire ErrHeader := @err_header_to_wire.

#[global] Program Instance ErrHeader_WireLaws : WireLaws ErrHeader := {|
  valid _ := True;
  encode h := [to_wire_value (err_content h)] ++ [];
|}.
Next Obligation. wire_emits ErrHeader_ToWire err_header_to_wire. Qed.
Next Obligation. wire_parses ErrHeader_FromWire err_header_from_wire. Qed.

#[global] Instance ErrHeader_WireCanonical : WireCanonical ErrHeader.
Proof. wire_reads ErrHeader_FromWire err_header_from_wire. Qed.

(** The two error messages have an empty body. *)
Inductive ErrMessage := BadChecksum | ContentTypeNotSupported.

Definition err_type (m : ErrMessage) : ErrContentType :=
  match m with BadChecksum => CtBadChecksum | ContentTypeNotSupported => CtContentTypeNotSupported end.

Definition BAD_CHECKSUM_LEN : nat := 0.
Definition CONTENT_TYPE_NOT_SUPPORTED_LEN : nat := 0.

Definition bad_checksum_from_wire {R} `{Read R} : M R FromWireError ErrMessage := mret BadChecksum.
Definition bad_checksum_to_wire {W} `{Write W} : M W ToWireError unit := mret tt.
Definition content_type_not_supported_from_wire {R} `{Read R} : M R FromWireError ErrMessage :=
  mret ContentTypeNotSupported.
Definition content_type_not_supported_to_wire {W} `{Write W} : M W ToWireError unit := mret tt.

(** ** SPI device configuration ([driver/spi_device.rs]) *)

Inductive HandlerMode := HmDisabled | HmUserSpace | HmKernelSpace.

#[global] Instance HandlerMode_eq_dec : EqDecision HandlerMode.
Proof. solve_decision. Defined.

Definition HandlerMode_default : HandlerMode := HmDisabled.

(** [self as usize] *)
Definition handler_mode_to_usize (m : HandlerMode) : Z :=
  match m with HmDisabled => 0 | HmUserSpace => 1 | HmKernelSpace => 2 end.

(** [None] is [Err(InvalidHandlerMode)]. *)
Definition handler_mode_try_from (item : Z) : option HandlerMode :=
  match item with
  | 0 => Some HmDisabled
  | 1 => Some HmUserSpace
  | 2 => Some HmKernelSpace
  | _ => None
  end.

Definition ADDRESS_CONFIG_LEN : nat := 5 * 4.

Record AddressConfig := mk_AddressConfig {
  flash_virtual_base : Z;
  flash_physical_base : Z;
  flash_physical_size : Z;
  ram_virtual_base : Z;
  virtual_size : Z;
}.

Definition address_config_from_wire {R} `{Read R} : M R FromWireError AddressConfig :=
  flash_virtual_base ← io_from (read_be U32);
  flash_physical_base ← io_from (read_be U32);
  flash_physical_size ← io_from (read_be U32);
  ram_virtual_base ← io_from (read_be U32);
  virtual_size ← io_from (read_be U32);
  mret (mk_AddressConfig flash_virtual_base flash_physical_base flash_physical_size
          ram_virtual_base virtual_size).

Definition address_config_to_wire {W} `{Write W} (self : AddressConfig) : M W ToWireError unit :=
  io_to (write_be U32 (flash_virtual_base self)) ;;
  io_to (write_be U32 (flash_physical_base self)) ;;
  io_to (write_be U32 (flash_physical_size self)) ;;
  io_to (write_be U32 (ram_virtual_base self)) ;;
  io_to (write_be U32 (virtual_size self)) ;;
  mret tt.

#[global] Instance AddressConfig_FromWire : FromWire AddressConfig := @address_config_from_wire.
#[global] Instance AddressConfig_ToWire : ToWire AddressConfig := @address_config_to_wire.

#[global] Program Instance AddressConfig_WireLaws : WireLaws AddressConfig := {|
  valid c := fits 32 (flash_virtual_base c) ∧ fits 32 (flash_physical_base c) ∧
             fits 32 (flash_physical_size c) ∧ fits 32 (ram_virtual_base c) ∧ fits 32 (virtual_size c);
  encode c := be_bytes 4 (flash_virtual_base c) ++ be_bytes 4 (flash_physical_base c) ++
              be_bytes 4 (flash_physical_size c) ++ be_bytes 4 (ram_virtual_base c) ++
              be_bytes 4 (virtual_size c) ++ [];
|}.
Next Obligation. wire_emits AddressConfig_ToWire address_config_to_wire. Qed.
Next Obligation. wire_parses AddressConfig_FromWire address_config_from_wire. Qed.

#[global] Instance AddressConfig_WireCanonical : WireCanonical AddressConfig.
Proof. wire_reads AddressConfig_FromWire address_config_from_wire. Qed.

(** ** Reset source ([driver/reset.rs])

    Any non-zero byte reads as [true], so the format is not canonical. *)

Record ResetSource := mk_ResetSource {
  power_on_reset : bool; low_power_reset : bool; watchdog_reset : bool; lockup_reset : bool;
  sysreset : bool; software_reset : bool; fast_burnout_circuit : bool; security_breach_reset : bool;
}.

#[global] Instance ResetSource_eq_dec : EqDecision ResetSource.
Proof. solve_decision. Defined.

Definition RESET_SOURCE_LEN : nat := 8.

Definition reset_source_from_wire {R} `{Read R} : M R FromWireError ResetSource :=
  power_on_reset ← io_from (read_be U8);
  low_power_reset ← io_from (read_be U8);
  watchdog_reset ← io_from (read_be U8);
  lockup_reset ← io_from (read_be U8);
  sysreset ← io_from (read_be U8);
  software_reset ← io_from (read_be U8);
  fast_burnout_circuit ← io_from (read_be U8);
  security_breach_reset ← io_from (read_be U8);
  mret (mk_ResetSource (negb (power_on_reset =? 0)) (negb (low_power_reset =? 0))
          (negb (watchdog_reset =? 0)) (negb (lockup_reset =? 0)) (negb (sysreset =? 0))
          (negb (software_reset =? 0)) (negb (fast_burnout_circuit =? 0))
          (negb (security_breach_reset =? 0))).

Definition reset_source_to_wire {W} `{Write W} (self : ResetSource) : M W ToWireError unit :=
  io_to (write_be U8 (if power_on_reset self then 1 else 0)) ;;
  io_to (write_be U8 (if low_power_reset self then 1 else 0)) ;;
  io_to (write_be U8 (if watchdog_reset self then 1 else 0)) ;;
  io_to (write_be U8 (if lockup_reset self then 1 else 0)) ;;
  io_to (write_be U8 (if sysreset self then 1 else 0)) ;;
  io_to (write_be U8 (if software_reset self then 1 else 0)) ;;
  io_to (write_be U8 (if fast_burnout_circuit self then 1 else 0)) ;;
  io_to (write_be U8 (if security_breach_reset self then 1 else 0)) ;;
  mret tt.

#[global] Instance ResetSource_FromWire : FromWire ResetSource := @reset_source_from_wire.
#[global] Instance ResetSource_ToWire : ToWire ResetSource := @reset_source_to_wire.

Definition flag_byte (b : bool) : Z := if b then 1 else 0.

Lemma flag_byte_back b : negb (flag_byte b =? 0) = b.
Proof. by destruct b. Qed.

#[global] Program Instance ResetSource_WireLaws : WireLaws ResetSource := {|
  valid _ := True;
  encode s := [flag_byte (power_on_reset s)] ++ [flag_byte (low_power_reset s)] ++
    [flag_byte (watchdog_reset s)] ++ [flag_byte (lockup_reset s)] ++ [flag_byte (sysreset s)] ++
    [flag_byte (software_reset s)] ++ [flag_byte (fast_burnout_circuit s)] ++
    [flag_byte (security_breach_reset s)] ++ [];
|}.
Next Obligation. wire_emits ResetSource_ToWire reset_source_to_wire. Qed.
Next Obligation.
  intros R ?? s _. unfold from_wire, ResetSource_FromWire, reset_source_from_wire.
  do 8 (eapply parses_bind; [apply parses_u8|]). rewrite !flag_byte_back.
  destruct s. apply parses_ret.
Qed.

(** ** A message with its header

    A firmware message travels behind a [Header] that names its type; the two
    sides of the protocol write the header and then the body, and dispatch on
    the header's content type.  [FirmwareMessage] is the sum of the bodies. *)

Inductive FirmwareMessage :=
| MsgUpdatePrepareRequest (m : UpdatePrepareRequest)
| MsgUpdatePrepareResponse (m : UpdatePrepareResponse)
| MsgWriteChunkRequest (m : WriteChunkRequest)
| MsgWriteChunkResponse (m : WriteChunkResponse)
| MsgInactiveSegmentsInfoRequest (m : InactiveSegmentsInfoRequest)
| MsgInactiveSegmentsInfoResponse (m : InactiveSegmentsInfoResponse)
| MsgRebootRequest (m : RebootRequest)
| MsgRebootResponse (m : RebootResponse).

Definition message_type (m : FirmwareMessage) : FwContentType :=
  match m with
  | MsgUpdatePrepareRequest _ => TYPE UpdatePrepareRequest
  | MsgUpdatePrepareResponse _ => TYPE UpdatePrepareResponse
  | MsgWriteChunkRequest _ => TYPE WriteChunkRequest
  | MsgWriteChunkResponse _ => TYPE WriteChunkResponse
  | MsgInactiveSegmentsInfoRequest _ => TYPE InactiveSegmentsInfoRequest
  | MsgInactiveSegmentsInfoResponse _ => TYPE InactiveSegmentsInfoResponse
  | MsgRebootRequest _ => TYPE RebootRequest
  | MsgRebootResponse _ => TYPE RebootResponse
  end.

(** The length the constants of the module give; a write chunk adds its data. *)
Definition message_len (m : FirmwareMessage) : nat :=
  match m with
  | MsgUpdatePrepareRequest _ => UPDATE_PREPARE_REQUEST_LEN
  | MsgUpdatePrepareResponse _ => UPDATE_PREPARE_RESPONSE_LEN
  | MsgWriteChunkRequest m => WRITE_CHUNK_REQUEST_LEN + length (wcq_data m)
  | MsgWriteChunkResponse _ => WRITE_CHUNK_RESPONSE_LEN
  | MsgInactiveSegmentsInfoRequest _ => INACTIVE_SEGMENTS_INFO_REQUEST_LEN
  | MsgInactiveSegmentsInfoResponse _ => INACTIVE_SEGMENTS_INFO_RESPONSE_LEN
  | MsgRebootRequest _ => REBOOT_REQUEST_LEN
  | MsgRebootResponse _ => REBOOT_RESPONSE_LEN
  end.

Definition message_valid (m : FirmwareMessage) : Prop :=
  match m with
  | MsgUpdatePrepareResponse m => valid m
  | MsgWriteChunkRequest m => fits 32 (wcq_offset m) ∧ bytes_ok (wcq_data m)
  | MsgWriteChunkResponse m => valid m
  | MsgInactiveSegmentsInfoResponse m => valid m
  | _ => True
  end.

Definition body_to_wire {W} `{Write W} (m : FirmwareMessage) : M W ToWireError unit :=
  match m with
  | MsgUpdatePrepareRequest m => to_wire m
  | MsgUpdatePrepareResponse m => to_wire m
  | MsgWriteChunkRequest m => to_wire m
  | MsgWriteChunkResponse m => to_wire m
  | MsgInactiveSegmentsInfoRequest m => to_wire m
  | MsgInactiveSegmentsInfoResponse m => to_wire m
  | MsgRebootRequest m => to_wire m
  | MsgRebootResponse m => to_wire m
  end.

Definition message_to_wire {W} `{Write W} (m : FirmwareMessage) : M W ToWireError unit :=
  to_wire (mk_FwHeader (message_type m)) ;; body_to_wire m.

Definition body_from_wire {R} `{Read R} (c : FwContentType) : M R FromWireError FirmwareMessage :=
  match c with
  | CtUpdatePrepareRequest => m ← from_wire UpdatePrepareRequest; mret (MsgUpdatePrepareRequest m)
  | CtUpdatePrepareResponse => m ← from_wire UpdatePrepareResponse; mret (MsgUpdatePrepareResponse m)
  | CtWriteChunkRequest => m ← from_wire WriteChunkRequest; mret (MsgWriteChunkRequest m)
  | CtWriteChunkResponse => m ← from_wire WriteChunkResponse; mret (MsgWriteChunkResponse m)
  | CtInactiveSegmentsInfoRequest =>
      m ← from_wire InactiveSegmentsInfoRequest; mret (MsgInactiveSegmentsInfoRequest m)
  | CtInactiveSegmentsInfoResponse =>
      m ← from_wire InactiveSegmentsInfoResponse; mret (MsgInactiveSegmentsInfoResponse m)
  | CtRebootRequest => m ← from_wire RebootRequest; mret (MsgRebootRequest m)
  | CtRebootResponse => m ← from_wire RebootResponse; mret (MsgRebootResponse m)
  end.

Definition message_from_wire {R} `{Read R} : M R FromWireError FirmwareMessage :=
  h ← from_wire FwHeader; body_from_wire (fw_content h).

Definition body_encode (m : FirmwareMessage) : list Z :=
  match m with
  | MsgUpdatePrepareRequest m => encode m
  | MsgUpdatePrepareResponse m => encode m
  | MsgWriteChunkRequest m =>
      [to_wire_value (wcq_segment m)] ++ be_bytes 4 (wcq_offset m) ++ wcq_data m
  | MsgWriteChunkResponse m => encode m
  | MsgInactiveSegmentsInfoRequest m => encode m
  | MsgInactiveSegmentsInfoResponse m => encode m
  | MsgRebootRequest m => encode m
  | MsgRebootResponse m => encode m
  end.

Definition message_encode (m : FirmwareMessage) : list Z :=
  encode (mk_FwHeader (message_type m)) ++ body_encode m.

Section MessageFacts.
Context {W : Type} `{WriteLaws W} {R : Type} `{ReadLaws R}.

Lemma length_message m : length (message_encode m) = (FW_HEADER_LEN + message_len m)%nat.
Proof.
  unfold message_encode. rewrite length_app. by destruct m.
Qed.

Lemma write_chunk_emits (x : WriteChunkRequest) :
  emits (ToIo BufferExhausted) (to_wire x) (body_encode (MsgWriteChunkRequest x)).
Proof.
  unfold to_wire, WriteChunkRequest_ToWire, write_chunk_request_to_wire.
  eapply emits_eq; [|emits_tac]. cbn [body_encode]. by rewrite app_nil_r.
Qed.

Lemma message_emits m : message_valid m →
  emits (ToIo BufferExhausted) (message_to_wire m) (message_encode m).
Proof.
  intros Hv. apply emits_bind; [by apply (to_wire_emits (T := FwHeader))|].
  destruct m; cbn [body_to_wire body_encode]; try apply write_chunk_emits;
    by apply to_wire_emits.
Qed.

(** What a parser does on an input that is just [bs]. *)
Lemma write_chunk_parses (x : WriteChunkRequest) (r : R) :
  fits 32 (wcq_offset x) → rd_view r = body_encode (MsgWriteChunkRequest x) →
  ∃ r', from_wire WriteChunkRequest r = (Ok x, r') ∧ rd_view r' = [].
Proof.
  intros Hf Hr. unfold from_wire, WriteChunkRequest_FromWire, write_chunk_request_from_wire.
  destruct (parses_u8 _ r _ Hr) as (r1 & Hm1 & Hr1). erewrite bind_ok by exact Hm1.
  rewrite from_to_wire_value. unfold ok_or. erewrite bind_ok by done.
  destruct (parses_u32 _ Hf r1 _ Hr1) as (r2 & Hm2 & Hr2). erewrite bind_ok by exact Hm2.
  erewrite bind_ok by done. rewrite rd_remaining, Hr2.
  destruct (parses_io _ _ _ (parses_read _ (wcq_data x) eq_refl) r2 []) as (r3 & Hm3 & Hr3).
  { by rewrite app_nil_r. }
  erewrite bind_ok by exact Hm3. exists r3. by destruct x.
Qed.

Lemma message_parses m (r : R) : message_valid m → rd_view r = message_encode m →
  ∃ r', message_from_wire r = (Ok m, r') ∧ rd_view r' = [].
Proof.
  intros Hv Hr. assert (valid (mk_FwHeader (message_type m))) as Hh by done.
  destruct (from_wire_parses R _ Hh r _ Hr) as (r1 & Hm1 & Hr1).
  unfold message_from_wire. erewrite bind_ok by exact Hm1. rewrite <-(app_nil_r (body_encode m)) in Hr1.
  destruct m; cbn [fw_content message_type body_from_wire].
  3: { destruct Hv. rewrite app_nil_r in Hr1. destruct (write_chunk_parses m r1) as (r2 & Hm2 & ?); [done..|].
       exists r2. change (TYPE WriteChunkRequest) with CtWriteChunkRequest. cbn [body_from_wire].
       by erewrite bind_ok by exact Hm2. }
  all: assert (valid m) as Hm by exact Hv; destruct (from_wire_parses R m Hm r1 _ Hr1) as (r2 & Hm2 & ?); exists r2;
       split; [|done]; exact (bind_ok _ _ _ _ _ Hm2).
Qed.

End MessageFacts.

Section MessageReads.
Context {R : Type} `{ReadLaws R}.

Lemma write_chunk_reads :
  reads (R := R) (from_wire WriteChunkRequest)
    (λ bs x, bs = body_encode (MsgWriteChunkRequest x) ∧ message_valid (MsgWriteChunkRequest x)).
Proof.
  unfold from_wire, WriteChunkRequest_FromWire, write_chunk_request_from_wire.
  do 3 reads_step. intros r Hr. erewrite bind_ok by done.
  generalize (remaining_data r). intros n. revert r Hr.
  eapply reads_bind; [apply reads_io, reads_read|]. intros b1 a1 Hb1 [-> _].
  apply reads_ret. rewrite app_nil_r. done.
Qed.

Lemma message_reads :
  reads (R := R) message_from_wire (λ bs m, bs = message_encode m ∧ message_valid m).
Proof.
  eapply reads_bind; [apply from_wire_reads|]. intros b1 [c] Hb1 [-> _]. cbn [fw_content].
  destruct c; (eapply reads_bind; [apply write_chunk_reads || apply from_wire_reads|]);
    intros b2 m _ [-> Hv]; apply reads_ret; rewrite app_nil_r; split; done.
Qed.

End MessageReads.

(** ** Theorems *)

(** C11: every firmware message survives the wire.  Serializing the header and the
    body of any of the eight messages into a writer with room puts out exactly
    the length the module's constants announce (a write chunk adds its data),
    and a reader over those bytes dispatches to the same type and gives back the
    same message with nothing left over. *)
Theorem firmware_message_roundtrip {W} `{WriteLaws W} {R} `{ReadLaws R}
    (m : FirmwareMessage) (w : W) (r : R) :
  message_valid m → wr_inv w → (FW_HEADER_LEN + message_len m <= wr_room w)%nat →
  ∃ w' bs, message_to_wire m w = (Ok tt, w') ∧ wr_inv w' ∧ wr_out w' = wr_out w ++ bs ∧
    length bs = (FW_HEADER_LEN + message_len m)%nat ∧
    (rd_view r = bs → ∃ r', message_from_wire r = (Ok m, r') ∧ rd_view r' = []).
Proof.
  intros Hv Hi Hr. rewrite <-length_message in *.
  destruct (message_emits m Hv w Hi) as [Hok _]. destruct (Hok Hr) as (w' & ? & ? & ? & _).
  exists w', (message_encode m). split_and!; [done..|]. by apply message_parses.
Qed.

Definition sample_message : FirmwareMessage :=
  MsgWriteChunkRequest (mk_WriteChunkRequest RwB 0x800 [0xde; 0xad]).
Definition sample_bytes : list Z := [3; 4; 0; 0; 8; 0; 0xde; 0xad].

Lemma firmware_message_roundtrip_witness :
  ∃ w' bs, message_to_wire sample_message (Cursor.new (replicate 8 0)) = (Ok tt, w') ∧ wr_inv w' ∧
    wr_out w' = wr_out (Cursor.new (replicate 8 0)) ++ bs ∧ length bs = 8%nat ∧
    (rd_view sample_bytes = bs →
     ∃ r', message_from_wire sample_bytes = (Ok sample_message, r') ∧ rd_view r' = []).
Proof.
  apply (firmware_message_roundtrip sample_message (Cursor.new (replicate 8 0)) sample_bytes).
  - split; by_compute.
  - split; simpl; lia.
  - by_compute.
Defined.

(** The parser of firmware messages is total and canonical.  On any bytes it
    returns a message or an error, never panics, and a message it accepts is a
    valid one whose own serialization is precisely the bytes it consumed. *)
Theorem firmware_message_parse {R} `{ReadLaws R} {W} `{WriteLaws W} (r : R) (w : W) :
  bytes_ok (rd_view r) → wr_inv w →
  match message_from_wire r with
  | (Ok m, r') => ∃ bs, rd_view r = bs ++ rd_view r' ∧ message_valid m ∧
      ((length bs <= wr_room w)%nat →
       ∃ w', message_to_wire m w = (Ok tt, w') ∧ wr_out w' = wr_out w ++ bs)
  | (Err _, _) => True
  | (Panic, _) => False
  end.
Proof.
  intros Hr Hi. pose proof (message_reads r Hr) as Hm.
  destruct (message_from_wire r) as [[m|e|] r']; [|done..]. destruct Hm as (bs & Hb & -> & Hv).
  exists (message_encode m). split_and!; [done..|]. intros Hl.
  destruct (message_emits m Hv w Hi) as [Hok _]. destruct (Hok Hl) as (w' & ? & ? & ? & _). eauto.
Qed.

Lemma firmware_message_parse_witness :
  match message_from_wire [8; 1; 0; 77] with
  | (Ok m, r') => ∃ bs, rd_view [8; 1; 0; 77] = bs ++ rd_view r' ∧ message_valid m ∧
      ((length bs <= wr_room (Cursor.new [0; 0; 0]%Z))%nat →
       ∃ w', message_to_wire m (Cursor.new [0; 0; 0]) = (Ok tt, w') ∧
             wr_out w' = wr_out (Cursor.new [0; 0; 0]) ++ bs)
  | (Err _, _) => True
  | (Panic, _) => False
  end.
Proof.
  apply (firmware_message_parse [8; 1; 0; 77] (Cursor.new [0; 0; 0])).
  - by_compute.
  - split; simpl; lia.
Defined.

(** [x] goes out as [len] bytes and comes back from them unchanged. *)
Definition crosses {W} `{WriteLaws W} {R} `{ReadLaws R} (w : W) (r : R) (rest : list Z)
    {T} `{FromWire T, ToWire T} (x : T) (len : nat) : Prop :=
  ∃ w' bs, to_wire x w = (Ok tt, w') ∧ wr_out w' = wr_out w ++ bs ∧ length bs = len ∧
    (rd_view r = bs ++ rest → ∃ r', from_wire T r = (Ok x, r') ∧ rd_view r' = rest).

Lemma wire_crosses {W} `{WriteLaws W} {R} `{ReadLaws R} {T} `{Wl : WireLaws T} (w : W) (r : R) rest
    (x : T) len :
  wr_inv w → valid x → length (encode x) = len → (len <= wr_room w)%nat → crosses w r rest x len.
Proof.
  intros Hi Hv Hl Hle. destruct (wire_roundtrip x w r rest Hv Hi) as (w' & bs & ? & _ & ? & ? & ?); [lia|].
  exists w', bs. split_and!; [done..|lia|done].
Qed.

(** The structures that cross the system call boundary round-trip at their
    announced length: the segment table, the SPI address configuration, the reset
    source and the build information are written as exactly as many bytes as the
    length constants the capsules and applications share say, and are read back
    unchanged from those bytes whatever follows them. *)
Theorem kernel_structures_roundtrip {W} `{WriteLaws W} {R} `{ReadLaws R} (w : W) (r : R) rest
    (s : RuntimeSegmentInfo) (c : AddressConfig) (q : ResetSource) (b : BuildInfo) :
  valid s → valid c → valid b → wr_inv w → (RUNTIME_SEGMENT_INFO_LEN <= wr_room w)%nat →
  crosses w r rest s RUNTIME_SEGMENT_INFO_LEN ∧ crosses w r rest c ADDRESS_CONFIG_LEN ∧
  crosses w r rest q RESET_SOURCE_LEN ∧ crosses w r rest b BUILD_INFO_LEN.
Proof.
  unfold RUNTIME_SEGMENT_INFO_LEN, SEGMENT_INFO_LEN, ADDRESS_CONFIG_LEN, RESET_SOURCE_LEN, BUILD_INFO_LEN.
  intros Hs Hc Hb Hi Hr. split_and!; (apply wire_crosses; [done|done|done|lia]).
Qed.

Definition sample_segment : SegmentInfo := mk_SegmentInfo RwB 0x84000 0x3c000 8 120.
Definition sample_segments : RuntimeSegmentInfo :=
  mk_RuntimeSegmentInfo UNKNOWN_SEGMENT sample_segment UNKNOWN_SEGMENT sample_segment.
Definition sample_config : AddressConfig := mk_AddressConfig 0 0x4000000 0x2000000 0x4000000 0x8000000.
Definition sample_reset : ResetSource := mk_ResetSource true false false true false false false false.
Definition sample_build : BuildInfo := mk_BuildInfo 1 2 3 1600000000.

Lemma kernel_structures_roundtrip_witness :
  let w := Cursor.new (replicate 68 0) in let r := [1; 0; 0; 1; 0; 0; 0; 0; 5] in
  crosses w r [5] sample_segments 68 ∧ crosses w r [5] sample_config 20 ∧
  crosses w r [5] sample_reset 8 ∧ crosses w r [5] sample_build 20.
Proof.
  intros w r. apply (kernel_structures_roundtrip w r [5] sample_segments sample_config sample_reset sample_build).
  - cbn. split_and!; by_compute.
  - cbn. split_and!; by_compute.
  - cbn. split_and!; by_compute.
  - split; simpl; lia.
  - by_compute.
Defined.
