(* ===== verification/Tock.v ===== *)
(** * What the kernel code takes from Tock

    [ReturnCode] is the result type of Tock's kernel crate; its constructors are
    the ones the sources name.  Kernel arithmetic on [usize] and [u32] wraps at
    32 bits, as it does in the release profile the firmware is built with
    ([kernel/Cargo.toml]).  Kernel code returns a [ReturnCode] as a value, so
    its computations fail only by a panic: they run in the monad [K]. *)

From S2P Require Import Prelude.
From Stdlib Require Import ZArith Lia.
From stdpp Require Import base decidable option list list_numbers.

#[local] Open Scope Z_scope.

Inductive ReturnCode :=
| SUCCESS
| SuccessWithValue (value : Z)
| FAIL | EBUSY | EALREADY | ERESERVE | EINVAL | ESIZE | ECANCEL | ENOMEM | ENOSUPPORT.

#[global] Instance ReturnCode_eq_dec : EqDecision ReturnCode.
Proof. solve_decision. Defined.

(** [usize] and [u32] arithmetic of the release build. *)
Definition u32 (x : Z) : Z := wrap 32 x.
Definition u32_max : Z := 0xFFFFFFFF.

Lemma u32_fits x : fits 32 (u32 x).
Proof. apply wrap_fits. lia. Qed.

Lemma u32_small x : fits 32 x → u32 x = x.
Proof. apply wrap_small. Qed.

#[export] Hint Resolve u32_fits : titan.

(** Kernel computations. *)
Abbreviation K S := (M S Empty_set).

(** A slice [d[a..b]], which panics out of range. *)
Definition slice {A} (d : list A) (a b : nat) : option (list A) :=
  if (a <=? b)%nat && (b <=? length d)%nat then Some (take (b - a) (drop a d)) else None.

Lemma slice_all {A} (d : list A) : slice d 0 (length d) = Some d.
Proof.
  unfold slice. rewrite (proj2 (Nat.leb_le _ _)) by lia. rewrite (proj2 (Nat.leb_le _ _)) by lia.
  simpl. by rewrite drop_0, Nat.sub_0_r, take_ge by lia.
Qed.

(** [u16::try_from(n)] *)
Definition u16_try_from (n : nat) : option Z :=
  if Z.of_nat n <? 2 ^ 16 then Some (Z.of_nat n) else None.
