(* ===== verification/FlashHil.v ===== *)
(** * The flash driver ([kernel/h1/src/hil/flash])

    [hardware.rs] (the hardware interface), [smart_program.rs] (the state machine
    that drives a program or erase cycle), [driver.rs] (the driver) and its two
    hardware modules, [h1_hw.rs] and [fake.rs].  The alarm is Tock's and stays an
    interface; the hardware between two driver calls is an adversary. *)

From S2P Require Import Prelude Tock.
From Stdlib Require Import ZArith Lia.
From stdpp Require Import base decidable option list list_numbers.

#[local] Open Scope Z_scope.

Inductive Bank := BankZero | BankOne.

#[global] Instance Bank_eq_dec : EqDecision Bank.
Proof. solve_decision. Defined.

(** The [Hardware] trait.  [set_write_data] can panic on a long buffer. *)
Class Hardware (H : Type) := {
  is_programming : H → bool;
  hw_read : Z → H → ReturnCode;
  read_error : H → Z * H;
  set_transaction : Z → Z → H → H;
  set_write_data : list Z → H → option H;
  trigger : Z → Bank → H → H;
}.

(** What the driver relies on: the write buffer takes up to 32 words. *)
Class HardwareLaws (H : Type) `{Hardware H} :=
  set_write_data_ok : ∀ data hw, (length data <= 32)%nat → is_Some (set_write_data data hw).

(** Tock's [Alarm]: the clock and the two calls the driver makes. *)
Class Alarm (A : Type) := {
  now : A → Z;
  set_alarm : Z → Z → A → A;
  disarm : A → A;
  frequency : Z;
}.
Arguments frequency A {_}.

(** ** Smart programming ([smart_program.rs]) *)

Definition decode_error (error_flags : Z) : ReturnCode :=
  if negb (Z.land error_flags 2 =? 0) then ESIZE else FAIL.

Definition div_round_up (numerator denominator : Z) : Z :=
  wrap 64 (numerator / denominator + (if numerator mod denominator =? 0 then 0 else 1)).

Definition set_program_timeout {A} `{Alarm A} (timeout_nanoseconds : Z) (alarm : A) : A :=
  set_alarm (now alarm)
    (u32 (div_round_up (wrap 64 (frequency A * timeout_nanoseconds)) 1000000000)) alarm.

Inductive SmartProgramState :=
| Init (attempts_remaining : Z) (final_pulse_needed : bool) (timeout_nanoseconds : Z)
| Running (attempts_remaining : Z) (final_pulse_needed : bool) (timeout_nanoseconds : Z)
| Finished (return_code : ReturnCode).

Definition init (max_attempts : Z) (final_pulse_needed : bool) (timeout_nanoseconds : Z) :=
  Init max_attempts final_pulse_needed timeout_nanoseconds.

Definition return_code (self : SmartProgramState) : option ReturnCode :=
  match self with Finished code => Some code | _ => None end.

Definition step {A H} `{Alarm A, Hardware H} (opcode : Z) (bank : Bank)
    (self : SmartProgramState) (alarm : A) (hw : H) : SmartProgramState * A * H :=
  match self with
  | Init attempts_remaining final_pulse_needed timeout_nanoseconds =>
    (Running (wrap 8 (attempts_remaining - 1)) final_pulse_needed timeout_nanoseconds,
     set_program_timeout timeout_nanoseconds alarm, trigger opcode bank hw)
  | Running attempts_remaining final_pulse_needed timeout_nanoseconds =>
    if is_programming hw then (Finished FAIL, disarm alarm, hw)
    else
      let '(error, hw) := read_error hw in
      if error =? 0 then
        if final_pulse_needed then
          (Running 0 false timeout_nanoseconds,
           set_program_timeout timeout_nanoseconds alarm, trigger opcode bank hw)
        else (Finished SUCCESS, disarm alarm, hw)
      else if 0 <? attempts_remaining then
        (Running (wrap 8 (attempts_remaining - 1)) final_pulse_needed timeout_nanoseconds,
         set_program_timeout timeout_nanoseconds alarm, trigger opcode bank hw)
      else (Finished (decode_error error), disarm alarm, hw)
  | Finished return_code => (Finished return_code, alarm, hw)
  end.

(** ** The driver ([driver.rs]) *)

Definition WORDS_PER_PAGE : Z := 512.
Definition MAX_WRITE_SIZE : nat := 32.
Definition WORDS_PER_BANK : Z := 0x10000.
Definition ERASE_OPCODE : Z := 0x31415927.
Definition WRITE_OPCODE : Z := 0x27182818.

Definition get_bank_from_target (target : Z) : option Bank :=
  if target <? WORDS_PER_BANK then Some BankZero
  else if target <? 2 * WORDS_PER_BANK then Some BankOne
  else None.

(** A call the driver makes to its client. *)
Inductive ClientCall :=
| EraseDone (code : ReturnCode)
| WriteDone (data : list Z) (code : ReturnCode).

#[global] Instance ClientCall_eq_dec : EqDecision ClientCall.
Proof. solve_decision. Defined.

(** The Flash trait: the operations a client sees. *)
Class Flash (F : Type) := {
  flash_erase : Z → K F ReturnCode;
  flash_read : Z → F → ReturnCode;
  flash_write : Z → list Z → K F (ReturnCode * option (list Z));
}.

Module Driver.
Section Driver.
Context {A H : Type} `{Alarm A, Hardware H}.

(** [client] is whether a client is linked; the calls to it are returned. *)
Record t := mk {
  alarm_dev : A;
  client : bool;
  write_data : option (list Z);
  write_pos : nat;
  write_len : nat;
  write_bank : Bank;
  write_bank_target : Z;
  hw : H;
  smart_program_state : option SmartProgramState;
  opcode : Z;
}.

Definition new (a : A) (h : H) : t := mk a false None 0 0 BankZero 0 h None 0.

Definition set_client (self : t) : t :=
  mk (alarm_dev self) true (write_data self) (write_pos self) (write_len self) (write_bank self)
     (write_bank_target self) (hw self) (smart_program_state self) (opcode self).

Definition program_in_progress (self : t) : bool :=
  match smart_program_state self with Some _ => true | None => false end.

Definition smart_program (op max_attempts : Z) (final_pulse_needed : bool) (timeout_nanoseconds : Z)
    (bank : Bank) (bank_target size : Z) (self : t) : t :=
  let h := set_transaction bank_target (u32 (size - 1)) (hw self) in
  let '(s, a, h) := step op bank (init max_attempts final_pulse_needed timeout_nanoseconds)
                      (alarm_dev self) h in
  mk a (client self) (write_data self) (write_pos self) (write_len self) (write_bank self)
     (write_bank_target self) h (Some s) op.

Definition erase (page : Z) : K t ReturnCode := λ self,
  if program_in_progress self then (Ok EBUSY, self)
  else
    let target := u32 (page * WORDS_PER_PAGE) in
    match get_bank_from_target target with
    | None => (Ok EINVAL, self)
    | Some bank =>
      let self := mk (alarm_dev self) (client self) (write_data self) (write_pos self) (write_len self)
                     bank (target mod WORDS_PER_BANK) (hw self) (smart_program_state self) (opcode self) in
      (Ok SUCCESS,
       smart_program ERASE_OPCODE 45 false 3353267 (write_bank self) (write_bank_target self) 1 self)
    end.

Definition read (word : Z) (self : t) : ReturnCode := hw_read word (hw self).

Definition write_timeout (len : nat) : Z := u32 (48734 + Z.of_nat len * 3734).

Definition write (target : Z) (data : list Z) : K t (ReturnCode * option (list Z)) := λ self,
  let len := (length data `min` MAX_WRITE_SIZE)%nat in
  if (MAX_WRITE_SIZE <? length data)%nat then (Ok (ESIZE, Some data), self)
  else if program_in_progress self then (Ok (EBUSY, Some data), self)
  else
    match get_bank_from_target target with
    | None => (Ok (EINVAL, Some data), self)
    | Some bank =>
      let self := mk (alarm_dev self) (client self) (write_data self) 0 len
                     bank (target mod WORDS_PER_BANK) (hw self) (smart_program_state self) (opcode self) in
      match slice data 0 len ≫= λ d, set_write_data d (hw self) with
      | None => (Panic, self)
      | Some h =>
        let self := mk (alarm_dev self) (client self) (Some data) (write_pos self) (write_len self)
                       (write_bank self) (write_bank_target self) h (smart_program_state self) (opcode self) in
        (Ok (SUCCESS, None),
         smart_program WRITE_OPCODE 8 true (write_timeout len)
           (write_bank self) (write_bank_target self) (Z.of_nat len) self)
      end
    end.

(** The next part of a write that spans several write buffers. *)
Definition continue_write (subwrite_end fullwrite_end : nat) : K t (option ClientCall) := λ self,
  let next_len := (MAX_WRITE_SIZE `min` (fullwrite_end - subwrite_end))%nat in
  let next_end := (subwrite_end + next_len)%nat in
  let target := u32 (write_bank_target self + Z.of_nat subwrite_end) in
  let self := mk (alarm_dev self) (client self) (write_data self) subwrite_end (write_len self)
                 (write_bank self) (write_bank_target self) (hw self) (smart_program_state self) (opcode self) in
  let set_data :=
    match write_data self with
    | None => Some (hw self)
    | Some d => slice d subwrite_end next_end ≫= λ d, set_write_data d (hw self)
    end in
  match set_data with
  | None => (Panic, self)
  | Some h =>
    let self := mk (alarm_dev self) (client self) (write_data self) (write_pos self) (write_len self)
                   (write_bank self) (write_bank_target self) h (smart_program_state self) (opcode self) in
    (Ok None,
     smart_program WRITE_OPCODE 8 true (write_timeout next_len)
       (write_bank self) target (Z.of_nat next_len) self)
  end.

(** The alarm handler; the call to the client is its last action. *)
Definition alarm : K t (option ClientCall) := λ self,
  match smart_program_state self with
  | None => (Ok None, self)
  | Some state =>
    let '(state, a, h) := step (opcode self) (write_bank self) state (alarm_dev self) (hw self) in
    let self := mk a (client self) (write_data self) (write_pos self) (write_len self)
                   (write_bank self) (write_bank_target self) h None (opcode self) in
    match return_code state with
    | None =>
      (Ok None, mk (alarm_dev self) (client self) (write_data self) (write_pos self) (write_len self)
                   (write_bank self) (write_bank_target self) (hw self) (Some state) (opcode self))
    | Some code =>
      if client self then
        if opcode self =? WRITE_OPCODE then
          let subwrite_end := (write_pos self + write_len self)%nat in
          let fullwrite_end := from_option length 0%nat (write_data self) in
          if (fullwrite_end <=? subwrite_end)%nat || bool_decide (code ≠ SUCCESS) then
            match write_data self with
            | None => (Panic, self)
            | Some d =>
              (Ok (Some (WriteDone d code)),
               mk (alarm_dev self) (client self) None (write_pos self) (write_len self)
                  (write_bank self) (write_bank_target self) (hw self) None (opcode self))
            end
          else continue_write subwrite_end fullwrite_end self
        else (Ok (Some (EraseDone code)), self)
      else (Ok None, self)
    end
  end.

End Driver.
Arguments t : clear implicits.
End Driver.

#[global] Instance Driver_Flash A H `{Alarm A, Hardware H} : Flash (Driver.t A H) := {
  flash_erase := Driver.erase;
  flash_read := Driver.read;
  flash_write := Driver.write;
}.

(** ** The mock alarm of the driver's tests ([userspace/flash_test/src/mock_alarm.rs]) *)

Module MockAlarm.

Record t := mk { current_time : Z; setpoint : option Z }.

Definition new : t := mk 0 (Some 0).
Definition set_time (new_time : Z) (self : t) : t := mk new_time (setpoint self).
Definition get_alarm (self : t) : Z := default 0 (setpoint self).
Definition is_armed (self : t) : bool := bool_decide (is_Some (setpoint self)).

#[global] Instance MockAlarm_Alarm : Alarm t := {
  now self := current_time self;
  set_alarm reference dt self := mk (current_time self) (Some (u32 (reference + dt)));
  disarm self := mk (current_time self) None;
  frequency := 256000;
}.

End MockAlarm.

(** ** The state machine stops *)

Section SmartProgramFacts.
Context {A H : Type} `{Alarm A, Hardware H}.

Definition sp_wf (s : SmartProgramState) : Prop :=
  match s with
  | Init a _ _ => 1 <= a < 256
  | Running a _ _ => 0 <= a < 256
  | Finished _ => True
  end.

(** Steps the machine can still make before it is finished. *)
Definition sp_rank (s : SmartProgramState) : nat :=
  match s with
  | Init a fp _ | Running a fp _ => (Z.to_nat a + 1 + Nat.b2n fp)%nat
  | Finished _ => 0%nat
  end.

Lemma sp_rank_finished s : sp_rank s = 0%nat ↔ is_Some (return_code s).
Proof. destruct s; simpl; split; intros Hr; try lia; by destruct Hr. Qed.

Lemma wrap_pred a : 1 <= a < 256 → wrap 8 (a - 1) = a - 1.
Proof. intros. apply wrap_small. unfold fits. lia. Qed.

Lemma step_decreases op bank s (a : A) (h : H) :
  sp_wf s → sp_wf (step op bank s a h).1.1 ∧ (sp_rank (step op bank s a h).1.1 <= sp_rank s - 1)%nat.
Proof.
  intros Hs. destruct s as [n fp t|n fp t|rc]; simpl in *.
  - rewrite wrap_pred by done. split; lia.
  - destruct (is_programming h); [simpl; split; [done|lia]|].
    destruct (read_error h) as [e h']. destruct (e =? 0).
    { destruct fp; simpl; split; try lia; done. }
    destruct (0 <? n) eqn:En; zb; simpl; [|split; [done|lia]].
    rewrite wrap_pred by lia. split; lia.
  - done.
Qed.

(** The machine run against hardware and clock that change freely between steps. *)
Fixpoint sp_run (env : nat → A * H → A * H) (op : Z) (bank : Bank) (n : nat)
    (s : SmartProgramState) (a : A) (h : H) : SmartProgramState * A * H :=
  match n with
  | O => (s, a, h)
  | S n' =>
    let '(a, h) := env n' (a, h) in
    let '(s, a, h) := step op bank s a h in
    sp_run env op bank n' s a h
  end.

Lemma sp_run_rank env op bank n s a h :
  sp_wf s → sp_wf (sp_run env op bank n s a h).1.1 ∧
            (sp_rank (sp_run env op bank n s a h).1.1 <= sp_rank s - n)%nat.
Proof.
  revert s a h. induction n as [|n IH]; intros s a h Hs; simpl; [split; [done|lia]|].
  destruct (env n (a, h)) as [a1 h1]. destruct (step_decreases op bank s a1 h1 Hs) as [Hw Hr].
  destruct (step op bank s a1 h1) as [[s2 a2] h2]. simpl in *.
  destruct (IH s2 a2 h2 Hw) as [Hw' Hr']. split; [done|lia].
Qed.

End SmartProgramFacts.

(** ** Scripted hardware

    Each attempt's outcome is given in advance: still busy, or the error flags. *)
Module Script.

Record t := mk { outcomes : list (bool * Z); triggers : list (Z * Bank) }.

#[global] Instance Script_Hardware : Hardware t := {
  is_programming h := match outcomes h with (b, _) :: _ => b | [] => true end;
  hw_read _ _ := FAIL;
  read_error h := match outcomes h with
                  | (_, e) :: os => (e, mk os (triggers h))
                  | [] => (0, h)
                  end;
  set_transaction _ _ h := h;
  set_write_data _ h := Some h;
  trigger op b h := mk (outcomes h) (triggers h ++ [(op, b)]);
}.

(** The code of a run whose [n]-th attempt is the last that may be retried. *)
Fixpoint verdict (n : nat) (fp : bool) (os : list (bool * Z)) {struct os} : ReturnCode :=
  match os with
  | [] => FAIL
  | (true, _) :: _ => FAIL
  | (false, e) :: os' =>
    if e =? 0 then
      if fp then
        match os' with
        | [] | (true, _) :: _ => FAIL
        | (false, e') :: _ => if e' =? 0 then SUCCESS else decode_error e'
        end
      else SUCCESS
    else match n with O => decode_error e | S n' => verdict n' fp os' end
  end.

(** An attempt the machine answers with a retry. *)
Definition retried (o : bool * Z) : Prop := o.1 = false ∧ o.2 ≠ 0.

Lemma decode_error_not_success e : decode_error e ≠ SUCCESS.
Proof. unfold decode_error. by destruct (negb _). Qed.

Lemma verdict_success n fp os :
  verdict n fp os = SUCCESS ↔
  ∃ k, (k <= n)%nat ∧ Forall retried (take k os) ∧ os !! k = Some (false, 0) ∧
       (fp = true → os !! S k = Some (false, 0)).
Proof.
  revert os. induction n as [n IH] using lt_wf_ind. intros [|[b e] os].
  { split; [by intros|]. intros (k & _ & _ & Hk & _). by rewrite lookup_nil in Hk. }
  destruct b.
  { split; [by intros|]. intros ([|k] & _ & Hf & Hk & _); [done|].
    apply Forall_inv in Hf. by destruct Hf. }
  destruct n as [|n]; simpl; destruct (e =? 0) eqn:Ee; zb; subst.
  - split; [|intros ([|k] & Hk & _ & _ & Hf); [|lia]].
    + intros Hv. exists 0%nat. split_and!; [lia|constructor|done|intros ->].
      destruct os as [|[[] e'] os]; simpl in *; try done. destruct (e' =? 0) eqn:E; zb; subst; [done|].
      by apply decode_error_not_success in Hv.
    + destruct fp; [|done]. specialize (Hf eq_refl). simpl in Hf. destruct os; by simplify_eq/=.
  - split; [intros Hv; by apply decode_error_not_success in Hv|].
    intros ([|k] & Hk & _ & Hl & _); [|lia]. by simplify_eq/=.
  - split; [|intros ([|k] & _ & Hr & _ & Hf)].
    + intros Hv. exists 0%nat. split_and!; [lia|constructor|done|intros ->].
      destruct os as [|[[] e'] os]; simpl in *; try done. destruct (e' =? 0) eqn:E; zb; subst; [done|].
      by apply decode_error_not_success in Hv.
    + destruct fp; [|done]. specialize (Hf eq_refl). simpl in Hf. destruct os; by simplify_eq/=.
    + apply Forall_inv in Hr. by destruct Hr.
  - rewrite (IH n) by lia. split.
    + intros (k & ? & ? & ? & ?). exists (S k). split_and!; [lia| |done..]. by constructor.
    + intros ([|k] & ? & Hr & ? & ?); [by simplify_eq/=|]. exists k.
      apply Forall_cons in Hr as [_ Hr]. split_and!; [lia|done..].
Qed.

End Script.

Section ScriptFacts.
Context {A : Type} `{Alarm A} (op : Z) (bank : Bank).

Definition still : nat → A * Script.t → A * Script.t := λ _ x, x.

Lemma sp_run_finished n rc (a : A) (h : Script.t) :
  sp_run still op bank n (Finished rc) a h = (Finished rc, a, h).
Proof. induction n; simpl; done. Qed.

(** What a run from [Running] ends in, and how often it pulses the hardware. *)
Definition script_done (r : SmartProgramState * A * Script.t) (rc : ReturnCode)
    (tr : list (Z * Bank)) (pulses : nat) : Prop :=
  r.1.1 = Finished rc ∧
  ∃ k, (k <= pulses)%nat ∧ Script.triggers r.2 = tr ++ replicate k (op, bank).

Lemma script_done_now rc (a : A) os tr p m :
  script_done (sp_run still op bank m (Finished rc) a (Script.mk os tr)) rc tr p.
Proof.
  rewrite sp_run_finished. split; [done|]. exists 0%nat. split; [lia|]. by rewrite app_nil_r.
Qed.

Lemma script_done_pulse r rc tr p :
  script_done r rc (tr ++ [(op, bank)]) p → script_done r rc tr (S p).
Proof.
  intros (? & k & ? & Hk). split; [done|]. exists (S k). split; [lia|].
  by rewrite Hk, <-app_assoc.
Qed.

Lemma script_run m n fp t os tr (a : A) :
  0 <= n < 256 → (Z.to_nat n + 1 + Nat.b2n fp <= m)%nat →
  script_done (sp_run still op bank m (Running n fp t) a (Script.mk os tr))
    (Script.verdict (Z.to_nat n) fp os) tr (Z.to_nat n + Nat.b2n fp).
Proof.
  revert n fp os tr a. induction m as [|m IH]; intros n fp os tr a Hn Hm; [lia|].
  destruct os as [|[b e] os]; simpl; [apply script_done_now|].
  destruct b; simpl; [apply script_done_now|].
  destruct (e =? 0) eqn:Ee.
  { destruct fp; [|apply script_done_now]. replace (Z.to_nat n + Nat.b2n true)%nat with (S (Z.to_nat n)) by (simpl; lia).
    apply script_done_pulse. simpl in Hm. pose proof (IH 0 false os (tr ++ [(op, bank)]) (set_program_timeout t a)) as IH0.
    destruct IH0 as (Hs & k & Hk & Ht); [lia|simpl; lia|].
    split; [|exists k; split; [simpl in Hk; lia|exact Ht]].
    simpl. rewrite Hs. by destruct os as [|[[] e'] os]. }
  destruct (0 <? n) eqn:E0; zb.
  - simpl. rewrite wrap_pred by lia. replace (Z.to_nat n) with (S (Z.to_nat (n - 1))) by lia.
    rewrite Nat.add_succ_l. apply script_done_pulse, IH; lia.
  - replace n with 0 by lia. apply script_done_now.
Qed.

End ScriptFacts.

(** ** The driver's invariant *)

Module DriverFacts.
Import Driver.

Section DriverFacts.
Context {A H : Type} `{Alarm A} `{HardwareLaws H}.
Implicit Types d : t A H.

(** The hardware and the clock move on between two calls. *)
Definition advance (a : A) (h : H) d : t A H :=
  mk a (client d) (write_data d) (write_pos d) (write_len d) (write_bank d)
     (write_bank_target d) h (smart_program_state d) (opcode d).

(** Calls on a linked driver, in any order, with hardware that does anything. *)
Inductive reachable : t A H → Prop :=
| reach_new a h : reachable (set_client (new a h))
| reach_erase d d' page rc : reachable d → erase page d = (Ok rc, d') → reachable d'
| reach_write d d' target data r : reachable d → write target data d = (Ok r, d') → reachable d'
| reach_alarm d d' c : reachable d → alarm d = (Ok c, d') → reachable d'
| reach_advance d a h : reachable d → reachable (advance a h d).

(** The buffer the driver holds belongs to the write that is running. *)
Definition inv d : Prop :=
  client d = true ∧
  match smart_program_state d with
  | None => write_data d = None
  | Some s =>
    sp_wf s ∧ return_code s = None ∧
    ((opcode d = ERASE_OPCODE ∧ write_data d = None) ∨
     (opcode d = WRITE_OPCODE ∧ ∃ data, write_data d = Some data ∧ write_pos d = 0%nat ∧
        write_len d = length data ∧ (length data <= 32)%nat))
  end.

(** The state a program or erase cycle is left in by its first step. *)
Lemma smart_program_state_eq op n fp t bank tgt size d : 1 <= n < 256 →
  smart_program_state (smart_program op n fp t bank tgt size d) = Some (Running (n - 1) fp t).
Proof. intros. unfold smart_program. simpl. by rewrite wrap_pred. Qed.

Lemma erase_cases page d :
  (program_in_progress d = true ∧ erase page d = (Ok EBUSY, d)) ∨
  (smart_program_state d = None ∧ get_bank_from_target (u32 (page * WORDS_PER_PAGE)) = None ∧
   erase page d = (Ok EINVAL, d)) ∨
  (∃ bank d', smart_program_state d = None ∧
   get_bank_from_target (u32 (page * WORDS_PER_PAGE)) = Some bank ∧
   erase page d = (Ok SUCCESS, d') ∧ client d' = client d ∧ write_data d' = write_data d ∧
   opcode d' = ERASE_OPCODE ∧ write_bank d' = bank ∧
   write_bank_target d' = u32 (page * WORDS_PER_PAGE) mod WORDS_PER_BANK ∧
   smart_program_state d' = Some (Running 44 false 3353267)).
Proof.
  unfold erase, program_in_progress. destruct (smart_program_state d); [by left|right].
  destruct (get_bank_from_target _) as [bank|]; [right|by left].
  eexists _, _. split_and!; try done.
Qed.

Lemma write_cases target data d :
  ((32 < length data)%nat ∧ write target data d = (Ok (ESIZE, Some data), d)) ∨
  ((length data <= 32)%nat ∧ program_in_progress d = true ∧
   write target data d = (Ok (EBUSY, Some data), d)) ∨
  ((length data <= 32)%nat ∧ smart_program_state d = None ∧ get_bank_from_target target = None ∧
   write target data d = (Ok (EINVAL, Some data), d)) ∨
  (∃ bank d', (length data <= 32)%nat ∧ smart_program_state d = None ∧
   get_bank_from_target target = Some bank ∧
   write target data d = (Ok (SUCCESS, None), d') ∧ client d' = client d ∧
   write_data d' = Some data ∧ write_pos d' = 0%nat ∧ write_len d' = length data ∧
   opcode d' = WRITE_OPCODE ∧ write_bank d' = bank ∧ write_bank_target d' = target mod WORDS_PER_BANK ∧
   smart_program_state d' = Some (Running 7 true (write_timeout (length data)))).
Proof.
  unfold write, program_in_progress, MAX_WRITE_SIZE.
  destruct (32 <? length data)%nat eqn:El; zb; [by left|right].
  destruct (smart_program_state d) eqn:Es; [by left|right].
  destruct (get_bank_from_target target) as [bank|]; [right|by left].
  rewrite Nat.min_l, slice_all by done. simpl.
  destruct (set_write_data_ok data (hw d) El) as [h ->]. eexists _, _. split_and!; done.
Qed.

Lemma inv_new a h : inv (set_client (new a h)).
Proof. done. Qed.

Lemma inv_erase page d : inv d → ∃ rc d', erase page d = (Ok rc, d') ∧ inv d'.
Proof.
  intros Hi. destruct (erase_cases page d) as [[_ ->]|[(_ & _ & ->)|(bank & d' & Hs & _ & -> & Hc & Hd & Ho & _ & _ & Hs')]]; eauto.
  eexists _, _. split; [done|]. destruct Hi as [Hic Hi]. rewrite Hs in Hi. unfold inv. rewrite Hs', Hc, Hd.
  split_and!; [done|simpl; lia|done|left; done].
Qed.

Lemma inv_write target data d : inv d → ∃ r d', write target data d = (Ok r, d') ∧ inv d'.
Proof.
  intros Hi. destruct (write_cases target data d)
    as [[_ ->]|[(_ & _ & ->)|[(_ & _ & _ & ->)|(bank & d' & Hl & Hs & _ & -> & Hc & Hd & Hp & Hw & Ho & _ & _ & Hs')]]]; eauto.
  eexists _, _. split; [done|]. destruct Hi as [Hic _]. unfold inv. rewrite Hs', Hc.
  split_and!; [done|simpl; lia|done|right]. eauto 10.
Qed.

(** An alarm makes progress or ends the operation with the client's own buffer. *)
Lemma alarm_cases d : inv d →
  (smart_program_state d = None ∧ alarm d = (Ok None, d)) ∨
  (∃ s d', smart_program_state d = Some s ∧ inv d' ∧
    ((∃ s', alarm d = (Ok None, d') ∧ smart_program_state d' = Some s' ∧
            (sp_rank s' <= sp_rank s - 1)%nat ∧ write_data d' = write_data d ∧ opcode d' = opcode d ∧
            write_bank d' = write_bank d ∧ write_bank_target d' = write_bank_target d) ∨
     (∃ rc, smart_program_state d' = None ∧
       ((opcode d = ERASE_OPCODE ∧ alarm d = (Ok (Some (EraseDone rc)), d')) ∨
        (opcode d = WRITE_OPCODE ∧ ∃ data, write_data d = Some data ∧
           alarm d = (Ok (Some (WriteDone data rc)), d')))))).
Proof.
  intros [Hc Hi]. unfold alarm. destruct (smart_program_state d) as [s|] eqn:Es; [right|by left].
  destruct Hi as (Hw & Hn & Hop). exists s.
  destruct (step_decreases (opcode d) (write_bank d) s (alarm_dev d) (hw d) Hw) as [Hw' Hr].
  destruct (step (opcode d) (write_bank d) s (alarm_dev d) (hw d)) as [[s' a'] h']. simpl in Hw', Hr.
  destruct (return_code s') as [rc|] eqn:Ercode; cbn [client opcode write_data write_pos write_len].
  - rewrite Hc. destruct Hop as [(Ho & Hd)|(Ho & data & Hd & Hp & Hl & Hle)]; rewrite Ho.
    + eexists. split; [done|]. split; [|right; exists rc; split; [|left; split; [done|reflexivity]]]; done.
    + rewrite Hd, Hp, Hl. simpl. rewrite (proj2 (Nat.leb_le _ _)) by lia. simpl.
      eexists. split; [done|]. split; [|right; exists rc; split; [|right; split; [done|]; exists data; split; [done|reflexivity]]]; done.
  - eexists. split; [done|]. split; [|left; exists s'; split; [reflexivity|done]]. split; [done|]. simpl. done.
Qed.

Lemma inv_reachable d : reachable d → inv d.
Proof.
  induction 1 as [a h|d d' page rc _ IH He|d d' tgt data r _ IH He|d d' c _ IH He|d a h _ IH].
  - apply inv_new.
  - destruct (inv_erase page d IH) as (? & ? & He' & ?). rewrite He in He'. by simplify_eq.
  - destruct (inv_write tgt data d IH) as (? & ? & He' & ?). rewrite He in He'. by simplify_eq.
  - destruct (alarm_cases d IH) as [[_ Ha]|(s & d2 & _ & Hi & [(s' & Ha & _)|(rc & _ & [[_ Ha]|(_ & data & _ & Ha)])])];
      rewrite He in Ha; by simplify_eq.
  - done.
Qed.

(** Alarms delivered one after the other, the hardware free in between. *)
Fixpoint alarms (env : nat → A * H → A * H) (n : nat) (d : t A H) : option (list ClientCall * t A H) :=
  match n with
  | O => Some ([], d)
  | S n' =>
    let '(a, h) := env n' (alarm_dev d, hw d) in
    match alarm (advance a h d) with
    | (Ok c, d') => '(cs, d'') ← alarms env n' d'; Some (option_list c ++ cs, d'')
    | (_, _) => None
    end
  end.

Lemma alarms_idle env n d : inv d → smart_program_state d = None →
  ∃ d', alarms env n d = Some ([], d') ∧ smart_program_state d' = None.
Proof.
  revert d. induction n as [|n IH]; intros d Hi Hs; simpl; [eauto|].
  destruct (env n _) as [a h]. unfold alarm. simpl. rewrite Hs.
  destruct (IH (advance a h d)) as (d' & -> & ?); [done..|]. simpl. eauto.
Qed.

(** The completion the client is owed for the operation in progress. *)
Definition owed d (c : ClientCall) : Prop :=
  ∃ rc, (opcode d = ERASE_OPCODE ∧ c = EraseDone rc) ∨
        (opcode d = WRITE_OPCODE ∧ ∃ data, write_data d = Some data ∧ c = WriteDone data rc).

Lemma alarms_complete env n d s : inv d → smart_program_state d = Some s → (sp_rank s <= n)%nat →
  ∃ c d', alarms env n d = Some ([c], d') ∧ owed d c ∧ smart_program_state d' = None.
Proof.
  revert d s. induction n as [|n IH]; intros d s Hi Hs Hn.
  { destruct Hi as [_ Hi]. rewrite Hs in Hi. destruct Hi as (_ & Hrc & _).
    assert (sp_rank s = 0%nat) as Hr by lia. apply sp_rank_finished in Hr as [? Hr]. congruence. }
  simpl. destruct (env n _) as [a h].
  destruct (alarm_cases (advance a h d)) as [[Hs' _]|(s0 & d' & Hs0 & Hi' & Hcase)]; [done|..].
  { simpl in Hs'. congruence. }
  simpl in Hs0. rewrite Hs in Hs0. simplify_eq. destruct Hcase as [(s' & -> & Hs' & Hr & Hd & Ho & _)|(rc & Hs' & Hcase)].
  - destruct (IH d' s' Hi' Hs') as (c & d'' & -> & Hw & ?); [lia|]. simpl. eexists _, _. split; [done|].
    split; [|done]. unfold owed in *. by rewrite Hd, Ho in Hw.
  - destruct (alarms_idle env n d' Hi' Hs') as (d'' & Ha & Hs'').
    destruct Hcase as [[Ho ->]|(Ho & data & Hd & ->)]; rewrite Ha; simpl; eexists _, _; (split; [done|]);
      (split; [|done]); exists rc; [left; done|right; eauto].
Qed.

End DriverFacts.
End DriverFacts.

(** ** Theorems *)

(** A smart program cycle always ends.  Started with [n] attempts, the state
    machine is finished after at most [n + 2] steps (one fewer without the final
    pulse), whatever the flash controller and the clock do between two steps. *)
Theorem smart_program_terminates {A H} `{Alarm A, Hardware H} (env : nat → A * H → A * H)
    (op : Z) (bank : Bank) (n : Z) (fp : bool) (t : Z) (a : A) (h : H) :
  1 <= n < 256 →
  is_Some (return_code (sp_run env op bank (Z.to_nat n + 1 + Nat.b2n fp) (init n fp t) a h).1.1).
Proof.
  intros Hn. apply sp_rank_finished.
  destruct (sp_run_rank env op bank (Z.to_nat n + 1 + Nat.b2n fp) (init n fp t) a h Hn) as [_ Hr].
  simpl in Hr. lia.
Qed.

Lemma smart_program_terminates_witness :
  is_Some (return_code (sp_run (λ _ x, x) WRITE_OPCODE BankOne 10 (init 8 true 100000000)
             MockAlarm.new (Script.mk [] [])).1.1).
Proof.
  apply (smart_program_terminates (λ _ x, x) WRITE_OPCODE BankOne 8 true 100000000
           MockAlarm.new (Script.mk [] [])). lia.
Defined.

(** What a smart program cycle reports.  On hardware whose attempts have the
    outcomes [os], a cycle of [n] attempts reports success exactly when one of
    the first [n] attempts ends without error after failures only, and, where a
    final pulse is asked for, the pulse after it ends without error too; and it
    pulses the controller at most [n] times plus the final pulse, always with the
    requested opcode and bank. *)
Theorem smart_program_result {A} `{Alarm A} (op : Z) (bank : Bank) (n : Z) (fp : bool) (t : Z)
    (a : A) (os : list (bool * Z)) :
  1 <= n < 256 →
  ∃ rc k, (k <= Z.to_nat n + Nat.b2n fp)%nat ∧
    (sp_run still op bank (Z.to_nat n + 1 + Nat.b2n fp) (init n fp t) a (Script.mk os [])).1.1 = Finished rc ∧
    Script.triggers (sp_run still op bank (Z.to_nat n + 1 + Nat.b2n fp) (init n fp t) a (Script.mk os [])).2 =
      replicate k (op, bank) ∧
    (rc = SUCCESS ↔ ∃ i, (i < Z.to_nat n)%nat ∧ Forall Script.retried (take i os) ∧
                         os !! i = Some (false, 0) ∧ (fp = true → os !! S i = Some (false, 0))).
Proof.
  intros Hn. replace (Z.to_nat n + 1 + Nat.b2n fp)%nat with (S (Z.to_nat n + Nat.b2n fp)) by lia.
  cbn [sp_run still init step trigger]. rewrite wrap_pred by done.
  destruct (script_run op bank (Z.to_nat n + Nat.b2n fp) (n - 1) fp t os [(op, bank)] (set_program_timeout t a))
    as (Hs & k & Hk & Ht); [lia..|].
  exists (Script.verdict (Z.to_nat (n - 1)) fp os), (S k). split_and!; [lia|exact Hs|exact Ht|].
  rewrite Script.verdict_success. split; intros (i & ? & ?); exists i; (split; [lia|done]).
Qed.

Lemma smart_program_result_witness :
  ∃ rc k, (k <= 9)%nat ∧
    (sp_run still ERASE_OPCODE BankZero 10 (init 8 true 5) MockAlarm.new
       (Script.mk [(false, 4); (false, 0); (false, 0)] [])).1.1 = Finished rc ∧
    Script.triggers (sp_run still ERASE_OPCODE BankZero 10 (init 8 true 5) MockAlarm.new
       (Script.mk [(false, 4); (false, 0); (false, 0)] [])).2 = replicate k (ERASE_OPCODE, BankZero) ∧
    (rc = SUCCESS ↔ ∃ i, (i < 8)%nat ∧ Forall Script.retried (take i [(false, 4); (false, 0); (false, 0)]) ∧
       [(false, 4); (false, 0); (false, 0)] !! i = Some (false, 0) ∧
       (true = true → [(false, 4); (false, 0); (false, 0)] !! S i = Some (false, 0))).
Proof.
  apply (smart_program_result ERASE_OPCODE BankZero 8 true 5 MockAlarm.new
           [(false, 4); (false, 0); (false, 0)]). lia.
Defined.

(** C10: the driver never panics.  In every state reachable by calls in any order,
    with a client linked and the controller in any condition, erase, write and
    the alarm handler all return: the buffer the handler takes back is there, and
    the branch that slices a further part of the write is never out of range. *)
Theorem driver_never_panics {A H} `{Alarm A} `{HardwareLaws H} (d : Driver.t A H) :
  DriverFacts.reachable d →
  (∀ page, (Driver.erase page d).1 ≠ Panic) ∧ (∀ target data, (Driver.write target data d).1 ≠ Panic) ∧
  (Driver.alarm d).1 ≠ Panic.
Proof.
  intros Hr. apply DriverFacts.inv_reachable in Hr. split_and!.
  - intros page. by destruct (DriverFacts.inv_erase page d Hr) as (? & ? & -> & _).
  - intros tgt data. by destruct (DriverFacts.inv_write tgt data d Hr) as (? & ? & -> & _).
  - by destruct (DriverFacts.alarm_cases d Hr)
      as [[_ ->]|(s & d2 & _ & _ & [(s' & -> & _)|(rc & _ & [[_ ->]|(_ & data & _ & ->)])])].
Qed.

#[global] Instance Script_Laws : HardwareLaws Script.t.
Proof. intros data hw _. by eexists. Qed.

Definition sample_driver : Driver.t MockAlarm.t Script.t :=
  Driver.set_client (Driver.new MockAlarm.new (Script.mk [(false, 4); (false, 0); (false, 0)] [])).

Lemma driver_never_panics_witness :
  (∀ page, (Driver.erase page sample_driver).1 ≠ Panic) ∧
  (∀ target data, (Driver.write target data sample_driver).1 ≠ Panic) ∧
  (Driver.alarm sample_driver).1 ≠ Panic.
Proof. apply (driver_never_panics sample_driver). apply DriverFacts.reach_new. Defined.

(** C9: every operation the driver accepts is answered once.  An idle driver that
    accepts a write makes exactly one call to its client within nine alarms, a
    completion that returns the client's own buffer, and an erase it accepts is
    answered with exactly one completion within 45 alarms; after it the driver is
    idle again.  This holds whatever the controller reports meanwhile. *)
Theorem driver_answers_once {A H} `{Alarm A} `{HardwareLaws H} (d : Driver.t A H)
    (env : nat → A * H → A * H) :
  DriverFacts.reachable d →
  (∀ target data d', Driver.write target data d = (Ok (SUCCESS, None), d') →
    ∃ code d'', DriverFacts.alarms env 9 d' = Some ([WriteDone data code], d'') ∧
                Driver.program_in_progress d'' = false) ∧
  (∀ page d', Driver.erase page d = (Ok SUCCESS, d') →
    ∃ code d'', DriverFacts.alarms env 45 d' = Some ([EraseDone code], d'') ∧
                Driver.program_in_progress d'' = false).
Proof.
  intros Hr. pose proof (DriverFacts.inv_reachable d Hr) as Hi. split.
  - intros tgt data d' Hw. destruct (DriverFacts.inv_write tgt data d Hi) as (r & d1 & Hw' & Hi').
    rewrite Hw in Hw'. simplify_eq.
    destruct (DriverFacts.write_cases tgt data d) as [[_ E]|[(_ & _ & E)|[(_ & _ & _ & E)|(b & d2 & _ & _ & _ & E & _ & Hd & _ & _ & Ho & _ & _ & Hs)]]];
      rewrite Hw in E; simplify_eq.
    destruct (DriverFacts.alarms_complete env 9 d2 _ Hi' Hs) as (c & d'' & Ha & Hc & Hs''); [done|].
    destruct Hc as (rc & [[Hop _]|(_ & data' & Hd' & ->)]); [by rewrite Ho in Hop|].
    rewrite Hd in Hd'. simplify_eq. exists rc, d''. split; [done|]. unfold Driver.program_in_progress. by rewrite Hs''.
  - intros page d' Hw. destruct (DriverFacts.inv_erase page d Hi) as (r & d1 & Hw' & Hi').
    rewrite Hw in Hw'. simplify_eq.
    destruct (DriverFacts.erase_cases page d) as [[_ E]|[(_ & _ & E)|(b & d2 & _ & _ & E & _ & _ & Ho & _ & _ & Hs)]];
      rewrite Hw in E; simplify_eq.
    destruct (DriverFacts.alarms_complete env 45 d2 _ Hi' Hs) as (c & d'' & Ha & Hc & Hs''); [done|].
    destruct Hc as (rc & [[_ ->]|(Hop & _)]); [|by rewrite Ho in Hop].
    exists rc, d''. split; [done|]. unfold Driver.program_in_progress. by rewrite Hs''.
Qed.

Lemma driver_answers_once_witness :
  (∀ target data d', Driver.write target data sample_driver = (Ok (SUCCESS, None), d') →
    ∃ code d'', DriverFacts.alarms (λ _ x, x) 9 d' = Some ([WriteDone data code], d'') ∧
                Driver.program_in_progress d'' = false) ∧
  (∀ page d', Driver.erase page sample_driver = (Ok SUCCESS, d') →
    ∃ code d'', DriverFacts.alarms (λ _ x, x) 45 d' = Some ([EraseDone code], d'') ∧
                Driver.program_in_progress d'' = false).
Proof. apply (driver_answers_once sample_driver (λ _ x, x)). apply DriverFacts.reach_new. Defined.

(** The word a bank and an offset in it stand for. *)
Definition bank_word (bank : Bank) (off : Z) : Z :=
  match bank with BankZero => off | BankOne => WORDS_PER_BANK + off end.

Lemma get_bank_split target : 0 <= target →
  match get_bank_from_target target with
  | Some bank => target < 2 * WORDS_PER_BANK ∧ bank_word bank (target mod WORDS_PER_BANK) = target
  | None => 2 * WORDS_PER_BANK <= target
  end.
Proof.
  unfold get_bank_from_target, bank_word, WORDS_PER_BANK. intros Ht.
  destruct (target <? 65536) eqn:E; zb; [rewrite Z.mod_small by lia; lia|].
  destruct (target <? 2 * 65536) eqn:E2; zb; [|lia]. split; [lia|].
  replace target with (target - 65536 + 1 * 65536) at 1 by lia.
  rewrite Z.mod_add, Z.mod_small by lia. lia.
Qed.

Lemma page_wrap page : u32 (page * WORDS_PER_PAGE) = (page mod 2 ^ 23) * WORDS_PER_PAGE.
Proof.
  unfold u32, wrap, WORDS_PER_PAGE. change (2 ^ 32) with (2 ^ 23 * 512).
  apply Z.mul_mod_distr_r; lia.
Qed.

(** What an idle driver answers and where it operates.  A write of at most 32
    words is accepted exactly when its target lies in the two banks, and the bank
    and offset it programs are those of the target; an erase is accepted exactly
    when the page number, reduced modulo 2^23 by the 32-bit product of page and
    page size, is one of the 256 pages, and it is that reduced page that is
    erased.  A rejected request leaves the driver as it was. *)
Theorem driver_addressing {A H} `{Alarm A} `{HardwareLaws H} (d : Driver.t A H) (target page : Z) (data : list Z) :
  Driver.smart_program_state d = None → 0 <= target → 0 <= page → (length data <= 32)%nat →
  (if target <? 2 * WORDS_PER_BANK
   then ∃ d', Driver.write target data d = (Ok (SUCCESS, None), d') ∧
              bank_word (Driver.write_bank d') (Driver.write_bank_target d') = target
   else Driver.write target data d = (Ok (EINVAL, Some data), d)) ∧
  (if page mod 2 ^ 23 <? 256
   then ∃ d', Driver.erase page d = (Ok SUCCESS, d') ∧
              bank_word (Driver.write_bank d') (Driver.write_bank_target d') =
              (page mod 2 ^ 23) * WORDS_PER_PAGE
   else Driver.erase page d = (Ok EINVAL, d)).
Proof.
  intros Hs Ht Hp Hl. split.
  - pose proof (get_bank_split target Ht) as Hb.
    destruct (DriverFacts.write_cases target data d)
      as [[? _]|[(_ & Hpr & _)|[(_ & _ & Hn & E)|(b & d' & _ & _ & Hn & E & _ & _ & _ & _ & _ & Hwb & Hwt & _)]]]; [lia|..].
    + unfold Driver.program_in_progress in Hpr. by rewrite Hs in Hpr.
    + rewrite Hn in Hb. rewrite (proj2 (Z.ltb_ge _ _)) by lia. done.
    + rewrite Hn in Hb. destruct Hb as [Hlt Hbw]. rewrite (proj2 (Z.ltb_lt _ _)) by lia.
      exists d'. by rewrite Hwb, Hwt.
  - assert (0 <= u32 (page * WORDS_PER_PAGE)) as Hu by (apply (u32_fits _)).
    pose proof (get_bank_split _ Hu) as Hb. pose proof (page_wrap page) as Hw.
    destruct (DriverFacts.erase_cases page d)
      as [[Hpr _]|[(_ & Hn & E)|(b & d' & _ & Hn & E & _ & _ & _ & Hwb & Hwt & _)]].
    + unfold Driver.program_in_progress in Hpr. by rewrite Hs in Hpr.
    + rewrite Hn, Hw in Hb. unfold WORDS_PER_PAGE, WORDS_PER_BANK in Hb.
      rewrite (proj2 (Z.ltb_ge _ _)) by lia. done.
    + rewrite Hn, Hw in Hb. destruct Hb as [Hlt Hbw]. unfold WORDS_PER_PAGE, WORDS_PER_BANK in Hlt.
      rewrite (proj2 (Z.ltb_lt _ _)) by lia. exists d'. by rewrite Hwb, Hwt, Hw.
Qed.

Lemma driver_addressing_witness :
  (∃ d', Driver.write 0x10514 [7] sample_driver = (Ok (SUCCESS, None), d') ∧
         bank_word (Driver.write_bank d') (Driver.write_bank_target d') = 0x10514) ∧
  (∃ d', Driver.erase (2 ^ 23 + 2) sample_driver = (Ok SUCCESS, d') ∧
         bank_word (Driver.write_bank d') (Driver.write_bank_target d') = 2 * WORDS_PER_PAGE).
Proof.
  apply (driver_addressing sample_driver 0x10514 (2 ^ 23 + 2) [7]); [done|lia|lia|simpl; lia].
Defined.
