(* ===== verification/FlashHw.v ===== *)
(** * The two flash hardware modules ([h1_hw.rs], [fake.rs])

    [H1bHw], the register interface of the chip, and [FakeHw], the log-based
    emulation the driver is tested with, as instances of [Hardware]. *)

From S2P Require Import Prelude Tock FlashHil.
From Stdlib Require Import ZArith Lia.
From stdpp Require Import base decidable option list list_numbers.

#[local] Open Scope Z_scope.

Definition H1_FLASH_START : Z := 0x40000.
Definition H1_FLASH_BANK_SIZE : Z := 0x40000.
Definition H1_FLASH_SIZE : Z := 0x80000.
Definition H1_FLASH_PAGE_SIZE : Z := 0x800.

(** [for (i, &v) in data.iter().enumerate() { write_data[i].set(v) }] on an
    array of 32 cells: an index out of range panics. *)
Definition fill_buffer (data buf : list Z) : option (list Z) :=
  if (length data <=? 32)%nat then Some (data ++ drop (length data) buf) else None.

(** ** The chip's controller

    [memory] is the flash array the processor maps at [H1_FLASH_START]; a
    transaction parameter field is packed by Tock's register interface, which
    is the parameter [field_val] (offset, width, value). *)
Module H1bHw.

Record t := mk {
  pe_control_0 : Z;
  pe_control_1 : Z;
  transaction_parameters : Z;
  write_data : list Z;
  program_erase_enable : Z;
  error_code : Z;
  memory : Z → Z;
}.

Section Ops.
Context (field_val : Z → Z → Z → Z).

Definition is_programming (self : t) : bool :=
  negb (pe_control_0 self =? 0) || negb (pe_control_1 self =? 0).

Definition read (offset : Z) (self : t) : ReturnCode :=
  if H1_FLASH_SIZE <? offset then ESIZE
  else SuccessWithValue (memory self (u32 (H1_FLASH_START + 4 * offset))).

Definition read_error (self : t) : Z * t := (wrap 16 (error_code self), self).

Definition set_transaction (bank_offset size : Z) (self : t) : t :=
  mk (pe_control_0 self) (pe_control_1 self)
     (u32 (field_val 0 16 bank_offset + field_val 17 5 size))
     (write_data self) (program_erase_enable self) (error_code self) (memory self).

Definition set_write_data (data : list Z) (self : t) : option t :=
  buf ← fill_buffer data (write_data self);
  Some (mk (pe_control_0 self) (pe_control_1 self) (transaction_parameters self) buf
           (program_erase_enable self) (error_code self) (memory self)).

Definition trigger (opcode : Z) (bank : Bank) (self : t) : t :=
  match bank with
  | BankZero => mk opcode (pe_control_1 self) (transaction_parameters self) (write_data self)
                   0xb11924e1 (error_code self) (memory self)
  | BankOne => mk (pe_control_0 self) opcode (transaction_parameters self) (write_data self)
                  0xb11924e1 (error_code self) (memory self)
  end.

Definition hardware : Hardware t := {|
  FlashHil.is_programming := is_programming;
  hw_read := read;
  FlashHil.read_error := read_error;
  FlashHil.set_transaction := set_transaction;
  FlashHil.set_write_data := set_write_data;
  FlashHil.trigger := trigger;
|}.

End Ops.
End H1bHw.

(** ** The fake *)

Definition LOG_SIZE : Z := 9.

Record LogEntry := mk_LogEntry { value : Z; le_bank : option Bank; bank_offset : Z }.

Module FakeHw.

(** [log] holds the entries below [log_len]. *)
Record t := mk {
  error : Z;
  opcode : Z;
  transaction_bank : option Bank;
  transaction_bank_offset : Z;
  transaction_size : Z;
  write_data : list Z;
  log : list LogEntry;
}.

Definition new : t := mk 0 0 None 0 0 (replicate 32 0) [].

Definition inject_result (e : Z) (self : t) : t :=
  mk e 0 (transaction_bank self) (transaction_bank_offset self) (transaction_size self)
     (write_data self) (log self).

(** Whether the entry lies in the transaction's range. *)
Definition overlaps (entry : LogEntry) (self : t) : bool :=
  bool_decide (le_bank entry = transaction_bank self) &&
  (transaction_bank_offset self <=? bank_offset entry) &&
  (bank_offset entry <? u32 (transaction_bank_offset self + transaction_size self)).

(** The backwards scan: [Some true] when the operation would set a bit, [None]
    when it indexes out of the write buffer. *)
Fixpoint scan (entries : list LogEntry) (self : t) : option bool :=
  match entries with
  | [] => Some false
  | entry :: older =>
    if value entry =? u32_max then Some false
    else if overlaps entry self then
      new_value ← write_data self !! Z.to_nat (bank_offset entry - transaction_bank_offset self);
      if negb (Z.land new_value (u32 (Z.lnot (value entry))) =? 0) then Some true
      else scan older self
    else scan older self
  end.

(** The log entries [i .. i + n - 1] of the transaction. *)
Fixpoint entries_from (n : nat) (i : nat) (self : t) : option (list LogEntry) :=
  match n with
  | O => Some []
  | S n' =>
    v ← (if opcode self =? ERASE_OPCODE then Some u32_max else write_data self !! i);
    rest ← entries_from n' (S i) self;
    Some (mk_LogEntry v (transaction_bank self) (u32 (transaction_bank_offset self + Z.of_nat i)) :: rest)
  end.

Definition finish_operation (self : t) : option t :=
  let self :=
    if opcode self =? ERASE_OPCODE
    then mk (error self) (opcode self) (transaction_bank self) (transaction_bank_offset self) 1
            (write_data self) (log self)
    else self in
  if LOG_SIZE <? u32 (Z.of_nat (length (log self)) + transaction_size self)
  then Some (inject_result 8 self)
  else
    conflict ← scan (reverse (log self)) self;
    if (conflict : bool) then Some (inject_result 8 self)
    else
      es ← entries_from (Z.to_nat (transaction_size self)) 0 self;
      if LOG_SIZE <? Z.of_nat (length (log self) + length es) then None
      else Some (mk (error self) 0 (transaction_bank self) (transaction_bank_offset self)
                    (transaction_size self) (write_data self) (log self ++ es)).

Definition is_programming (self : t) : bool := negb (opcode self =? 0).

Fixpoint replay (entries : list LogEntry) (bank : Bank) (offset : Z) : Z :=
  match entries with
  | [] => u32_max
  | entry :: older =>
    if value entry =? u32_max then
      if bool_decide (Some bank = le_bank entry) && (bank_offset entry <=? offset) &&
         (offset <? u32 (bank_offset entry + 512))
      then u32_max else replay older bank offset
    else
      if bool_decide (Some bank = le_bank entry) && (offset =? bank_offset entry)
      then value entry else replay older bank offset
  end.

Definition FLASH_BANK_WORDS : Z := H1_FLASH_BANK_SIZE / 4.

Definition read (offset : Z) (self : t) : ReturnCode :=
  let bank_offset := offset mod FLASH_BANK_WORDS in
  let bank := if offset <? FLASH_BANK_WORDS then BankZero else BankOne in
  SuccessWithValue (replay (reverse (log self)) bank bank_offset).

Definition read_error (self : t) : Z * t :=
  (error self, mk 0 (opcode self) (transaction_bank self) (transaction_bank_offset self)
                  (transaction_size self) (write_data self) (log self)).

Definition set_transaction (bank_offset size : Z) (self : t) : t :=
  mk (error self) (opcode self) (transaction_bank self) bank_offset (u32 (size + 1))
     (write_data self) (log self).

Definition set_write_data (data : list Z) (self : t) : option t :=
  buf ← fill_buffer data (write_data self);
  Some (mk (error self) (opcode self) (transaction_bank self) (transaction_bank_offset self)
           (transaction_size self) buf (log self)).

Definition trigger (op : Z) (bank : Bank) (self : t) : t :=
  mk (error self) op (Some bank) (transaction_bank_offset self) (transaction_size self)
     (write_data self) (log self).

End FakeHw.

#[global] Instance FakeHw_Hardware : Hardware FakeHw.t := {
  is_programming := FakeHw.is_programming;
  hw_read := FakeHw.read;
  read_error := FakeHw.read_error;
  set_transaction := FakeHw.set_transaction;
  set_write_data := FakeHw.set_write_data;
  trigger := FakeHw.trigger;
}.

(** ** Both modules take what the driver gives them *)

#[global] Instance FakeHw_Laws : HardwareLaws FakeHw.t.
Proof.
  intros data hw Hl. unfold set_write_data, FakeHw_Hardware, FakeHw.set_write_data, fill_buffer.
  rewrite (proj2 (Nat.leb_le _ _)) by done. simpl. eauto.
Qed.

Lemma H1bHw_Laws field_val : @HardwareLaws H1bHw.t (H1bHw.hardware field_val).
Proof.
  intros data hw Hl. unfold set_write_data, H1bHw.hardware, H1bHw.set_write_data, fill_buffer.
  rewrite (proj2 (Nat.leb_le _ _)) by done. simpl. eauto.
Qed.

(** ** The fake's log as a memory *)

Module FakeFacts.
Import FakeHw.

(** The entries a write of [data] at [off] leaves in the log. *)
Definition write_entries (bank : Bank) (off : Z) (data : list Z) : list LogEntry :=
  imap (λ i v, mk_LogEntry v (Some bank) (off + Z.of_nat i)) data.

Definition in_range (bank : Bank) (off len : Z) (b : Bank) (o : Z) : Prop :=
  b = bank ∧ off <= o < off + len.

#[global] Instance in_range_dec bank off len b o : Decision (in_range bank off len b o).
Proof. unfold in_range. apply _. Defined.

Lemma replay_write bank off data older b o :
  Forall (λ v, v ≠ u32_max) data →
  replay (reverse (write_entries bank off data) ++ older) b o =
  if decide (in_range bank off (Z.of_nat (length data)) b o)
  then default u32_max (data !! Z.to_nat (o - off)) else replay older b o.
Proof.
  revert older. induction data as [|v data IH] using rev_ind; intros older Hd.
  { rewrite decide_False; [done|]. unfold in_range. simpl. lia. }
  unfold write_entries in *. rewrite imap_app, reverse_app. simpl.
  apply Forall_app in Hd as [Hd Hv]. apply Forall_inv in Hv. rewrite Nat.add_0_r.
  rewrite (proj2 (Z.eqb_neq _ _)) by done. rewrite IH, length_app by done. simpl.
  destruct (bool_decide (Some b = Some bank)) eqn:Eb; simpl.
  - apply bool_decide_eq_true in Eb. injection Eb as ->.
    destruct (o =? off + Z.of_nat (length data)) eqn:Eo; zb.
    + rewrite decide_True by (split; [done|lia]). subst.
      by rewrite lookup_app_r, Z.add_simpl_l, Nat2Z.id, Nat.sub_diag by lia.
    + destruct (decide (in_range bank off (Z.of_nat (length data)) bank o)) as [Hr|Hr].
      * destruct Hr as [_ ?]. rewrite decide_True by (split; [done|lia]). by rewrite lookup_app_l by lia.
      * rewrite decide_False; [done|]. intros [_ ?]. apply Hr. split; [done|lia].
  - apply bool_decide_eq_false in Eb. rewrite !decide_False; [done|..]; unfold in_range; intros [-> _]; done.
Qed.

(** [data] clears bits only, with respect to every logged word it covers. *)
Definition compatible (entries : list LogEntry) (bank : Bank) (off : Z) (data : list Z) : Prop :=
  ∀ e i v, e ∈ entries → le_bank e = Some bank → data !! i = Some v →
    bank_offset e = off + Z.of_nat i → Z.land v (u32 (Z.lnot (value e))) = 0.

Lemma scan_compatible entries self bank data :
  transaction_bank self = Some bank → Z.of_nat (length data) = transaction_size self →
  (∃ rest, write_data self = data ++ rest) →
  u32 (transaction_bank_offset self + transaction_size self) =
    transaction_bank_offset self + transaction_size self →
  compatible entries bank (transaction_bank_offset self) data → scan entries self = Some false.
Proof.
  intros Hb Hs [rest Hd] Hu Hc. induction entries as [|e entries IH]; [done|]. simpl.
  destruct (value e =? u32_max); [done|].
  assert (scan entries self = Some false) as IH'.
  { apply IH. intros e' i v ?. apply Hc. by right. }
  destruct (overlaps e self) eqn:Eo; [|done].
  unfold overlaps in Eo. zb. apply bool_decide_eq_true in H. rewrite Hu in *.
  set (off := transaction_bank_offset self) in *.
  destruct (lookup_lt_is_Some_2 data (Z.to_nat (bank_offset e - off))) as [v Hv]; [lia|].
  rewrite Hd, (lookup_app_l_Some _ _ _ _ Hv). simpl.
  rewrite (Hc e _ v) by (first [by left|congruence|done|lia]). done.
Qed.

Lemma entries_from_write n i self bank data :
  opcode self ≠ ERASE_OPCODE → transaction_bank self = Some bank →
  (length data = i + n)%nat → (∃ rest, write_data self = data ++ rest) →
  (∀ j, (j < length data)%nat → fits 32 (transaction_bank_offset self + Z.of_nat j)) →
  entries_from n i self =
  Some (drop i (write_entries bank (transaction_bank_offset self) data)).
Proof.
  intros Ho Hb Hl [rest Hd] Hf. revert i Hl. induction n as [|n IH]; intros i Hl; simpl.
  { rewrite drop_ge; [done|]. unfold write_entries. rewrite length_imap. lia. }
  rewrite (proj2 (Z.eqb_neq _ _)) by done.
  destruct (lookup_lt_is_Some_2 data i) as [v Hv]; [lia|].
  rewrite Hd, (lookup_app_l_Some _ _ _ _ Hv). simpl. rewrite IH by lia. simpl. f_equal.
  rewrite u32_small by (apply Hf; lia). rewrite Hb.
  rewrite (drop_S _ (mk_LogEntry v (Some bank) (transaction_bank_offset self + Z.of_nat i)) i); [done|].
  unfold write_entries. by rewrite list_lookup_imap, Hv.
Qed.

Lemma length_write_entries bank off data : length (write_entries bank off data) = length data.
Proof. apply length_imap. Qed.

(** A write the fake accepts is appended to the log. *)
Lemma finish_write self bank data :
  opcode self = WRITE_OPCODE → transaction_bank self = Some bank →
  Z.of_nat (length data) = transaction_size self → (∃ rest, write_data self = data ++ rest) →
  0 <= transaction_bank_offset self → transaction_bank_offset self + Z.of_nat (length data) <= WORDS_PER_BANK →
  Z.of_nat (length (log self)) + Z.of_nat (length data) <= LOG_SIZE →
  compatible (log self) bank (transaction_bank_offset self) data →
  finish_operation self =
  Some (mk (error self) 0 (transaction_bank self) (transaction_bank_offset self)
           (transaction_size self) (write_data self)
           (log self ++ write_entries bank (transaction_bank_offset self) data)).
Proof.
  unfold WORDS_PER_BANK, LOG_SIZE. intros Ho Hb Hs Hd H0 Hoff Hlog Hc. unfold finish_operation. rewrite Ho. simpl (_ =? _).
  cbv iota. rewrite u32_small by (unfold fits; lia). unfold LOG_SIZE.
  rewrite (proj2 (Z.ltb_ge _ _)) by lia.
  rewrite (scan_compatible _ _ bank data); try done.
  2: { rewrite u32_small; [done|]. unfold fits. lia. }
  2: { intros e i v He. apply Hc. by rewrite elem_of_reverse in He. }
  simpl. rewrite (entries_from_write _ _ _ bank data); try done; [|by rewrite Ho|lia|].
  2: { intros j Hj. unfold fits. lia. }
  simpl. rewrite drop_0, length_write_entries. rewrite (proj2 (Z.ltb_ge _ _)) by lia. done.
Qed.

End FakeFacts.

(** ** The driver on the fake *)

Module FakeDriver.
Import Driver FakeFacts.

Section FakeDriver.
Context {A : Type} `{Alarm A}.
Implicit Types d : Driver.t A FakeHw.t.

(** The fake's side of a test: it acts on the hardware under the driver. *)
Definition on_hw (f : FakeHw.t → FakeHw.t) d : Driver.t A FakeHw.t :=
  DriverFacts.advance (alarm_dev d) (f (hw d)) d.

(** An accepted write, its validated attempt and its final pulse. *)
Definition write_session (target : Z) (data : list Z) d : option (ClientCall * Driver.t A FakeHw.t) :=
  match Driver.write target data d with
  | (Ok (SUCCESS, None), d1) =>
    match Driver.alarm (on_hw (FakeHw.inject_result 0) d1) with
    | (Ok None, d2) =>
      h ← FakeHw.finish_operation (hw d2);
      match Driver.alarm (on_hw (λ _, h) d2) with
      | (Ok (Some c), d3) => Some (c, d3)
      | _ => None
      end
    | _ => None
    end
  | _ => None
  end.

(** The controller state at the time the final pulse completes. *)
Definition pulsed (bank : Bank) (off : Z) (data : list Z) (h : FakeHw.t) : FakeHw.t :=
  FakeHw.mk 0 WRITE_OPCODE (Some bank) off (Z.of_nat (length data))
    (data ++ drop (length data) (FakeHw.write_data h)) (FakeHw.log h).

Lemma write_session_log target data d bank :
  client d = true → smart_program_state d = None → 0 <= target → get_bank_from_target target = Some bank →
  (1 <= length data)%nat → target mod WORDS_PER_BANK + Z.of_nat (length data) <= WORDS_PER_BANK →
  Z.of_nat (length (FakeHw.log (hw d))) + Z.of_nat (length data) <= LOG_SIZE →
  compatible (FakeHw.log (hw d)) bank (target mod WORDS_PER_BANK) data →
  ∃ d3, write_session target data d = Some (WriteDone data SUCCESS, d3) ∧
    smart_program_state d3 = None ∧
    FakeHw.log (hw d3) = FakeHw.log (hw d) ++ write_entries bank (target mod WORDS_PER_BANK) data.
Proof.
  intros Hc Hs H0 Hb Hl Hoff Hlog Hcomp. assert (length data <= 9)%nat as Hl9 by (unfold LOG_SIZE in Hlog; lia).
  unfold write_session, Driver.write, MAX_WRITE_SIZE.
  rewrite (proj2 (Nat.ltb_ge _ _)) by lia. unfold program_in_progress. rewrite Hs, Hb.
  rewrite Nat.min_l, slice_all by lia. simpl. unfold FakeHw.set_write_data, fill_buffer.
  rewrite (proj2 (Nat.leb_le _ _)) by lia. simpl. unfold smart_program. simpl.
  assert (u32 (u32 (Z.of_nat (length data) - 1) + 1) = Z.of_nat (length data)) as Hsz.
  { rewrite (u32_small (_ - 1)) by (unfold fits; lia). rewrite u32_small; [lia|]. unfold fits; lia. }
  unfold Driver.alarm at 1. simpl. rewrite Hsz.
  set (h2 := FakeHw.trigger _ _ _). change (FakeHw.finish_operation _) with (FakeHw.finish_operation (pulsed bank (target mod WORDS_PER_BANK) data (hw d))).
  rewrite (finish_write _ bank data); try done; simpl.
  2: { by eexists. }
  2: { apply Z.mod_pos_bound. done. }
  unfold Driver.alarm. simpl. rewrite Hc. simpl. rewrite (proj2 (Nat.leb_le _ _)) by lia. simpl. eauto.
Qed.

End FakeDriver.
End FakeDriver.

Lemma bank_range target bank off len w :
  bank_word bank off = target → 0 <= off → off + len <= WORDS_PER_BANK → 0 <= w < 2 * WORDS_PER_BANK →
  FakeFacts.in_range bank off len (if w <? FakeHw.FLASH_BANK_WORDS then BankZero else BankOne)
    (w mod FakeHw.FLASH_BANK_WORDS) ↔ target <= w < target + len.
Proof.
  change FakeHw.FLASH_BANK_WORDS with 65536. unfold WORDS_PER_BANK, FakeFacts.in_range, bank_word.
  intros <- H0 Hl Hw. unfold WORDS_PER_BANK. destruct (w <? 65536) eqn:E; zb.
  - rewrite Z.mod_small by lia. destruct bank; (split; [intros [? ?]|intros [? ?]; split]); try done; first [lia|exfalso; lia].
  - assert (w mod 65536 = w - 65536) as ->.
    { replace w with (w - 65536 + 1 * 65536) at 1 by lia. rewrite Z.mod_add, Z.mod_small by lia. lia. }
    destruct bank; (split; [intros [? ?]|intros [? ?]; split]); try done; first [lia|exfalso; lia].
Qed.

(** ** Theorems *)

(** What is written is what is read.  On the fake with room in its log, a write
    of words other than all ones that clears bits only (against every logged word
    it covers) and stays in its bank is accepted, validated and pulsed, reported
    to the client as successful with its buffer, leaves the driver idle, and from
    then on reads return the data in the written range and what they returned
    before everywhere else. *)
Theorem fake_write_read {A} `{Alarm A} (d : Driver.t A FakeHw.t) (target : Z) (data : list Z) (bank : Bank) :
  Driver.client d = true → Driver.smart_program_state d = None → 0 <= target →
  get_bank_from_target target = Some bank → (1 <= length data)%nat →
  target mod WORDS_PER_BANK + Z.of_nat (length data) <= WORDS_PER_BANK →
  Z.of_nat (length (FakeHw.log (Driver.hw d))) + Z.of_nat (length data) <= LOG_SIZE →
  FakeFacts.compatible (FakeHw.log (Driver.hw d)) bank (target mod WORDS_PER_BANK) data →
  Forall (λ v, v ≠ u32_max) data →
  ∃ d', FakeDriver.write_session target data d = Some (WriteDone data SUCCESS, d') ∧
    Driver.program_in_progress d' = false ∧
    ∀ w, 0 <= w < 2 * WORDS_PER_BANK →
      Driver.read w d' =
      if decide (target <= w < target + Z.of_nat (length data))
      then SuccessWithValue (default u32_max (data !! Z.to_nat (w - target)))
      else Driver.read w d.
Proof.
  intros Hc Hs H0 Hb Hl Hoff Hlog Hcomp Hd.
  destruct (FakeDriver.write_session_log target data d bank) as (d' & Hw & Hs' & Hlog'); try done.
  exists d'. split; [done|]. unfold Driver.program_in_progress. rewrite Hs'. split; [done|]. intros w Hw'.
  pose proof (get_bank_split target H0) as Hsp. rewrite Hb in Hsp. destruct Hsp as [_ Hbw].
  assert (0 <= target mod WORDS_PER_BANK) as Hm by (by apply Z.mod_pos_bound).
  pose proof (bank_range target bank _ (Z.of_nat (length data)) w Hbw Hm Hoff Hw') as Hrange.
  unfold Driver.read. simpl. unfold FakeHw.read. rewrite Hlog', reverse_app, FakeFacts.replay_write by done.
  destruct (decide (target <= w < _)) as [Hin|Hin].
  - rewrite decide_True by tauto. apply Hrange in Hin as [Hbk _].
    replace (w - target) with (w mod FakeHw.FLASH_BANK_WORDS - target mod WORDS_PER_BANK); [done|].
    rewrite <-Hbk in Hbw. rewrite <-Hbw at 2. unfold bank_word.
    change FakeHw.FLASH_BANK_WORDS with WORDS_PER_BANK in *.
    pose proof (get_bank_split w) as Hsw. unfold get_bank_from_target, bank_word in Hsw.
    rewrite (proj2 (Z.ltb_lt w (2 * _))) in Hsw by lia. destruct (w <? WORDS_PER_BANK); lia.
  - rewrite decide_False by tauto. done.
Qed.

Definition sample_fake : Driver.t MockAlarm.t FakeHw.t :=
  Driver.set_client (Driver.new MockAlarm.new FakeHw.new).

Lemma fake_write_read_witness :
  ∃ d', FakeDriver.write_session 0x10514 [0xFFFFABCD; 5] sample_fake = Some (WriteDone [0xFFFFABCD; 5] SUCCESS, d') ∧
    Driver.program_in_progress d' = false ∧
    ∀ w, 0 <= w < 2 * WORDS_PER_BANK →
      Driver.read w d' =
      if decide (0x10514 <= w < 0x10514 + 2)
      then SuccessWithValue (default u32_max ([0xFFFFABCD; 5] !! Z.to_nat (w - 0x10514)))
      else Driver.read w sample_fake.
Proof.
  apply (fake_write_read sample_fake 0x10514 [0xFFFFABCD; 5] BankOne);
    [reflexivity|reflexivity|by_compute|reflexivity|by_compute|by_compute|by_compute| |by_compute].
  intros e i v He. by apply elem_of_nil in He.
Defined.

(** The bound of the chip's read.  A read is refused only past [H1_FLASH_SIZE]
    words, which is the size of the flash in bytes: every word offset from the end
    of the second bank up to that bound is read from an address past the end of
    the flash, although the interface promises [ESIZE] there. *)
Theorem h1_read_past_end (hw : H1bHw.t) (offset : Z) :
  2 * WORDS_PER_BANK <= offset <= H1_FLASH_SIZE →
  H1_FLASH_START + H1_FLASH_SIZE <= H1_FLASH_START + 4 * offset ∧
  H1bHw.read offset hw = SuccessWithValue (H1bHw.memory hw (H1_FLASH_START + 4 * offset)).
Proof.
  unfold WORDS_PER_BANK, H1_FLASH_SIZE, H1_FLASH_START. intros Ho. split; [lia|].
  unfold H1bHw.read, H1_FLASH_SIZE, H1_FLASH_START. rewrite (proj2 (Z.ltb_ge _ _)) by lia.
  rewrite u32_small; [done|]. unfold fits. lia.
Qed.

Lemma h1_read_past_end_witness :
  H1_FLASH_START + H1_FLASH_SIZE <= H1_FLASH_START + 4 * 0x20000 ∧
  H1bHw.read 0x20000 (H1bHw.mk 0 0 0 [] 0 0 (λ a, a)) = SuccessWithValue (H1_FLASH_START + 4 * 0x20000).
Proof.
  apply (h1_read_past_end (H1bHw.mk 0 0 0 [] 0 0 (λ a, a)) 0x20000).
  unfold WORDS_PER_BANK, H1_FLASH_SIZE. lia.
Defined.
