(* ===== verification/NvCounter.v ===== *)
(** * The non-volatile counter ([kernel/h1/src/nvcounter])

    [internal.rs] (the encoding of a count in a flash page) and [capsule.rs] (the
    counter's state machine) over any implementation of the flash interface.  A
    call the capsule makes to its client is its last action, so each operation
    returns it. *)

From S2P Require Import Prelude Tock FlashHil.
From Stdlib Require Import ZArith Lia.
From stdpp Require Import base decidable option list list_numbers.

#[local] Open Scope Z_scope.

Definition COUNTS_PER_WORD : Z := 8.
Definition NV_WORDS_PER_PAGE : Z := 512.
Definition COUNTS_PER_PAGE : Z := u32 (COUNTS_PER_WORD * NV_WORDS_PER_PAGE).

Inductive Task := TaskInitialize | TaskIncrement.
Inductive Page := High | Low.

#[global] Instance Task_eq_dec : EqDecision Task.
Proof. solve_decision. Defined.
#[global] Instance Page_eq_dec : EqDecision Page.
Proof. solve_decision. Defined.

(** [page as usize] *)
Definition page_number (p : Page) : Z := match p with High => 254 | Low => 255 end.

Definition page_offset (p : Page) : Z := page_number p * NV_WORDS_PER_PAGE.

(** The count of a word that is not erased. *)
Definition decode_word (value : Z) : Z :=
  if Z.land value 0x3CFFFFFF =? 0x3CFFFFFF then 1
  else if Z.land value 0xC3FFFFFF =? 0x00FFFFFF then 2
  else if Z.land value 0xFF3CFFFF =? 0x003CFFFF then 3
  else if Z.land value 0xFFC3FFFF =? 0x0000FFFF then 4
  else if Z.land value 0xFFFF3CFF =? 0x00003CFF then 5
  else if Z.land value 0xFFFFC3FF =? 0x000000FF then 6
  else if Z.land value 0xFFFFFF3C =? 0x0000003C then 7
  else 8.

Definition WRITE_PATTERNS : list Z :=
  [0x3CFFFFFF; 0x00FFFFFF; 0x003CFFFF; 0x0000FFFF; 0x00003CFF; 0x000000FF; 0x0000003C; 0x00000000].

Definition counter_value (high_count low_count : Z) : Z :=
  let '(high_count, low_count) :=
    if negb (Z.land high_count 1 =? 0) then (u32 (high_count + 1), 0) else (high_count, low_count) in
  u32 (u32 ((COUNTS_PER_PAGE + 1) * Z.shiftr high_count 1) + low_count).

Section Internal.
Context {F : Type} `{Flash F}.

(** [for i in (0..n).rev()]: the index and count of the last written word. *)
Fixpoint current_word (offset : Z) (flash : F) (n : nat) : Z * Z :=
  match n with
  | O => (0, 0)
  | S i =>
    match flash_read (offset + Z.of_nat i) flash with
    | SuccessWithValue value =>
      if negb (value =? 0xFFFFFFFF) then (Z.of_nat i, decode_word value)
      else current_word offset flash i
    | _ => (0, 0)
    end
  end.

Definition read_page_count (page : Page) (flash : F) : Z :=
  let '(current_index, current_count) :=
    current_word (page_offset page) flash (Z.to_nat NV_WORDS_PER_PAGE) in
  u32 (u32 (COUNTS_PER_WORD * current_index) + current_count).

Definition start_increment (page : Page) (current_value : Z) (buffer : list Z) :
    K F (ReturnCode * option (list Z)) :=
  if COUNTS_PER_PAGE <=? current_value then mret (ESIZE, Some buffer)
  else
    let word_to_write := current_value / COUNTS_PER_WORD in
    pattern ← unwrap (WRITE_PATTERNS !! Z.to_nat (current_value mod COUNTS_PER_WORD));
    '(return_code, buffer) ← flash_write (page_offset page + word_to_write) [pattern];
    match buffer with
    | Some b => if (length b =? 1)%nat then mret (return_code, Some b) else panic
    | None => mret (return_code, None)
    end.

Definition page_empty (page : Page) (flash : F) : bool :=
  forallb (λ i, bool_decide (flash_read (page_offset page + Z.of_nat i) flash = SuccessWithValue 0xFFFFFFFF))
          (seq 0 (Z.to_nat NV_WORDS_PER_PAGE)).

Definition low_page_full (flash : F) : bool :=
  bool_decide (flash_read (page_offset Low + NV_WORDS_PER_PAGE - 1) flash = SuccessWithValue 0).

End Internal.

(** ** The capsule ([capsule.rs]) *)

(** A call to the counter's client. *)
Inductive CounterCall := InitializeDone (status : ReturnCode) | IncrementDone (status : ReturnCode).

#[global] Instance CounterCall_eq_dec : EqDecision CounterCall.
Proof. solve_decision. Defined.

Module FlashCounter.
Section FlashCounter.
Context {F : Type} `{Flash F}.

Record t := mk {
  client : bool;
  flash : F;
  write_buffer : option (list Z);
  task : option Task;
}.

Definition new (buffer : list Z) (f : F) : t := mk false f (Some buffer) None.
Definition set_client (self : t) : t := mk true (flash self) (write_buffer self) (task self).

Definition set_flash (f : F) (self : t) : t := mk (client self) f (write_buffer self) (task self).
Definition set_buffer (b : option (list Z)) : K t unit :=
  modify (λ self, mk (client self) (flash self) b (task self)).
Definition set_task (k : option Task) : K t unit :=
  modify (λ self, mk (client self) (flash self) (write_buffer self) k).

(** [self.write_buffer.take()] and [self.task.take()] *)
Definition take_buffer : K t (option (list Z)) := λ self,
  (Ok (write_buffer self), mk (client self) (flash self) None (task self)).
Definition take_task : K t (option Task) := λ self,
  (Ok (task self), mk (client self) (flash self) (write_buffer self) None).

Definition on_flash {B} (m : K F B) : K t B := zoom flash set_flash m.

(** The call to the client, where one is linked. *)
Definition call (c : CounterCall) : K t (option CounterCall) :=
  gets (λ self, if client self then Some c else None).

Definition initialize : K t ReturnCode :=
  k ← gets task;
  if bool_decide (is_Some k) then mret EBUSY
  else
    code ← on_flash (flash_erase (page_number Low));
    match code with
    | SUCCESS | EBUSY => set_task (Some TaskInitialize) ;; mret SUCCESS
    | other_code => mret other_code
    end.

(** The closure [success] of [read_and_increment]. *)
Definition success (high_count low_count : Z) : K t ReturnCode :=
  set_task (Some TaskIncrement) ;;
  mret (SuccessWithValue (counter_value high_count low_count)).

Definition read_and_increment : K t ReturnCode :=
  k ← gets task;
  if bool_decide (is_Some k) then mret EBUSY
  else
    high_count ← gets (λ self, read_page_count High (flash self));
    low_count ← gets (λ self, read_page_count Low (flash self));
    if Z.land high_count 1 =? 1 then
      if low_count =? 0 then
        buffer ← take_buffer;
        match buffer with
        | Some buffer =>
          '(code, buffer) ← on_flash (start_increment High high_count buffer);
          set_buffer buffer ;;
          match code with
          | SUCCESS | EBUSY => success high_count low_count
          | code => mret code
          end
        | None => success high_count low_count
        end
      else
        code ← on_flash (flash_erase (page_number Low));
        match code with
        | SUCCESS | EBUSY => success high_count low_count
        | error_code => mret error_code
        end
    else
      buffer ← take_buffer;
      buffer ← unwrap buffer;
      '(code, buffer) ← on_flash (start_increment Low low_count buffer);
      set_buffer buffer ;;
      match code with
      | SUCCESS | EBUSY => success high_count low_count
      | ESIZE =>
        buffer ← take_buffer;
        buffer ← unwrap buffer;
        '(return_code, buffer) ← on_flash (start_increment High high_count buffer);
        set_buffer buffer ;;
        match return_code with
        | SUCCESS | EBUSY => success high_count low_count
        | error_code => mret error_code
        end
      | error_code => mret error_code
      end.

Definition erase_done (code : ReturnCode) : K t (option CounterCall) :=
  if bool_decide (code ≠ SUCCESS) then
    k ← take_task;
    match k with
    | Some TaskInitialize => call (InitializeDone FAIL)
    | Some TaskIncrement => call (IncrementDone FAIL)
    | None => mret None
    end
  else
    k ← gets task;
    if bool_decide (k = Some TaskInitialize) then
      empty ← gets (λ self, page_empty High (flash self));
      if (empty : bool) then set_task None ;; call (InitializeDone SUCCESS)
      else
        code ← on_flash (flash_erase (page_number High));
        match code with
        | SUCCESS => mret None
        | error => set_task None ;; call (InitializeDone error)
        end
    else
      high_count ← gets (λ self, read_page_count High (flash self));
      buffer ← take_buffer;
      buffer ← unwrap buffer;
      '(_, buffer) ← on_flash (start_increment High high_count buffer);
      match buffer with
      | Some returned_buffer =>
        set_buffer (Some returned_buffer) ;;
        k ← take_task;
        if bool_decide (k = Some TaskIncrement) then call (IncrementDone FAIL) else mret None
      | None => mret None
      end.

Definition write_done (data : list Z) (code : ReturnCode) : K t (option CounterCall) :=
  if negb (length data =? 1)%nat then panic
  else
    set_buffer (Some data) ;;
    k ← gets task;
    if bool_decide (code ≠ SUCCESS) && bool_decide (k = Some TaskIncrement) then
      set_task None ;; call (IncrementDone code)
    else
      match k with
      | None => mret None
      | Some TaskInitialize =>
        code ← on_flash (flash_erase (page_number Low * NV_WORDS_PER_PAGE));
        match code with
        | SUCCESS => mret None
        | error => set_task None ;; call (InitializeDone error)
        end
      | Some TaskIncrement =>
        empty ← gets (λ self, page_empty Low (flash self));
        if (empty : bool) then
          low_count ← gets (λ self, read_page_count Low (flash self));
          buffer ← take_buffer;
          buffer ← unwrap buffer;
          '(increment_code, buffer) ← on_flash (start_increment Low low_count buffer);
          set_buffer buffer ;;
          if bool_decide (increment_code ≠ SUCCESS) then set_task None ;; call (IncrementDone increment_code)
          else mret None
        else
          set_task None ;;
          full ← gets (λ self, low_page_full (flash self));
          high_count ← gets (λ self, read_page_count High (flash self));
          (if full && negb (Z.land high_count 1 =? 0)
           then _ ← on_flash (flash_erase (page_number Low)); mret tt else mret tt) ;;
          call (IncrementDone SUCCESS)
      end.

End FlashCounter.
Arguments t : clear implicits.
End FlashCounter.
