(* ===== verification/NvDevice.v ===== *)
(** * The flash as a device, and the counter's encoding on it

    The contract of the flash interface that the counter is built on: one
    operation at a time, a write only clears bits, an erase sets a page to ones,
    and an interrupted operation leaves any state in between.  The page encoding
    of [nvcounter/internal.rs] is analysed on it. *)

From S2P Require Import Prelude Tock FlashHil NvCounter.
From Stdlib Require Import ZArith Lia.
From stdpp Require Import base decidable option list list_numbers.

#[local] Open Scope Z_scope.

(** ** The device *)

Inductive DevOp := PErase (page : Z) | PWrite (addr : Z) (data : list Z).

Record Dev := mk_Dev { mem : Z → Z; pending : option DevOp }.

Definition dev_erase (page : Z) : K Dev ReturnCode := λ d,
  if bool_decide (is_Some (pending d)) then (Ok EBUSY, d)
  else if page <? 256 then (Ok SUCCESS, mk_Dev (mem d) (Some (PErase page)))
  else (Ok EINVAL, d).

Definition dev_write (addr : Z) (data : list Z) : K Dev (ReturnCode * option (list Z)) := λ d,
  if (32 <? length data)%nat then (Ok (ESIZE, Some data), d)
  else if bool_decide (is_Some (pending d)) then (Ok (EBUSY, Some data), d)
  else if addr <? 0x20000 then (Ok (SUCCESS, None), mk_Dev (mem d) (Some (PWrite addr data)))
  else (Ok (EINVAL, Some data), d).

#[global] Instance Dev_Flash : Flash Dev := {
  flash_erase := dev_erase;
  flash_read a d := SuccessWithValue (mem d a);
  flash_write := dev_write;
}.

(** [sub x y]: the bits of [x] are among those of [y]. *)
Definition sub (x y : Z) : Prop := Z.land x y = x.

#[global] Instance sub_dec x y : Decision (sub x y).
Proof. unfold sub. apply _. Defined.

Definition in_page (page x : Z) : Prop := page * 512 <= x < page * 512 + 512.

#[global] Instance in_page_dec page x : Decision (in_page page x).
Proof. unfold in_page. apply _. Defined.

Definition in_write (a : Z) (data : list Z) (x : Z) : Prop := a <= x < a + Z.of_nat (length data).

#[global] Instance in_write_dec a data x : Decision (in_write a data x).
Proof. unfold in_write. apply _. Defined.

(** What a completed operation makes of the memory. *)
Definition finish (op : DevOp) (m : Z → Z) (x : Z) : Z :=
  match op with
  | PErase page => if decide (in_page page x) then 0xFFFFFFFF else m x
  | PWrite a data =>
    if decide (in_write a data x) then Z.land (m x) (default 0xFFFFFFFF (data !! Z.to_nat (x - a))) else m x
  end.

Definition mem_ok (m : Z → Z) : Prop := ∀ x, fits 32 (m x).

(** What an operation under way may have made of it: an erase scrambles its page,
    a write has cleared some of the bits it is to clear. *)
Definition partway (op : DevOp) (m m' : Z → Z) : Prop :=
  mem_ok m' ∧
  match op with
  | PErase page => ∀ x, ¬ in_page page x → m' x = m x
  | PWrite a data => ∀ x, if decide (in_write a data x) then sub (finish op m x) (m' x) ∧ sub (m' x) (m x)
                          else m' x = m x
  end.

(** ** Bits *)

Lemma sub_refl x : sub x x.
Proof. apply Z.land_diag. Qed.

Lemma sub_trans x y z : sub x y → sub y z → sub x z.
Proof. unfold sub. intros Hx Hy. by rewrite <-Hx, <-Z.land_assoc, Hy. Qed.

Lemma sub_antisym x y : sub x y → sub y x → x = y.
Proof. unfold sub. intros Hx Hy. by rewrite <-Hx, Z.land_comm. Qed.

Lemma sub_land_l x y : sub (Z.land x y) x.
Proof. unfold sub. by rewrite Z.land_comm, Z.land_assoc, Z.land_diag. Qed.

Lemma sub_land_r x y : sub (Z.land x y) y.
Proof. unfold sub. by rewrite <-Z.land_assoc, Z.land_diag. Qed.

Lemma sub_land_glb x y z : sub z x → sub z y → sub z (Z.land x y).
Proof. unfold sub. intros Hx Hy. by rewrite Z.land_assoc, Hx. Qed.

Lemma sub_ones x : fits 32 x → sub x 0xFFFFFFFF.
Proof.
  intros Hx. unfold sub. change 0xFFFFFFFF with (Z.ones 32). rewrite Z.land_ones by lia.
  by apply Z.mod_small.
Qed.

(** A mask test [x & (q | n) == q] with [q] and [n] disjoint. *)
Lemma mask_test x q n : Z.land q n = 0 →
  Z.land x (Z.lor q n) = q ↔ sub q x ∧ Z.land x n = 0.
Proof.
  intros Hd. unfold sub. split.
  - intros Hx.
    assert (∀ i, Z.testbit x i && (Z.testbit q i || Z.testbit n i) = Z.testbit q i) as Hbx.
    { intros i. by rewrite <-Hx at 2; rewrite Z.land_spec, Z.lor_spec. }
    assert (∀ i, Z.testbit q i && Z.testbit n i = false) as Hbd.
    { intros i. by rewrite <-Z.land_spec, Hd, Z.bits_0. }
    split; apply Z.bits_inj'; intros i _; rewrite Z.land_spec, ?Z.bits_0; specialize (Hbx i); specialize (Hbd i);
      by destruct (Z.testbit x i), (Z.testbit q i), (Z.testbit n i).
  - intros [Hq Hn]. by rewrite Z.land_lor_distr_r, Hn, Z.lor_0_r, Z.land_comm.
Qed.

Lemma land_zero_mono x y n n' : sub y x → sub n' n → Z.land x n = 0 → Z.land y n' = 0.
Proof.
  unfold sub. intros <- <- Hx.
  transitivity (Z.land (Z.land x n) (Z.land y n')); [|by rewrite Hx, Z.land_0_l].
  apply Z.bits_inj'. intros i _. rewrite ?Z.land_spec. by destruct (Z.testbit x i), (Z.testbit y i), (Z.testbit n i), (Z.testbit n' i).
Qed.

(** ** One word of the encoding *)

(** Pattern [k] of the encoding: [k] strikes of a word. *)
Definition strike (k : nat) : Z := default 0xFFFFFFFF ((0xFFFFFFFF :: WRITE_PATTERNS) !! k).

(** The bits that must be clear for count [k]. *)
Definition must_clear (k : nat) : Z :=
  default 0 ([0; 0; 0xC3000000; 0xFF000000; 0xFFC30000; 0xFFFF0000; 0xFFFFC300; 0xFFFFFF00] !! k).

Definition has_count (k : nat) (w : Z) : Prop := sub (strike k) w ∧ Z.land w (must_clear k) = 0.

#[global] Instance has_count_dec k w : Decision (has_count k w).
Proof. unfold has_count. apply _. Defined.

Lemma count_test k w : (1 <= k <= 7)%nat →
  Z.land w (Z.lor (strike k) (must_clear k)) = strike k ↔ has_count k w.
Proof.
  intros Hk. apply mask_test. do 8 (destruct k as [|k]; [first [lia|reflexivity]|]). lia.
Qed.

(** The first count from [k] on that the word has, among [n]. *)
Fixpoint find_count (n k : nat) (w : Z) : nat :=
  match n with
  | O => k
  | S n' => if decide (has_count k w) then k else find_count n' (S k) w
  end.

Lemma count_eqb k w : (1 <= k <= 7)%nat →
  (Z.land w (Z.lor (strike k) (must_clear k)) =? strike k) = bool_decide (has_count k w).
Proof.
  intros Hk. pose proof (count_test k w Hk) as Ht. case_bool_decide; [apply Z.eqb_eq|apply Z.eqb_neq]; tauto.
Qed.

Lemma decode_word_find w : decode_word w = Z.of_nat (find_count 7 1 w).
Proof.
  unfold decode_word.
  rewrite (count_eqb 1 w ltac:(lia) : (Z.land w 0x3CFFFFFF =? 0x3CFFFFFF) = _).
  rewrite (count_eqb 2 w ltac:(lia) : (Z.land w 0xC3FFFFFF =? 0x00FFFFFF) = _).
  rewrite (count_eqb 3 w ltac:(lia) : (Z.land w 0xFF3CFFFF =? 0x003CFFFF) = _).
  rewrite (count_eqb 4 w ltac:(lia) : (Z.land w 0xFFC3FFFF =? 0x0000FFFF) = _).
  rewrite (count_eqb 5 w ltac:(lia) : (Z.land w 0xFFFF3CFF =? 0x00003CFF) = _).
  rewrite (count_eqb 6 w ltac:(lia) : (Z.land w 0xFFFFC3FF =? 0x000000FF) = _).
  rewrite (count_eqb 7 w ltac:(lia) : (Z.land w 0xFFFFFF3C =? 0x0000003C) = _).
  cbn [find_count]. unfold bool_decide, decide.
  repeat (match goal with |- context [has_count_dec ?k w] => destruct (has_count_dec k w) end; [reflexivity|]). done.
Qed.

Lemma find_count_spec n k w :
  (k <= find_count n k w <= k + n)%nat ∧ (∀ j, (k <= j < find_count n k w)%nat → ¬ has_count j w) ∧
  ((find_count n k w < k + n)%nat → has_count (find_count n k w) w).
Proof.
  revert k. induction n as [|n IH]; intros k; simpl; [split_and!; lia|].
  destruct (decide (has_count k w)) as [Hk|Hk].
  - split_and!; try lia. done.
  - destruct (IH (S k)) as (Hr & Hn & Hc). split_and!; [lia..| |intros; apply Hc; lia].
    intros j Hj. destruct (decide (j = k)) as [->|]; [done|]. apply Hn. lia.
Qed.

(** What a word tells: its count, which no smaller count contradicts. *)
Lemma decode_word_spec w :
  ∃ k, (1 <= k <= 8)%nat ∧ decode_word w = Z.of_nat k ∧
       (∀ j, (1 <= j < k)%nat → ¬ has_count j w) ∧ ((k <= 7)%nat → has_count k w).
Proof.
  exists (find_count 7 1 w). destruct (find_count_spec 7 1 w) as (Hr & Hn & Hc).
  split_and!; [lia|lia|apply decode_word_find|done|]. intros. apply Hc. lia.
Qed.

(** Finite facts about the patterns. *)

Lemma patterns_nested : Forall (λ k, sub (strike (S k)) (strike k)) (seq 0 8).
Proof. by_compute. Qed.

Lemma clear_nested : Forall (λ k, sub (must_clear k) (must_clear (S k))) (seq 0 7).
Proof. by_compute. Qed.

Lemma clear_next : Forall (λ k, Z.land (strike k) (must_clear (S k)) = 0) (seq 0 7).
Proof. by_compute. Qed.

Lemma decode_strike : Forall (λ k, decode_word (strike k) = Z.of_nat k) (seq 1 8).
Proof. by_compute. Qed.

Lemma seq_use (P : nat → Prop) a n : Forall P (seq a n) → ∀ k, (a <= k < a + n)%nat → P k.
Proof. rewrite Forall_seq. intros HP k Hk. by apply HP. Qed.

Lemma must_clear_mono j k : (j <= k <= 7)%nat → sub (must_clear j) (must_clear k).
Proof.
  induction k as [|k IH]; intros Hk.
  - replace j with 0%nat by lia. apply sub_refl.
  - destruct (decide (j = S k)) as [->|]; [apply sub_refl|].
    eapply sub_trans; [apply IH; lia|]. apply (seq_use _ _ _ clear_nested). lia.
Qed.

Lemma has_count_mono j k w w' : (j <= k <= 7)%nat → sub w w' → Z.land w' (must_clear k) = 0 →
  sub (strike j) w → has_count j w.
Proof.
  intros Hjk Hw Hc Hs. split; [done|]. eapply land_zero_mono; [exact Hw| |exact Hc].
  by apply must_clear_mono.
Qed.

(** A strike under way: a word of count [k] whose next strike has cleared some of
    its bits counts [k], [k + 1], or, when bits were left over from before, 8. *)
Lemma decode_partial w w' k :
  (1 <= k <= 7)%nat → decode_word w = Z.of_nat k → sub (strike (S k)) w' → sub w' w →
  decode_word w' = Z.of_nat k ∨ decode_word w' = Z.of_nat k + 1 ∨ decode_word w' = 8.
Proof.
  intros Hk Hw Hs Hsub. destruct (decode_word_spec w) as (k0 & _ & E & Hn & Hc). assert (k0 = k) as -> by lia.
  destruct (decode_word_spec w') as (j & Hj & Ej & Hnj & Hcj). destruct (Hc ltac:(lia)) as [Hsk Hck].
  assert (¬ (j < k)%nat) as Hlo.
  { intros Hlt. destruct (Hcj ltac:(lia)) as [Hsj _]. apply (Hn j); [lia|].
    apply (has_count_mono j k w w); [lia|apply sub_refl|done|]. by eapply sub_trans. }
  assert (¬ (S k < j <= 7)%nat) as Hhi.
  { intros Hlt. destruct (Hcj ltac:(lia)) as [_ Hc']. apply (Hnj (S k)); [lia|].
    apply (has_count_mono (S k) j w' w'); [lia|apply sub_refl|done..]. }
  lia.
Qed.

(** From a word struck exactly [k] times it counts [k] or [k + 1]. *)
Lemma decode_partial_exact w' k :
  (1 <= k <= 7)%nat → sub (strike (S k)) w' → sub w' (strike k) →
  decode_word w' = Z.of_nat k ∨ decode_word w' = Z.of_nat k + 1.
Proof.
  intros Hk Hs Hsub.
  destruct (decode_partial (strike k) w' k) as [?|[?|H8]]; try done; [|by left|by right|].
  { apply (seq_use _ _ _ decode_strike). lia. }
  right. destruct (decide (k = 7%nat)) as [->|]; [done|].
  destruct (decode_word_spec w') as (j & Hj & Ej & Hnj & _). exfalso. apply (Hnj (S k)); [lia|].
  apply (has_count_mono (S k) (S k) w' (strike k)); [lia|done| |done].
  apply (seq_use _ _ _ clear_next). lia.
Qed.

(** The first strike of an erased word. *)
Lemma decode_first w' : sub (strike 1) w' → decode_word w' = 1.
Proof.
  intros Hs. destruct (decode_word_spec w') as (j & Hj & Ej & Hnj & _).
  destruct (decide (j = 1%nat)) as [->|]; [done|]. exfalso. apply (Hnj 1%nat); [lia|].
  split; [done|]. apply Z.land_0_r.
Qed.

Lemma decode_bounds w : 1 <= decode_word w <= 8.
Proof. destruct (decode_word_spec w) as (k & ? & -> & _). lia. Qed.

(** The pattern of the next strike is below what the word holds. *)
Lemma strike_below w k : (1 <= k <= 7)%nat → decode_word w = Z.of_nat k → sub (strike (S k)) w.
Proof.
  intros Hk Hw. destruct (decode_word_spec w) as (k0 & _ & E & _ & Hc). assert (k0 = k) as -> by lia.
  destruct (Hc ltac:(lia)) as [Hsk _]. eapply sub_trans; [apply (seq_use _ _ _ patterns_nested); lia|done].
Qed.

(** ** A page of the encoding *)

Definition word_at (m : Z → Z) (p : Page) (i : nat) : Z := m (page_offset p + Z.of_nat i).

Definition count (p : Page) (m : Z → Z) : Z := read_page_count p (mk_Dev m None).

Lemma read_page_count_dev p d : read_page_count p d = count p (mem d).
Proof.
  unfold count, read_page_count.
  assert (∀ n, current_word (page_offset p) d n = current_word (page_offset p) (mk_Dev (mem d) None) n) as ->; [|done].
  induction n as [|n IH]; simpl; [done|]. by rewrite IH.
Qed.

(** The words from [n] on are erased. *)
Definition erased_from (m : Z → Z) (p : Page) (n : nat) : Prop :=
  ∀ i, (n <= i < 512)%nat → word_at m p i = 0xFFFFFFFF.

(** The shape of a page and the count it stands for. *)
Inductive page_view (m : Z → Z) (p : Page) : Z → Prop :=
| view_empty : erased_from m p 0 → page_view m p 0
| view_word i : (i < 512)%nat → word_at m p i ≠ 0xFFFFFFFF → erased_from m p (S i) →
    page_view m p (8 * Z.of_nat i + decode_word (word_at m p i)).

Lemma current_word_view m p n : (n <= 512)%nat → erased_from m p n →
  page_view m p (8 * (current_word (page_offset p) (mk_Dev m None) n).1 +
                 (current_word (page_offset p) (mk_Dev m None) n).2).
Proof.
  induction n as [|n IH]; intros Hn He; simpl; [by apply view_empty|].
  destruct (m (page_offset p + Z.of_nat n) =? 0xFFFFFFFF) eqn:E; zb; simpl.
  - apply IH; [lia|]. intros i Hi. destruct (decide (i = n)) as [->|]; [done|]. apply He. lia.
  - apply view_word; [lia|done..].
Qed.

Lemma view_bounds m p c : page_view m p c → 0 <= c <= 4096.
Proof. destruct 1 as [|i Hi]; [lia|]. pose proof (decode_bounds (word_at m p i)). lia. Qed.

Lemma count_view m p : page_view m p (count p m).
Proof.
  pose proof (current_word_view m p 512 ltac:(lia) ltac:(intros ??; lia)) as Hv.
  unfold count, read_page_count. change (Z.to_nat NV_WORDS_PER_PAGE) with 512%nat.
  destruct (current_word _ _ 512) as [i k]. simpl in Hv. pose proof (view_bounds _ _ _ Hv) as Hb.
  enough (u32 (u32 (COUNTS_PER_WORD * i) + k) = 8 * i + k) as -> by done.
  unfold u32, wrap, COUNTS_PER_WORD. rewrite Zplus_mod_idemp_l. apply Z.mod_small. lia.
Qed.

Lemma view_unique m p c c' : page_view m p c → page_view m p c' → c = c'.
Proof.
  intros H1 H2. destruct H1 as [He|i Hi Hw He], H2 as [He'|i' Hi' Hw' He']; [done|..].
  - by rewrite He in Hw' by lia.
  - by rewrite He' in Hw by lia.
  - destruct (decide (i = i')) as [->|]; [done|]. destruct (decide (i < i')%nat).
    + by rewrite He in Hw' by lia.
    + by rewrite He' in Hw by lia.
Qed.

Lemma view_count m p c : page_view m p c → count p m = c.
Proof. intros Hv. eapply view_unique; [apply count_view|done]. Qed.

Lemma view_ext m m' p c : (∀ i, (i < 512)%nat → word_at m' p i = word_at m p i) → page_view m p c → page_view m' p c.
Proof.
  intros Hm [He|i Hi Hw He].
  - apply view_empty. intros j Hj. rewrite Hm by lia. apply He. lia.
  - rewrite <-(Hm i Hi). apply view_word; [done|by rewrite Hm|]. intros j Hj. rewrite Hm by lia. apply He. lia.
Qed.

Lemma count_ext m m' p : (∀ i, (i < 512)%nat → word_at m' p i = word_at m p i) → count p m' = count p m.
Proof. intros Hm. apply view_count. eapply view_ext; [done|]. apply count_view. Qed.

Lemma count_bounds m p : 0 <= count p m <= 4096.
Proof. eapply view_bounds, count_view. Qed.

Lemma count_empty m p : count p m = 0 ↔ erased_from m p 0.
Proof.
  split.
  - intros Hc. pose proof (count_view m p) as Hv. rewrite Hc in Hv. inversion Hv as [|i Hi Hw He Heq]; [done|].
    pose proof (decode_bounds (word_at m p i)). lia.
  - intros He. apply view_count. by apply view_empty.
Qed.

(** ** Striking a page *)

(** The write that adds one to a page's count. *)
Definition strike_op (p : Page) (c : Z) : DevOp :=
  PWrite (page_offset p + c / 8) [strike (S (Z.to_nat (c mod 8)))].

Lemma in_write_single a v x : in_write a [v] x ↔ x = a.
Proof. unfold in_write. simpl. lia. Qed.

Lemma page_offset_disjoint p q i j : p ≠ q → (i < 512)%nat → (j < 512)%nat →
  page_offset p + Z.of_nat i ≠ page_offset q + Z.of_nat j.
Proof. unfold page_offset, NV_WORDS_PER_PAGE. destruct p, q; simpl; try done; lia. Qed.

Lemma word_index c : 0 <= c < 4096 → ∃ q r : nat,
  c = 8 * Z.of_nat q + Z.of_nat r ∧ (q < 512)%nat ∧ (r < 8)%nat ∧ c / 8 = Z.of_nat q ∧ Z.to_nat (c mod 8) = r.
Proof.
  intros Hc. exists (Z.to_nat (c / 8)), (Z.to_nat (c mod 8)).
  pose proof (Z.div_mod c 8 ltac:(lia)). pose proof (Z.mod_pos_bound c 8 ltac:(lia)).
  assert (0 <= c / 8 < 512) by (split; [apply Z.div_pos; lia|apply Z.div_lt_upper_bound; lia]).
  split_and!; lia.
Qed.

(** The word the next strike goes to. *)
Lemma strike_word m p (q r : nat) :
  count p m = 8 * Z.of_nat q + Z.of_nat r → (q < 512)%nat → (r < 8)%nat →
  (r = 0%nat ∧ erased_from m p q) ∨
  ((1 <= r <= 7)%nat ∧ word_at m p q ≠ 0xFFFFFFFF ∧ decode_word (word_at m p q) = Z.of_nat r ∧ erased_from m p (S q)).
Proof.
  intros Hc Hq Hr. pose proof (count_view m p) as Hv. rewrite Hc in Hv.
  inversion Hv as [He Heq|i Hi Hw He Heq].
  - left. assert (q = 0%nat ∧ r = 0%nat) as [-> ->] by lia. done.
  - pose proof (decode_bounds (word_at m p i)). destruct (decide (r = 0%nat)) as [->|].
    + left. split; [done|]. assert (q = S i) as -> by lia. done.
    + right. assert (i = q) as -> by lia. split_and!; [lia..|done|lia|done].
Qed.

(** Replacing the word of the next strike. *)
Lemma count_replace m m' p (q r : nat) :
  count p m = 8 * Z.of_nat q + Z.of_nat r → (q < 512)%nat → (r < 8)%nat →
  (∀ i, i ≠ q → (i < 512)%nat → word_at m' p i = word_at m p i) →
  count p m' = if decide (word_at m' p q = 0xFFFFFFFF) then (if decide (r = 0%nat) then count p m else count p m')
               else 8 * Z.of_nat q + decode_word (word_at m' p q).
Proof.
  intros Hc Hq Hr Hm. destruct (decide (word_at m' p q = _)) as [Hf|Hf].
  - destruct (decide (r = 0%nat)) as [->|]; [|done]. apply count_ext. intros i Hi.
    destruct (decide (i = q)) as [->|]; [|by apply Hm].
    destruct (strike_word m p q 0 Hc Hq Hr) as [[_ He]|[? _]]; [|lia]. rewrite Hf. symmetry. apply He. lia.
  - apply view_count. apply view_word; [done..|]. intros i Hi. rewrite Hm by lia.
    destruct (strike_word m p q r Hc Hq Hr) as [[_ He]|(_ & _ & _ & He)]; apply He; lia.
Qed.

Section Strike.
Context (p : Page) (m : Z → Z) (Hm : mem_ok m) (Hlt : count p m < 4096).

Lemma strike_partway m' : partway (strike_op p (count p m)) m m' →
  (count p m' = count p m ∨ count p m' = count p m + 1 ∨ count p m' = 8 * (count p m / 8) + 8) ∧
  (word_at m p (Z.to_nat (count p m / 8)) = strike (Z.to_nat (count p m mod 8)) →
   count p m' = count p m ∨ count p m' = count p m + 1).
Proof.
  intros [Hok' Hp]. pose proof (count_bounds m p). destruct (word_index (count p m)) as (q & r & Hc & Hq & Hr & Hdiv & Hmod); [lia|].
  unfold strike_op in Hp. rewrite Hdiv, Hmod in *. rewrite Nat2Z.id.
  pose proof (Hp (page_offset p + Z.of_nat q)) as Hw. rewrite decide_True in Hw by (by apply in_write_single).
  simpl in Hw. rewrite decide_True in Hw by (by apply in_write_single). rewrite Z.sub_diag in Hw. simpl in Hw.
  fold (word_at m p q) in Hw. fold (word_at m' p q) in Hw. destruct Hw as [Hlo Hhi].
  assert (∀ i, i ≠ q → (i < 512)%nat → word_at m' p i = word_at m p i) as Hrest.
  { intros i Hi _. unfold word_at. pose proof (Hp (page_offset p + Z.of_nat i)) as Hx.
    rewrite decide_False in Hx; [done|]. rewrite in_write_single. lia. }
  pose proof (count_replace m m' p q r Hc Hq Hr Hrest) as Hcount.
  destruct (strike_word m p q r Hc Hq Hr) as [[-> He]|(Hr1 & Hne & Hdec & He)].
  - rewrite (He q) in Hlo, Hhi by lia. change (Z.land _ (strike 1)) with (strike 1) in Hlo.
    destruct (decide (word_at m' p q = _)) as [Hf|Hf].
    + rewrite decide_True in Hcount by done. split; [by left|by left].
    + rewrite decode_first in Hcount by done. split; [right; left; lia|right; lia].
  - assert (word_at m' p q ≠ 0xFFFFFFFF) as Hne'.
    { intros E. rewrite E in Hhi. apply Hne. apply sub_antisym; [|done]. apply sub_ones, Hm. }
    rewrite decide_False in Hcount by done.
    assert (sub (strike (S r)) (word_at m' p q)) as Hlo'.
    { pose proof (strike_below _ _ Hr1 Hdec) as Hb. unfold sub in Hb. by rewrite Z.land_comm, Hb in Hlo. }
    split.
    + destruct (decode_partial (word_at m p q) (word_at m' p q) r) as [E|[E|E]]; try done; lia.
    + intros Hex. rewrite Hex in Hhi. destruct (decode_partial_exact (word_at m' p q) r); try done; lia.
Qed.

Lemma strike_finish : count p (finish (strike_op p (count p m)) m) = count p m + 1.
Proof.
  pose proof (count_bounds m p). destruct (word_index (count p m)) as (q & r & Hc & Hq & Hr & Hdiv & Hmod); [lia|].
  unfold strike_op. rewrite Hdiv, Hmod. set (m' := finish _ m).
  assert (word_at m' p q = strike (S r)) as Hwq.
  { unfold m', word_at, finish. rewrite decide_True by (by apply in_write_single). rewrite Z.sub_diag.
    simpl (default _ _). fold (word_at m p q).
    destruct (strike_word m p q r Hc Hq Hr) as [[-> He]|(Hr1 & _ & Hdec & _)].
    - by rewrite (He q) by lia.
    - rewrite Z.land_comm. by apply strike_below. }
  assert (∀ i, i ≠ q → (i < 512)%nat → word_at m' p i = word_at m p i) as Hrest.
  { intros i Hi _. unfold m', word_at, finish. rewrite decide_False; [done|]. rewrite in_write_single. lia. }
  rewrite (count_replace m m' p q r Hc Hq Hr Hrest), Hwq.
  rewrite decide_False; [|do 8 (destruct r as [|r]; [done|]); lia].
  pose proof (seq_use _ _ _ decode_strike (S r) ltac:(lia)) as Hd. simpl in Hd. rewrite Hd. lia.
Qed.

Lemma strike_other_page q c m' : q ≠ p → 0 <= c < 4096 → partway (strike_op p c) m m' → count q m' = count q m.
Proof.
  intros Hqp Hc [_ Hp]. apply count_ext. intros i Hi. destruct (word_index c Hc) as (k & r & _ & Hk & _ & Hdiv & _).
  unfold strike_op in Hp. rewrite Hdiv in Hp. pose proof (Hp (page_offset q + Z.of_nat i)) as Hx.
  rewrite decide_False in Hx; [done|]. rewrite in_write_single. by apply page_offset_disjoint.
Qed.

End Strike.

(** ** Completion *)

Lemma fits_land x y : fits 32 x → 0 <= y → fits 32 (Z.land x y).
Proof.
  intros Hx Hy. apply bits_fits; [lia|apply Z.land_nonneg; left; apply Hx|].
  intros i Hi. rewrite Z.land_spec, (fits_bits 32) by done. done.
Qed.

Definition op_ok (op : DevOp) : Prop :=
  match op with PErase _ => True | PWrite _ data => Forall (fits 32) data end.

Lemma finish_ok op m : op_ok op → mem_ok m → mem_ok (finish op m).
Proof.
  intros Hop Hm x. destruct op as [page|a data]; simpl in *; destruct (decide _); try apply Hm.
  - unfold fits. lia.
  - apply fits_land; [apply Hm|]. destruct (data !! _) as [v|] eqn:E; simpl; [|lia].
    rewrite Forall_lookup in Hop. by apply Hop in E as [? _].
Qed.

Lemma finish_partway op m : op_ok op → mem_ok m → partway op m (finish op m).
Proof.
  intros Hop Hm. split; [by apply finish_ok|]. destruct op as [page|a data].
  - intros x Hx. simpl. by rewrite decide_False.
  - intros x. destruct (decide (in_write a data x)) eqn:E; [|simpl; by rewrite E].
    split; [apply sub_refl|]. simpl. rewrite E. apply sub_land_l.
Qed.

(** Completing an operation erases the traces of where it stood. *)
Lemma finish_after_partway op m m' x : partway op m m' → finish op m' x = finish op m x.
Proof.
  intros [_ Hp]. destruct op as [page|a data]; simpl in *.
  - destruct (decide (in_page page x)); [done|by apply Hp].
  - specialize (Hp x). destruct (decide (in_write a data x)); [|done]. destruct Hp as [Hlo Hhi].
    apply sub_antisym.
    + apply sub_land_glb; [|apply sub_land_r]. eapply sub_trans; [apply sub_land_l|done].
    + apply sub_land_glb; [done|apply sub_land_r].
Qed.

Lemma partway_trans op m m' m'' : partway op m m' → partway op m' m'' → partway op m m''.
Proof.
  intros Hp1 [Hok Hp2]. split; [done|]. destruct op as [page|a data].
  - intros x Hx. rewrite Hp2 by done. by apply Hp1.
  - intros x. specialize (Hp2 x). rewrite (finish_after_partway _ _ _ _ Hp1) in Hp2.
    destruct Hp1 as [_ Hp1]. specialize (Hp1 x). destruct (decide _); [|by rewrite Hp2].
    destruct Hp1, Hp2. split; [done|]. by eapply sub_trans.
Qed.

Lemma partway_refl op m : op_ok op → mem_ok m → partway op m m.
Proof.
  intros Hop Hm. split; [done|]. destruct op as [page|a data]; [done|].
  intros x. destruct (decide (in_write a data x)) eqn:E; [|done]. split; [|apply sub_refl].
  simpl. rewrite E. apply sub_land_l.
Qed.

Lemma strike_op_ok p c : op_ok (strike_op p c).
Proof.
  constructor; [|constructor]. generalize (S (Z.to_nat (c mod 8))). intros k.
  do 9 (destruct k as [|k]; [by_compute|]). by_compute.
Qed.

Lemma count_finish_ext p op m m' : partway op m m' → count p (finish op m') = count p (finish op m).
Proof. intros Hp. apply count_ext. intros i _. unfold word_at. by apply finish_after_partway. Qed.

(** Erasing the low page. *)
Lemma page_offset_low i : (i < 512)%nat → in_page (page_number Low) (page_offset Low + Z.of_nat i).
Proof. unfold in_page, page_offset, NV_WORDS_PER_PAGE. simpl. lia. Qed.

Lemma page_offset_high i : (i < 512)%nat → ¬ in_page (page_number Low) (page_offset High + Z.of_nat i).
Proof. unfold in_page, page_offset, NV_WORDS_PER_PAGE. simpl. lia. Qed.

Lemma erase_low_finish m : count Low (finish (PErase (page_number Low)) m) = 0.
Proof.
  apply count_empty. intros i Hi. unfold word_at, finish. rewrite decide_True; [done|]. apply page_offset_low. lia.
Qed.

Lemma erase_low_high m m' : partway (PErase (page_number Low)) m m' → count High m' = count High m.
Proof. intros [_ Hp]. apply count_ext. intros i Hi. apply Hp. by apply page_offset_high. Qed.

(** What the code reads, in terms of counts. *)
Lemma page_empty_count p d : page_empty p d = bool_decide (count p (mem d) = 0).
Proof.
  apply eq_true_iff_eq. rewrite bool_decide_eq_true, count_empty. unfold page_empty.
  rewrite forallb_forall. change (Z.to_nat NV_WORDS_PER_PAGE) with 512%nat. split.
  - intros Hf i Hi. specialize (Hf i). rewrite bool_decide_eq_true in Hf.
    simpl in Hf. assert (In i (seq 0 512)) as Hin by (apply in_seq; lia). apply Hf in Hin. by injection Hin.
  - intros He i Hi. apply in_seq in Hi. apply bool_decide_eq_true. simpl. f_equal. apply He. lia.
Qed.
