(* ===== verification/NvAtomic.v ===== *)
(** * The counter never goes back

    The counter of [nvcounter/capsule.rs] on the flash device, under interrupts,
    failed operations and power losses at any point, refines an abstract counter
    that moves forward only. *)

From S2P Require Import Prelude Tock FlashHil NvCounter NvDevice.
From Stdlib Require Import ZArith Lia.
From stdpp Require Import base decidable option list list_numbers.

#[local] Open Scope Z_scope.

(** ** The abstract counter *)

Definition MAX_COUNT : Z := 4097 * 2048 + 4096.

(** At rest with a value, or with an increment of that value outstanding. *)
Inductive acounter := AIdle (v : Z) | ABusy (v : Z).

Inductive event :=
| Returned (rc : ReturnCode)
| Completed (c : option CounterCall)
| Failed (c : option CounterCall)
| PowerLost
| Progress.

Definition avalue (a : acounter) : Z := match a with AIdle v | ABusy v => v end.

Inductive astep : acounter → event → acounter → Prop :=
| as_read v : v < MAX_COUNT → astep (AIdle v) (Returned (SuccessWithValue v)) (ABusy v)
| as_full : astep (AIdle MAX_COUNT) (Returned ESIZE) (AIdle MAX_COUNT)
| as_busy v : astep (ABusy v) (Returned EBUSY) (ABusy v)
| as_progress a : astep a Progress a
| as_background a : astep a (Completed None) a
| as_done v : astep (ABusy v) (Completed (Some (IncrementDone SUCCESS))) (AIdle (v + 1))
| as_failed v v' rc : rc ≠ SUCCESS → v <= v' → astep (ABusy v) (Failed (Some (IncrementDone rc))) (AIdle v')
| as_failed_background v v' : v <= v' → astep (AIdle v) (Failed None) (AIdle v')
| as_lost a v' : avalue a <= v' → astep a PowerLost (AIdle v').

(** ** The system: capsule and device *)

Abbreviation Sys := (FlashCounter.t Dev).

Definition sys (m : Z → Z) (op : option DevOp) (buffer : option (list Z)) (k : option Task) : Sys :=
  FlashCounter.mk true (mk_Dev m op) buffer k.

(** Power returns: the memory is what it was, the capsule starts afresh. *)
Definition reboot (s : Sys) : Sys :=
  FlashCounter.set_client (FlashCounter.new [0] (mk_Dev (mem (FlashCounter.flash s)) None)).

(** The device reports the end of its operation. *)
Definition deliver (op : DevOp) (rc : ReturnCode) : K Sys (option CounterCall) :=
  match op with
  | PErase _ => FlashCounter.erase_done rc
  | PWrite _ data => FlashCounter.write_done data rc
  end.

Definition at_rest (m : Z → Z) (s : Sys) : Sys := FlashCounter.set_flash (mk_Dev m None) s.

(** A panic of the kernel restarts it. *)
Inductive sstep (s : Sys) : event → Sys → Prop :=
| ss_call rc s' : FlashCounter.read_and_increment s = (Ok rc, s') → sstep s (Returned rc) s'
| ss_call_panic s' : FlashCounter.read_and_increment s = (Panic, s') → sstep s PowerLost (reboot s')
| ss_progress op m' : pending (FlashCounter.flash s) = Some op → partway op (mem (FlashCounter.flash s)) m' →
    sstep s Progress (FlashCounter.set_flash (mk_Dev m' (Some op)) s)
| ss_complete op c s' : pending (FlashCounter.flash s) = Some op →
    deliver op SUCCESS (at_rest (finish op (mem (FlashCounter.flash s))) s) = (Ok c, s') → sstep s (Completed c) s'
| ss_complete_panic op s' : pending (FlashCounter.flash s) = Some op →
    deliver op SUCCESS (at_rest (finish op (mem (FlashCounter.flash s))) s) = (Panic, s') → sstep s PowerLost (reboot s')
| ss_fail op rc c s' : pending (FlashCounter.flash s) = Some op → rc ≠ SUCCESS →
    deliver op rc (at_rest (mem (FlashCounter.flash s)) s) = (Ok c, s') → sstep s (Failed c) s'
| ss_fail_panic op rc s' : pending (FlashCounter.flash s) = Some op → rc ≠ SUCCESS →
    deliver op rc (at_rest (mem (FlashCounter.flash s)) s) = (Panic, s') → sstep s PowerLost (reboot s')
| ss_lost : sstep s PowerLost (reboot s).

(** ** Values *)

Definition value (h l : Z) : Z := if Z.odd h then 4097 * ((h + 1) / 2) else 4097 * (h / 2) + l.

Definition val (m : Z → Z) : Z := value (count High m) (count Low m).

Lemma land_1_odd h : Z.land h 1 = Z.b2z (Z.odd h).
Proof. change 1 with (Z.ones 1). rewrite Z.land_ones, Zmod_odd by lia. by destruct (Z.odd h). Qed.

Lemma half_bounds h : 0 <= h <= 4096 → 0 <= h / 2 <= 2048 ∧ h = 2 * (h / 2) + Z.b2z (Z.odd h).
Proof.
  intros Hh. pose proof (Z.div_mod h 2 ltac:(lia)) as Hd. rewrite Zmod_odd in Hd.
  destruct (Z.odd h); simpl; lia.
Qed.

Lemma odd_half h : 0 <= h <= 4096 → Z.odd h = true → (h + 1) / 2 = h / 2 + 1.
Proof.
  intros Hh Ho. pose proof (half_bounds h Hh) as [Hb He]. rewrite Ho in He. simpl Z.b2z in He.
  symmetry. apply Z.div_unique with (r := 0); lia.
Qed.

Lemma counter_value_eq h l : 0 <= h <= 4096 → 0 <= l <= 4096 → counter_value h l = value h l.
Proof.
  intros Hh Hl. unfold counter_value, value. rewrite land_1_odd. change (COUNTS_PER_PAGE + 1) with 4097.
  pose proof (half_bounds h Hh) as [Hb He]. destruct (Z.odd h) eqn:Eo; simpl Z.b2z in *; cbn [negb Z.eqb].
  - rewrite (u32_small (h + 1)) by (unfold fits; lia). rewrite Z.shiftr_div_pow2 by lia.
    change (2 ^ 1) with 2. rewrite odd_half by done.
    rewrite Z.add_0_r, (u32_small (u32 _)), u32_small by (apply u32_fits || unfold fits; lia). done.
  - rewrite Z.shiftr_div_pow2 by lia. change (2 ^ 1) with 2.
    rewrite (u32_small (4097 * _)) by (unfold fits; lia). rewrite u32_small; [done|]. unfold fits; lia.
Qed.

Lemma value_bounds h l : 0 <= h <= 4096 → 0 <= l <= 4096 → 0 <= value h l <= MAX_COUNT.
Proof.
  intros Hh Hl. unfold value, MAX_COUNT. pose proof (half_bounds h Hh) as [Hb He].
  destruct (Z.odd h) eqn:Eo; simpl Z.b2z in *; [|lia].
  assert ((h + 1) / 2 <= 2048) by (apply Z.div_le_upper_bound; lia).
  assert (0 <= (h + 1) / 2) by (apply Z.div_pos; lia). lia.
Qed.

Lemma value_mono h h' l : 0 <= h → h <= h' <= 4096 → 0 <= l <= 4096 → value h l <= value h' l.
Proof.
  intros H0 Hh Hl. unfold value. pose proof (half_bounds h ltac:(lia)) as [Hb He].
  pose proof (half_bounds h' ltac:(lia)) as [Hb' He'].
  destruct (Z.odd h) eqn:Eo, (Z.odd h') eqn:Eo'; simpl Z.b2z in *; rewrite ?odd_half by (done || lia); lia.
Qed.

Lemma value_odd h l l' : Z.odd h = true → value h l = value h l'.
Proof. intros Ho. unfold value. by rewrite Ho. Qed.

Lemma value_low h l l' : l <= l' → value h l <= value h l'.
Proof. intros Hl. unfold value. destruct (Z.odd h); lia. Qed.

(** Rolling over is one increment, and finishing the rollover is none. *)
Lemma value_rollover h : 0 <= h < 4096 → Z.odd h = false → value (h + 1) 4096 = value h 4096 + 1.
Proof.
  intros Hh Ho. pose proof (half_bounds h ltac:(lia)) as [Hb He]. rewrite Ho in He. simpl Z.b2z in He. unfold value.
  rewrite Ho. assert (Z.odd (h + 1) = true) as -> by (by rewrite Z.odd_add, Ho).
  assert ((h + 1 + 1) / 2 = h / 2 + 1) as ->; [symmetry; apply Z.div_unique with (r := 0); lia|]. lia.
Qed.

Lemma value_settled h : Z.odd h = true → value (h + 1) 0 = value h 0.
Proof.
  intros Ho. unfold value. rewrite Ho. assert (Z.odd (h + 1) = false) as -> by (by rewrite Z.odd_add, Ho). lia.
Qed.

(** Strikes under way never lower the count, and keep an odd count or make it even. *)
Lemma partway_count p m m' : mem_ok m → count p m < 4096 → partway (strike_op p (count p m)) m m' →
  count p m <= count p m' <= 4096 ∧
  (Z.odd (count p m) = true → Z.odd (count p m') = true → count p m' = count p m).
Proof.
  intros Hm Hlt Hp. pose proof (count_bounds m p) as Hb. destruct (strike_partway p m Hm Hlt m' Hp) as [Hc _].
  destruct (word_index (count p m)) as (q & r & Hq & _ & Hr & Hdiv & _); [lia|]. rewrite Hdiv in Hc.
  pose proof (count_bounds m' p). split; [lia|]. intros Ho Ho'. destruct Hc as [->|[Hc|Hc]]; [done|..]; exfalso.
  - rewrite Hc, Z.odd_add, Ho in Ho'. done.
  - rewrite Hc, Z.odd_add, Z.odd_mul in Ho'. done.
Qed.

(** ** The code on the device *)

#[local] Arguments read_page_count : simpl never.
#[local] Arguments start_increment : simpl never.
#[local] Arguments page_empty : simpl never.
#[local] Arguments low_page_full : simpl never.
#[local] Arguments counter_value : simpl never.
#[local] Arguments strike_op : simpl never.
#[local] Opaque count.

Lemma pattern_strike c : 0 <= c → WRITE_PATTERNS !! Z.to_nat (c mod 8) = Some (strike (S (Z.to_nat (c mod 8)))).
Proof.
  intros Hc. pose proof (Z.mod_pos_bound c 8 ltac:(lia)). assert (Z.to_nat (c mod 8) < 8)%nat as Hr by lia.
  generalize dependent (Z.to_nat (c mod 8)). intros r Hr. do 8 (destruct r as [|r]; [done|]). lia.
Qed.

Lemma start_increment_dev p m c b op : 0 <= c <= 4096 →
  start_increment p c b (mk_Dev m op) =
  if decide (c = 4096) then (Ok (ESIZE, Some b), mk_Dev m op)
  else match op with
       | None => (Ok (SUCCESS, None), mk_Dev m (Some (strike_op p c)))
       | Some _ => (Ok (EBUSY, Some [strike (S (Z.to_nat (c mod 8)))]), mk_Dev m op)
       end.
Proof.
  intros Hc. unfold start_increment. change COUNTS_PER_PAGE with 4096. destruct (decide (c = 4096)) as [->|]; [done|].
  rewrite (proj2 (Z.leb_gt _ _)) by lia. cbv zeta. change COUNTS_PER_WORD with 8. rewrite pattern_strike by lia. simpl.
  unfold dev_write. destruct op; [done|]. simpl.
  assert ((page_offset p + c / 8 <? 0x20000) = true) as ->; [|done].
  apply Z.ltb_lt. assert (c / 8 < 512) by (apply Z.div_lt_upper_bound; lia).
  unfold page_offset, NV_WORDS_PER_PAGE. destruct p; simpl; lia.
Qed.

(** The state of an outstanding or idle counter. *)
Definition task_of (busy : bool) : option Task := if busy then Some TaskIncrement else None.
Definition abs_of (busy : bool) (v : Z) : acounter := if busy then ABusy v else AIdle v.

Definition rai := FlashCounter.read_and_increment (F := Dev).

Lemma rai_busy m op buf k : rai (sys m op buf (Some k)) = (Ok EBUSY, sys m op buf (Some k)).
Proof. done. Qed.

Lemma rai_odd m op buf :
  Z.odd (count High m) = true → (buf = None → op ≠ None) → (count Low m = 0 ∨ buf ≠ None) →
  ∃ op' buf', rai (sys m op buf None) = (Ok (SuccessWithValue (val m)), sys m op' buf' (Some TaskIncrement)) ∧
    match op with
    | Some _ => op' = op ∧ (buf' = None ↔ buf = None) ∧ (∀ b, buf' = Some b → length b = 1%nat ∨ buf' = buf)
    | None => (op' = Some (PErase (page_number Low)) ∧ buf' = buf) ∨
              (count Low m = 0 ∧ op' = Some (strike_op High (count High m)) ∧ buf' = None)
    end.
Proof.
  intros Ho Hb Hl. unfold rai, FlashCounter.read_and_increment, sys. simpl. unfold mbind, M_bind; simpl.
  rewrite !read_page_count_dev. simpl. rewrite land_1_odd, Ho. simpl.
  pose proof (count_bounds m High) as HbH. pose proof (count_bounds m Low) as HbL.
  assert (∀ op buf, FlashCounter.success (count High m) (count Low m) (FlashCounter.mk true (mk_Dev m op) buf None) =
            (Ok (SuccessWithValue (val m)), sys m op buf (Some TaskIncrement))) as Hsucc.
  { intros op0 buf0. unfold FlashCounter.success. simpl. unfold mbind, M_bind. simpl. rewrite counter_value_eq by assumption. reflexivity. }
  assert (count High m ≠ 4096) as H4096 by (intros E; by rewrite E in Ho).
  destruct (count Low m =? 0) eqn:El; zb.
  - destruct buf as [b|]; simpl.
    + unfold FlashCounter.on_flash, zoom. simpl. rewrite start_increment_dev, decide_False by assumption.
      destruct op as [op|]; simpl; unfold FlashCounter.set_flash; simpl; rewrite Hsucc; eexists _, _; (split; [done|]).
      * split_and!; [done|done|]. intros b' E. left. by simplify_eq.
      * by right.
    + rewrite Hsucc. destruct op as [op|]; [|by destruct (Hb eq_refl)]. eexists _, _. split; [done|]. done.
  - destruct Hl as [?|Hl]; [done|]. unfold FlashCounter.on_flash, zoom. simpl. unfold dev_erase.
    destruct op as [op|]; simpl; unfold FlashCounter.set_flash; simpl; rewrite Hsucc; eexists _, _; (split; [done|]).
    + split_and!; [done..|]. intros b' ->. by right.
    + by left.
Qed.

Lemma rai_even m b :
  Z.odd (count High m) = false →
  rai (sys m None (Some [b]) None) =
  if decide (count Low m = 4096) then
    if decide (count High m = 4096) then (Ok ESIZE, sys m None (Some [b]) None)
    else (Ok (SuccessWithValue (val m)), sys m (Some (strike_op High (count High m))) None (Some TaskIncrement))
  else (Ok (SuccessWithValue (val m)), sys m (Some (strike_op Low (count Low m))) None (Some TaskIncrement)).
Proof.
  intros Ho. pose proof (count_bounds m High) as HbH. pose proof (count_bounds m Low) as HbL.
  unfold rai, FlashCounter.read_and_increment, sys. simpl. unfold mbind, M_bind; simpl.
  rewrite !read_page_count_dev. simpl. rewrite land_1_odd, Ho. simpl.
  unfold FlashCounter.on_flash, zoom. simpl. rewrite start_increment_dev by assumption.
  destruct (decide (count Low m = 4096)) as [El|El]; simpl.
  - unfold FlashCounter.set_flash. simpl. rewrite start_increment_dev by assumption.
    destruct (decide (count High m = 4096)) as [Eh|Eh]; simpl; [reflexivity|].
    unfold FlashCounter.success, mbind, M_bind. simpl. rewrite counter_value_eq by assumption. reflexivity.
  - unfold FlashCounter.success, mbind, M_bind. simpl. rewrite counter_value_eq by assumption. reflexivity.
Qed.

Lemma rai_even_in_flight m op : Z.odd (count High m) = false →
  rai (sys m op None None) = (Panic, sys m op None None).
Proof.
  intros Ho. unfold rai, FlashCounter.read_and_increment, sys. simpl. unfold mbind, M_bind; simpl.
  rewrite !read_page_count_dev. simpl. rewrite land_1_odd, Ho. reflexivity.
Qed.

Lemma write_done_failed m x rc busy : rc ≠ SUCCESS →
  FlashCounter.write_done [x] rc (sys m None None (task_of busy)) =
  (Ok (if busy then Some (IncrementDone rc) else None), sys m None (Some [x]) None).
Proof.
  intros Hrc. unfold FlashCounter.write_done, sys. simpl. unfold mbind, M_bind. simpl.
  rewrite (bool_decide_eq_true_2 (rc ≠ SUCCESS)) by assumption. by destruct busy.
Qed.

Lemma write_done_background m x :
  FlashCounter.write_done [x] SUCCESS (sys m None None None) = (Ok None, sys m None (Some [x]) None).
Proof. reflexivity. Qed.

Lemma write_done_settled m x : count Low m = 0 →
  FlashCounter.write_done [x] SUCCESS (sys m None None (Some TaskIncrement)) =
  (Ok None, sys m (Some (strike_op Low (count Low m))) None (Some TaskIncrement)).
Proof.
  intros Hl. unfold FlashCounter.write_done, sys. simpl. unfold mbind, M_bind. simpl.
  rewrite page_empty_count. simpl. rewrite (bool_decide_eq_true_2 (count Low m = 0)) by assumption. simpl.
  rewrite read_page_count_dev. simpl. unfold FlashCounter.on_flash, zoom. simpl.
  rewrite start_increment_dev, decide_False by (rewrite ?Hl; lia). reflexivity.
Qed.

Lemma write_done_counted m x : count Low m ≠ 0 →
  ∃ op, FlashCounter.write_done [x] SUCCESS (sys m None None (Some TaskIncrement)) =
        (Ok (Some (IncrementDone SUCCESS)), sys m op (Some [x]) None) ∧
        (op = None ∨ (op = Some (PErase (page_number Low)) ∧ Z.odd (count High m) = true)).
Proof.
  intros Hl. unfold FlashCounter.write_done, sys. simpl. unfold mbind, M_bind. simpl.
  rewrite page_empty_count. simpl. rewrite (bool_decide_eq_false_2 (count Low m = 0)) by assumption. simpl.
  rewrite read_page_count_dev. simpl. rewrite land_1_odd.
  destruct (low_page_full _), (Z.odd (count High m)) eqn:Eo; simpl; eexists; (split; [reflexivity|]);
    first [by left|by right].
Qed.

Lemma erase_done_failed m b rc busy : rc ≠ SUCCESS →
  FlashCounter.erase_done rc (sys m None b (task_of busy)) =
  (Ok (if busy then Some (IncrementDone FAIL) else None), sys m None b None).
Proof.
  intros Hrc. unfold FlashCounter.erase_done, sys.
  rewrite (bool_decide_eq_true_2 (rc ≠ SUCCESS)) by assumption. by destruct busy.
Qed.

Lemma erase_done_ok m b busy : Z.odd (count High m) = true →
  FlashCounter.erase_done SUCCESS (sys m None (Some [b]) (task_of busy)) =
  (Ok None, sys m (Some (strike_op High (count High m))) None (task_of busy)).
Proof.
  intros Ho. pose proof (count_bounds m High) as HbH.
  assert (count High m ≠ 4096) as H4096 by (intros E; by rewrite E in Ho).
  unfold FlashCounter.erase_done, sys. simpl. unfold mbind, M_bind. simpl.
  rewrite (bool_decide_eq_false_2 (task_of busy = Some TaskInitialize)) by (by destruct busy). simpl.
  rewrite read_page_count_dev. simpl. unfold FlashCounter.on_flash, zoom. simpl.
  rewrite start_increment_dev, decide_False by assumption. reflexivity.
Qed.

(** ** The simulation *)

(** Which abstract state a system state stands for, by the step it is in. *)
Inductive R : Sys → acounter → Prop :=
| R_idle m b : mem_ok m → R (sys m None (Some [b]) None) (AIdle (val m))
| R_incr1 m0 m : mem_ok m0 → Z.odd (count High m0) = false → count Low m0 < 4096 →
    partway (strike_op Low (count Low m0)) m0 m →
    R (sys m (Some (strike_op Low (count Low m0))) None (Some TaskIncrement)) (ABusy (val m0))
| R_rollover1 m0 m : mem_ok m0 → Z.odd (count High m0) = false → count High m0 < 4096 → count Low m0 = 4096 →
    partway (strike_op High (count High m0)) m0 m →
    R (sys m (Some (strike_op High (count High m0))) None (Some TaskIncrement)) (ABusy (val m0))
| R_rollover2 m b busy : mem_ok m → Z.odd (count High m) = true →
    R (sys m (Some (PErase (page_number Low))) (Some [b]) (task_of busy)) (abs_of busy (val m))
| R_rollover3 m0 m busy : mem_ok m0 → Z.odd (count High m0) = true → count Low m0 = 0 →
    partway (strike_op High (count High m0)) m0 m →
    R (sys m (Some (strike_op High (count High m0))) None (task_of busy)) (abs_of busy (val m0)).

Lemma avalue_abs busy v : avalue (abs_of busy v) = v.
Proof. by destruct busy. Qed.

(** After a power loss the value is the memory's. *)
Lemma sim_reboot s a : mem_ok (mem (FlashCounter.flash s)) → avalue a <= val (mem (FlashCounter.flash s)) →
  ∃ a', astep a PowerLost a' ∧ R (reboot s) a'.
Proof. intros Hm Hv. eexists. split; [by apply as_lost|]. by apply R_idle. Qed.

Lemma odd_below m p : Z.odd (count p m) = true → count p m < 4096.
Proof.
  intros Ho. pose proof (count_bounds m p). destruct (decide (count p m = 4096)) as [E|]; [by rewrite E in Ho|lia].
Qed.

(** What the memory reads as in each step is no less than the value. *)
Lemma R_memory s a : R s a → mem_ok (mem (FlashCounter.flash s)) ∧ avalue a <= val (mem (FlashCounter.flash s)).
Proof.
  destruct 1 as [m b Hm|m0 m Hm Ho Hl Hp|m0 m Hm Ho Hh Hl Hp|m b busy Hm Ho|m0 m busy Hm Ho Hl Hp];
    rewrite ?avalue_abs; cbn [avalue sys FlashCounter.flash mem].
  - split; [done|lia].
  - split; [apply Hp|]. destruct (partway_count Low m0 m Hm Hl Hp) as [Hc _].
    pose proof (count_bounds m0 Low). unfold val. rewrite (strike_other_page Low m0 High (count Low m0) m) by first [done|lia].
    apply value_low. lia.
  - split; [apply Hp|]. destruct (partway_count High m0 m Hm Hh Hp) as [Hc _]. pose proof (count_bounds m0 High).
    unfold val. rewrite (strike_other_page High m0 Low (count High m0) m), Hl by first [done|lia]. apply value_mono; lia.
  - split; [done|lia].
  - pose proof (odd_below _ _ Ho) as Hh.
    split; [apply Hp|]. destruct (partway_count High m0 m Hm Hh Hp) as [Hc _]. pose proof (count_bounds m0 High).
    unfold val. rewrite (strike_other_page High m0 Low (count High m0) m), Hl by first [done|lia]. apply value_mono; lia.
Qed.

(** A completed strike. *)
Lemma strike_done p q m0 m : p ≠ q → mem_ok m0 → count p m0 < 4096 → partway (strike_op p (count p m0)) m0 m →
  let m1 := finish (strike_op p (count p m0)) m in
  mem_ok m1 ∧ count p m1 = count p m0 + 1 ∧ count q m1 = count q m0.
Proof.
  intros Hpq Hm Hlt Hp m1. pose proof (count_bounds m0 p). split_and!.
  - apply finish_ok; [apply strike_op_ok|apply Hp].
  - unfold m1. rewrite (count_finish_ext p _ _ _ Hp). by apply strike_finish.
  - unfold m1. rewrite (count_finish_ext q _ _ _ Hp).
    apply (strike_other_page p m0 q (count p m0)); [done|lia|]. apply finish_partway; [apply strike_op_ok|done].
Qed.

Lemma val_below m : ¬ (count High m = 4096 ∧ count Low m = 4096) → val m < MAX_COUNT.
Proof.
  intros Hn. pose proof (count_bounds m High). pose proof (count_bounds m Low).
  pose proof (half_bounds (count High m) ltac:(lia)) as [Hb He]. unfold val, value, MAX_COUNT.
  destruct (Z.odd (count High m)) eqn:Eo; simpl Z.b2z in *; [rewrite odd_half by (assumption || lia)|]; lia.
Qed.

Lemma sim_call s a rc s' : R s a → rai s = (Ok rc, s') → ∃ a', astep a (Returned rc) a' ∧ R s' a'.
Proof.
  destruct 1 as [m b Hm|m0 m Hm Ho Hl Hp|m0 m Hm Ho Hh Hl Hp|m b busy Hm Ho|m0 m busy Hm Ho Hl Hp]; intros Hc.
  - destruct (Z.odd (count High m)) eqn:Ho.
    + assert (val m < MAX_COUNT) as Hv by (pose proof (odd_below _ _ Ho); apply val_below; lia).
      destruct (rai_odd m None (Some [b])) as (op' & buf' & Hr & Hcase); [done..|by right|].
      rewrite Hr in Hc. injection Hc as <- <-. eexists. split; [by apply as_read|].
      destruct Hcase as [[-> ->]|(Hl & -> & ->)]; [apply (R_rollover2 m b true); assumption|].
      apply (R_rollover3 m m true); [assumption..|]. apply partway_refl; [apply strike_op_ok|assumption].
    + rewrite rai_even in Hc by done. pose proof (count_bounds m High). pose proof (count_bounds m Low).
      destruct (decide (count Low m = 4096)) as [El|El]; [destruct (decide (count High m = 4096)) as [Eh|Eh]|];
        injection Hc as <- <-; eexists.
      * assert (val m = MAX_COUNT) as Hv by (unfold val, value; rewrite El, Eh; reflexivity).
        split; [rewrite Hv; apply as_full|]. rewrite <-Hv. apply R_idle. assumption.
      * split; [apply as_read; apply val_below; lia|]. apply R_rollover1; [assumption|assumption|lia|assumption|].
        apply partway_refl; [apply strike_op_ok|assumption].
      * split; [apply as_read; apply val_below; lia|]. apply R_incr1; [assumption|assumption|lia|].
        apply partway_refl; [apply strike_op_ok|assumption].
  - rewrite rai_busy in Hc. simplify_eq. eexists. split; [apply as_busy|]. apply R_incr1; assumption.
  - rewrite rai_busy in Hc. simplify_eq. eexists. split; [apply as_busy|]. apply R_rollover1; assumption.
  - destruct busy.
    { cbn [task_of] in Hc. rewrite rai_busy in Hc. injection Hc as <- <-. eexists. split; [apply as_busy|]. apply (R_rollover2 m b true); assumption. }
    destruct (rai_odd m (Some (PErase (page_number Low))) (Some [b])) as (op' & buf' & Hr & -> & Hbuf & Hlen); [done..|by right|].
    unfold rai in *. cbn [task_of] in Hc. rewrite Hr in Hc. injection Hc as <- <-. eexists.
    split; [apply as_read; pose proof (odd_below _ _ Ho); apply val_below; lia|].
    destruct buf' as [b'|]; [|by destruct Hbuf as [Hbuf _]; specialize (Hbuf eq_refl)].
    destruct (Hlen b' eq_refl) as [Hl1|[= ->]]; [destruct b' as [|x [|]]; try done|]; apply (R_rollover2 m _ true); assumption.
  - destruct busy.
    { cbn [task_of] in Hc. rewrite rai_busy in Hc. injection Hc as <- <-. eexists. split; [apply as_busy|]. apply (R_rollover3 m0 m true); assumption. }
    cbn [task_of] in Hc. pose proof (odd_below _ _ Ho) as Hh. pose proof (count_bounds m0 High).
    destruct (partway_count High m0 m Hm Hh Hp) as [_ Hsame].
    assert (count Low m = 0) as Hl' by (rewrite (strike_other_page High m0 Low (count High m0) m) by first [assumption|discriminate|lia]; assumption).
    destruct (Z.odd (count High m)) eqn:Eo; [|by rewrite rai_even_in_flight in Hc].
    specialize (Hsame Ho eq_refl).
    destruct (rai_odd m (Some (strike_op High (count High m0))) None) as (op' & buf' & Hr & -> & Hbuf & _); [done..|by left|].
    assert (val m = val m0) as Hv by (unfold val; rewrite Hsame, Hl', Hl; reflexivity).
    unfold rai in *. rewrite Hr in Hc. injection Hc as <- <-. rewrite Hv. eexists.
    split; [apply as_read; apply val_below; lia|].
    replace buf' with (@None (list Z)) by (symmetry; by apply Hbuf). apply (R_rollover3 m0 m true); assumption.
Qed.


Lemma sim_progress s a op m' : R s a → pending (FlashCounter.flash s) = Some op →
  partway op (mem (FlashCounter.flash s)) m' → R (FlashCounter.set_flash (mk_Dev m' (Some op)) s) a.
Proof.
  destruct 1 as [m b Hm|m0 m Hm Ho Hl Hp|m0 m Hm Ho Hh Hl Hp|m b busy Hm Ho|m0 m busy Hm Ho Hl Hp];
    cbn [sys FlashCounter.flash pending mem]; intros Hop Hpart; [discriminate|injection Hop as <-..].
  - apply R_incr1; [assumption..|]. eapply partway_trans; eassumption.
  - apply R_rollover1; [assumption..|]. eapply partway_trans; eassumption.
  - pose proof (erase_low_high _ _ Hpart) as Hh.
    assert (val m = val m') as -> by (unfold val; rewrite Hh; by apply value_odd).
    apply R_rollover2; [apply Hpart|by rewrite Hh].
  - apply R_rollover3; [assumption..|]. eapply partway_trans; eassumption.
Qed.

Lemma sim_complete s a op : R s a → pending (FlashCounter.flash s) = Some op →
  ∃ c s' a', deliver op SUCCESS (at_rest (finish op (mem (FlashCounter.flash s))) s) = (Ok c, s') ∧
    astep a (Completed c) a' ∧ R s' a'.
Proof.
  destruct 1 as [m b Hm|m0 m Hm Ho Hl Hp|m0 m Hm Ho Hh Hl Hp|m b busy Hm Ho|m0 m busy Hm Ho Hl Hp];
    cbn [sys FlashCounter.flash pending mem]; intros Hop; [discriminate|injection Hop as <-..].
  - destruct (strike_done Low High m0 m) as (Hok & Hc1 & Hc2); [discriminate|assumption..|].
    set (m1 := finish _ m) in *. pose proof (count_bounds m0 Low).
    destruct (write_done_counted m1 (strike (S (Z.to_nat (count Low m0 mod 8))))) as (op' & Hw & Hop'); [lia|].
    destruct Hop' as [->|[_ Hodd]]; [|rewrite Hc2, Ho in Hodd; discriminate].
    eexists _, _, _. split; [exact Hw|]. split; [apply as_done|].
    assert (val m0 + 1 = val m1) as ->; [|apply R_idle; assumption].
    unfold val, value. rewrite Hc1, Hc2, Ho. lia.
  - destruct (strike_done High Low m0 m) as (Hok & Hc1 & Hc2); [discriminate|assumption..|].
    set (m1 := finish _ m) in *. pose proof (count_bounds m0 High).
    destruct (write_done_counted m1 (strike (S (Z.to_nat (count High m0 mod 8))))) as (op' & Hw & Hop'); [lia|].
    eexists _, _, _. split; [exact Hw|]. split; [apply as_done|].
    assert (val m0 + 1 = val m1) as ->.
    { unfold val. rewrite Hc1, Hc2, Hl. symmetry. apply value_rollover; [lia|assumption]. }
    destruct Hop' as [->|[-> Hodd]]; [apply R_idle; assumption|]. apply (R_rollover2 m1 _ false); assumption.
  - set (m1 := finish _ m).
    assert (partway (PErase (page_number Low)) m m1) as Hpart by (by apply finish_partway).
    pose proof (erase_low_high _ _ Hpart) as Hh. pose proof (erase_low_finish m) as Hl. fold m1 in Hl.
    eexists _, _, _. split; [apply (erase_done_ok m1 b busy); by rewrite Hh|]. split; [apply as_background|].
    assert (val m = val m1) as -> by (unfold val; rewrite Hh; by apply value_odd).
    apply R_rollover3; [apply Hpart|by rewrite Hh|assumption|]. apply partway_refl; [apply strike_op_ok|apply Hpart].
  - pose proof (odd_below _ _ Ho) as Hh.
    destruct (strike_done High Low m0 m) as (Hok & Hc1 & Hc2); [discriminate|assumption..|].
    set (m1 := finish _ m) in *. rewrite Hl in Hc2.
    assert (val m0 = val m1) as ->.
    { unfold val. rewrite Hc1, Hc2, Hl. symmetry. by apply value_settled. }
    destruct busy.
    + eexists _, _, _. split; [apply write_done_settled; assumption|]. split; [apply as_background|].
      apply R_incr1; [assumption|by rewrite Hc1, Z.odd_add, Ho|lia|]. apply partway_refl; [apply strike_op_ok|assumption].
    + eexists _, _, _. split; [apply write_done_background|]. split; [apply as_background|]. apply R_idle; assumption.
Qed.

Lemma sim_fail s a op rc : R s a → pending (FlashCounter.flash s) = Some op → rc ≠ SUCCESS →
  ∃ c s' a', deliver op rc (at_rest (mem (FlashCounter.flash s)) s) = (Ok c, s') ∧
    astep a (Failed c) a' ∧ R s' a'.
Proof.
  intros HR. destruct (R_memory s a HR) as [Hmem Hval].
  destruct HR as [m b Hm|m0 m Hm Ho Hl Hp|m0 m Hm Ho Hh Hl Hp|m b busy Hm Ho|m0 m busy Hm Ho Hl Hp];
    cbn [sys FlashCounter.flash pending mem] in *; intros Hop Hrc; [discriminate|injection Hop as <-..];
    rewrite ?avalue_abs in Hval.
  - eexists _, _, _. split; [apply (write_done_failed m _ rc true); assumption|].
    split; [by apply as_failed|]. apply R_idle; assumption.
  - eexists _, _, _. split; [apply (write_done_failed m _ rc true); assumption|].
    split; [by apply as_failed|]. apply R_idle; assumption.
  - eexists _, _, (AIdle (val m)). split; [apply (erase_done_failed m _ rc busy); assumption|].
    split; [destruct busy; [by apply as_failed|by apply as_failed_background]|]. apply R_idle; assumption.
  - eexists _, _, (AIdle (val m)). split; [apply (write_done_failed m _ rc busy); assumption|].
    split; [destruct busy; [by apply as_failed|by apply as_failed_background]|]. apply R_idle; assumption.
Qed.

Lemma rai_panic s a s' : R s a → rai s = (Panic, s') → s' = s.
Proof.
  intros HR Hc. destruct HR as [m b Hm|m0 m Hm Ho Hl Hp|m0 m Hm Ho Hh Hl Hp|m b busy Hm Ho|m0 m busy Hm Ho Hl Hp];
    try (rewrite rai_busy in Hc; discriminate).
  - destruct (Z.odd (count High m)) eqn:Ho.
    + destruct (rai_odd m None (Some [b])) as (op' & buf' & Hr & _); [done..|by right|]. rewrite Hr in Hc. discriminate.
    + rewrite rai_even in Hc by assumption. destruct (decide (count Low m = 4096)); [destruct (decide (count High m = 4096))|]; discriminate Hc.
  - destruct busy; cbn [task_of] in Hc; [rewrite rai_busy in Hc; discriminate|].
    destruct (rai_odd m (Some (PErase (page_number Low))) (Some [b])) as (op' & buf' & Hr & _); [done..|by right|].
    rewrite Hr in Hc. discriminate.
  - destruct busy; cbn [task_of] in *; [rewrite rai_busy in Hc; discriminate|].
    destruct (Z.odd (count High m)) eqn:Eo; [|rewrite rai_even_in_flight in Hc by assumption; by injection Hc as <-].
    pose proof (odd_below _ _ Ho). pose proof (count_bounds m0 High).
    assert (count Low m = 0) as Hl' by (rewrite (strike_other_page High m0 Low (count High m0) m) by first [assumption|discriminate|lia]; assumption).
    destruct (rai_odd m (Some (strike_op High (count High m0))) None) as (op' & buf' & Hr & _); [done..|by left|].
    rewrite Hr in Hc. discriminate.
Qed.

Lemma simulation s a e s' : R s a → sstep s e s' → ∃ a', astep a e a' ∧ R s' a'.
Proof.
  intros HR Hs. destruct (R_memory s a HR) as [Hmem Hval].
  destruct Hs as [rc s' Hc|s' Hc|op m' Hop Hp|op c s' Hop Hd|op s' Hop Hd|op rc c s' Hop Hrc Hd|op rc s' Hop Hrc Hd|].
  - eapply sim_call; eassumption.
  - rewrite (rai_panic s a s' HR Hc). by apply sim_reboot.
  - exists a. split; [apply as_progress|]. eapply sim_progress; eassumption.
  - destruct (sim_complete s a op HR Hop) as (c' & s1 & a' & Hd' & ? & ?). rewrite Hd in Hd'. injection Hd' as <- <-. eauto.
  - destruct (sim_complete s a op HR Hop) as (c' & s1 & a' & Hd' & ? & ?). rewrite Hd in Hd'. discriminate.
  - destruct (sim_fail s a op rc HR Hop Hrc) as (c' & s1 & a' & Hd' & ? & ?). rewrite Hd in Hd'. injection Hd' as <- <-. eauto.
  - destruct (sim_fail s a op rc HR Hop Hrc) as (c' & s1 & a' & Hd' & ? & ?). rewrite Hd in Hd'. discriminate.
  - by apply sim_reboot.
Qed.

(** ** Runs *)

Inductive runs {S} (st : S → event → S → Prop) : S → list event → S → Prop :=
| runs_nil s : runs st s [] s
| runs_cons s1 e s2 es s3 : st s1 e s2 → runs st s2 es s3 → runs st s1 (e :: es) s3.

Lemma runs_simulated s es s' a : R s a → runs sstep s es s' → ∃ a', runs astep a es a' ∧ R s' a'.
Proof.
  intros HR Hr. revert a HR. induction Hr as [s|s1 e s2 es s3 Hs Hr IH]; intros a HR; [by exists a; split; [constructor|]|].
  destruct (simulation s1 a e s2 HR Hs) as (a2 & Ha & HR2). destruct (IH a2 HR2) as (a3 & ? & ?).
  exists a3. split; [by econstructor|done].
Qed.

Lemma astep_value a e a' : astep a e a' →
  avalue a <= avalue a' ∧
  (∀ v, e = Returned (SuccessWithValue v) → v = avalue a) ∧
  (e = Completed (Some (IncrementDone SUCCESS)) → avalue a' = avalue a + 1).
Proof. destruct 1; simpl; split_and!; try lia; intros; simplify_eq; lia. Qed.

Lemma runs_app_inv a es1 es2 a' : runs astep a (es1 ++ es2) a' → ∃ b, runs astep a es1 b ∧ runs astep b es2 a'.
Proof.
  revert a. induction es1 as [|e es1 IH]; intros a Hr; [by exists a; split; [constructor|]|].
  inversion Hr as [|? ? a2 ? ? Hs Hr']; subst. destruct (IH a2 Hr') as (b & ? & ?). exists b. split; [by econstructor|done].
Qed.

Lemma runs_mono a es a' : runs astep a es a' → avalue a <= avalue a'.
Proof. induction 1 as [|a1 e a2 es a3 Hs Hr IH]; [lia|]. destruct (astep_value _ _ _ Hs) as [? _]. lia. Qed.

Lemma runs_cons_inv a e es a' : runs astep a (e :: es) a' → ∃ b, astep a e b ∧ runs astep b es a'.
Proof. inversion 1; eauto. Qed.

Lemma abstract_order a v1 v2 es1 es2 es3 a' :
  runs astep a (Returned (SuccessWithValue v1) :: es1 ++ Completed (Some (IncrementDone SUCCESS)) :: es2 ++
                Returned (SuccessWithValue v2) :: es3) a' → v1 < v2.
Proof.
  intros Hr. apply runs_cons_inv in Hr as (b1 & Hs1 & Hr). apply runs_app_inv in Hr as (b2 & Hr1 & Hr).
  apply runs_cons_inv in Hr as (b3 & Hs2 & Hr). apply runs_app_inv in Hr as (b4 & Hr2 & Hr).
  apply runs_cons_inv in Hr as (b5 & Hs3 & _).
  destruct (astep_value _ _ _ Hs1) as (? & Hv1 & _). destruct (astep_value _ _ _ Hs2) as (? & _ & Hd).
  destruct (astep_value _ _ _ Hs3) as (? & Hv2 & _). specialize (Hv1 _ eq_refl). specialize (Hv2 _ eq_refl).
  specialize (Hd eq_refl). apply runs_mono in Hr1, Hr2. lia.
Qed.

(** ** Theorems *)

(** C3: the counter refines a counter that only moves forward.  On a flash in any
    condition, every call, every completed or failed flash operation, every power
    loss at any point of any operation and every restart is matched by a step of
    the abstract counter: a call returns exactly the value at rest and refuses
    only while an increment is outstanding or at the maximum, a reported increment
    adds exactly one, work in the background changes nothing, and a failure or a
    power loss never lowers the value. *)
Theorem counter_refines_abstract (m : Z → Z) (b : Z) (es : list event) (s : Sys) :
  mem_ok m → runs sstep (sys m None (Some [b]) None) es s →
  ∃ a, runs astep (AIdle (val m)) es a ∧ R s a.
Proof. intros Hm Hr. eapply runs_simulated; [by apply R_idle|done]. Qed.

Definition blank : Z → Z := λ _, 0xFFFFFFFF.

Lemma blank_ok : mem_ok blank.
Proof. intros x. unfold fits, blank. lia. Qed.

Lemma counter_refines_abstract_witness :
  ∃ a, runs astep (AIdle (val blank)) [PowerLost] a ∧ R (reboot (sys blank None (Some [0]) None)) a.
Proof.
  apply (counter_refines_abstract blank 0 [PowerLost] (reboot (sys blank None (Some [0]) None))).
  - exact blank_ok.
  - eapply runs_cons; [apply ss_lost|apply runs_nil].
Defined.


Lemma val_blank : val blank = 0.
Proof.
  unfold val. rewrite (proj2 (count_empty blank High)), (proj2 (count_empty blank Low)) by (intros i _; reflexivity).
  reflexivity.
Qed.


(** The current word of the page was left by completed strikes only. *)
Definition completed_strikes (p : Page) (m : Z → Z) : Prop :=
  word_at m p (Z.to_nat (count p m / 8)) = strike (Z.to_nat (count p m mod 8)).

(** One strike is atomic.  Incrementing a page below its maximum starts a write
    of one word; when it completes the page counts one more, and if the word was
    left by completed strikes only, every state the interrupted write can leave
    counts either what it did or one more. *)
Theorem strike_atomic (p : Page) (m m' : Z → Z) (b : list Z) :
  mem_ok m → count p m < 4096 → partway (strike_op p (count p m)) m m' →
  start_increment p (count p m) b (mk_Dev m None) =
    (Ok (SUCCESS, None), mk_Dev m (Some (strike_op p (count p m)))) ∧
  count p (finish (strike_op p (count p m)) m') = count p m + 1 ∧
  (completed_strikes p m →
   count p m' = count p m ∨ count p m' = count p m + 1).
Proof.
  intros Hm Hlt Hp. pose proof (count_bounds m p). split_and!.
  - rewrite start_increment_dev, decide_False by lia. reflexivity.
  - rewrite (count_finish_ext p _ _ _ Hp). by apply strike_finish.
  - by apply strike_partway.
Qed.

Lemma strike_atomic_witness :
  start_increment Low (count Low blank) [0] (mk_Dev blank None) =
    (Ok (SUCCESS, None), mk_Dev blank (Some (strike_op Low (count Low blank)))) ∧
  count Low (finish (strike_op Low (count Low blank)) blank) = count Low blank + 1 ∧
  (completed_strikes Low blank →
   count Low blank = count Low blank ∨ count Low blank = count Low blank + 1).
Proof.
  apply (strike_atomic Low blank blank [0]).
  - exact blank_ok.
  - rewrite (proj2 (count_empty blank Low)); [lia|]. intros i _. reflexivity.
  - apply partway_refl; [apply strike_op_ok|exact blank_ok].
Defined.

(** One word of a blank flash replaced. *)
Definition with_word (p : Page) (w : Z) : Z → Z := λ x, if decide (x = page_offset p) then w else 0xFFFFFFFF.

Lemma with_word_view p w : w ≠ 0xFFFFFFFF → count p (with_word p w) = decode_word w.
Proof.
  intros Hw. apply view_count.
  assert (word_at (with_word p w) p 0 = w) as E by (unfold word_at, with_word; by rewrite Z.add_0_r, decide_True).
  pose proof (view_word (with_word p w) p 0 ltac:(lia)) as Hv. rewrite E in Hv. apply Hv; [assumption|].
  intros i Hi. unfold word_at, with_word. rewrite decide_False; [done|lia].
Qed.

Lemma with_word_partway p c w w' : fits 32 w → fits 32 w' → c / 8 = 0 → 
  sub (Z.land w (strike (S (Z.to_nat (c mod 8))))) w' → sub w' w →
  partway (strike_op p c) (with_word p w) (with_word p w').
Proof.
  intros Hf Hf' Hc Hlo Hhi. split.
  { intros x. unfold with_word. destruct (decide _); [done|]. unfold fits. lia. }
  unfold strike_op. rewrite Hc, Z.add_0_r. intros x.
  destruct (decide (in_write (page_offset p) _ x)) as [Hx|Hx]; simpl.
  - rewrite decide_True by done. apply in_write_single in Hx as ->. rewrite Z.sub_diag. simpl.
    unfold with_word. by rewrite !decide_True by done.
  - unfold with_word. rewrite !decide_False; [done|..]; intros ->; apply Hx; by apply in_write_single.
Qed.

(** Two interruptions in a row can add seven.  An increment interrupted by a power
    loss can leave bits of the word it was striking; if the next increment is
    interrupted too, the page can count eight after having counted one, although
    the interface says that a failed increment adds at most one. *)
Theorem interrupted_twice_overcounts :
  ∃ m1 m2, partway (strike_op Low 0) blank m1 ∧ count Low m1 = 1 ∧ val m1 = 1 ∧
           partway (strike_op Low 1) m1 m2 ∧ count Low m2 = 8 ∧ val m2 = 8.
Proof.
  assert (∀ w, count High (with_word Low w) = 0) as Hh.
  { intros w. apply count_empty. intros i Hi. unfold word_at, with_word. rewrite decide_False; [done|].
    unfold page_offset, NV_WORDS_PER_PAGE. simpl. lia. }
  exists (with_word Low 0x7CFFFFFF), (with_word Low 0x40FFFFFF).
  assert (count Low (with_word Low 0x7CFFFFFF) = 1) as E1 by (by rewrite with_word_view).
  assert (count Low (with_word Low 0x40FFFFFF) = 8) as E2 by (by rewrite with_word_view).
  split_and!; [|exact E1| | |exact E2|].
  - assert (partway (strike_op Low 0) (with_word Low 0xFFFFFFFF) (with_word Low 0x7CFFFFFF)) as [Hok Hp]
      by (apply with_word_partway; by_compute).
    split; [done|]. intros x. specialize (Hp x). simpl in *.
    assert (with_word Low 0xFFFFFFFF x = blank x) as Hb by (unfold with_word, blank; destruct (decide (x = page_offset Low)); reflexivity).
    rewrite Hb in Hp. exact Hp.
  - unfold val. rewrite Hh, E1. reflexivity.
  - apply with_word_partway; by_compute.
  - unfold val. rewrite Hh, E2. reflexivity.
Qed.

(** A call during the last step of a rollover can panic.  While the write that
    ends a rollover runs in the background and the flash already reads as written
    (the controller still owes its final pulse), a client that asks for the next
    increment makes the capsule take a buffer it does not have. *)
Theorem read_and_increment_panics (m0 : Z → Z) :
  mem_ok m0 → Z.odd (count High m0) = true → count Low m0 = 0 →
  let m := finish (strike_op High (count High m0)) m0 in
  let s := sys m (Some (strike_op High (count High m0))) None None in
  R s (AIdle (val m0)) ∧ FlashCounter.read_and_increment s = (Panic, s).
Proof.
  intros Hm Ho Hl m s. pose proof (odd_below _ _ Ho) as Hh. split.
  - apply (R_rollover3 m0 m false); [assumption..|]. apply finish_partway; [apply strike_op_ok|assumption].
  - apply rai_even_in_flight. unfold m. rewrite (strike_finish High m0 Hh), Z.odd_add, Ho. reflexivity.
Qed.

Lemma with_word_high w : count Low (with_word High w) = 0.
Proof.
  apply count_empty. intros i Hi. unfold word_at, with_word. rewrite decide_False; [done|].
  unfold page_offset, NV_WORDS_PER_PAGE. simpl. lia.
Qed.

Lemma read_and_increment_panics_witness :
  let m0 := with_word High 0x3CFFFFFF in
  let s := sys (finish (strike_op High (count High m0)) m0) (Some (strike_op High (count High m0))) None None in
  R s (AIdle (val m0)) ∧ FlashCounter.read_and_increment s = (Panic, s).
Proof.
  intros m0 s. apply (read_and_increment_panics m0).
  - intros x. unfold m0, with_word. destruct (decide _); unfold fits; lia.
  - unfold m0. rewrite with_word_view; [reflexivity|discriminate].
  - apply with_word_high.
Defined.

(** An initialization asked for during a rollover fails.  When the background
    write of a rollover ends and an initialization is waiting, the capsule asks
    for the erase of page 255 * 512, which the flash refuses: nothing is erased
    and the client is told [EINVAL]. *)
Theorem initialize_after_rollover_fails (m : Z → Z) (x : Z) (rc : ReturnCode) :
  FlashCounter.write_done [x] rc (sys m None None (Some TaskInitialize)) =
  (Ok (Some (InitializeDone EINVAL)), sys m None (Some [x]) None).
Proof. unfold FlashCounter.write_done, sys. simpl. unfold mbind, M_bind. simpl. by destruct (bool_decide (rc ≠ SUCCESS)). Qed.

(** The device completes what is pending. *)
Definition complete (s : Sys) : outcome Empty_set (option CounterCall) * Sys :=
  match pending (FlashCounter.flash s) with
  | Some op => deliver op SUCCESS (at_rest (finish op (mem (FlashCounter.flash s))) s)
  | None => (Ok None, s)
  end.

Lemma erase_done_initialize m b :
  FlashCounter.erase_done SUCCESS (sys m None (Some [b]) (Some TaskInitialize)) =
  if bool_decide (count High m = 0) then (Ok (Some (InitializeDone SUCCESS)), sys m None (Some [b]) None)
  else (Ok None, sys m (Some (PErase (page_number High))) (Some [b]) (Some TaskInitialize)).
Proof.
  unfold FlashCounter.erase_done, sys. simpl. unfold mbind, M_bind. simpl.
  rewrite page_empty_count. simpl. by destruct (bool_decide _).
Qed.

(** Initialization sets the counter to zero.  Asked of a counter at rest, it is
    accepted, and after the erase of the low page, and of the high page unless it
    was empty, the client is told success and the counter is at rest with value
    zero. *)
Theorem initialize_resets (m : Z → Z) (b : Z) :
  ∃ s1, FlashCounter.initialize (sys m None (Some [b]) None) = (Ok SUCCESS, s1) ∧
  ∃ m', val m' = 0 ∧
    (complete s1 = (Ok (Some (InitializeDone SUCCESS)), sys m' None (Some [b]) None) ∨
     ∃ s2, complete s1 = (Ok None, s2) ∧
           complete s2 = (Ok (Some (InitializeDone SUCCESS)), sys m' None (Some [b]) None)).
Proof.
  exists (sys m (Some (PErase (page_number Low))) (Some [b]) (Some TaskInitialize)).
  split; [reflexivity|]. set (m1 := finish (PErase (page_number Low)) m).
  assert (count Low m1 = 0) as Hl1 by apply erase_low_finish.
  pose proof (erase_done_initialize m1 b) as Hc.
  destruct (decide (count High m1 = 0)) as [Hh|Hh].
  - exists m1. split; [unfold val; rewrite Hh, Hl1; reflexivity|]. left.
    rewrite bool_decide_eq_true_2 in Hc by assumption. exact Hc.
  - set (m2 := finish (PErase (page_number High)) m1). exists m2.
    assert (count High m2 = 0) as Hh2.
    { apply count_empty. intros i Hi. unfold word_at, m2, finish. rewrite decide_True; [done|].
      unfold in_page, page_offset, NV_WORDS_PER_PAGE. simpl. lia. }
    assert (count Low m2 = 0) as Hl2.
    { rewrite <-Hl1. apply count_ext. intros i Hi. unfold word_at, m2, finish. rewrite decide_False; [done|].
      unfold in_page, page_offset, NV_WORDS_PER_PAGE. simpl. lia. }
    split; [unfold val; rewrite Hh2, Hl2; reflexivity|]. right. eexists. split.
    + rewrite bool_decide_eq_false_2 in Hc by assumption. exact Hc.
    + pose proof (erase_done_initialize m2 b) as Hc2. rewrite bool_decide_eq_true_2 in Hc2 by assumption. exact Hc2.
Qed.
