(* ===== verification/NvSyscall.v ===== *)
(** The counter for applications: the system-call driver of the NV counter
    (kernel/h1_syscalls/src/nvcounter_syscall.rs).

    The counter under the driver is the trait [NvCounter], here the class
    [Counter]; the two-page counter of [NvCounter] is an instance.  A grant is the
    list of the processes that have one, in the order in which [Grant::each]
    visits them; entering it fails for a process that is not in the list.
    Scheduling a callback appends to the list of upcalls. *)

From S2P Require Import Prelude Tock FlashHil NvCounter NvDevice NvAtomic.
From Stdlib Require Import ZArith Lia.
From stdpp Require Import base decidable option list list_numbers.

#[local] Open Scope Z_scope.

(** [h1::nvcounter::NvCounter], as its client sees it. *)
Class Counter (C : Type) := {
  nv_initialize : K C ReturnCode;
  nv_read_and_increment : K C ReturnCode
}.

#[global] Instance FlashCounter_Counter {F} `{Flash F} : Counter (FlashCounter.t F) :=
  {| nv_initialize := FlashCounter.initialize;
     nv_read_and_increment := FlashCounter.read_and_increment |}.

Abbreviation NvAppId := nat.

(** [callback] is the userdata of the subscribed callback. *)
Record NvAppData := mk_NvAppData { wants_increment : bool; nv_callback : option nat }.

Record NvUpcall := mk_NvUpcall { nv_app : NvAppId; nv_cb : nat; nv_code : Z; nv_arg2 : Z }.

#[global] Instance NvUpcall_eq_dec : EqDecision NvUpcall.
Proof. solve_decision. Defined.

Module NvCounterSyscall.

Section Driver.
Context {C : Type} `{Counter C}.

(** The cells of the driver and what it has scheduled; the grant is apart,
    because [each] lends its entries out one by one. *)
Record cells := mk_cells {
  op_ongoing : bool;
  current_app : NvAppId;
  init_failed : bool;
  nvcounter : C;
  value : Z;
  upcalls : list NvUpcall
}.

Record t := mk { self : cells; grant : list (NvAppId * NvAppData) }.

Definition new (c : C) (apps : list NvAppId) : t :=
  mk (mk_cells false 0 false c 0 []) ((λ i, (i, mk_NvAppData false None)) <$> apps).

Definition set_ongoing (b : bool) : K cells unit :=
  modify (λ s, mk_cells b (current_app s) (init_failed s) (nvcounter s) (value s) (upcalls s)).
Definition set_current (a : NvAppId) : K cells unit :=
  modify (λ s, mk_cells (op_ongoing s) a (init_failed s) (nvcounter s) (value s) (upcalls s)).
Definition set_failed (b : bool) : K cells unit :=
  modify (λ s, mk_cells (op_ongoing s) (current_app s) b (nvcounter s) (value s) (upcalls s)).
Definition set_value (v : Z) : K cells unit :=
  modify (λ s, mk_cells (op_ongoing s) (current_app s) (init_failed s) (nvcounter s) v (upcalls s)).
Definition set_counter (c : C) (s : cells) : cells :=
  mk_cells (op_ongoing s) (current_app s) (init_failed s) c (value s) (upcalls s).
Definition on_counter {B} (m : K C B) : K cells B := zoom nvcounter set_counter m.

(** [if let Some(mut callback) = app_data.callback { callback.schedule(..) }] *)
Definition schedule (id : NvAppId) (cb : option nat) (code arg2 : Z) : K cells unit :=
  modify (λ s, mk_cells (op_ongoing s) (current_app s) (init_failed s) (nvcounter s) (value s)
    match cb with Some c => upcalls s ++ [mk_NvUpcall id c code arg2] | None => upcalls s end).

(** [self.grant.each(f)] *)
Fixpoint each (f : NvAppId → NvAppData → K cells NvAppData) (apps : list (NvAppId * NvAppData)) :
    K cells (list (NvAppId * NvAppData)) :=
  match apps with
  | [] => mret []
  | (id, d) :: apps' =>
      d ← f id d;
      apps'' ← each f apps';
      mret ((id, d) :: apps'')
  end.

Definition in_grant {B} (m : list (NvAppId * NvAppData) → K cells (B * list (NvAppId * NvAppData))) : K t B := λ s,
  match m (grant s) (self s) with
  | (Ok (b, g), c) => (Ok b, mk c g)
  | (Err e, c) => (Err e, mk c (grant s))
  | (Panic, c) => (Panic, mk c (grant s))
  end.
Definition on_self {B} (m : K cells B) : K t B := zoom self (λ c s, mk c (grant s)) m.
Definition for_each (f : NvAppId → NvAppData → K cells NvAppData) : K t unit :=
  in_grant (λ g, g ← each f g; mret (tt, g)).

(** The closure of [handle_failed_init]. *)
Definition fail_request (id : NvAppId) (d : NvAppData) : K cells NvAppData :=
  if negb (wants_increment d) then mret d
  else
    schedule id (nv_callback d) 0 0 ;;
    mret (mk_NvAppData false (nv_callback d)).

Definition handle_failed_init : K t unit := on_self (set_failed true) ;; for_each fail_request.

Definition initialize : K t unit :=
  code ← on_self (on_counter nv_initialize);
  if bool_decide (code ≠ SUCCESS) then handle_failed_init else mret tt.

(** The closure of [do_next_op]: its first part starts an increment, its second
    part answers the process whose increment has ended. *)
Definition start_wanted (id : NvAppId) (d : NvAppData) : K cells NvAppData :=
  ongoing ← gets op_ongoing;
  if negb ongoing && wants_increment d then
    r ← on_counter nv_read_and_increment;
    (match r with
     | SuccessWithValue v => set_value v ;; set_ongoing true ;; set_current id
     | _ => schedule id (nv_callback d) 0 0
     end) ;;
    mret (mk_NvAppData false (nv_callback d))
  else mret d.

Definition next_op (callback_id : option NvAppId) (callback_code : Z) (id : NvAppId) (d : NvAppData) :
    K cells NvAppData :=
  d ← start_wanted id d;
  v ← gets value;
  (if bool_decide (Some id = callback_id) then schedule id (nv_callback d) callback_code v else mret tt) ;;
  mret d.

Definition do_next_op (callback_id : option NvAppId) (callback_code : Z) : K t unit :=
  for_each (next_op callback_id callback_code).

(** [self.grant.enter(app, f).unwrap_or(ReturnCode::ENOMEM)] *)
Fixpoint enter_list (app : NvAppId) (f : NvAppData → ReturnCode * NvAppData) (apps : list (NvAppId * NvAppData)) :
    ReturnCode * list (NvAppId * NvAppData) :=
  match apps with
  | [] => (ENOMEM, [])
  | (id, d) :: apps' =>
      if decide (id = app) then let '(r, d) := f d in (r, (id, d) :: apps')
      else let '(r, apps'') := enter_list app f apps' in (r, (id, d) :: apps'')
  end.
Definition enter (app : NvAppId) (f : NvAppData → ReturnCode * NvAppData) : K t ReturnCode :=
  in_grant (λ g, mret (enter_list app f g)).

Definition read_and_increment (app : NvAppId) : K t ReturnCode :=
  failed ← gets (λ s, init_failed (self s));
  if failed : bool then mret FAIL
  else
    result ← enter app (λ d, (if wants_increment d then EBUSY else SUCCESS, d));
    if bool_decide (result ≠ SUCCESS) then mret result
    else
      ongoing ← gets (λ s, op_ongoing (self s));
      if negb ongoing then
        increment_result ← on_self (on_counter nv_read_and_increment);
        match increment_result with
        | SuccessWithValue v =>
            on_self (set_value v) ;;
            on_self (set_ongoing true) ;;
            on_self (set_current app) ;;
            mret SUCCESS
        | _ => mret FAIL
        end
      else enter app (λ d, (SUCCESS, mk_NvAppData true (nv_callback d))).

Definition set_increment_callback (callback : option nat) (app : NvAppId) : K t ReturnCode :=
  enter app (λ d, (SUCCESS, mk_NvAppData (wants_increment d) callback)).

Definition command (minor_num : Z) (app : NvAppId) : K t ReturnCode :=
  if minor_num =? 0 then mret SUCCESS
  else if minor_num =? 1 then read_and_increment app
  else mret ENOSUPPORT.

Definition subscribe (minor_num : Z) (callback : option nat) (app_id : NvAppId) : K t ReturnCode :=
  if minor_num =? 0 then set_increment_callback callback app_id
  else mret ENOSUPPORT.

Definition initialize_done (status : ReturnCode) : K t unit :=
  if bool_decide (status = SUCCESS) then
    on_self (set_failed false) ;; on_self (set_value 0) ;; do_next_op None 0
  else handle_failed_init.

Definition increment_done (status : ReturnCode) : K t unit :=
  callback_app ← gets (λ s, current_app (self s));
  on_self (set_ongoing false) ;;
  v ← gets (λ s, value (self s));
  if bool_decide (status = SUCCESS) then
    on_self (set_value (u32 (v + 1))) ;; do_next_op (Some callback_app) 2
  else do_next_op (Some callback_app) 1.

End Driver.
Arguments cells : clear implicits.
Arguments t : clear implicits.
End NvCounterSyscall.

(** ** Facts *)

Module NvSyscallFacts.
Import NvCounterSyscall.

Section Accounting.
Context {C : Type} `{Counter C}.

(** Callbacks scheduled for a process, its increment that is running, and the
    requests it has waiting. *)
Definition answers (a : NvAppId) (c : cells C) : nat := length (filter (λ u, nv_app u = a) (upcalls c)).
Definition running (a : NvAppId) (c : cells C) : nat := if op_ongoing c && bool_decide (current_app c = a) then 1 else 0.
Definition w (d : NvAppData) : nat := if wants_increment d then 1 else 0.
Definition wanting (a : NvAppId) (g : list (NvAppId * NvAppData)) : nat :=
  sum_list_with (λ p, if decide (p.1 = a) then w p.2 else 0%nat) g.
Definition load (c : cells C) : nat := if op_ongoing c then 1 else 0.

Definition subscribed (a : NvAppId) (g : list (NvAppId * NvAppData)) : Prop :=
  Forall (λ p, p.1 = a → is_Some (nv_callback p.2)) g.
Definition none_waiting (g : list (NvAppId * NvAppData)) : Prop := Forall (λ p, wants_increment p.2 = false) g.

(** What a closure may do to one process, when it owes [k a] answers to process [a]. *)
Record elem_ok (k : NvAppId → nat) (id : NvAppId) (d : NvAppData) (c : cells C) (d' : NvAppData) (c' : cells C) : Prop := {
  eo_callback : nv_callback d' = nv_callback d;
  eo_ongoing : op_ongoing c = true → op_ongoing c' = true;
  eo_served : op_ongoing c' = false → wants_increment d' = false;
  eo_load : (load c' + w d' <= load c + w d)%nat;
  eo_other a : id ≠ a → answers a c' = answers a c ∧ running a c' = running a c;
  eo_self : is_Some (nv_callback d) →
    (answers id c' + w d' + running id c' = answers id c + w d + running id c + k id)%nat
}.

Lemma answers_snoc a c u o cur i n v :
  answers a (mk_cells o cur i n v (upcalls c ++ [u])) = (answers a c + if decide (nv_app u = a) then 1 else 0)%nat.
Proof.
  unfold answers. cbn [upcalls]. rewrite filter_app, length_app, filter_cons, filter_nil.
  by destruct (decide (nv_app u = a)).
Qed.

Lemma fail_request_ok id d c d' c' : fail_request id d c = (Ok d', c') → elem_ok (λ _, 0%nat) id d c d' c'.
Proof.
  unfold fail_request. destruct d as [[] cb]; cbn [wants_increment nv_callback negb]; intros E.
  - unfold mbind, M_bind, schedule, modify, mret, M_ret in E. simplify_eq. split; try done.
    + unfold w, load. simpl. lia.
    + intros a Ha. destruct cb; [|done]. rewrite answers_snoc. simpl. by rewrite decide_False, Nat.add_0_r.
    + intros [n Hn]. simpl in Hn. subst cb. rewrite answers_snoc. simpl.
      rewrite decide_True by done. unfold running, w. simpl. lia.
  - unfold mret, M_ret in E. by simplify_eq.
Qed.

Lemma start_wanted_ok id d c d' c' : start_wanted id d c = (Ok d', c') → elem_ok (λ _, 0%nat) id d c d' c'.
Proof.
  unfold start_wanted. intros (o & c1 & Eo & E)%bind_inv. unfold gets in Eo. injection Eo as <- <-.
  destruct (negb (op_ongoing c) && wants_increment d) eqn:Eg.
  - apply andb_true_iff in Eg as [Hng Hw]. apply negb_true_iff in Hng.
    apply bind_inv in E as (r & c2 & Er & E). unfold on_counter, zoom in Er.
    destruct (nv_read_and_increment (nvcounter c)) as [r' n']. simplify_eq.
    apply bind_inv in E as ([] & c3 & E3 & E). unfold mret, M_ret in E. simplify_eq.
    destruct d as [? cb]. cbn [wants_increment nv_callback] in *. subst wants_increment0.
    assert ((∃ v, c' = mk_cells true id (init_failed c) n' v (upcalls c)) ∨
      c' = mk_cells false (current_app c) (init_failed c) n' (value c)
        match cb with Some x => upcalls c ++ [mk_NvUpcall id x 0 0] | None => upcalls c end) as Hc.
    { unfold schedule, set_value, set_ongoing, set_current, set_counter, modify, mbind, M_bind in E3.
      destruct r; simplify_eq; rewrite ?Hng; eauto. }
    destruct Hc as [[v ->] | ->].
    + split; unfold load, w, running; cbn [op_ongoing nv_callback wants_increment current_app]; rewrite ?Hng; try done.
      * intros a Ha. rewrite bool_decide_eq_false_2 by done. done.
      * intros _. rewrite bool_decide_eq_true_2 by done. unfold answers. simpl. lia.
    + split; unfold load, w, running; cbn [op_ongoing nv_callback wants_increment current_app]; rewrite ?Hng; try done.
      * lia.
      * intros a Ha. destruct cb; [|done]. rewrite answers_snoc. simpl. by rewrite decide_False, Nat.add_0_r.
      * intros [x ->]. rewrite answers_snoc. simpl. rewrite decide_True by done. lia.
  - unfold mret, M_ret in E. simplify_eq. split; try done. intros Hf. rewrite Hf in Eg. done.
Qed.

Lemma next_op_ok cbid code id d c d' c' :
  next_op cbid code id d c = (Ok d', c') →
  elem_ok (λ a, if decide (cbid = Some a) then 1 else 0)%nat id d c d' c'.
Proof.
  unfold next_op. intros (d1 & c1 & E1 & E)%bind_inv. destruct (start_wanted_ok _ _ _ _ _ E1) as [Hcb Hon Hse Hlo Hot Hsf].
  apply bind_inv in E as (v & c2 & Ev & E). unfold gets in Ev. simplify_eq.
  apply bind_inv in E as ([] & c3 & E3 & E). unfold mret, M_ret in E. simplify_eq.
  case_bool_decide as Hid.
  - unfold schedule, modify in E3. simplify_eq.
    assert (∀ l, load (mk_cells (op_ongoing c2) (current_app c2) (init_failed c2) (nvcounter c2) (value c2) l) = load c2) as Hl by done.
    split; try done.
    + intros a Ha. destruct (Hot a Ha) as [Ha1 Ha2]. rewrite <-Ha1, <-Ha2. split; [|done].
      destruct (nv_callback d'); [|done]. rewrite answers_snoc. simpl. by rewrite decide_False, Nat.add_0_r.
    + intros Hs. specialize (Hsf Hs). rewrite <-Hcb in Hs. destruct Hs as [x ->]. rewrite answers_snoc. simpl.
      rewrite !decide_True by done. unfold running in *. cbn [op_ongoing current_app]. lia.
  - unfold mret, M_ret in E3. simplify_eq. split; try done. rewrite decide_False by done. done.
Qed.

Lemma each_ok k f g c g' c' :
  (∀ id d c d' c', f id d c = (Ok d', c') → elem_ok k id d c d' c') →
  each f g c = (Ok g', c') →
  g'.*1 = g.*1 ∧ (λ p, nv_callback p.2) <$> g' = (λ p, nv_callback p.2) <$> g ∧
  (op_ongoing c = true → op_ongoing c' = true) ∧ (op_ongoing c' = false → none_waiting g') ∧
  (load c' + sum_list_with (λ p, w p.2) g' <= load c + sum_list_with (λ p, w p.2) g)%nat ∧
  ∀ a, NoDup g.*1 → subscribed a g →
    (answers a c' + wanting a g' + running a c' =
     answers a c + wanting a g + running a c + if decide (a ∈ g.*1) then k a else 0)%nat.
Proof.
  intros Hf. revert c g'. induction g as [|[id d] g IH]; intros c g' E; cbn [each] in E.
  { unfold mret, M_ret in E. simplify_eq. split_and!; try done. by constructor. }
  apply bind_inv in E as (d1 & c1 & E1 & E). apply bind_inv in E as (g1 & c2 & E2 & E).
  unfold mret, M_ret in E. simplify_eq. destruct (Hf _ _ _ _ _ E1) as [Hcb Hon Hse Hlo Hot Hsf].
  destruct (IH _ _ E2) as (Hids & Hcbs & Hon' & Hnw & Hlo' & Hans). split_and!.
  - by rewrite !fmap_cons, Hids.
  - rewrite !fmap_cons, Hcbs. cbn [snd]. by rewrite Hcb.
  - auto.
  - intros Hf'. constructor; [|by apply Hnw]. apply Hse. destruct (op_ongoing c1) eqn:E1o; [|done]. by rewrite Hon' in Hf' by done.
  - simpl in *. lia.
  - intros a Hnd Hsub. rewrite fmap_cons in Hnd. apply NoDup_cons in Hnd as [Hni Hnd]. apply Forall_cons in Hsub as [Hs Hsub].
    specialize (Hans a Hnd Hsub). unfold wanting in *. cbn [sum_list_with fst snd] in *.
    rewrite fmap_cons. cbn [fst]. destruct (decide (id = a)) as [->|Hne].
    + specialize (Hsf (Hs eq_refl)). rewrite (decide_False _ _ Hni) in Hans.
      rewrite (decide_True (P := a ∈ a :: g.*1)) by (by left). lia.
    + destruct (Hot a Hne) as [Ha1 Ha2]. destruct (decide (a ∈ g.*1)) as [Hi|Hi].
      * rewrite decide_True by (by right). lia.
      * rewrite decide_False by (intros [?|?]%elem_of_cons; congruence). lia.
Qed.

Definition owed (a : NvAppId) (s : t C) : nat := (wanting a (grant s) + running a (self s))%nat.

(** The processes are distinct, and a request waits only while an increment runs. *)
Definition inv (s : t C) : Prop :=
  NoDup (grant s).*1 ∧ (op_ongoing (self s) = false → none_waiting (grant s)).

Lemma for_each_inv f (s s' : t C) r : for_each f s = (Ok r, s') → each f (grant s) (self s) = (Ok (grant s'), self s').
Proof.
  unfold for_each, in_grant. rewrite bind_unfold.
  destruct (each f (grant s) (self s)) as [[g|[]|] c]; intros E; unfold mret, M_ret in E; by simplify_eq.
Qed.

Lemma callbacks_subscribed a (g g' : list (NvAppId * NvAppData)) :
  g'.*1 = g.*1 → (λ p, nv_callback p.2) <$> g' = (λ p, nv_callback p.2) <$> g → subscribed a g → subscribed a g'.
Proof.
  revert g'. induction g as [|[i d] g IH]; intros [|[i' d'] g'] Hi Hc Hs; try done.
  rewrite !fmap_cons in *. cbn [fst snd] in *. injection Hi as -> Hi. injection Hc as Hd Hc.
  apply Forall_cons in Hs as [Hs1 Hs]. constructor; [|by apply IH].
  cbn [fst snd] in *. by rewrite Hd.
Qed.

(** What an operation may do, when it owes [k a] answers to process [a]. *)
Definition op_ok (k : NvAppId → nat) (s s' : t C) : Prop :=
  inv s' ∧ (grant s').*1 = (grant s).*1 ∧
  (load (self s') + sum_list_with (λ p, w p.2) (grant s') <= load (self s) + sum_list_with (λ p, w p.2) (grant s))%nat ∧
  ∀ a, a ∈ (grant s).*1 → subscribed a (grant s) → subscribed a (grant s') ∧
    (answers a (self s') + owed a s' = answers a (self s) + owed a s + k a)%nat.

Lemma for_each_ok k f (s s' : t C) :
  (∀ id d c d' c', f id d c = (Ok d', c') → elem_ok k id d c d' c') →
  NoDup (grant s).*1 → for_each f s = (Ok tt, s') → op_ok k s s'.
Proof.
  intros Hf Hnd E%for_each_inv. destruct (each_ok _ _ _ _ _ _ Hf E) as (Hids & Hcbs & _ & Hnw & Hlo & Hans).
  split_and!; [split; [by rewrite Hids|done]|done|done|].
  intros a Ha Hs. split; [by eapply callbacks_subscribed|]. specialize (Hans a Hnd Hs).
  rewrite decide_True in Hans by done. unfold owed. lia.
Qed.

Lemma handle_failed_init_ok (s s' : t C) :
  NoDup (grant s).*1 → handle_failed_init s = (Ok tt, s') → op_ok (λ _, 0%nat) s s'.
Proof.
  intros Hnd. unfold handle_failed_init. intros (u & s1 & E1 & E)%bind_inv.
  unfold on_self, zoom, set_failed, modify in E1. simplify_eq.
  eapply for_each_ok in E; [exact E|apply fail_request_ok|exact Hnd].
Qed.

Lemma initialize_done_ok status (s s' : t C) :
  NoDup (grant s).*1 → initialize_done status s = (Ok tt, s') → op_ok (λ _, 0%nat) s s'.
Proof.
  intros Hnd. unfold initialize_done. case_bool_decide; [|by apply handle_failed_init_ok].
  intros (u & s1 & E1 & (u2 & s2 & E2 & E)%bind_inv)%bind_inv.
  unfold on_self, zoom, set_failed, set_value, modify in E1, E2. simplify_eq.
  eapply for_each_ok in E; [exact E|apply next_op_ok|exact Hnd].
Qed.

(** The state in which [increment_done] looks for the next request. *)
Lemma increment_done_split status (s s' : t C) : increment_done status s = (Ok tt, s') →
  do_next_op (Some (current_app (self s))) (if bool_decide (status = SUCCESS) then 2 else 1)
    (mk (mk_cells false (current_app (self s)) (init_failed (self s)) (nvcounter (self s))
       (if bool_decide (status = SUCCESS) then u32 (value (self s) + 1) else value (self s)) (upcalls (self s)))
      (grant s)) = (Ok tt, s').
Proof.
  unfold increment_done, gets, on_self, zoom, set_ongoing, set_value, modify, mbind, M_bind. cbn [self grant].
  by destruct (bool_decide (status = SUCCESS)).
Qed.

Lemma increment_done_ok status (s s' : t C) :
  NoDup (grant s).*1 → op_ongoing (self s) = true → increment_done status s = (Ok tt, s') →
  op_ok (λ _, 0%nat) s s' ∧
  (load (self s') + sum_list_with (λ p, w p.2) (grant s') < load (self s) + sum_list_with (λ p, w p.2) (grant s))%nat.
Proof.
  intros Hnd Ho E%increment_done_split.
  eapply for_each_ok in E as (Hi & Hids & Hlo & Hans); [|apply next_op_ok|exact Hnd].
  unfold load at 2 in Hlo. cbn [self grant op_ongoing] in *. assert (load (self s) = 1%nat) as Hl by (unfold load; by rewrite Ho).
  split; [|lia]. split_and!; [done|done|lia|]. intros a Ha Hs. destruct (Hans a Ha Hs) as [? Hb]. split; [done|].
  change (answers a _) with (answers a (self s)) in Hb at 2. unfold owed in Hb |- *.
  change (running a (self (mk _ _))) with 0%nat in Hb. cbn [grant] in Hb.
  assert (running a (self s) = if decide (Some (current_app (self s)) = Some a) then 1 else 0)%nat as ->; [|lia].
  unfold running. rewrite Ho. cbn [andb]. destruct (decide (current_app (self s) = a)) as [Heq|Hne].
  - rewrite bool_decide_eq_true_2, decide_True by congruence. done.
  - rewrite bool_decide_eq_false_2, decide_False by congruence. done.
Qed.

Lemma enter_list_spec app f g r g' : enter_list app f g = (r, g') →
  ((app ∉ g.*1) ∧ r = ENOMEM ∧ g' = g) ∨
  (∃ g1 d g2, g = g1 ++ (app, d) :: g2 ∧ (app ∉ g1.*1) ∧ g' = g1 ++ (app, (f d).2) :: g2 ∧ r = (f d).1).
Proof.
  revert r g'. induction g as [|[i d] g IH]; intros r g' E; cbn [enter_list] in E.
  { simplify_eq. left. split_and!; [apply not_elem_of_nil|done..]. }
  destruct (decide (i = app)) as [->|Hne].
  - destruct (f d) as [r0 d0] eqn:Ef. simplify_eq. right. exists [], d, g. rewrite Ef. split_and!; try done. apply not_elem_of_nil.
  - destruct (enter_list app f g) as [r0 g0]. simplify_eq.
    destruct (IH _ _ eq_refl) as [(Hn & -> & ->)|(g1 & d1 & g2 & -> & Hn & -> & ->)].
    + left. split_and!; [|done..]. rewrite fmap_cons. cbn [fst]. intros [?|?]%elem_of_cons; [congruence|done].
    + right. exists ((i, d) :: g1), d1, g2. split_and!; try done.
      rewrite fmap_cons. cbn [fst]. intros [?|?]%elem_of_cons; [congruence|done].
Qed.

(** Counting in a list with one entry of process [app] replaced. *)
Lemma wanting_replace a app d d' g1 g2 :
  (wanting a (g1 ++ (app, d') :: g2) + (if decide (app = a) then w d else 0) =
   wanting a (g1 ++ (app, d) :: g2) + if decide (app = a) then w d' else 0)%nat.
Proof.
  unfold wanting. rewrite !sum_list_with_app. cbn [sum_list_with fst snd].
  destruct (decide (app = a)); lia.
Qed.

(** The events of the driver: a request and its answer, a change of callback, the
    completions of the counter, and work of the counter on its own. *)
Inductive event :=
| Requested (app : NvAppId) (rc : ReturnCode)
| Subscribed (app : NvAppId) (cb : option nat) (rc : ReturnCode)
| IncrementEnded (status : ReturnCode)
| InitializeEnded (status : ReturnCode)
| CounterWorked.

(** The counter reports an end of an increment only while one runs. *)
Inductive nstep (s : t C) : event → t C → Prop :=
| ns_request app rc s' : command 1 app s = (Ok rc, s') → nstep s (Requested app rc) s'
| ns_subscribe app cb rc s' : subscribe 0 cb app s = (Ok rc, s') → nstep s (Subscribed app cb rc) s'
| ns_increment status s' : op_ongoing (self s) = true → increment_done status s = (Ok tt, s') →
    nstep s (IncrementEnded status) s'
| ns_initialize status s' : initialize_done status s = (Ok tt, s') → nstep s (InitializeEnded status) s'
| ns_counter n : nstep s CounterWorked (mk (set_counter n (self s)) (grant s)).

Inductive nruns : t C → list event → t C → Prop :=
| nruns_nil s : nruns s [] s
| nruns_cons s1 e s2 es s3 : nstep s1 e s2 → nruns s2 es s3 → nruns s1 (e :: es) s3.

Definition accepts (a : NvAppId) (e : event) : nat :=
  match e with Requested app SUCCESS => if decide (app = a) then 1 else 0 | _ => 0 end.

Definition accepted (a : NvAppId) (es : list event) : nat := sum_list_with (accepts a) es.

Definition unsubscribes (a : NvAppId) (e : event) : Prop :=
  match e with Subscribed app None _ => app = a | _ => False end.

(** [op_ok], for an operation that also may take a request. *)
Definition step_ok (s : t C) (e : event) (s' : t C) : Prop :=
  inv s' ∧ (grant s').*1 = (grant s).*1 ∧
  ∀ a, a ∈ (grant s).*1 → subscribed a (grant s) → ¬ unsubscribes a e → subscribed a (grant s') ∧
    (answers a (self s') + owed a s' = answers a (self s) + owed a s + accepts a e)%nat.

Lemma op_step_ok s e s' : op_ok (λ _, 0%nat) s s' → (∀ a, accepts a e = 0%nat) → step_ok s e s'.
Proof.
  intros (Hi & Hids & _ & Ha) He. split_and!; [done..|]. intros a Hin Hs _. rewrite He. by apply Ha.
Qed.

Lemma refused_step_ok s app rc c : inv s → rc ≠ SUCCESS → step_ok s (Requested app rc) (mk (set_counter c (self s)) (grant s)).
Proof.
  intros Hi Hrc. split_and!; [done..|]. intros a Ha Hs _. split; [done|].
  replace (accepts a (Requested app rc)) with 0%nat by (by destruct rc). rewrite Nat.add_0_r. done.
Qed.

Lemma enter_spec app f (s s' : t C) r : enter app f s = (Ok r, s') →
  self s' = self s ∧
  (((app ∉ (grant s).*1) ∧ r = ENOMEM ∧ grant s' = grant s) ∨
   (∃ g1 d g2, grant s = g1 ++ (app, d) :: g2 ∧ (app ∉ g1.*1) ∧ grant s' = g1 ++ (app, (f d).2) :: g2 ∧ r = (f d).1)).
Proof.
  unfold enter, in_grant, mret, M_ret. destruct (enter_list app f (grant s)) as [r0 g0] eqn:E.
  intros ?. simplify_eq. split; [done|]. by apply enter_list_spec.
Qed.

Lemma subscribe_step app cb rc (s s' : t C) :
  inv s → subscribe 0 cb app s = (Ok rc, s') → step_ok s (Subscribed app cb rc) s'.
Proof.
  intros [Hnd Hnw] E. apply enter_spec in E as [Hself [(_ & _ & Hg)|(g1 & d & g2 & Hg & Hn & Hg' & _)]].
  { assert (s' = s) as -> by (destruct s, s'; simpl in *; congruence). split_and!; [done..|].
    intros a _ Hs _. split; [done|]. simpl. lia. }
  unfold step_ok, inv, owed. rewrite Hself, Hg, Hg' in *. cbn [snd] in *.
  assert ((g1 ++ (app, mk_NvAppData (wants_increment d) cb) :: g2).*1 = (g1 ++ (app, d) :: g2).*1) as Hids
    by (by rewrite !fmap_app, !fmap_cons).
  rewrite Hids. split_and!; [done| |done|].
  - intros Hf. specialize (Hnw Hf). unfold none_waiting in *. apply Forall_app in Hnw as [? Hnw].
    apply Forall_cons in Hnw as [? ?]. apply Forall_app. split; [done|]. by constructor.
  - intros a Ha Hs Hu. split.
    + unfold subscribed in *. apply Forall_app in Hs as [? Hs]. apply Forall_cons in Hs as [? ?].
      apply Forall_app. split; [done|]. constructor; [|done]. cbn [fst snd nv_callback]. intros ->.
      destruct cb; [done|]. by destruct Hu.
    + pose proof (wanting_replace a app d (mk_NvAppData (wants_increment d) cb) g1 g2) as Hw.
      change (w (mk_NvAppData (wants_increment d) cb)) with (w d) in Hw. simpl accepts. lia.
Qed.

Lemma queue_step app (s s' : t C) rc : inv s → op_ongoing (self s) = true →
  (∀ d, (app, d) ∈ grant s → wants_increment d = false) →
  enter app (λ d, (SUCCESS, mk_NvAppData true (nv_callback d))) s = (Ok rc, s') →
  rc ≠ ENOMEM → step_ok s (Requested app rc) s'.
Proof.
  intros [Hnd Hnw] Ho Hwf E Hrc. apply enter_spec in E as [Hself [(_ & ? & Hg)|(g1 & d & g2 & Hg & Hn & Hg' & ->)]]; [done|].
  assert (wants_increment d = false) as Hd by (apply Hwf; rewrite Hg; apply elem_of_app; right; by left).
  unfold step_ok, inv, owed. rewrite Hself, Hg, Hg' in *. cbn [fst snd] in *.
  assert ((g1 ++ (app, mk_NvAppData true (nv_callback d)) :: g2).*1 = (g1 ++ (app, d) :: g2).*1) as Hids
    by (by rewrite !fmap_app, !fmap_cons).
  rewrite Hids, Ho. split_and!; [done..|]. intros a Ha Hs _. split.
  - unfold subscribed in *. apply Forall_app in Hs as [? Hs]. apply Forall_cons in Hs as [? ?].
    apply Forall_app. split; [done|]. by constructor.
  - pose proof (wanting_replace a app d (mk_NvAppData true (nv_callback d)) g1 g2) as Hw.
    unfold w in Hw at 1 2. rewrite Hd in Hw. cbn [wants_increment accepts] in *. destruct (decide (app = a)); lia.
Qed.

Lemma start_step app (s : t C) n v : inv s → op_ongoing (self s) = false →
  step_ok s (Requested app SUCCESS)
    (mk (mk_cells true app (init_failed (self s)) n v (upcalls (self s))) (grant s)).
Proof.
  intros [Hnd Hnw] Ho. split_and!; [done..|]. intros a Ha Hs _. split; [done|].
  unfold owed, running, answers. cbn [self grant op_ongoing current_app upcalls accepts andb]. rewrite Ho. cbn [andb].
  destruct (decide (app = a)) as [->|Hne].
  - rewrite bool_decide_eq_true_2 by done. lia.
  - rewrite bool_decide_eq_false_2 by done. lia.
Qed.

Lemma request_step app rc (s s' : t C) :
  inv s → command 1 app s = (Ok rc, s') → step_ok s (Requested app rc) s'.
Proof.
  intros Hi. change (command 1 app s) with (read_and_increment app s). unfold read_and_increment.
  assert (∀ rc, rc ≠ SUCCESS → step_ok s (Requested app rc) s) as Hsame.
  { intros rc' ?. pose proof (refused_step_ok s app rc' (nvcounter (self s)) Hi ltac:(done)) as Hr. by destruct s as [[] ?]. }
  rewrite bind_unfold. unfold gets at 1. destruct (init_failed (self s)); [intros E; unfold mret, M_ret in E; simplify_eq; by apply Hsame|].
  intros (r1 & s1 & E1%enter_spec & E)%bind_inv. destruct E1 as [Hself Hg].
  assert (s1 = s) as ->.
  { destruct s as [c g], s1 as [c1 g1']. simpl in *. destruct Hg as [(_ & _ & Hg)|(g1 & d & g2 & Hg & _ & Hg' & _)]; congruence. }
  case_bool_decide as Hr1; [unfold mret, M_ret in E; simplify_eq; by apply Hsame|].
  assert (r1 = SUCCESS) as -> by (destruct (decide (r1 = SUCCESS)); [assumption|by destruct Hr1]). clear Hr1 Hself.
  destruct Hg as [(_ & ? & _)|(g1 & d & g2 & Hg & Hn & _ & Hr)]; [done|].
  assert (wants_increment d = false) as Hd by (cbn [fst] in Hr; by destruct (wants_increment d)).
  rewrite bind_unfold in E. unfold gets in E. destruct (op_ongoing (self s)) eqn:Ho; cbn [negb] in E.
  - apply (queue_step app s s' rc Hi Ho); [|done|].
    + intros d' Hin. destruct Hi as [Hnd _]. rewrite Hg in Hin, Hnd.
      enough (d' = d) as -> by done. rewrite fmap_app, fmap_cons in Hnd. apply NoDup_app in Hnd as (_ & Hnd1 & Hnd2).
      apply NoDup_cons in Hnd2 as [Hnd2 _]. apply elem_of_app in Hin as [Hin|[Hin|Hin]%elem_of_cons]; [|congruence|];
        apply (list_elem_of_fmap_2 fst) in Hin; done.
    + apply enter_spec in E as [_ [(Hni & _)|(? & ? & ? & _ & _ & _ & ->)]]; [|done].
      destruct Hni. rewrite Hg, fmap_app, fmap_cons. apply elem_of_app. right. by left.
  - apply bind_inv in E as (r & s2 & E2 & E). unfold on_self, on_counter, zoom in E2.
    destruct (nv_read_and_increment (nvcounter (self s))) as [r' n']. simplify_eq.
    destruct r; unfold mret, M_ret in E; simplify_eq; try by apply (refused_step_ok s app _ n' Hi).
    unfold on_self, zoom, set_value, set_ongoing, set_current, set_counter, modify, mbind, M_bind in E.
    simplify_eq. exact (start_step app s n' _ Hi Ho).
Qed.

Lemma nstep_ok s e s' : inv s → nstep s e s' → step_ok s e s'.
Proof.
  intros Hi [app rc s1 E|app cb rc s1 E|status s1 Ho E|status s1 E|n].
  - by apply request_step.
  - by apply subscribe_step.
  - apply op_step_ok; [|done]. destruct (increment_done_ok status s s1) as [? _]; [apply Hi|done..].
  - apply op_step_ok; [|done]. by apply (initialize_done_ok status); [apply Hi|].
  - split_and!; [done..|]. intros a _ ? _. split; [done|]. cbn [accepts]. rewrite Nat.add_0_r. done.
Qed.

Lemma nruns_ok s es s' : inv s → nruns s es s' →
  inv s' ∧ (grant s').*1 = (grant s).*1 ∧
  ∀ a, a ∈ (grant s).*1 → subscribed a (grant s) → Forall (λ e, ¬ unsubscribes a e) es →
    (answers a (self s') + owed a s' = answers a (self s) + owed a s + accepted a es)%nat.
Proof.
  intros Hi Hr. induction Hr as [s|s1 e s2 es s3 Hs Hr IH].
  { split_and!; [done..|]. intros. unfold accepted. simpl. lia. }
  destruct (nstep_ok _ _ _ Hi Hs) as (Hi2 & Hids & Ha). destruct (IH Hi2) as (Hi3 & Hids' & Ha'). split_and!; [done|congruence|].
  intros a Hin Hsub Hu. apply Forall_cons in Hu as [Hu1 Hu]. destruct (Ha a Hin Hsub Hu1) as [Hsub2 Hb].
  specialize (Ha' a ltac:(congruence) Hsub2 Hu). unfold accepted in *. simpl. lia.
Qed.

Lemma inv_boot c apps : NoDup apps → inv (new c apps).
Proof.
  intros Hnd. assert ((new c apps).(grant).*1 = apps) as E.
  { simpl. rewrite <-list_fmap_compose. apply list_fmap_id. }
  split; [by rewrite E|]. intros _. simpl. apply Forall_fmap, Forall_true. done.
Qed.

Lemma owed_idle a (s : t C) : inv s → op_ongoing (self s) = false → owed a s = 0%nat.
Proof.
  intros [_ Hnw] Ho. specialize (Hnw Ho). unfold owed, running. rewrite Ho. cbn [andb]. rewrite Nat.add_0_r.
  unfold wanting. induction Hnw as [|[i d] g Hd _ IH]; [done|]. simpl in *. rewrite IH. unfold w. rewrite Hd. by destruct (decide _).
Qed.

(** A counter that always returns lets the driver return. *)
Definition returning : Prop := ∀ c, ∃ r c', nv_read_and_increment c = (Ok r, c').

Lemma next_op_returns cbid code id d (c : cells C) : returning → ∃ d' c', next_op cbid code id d c = (Ok d', c').
Proof.
  intros Hr. unfold next_op, start_wanted, gets, on_counter, zoom, mbind, M_bind, mret, M_ret.
  destruct (negb (op_ongoing c) && wants_increment d).
  - destruct (Hr (nvcounter c)) as (r & n & ->). destruct r; simpl; case_bool_decide; eauto.
  - case_bool_decide; eexists _, _; reflexivity.
Qed.

Lemma each_returns f g (c : cells C) : (∀ id d c, ∃ d' c', f id d c = (Ok d', c')) → ∃ g' c', each f g c = (Ok g', c').
Proof.
  intros Hf. revert c. induction g as [|[id d] g IH]; intros c; [by eexists _, _|]. cbn [each].
  destruct (Hf id d c) as (d' & c1 & E). destruct (IH c1) as (g' & c2 & E2).
  eexists _, _. rewrite (bind_ok _ _ _ _ _ E), (bind_ok _ _ _ _ _ E2). reflexivity.
Qed.

Lemma increment_done_returns status (s : t C) : returning → ∃ s', increment_done status s = (Ok tt, s').
Proof.
  intros Hr. unfold increment_done, do_next_op, for_each, in_grant.
  assert (∀ cb code g (c : cells C), ∃ g' c', each (next_op cb code) g c = (Ok g', c')) as He
    by (intros; apply each_returns; intros; by apply next_op_returns).
  unfold gets, on_self, zoom, set_ongoing, set_value, modify, mbind, M_bind. cbn [self grant].
  destruct (bool_decide (status = SUCCESS)); cbn [self grant];
    match goal with |- context [each (next_op ?cb ?code) ?g ?c] => destruct (He cb code g c) as (g' & c' & ->) end;
    by eexists.
Qed.

(** Completions alone empty the driver. *)
Lemma completions_drain s es s' : inv s → nruns s es s' → Forall (λ e, ∃ st, e = IncrementEnded st) es →
  (length es + (load (self s') + sum_list_with (λ p, w p.2) (grant s')) <=
   load (self s) + sum_list_with (λ p, w p.2) (grant s))%nat.
Proof.
  intros Hi Hr. induction Hr as [s|s1 e s2 es s3 Hs Hr IH]; intros Hf; [simpl; lia|].
  apply Forall_cons in Hf as [[st ->] Hf]. destruct (nstep_ok _ _ _ Hi Hs) as (Hi2 & _).
  specialize (IH Hi2 Hf). inversion Hs as [| |? ? Ho E| |]; subst.
  destruct (increment_done_ok st s1 s2) as [_ Hlt]; [apply Hi|done..|]. simpl. lia.
Qed.

End Accounting.
End NvSyscallFacts.

(** ** Theorems *)

Section Statements.
Import NvCounterSyscall NvSyscallFacts.


(** A counter that answers from a list. *)
#[local] Instance Script_Counter : Counter (list ReturnCode) :=
  {| nv_initialize := λ l, (Ok SUCCESS, l);
     nv_read_and_increment := λ l, match l with r :: l' => (Ok r, l') | [] => (Ok FAIL, []) end |}.

(** Runs of that counter, executed: [None] where the event is not what happens. *)
Definition exec (s : t (list ReturnCode)) (e : event) : option (t (list ReturnCode)) :=
  match e with
  | Requested app rc =>
      match command 1 app s with (Ok r, s') => if decide (r = rc) then Some s' else None | _ => None end
  | Subscribed app cb rc =>
      match subscribe 0 cb app s with (Ok r, s') => if decide (r = rc) then Some s' else None | _ => None end
  | IncrementEnded st =>
      if op_ongoing (self s) then match increment_done st s with (Ok _, s') => Some s' | _ => None end else None
  | InitializeEnded st => match initialize_done st s with (Ok _, s') => Some s' | _ => None end
  | CounterWorked => None
  end.

Fixpoint exec_all (s : t (list ReturnCode)) (es : list event) : option (t (list ReturnCode)) :=
  match es with [] => Some s | e :: es' => match exec s e with Some s' => exec_all s' es' | None => None end end.

Lemma exec_nstep s e s' : exec s e = Some s' → nstep s e s'.
Proof.
  destruct e as [app rc|app cb rc|st|st|]; simpl; intros E; [..|done].
  - destruct (command 1 app s) as [[r| |] s1] eqn:Ec; try done. destruct (decide (r = rc)); simplify_eq. by constructor.
  - destruct (subscribe 0 cb app s) as [[r| |] s1] eqn:Ec; try done. destruct (decide (r = rc)); simplify_eq. by constructor.
  - destruct (op_ongoing (self s)) eqn:Eo; [|done]. destruct (increment_done st s) as [[[]| |] s1] eqn:Ec; simplify_eq. by constructor.
  - destruct (initialize_done st s) as [[[]| |] s1] eqn:Ec; simplify_eq. by constructor.
Qed.

Lemma exec_nruns es s s' : exec_all s es = Some s' → nruns s es s'.
Proof.
  revert s. induction es as [|e es IH]; simpl; intros s E; [simplify_eq; constructor|].
  destruct (exec s e) as [s1|] eqn:E1; [|done]. econstructor; [by apply exec_nstep|by apply IH].
Qed.

Definition sample_prefix : list event :=
  [Subscribed 0 (Some 7%nat) SUCCESS; Subscribed 1 (Some 8%nat) SUCCESS; Requested 1 SUCCESS; Requested 0 SUCCESS].

(** Process 1's increment runs with value 4, process 0 waits. *)
Definition sample_mid : t (list ReturnCode) :=
  mk (mk_cells true 1 false [SuccessWithValue 5] 4 [])
     [(0%nat, mk_NvAppData true (Some 7%nat)); (1%nat, mk_NvAppData false (Some 8%nat))].
Definition sample_end : t (list ReturnCode) :=
  mk (mk_cells false 0 false [] 5 [mk_NvUpcall 1 8 2 5; mk_NvUpcall 0 7 1 5])
     [(0%nat, mk_NvAppData false (Some 7%nat)); (1%nat, mk_NvAppData false (Some 8%nat))].


End Statements.
