(* ===== verification/NvShared.v ===== *)
(** The counter as applications see it: the system-call driver of [NvSyscall] on the
    two-page counter of [NvCounter] on the flash device of [NvDevice], with
    interrupts, failed operations and power losses at any point. *)

From S2P Require Import Prelude Tock FlashHil NvCounter NvDevice NvAtomic NvSyscall.
From Stdlib Require Import ZArith Lia Sorting.Sorted.
From stdpp Require Import base decidable option list list_numbers.

#[local] Open Scope Z_scope.

Import NvCounterSyscall NvSyscallFacts.

Definition counter (s : t Sys) : Sys := nvcounter (self s).
Definition with_counter (k : Sys) (s : t Sys) : t Sys := mk (set_counter k (self s)) (grant s).

(** The call of the counter to its client, the driver. *)
Definition notify (c : option CounterCall) : K (t Sys) unit :=
  match c with
  | Some (IncrementDone status) => increment_done status
  | Some (InitializeDone status) => initialize_done status
  | None => mret tt
  end.

(** Flash operations that go on or end, and what the counter calls then. *)
Definition reports (e : NvAtomic.event) : option (option CounterCall) :=
  match e with
  | Progress => Some None
  | Completed c | Failed c => Some c
  | Returned _ | PowerLost => None
  end.

(** After a power loss the kernel starts afresh on the same flash; the list of
    upcalls goes on, as a record of what applications were told. *)
Definition restart (apps : list NvAppId) (s : t Sys) : t Sys :=
  mk (mk_cells false 0 false (reboot (counter s)) 0 (upcalls (self s))) (grant (new (counter s) apps)).

Inductive fstep (s : t Sys) : t Sys → Prop :=
| fs_command n app rc s' : command n app s = (Ok rc, s') → fstep s s'
| fs_subscribe n cb app rc s' : subscribe n cb app s = (Ok rc, s') → fstep s s'
| fs_counter e c k s' : sstep (counter s) e k → reports e = Some c →
    notify c (with_counter k s) = (Ok tt, s') → fstep s s'
| fs_lost apps : NoDup apps → fstep s (restart apps s).

Inductive freach (s0 : t Sys) : t Sys → Prop :=
| freach_refl : freach s0 s0
| freach_step s s' : freach s0 s → fstep s s' → freach s0 s'.

(** The values of the answers that say the increment was carried out. *)
Definition confirmed (c : cells Sys) : list Z := nv_arg2 <$> filter (λ u, nv_code u = 2) (upcalls c).

(** ** One pass over the processes *)

(** The counter agrees with the driver, at the value [v]. *)
Definition agrees (v : Z) (c : cells Sys) : Prop :=
  if op_ongoing c then R (nvcounter c) (ABusy v) ∧ value c = v ∧ v < MAX_COUNT else R (nvcounter c) (AIdle v).

Lemma call_idle v (k k' : Sys) r : R k (AIdle v) → nv_read_and_increment k = (Ok r, k') →
  match r with
  | SuccessWithValue v' => v' = v ∧ v < MAX_COUNT ∧ R k' (ABusy v)
  | _ => R k' (AIdle v)
  end.
Proof.
  intros HR E. destruct (sim_call k (AIdle v) r k' HR E) as (a' & Ha & HR').
  inversion Ha; subst; done.
Qed.

Lemma confirmed_snoc c o cur i n x u :
  confirmed (mk_cells o cur i n x (upcalls c ++ [u])) = confirmed c ++ if decide (nv_code u = 2) then [nv_arg2 u] else [].
Proof.
  unfold confirmed. cbn [upcalls]. rewrite filter_app, fmap_app, filter_cons, filter_nil.
  by destruct (decide (nv_code u = 2)).
Qed.

Lemma start_wanted_agrees v id d (c c' : cells Sys) d' :
  agrees v c → start_wanted id d c = (Ok d', c') →
  agrees v c' ∧ confirmed c' = confirmed c ∧ (value c = v → value c' = v).
Proof.
  intros Ha. unfold start_wanted. rewrite bind_unfold. unfold gets.
  destruct (negb (op_ongoing c) && wants_increment d) eqn:Eg; [|unfold mret, M_ret; intros E; by simplify_eq].
  apply andb_true_iff in Eg as [Hng _]. apply negb_true_iff in Hng. unfold agrees in Ha. rewrite Hng in Ha.
  intros (r & c1 & Er & E)%bind_inv. unfold on_counter, zoom in Er.
  destruct (nv_read_and_increment (nvcounter c)) as [r' n'] eqn:Ec. simplify_eq.
  pose proof (call_idle v _ _ r Ha Ec) as Hr.
  apply bind_inv in E as ([] & c2 & E2 & E). unfold mret, M_ret in E. simplify_eq.
  unfold schedule, set_value, set_ongoing, set_current, set_counter, modify, mbind, M_bind in E2.
  destruct r; simplify_eq; unfold agrees; cbn [op_ongoing nvcounter value]; rewrite ?Hng;
    try (destruct (nv_callback d); cbn [upcalls]; rewrite ?confirmed_snoc; cbn [nv_code]; rewrite ?app_nil_r; done).
  destruct Hr as (-> & Hm & HR). done.
Qed.

Lemma next_op_agrees v cbid code id d (c c' : cells Sys) d' :
  agrees v c → (code = 2 → value c = v) → next_op cbid code id d c = (Ok d', c') →
  agrees v c' ∧ (code = 2 → value c' = v) ∧
  (confirmed c' = confirmed c ∨ (code = 2 ∧ Some id = cbid ∧ confirmed c' = confirmed c ++ [v])).
Proof.
  intros Ha Hv. unfold next_op. intros (d1 & c1 & E1 & E)%bind_inv.
  destruct (start_wanted_agrees _ _ _ _ _ _ Ha E1) as (Ha1 & Hc1 & Hv1). rewrite bind_unfold in E. unfold gets in E.
  apply bind_inv in E as ([] & c2 & E2 & E). unfold mret, M_ret in E. simplify_eq.
  case_bool_decide as Hid; [|unfold mret, M_ret in E2; simplify_eq; split_and!; [done|auto|by left]].
  unfold schedule, modify in E2. simplify_eq. split_and!; [done|auto|].
  destruct (nv_callback d'); [|by left]. rewrite confirmed_snoc, Hc1. cbn [nv_code nv_arg2].
  destruct (decide (code = 2)) as [->|]; [|rewrite app_nil_r; by left].
  right. by rewrite Hv1 by auto.
Qed.

Lemma each_agrees v cbid code g (c c' : cells Sys) g' :
  agrees v c → (code = 2 → value c = v) → NoDup g.*1 → each (next_op cbid code) g c = (Ok g', c') →
  agrees v c' ∧ (confirmed c' = confirmed c ∨ (code = 2 ∧ cbid ∈ Some <$> g.*1 ∧ confirmed c' = confirmed c ++ [v])).
Proof.
  revert c g'. induction g as [|[id d] g IH]; intros c g' Ha Hv Hnd E; cbn [each] in E.
  { unfold mret, M_ret in E. simplify_eq. by split; [|left]. }
  apply bind_inv in E as (d1 & c1 & E1 & E). apply bind_inv in E as (g1 & c2 & E2 & E).
  unfold mret, M_ret in E. simplify_eq. rewrite fmap_cons in Hnd. apply NoDup_cons in Hnd as [Hni Hnd].
  destruct (next_op_agrees _ _ _ _ _ _ _ _ Ha Hv E1) as (Ha1 & Hv1 & H1).
  destruct (IH _ _ Ha1 Hv1 Hnd E2) as (Ha2 & H2). split; [done|]. rewrite !fmap_cons. cbn [fst] in *.
  destruct H1 as [H1|(Hc & Hid & H1)], H2 as [H2|(Hc2 & Hin & H2)]; rewrite H2, H1.
  - by left.
  - right. split_and!; [done|by right|done].
  - right. split_and!; [done|rewrite <-Hid; by left|done].
  - destruct Hni. subst cbid. apply list_elem_of_fmap in Hin as (y & Hy & Hin). by simplify_eq.
Qed.

(** ** The invariant of the system *)

Definition J (s : t Sys) : Prop :=
  NoDup (grant s).*1 ∧ StronglySorted Z.lt (confirmed (self s)) ∧
  ∃ v, 0 <= v ∧ agrees v (self s) ∧ Forall (λ x, x <= v) (confirmed (self s)).

Lemma R_nonneg k a : R k a → 0 <= avalue a.
Proof.
  assert (∀ m, 0 <= val m) as Hv by (intros m; apply value_bounds; apply count_bounds).
  destruct 1; rewrite ?avalue_abs; apply Hv.
Qed.

Lemma sorted_snoc l v : StronglySorted Z.lt l → Forall (λ x, x < v) l → StronglySorted Z.lt (l ++ [v]).
Proof.
  induction 1 as [|x l Hs IH Hx]; intros Hv; [repeat constructor|]. apply Forall_cons in Hv as [Hv1 Hv].
  simpl. constructor; [by apply IH|]. apply Forall_app. split; [done|by constructor].
Qed.

Lemma next_J v v0 cbid code (s s' : t Sys) :
  NoDup (grant s).*1 → StronglySorted Z.lt (confirmed (self s)) → 0 <= v → agrees v (self s) →
  Forall (λ x, x <= v0) (confirmed (self s)) → v0 <= v → (code = 2 → value (self s) = v ∧ v0 < v) →
  do_next_op cbid code s = (Ok tt, s') → J s'.
Proof.
  intros Hnd Hs Hv Ha Hle Hv0 Hc E%for_each_inv.
  destruct (each_ok _ _ _ _ _ _ (next_op_ok cbid code) E) as (Hids & _).
  destruct (each_agrees v cbid code _ _ _ _ Ha ltac:(intros; by apply Hc) Hnd E) as (Ha' & Hcf).
  split; [by rewrite Hids|]. destruct Hcf as [->|(-> & _ & ->)].
  - split; [done|]. exists v. split_and!; [done..|]. eapply Forall_impl; [done|]. simpl. lia.
  - destruct (Hc eq_refl) as [_ Hlt]. split.
    + apply sorted_snoc; [done|]. eapply Forall_impl; [done|]. simpl. lia.
    + exists v. split_and!; [done..|]. apply Forall_app. split; [eapply Forall_impl; [done|]; simpl; lia|].
      constructor; [lia|constructor].
Qed.

Lemma enter_J app f (s s' : t Sys) rc : J s → enter app f s = (Ok rc, s') → J s'.
Proof.
  intros (Hnd & HJ) [Hself Hg]%enter_spec. unfold J. rewrite Hself. split; [|done].
  destruct Hg as [(_ & _ & ->)|(g1 & d & g2 & Hg & _ & -> & _)]; [done|].
  rewrite Hg in Hnd. by rewrite fmap_app, fmap_cons in *.
Qed.

Lemma request_J app (s s' : t Sys) rc : J s → read_and_increment app s = (Ok rc, s') → J s'.
Proof.
  intros HJ. unfold read_and_increment. rewrite bind_unfold. unfold gets at 1.
  destruct (init_failed (self s)); [unfold mret, M_ret; intros E; by simplify_eq|].
  intros (r1 & s1 & E1 & E)%bind_inv. pose proof (enter_J _ _ _ _ _ HJ E1) as HJ1.
  case_bool_decide; [unfold mret, M_ret in E; by simplify_eq|].
  rewrite bind_unfold in E. unfold gets in E. destruct (op_ongoing (self s1)) eqn:Ho; cbn [negb] in E.
  { by apply (enter_J _ _ _ _ _ HJ1 E). }
  destruct HJ1 as (Hnd & Hs & v & Hv & Ha & Hle). unfold agrees in Ha. rewrite Ho in Ha.
  apply bind_inv in E as (r & s2 & E2 & E). unfold on_self, on_counter, zoom in E2.
  destruct (nv_read_and_increment (nvcounter (self s1))) as [r' n'] eqn:Ec. simplify_eq.
  pose proof (call_idle v _ _ r Ha Ec) as Hr.
  destruct r; unfold mret, M_ret in E;
    try (simplify_eq; split_and!; [done|done|exists v; unfold agrees; cbn [self set_counter op_ongoing nvcounter];
      rewrite ?Ho; by split_and!]).
  destruct Hr as (-> & Hm & HR).
  unfold on_self, zoom, set_value, set_ongoing, set_current, set_counter, modify, mbind, M_bind in E.
  simplify_eq. split_and!; [done|done|]. exists v. by split_and!.
Qed.

Lemma J_counter v v0 k (s : t Sys) :
  NoDup (grant s).*1 → StronglySorted Z.lt (confirmed (self s)) → 0 <= v →
  agrees v (set_counter k (self s)) → Forall (λ x, x <= v0) (confirmed (self s)) → v0 <= v → J (with_counter k s).
Proof.
  intros Hnd Hs Hv Ha Hle Hv0. split; [exact Hnd|]. split; [exact Hs|]. exists v. split; [exact Hv|]. split; [exact Ha|].
  eapply Forall_impl; [exact Hle|]. simpl. lia.
Qed.

Lemma notify_J (s s' : t Sys) e c k :
  J s → sstep (counter s) e k → reports e = Some c → notify c (with_counter k s) = (Ok tt, s') → J s'.
Proof.
  intros (Hnd & Hs & v & Hv & Ha & Hle) Hst Hrep E.
  assert (∀ a, R (counter s) a → ∃ a', astep a e a' ∧ R k a') as Hsim by (intros a HR; by apply (simulation _ _ _ _ HR)).
  unfold agrees in Ha. destruct (op_ongoing (self s)) eqn:Ho.
  - destruct Ha as (HR & Hval & Hmax). destruct (Hsim _ HR) as (a' & Hstep & HR').
    inversion Hstep; subst; simplify_eq; cbn [reports] in *; simplify_eq; cbn [notify] in E.
    1,2: unfold mret, M_ret in E; simplify_eq; apply (J_counter (value (self s)) (value (self s))); try done; try lia;
      unfold agrees; cbn [set_counter op_ongoing nvcounter value]; by rewrite Ho.
    + apply increment_done_split in E. rewrite bool_decide_eq_true_2 in E by done.
      cbn [self with_counter set_counter current_app init_failed nvcounter value upcalls grant] in E.
      rewrite u32_small in E by (unfold fits, MAX_COUNT in *; lia).
      eapply (next_J (value (self s) + 1) (value (self s))); [..|exact E]; try done; try (simpl; lia).
    + apply increment_done_split in E. rewrite bool_decide_eq_false_2 in E by done.
      cbn [self with_counter set_counter current_app init_failed nvcounter value upcalls grant] in E.
      eapply (next_J v' (value (self s))); [..|exact E]; try done; try lia.
  - destruct (Hsim _ Ha) as (a' & Hstep & HR'). pose proof (R_nonneg _ _ HR') as Hn.
    inversion Hstep; subst; simplify_eq; cbn [reports] in *; simplify_eq; cbn [notify] in E;
      unfold mret, M_ret in E; simplify_eq.
    all: match type of HR' with R _ (AIdle ?v') => apply (J_counter v' v) end; try done; try lia;
      unfold agrees; cbn [set_counter op_ongoing nvcounter value]; by rewrite Ho.
Qed.

Lemma restart_J apps (s : t Sys) : NoDup apps → J s → J (restart apps s).
Proof.
  intros Hnd (_ & Hs & v & Hv & Ha & Hle).
  assert (∃ a, R (counter s) a ∧ avalue a = v) as (a & HR & Hav)
    by (unfold agrees in Ha; destruct (op_ongoing (self s)); [destruct Ha as [Ha _]; exists (ABusy v)|exists (AIdle v)]; done).
  destruct (R_memory _ _ HR) as [Hmem Hval].
  destruct (sim_reboot (counter s) a Hmem Hval) as (a' & Hst & HR'). split_and!.
  - apply (inv_boot (counter s) apps Hnd).
  - done.
  - inversion Hst; subst. exists v'. split_and!; [by apply R_nonneg in HR'|done|].
    eapply Forall_impl; [done|]. simpl. lia.
Qed.

Lemma fstep_J s s' : J s → fstep s s' → J s'.
Proof.
  intros HJ [n app rc s1 E|n cb app rc s1 E|e c k s1 Hst Hrep E|apps Hnd].
  - unfold command in E. destruct (n =? 0); [unfold mret, M_ret in E; by simplify_eq|].
    destruct (n =? 1); [by eapply request_J|unfold mret, M_ret in E; by simplify_eq].
  - unfold subscribe in E. destruct (n =? 0); [by eapply enter_J|unfold mret, M_ret in E; by simplify_eq].
  - by eapply notify_J.
  - by apply restart_J.
Qed.

Lemma J_new m b apps : mem_ok m → NoDup apps → J (new (sys m None (Some [b]) None) apps).
Proof.
  intros Hm Hnd. split_and!; [by apply inv_boot|constructor|]. exists (val m).
  pose proof (R_idle m b Hm) as HR. split_and!; [by apply R_nonneg in HR|done|constructor].
Qed.

(** ** Theorem *)

(** C12: no two successful answers carry the same counter value, nor a smaller one
    after a larger.  From any valid flash contents, with any system calls of any
    processes, flash operations that go on, end or fail, and power losses at any
    point: the values of the callbacks that report a completed increment are
    strictly increasing in the order in which they were scheduled, over all
    processes and restarts. *)
Theorem shared_counter_increases (m : Z → Z) (b : Z) (apps : list NvAppId) (s : t Sys) :
  mem_ok m → NoDup apps → freach (new (sys m None (Some [b]) None) apps) s →
  StronglySorted Z.lt (confirmed (self s)).
Proof.
  intros Hm Hnd Hr. enough (J s) as (_ & Hs & _) by done.
  induction Hr as [|s s' Hr IH Hst]; [by apply J_new|by eapply fstep_J].
Qed.

(** A run: process 0 asks for an increment and the flash carries it out. *)
Definition sample_asked : t Sys :=
  (command 1 0 (subscribe 0 (Some 7%nat) 0 (new (sys blank None (Some [0]) None) [0%nat])).2).2.
Definition sample_op : DevOp := strike_op Low 0.
Definition sample_counted : option CounterCall * Sys :=
  match deliver sample_op SUCCESS (at_rest (finish sample_op (mem (FlashCounter.flash (counter sample_asked)))) (counter sample_asked)) with
  | (Ok c, k) => (c, k)
  | (_, k) => (None, k)
  end.
Definition sample_answered : t Sys := (notify sample_counted.1 (with_counter sample_counted.2 sample_asked)).2.

Lemma ok_pair {E A S} (x : outcome E A * S) r : x.1 = Ok r → x = (Ok r, x.2).
Proof. destruct x. simpl. by intros ->. Qed.

Lemma sample_reached : freach (new (sys blank None (Some [0]) None) [0%nat]) sample_answered.
Proof.
  eapply freach_step; [eapply freach_step; [eapply freach_step; [apply freach_refl|]|]|].
  - eapply fs_subscribe, (ok_pair (subscribe 0 (Some 7%nat) 0 _)). vm_compute. reflexivity.
  - eapply fs_command, (ok_pair (command 1 0 _)). vm_compute. reflexivity.
  - eapply (fs_counter sample_asked (Completed sample_counted.1) sample_counted.1 sample_counted.2).
    + apply (ss_complete _ sample_op); [vm_compute; reflexivity|].
      unfold sample_counted.
      destruct (deliver sample_op SUCCESS _) as [[c|[]|] k] eqn:E; [done|].
      exfalso. apply (f_equal (λ x, bool_decide (x.1 = Panic))) in E. vm_compute in E. discriminate.
    + done.
    + apply ok_pair. vm_compute. reflexivity.
Qed.

Lemma shared_counter_increases_witness :
  confirmed (self sample_answered) = [1] ∧ StronglySorted Z.lt (confirmed (self sample_answered)).
Proof.
  split; [vm_compute; reflexivity|].
  apply (shared_counter_increases blank 0 [0%nat] sample_answered); [exact blank_ok|by_compute|exact sample_reached].
Defined.
