(* ===== verification/FlashRefine.v ===== *)
(** * The flash driver implements the flash device

    The driver of [hil/flash/driver.rs] as an implementation of the device the
    counter is verified on: it accepts and refuses the same requests, keeps the
    operation it is running, and reports the end of that operation and no other. *)

From S2P Require Import Prelude Tock FlashHil NvCounter NvDevice.
From Stdlib Require Import ZArith Lia.
From stdpp Require Import base decidable option list list_numbers.

#[local] Open Scope Z_scope.

Section Refine.
Context {A H : Type} `{Alarm A} `{HardwareLaws H}.
Implicit Types d : Driver.t A H.

(** The word of flash the running operation starts at. *)
Definition target_of d : Z := bank_word (Driver.write_bank d) (Driver.write_bank_target d).

(** The operation the driver is running. *)
Definition op_of d : option DevOp :=
  match Driver.smart_program_state d with
  | None => None
  | Some _ =>
    if Driver.opcode d =? WRITE_OPCODE
    then Some (PWrite (target_of d) (default [] (Driver.write_data d)))
    else Some (PErase (target_of d / 512))
  end.

(** The call that ends an operation. *)
Definition ends (op : option DevOp) (c : ClientCall) : Prop :=
  match op, c with
  | Some (PErase _), EraseDone _ => True
  | Some (PWrite _ data), WriteDone data' _ => data = data'
  | _, _ => False
  end.

Lemma op_of_busy d : bool_decide (is_Some (op_of d)) = Driver.program_in_progress d.
Proof.
  unfold op_of, Driver.program_in_progress. destruct (Driver.smart_program_state d); [|done].
  by destruct (_ =? _).
Qed.

Lemma erase_refines d m page : 0 <= page < 2 ^ 23 →
  ∃ rc d', Driver.erase page d = (Ok rc, d') ∧
           dev_erase page (mk_Dev m (op_of d)) = (Ok rc, mk_Dev m (op_of d')).
Proof.
  intros Hp. unfold dev_erase. cbn [pending mem]. rewrite op_of_busy.
  assert (u32 (page * WORDS_PER_PAGE) = page * 512) as Hw by (rewrite page_wrap, Z.mod_small by done; done).
  pose proof (get_bank_split (page * 512) ltac:(lia)) as Hb. unfold WORDS_PER_BANK in Hb.
  destruct (DriverFacts.erase_cases page d) as [[-> E]|[(Hs & Hn & E)|(b & d' & Hs & Hn & E & _ & _ & Ho & Hwb & Hwt & Hs')]];
    rewrite E; [by eexists _, _| |]; rewrite Hw in Hn; rewrite Hn in Hb; unfold Driver.program_in_progress; rewrite Hs.
  - rewrite (proj2 (Z.ltb_ge _ _)) by lia. by eexists _, _.
  - destruct Hb as [Hlt Hbw]. rewrite (proj2 (Z.ltb_lt _ _)) by lia. eexists _, _. split; [done|].
    unfold op_of. rewrite Hs', Ho. unfold target_of. rewrite Hwb, Hwt, Hw.
    change WORDS_PER_BANK with 65536. rewrite Hbw, Z.div_mul by lia. done.
Qed.

Lemma write_refines d m target data : 0 <= target →
  ∃ r d', Driver.write target data d = (Ok r, d') ∧
          dev_write target data (mk_Dev m (op_of d)) = (Ok r, mk_Dev m (op_of d')).
Proof.
  intros Ht. unfold dev_write. cbn [pending mem]. rewrite op_of_busy.
  pose proof (get_bank_split target Ht) as Hb. unfold WORDS_PER_BANK in Hb.
  destruct (DriverFacts.write_cases target data d)
    as [[Hl E]|[(Hl & -> & E)|[(Hl & Hs & Hn & E)|(b & d' & Hl & Hs & Hn & E & _ & Hd & _ & _ & Ho & Hwb & Hwt & Hs')]]]; rewrite E.
  - rewrite (proj2 (Nat.ltb_lt _ _)) by lia. by eexists _, _.
  - rewrite (proj2 (Nat.ltb_ge _ _)) by lia. by eexists _, _.
  - rewrite (proj2 (Nat.ltb_ge _ _)) by lia. unfold Driver.program_in_progress. rewrite Hs. rewrite Hn in Hb.
    rewrite (proj2 (Z.ltb_ge _ _)) by lia. by eexists _, _.
  - rewrite (proj2 (Nat.ltb_ge _ _)) by lia. unfold Driver.program_in_progress. rewrite Hs. rewrite Hn in Hb.
    destruct Hb as [Hlt Hbw]. rewrite (proj2 (Z.ltb_lt _ _)) by lia. eexists _, _. split; [done|].
    unfold op_of. rewrite Hs', Ho, Hd. unfold target_of. rewrite Hwb, Hwt.
    change WORDS_PER_BANK with 65536. rewrite Hbw. done.
Qed.

Lemma alarm_refines d : DriverFacts.inv d →
  ∃ c d', Driver.alarm d = (Ok c, d') ∧
    match c with
    | None => op_of d' = op_of d
    | Some c => ends (op_of d) c ∧ op_of d' = None
    end.
Proof.
  intros Hi. destruct (DriverFacts.alarm_cases d Hi)
    as [[_ E]|(s & d' & Hs & _ & [(s' & E & Hs' & _ & Hd & Ho & Hb & Ht)|(rc & Hs' & [[Ho E]|(Ho & data & Hd & E)])])];
    eexists _, _; (split; [exact E|]).
  - done.
  - unfold op_of, target_of. by rewrite Hs, Hs', Hd, Ho, Hb, Ht.
  - unfold op_of. by rewrite Hs, Hs', Ho.
  - unfold op_of. by rewrite Hs, Hs', Ho, Hd.
Qed.

End Refine.


