(* ===== verification/VirtualFlash.v ===== *)
(** * Sharing the flash ([kernel/h1/src/hil/flash/virtual_flash.rs])

    [MuxFlash] and its [FlashUser]s.  Users are named by numbers; [users] is the
    mux's list, most recently linked first.  What a user's client does when it is
    called is a parameter: the requests it makes before it returns. *)

From S2P Require Import Prelude Tock FlashHil NvCounter NvDevice.
From Stdlib Require Import ZArith Lia.
From stdpp Require Import base decidable option list list_numbers.

#[local] Open Scope Z_scope.

Inductive Operation := OpIdle | OpWrite (offset : Z) | OpErase (page : Z).

#[global] Instance Operation_eq_dec : EqDecision Operation.
Proof. solve_decision. Defined.

Record FlashUser := mk_FlashUser {
  fu_buffer : option (list Z);
  fu_write_len : Z;
  fu_write_pos : Z;
  operation : Operation;
  fu_client : bool;
}.

Definition FlashUser_new : FlashUser := mk_FlashUser None 0 0 OpIdle false.

Inductive Request := ReqErase (page : Z) | ReqWrite (target : Z) (data : list Z).

Module MuxFlash.
Section MuxFlash.
Context {F : Type} `{Flash F}.

(** [calls] records the calls made to the users' clients. *)
Record t := mk {
  driver : F;
  users : list nat;
  node : nat → FlashUser;
  in_flight : option nat;
  calls : list (nat * ClientCall);
}.

Definition new (d : F) : t := mk d [] (λ _, FlashUser_new) None [].

Definition set_driver (d : F) (self : t) : t :=
  mk d (users self) (node self) (in_flight self) (calls self).
Definition set_node (u : nat) (n : FlashUser) (self : t) : t :=
  mk (driver self) (users self) (λ v, if decide (v = u) then n else node self v) (in_flight self) (calls self).
Definition set_in_flight (o : option nat) (self : t) : t :=
  mk (driver self) (users self) (node self) o (calls self).
Definition set_operation (u : nat) (op : Operation) (self : t) : t :=
  let n := node self u in
  set_node u (mk_FlashUser (fu_buffer n) (fu_write_len n) (fu_write_pos n) op (fu_client n)) self.

Definition on_driver {B} (m : K F B) : K t B := zoom driver set_driver m.

Definition busy (n : FlashUser) : bool := negb (bool_decide (operation n = OpIdle)).

Definition do_next_op : K t unit :=
  o ← gets in_flight;
  if bool_decide (is_Some o) then mret tt
  else
    mnode ← gets (λ self, snd <$> list_find (λ u, busy (node self u)) (users self));
    match mnode with
    | None => mret tt
    | Some u =>
      buffer ← gets (λ self, fu_buffer (node self u));
      modify (λ self, let n := node self u in
        set_node u (mk_FlashUser None (fu_write_len n) (fu_write_pos n) (operation n) (fu_client n)) self) ;;
      op ← gets (λ self, operation (node self u));
      (match buffer with
       | None =>
         match op with
         | OpErase page_number => _ ← on_driver (flash_erase page_number); mret tt
         | _ => mret tt
         end
       | Some buf =>
         match op with
         | OpWrite offset => _ ← on_driver (flash_write offset buf); mret tt
         | OpErase page_number => _ ← on_driver (flash_erase page_number); mret tt
         | OpIdle => mret tt
         end
       end) ;;
      modify (set_in_flight (Some u))
    end.

(** [FlashUser]'s implementation of [Flash]. *)
Definition user_erase (u : nat) (page : Z) : K t ReturnCode :=
  n ← gets (λ self, node self u);
  if busy n then mret EBUSY
  else modify (set_operation u (OpErase page)) ;; do_next_op ;; mret SUCCESS.

Definition user_write (u : nat) (target : Z) (data : list Z) : K t (ReturnCode * option (list Z)) :=
  n ← gets (λ self, node self u);
  if busy n then mret (EBUSY, Some data)
  else
    modify (set_node u (mk_FlashUser (Some data) (u32 (Z.of_nat (length data))) target
                                     (OpWrite target) (fu_client n))) ;;
    do_next_op ;; mret (SUCCESS, None).

Definition user_read (word : Z) (self : t) : ReturnCode := flash_read word (driver self).

Definition user_set_client (u : nat) : K t unit :=
  modify (λ self, let n := node self u in
    set_node u (mk_FlashUser (fu_buffer n) (fu_write_len n) (fu_write_pos n) (operation n) true)
      (mk (driver self) (u :: users self) (node self) (in_flight self) (calls self))).

Definition request (u : nat) (r : Request) : K t unit :=
  match r with
  | ReqErase page => _ ← user_erase u page; mret tt
  | ReqWrite target data => _ ← user_write u target data; mret tt
  end.

Fixpoint requests (rs : list (nat * Request)) : K t unit :=
  match rs with
  | [] => mret tt
  | (u, r) :: rs' => request u r ;; requests rs'
  end.

Context (react : nat → ClientCall → list (nat * Request)).

(** [FlashUser]'s implementation of [Client]: [erase_done] and [write_done]. *)
Definition user_done (u : nat) (c : ClientCall) : K t unit :=
  modify (set_operation u OpIdle) ;;
  linked ← gets (λ self, fu_client (node self u));
  if (linked : bool) then
    modify (λ self, mk (driver self) (users self) (node self) (in_flight self) (calls self ++ [(u, c)])) ;;
    requests (react u c)
  else mret tt.

(** [MuxFlash]'s implementation of [Client]. *)
Definition mux_done (c : ClientCall) : K t unit :=
  o ← gets in_flight;
  modify (set_in_flight None) ;;
  (match o with Some u => user_done u c | None => mret tt end) ;;
  do_next_op.

End MuxFlash.
Arguments t : clear implicits.
End MuxFlash.

(** ** The mux on the flash device *)

Module MuxFacts.
Import MuxFlash.

Implicit Types s : MuxFlash.t Dev.

(** A request the flash accepts when it is idle. *)
Definition valid_request (r : Request) : Prop :=
  match r with
  | ReqErase page => 0 <= page < 256
  | ReqWrite target data => 0 <= target < 0x20000 ∧ (length data <= 32)%nat
  end.

(** What the device runs is what the user in flight asked for. *)
Definition matches (o : Operation) (op : DevOp) : Prop :=
  match o, op with
  | OpErase page, PErase page' => page = page'
  | OpWrite target, PWrite target' _ => target = target'
  | _, _ => False
  end.

(** A waiting write still has its buffer; one in flight has given it up. *)
Definition node_ok (running : bool) (n : FlashUser) : Prop :=
  match operation n with
  | OpIdle => running = false ∧ fu_buffer n = None
  | OpErase page => 0 <= page < 256 ∧ fu_buffer n = None
  | OpWrite target => 0 <= target < 0x20000 ∧
      if running then fu_buffer n = None else ∃ data, fu_buffer n = Some data ∧ (length data <= 32)%nat
  end.

Definition inv s : Prop :=
  (∀ u, node_ok (bool_decide (in_flight s = Some u)) (node s u)) ∧
  match in_flight s with
  | Some u => ∃ op, pending (driver s) = Some op ∧ matches (operation (node s u)) op
  | None => pending (driver s) = None
  end.

(** The mux is not idle while a linked user waits. *)
Definition conserving s : Prop :=
  in_flight s = None → ∀ u, u ∈ users s → operation (node s u) = OpIdle.

(** What [do_next_op] leaves alone. *)
Definition same_requests s s' : Prop :=
  users s' = users s ∧ calls s' = calls s ∧ mem (driver s') = mem (driver s) ∧
  ∀ u, operation (node s' u) = operation (node s u) ∧ fu_client (node s' u) = fu_client (node s u).

Lemma same_requests_refl s : same_requests s s.
Proof. done. Qed.

Lemma busy_spec n : busy n = true ↔ operation n ≠ OpIdle.
Proof. unfold busy. case_bool_decide; split; simpl; congruence. Qed.

Lemma do_next_op_busy s u : in_flight s = Some u → do_next_op s = (Ok tt, s).
Proof. intros Hu. unfold do_next_op. rewrite bind_unfold. simpl. by rewrite Hu. Qed.

Lemma do_next_op_idle s : in_flight s = None → (∀ u, u ∈ users s → operation (node s u) = OpIdle) →
  do_next_op s = (Ok tt, s).
Proof.
  intros Hn Hi. unfold do_next_op. rewrite bind_unfold. simpl. rewrite Hn. simpl. rewrite bind_unfold. simpl.
  rewrite (proj2 (list_find_None _ _)); [done|]. rewrite Forall_forall. intros u Hu Hb.
  apply Is_true_true, busy_spec in Hb. by apply Hb, Hi.
Qed.

(** The state after user [u]'s operation has been handed to the device. *)
Definition started s (u : nat) (op : DevOp) : MuxFlash.t Dev :=
  let n := node s u in
  set_in_flight (Some u) (set_driver (mk_Dev (mem (driver s)) (Some op))
    (set_node u (mk_FlashUser None (fu_write_len n) (fu_write_pos n) (operation n) (fu_client n)) s)).

Lemma started_ok s u op : inv s → in_flight s = None → matches (operation (node s u)) op →
  inv (started s u op) ∧ conserving (started s u op) ∧ same_requests s (started s u op).
Proof.
  intros [Hnodes _] Ef Hmatch. rewrite Ef in Hnodes. split_and!; [split| |split_and!; try done].
  - intros v. specialize (Hnodes v). simpl. rewrite bool_decide_eq_false_2 in Hnodes by done.
    destruct (decide (v = u)) as [->|Hv].
    + rewrite bool_decide_eq_true_2 by done. unfold node_ok in *. simpl.
      destruct (operation (node s u)), op; simpl in Hmatch; try done; by destruct Hnodes.
    + by rewrite bool_decide_eq_false_2 by congruence.
  - simpl. rewrite decide_True by done. eauto.
  - intros Hn. done.
  - intros v. simpl. destruct (decide (v = u)) as [->|]; done.
Qed.

Lemma do_next_op_ok s : inv s →
  ∃ s', do_next_op s = (Ok tt, s') ∧ inv s' ∧ conserving s' ∧ same_requests s s'.
Proof.
  intros Hinv. pose proof Hinv as [Hnodes Hfl]. destruct (in_flight s) as [u|] eqn:Ef.
  { exists s. rewrite (do_next_op_busy s u Ef). split; [done|]. split; [done|]. split; [|done]. intros Hn. congruence. }
  destruct (list_find (λ u, busy (node s u)) (users s)) as [[i u]|] eqn:Efind.
  2: { apply list_find_None in Efind. rewrite Forall_forall in Efind.
       assert (∀ u, u ∈ users s → operation (node s u) = OpIdle) as Hi.
       { intros u Hu. destruct (decide (operation (node s u) = OpIdle)) as [|Hb]; [done|].
         destruct (Efind u Hu). apply Is_true_true. by apply busy_spec. }
       exists s. rewrite (do_next_op_idle s Ef Hi). split; [done|]. split; [done|]. split; [intros _; exact Hi|done]. }
  apply list_find_Some in Efind as Hfind. destruct Hfind as (Hi & Hb & _).
  apply Is_true_true, busy_spec in Hb. pose proof (Hnodes u) as Hu.
  pose proof (started_ok s u) as Hst. unfold started in Hst.
  unfold do_next_op. rewrite bind_unfold. simpl. rewrite Ef. simpl. rewrite bind_unfold. simpl. rewrite Efind. simpl.
  unfold mbind, M_bind. simpl. rewrite decide_True by done. simpl.
  unfold node_ok in Hu. destruct (operation (node s u)) as [|target|page] eqn:Eop; [done|..].
  - destruct Hu as [Ht (data & Hbuf & Hlen)]. rewrite Hbuf. unfold on_driver, zoom. simpl. unfold dev_write.
    rewrite Hfl. rewrite (proj2 (Nat.ltb_ge _ _)) by lia. simpl. rewrite (proj2 (Z.ltb_lt _ _)) by lia. simpl.
    eexists. split; [reflexivity|]. by apply Hst.
  - destruct Hu as [Hp Hbuf]. rewrite Hbuf. unfold on_driver, zoom. simpl. unfold dev_erase.
    rewrite Hfl. simpl. rewrite (proj2 (Z.ltb_lt _ _)) by lia. simpl.
    eexists. split; [reflexivity|]. by apply Hst.
Qed.

(** ** Requests *)

Lemma inv_set_node s u n : inv s → in_flight s ≠ Some u → node_ok false n → inv (set_node u n s).
Proof.
  intros [Hnodes Hfl] Hu Hn. split; simpl.
  - intros v. destruct (decide (v = u)) as [->|]; [by rewrite bool_decide_eq_false_2|apply Hnodes].
  - destruct (in_flight s) as [v|]; [|done]. rewrite decide_False by congruence. done.
Qed.

Lemma idle_not_in_flight s u : inv s → operation (node s u) = OpIdle → in_flight s ≠ Some u.
Proof.
  intros [Hnodes _] Hi Hf. specialize (Hnodes u). unfold node_ok in Hnodes.
  rewrite Hi, bool_decide_eq_true_2 in Hnodes by done. by destruct Hnodes.
Qed.

(** A valid request of user [u] is refused while one is outstanding and otherwise
    recorded; nobody is called. *)
Lemma request_ok s u r : inv s → valid_request r →
  ∃ s', request u r s = (Ok tt, s') ∧ inv s' ∧ (conserving s → conserving s') ∧
        users s' = users s ∧ calls s' = calls s ∧ mem (driver s') = mem (driver s) ∧
        (∀ v, fu_client (node s' v) = fu_client (node s v)) ∧
        (∀ v, v ≠ u → operation (node s' v) = operation (node s v)).
Proof.
  intros Hinv Hv. destruct (decide (operation (node s u) = OpIdle)) as [Hi|Hb].
  2: { exists s. split; [|done]. apply busy_spec in Hb.
       destruct r; unfold request, user_erase, user_write; rewrite !bind_unfold; simpl; by rewrite Hb. }
  assert (busy (node s u) = false) as Hbusy by (unfold busy; by rewrite bool_decide_eq_true_2).
  pose proof (idle_not_in_flight s u Hinv Hi) as Hnf.
  pose proof (proj1 Hinv u) as Hn. rewrite bool_decide_eq_false_2 in Hn by done.
  unfold node_ok in Hn. rewrite Hi in Hn. destruct Hn as [_ Hbuf].
  destruct r as [page|target data]; simpl in Hv.
  - destruct (do_next_op_ok (set_operation u (OpErase page) s)) as (s' & Hd & Hi' & Hc & Hu & Hcalls & Hm & Hsame).
    { apply inv_set_node; [done..|]. unfold node_ok. simpl. done. }
    exists s'. split; [|split_and!; try done; intros v].
    + unfold request, user_erase, mbind, M_bind, gets, modify. by rewrite Hbusy, Hd.
    + destruct (Hsame v) as [_ ->]. simpl. by destruct (decide (v = u)) as [->|].
    + intros Hne. destruct (Hsame v) as [-> _]. simpl. by rewrite decide_False.
  - destruct (do_next_op_ok (set_node u (mk_FlashUser (Some data) (u32 (Z.of_nat (length data))) target
        (OpWrite target) (fu_client (node s u))) s)) as (s' & Hd & Hi' & Hc & Hu & Hcalls & Hm & Hsame).
    { apply inv_set_node; [done..|]. unfold node_ok. simpl. destruct Hv. eauto. }
    exists s'. split; [|split_and!; try done; intros v].
    + unfold request, user_write, mbind, M_bind, gets, modify. by rewrite Hbusy, Hd.
    + destruct (Hsame v) as [_ ->]. simpl. by destruct (decide (v = u)) as [->|].
    + intros Hne. destruct (Hsame v) as [-> _]. simpl. by rewrite decide_False.
Qed.

Lemma requests_ok rs s : inv s → Forall (λ p, valid_request p.2) rs →
  ∃ s', requests rs s = (Ok tt, s') ∧ inv s' ∧ (conserving s → conserving s') ∧
        users s' = users s ∧ calls s' = calls s ∧ mem (driver s') = mem (driver s) ∧
        (∀ v, fu_client (node s' v) = fu_client (node s v)).
Proof.
  revert s. induction rs as [|[u r] rs IH]; intros s Hi Hv; [by exists s|].
  apply Forall_cons in Hv as [Hr Hv]. destruct (request_ok s u r Hi Hr) as (s1 & E1 & Hi1 & Hc1 & Hu1 & Hcl1 & Hm1 & Hf1 & _).
  destruct (IH s1 Hi1 Hv) as (s2 & E2 & Hi2 & Hc2 & Hu2 & Hcl2 & Hm2 & Hf2). exists s2.
  simpl. rewrite bind_unfold, E1. split_and!; [done|done|auto|congruence..|]. intros v. by rewrite Hf2, Hf1.
Qed.

Section Completion.
Context (react : nat → ClientCall → list (nat * Request)).
Context (Hreact : ∀ u c, Forall (λ p, valid_request p.2) (react u c)).

(** The device ends its operation: memory [m'], nothing pending. *)
Definition device_done (m' : Z → Z) s : MuxFlash.t Dev := set_driver (mk_Dev m' None) s.

Lemma mux_done_ok s u c m' : inv s → in_flight s = Some u → fu_client (node s u) = true →
  ∃ s', mux_done react c (device_done m' s) = (Ok tt, s') ∧ inv s' ∧ conserving s' ∧
        users s' = users s ∧ calls s' = calls s ++ [(u, c)] ∧ mem (driver s') = m' ∧
        (∀ v, fu_client (node s' v) = fu_client (node s v)).
Proof.
  intros [Hnodes Hfl] Ef Hcl.
  set (s1 := set_operation u OpIdle (set_in_flight None (device_done m' s))).
  assert (inv s1) as Hi1.
  { split; [|done]. intros v. unfold s1. simpl. specialize (Hnodes v). rewrite Ef in Hnodes.
    destruct (decide (v = u)) as [->|Hv].
    - rewrite bool_decide_eq_true_2 in Hnodes by done. unfold node_ok in *. simpl. destruct (operation (node s u)); by destruct Hnodes.
    - by rewrite bool_decide_eq_false_2 in Hnodes by congruence. }
  set (s2 := mk (driver s1) (users s1) (node s1) (in_flight s1) (calls s1 ++ [(u, c)])).
  assert (inv s2) as Hi2 by exact Hi1.
  destruct (requests_ok (react u c) s2 Hi2 (Hreact u c)) as (s3 & E3 & Hi3 & _ & Hu3 & Hc3 & Hm3 & Hf3).
  destruct (do_next_op_ok s3 Hi3) as (s4 & E4 & Hi4 & Hcons4 & Hu4 & Hc4 & Hm4 & Hsame4).
  exists s4. split_and!; [|done|done|by rewrite Hu4, Hu3|by rewrite Hc4, Hc3|by rewrite Hm4, Hm3|].
  - unfold mux_done, user_done, mbind, M_bind, gets, modify. simpl. rewrite Ef. simpl.
    rewrite decide_True by done. simpl. rewrite Hcl.
    change (requests (react u c) _) with (requests (react u c) s2). by rewrite E3, E4.
  - intros v. destruct (Hsame4 v) as [_ ->]. rewrite Hf3. unfold s2, s1. simpl.
    by destruct (decide (v = u)) as [->|].
Qed.

(** Users linked at boot, then valid requests and device completions in any order. *)
Inductive reachable : MuxFlash.t Dev → Prop :=
| reach_boot m us : reachable (mk (mk_Dev m None) us
    (λ _, mk_FlashUser None 0 0 OpIdle true) None [])
| reach_request s s' u r : reachable s → u ∈ users s → valid_request r → request u r s = (Ok tt, s') → reachable s'
| reach_done s s' op m' c : reachable s → pending (driver s) = Some op →
    mux_done react c (device_done m' s) = (Ok tt, s') → reachable s'.

Lemma reachable_inv s : reachable s → inv s ∧ conserving s ∧ ∀ v, fu_client (node s v) = true.
Proof.
  induction 1 as [m us|s s' u r _ (Hi & Hc & Hf) _ Hv Hr|s s' op m' c _ (Hi & Hc & Hf) Hp Hd].
  - split_and!; [split|..]; done.
  - destruct (request_ok s u r Hi Hv) as (s1 & E & Hi1 & Hc1 & _ & _ & _ & Hf1 & _). rewrite Hr in E. simplify_eq.
    split_and!; [done|auto|]. intros v. by rewrite Hf1.
  - destruct (in_flight s) as [u|] eqn:Ef.
    + destruct (mux_done_ok s u c m' Hi Ef (Hf u)) as (s1 & E & Hi1 & Hc1 & _ & _ & _ & Hf1). rewrite Hd in E. simplify_eq.
      split_and!; [done..|]. intros v. by rewrite Hf1.
    + destruct Hi as [_ Hi]. rewrite Ef in Hi. congruence.
Qed.

End Completion.
End MuxFacts.

(** ** Theorems *)


Definition no_reaction : nat → ClientCall → list (nat * Request) := λ _ _, [].
Definition sample_mux : MuxFlash.t Dev :=
  MuxFlash.mk (mk_Dev (λ _, 0xFFFFFFFF) None) [0%nat; 1%nat] (λ _, mk_FlashUser None 0 0 OpIdle true) None [].


(** A request the flash refuses blocks the mux for good.  [do_next_op] ignores the
    driver's answer and marks the user in flight although nothing was started, so
    an idle mux that is handed an erase of a page out of range tells its user
    success, and then answers every further request without starting anything:
    no completion will ever clear the mark. *)
Theorem mux_refused_request_blocks (m : Z → Z) (us : list nat) (u : nat) (page : Z) (rs : list (nat * Request)) :
  u ∈ us → 256 <= page →
  let s := MuxFlash.mk (mk_Dev m None) us (λ _, mk_FlashUser None 0 0 OpIdle true) None [] in
  ∃ s1, MuxFlash.user_erase u page s = (Ok SUCCESS, s1) ∧
    ∃ s2, MuxFlash.requests rs s1 = (Ok tt, s2) ∧ MuxFlash.in_flight s2 = Some u ∧
          pending (MuxFlash.driver s2) = None ∧ MuxFlash.calls s2 = [].
Proof.
  intros Hu Hp s.
  set (s0 := MuxFlash.set_operation u (OpErase page) s).
  assert (∃ s1, MuxFlash.do_next_op s0 = (Ok tt, s1) ∧ MuxFlash.in_flight s1 = Some u ∧
            pending (MuxFlash.driver s1) = None ∧ MuxFlash.calls s1 = []) as (s1 & E1 & Hstuck).
  { assert (∃ i, list_find (λ v, MuxFlash.busy (MuxFlash.node s0 v)) us = Some (i, u)) as [i Hfind].
    { destruct (list_find_elem_of (λ v, MuxFlash.busy (MuxFlash.node s0 v)) us u Hu) as [[i v] Hf].
      - unfold s0. simpl. by rewrite decide_True.
      - exists i. rewrite Hf. apply list_find_Some in Hf as (_ & Hb & _). unfold s0 in Hb. simpl in Hb.
        destruct (decide (v = u)) as [->|]; done. }
    unfold MuxFlash.do_next_op. rewrite bind_unfold. simpl. rewrite bind_unfold. cbn [gets].
    change (MuxFlash.users s0) with us. rewrite Hfind. unfold mbind, M_bind. simpl.
    rewrite !decide_True by done. simpl. unfold MuxFlash.on_driver, zoom. simpl. unfold dev_erase. simpl.
    rewrite (proj2 (Z.ltb_ge _ _)) by lia. eexists. split; [reflexivity|]. done. }
  exists s1. split.
  { unfold MuxFlash.user_erase, mbind, M_bind, gets, modify. simpl. change (MuxFlash.set_operation u (OpErase page) s) with s0. by rewrite E1. }
  clear E1. revert s1 Hstuck. induction rs as [|[v r] rs IH]; intros s1 Hstuck; [by exists s1|].
  assert (∃ s2, MuxFlash.request v r s1 = (Ok tt, s2) ∧ MuxFlash.in_flight s2 = Some u ∧
            pending (MuxFlash.driver s2) = None ∧ MuxFlash.calls s2 = []) as (s2 & E2 & Hs2).
  { destruct Hstuck as (Hf & Hpend & Hc).
    destruct r; unfold MuxFlash.request, MuxFlash.user_erase, MuxFlash.user_write, mbind, M_bind, gets, modify;
      (destruct (MuxFlash.busy _); [by exists s1|]); rewrite (MuxFacts.do_next_op_busy _ u) by done; eexists; done. }
  destruct (IH s2 Hs2) as (s3 & E3 & Hs3). exists s3. split; [|done]. simpl. by rewrite bind_unfold, E2.
Qed.

Lemma mux_refused_request_blocks_witness :
  ∃ s1, MuxFlash.user_erase 1 256 sample_mux = (Ok SUCCESS, s1) ∧
    ∃ s2, MuxFlash.requests [(0%nat, ReqErase 3)] s1 = (Ok tt, s2) ∧ MuxFlash.in_flight s2 = Some 1%nat ∧
          pending (MuxFlash.driver s2) = None ∧ MuxFlash.calls s2 = [].
Proof.
  apply (mux_refused_request_blocks (λ _, 0xFFFFFFFF) [0%nat; 1%nat] 1 256 [(0%nat, ReqErase 3)]).
  - by_compute.
  - lia.
Defined.
