(* ===== verification/Sfdp.v ===== *)
(** The SFDP (JESD216A) table that the otpilot application publishes on its SPI
    device port (userspace/otpilot/src/sfdp.rs), and a reader of such tables.

    [get_table] writes 104 bytes: the SFDP header, two parameter headers, the
    sixteen-DWORD basic flash parameter table and Google's four-DWORD table.
    The table is cut here at the DWORDs of the standard.  The reader
    ([sfdp_find]) is what an SPI host does: it checks the signature, walks the
    parameter headers and follows their table pointers; the theorems are stated
    through it. *)

From S2P Require Import Prelude Io FlashProto.
From Stdlib Require Import ZArith Lia.
From stdpp Require Import base decidable option list list_numbers.

#[local] Open Scope Z_scope.
#[local] Open Scope bits_scope.

Inductive SfdpTableError := TargetLenTooSmall.

(** ** The table *)

Definition sfdp_header : list Z := [0x53; 0x46; 0x44; 0x50; 0x05; 0x01; 0x01; 0xff].

Definition basic_parameter_header : list Z := [0x00; 0x05; 0x01; 0x10; 0x18; 0x00; 0x00; 0xFF].

Definition google_parameter_header : list Z := [0x26; 0x00; 0x01; 0x04; 0x58; 0x00; 0x00; 0x09].

Definition basic_dword_1 (startup_address_mode : AddressMode) (support_address_mode_switch : bool) : list Z :=
  [ 0x1 .<< 0 .| 0x1 .<< 2 .| 0x0 .<< 3 .| 0x1 .<< 4 .| 0x0 .<< 5;
    0x20;
    0x0 .<< 0 .|
    (match startup_address_mode with
     | ThreeByte => if support_address_mode_switch then 1 else 0
     | FourByte => 2
     end) .<< 1 .|
    0x0 .<< 3 .| 0x0 .<< 4 .| 0x0 .<< 5 .| 0x0 .<< 6 .| 0x0 .<< 7;
    0x0 ].

Definition basic_dword_2 (image_size_bits : Z) : list Z :=
  [ wrap 8 (image_size_bits .>> 0 .& 0xff);
    wrap 8 (image_size_bits .>> 8 .& 0xff);
    wrap 8 (image_size_bits .>> 16 .& 0xff);
    wrap 8 (image_size_bits .>> 24 .& 0x7f) .| 0 .<< 7 ].

(** The DWORDs 3 to 9: fast reads and sector types. *)
Definition basic_dwords_3_9 : list Z :=
  [ 0x0; 0x0; 0x0; 0x0;
    0x8; 0x3b; 0x0; 0x0;
    0xee; 0xff; 0xff; 0xff;
    0xff; 0xff; 0x00; 0x00;
    0xff; 0xff; 0x00; 0x00;
    12; 0x20; 0; 0;
    0; 0; 0; 0 ].

(** The DWORDs 10 and 11: erase and program times. *)
Definition basic_dwords_10_11 : list Z :=
  [ 1 .<< 0 .| 0 .<< 4; 2 .<< 1 .| 0 .<< 3; 0x0; 0x0;
    1 .<< 0 .| 8 .<< 4;
    0xf .<< 0 .| 1 .<< 5 .| 3 .<< 6;
    3 .<< 0 .| 1 .<< 2 .| 0xf .<< 3 .| 1 .<< 7;
    1 .<< 0 .| 3 .<< 5 .| 1 .<< 7 ].

(** The DWORDs 12 to 15: suspend and resume, power down, quad modes. *)
Definition basic_dwords_12_15 : list Z :=
  [ 0x0; 1 .<< 0; 0x0; 1 .<< 7;
    0x00; 0x00; 0x00; 0x00;
    3 .<< 0 .| 1 .<< 2; 0x0; 0x0; 1 .<< 7;
    0x0; 0x0; 0x0; 0xff ].

Definition basic_dword_16 (startup_address_mode : AddressMode) (support_address_mode_switch : bool) : list Z :=
  [ 0x2 .<< 0 .| 1 .<< 7;
    0x0 .<< 0 .| (if support_address_mode_switch then 1 .<< 6 else 0);
    (if decide (startup_address_mode = ThreeByte) then 1 .<< 3 else 0) .|
    (if decide (startup_address_mode = ThreeByte) then 1 .<< 5 else 0);
    if decide (startup_address_mode = FourByte) then 1 .<< 6
    else if support_address_mode_switch then 1 else 0 ].

Definition google_table (mailbox_offset mailbox_size google_capabilities : Z) : list Z :=
  [ 0x47; 0x4f; 0x4f; 0x47;
    wrap 8 (mailbox_offset .>> 0 .& 0xff); wrap 8 (mailbox_offset .>> 8 .& 0xff);
    wrap 8 (mailbox_offset .>> 16 .& 0xff); wrap 8 (mailbox_offset .>> 24 .& 0xff);
    wrap 8 (mailbox_size .>> 0 .& 0xff); wrap 8 (mailbox_size .>> 8 .& 0xff);
    wrap 8 (mailbox_size .>> 16 .& 0xff); wrap 8 (mailbox_size .>> 24 .& 0xff);
    wrap 8 (google_capabilities .>> 0 .& 0xff); wrap 8 (google_capabilities .>> 8 .& 0xff);
    wrap 8 (google_capabilities .>> 16 .& 0xff); wrap 8 (google_capabilities .>> 24 .& 0xff) ].

Definition sfdp_table (image_size_bits : Z) (mode : AddressMode) (switch : bool)
    (mailbox_offset mailbox_size google_capabilities : Z) : list Z :=
  sfdp_header ++ basic_parameter_header ++ google_parameter_header ++
  (basic_dword_1 mode switch ++ basic_dword_2 image_size_bits ++ basic_dwords_3_9 ++
   basic_dwords_10_11 ++ basic_dwords_12_15 ++ basic_dword_16 mode switch) ++
  google_table mailbox_offset mailbox_size google_capabilities.

(** [fill n f i data] is [for idx in i..i + n { data[idx] = f(idx) }]. *)
Fixpoint fill (n : nat) (f : nat → Z) (i : nat) (data : list Z) : list Z :=
  match n with
  | O => data
  | S n' => fill n' f (S i) (<[i := f i]> data)
  end.

Definition get_table (image_size_bits : Z) (startup_address_mode : AddressMode)
    (support_address_mode_switch : bool) (mailbox_offset mailbox_size google_capabilities : Z) :
    M (list Z) SfdpTableError unit := λ data,
  let sfdp := sfdp_table image_size_bits startup_address_mode support_address_mode_switch
                mailbox_offset mailbox_size google_capabilities in
  if decide (length data < length sfdp)%nat then (Err TargetLenTooSmall, data)
  else
    let data1 := fill (length sfdp) (λ idx, nth idx sfdp 0) 0 data in
    let data2 := fill (length data1 - length sfdp) (λ _, 0xff) (length sfdp) data1 in
    (Ok tt, data2).

(** ** A reader of SFDP tables

    JESD216A: the signature is 0x50444653, byte 6 counts the parameter headers
    less one, and each eight-byte header gives the table's identifier, its
    length in DWORDs and its byte offset. *)
Definition sfdp_signature : list Z := [0x53; 0x46; 0x44; 0x50].

Record parameter_header := {
  ph_id : Z;
  ph_dwords : nat;
  ph_pointer : nat
}.

Definition parse_parameter_header (bs : list Z) : option parameter_header :=
  match bs with
  | [lsb; _; _; len; p0; p1; p2; msb] =>
      Some {| ph_id := msb .<< 8 .| lsb; ph_dwords := Z.to_nat len;
              ph_pointer := Z.to_nat (le_value [p0; p1; p2]) |}
  | _ => None
  end.

Fixpoint dwords (n : nat) (bs : list Z) : option (list Z) :=
  match n with
  | O => Some []
  | S n' =>
      match bs with
      | b0 :: b1 :: b2 :: b3 :: rest => (le_value [b0; b1; b2; b3] ::.) <$> dwords n' rest
      | _ => None
      end
  end.

Fixpoint find_header (n : nat) (id : Z) (bs : list Z) : option parameter_header :=
  match n with
  | O => None
  | S n' =>
      h ← parse_parameter_header (take 8 bs);
      if decide (ph_id h = id) then Some h else find_header n' id (drop 8 bs)
  end.

(** The DWORDs of the parameter table [id]. *)
Definition sfdp_find (data : list Z) (id : Z) : option (list Z) :=
  if decide (take 4 data = sfdp_signature) then
    nph ← data !! 6%nat;
    h ← find_header (S (Z.to_nat nph)) id (drop 8 data);
    dwords (ph_dwords h) (drop (ph_pointer h) data)
  else None.

Definition BASIC_ID : Z := 0xFF00.
Definition GOOGLE_ID : Z := 0x0926.

(** Bits [hi] down to [lo] of a DWORD. *)
Definition field (dw : Z) (hi lo : Z) : Z := (dw .>> lo) mod 2 ^ (hi - lo + 1).

(** ** Facts *)

Lemma fill_spec n f i data :
  (i + n <= length data)%nat →
  fill n f i data = take i data ++ (f <$> seq i n) ++ drop (i + n) data.
Proof.
  revert i data. induction n as [|n IH]; intros i data Hi; simpl.
  - by rewrite Nat.add_0_r, take_drop.
  - rewrite IH by (rewrite length_insert; lia).
    rewrite (take_S_r _ i (f i)) by (apply list_lookup_insert_eq; lia).
    rewrite take_insert_ge by lia. rewrite drop_insert_lt by lia.
    rewrite <-app_assoc. simpl. by rewrite <-Nat.add_succ_comm.
Qed.

Lemma map_nth_seq (l : list Z) : (λ i, nth i l 0) <$> seq 0 (length l) = l.
Proof.
  apply list_eq. intros i. rewrite list_lookup_fmap.
  destruct (decide (i < length l)%nat) as [Hi|Hi].
  - rewrite lookup_seq_lt by done. simpl. destruct (lookup_lt_is_Some_2 _ _ Hi) as [x Hx].
    by rewrite Hx, (nth_lookup_Some _ _ 0 x Hx).
  - rewrite lookup_seq_ge by lia. symmetry. apply lookup_ge_None_2. lia.
Qed.

Lemma const_seq (c : Z) i n : (λ _, c) <$> seq i n = replicate n c.
Proof. revert i. induction n as [|n IH]; intros i; simpl; [done|]. f_equal. apply IH. Qed.

Lemma length_sfdp_table bits mode switch off size caps :
  length (sfdp_table bits mode switch off size caps) = 104%nat.
Proof. reflexivity. Qed.

(** The byte extraction of the table is the little-endian encoding. *)
Lemma byte_extract x k : 0 <= k → wrap 8 (x .>> k .& 0xff) = (x / 2 ^ k) mod 256.
Proof.
  intros Hk. unfold wrap. change 0xff with (Z.ones 8). rewrite Z.land_ones, Z.shiftr_div_pow2 by lia.
  change (2 ^ 8) with 256. rewrite Z.mod_mod by lia. reflexivity.
Qed.

Lemma le_bytes_extract x :
  [ wrap 8 (x .>> 0 .& 0xff); wrap 8 (x .>> 8 .& 0xff);
    wrap 8 (x .>> 16 .& 0xff); wrap 8 (x .>> 24 .& 0xff) ] = le_bytes 4 x.
Proof.
  rewrite !byte_extract by lia. simpl le_bytes. rewrite !Z.div_div by lia. rewrite Z.div_1_r. reflexivity.
Qed.

Lemma le_value_extract x : fits 32 x →
  le_value [ wrap 8 (x .>> 0 .& 0xff); wrap 8 (x .>> 8 .& 0xff);
             wrap 8 (x .>> 16 .& 0xff); wrap 8 (x .>> 24 .& 0xff) ] = x.
Proof.
  intros Hx. rewrite le_bytes_extract, le_value_bytes. apply Z.mod_small. exact Hx.
Qed.

Lemma density_value x : le_value (basic_dword_2 x) = x mod 2 ^ 31.
Proof.
  assert (Htop : wrap 8 (x .>> 24 .& 0x7f) .| 0 .<< 7 = (x mod 2 ^ 31) / 2 ^ 24).
  { rewrite Z.shiftl_0_l, Z.lor_0_r. unfold wrap. change 0x7f with (Z.ones 7).
    rewrite Z.land_ones, Z.shiftr_div_pow2 by lia.
    change (2 ^ 31) with (2 ^ 24 * 2 ^ 7). rewrite Z.rem_mul_r by lia.
    rewrite (Z.mul_comm (2 ^ 24)), Z.div_add, (Z.div_small (x mod 2 ^ 24)) by
      (try apply Z.mod_pos_bound; lia).
    rewrite Z.mod_small; [reflexivity|].
    pose proof (Z.mod_pos_bound (x / 2 ^ 24) (2 ^ 7)). lia. }
  unfold basic_dword_2. rewrite Htop, !byte_extract by lia.
  cbn [le_value]. change (2 ^ 0) with 1. rewrite Z.div_1_r.
  pose proof (Z.div_mod (x mod 2 ^ 31) (2 ^ 24)).
  assert (Hlow : (x mod 2 ^ 31) mod 2 ^ 24 = x mod 2 ^ 24).
  { apply Z.mod_mod_divide. exists (2 ^ 7). reflexivity. }
  pose proof (Z.rem_mul_r x 256 256). pose proof (Z.rem_mul_r x (256 * 256) 256).
  change (2 ^ 8) with 256. change (2 ^ 16) with (256 * 256). change (2 ^ 24) with (256 * 256 * 256) in *.
  lia.
Qed.

(** What the reader finds, for any contents of the variable DWORDs. *)
Lemma sfdp_find_basic dw1 dw2 dw16 google rest :
  length dw1 = 4%nat → length dw2 = 4%nat → length dw16 = 4%nat → length google = 16%nat →
  sfdp_find (sfdp_header ++ basic_parameter_header ++ google_parameter_header ++
    (dw1 ++ dw2 ++ basic_dwords_3_9 ++ basic_dwords_10_11 ++ basic_dwords_12_15 ++ dw16) ++
    google ++ rest) BASIC_ID =
  Some ([le_value dw1; le_value dw2; 0; 0x3b08; 0xffffffee; 0xffff; 0xffff; 0x200c; 0;
         0x401; 0xe1ffef81; 0x80000100; 0; 0x80000007; 0xff000000; le_value dw16]).
Proof.
  intros H1 H2 H16 Hg.
  do 5 (destruct dw1 as [|? dw1]; try discriminate).
  do 5 (destruct dw2 as [|? dw2]; try discriminate).
  do 5 (destruct dw16 as [|? dw16]; try discriminate).
  do 17 (destruct google as [|? google]; try discriminate).
  vm_compute. reflexivity.
Qed.

Lemma sfdp_find_google basic g0 g1 g2 g3 rest :
  length basic = 64%nat → length g0 = 4%nat → length g1 = 4%nat → length g2 = 4%nat → length g3 = 4%nat →
  sfdp_find (sfdp_header ++ basic_parameter_header ++ google_parameter_header ++
    basic ++ (g0 ++ g1 ++ g2 ++ g3) ++ rest) GOOGLE_ID =
  Some [le_value g0; le_value g1; le_value g2; le_value g3].
Proof.
  intros Hb H0 H1 H2 H3.
  do 65 (destruct basic as [|? basic]; try discriminate).
  do 5 (destruct g0 as [|? g0]; try discriminate).
  do 5 (destruct g1 as [|? g1]; try discriminate).
  do 5 (destruct g2 as [|? g2]; try discriminate).
  do 5 (destruct g3 as [|? g3]; try discriminate).
  vm_compute. reflexivity.
Qed.

Lemma get_table_ok bits mode switch off size caps data :
  (104 <= length data)%nat →
  get_table bits mode switch off size caps data =
  (Ok tt, sfdp_table bits mode switch off size caps ++ replicate (length data - 104) 0xff).
Proof.
  intros Hl. unfold get_table. set (t := sfdp_table _ _ _ _ _ _).
  assert (Ht : length t = 104%nat) by reflexivity.
  rewrite Ht. rewrite decide_False by lia.
  assert (H1 : fill 104 (λ idx, nth idx t 0) 0 data = t ++ drop 104 data).
  { rewrite fill_spec, take_0 by lia. pose proof (map_nth_seq t) as Hm. rewrite Ht in Hm. by rewrite Hm. }
  rewrite H1. f_equal.
  assert (H2 : length (t ++ drop 104 data) = length data) by (rewrite length_app, length_drop; lia).
  rewrite H2, fill_spec by lia. rewrite const_seq.
  rewrite take_app_length' by done. rewrite drop_ge by lia. by rewrite app_nil_r.
Qed.

(** ** Theorems *)

(** [get_table] writes its table or nothing.  A buffer shorter than the 104
    bytes of the table is refused and left as it was; any other is filled
    completely, the table first and 0xff in every byte behind it. *)
Theorem get_table_contract bits mode switch off size caps data :
  get_table bits mode switch off size caps data =
  if decide (length data < 104)%nat then (Err TargetLenTooSmall, data)
  else (Ok tt, sfdp_table bits mode switch off size caps ++ replicate (length data - 104) 0xff).
Proof.
  destruct (decide _) as [Hl|Hl]; [|apply get_table_ok; lia].
  unfold get_table. rewrite length_sfdp_table. by rewrite decide_True.
Qed.

(** The address-size information of the basic table, decoded: DWORD 1 bits
    18:17, the "exit by E9h" bit of DWORD 16 (bit 14), its "enter by B7h" bit
    (24) and its "always 4-byte" bit (30). *)
Definition address_bytes (dw1 : Z) : Z := field dw1 18 17.
Definition exit_e9 (dw16 : Z) : Z := field dw16 14 14.
Definition enter_b7 (dw16 : Z) : Z := field dw16 24 24.
Definition always_4b (dw16 : Z) : Z := field dw16 30 30.

(** An SFDP reader that follows the headers of the published table gets back
    what the application configured.  The basic table has its sixteen DWORDs:
    the address-bytes field is 0, 1 or 2 for three-byte only, three-byte with a
    switch, and four-byte devices; the density field is the image size modulo
    2^31 with the "more than 2 Gibit" bit clear; the mode-switch instructions
    are advertised as the address-bytes field says.  Google's table is the
    marker "GOOG" followed by the mailbox offset, the mailbox size and the
    capabilities, unchanged. *)
Theorem sfdp_reads_back bits mode switch off size caps data :
  (104 <= length data)%nat → fits 32 off → fits 32 size → fits 32 caps →
  ∃ data' dw1 dw2 dw16 mid,
    get_table bits mode switch off size caps data = (Ok tt, data') ∧
    length data' = length data ∧
    sfdp_find data' BASIC_ID = Some ([dw1; dw2] ++ mid ++ [dw16]) ∧ length mid = 13%nat ∧
    address_bytes dw1 = (match mode with ThreeByte => if switch then 1 else 0 | FourByte => 2 end) ∧
    field dw2 30 0 = bits mod 2 ^ 31 ∧ field dw2 31 31 = 0 ∧
    always_4b dw16 = Z.b2z (bool_decide (address_bytes dw1 = 2)) ∧
    enter_b7 dw16 = Z.b2z (bool_decide (address_bytes dw1 = 1)) ∧
    exit_e9 dw16 = Z.b2z switch ∧
    sfdp_find data' GOOGLE_ID = Some [0x474f4f47; off; size; caps].
Proof.
  intros Hl Ho Hs Hc. rewrite get_table_ok by done.
  set (rest := replicate (length data - 104) 0xff).
  eexists _, (le_value (basic_dword_1 mode switch)), (le_value (basic_dword_2 bits)),
    (le_value (basic_dword_16 mode switch)), _.
  split; [reflexivity|]. split.
  { rewrite length_app, length_sfdp_table. subst rest. rewrite length_replicate. lia. }
  unfold sfdp_table. rewrite <-!(app_assoc _ _ rest). split.
  { rewrite sfdp_find_basic by reflexivity.
    refine (_ : Some ([_; _] ++ [_; _; _; _; _; _; _; _; _; _; _; _; _] ++ [_]) = _). reflexivity. }
  split; [reflexivity|]. split; [by destruct mode, switch|].
  rewrite density_value. split.
  { unfold field. rewrite Z.shiftr_0_r. apply Z.mod_mod. lia. }
  split.
  { unfold field. rewrite Z.shiftr_div_pow2 by lia. rewrite (Z.div_small (bits mod 2 ^ 31)); [reflexivity|].
    apply Z.mod_pos_bound. lia. }
  split; [by destruct mode, switch|]. split; [by destruct mode, switch|].
  split; [by destruct mode, switch|].
  pose proof (sfdp_find_google (basic_dword_1 mode switch ++ basic_dword_2 bits ++ basic_dwords_3_9 ++
    basic_dwords_10_11 ++ basic_dwords_12_15 ++ basic_dword_16 mode switch) [0x47; 0x4f; 0x4f; 0x47]
    [ wrap 8 (off .>> 0 .& 0xff); wrap 8 (off .>> 8 .& 0xff);
      wrap 8 (off .>> 16 .& 0xff); wrap 8 (off .>> 24 .& 0xff) ]
    [ wrap 8 (size .>> 0 .& 0xff); wrap 8 (size .>> 8 .& 0xff);
      wrap 8 (size .>> 16 .& 0xff); wrap 8 (size .>> 24 .& 0xff) ]
    [ wrap 8 (caps .>> 0 .& 0xff); wrap 8 (caps .>> 8 .& 0xff);
      wrap 8 (caps .>> 16 .& 0xff); wrap 8 (caps .>> 24 .& 0xff) ] rest eq_refl eq_refl eq_refl eq_refl eq_refl) as H.
  rewrite !le_value_extract in H by done. exact H.
Qed.

Lemma sfdp_reads_back_witness :
  ∃ data' dw1 dw2 dw16 mid,
    get_table 0x20000000 ThreeByte true 0x80000 2048 0 (replicate 128 0xff) = (Ok tt, data') ∧
    length data' = 128%nat ∧
    sfdp_find data' BASIC_ID = Some ([dw1; dw2] ++ mid ++ [dw16]) ∧ length mid = 13%nat ∧
    address_bytes dw1 = 1 ∧
    field dw2 30 0 = 0x20000000 mod 2 ^ 31 ∧ field dw2 31 31 = 0 ∧
    always_4b dw16 = Z.b2z (bool_decide (address_bytes dw1 = 2)) ∧
    enter_b7 dw16 = Z.b2z (bool_decide (address_bytes dw1 = 1)) ∧
    exit_e9 dw16 = Z.b2z true ∧
    sfdp_find data' GOOGLE_ID = Some [0x474f4f47; 0x80000; 2048; 0].
Proof.
  apply (sfdp_reads_back 0x20000000 ThreeByte true 0x80000 2048 0 (replicate 128 0xff));
    [simpl; lia|by_compute|by_compute|by_compute].
Defined.
