(* ===== verification/SpiTool.v ===== *)
(** The SPI transport tool (shared-lib/spiutils/tool/src/main.rs): [wrap] puts a
    payload header in front of a file and [unwrap] takes it off again.

    The input file is its contents; the output file, truncated when it is
    opened, is any writer of the io layer (the tool uses [StdWrite]).  Opening
    and reading files is the operating system's; a failed [expect] or [unwrap]
    ends the process. *)

From S2P Require Import Prelude Io Wire Payload Tock.
From Stdlib Require Import ZArith Lia.
From stdpp Require Import base decidable option list list_numbers.

#[local] Open Scope Z_scope.

(** [m.expect(..)] *)
Definition expect {S E E' A} (m : M S E A) : M S E' A := λ s,
  match m s with
  | (Ok a, s') => (Ok a, s')
  | (Err _, s') | (Panic, s') => (Panic, s')
  end.

Definition tool_wrap {W} `{Write W} (read_buf : list Z) : K W unit :=
  content_len ← unwrap (u16_try_from (length read_buf));
  let header := mk_PayloadHeader CtManticore content_len 0 in
  expect (payload_header_to_wire header) ;;
  expect (write_bytes read_buf).

Definition tool_unwrap {W} `{Write W} (read_buf : list Z) : K W unit :=
  match payload_header_from_wire read_buf with
  | (Ok header, read_buf_slice) =>
      match content header with
      | CtManticore =>
          d ← unwrap (slice read_buf_slice 0 (Z.to_nat (content_len header)));
          expect (write_bytes d)
      | _ => panic
      end
  | (Err _, _) | (Panic, _) => panic
  end.

(** ** Facts *)

Lemma expect_ok {S E E' A} (m : M S E A) s a s' :
  m s = (Ok a, s') → expect (E' := E') m s = (Ok a, s').
Proof. intros H. unfold expect. by rewrite H. Qed.

(** What [wrap] writes in front of the file. *)
Definition tool_header (n : nat) : PayloadHeader := mk_PayloadHeader CtManticore (Z.of_nat n) 0.

Lemma tool_header_valid n : Z.of_nat n < 2 ^ 16 → payload_header_valid (tool_header n).
Proof. intros H. split; unfold tool_header, fits; cbn [content_len checksum]; lia. Qed.

Lemma tool_wrap_ok {W} `{WriteLaws W} (d : list Z) (w : W) :
  Z.of_nat (length d) < 2 ^ 16 → wr_inv w → (HEADER_LEN + length d <= wr_room w)%nat →
  ∃ w', tool_wrap d w = (Ok tt, w') ∧
        wr_out w' = wr_out w ++ encode (tool_header (length d)) ++ d.
Proof.
  intros Hd Hi Hr. unfold tool_wrap, u16_try_from.
  rewrite (proj2 (Z.ltb_lt _ _)) by lia.
  destruct (to_wire_emits (WireLaws := PayloadHeader_WireLaws) W (tool_header (length d)) (tool_header_valid _ Hd) w Hi) as [Hok _].
  destruct Hok as (w1 & H1 & Hi1 & Ho1 & Hr1); [unfold HEADER_LEN in Hr; simpl; lia|].
  destruct (wr_ok d w1 Hi1) as (w2 & H2 & _ & Ho2 & _).
  { rewrite Hr1. simpl. unfold HEADER_LEN in Hr. lia. }
  exists w2. split; [|by rewrite Ho2, Ho1, <-app_assoc].
  unfold mbind, M_bind, unwrap, mret, M_ret.
  erewrite expect_ok by exact H1. by erewrite expect_ok by exact H2.
Qed.

Lemma tool_wrap_too_long {W} `{Write W} (d : list Z) (w : W) :
  2 ^ 16 <= Z.of_nat (length d) → tool_wrap d w = (Panic, w).
Proof.
  intros Hd. unfold tool_wrap, u16_try_from. rewrite (proj2 (Z.ltb_ge _ _)) by lia. reflexivity.
Qed.

Lemma tool_unwrap_ok {W} `{WriteLaws W} (h : PayloadHeader) (rest : list Z) (w : W) :
  payload_header_valid h → content h = CtManticore → content_len h <= Z.of_nat (length rest) →
  wr_inv w → (Z.to_nat (content_len h) <= wr_room w)%nat →
  ∃ w', tool_unwrap (encode h ++ rest) w = (Ok tt, w') ∧
        wr_out w' = wr_out w ++ take (Z.to_nat (content_len h)) rest.
Proof.
  intros Hv Hc Hlen Hi Hr. unfold tool_unwrap.
  destruct (@from_wire_parses _ _ _ PayloadHeader_WireLaws (list Z) _ slice_ReadLaws h Hv (encode h ++ rest) rest)
    as (r' & Hp & Hr'); [reflexivity|].
  change (from_wire PayloadHeader) with (payload_header_from_wire (R := list Z)) in Hp.
  rewrite Hp, Hc. change (rd_view r') with r' in Hr'. subst r'.
  unfold slice. simpl (0 <=? _)%nat. rewrite (proj2 (Nat.leb_le _ _)) by (unfold payload_header_valid, fits in Hv; lia).
  rewrite drop_0, Nat.sub_0_r. simpl.
  destruct (wr_ok (take (Z.to_nat (content_len h)) rest) w Hi) as (w2 & H2 & _ & Ho2 & _).
  { rewrite length_take. lia. }
  exists w2. split; [|done]. unfold mbind, M_bind, unwrap, mret, M_ret.
  by erewrite expect_ok by exact H2.
Qed.

(** ** Theorems *)

(** What [wrap] writes [unwrap] takes apart again.  For a file of at most
    65535 bytes, and output files that take what is written to them, [wrap]
    writes a four-byte header and the file, [unwrap] of the result (with anything
    appended to it) writes the original file, and for a longer file [wrap] stops
    with a panic before it writes anything. *)
Theorem tool_roundtrip {W} `{WriteLaws W} (d extra : list Z) (w1 w2 : W) :
  wr_inv w1 → wr_inv w2 → (HEADER_LEN + length d <= wr_room w1)%nat → (length d <= wr_room w2)%nat →
  if decide (Z.of_nat (length d) < 2 ^ 16)
  then ∃ w1' w2' file,
    tool_wrap d w1 = (Ok tt, w1') ∧ wr_out w1' = wr_out w1 ++ file ∧
    length file = (HEADER_LEN + length d)%nat ∧
    tool_unwrap (file ++ extra) w2 = (Ok tt, w2') ∧ wr_out w2' = wr_out w2 ++ d
  else tool_wrap d w1 = (Panic, w1).
Proof.
  intros Hi1 Hi2 Hr1 Hr2. destruct (decide _) as [Hd|Hd]; [|apply tool_wrap_too_long; lia].
  destruct (tool_wrap_ok d w1 Hd Hi1 Hr1) as (w1' & Hw & Ho).
  destruct (tool_unwrap_ok (tool_header (length d)) (d ++ extra) w2 (tool_header_valid _ Hd) eq_refl)
    as (w2' & Hu & Ho2).
  { cbn [tool_header content_len]. rewrite length_app. lia. }
  { done. }
  { cbn [tool_header content_len]. lia. }
  exists w1', w2', (encode (tool_header (length d)) ++ d). split_and!; [done|done| | |].
  - rewrite length_app. reflexivity.
  - by rewrite <-app_assoc.
  - rewrite Ho2. cbn [tool_header content_len]. rewrite Nat2Z.id, take_app_length. done.
Qed.

Lemma tool_roundtrip_witness :
  ∃ w1' w2' file,
    tool_wrap [7; 8; 9] (Cursor.new (replicate 8 0)) = (Ok tt, w1') ∧
    wr_out w1' = wr_out (Cursor.new (replicate 8 0)) ++ file ∧
    length file = (HEADER_LEN + 3)%nat ∧
    tool_unwrap (file ++ [1]) (Cursor.new (replicate 8 0)) = (Ok tt, w2') ∧
    wr_out w2' = wr_out (Cursor.new (replicate 8 0)) ++ [7; 8; 9].
Proof.
  refine (tool_roundtrip (W := Cursor.t) [7; 8; 9] [1] (Cursor.new (replicate 8 0)) (Cursor.new (replicate 8 0)) _ _ _ _);
    try (split; simpl; lia); by_compute.
Defined.
