(* ===== verification/GlobalSec.v ===== *)
(** Which firmware image runs, and which one may be updated: the GlobalSec driver
    of the kernel (kernel/h1/src/globalsec.rs), the segment layout of the papa
    board (kernel/papa/src/main.rs), and the application's view of both
    (userspace/otpilot/src/globalsec.rs).

    The boot ROM leaves the addresses of the running images in the flash region
    registers 0 and 1; [init] derives the inactive images from them and opens
    these for writing in the regions 2 and 3. *)

From S2P Require Import Prelude Io Wire FirmwareProto Tock FlashHw.
From Stdlib Require Import ZArith Lia.
From stdpp Require Import base decidable option list list_numbers.

#[local] Open Scope Z_scope.
#[local] Open Scope bits_scope.

Record Segments := mk_Segments {
  ro_a : SegmentInfo;
  ro_b : SegmentInfo;
  rw_a : SegmentInfo;
  rw_b : SegmentInfo
}.

(** The registers of the block: for each bus four control registers, and the
    bases and sizes of the flash regions. *)
Record GsRegisters := mk_GsRegisters {
  cpu0_d_region_ctrl : list Z;
  ddma0_region_ctrl : list Z;
  dusb0_region_ctrl : list Z;
  flash_region_ctrl : list Z;
  flash_region_base_addr : list Z;
  flash_region_size : list Z
}.

(** [REGION_CTRL::EN::SET + REGION_CTRL::RD_EN::SET + REGION_CTRL::WR_EN::SET] *)
Definition REGION_CTRL_ALL : Z := 1 .<< 0 .| 1 .<< 1 .| 1 .<< 2.

Module GlobalSecHardware.

Record t := mk { registers : GsRegisters; runtime_segment_info : RuntimeSegmentInfo }.

Definition new (regs : GsRegisters) : t := mk regs UNKNOWN_RUNTIME_SEGMENT_INFO.

(** The three data buses: every region is opened. *)
Definition open_buses (r : GsRegisters) : GsRegisters :=
  mk_GsRegisters (replicate 4 REGION_CTRL_ALL) (replicate 4 REGION_CTRL_ALL) (replicate 4 REGION_CTRL_ALL)
    (flash_region_ctrl r) (flash_region_base_addr r) (flash_region_size r).

(** Opening the flash region [i] for the segment [seg]. *)
Definition open_flash_region (i : nat) (seg : SegmentInfo) (r : GsRegisters) : GsRegisters :=
  mk_GsRegisters (cpu0_d_region_ctrl r) (ddma0_region_ctrl r) (dusb0_region_ctrl r)
    (<[i := REGION_CTRL_ALL]> (flash_region_ctrl r))
    (<[i := u32 (H1_FLASH_START + seg_address seg)]> (flash_region_base_addr r))
    (<[i := seg_size seg]> (flash_region_size r)).

(** [match base_addr.get() { .. }]: the active and the inactive one of two segments. *)
Definition determine (addr : Z) (a b : SegmentInfo) (old : SegmentInfo * SegmentInfo) : SegmentInfo * SegmentInfo :=
  if addr =? u32 (H1_FLASH_START + seg_address a) then (a, b)
  else if addr =? u32 (H1_FLASH_START + seg_address b) then (b, a)
  else old.

Definition init (segments : Segments) (self : t) : t :=
  let r := open_buses (registers self) in
  let info := runtime_segment_info self in
  let '(active_ro', inactive_ro') :=
    determine (nth 0 (flash_region_base_addr r) 0) (ro_a segments) (ro_b segments)
      (active_ro info, inactive_ro info) in
  let r := open_flash_region 2 inactive_ro' r in
  let '(active_rw', inactive_rw') :=
    determine (nth 1 (flash_region_base_addr r) 0) (rw_a segments) (rw_b segments)
      (active_rw info, inactive_rw info) in
  let r := open_flash_region 3 inactive_rw' r in
  mk r (mk_RuntimeSegmentInfo active_ro' active_rw' inactive_ro' inactive_rw').

Definition get_runtime_segment_info (self : t) : RuntimeSegmentInfo := runtime_segment_info self.

End GlobalSecHardware.

(** ** The papa board *)

Definition get_h1_flash_segment_info (id : SegmentAndLocation) (address size : Z) : SegmentInfo :=
  mk_SegmentInfo id address size (address / H1_FLASH_PAGE_SIZE) (size / H1_FLASH_PAGE_SIZE).

Definition papa_segments : Segments := {|
  ro_a := get_h1_flash_segment_info RoA 0x0 0x4000;
  rw_a := get_h1_flash_segment_info RwA 0x4000 (H1_FLASH_BANK_SIZE - 0x4000);
  ro_b := get_h1_flash_segment_info RoB H1_FLASH_BANK_SIZE 0x4000;
  rw_b := get_h1_flash_segment_info RwB (H1_FLASH_BANK_SIZE + 0x4000) (H1_FLASH_BANK_SIZE - 0x4000)
|}.

(** ** The application's copy *)

Module GlobalSecImpl.

(** [get_runtime_segment_info]: the system call fills the buffer with the
    kernel's encoding ([fill]; [None] is a failed call), and the application
    parses it; [None] is a [TockError]. *)
Definition get_runtime_segment_info (fill : list Z → option (list Z)) : option RuntimeSegmentInfo :=
  match fill (replicate RUNTIME_SEGMENT_INFO_LEN 0) with
  | None => None
  | Some buffer =>
      match runtime_segment_info_from_wire buffer with
      | (Ok info, _) => Some info
      | _ => None
      end
  end.

Definition initialize (present : bool) (fill : list Z → option (list Z)) (self : RuntimeSegmentInfo) :
    option RuntimeSegmentInfo :=
  if present then get_runtime_segment_info fill else None.

End GlobalSecImpl.

(** ** Facts *)

Module GlobalSecFacts.
Import GlobalSecHardware.

(** Which of the two images is running. *)
Definition base_of (seg : SegmentInfo) : Z := u32 (H1_FLASH_START + seg_address seg).

(** The registers as the boot ROM leaves them. *)
Definition booted (segments : Segments) (ro rw : SegmentInfo) (r : GsRegisters) : Prop :=
  (ro = ro_a segments ∨ ro = ro_b segments) ∧ (rw = rw_a segments ∨ rw = rw_b segments) ∧
  length (flash_region_base_addr r) = 4%nat ∧
  nth 0 (flash_region_base_addr r) 0 = base_of ro ∧ nth 1 (flash_region_base_addr r) 0 = base_of rw.

Definition other (segments : Segments) (seg : SegmentInfo) : SegmentInfo :=
  if decide (seg = ro_a segments) then ro_b segments
  else if decide (seg = ro_b segments) then ro_a segments
  else if decide (seg = rw_a segments) then rw_b segments
  else rw_a segments.

Lemma papa_init ro rw r info :
  booted papa_segments ro rw r →
  runtime_segment_info (init papa_segments (mk r info)) =
    mk_RuntimeSegmentInfo ro rw (other papa_segments ro) (other papa_segments rw) ∧
  flash_region_base_addr (registers (init papa_segments (mk r info))) =
    [base_of ro; base_of rw; base_of (other papa_segments ro); base_of (other papa_segments rw)].
Proof.
  intros (Hro & Hrw & Hl & H0 & H1). destruct r as [c d u f b z]. cbn [flash_region_base_addr] in *.
  do 5 (destruct b as [|? b]; try discriminate). cbn in H0, H1. subst.
  by destruct Hro as [->| ->], Hrw as [->| ->].
Qed.

(** Two segments share no page and no address. *)
Definition disjoint_segments (a b : SegmentInfo) : Prop :=
  (start_page a + page_count a <= start_page b ∨ start_page b + page_count b <= start_page a) ∧
  (seg_address a + seg_size a <= seg_address b ∨ seg_address b + seg_size b <= seg_address a).

#[global] Instance disjoint_segments_dec a b : Decision (disjoint_segments a b).
Proof. unfold disjoint_segments. apply _. Defined.

(** The pages of a segment are the pages of its addresses. *)
Definition pages_match (seg : SegmentInfo) : Prop :=
  seg_address seg = start_page seg * H1_FLASH_PAGE_SIZE ∧ seg_size seg = page_count seg * H1_FLASH_PAGE_SIZE.

#[global] Instance pages_match_dec seg : Decision (pages_match seg).
Proof. unfold pages_match. apply _. Defined.

(** The kernel separates what runs from what may be updated.  On the papa
    board, whichever of the A and B images the boot ROM started (in any
    combination), [init] reports them as active and the others as inactive and
    opens exactly the inactive ones in the flash regions 2 and 3; active and
    inactive segments share neither a page nor an address, and every segment's
    pages are the pages of its address range inside the flash.  With a register
    that holds none of the known addresses the inactive segment is what it was
    before, which is [UNKNOWN_SEGMENT] after [new]. *)
Theorem papa_segments_separated ro rw r :
  booted papa_segments ro rw r →
  let self := init papa_segments (new r) in
  let info := get_runtime_segment_info self in
  active_ro info = ro ∧ active_rw info = rw ∧
  nth 2 (flash_region_base_addr (registers self)) 0 = base_of (inactive_ro info) ∧
  nth 3 (flash_region_base_addr (registers self)) 0 = base_of (inactive_rw info) ∧
  Forall (λ i, Forall (disjoint_segments i) [active_ro info; active_rw info]) [inactive_ro info; inactive_rw info] ∧
  Forall (λ seg, pages_match seg ∧ seg_address seg + seg_size seg <= H1_FLASH_SIZE)
    [active_ro info; active_rw info; inactive_ro info; inactive_rw info] ∧
  (∀ base, base ≠ base_of (ro_a papa_segments) → base ≠ base_of (ro_b papa_segments) →
     ∀ r', nth 0 (flash_region_base_addr r') 0 = base →
       inactive_ro (get_runtime_segment_info (init papa_segments (new r'))) = UNKNOWN_SEGMENT).
Proof.
  intros Hb. destruct (papa_init ro rw r UNKNOWN_RUNTIME_SEGMENT_INFO Hb) as [Hi Hr].
  unfold new. cbv zeta. unfold get_runtime_segment_info. rewrite Hi, Hr. split_and!; [done..| | |].
  - destruct Hb as ([->| ->] & [->| ->] & _); by_compute.
  - destruct Hb as ([->| ->] & [->| ->] & _); by_compute.
  - intros base Ha Hb' r' Hr'. unfold init. cbn [registers runtime_segment_info open_buses flash_region_base_addr].
    assert (Hd : determine (nth 0 (flash_region_base_addr r') 0) (ro_a papa_segments) (ro_b papa_segments)
                   (UNKNOWN_SEGMENT, UNKNOWN_SEGMENT) = (UNKNOWN_SEGMENT, UNKNOWN_SEGMENT)).
    { unfold determine. rewrite Hr'. fold (base_of (ro_a papa_segments)) (base_of (ro_b papa_segments)).
      by rewrite (proj2 (Z.eqb_neq _ _) Ha), (proj2 (Z.eqb_neq _ _) Hb'). }
    cbn [active_ro inactive_ro UNKNOWN_RUNTIME_SEGMENT_INFO]. rewrite Hd. clear Hd.
    destruct (determine _ _ _ _). reflexivity.
Qed.

(** Image A of both segments is running. *)
Definition sample_registers : GsRegisters :=
  mk_GsRegisters [] [] [] [0; 0; 0; 0] [0x40000; 0x44000; 0; 0] [0x4000; 0x3c000; 0; 0].

Lemma papa_segments_separated_witness :
  active_ro (get_runtime_segment_info (init papa_segments (new sample_registers))) = ro_a papa_segments.
Proof.
  destruct (papa_segments_separated (ro_a papa_segments) (rw_a papa_segments) sample_registers) as [H _];
    [split_and!; first [by left|reflexivity]|exact H].
Defined.

End GlobalSecFacts.
