(* ===== verification/FlashSyscalls.v ===== *)
(** Flash access for applications: the system-call driver of the kernel
    (kernel/h1_syscalls/src/flash.rs) and the application's side of it
    (userspace/otpilot/src/flash.rs).

    The flash under the driver is the HIL's [Flash] trait, here the class
    [FlashDevice].  A grant is a partial map from processes to their data:
    entering it fails for a process that has no entry.  Scheduling a callback
    appends to the list of upcalls. *)

From S2P Require Import Prelude Io Tock.
From Stdlib Require Import ZArith Lia.
From stdpp Require Import base decidable option list list_numbers.

#[local] Open Scope Z_scope.

(** [hil::flash::Flash], as its client sees it: a write that is refused returns
    the buffer. *)
Class FlashDevice (D : Type) := {
  dev_erase : Z → D → ReturnCode * D;
  dev_read : Z → D → ReturnCode;
  dev_write : Z → list Z → D → (ReturnCode * option (list Z)) * D
}.

Definition AppId : Type := nat.

(** [callback] is the userdata of the subscribed callback. *)
Record AppData := mk_AppData {
  app_write_buffer : option (list Z);
  app_read_buffer : option (list Z);
  operation_done_callback : option nat
}.

Definition AppData_default : AppData := mk_AppData None None None.

Record Upcall := mk_Upcall { up_app : AppId; up_callback : nat; up_arg1 : ReturnCode }.

Definition BYTES_PER_WORD : Z := 4.

Module FlashSyscalls.

Section Driver.
Context {D : Type} `{FlashDevice D}.

Record t := mk {
  device : D;
  write_buffer : option (list Z);
  apps : AppId → option AppData;
  current_user : option AppId;
  upcalls : list Upcall
}.

Definition new (d : D) (buffer : list Z) (container : AppId → option AppData) : t :=
  mk d (Some buffer) container None [].

Definition set_app (id : AppId) (a : AppData) (self : t) : t :=
  mk (device self) (write_buffer self) (λ i, if decide (i = id) then Some a else apps self i)
    (current_user self) (upcalls self).
Definition set_device (d : D) (self : t) : t :=
  mk d (write_buffer self) (apps self) (current_user self) (upcalls self).
Definition set_write_buffer (b : option (list Z)) (self : t) : t :=
  mk (device self) b (apps self) (current_user self) (upcalls self).

(** [self.apps.enter(id, f).unwrap_or(fail)] *)
Definition enter (id : AppId) (fail : ReturnCode) (f : AppData → t → ReturnCode * t) (self : t) : ReturnCode * t :=
  match apps self id with
  | None => (fail, self)
  | Some a => f a self
  end.

Definition erase (caller_id : AppId) (page : Z) (self : t) : ReturnCode * t :=
  enter caller_id ENOMEM (λ _ self,
    let '(return_code, d) := dev_erase page (device self) in
    (return_code, set_device d self)) self.

(** The inner loop: the bytes of a word from [idx] on, those that fit into the
    first [length] bytes of the buffer. *)
Fixpoint put_bytes (length idx : nat) (bytes : list Z) (buf : list Z) : list Z :=
  match bytes with
  | [] => buf
  | byte :: bytes' =>
      put_bytes length (S idx) bytes' (if (idx <? length)%nat then <[idx := byte]> buf else buf)
  end.

(** [for idx in (0..length).step_by(4)]: [words] rounds from [idx]. *)
Fixpoint read_loop (d : D) (offset : Z) (length : nat) (words idx : nat) (buf : list Z) : ReturnCode * list Z :=
  match words with
  | O => (SUCCESS, buf)
  | S words' =>
      match dev_read (u32 (offset + Z.of_nat idx) / BYTES_PER_WORD) d with
      | SuccessWithValue read_val =>
          read_loop d offset length words' (idx + 4) (put_bytes length idx (le_bytes 4 (u32 read_val)) buf)
      | SUCCESS => (FAIL, buf)
      | failure => (failure, buf)
      end
  end.

(** The number of rounds: [length / 4], rounded up. *)
Definition rounds (length : nat) : nat := Nat.div (length + 3) 4.

Definition read (caller_id : AppId) (offset read_len : Z) (self : t) : ReturnCode * t :=
  if negb (offset mod BYTES_PER_WORD =? 0) then (EINVAL, self)
  else
    enter caller_id ENOMEM (λ app_data self,
      match app_read_buffer app_data with
      | Some read_buffer =>
          let length := Nat.min (length read_buffer) (Z.to_nat read_len) in
          let '(rc, buf) := read_loop (device self) offset length (rounds length) 0 read_buffer in
          (rc, set_app caller_id
                 (mk_AppData (app_write_buffer app_data) (Some buf) (operation_done_callback app_data)) self)
      | None => (ENOMEM, self)
      end) self.

(** The words of the application's buffer. *)
Definition app_words (n : nat) (app_buf : list Z) : list Z :=
  (λ word, le_value (take 4 (drop (4 * word) app_buf))) <$> seq 0 n.

Definition write (caller_id : AppId) (target write_len : Z) (self : t) : ReturnCode * t :=
  if negb (target mod BYTES_PER_WORD =? 0) || negb (write_len mod BYTES_PER_WORD =? 0) then (EINVAL, self)
  else
    enter caller_id ENOMEM (λ app_data self,
      match app_write_buffer app_data with
      | Some app_buf =>
          match write_buffer self with
          | Some buffer =>
              let self := set_write_buffer None self in
              let words := Nat.min (length buffer)
                             (Nat.div (Nat.min (length app_buf) (Z.to_nat write_len)) 4) in
              let buffer := copy_at buffer 0 (app_words words app_buf) in
              let '(return_code, back, d) := dev_write (target / BYTES_PER_WORD) (take words buffer) (device self) in
              (return_code, set_write_buffer back (set_device d self))
          | None => (ENOMEM, self)
          end
      | None => (ENOMEM, self)
      end) self.

(** Scheduling the callback of the current user. *)
Definition notify (return_code : ReturnCode) (self : t) : t :=
  match current_user self with
  | None => self
  | Some id =>
      match apps self id with
      | Some (mk_AppData _ _ (Some cb)) =>
          mk (device self) (write_buffer self) (apps self) (current_user self)
            (upcalls self ++ [mk_Upcall id cb return_code])
      | _ => self
      end
  end.

Definition erase_done (return_code : ReturnCode) (self : t) : t := notify return_code self.

Definition write_done (buffer : list Z) (return_code : ReturnCode) (self : t) : t :=
  notify return_code (set_write_buffer (Some buffer) self).

Definition subscribe (subscribe_num : Z) (callback : option nat) (app_id : AppId) (self : t) : ReturnCode * t :=
  if subscribe_num =? 0 then
    enter app_id ENOMEM (λ a self,
      (SUCCESS, set_app app_id (mk_AppData (app_write_buffer a) (app_read_buffer a) callback) self)) self
  else (ENOSUPPORT, self).

Definition command (command_num arg1 arg2 : Z) (caller_id : AppId) (self : t) : ReturnCode * t :=
  let self :=
    match current_user self with
    | None => mk (device self) (write_buffer self) (apps self) (Some caller_id) (upcalls self)
    | Some _ => self
    end in
  if command_num =? 0 then (SUCCESS, self)
  else if command_num =? 1 then erase caller_id arg1 self
  else if command_num =? 2 then write caller_id arg1 arg2 self
  else if command_num =? 3 then read caller_id arg1 arg2 self
  else (ENOSUPPORT, self).

Definition allow (app_id : AppId) (minor_num : Z) (slice : option (list Z)) (self : t) : ReturnCode * t :=
  if minor_num =? 0 then
    enter app_id FAIL (λ a self,
      (SUCCESS, set_app app_id (mk_AppData slice (app_read_buffer a) (operation_done_callback a)) self)) self
  else if minor_num =? 1 then
    enter app_id FAIL (λ a self,
      (SUCCESS, set_app app_id (mk_AppData (app_write_buffer a) slice (operation_done_callback a)) self)) self
  else (ENOSUPPORT, self).

End Driver.
Arguments t D : clear implicits.

End FlashSyscalls.

(** ** The application's side *)

(** The system calls of libtock for one driver: [command], [allow] and the end
    of the sharing (the dropped [SharedMemory] gives the buffer back), and
    [yieldk], which may run the subscribed callback with its first argument. *)
Class Libtock (Kn : Type) := {
  sys_command : Z → Z → Z → Kn → bool * Kn;
  sys_subscribe : Z → Kn → bool * Kn;
  sys_allow : Z → list Z → Kn → bool * Kn;
  sys_unallow : Z → Kn → list Z * Kn;
  sys_yieldk : Kn → option Z * Kn
}.

(** [usize as isize] *)
Definition as_isize (x : Z) : Z := if x <? 2 ^ 31 then x else x - 2 ^ 32.

Inductive TockError := mk_TockError.

Module FlashImpl.

Section App.
Context {Kn : Type} `{Libtock Kn}.

Record t := mk { operation_result : Z; operation_done_ : bool; kernel : Kn }.

Definition initial (k : Kn) : t := mk (-1) false k.

Definition ERASE_PAGE : Z := 1.
Definition WRITE_DATA : Z := 2.
Definition READ_DATA : Z := 3.

Definition sys {A} (f : Kn → A * Kn) : M t TockError A := λ s,
  let '(a, k) := f (kernel s) in (Ok a, mk (operation_result s) (operation_done_ s) k).

(** A system call with [?]. *)
Definition sys_ok (f : Kn → bool * Kn) : M t TockError unit :=
  ok ← sys f; if ok : bool then mret tt else throw mk_TockError.

Definition initialize : M t TockError unit :=
  sys_ok (sys_command 0 0 0) ;; sys_ok (sys_subscribe 0) ;; mret tt.

Definition operation_done (result : Z) (s : t) : t := mk (as_isize result) true (kernel s).

(** The operation starts: its result is not known yet. *)
Definition start (s : t) : t := mk (-1) false (kernel s).

(** The buffer is given back when the sharing ends, on every path. *)
Definition finally (num : Z) (m : M t TockError unit) : M t TockError (list Z) := λ s,
  match m s with
  | (Ok _, s') => sys (sys_unallow num) s'
  | (Err e, s') => (Err e, (sys (sys_unallow num) s').2)
  | (Panic, s') => (Panic, s')
  end.

Definition with_shared (num : Z) (buffer : list Z) (m : M t TockError unit) : M t TockError (list Z) :=
  sys_ok (sys_allow num buffer) ;; finally num m.

Definition read (offset : Z) (buffer : list Z) (len : Z) : M t TockError (list Z) :=
  with_shared 1 buffer (sys_ok (sys_command READ_DATA offset len)).

Definition write (offset : Z) (buffer : list Z) (len : Z) : M t TockError (list Z) :=
  with_shared 0 buffer (modify start ;; sys_ok (sys_command WRITE_DATA offset len)).

Definition erase (page : Z) : M t TockError unit :=
  modify start ;; sys_ok (sys_command ERASE_PAGE page 0).

Definition is_operation_done (s : t) : bool := operation_done_ s.

(** [while !self.is_operation_done() { yieldk() }]; [None] when it is still
    waiting after [fuel] rounds. *)
Fixpoint wait_operation_done (fuel : nat) (s : t) : option t :=
  if is_operation_done s then Some s
  else match fuel with
       | O => None
       | S fuel' =>
           let '(up, k) := sys_yieldk (kernel s) in
           let s := mk (operation_result s) (operation_done_ s) k in
           wait_operation_done fuel' (match up with Some r => operation_done r s | None => s end)
       end.

Definition get_operation_result (s : t) : Z := operation_result s.

Definition clear_operation (s : t) : t := mk (operation_result s) false (kernel s).

End App.

End FlashImpl.

(** ** Facts *)

Module FlashSyscallFacts.
Import FlashSyscalls.

Section Facts.
Context {D : Type} `{FlashDevice D}.

Lemma put_bytes_past n bs : ∀ idx buf, (n <= idx)%nat → put_bytes n idx bs buf = buf.
Proof.
  induction bs as [|b bs IH]; intros idx buf Hn; cbn [put_bytes]; [done|].
  destruct (Nat.ltb_spec idx n); [lia|]. apply IH. lia.
Qed.

Lemma put_bytes_spec n bs : ∀ idx buf, (idx <= n)%nat → (n <= length buf)%nat →
  put_bytes n idx bs buf = take idx buf ++ take (n - idx) bs ++ drop (Nat.min (idx + length bs) n) buf.
Proof.
  induction bs as [|b bs IH]; intros idx buf Hi Hn; cbn [put_bytes length].
  - rewrite take_nil. cbn [app]. rewrite Nat.add_0_r, Nat.min_l by lia. by rewrite take_drop.
  - destruct (Nat.ltb_spec idx n) as [Hlt|Hge].
    + rewrite IH by (rewrite ?length_insert; lia).
      rewrite (take_S_r _ idx b) by (apply list_lookup_insert_eq; lia).
      rewrite take_insert_ge, drop_insert_lt by lia. rewrite <-app_assoc. cbn [app].
      replace (n - idx)%nat with (S (n - S idx)) by lia. cbn [take app].
      by replace (S idx + length bs)%nat with (idx + S (length bs))%nat by lia.
    + rewrite put_bytes_past by lia. replace (n - idx)%nat with 0%nat by lia. cbn [take app].
      rewrite Nat.min_r by lia. replace n with idx by lia. by rewrite take_drop.
Qed.

(** The bytes of [n] words from [offset] on, as the device returns them. *)
Definition word_bytes (word : Z → Z) (offset : Z) (n : nat) : list Z :=
  concat ((λ i, le_bytes 4 (word (offset / 4 + Z.of_nat i))) <$> seq 0 n).

Lemma word_bytes_S word offset n : offset mod 4 = 0 →
  word_bytes word offset (S n) = le_bytes 4 (word (offset / 4)) ++ word_bytes word (offset + 4) n.
Proof.
  intros Ho. unfold word_bytes. cbn [seq fmap list_fmap concat]. f_equal; [by rewrite Z.add_0_r|].
  f_equal. rewrite <-fmap_S_seq, <-list_fmap_compose. apply list_fmap_ext. intros ? i _. cbn.
  replace (offset + 4) with (offset + 1 * 4) by lia. rewrite Z.div_add by lia. by replace (offset / 4 + 1 + Z.of_nat i) with (offset / 4 + Z.of_nat (S i)) by lia.
Qed.

Lemma length_word_bytes word offset n : length (word_bytes word offset n) = (4 * n)%nat.
Proof.
  unfold word_bytes. assert (Hk : ∀ k, length (concat ((λ i, le_bytes 4 (word (offset / 4 + Z.of_nat i))) <$> seq k n)) = (4 * n)%nat).
  { induction n as [|n IH]; intros k; [done|].
    cbn [seq fmap list_fmap concat]. rewrite length_app, length_le_bytes, IH. lia. }
  apply Hk.
Qed.

Lemma drop_overwritten {A} (l k : list A) m n :
  length l = m → (m <= n)%nat → drop n (l ++ drop m k) = drop n k.
Proof.
  intros Hl Hn. rewrite drop_app_ge by lia. rewrite drop_drop. f_equal. lia.
Qed.

Lemma read_loop_spec d word offset n words : ∀ idx buf,
  (∀ i, 0 <= i → fits 32 (word i) ∧ dev_read i d = SuccessWithValue (word i)) →
  0 <= offset → offset mod 4 = 0 → (idx mod 4 = 0)%nat → offset + Z.of_nat idx + 4 * Z.of_nat words < 2 ^ 32 →
  (n <= length buf)%nat → (idx <= n ∨ words = 0)%nat → (n <= idx + 4 * words)%nat →
  (words = 0 ∨ idx + 4 * (words - 1) < n)%nat →
  read_loop d offset n words idx buf =
  (SUCCESS, take (Nat.min idx n) buf ++ take (n - idx) (word_bytes word (offset + Z.of_nat idx) words) ++ drop n buf).
Proof.
  induction words as [|words IH]; intros idx buf Hdev Hoff Hmod Hi Htop Hn Hin Hcover Hlast.
  - cbn. rewrite take_nil. cbn [app]. rewrite Nat.min_r by lia. by rewrite take_drop.
  - cbn [read_loop].
    assert (Hidx : (Z.of_nat idx) mod 4 = 0) by (change 4 with (Z.of_nat 4); rewrite <-Nat2Z.inj_mod, Hi; done).
    assert (Ho : (offset + Z.of_nat idx) mod 4 = 0).
    { rewrite Z.add_mod, Hmod, Hidx by lia. done. }
    rewrite u32_small by (unfold fits; lia). unfold BYTES_PER_WORD.
    destruct (Hdev ((offset + Z.of_nat idx) / 4)) as [Hf ->]; [apply Z.div_pos; lia|].
    rewrite u32_small by done.
    rewrite IH; [|done|done|done| |lia| | |lia|lia].
    + rewrite word_bytes_S by done. rewrite !put_bytes_spec by lia. rewrite length_le_bytes. f_equal.
      set (bs := le_bytes 4 _). assert (Hbs : length bs = 4%nat) by apply length_le_bytes.
      set (m := Nat.min (idx + 4) n). rewrite (app_assoc (take idx buf) (take (n - idx) bs)).
      assert (Hm : length (take idx buf ++ take (n - idx) bs) = m).
      { rewrite length_app, !length_take, Hbs. subst m. lia. }
      rewrite take_app_length' by done. rewrite (drop_overwritten _ buf m n) by (done || (subst m; lia)).
      rewrite Nat.min_l by lia. rewrite <-!app_assoc. f_equal. rewrite take_app, Hbs, <-app_assoc. f_equal.
      f_equal. f_equal; [lia|]. f_equal. lia.
    + rewrite Nat.Div0.add_mod, Hi. done.
    + rewrite put_bytes_spec by lia. rewrite !length_app, !length_take, length_drop, length_le_bytes. lia.
    + lia.
Qed.

(** A read of the driver. *)
Lemma rounds_bounds n : (n <= 4 * rounds n)%nat ∧ (rounds n = 0 ∨ 4 * (rounds n - 1) < n)%nat.
Proof.
  unfold rounds. pose proof (Nat.div_mod_eq (n + 3) 4) as He. pose proof (Nat.mod_upper_bound (n + 3) 4).
  set (q := Nat.div (n + 3) 4) in *. lia.
Qed.

(** The words a write hands to the flash. *)
Definition write_words (self : t D) (app_buf : list Z) (write_len : Z) : nat :=
  match write_buffer self with
  | Some buffer => Nat.min (length buffer) (Nat.div (Nat.min (length app_buf) (Z.to_nat write_len)) 4)
  | None => 0
  end.

Lemma length_app_words n app_buf : length (app_words n app_buf) = n.
Proof. unfold app_words. by rewrite length_fmap, length_seq. Qed.

Lemma write_exact id target write_len app_buf buffer a (self : t D) :
  target mod 4 = 0 → write_len mod 4 = 0 → apps self id = Some a → app_write_buffer a = Some app_buf →
  write_buffer self = Some buffer →
  let words := app_words (write_words self app_buf write_len) app_buf in
  write id target write_len self =
  let '(rc, back, d) := dev_write (target / 4) words (device self) in
  (rc, set_write_buffer back (set_device d self)).
Proof.
  intros Ht Hl Ha Hab Hb words. unfold write, BYTES_PER_WORD. rewrite Ht, Hl. cbn [negb Z.eqb orb].
  unfold enter. rewrite Ha, Hab, Hb. cbv zeta.
  assert (Hw : take (Nat.min (length buffer) (Nat.div (Nat.min (length app_buf) (Z.to_nat write_len)) 4))
                 (copy_at buffer 0 (app_words (Nat.min (length buffer)
                    (Nat.div (Nat.min (length app_buf) (Z.to_nat write_len)) 4)) app_buf)) = words).
  { subst words. unfold write_words. rewrite Hb. set (n := Nat.min _ _).
    unfold copy_at. rewrite take_0. cbn [app]. rewrite take_app_length' by (by rewrite length_app_words). done. }
  rewrite Hw. cbn [device set_write_buffer].
  destruct (dev_write (target / 4) words (device self)) as [[rc back] d]. reflexivity.
Qed.

End Facts.

(** ** Theorems *)

(** A read system call returns the flash contents.  For a word-aligned offset
    and a flash whose words can be read, the driver answers [SUCCESS] and the
    front of the application's buffer, as long as the shorter of the buffer and
    the requested length, holds the little-endian bytes of the words from the
    offset on; the rest of the buffer is untouched. *)
Theorem syscall_read_exact {D} `{FlashDevice D} (self : t D) id a buf offset read_len word :
  (∀ i, 0 <= i → fits 32 (word i) ∧ dev_read i (device self) = SuccessWithValue (word i)) →
  apps self id = Some a → app_read_buffer a = Some buf →
  0 <= offset → offset mod 4 = 0 → offset + Z.of_nat (length buf) + 4 < 2 ^ 32 →
  let n := Nat.min (length buf) (Z.to_nat read_len) in
  ∃ self', read id offset read_len self = (SUCCESS, self') ∧
    apps self' id = Some (mk_AppData (app_write_buffer a)
      (Some (take n (word_bytes word offset (rounds n)) ++ drop n buf)) (operation_done_callback a)).
Proof.
  intros Hdev Ha Hb Hoff Hmod Htop n. unfold read, BYTES_PER_WORD. rewrite Hmod. cbn [negb Z.eqb].
  unfold enter. rewrite Ha, Hb. fold n. cbv zeta. destruct (rounds_bounds n) as [Hr1 Hr2].
  rewrite (read_loop_spec (device self) word offset n (rounds n) 0 buf);
    [|done|done|done|done| | | |lia|lia].
  - eexists. split; [reflexivity|]. cbn [set_app apps]. rewrite decide_True by done.
    rewrite Nat.min_0_l, take_0, Nat.sub_0_r, Z.add_0_r. reflexivity.
  - subst n. lia.
  - subst n. lia.
  - left. lia.
Qed.

(** A flash of the words 0, 1, 2, ... for the witnesses. *)
#[global] Instance counting_flash : FlashDevice unit := {|
  dev_erase _ d := (SUCCESS, d);
  dev_read i d := SuccessWithValue (u32 i);
  dev_write _ _ d := ((SUCCESS, None), d)
|}.

Definition sample_app : AppData := mk_AppData (Some (replicate 64 7)) (Some (replicate 6 0)) (Some 0%nat).
Definition sample_driver : t unit := new tt (replicate 32 0) (λ _, Some sample_app).

Lemma syscall_read_exact_witness :
  ∃ self', read 0%nat 8 6 sample_driver = (SUCCESS, self') ∧
    apps self' 0%nat = Some (mk_AppData (Some (replicate 64 7)) (Some [2; 0; 0; 0; 3; 0]) (Some 0%nat)).
Proof.
  apply (syscall_read_exact sample_driver 0%nat sample_app (replicate 6 0) 8 6 u32);
    [intros i Hi; split; [apply u32_fits|reflexivity]|reflexivity|reflexivity|lia|reflexivity|by_compute].
Defined.

(** The driver's write buffer never grows back.  A write hands the flash only
    as many words as the driver's buffer still has, and the slice the flash
    returns when it is done becomes the buffer: after a write of [k] words has
    completed, every later write, however long, is silently cut to at most [k]
    words. *)
Theorem syscall_write_shrinks {D} `{FlashDevice D} (self : t D) id a app_buf buffer target write_len d' rc :
  apps self id = Some a → app_write_buffer a = Some app_buf → write_buffer self = Some buffer →
  target mod 4 = 0 → write_len mod 4 = 0 →
  let k := write_words self app_buf write_len in
  let words := app_words k app_buf in
  dev_write (target / 4) words (device self) = ((SUCCESS, None), d') →
  let self1 := (write id target write_len self).2 in
  let self2 := write_done words rc self1 in
  (write id target write_len self).1 = SUCCESS ∧
  length words = Nat.min (length buffer) (Nat.div (Nat.min (length app_buf) (Z.to_nat write_len)) 4) ∧
  write_buffer self2 = Some words ∧
  ∀ app_buf' write_len', (write_words self2 app_buf' write_len' <= k)%nat.
Proof.
  intros Ha Hab Hb Ht Hl k words Hdev self1 self2.
  pose proof (write_exact id target write_len app_buf buffer a self Ht Hl Ha Hab Hb) as Hw.
  cbv zeta in Hw. fold k words in Hw. rewrite Hdev in Hw.
  assert (Hb2 : write_buffer self2 = Some words).
  { subst self2. unfold write_done, notify. destruct (current_user _) as [u|]; [|done].
    by destruct (apps _ u) as [[? ? [?|]]|]. }
  split_and!; [by rewrite Hw| |done|].
  - subst words. rewrite length_app_words. subst k. unfold write_words. by rewrite Hb.
  - intros app_buf' write_len'. unfold write_words at 1. rewrite Hb2. subst words. rewrite length_app_words. lia.
Qed.

Lemma syscall_write_shrinks_witness :
  let words := app_words 1 (replicate 64 7) in
  let self2 := write_done words SUCCESS (write 0%nat 0 4 sample_driver).2 in
  (write 0%nat 0 4 sample_driver).1 = SUCCESS ∧ length words = 1%nat ∧
  write_buffer self2 = Some words ∧
  ∀ app_buf' write_len', (write_words self2 app_buf' write_len' <= 1)%nat.
Proof.
  apply (syscall_write_shrinks sample_driver 0%nat sample_app (replicate 64 7) (replicate 32 0) 0 4 tt SUCCESS);
    reflexivity.
Defined.

(** The wait of the application: it returns once the kernel has run the
    callback, with the result the callback was given. *)
Section Wait.
Context {Kn : Type} `{Libtock Kn}.

(** The callback runs during the [n]-th yield from [k], with the argument [r]. *)
Inductive delivers : nat → Kn → Z → Prop :=
| delivers_now k r k' : sys_yieldk k = (Some r, k') → delivers 0 k r
| delivers_later n k k' r : sys_yieldk k = (None, k') → delivers n k' r → delivers (S n) k r.

Lemma wait_returns n fuel s r :
  delivers n (FlashImpl.kernel s) r → FlashImpl.operation_done_ s = false → (n < fuel)%nat →
  ∃ s', FlashImpl.wait_operation_done fuel s = Some s' ∧
        FlashImpl.get_operation_result s' = as_isize r ∧ FlashImpl.is_operation_done s' = true.
Proof.
  revert n s. induction fuel as [|fuel IH]; intros n s Hd Hdone Hf; [lia|].
  cbn [FlashImpl.wait_operation_done]. unfold FlashImpl.is_operation_done at 1. rewrite Hdone.
  inversion Hd as [k r' k' Hy|n' k k' r' Hy Hd']; subst; rewrite Hy.
  - destruct fuel; eexists; (split; [reflexivity|]); done.
  - apply (IH n'); [exact Hd'|reflexivity|lia].
Qed.

End Wait.

End FlashSyscallFacts.
