(* ===== verification/FirmwareController.v ===== *)
(** The firmware controller of the otpilot application
    (userspace/otpilot/src/firmware_controller.rs): erasing a segment page by
    page, writing a chunk and reading it back.

    The services the application calls (the traits [Flash], [SpiDevice],
    [SpiHost], [Reset] and the kernel behind them) are an environment: [Env]
    answers every call as a function of the whole history of calls, so a theorem
    for all environments holds for every deterministic implementation of the
    services.  The history is part of the state and records, in order, what the
    application asked for.  A wait that never comes back, and a loop cut off by
    its fuel, are the outcome [Panic]: a theorem that excludes [Panic] includes
    that the code returns. *)

From S2P Require Import Prelude Io Wire FirmwareProto FlashProto Tock.
From Stdlib Require Import ZArith Lia.
From stdpp Require Import base decidable option list list_numbers.

#[local] Open Scope Z_scope.

(** ** The services *)

Inductive Call :=
(* flash::Flash *)
| FlashErase (page : Z)
| FlashWrite (offset : Z) (buffer : list Z) (len : Z)
| FlashRead (offset : Z) (buffer : list Z) (len : Z)
| FlashWait
| FlashClear
(* spi_device::SpiDevice *)
| EndTransaction
| EndWithStatus (clear_busy clear_write_enable : bool)
| EndWithData (write_buffer : list Z) (clear_busy clear_write_enable : bool)
(* spi_host::SpiHost and spi_host_h1::SpiHostH1 *)
| SetWaitBusyClear (enable : bool)
| HostReadWrite (write_buffer : list Z) (len : Z)
| HostWait
(* reset::Reset *)
| ResetChip.

#[global] Instance Call_eq_dec : EqDecision Call.
Proof. solve_decision. Defined.

Record Env := mk_Env {
  (* whether the call, made after the history, answers [Ok] *)
  env_ok : list Call → Call → bool;
  (* whether the wait comes back *)
  env_returns : list Call → bool;
  (* what the kernel puts into the buffer of a flash read *)
  env_flash_bytes : list Call → Z → Z → list Z;
  (* [get_operation_result] *)
  env_operation_result : list Call → Z;
  (* [is_busy_set], [is_write_enable_set] and [get_address_mode] *)
  env_busy : list Call → bool;
  env_write_enable : list Call → bool;
  env_address_mode : list Call → AddressMode;
  (* the segments that globalsec read from the kernel when it was initialized *)
  env_segments : RuntimeSegmentInfo;
  (* the Manticore handler: request and response buffer to the response buffer
     and the length of the response *)
  env_manticore : list Z → list Z → option nat * list Z
}.

(** [buffer] after the kernel has copied [bytes] to its front. *)
Definition kernel_fill (bytes buffer : list Z) : list Z :=
  take (length buffer) (bytes ++ drop (length bytes) buffer).

Inductive FirmwareControllerError :=
| FcTock | FlashReadError | FlashWriteError | FlashOperationFailed.

#[global] Instance FirmwareControllerError_eq_dec : EqDecision FirmwareControllerError.
Proof. solve_decision. Defined.

Definition MAX_BUFFER_LENGTH : nat := 128.

Module FirmwareController.

Record t := mk {
  erase_segment_ : SegmentInfo;
  erase_page : Z;
  write_segment : SegmentInfo;
  write_offset : Z;
  write_length : nat
}.

Definition new : t := mk UNKNOWN_SEGMENT 0 UNKNOWN_SEGMENT 0 0.

(** The controller with the static [WRITE_BUF] and the history of calls. *)
Record st := mk_st { hist : list Call; self : t; WRITE_BUF : list Z }.

Definition initial : st := mk_st [] new (replicate MAX_BUFFER_LENGTH 0).

Section Controller.
Context (env : Env) (fuel : nat).

Definition log (c : Call) (s : st) : st := mk_st (hist s ++ [c]) (self s) (WRITE_BUF s).

(** A call that answers with a result. *)
Definition call {E} (c : Call) : M st E bool := λ s, (Ok (env_ok env (hist s) c), log c s).

(** [call()?], the error converted by [From<TockError>]. *)
Definition call_ok {E} (e : E) (c : Call) : M st E unit :=
  ok ← call c;
  if ok : bool then mret tt else throw e.

(** A call without a result. *)
Definition tell {E} (c : Call) : M st E unit := modify (log c).

(** [wait_operation_done] and [wait_read_write_done]. *)
Definition wait {E} (c : Call) : M st E unit := λ s,
  if env_returns env (hist s) then (Ok tt, log c s) else (Panic, s).

Definition set_self (f : t → t) (s : st) : st := mk_st (hist s) (f (self s)) (WRITE_BUF s).

Definition check_operation_result : M st FirmwareControllerError unit :=
  flash_op_result ← gets (λ s, env_operation_result env (hist s));
  tell FlashClear ;;
  if flash_op_result <? 0 then throw FlashOperationFailed else mret tt.

Definition erase_segment_start (segment : SegmentInfo) : M st FirmwareControllerError unit :=
  modify (set_self (λ c, mk segment (start_page segment) (write_segment c) (write_offset c) (write_length c))) ;;
  page ← gets (λ s, erase_page (self s));
  call_ok FcTock (FlashErase page).

Definition erase_segment_continue : M st FirmwareControllerError bool :=
  c ← gets self;
  let last := u32 (u32 (start_page (erase_segment_ c) + page_count (erase_segment_ c)) - 1) in
  if last <=? erase_page c then mret false
  else
    modify (set_self (λ c, mk (erase_segment_ c) (u32 (erase_page c + 1)) (write_segment c) (write_offset c) (write_length c))) ;;
    page ← gets (λ s, erase_page (self s));
    call_ok FcTock (FlashErase page) ;;
    mret true.

Definition get_write_flash_offset (c : t) : Z := u32 (seg_address (write_segment c) + write_offset c).

(** [for idx in 0..data.len() { WRITE_BUF[idx] = data[idx] }], which panics at
    the end of the buffer. *)
Definition copy_write_buf (data : list Z) : M st FirmwareControllerError unit := λ s,
  if (length data <=? length (WRITE_BUF s))%nat
  then (Ok tt, mk_st (hist s) (self s) (copy_at (WRITE_BUF s) 0 data))
  else (Panic, mk_st (hist s) (self s) (take (length (WRITE_BUF s)) data)).

Definition write_segment_chunk (segment : SegmentInfo) (offset : Z) (data : list Z) :
    M st FirmwareControllerError unit :=
  modify (set_self (λ c, mk (erase_segment_ c) (erase_page c) segment offset (length data))) ;;
  copy_write_buf data ;;
  s ← gets id;
  ok ← call (FlashWrite (get_write_flash_offset (self s)) (WRITE_BUF s) (Z.of_nat (write_length (self s))));
  if ok : bool then mret tt else throw FlashWriteError.

(** The compare loop: true when the first [n] bytes agree; [None] is an index
    out of range. *)
Fixpoint compare_loop (n : nat) (idx : nat) (read_buf write_buf : list Z) : option bool :=
  match n with
  | O => Some true
  | S n' =>
      match write_buf !! idx, read_buf !! idx with
      | Some w, Some r => if r =? w then compare_loop n' (S idx) read_buf write_buf else Some false
      | _, _ => None
      end
  end.

Definition verify_segment_chunk : M st FirmwareControllerError bool :=
  s ← gets id;
  let off := get_write_flash_offset (self s) in
  let len := Z.of_nat (write_length (self s)) in
  let zeros := replicate MAX_BUFFER_LENGTH 0 in
  ok ← call (FlashRead off zeros len);
  if negb (ok : bool) then throw FlashReadError
  else
    let read_buf := kernel_fill (env_flash_bytes env (hist s) off len) zeros in
    unwrap (compare_loop (write_length (self s)) 0 read_buf (WRITE_BUF s)).

(** [while self.erase_segment_continue()? { .. }] *)
Fixpoint erase_loop (fuel : nat) : M st FirmwareControllerError unit :=
  match fuel with
  | O => panic
  | S fuel' =>
      more ← erase_segment_continue;
      if more : bool then wait FlashWait ;; check_operation_result ;; erase_loop fuel'
      else mret tt
  end.

Definition erase_segment (segment : SegmentInfo) : M st FirmwareControllerError unit :=
  erase_segment_start segment ;;
  wait FlashWait ;;
  check_operation_result ;;
  erase_loop fuel.

Definition write_and_verify_segment_chunk (segment : SegmentInfo) (offset : Z) (data : list Z) :
    M st FirmwareControllerError bool :=
  write_segment_chunk segment offset data ;;
  wait FlashWait ;;
  check_operation_result ;;
  verify_segment_chunk.

Definition get_max_write_chunk_length : nat := MAX_BUFFER_LENGTH.

End Controller.

(** [get_build_info], whose only call is the read; [None] is a [TockError]. *)
Definition get_build_info (env : Env) (segment : SegmentInfo) : M st Empty_set (option BuildInfo) :=
  let off := u32 (seg_address segment + Z.of_nat BUILD_INFO_OFFSET) in
  let buf := replicate BUILD_INFO_LEN 0 in
  h ← gets hist;
  ok ← call env (FlashRead off buf (Z.of_nat BUILD_INFO_LEN));
  if negb (ok : bool) then mret None
  else
    let buf := kernel_fill (env_flash_bytes env h off (Z.of_nat BUILD_INFO_LEN)) buf in
    match build_info_from_wire buf with
    | (Ok b, _) => mret (Some b)
    | (Err _, _) => mret None
    | (Panic, _) => panic
    end.

End FirmwareController.

(** ** Facts *)

Module FcFacts.
Import FirmwareController.

(** The calls that erase one page. *)
Definition erase_calls (p : Z) : list Call := [FlashErase p; FlashWait; FlashClear].

Definition erase_range (p n : Z) : list Call := concat (erase_calls <$> seqZ p n).

Lemma erase_range_0 p : erase_range p 0 = [].
Proof. reflexivity. Qed.

Lemma erase_range_S p n : 0 <= n → erase_range p (Z.succ n) = erase_calls p ++ erase_range (Z.succ p) n.
Proof. intros Hn. unfold erase_range. rewrite seqZ_cons by lia. rewrite Z.pred_succ. reflexivity. Qed.

(** The last call of the history is one that the flash refused or whose
    operation failed. *)
Definition op_failed (env : Env) (h : list Call) : Prop :=
  ∃ h0 c, h = h0 ++ [c] ∧
    match c with
    | FlashErase _ | FlashWrite _ _ _ | FlashRead _ _ _ => env_ok env h0 c = false
    | FlashClear => env_operation_result env h0 < 0
    | _ => False
    end.

Class Returns (env : Env) := env_waits_return : ∀ h, env_returns env h = true.

(** What a run that wants to make the calls [todo] has done. *)
Definition did {A} (env : Env) (todo : list Call) (s : st) (x : outcome FirmwareControllerError A * st)
    (P : A → st → Prop) : Prop :=
  ∃ calls, hist x.2 = hist s ++ calls ∧ calls `prefix_of` todo ∧
    match x.1 with
    | Ok a => calls = todo ∧ P a x.2
    | Err _ => op_failed env (hist x.2)
    | Panic => False
    end.

Section Runs.
Context (env : Env) `{!Returns env}.

Lemma did_bind {A B} (m : M st FirmwareControllerError A) (f : A → M st FirmwareControllerError B) todo1 todo2 s P Q :
  did env todo1 s (m s) P →
  (∀ a s', hist s' = hist s ++ todo1 → P a s' → did env todo2 s' (f a s') Q) →
  did env (todo1 ++ todo2) s ((m ≫= f) s) Q.
Proof.
  intros (c1 & Hh1 & Hp1 & Hm) Hf. rewrite bind_unfold.
  destruct (m s) as [[a|e|] s1]; cbn [fst snd] in *; [|exists c1; split_and!; [done| |done]..|done].
  - destruct Hm as [-> HP]. destruct (Hf a s1 Hh1 HP) as (c2 & Hh2 & Hp2 & Hr).
    exists (todo1 ++ c2). split_and!.
    + by rewrite Hh2, Hh1, app_assoc.
    + by apply prefix_app.
    + destruct (f a s1) as [[b|e|] s2]; cbn [fst snd] in *; [|done..]. destruct Hr as [-> HQ]. done.
  - by apply prefix_app_r.
Qed.

Lemma did_ret {A} (a : A) s (P : A → st → Prop) : P a s → did env [] s (mret (M := M st FirmwareControllerError) a s) P.
Proof. intros HP. exists []. cbn. rewrite app_nil_r. split_and!; done. Qed.

Lemma did_weaken {A} todo s (x : outcome FirmwareControllerError A * st) (P Q : A → st → Prop) :
  did env todo s x P → (∀ a s', hist s' = hist s ++ todo → P a s' → Q a s') → did env todo s x Q.
Proof.
  intros (c & Hh & Hp & Hm) HQ. exists c. split_and!; [done..|].
  destruct x as [[a|e|] s']; cbn [fst snd] in *; [|done..]. destruct Hm as [-> HP]. auto.
Qed.

Lemma did_gets {A} (f : st → A) s : did env [] s (gets f s) (λ a s', a = f s ∧ s' = s).
Proof. exists []. cbn. rewrite app_nil_r. split_and!; done. Qed.

Lemma did_set (f : t → t) s :
  did env [] s (modify (set_self f) s) (λ _ s', self s' = f (self s) ∧ WRITE_BUF s' = WRITE_BUF s).
Proof. exists []. cbn. rewrite app_nil_r. split_and!; done. Qed.

Lemma did_wait s :
  did env [FlashWait] s (wait env FlashWait s) (λ _ s', self s' = self s ∧ WRITE_BUF s' = WRITE_BUF s).
Proof. exists [FlashWait]. unfold wait. rewrite env_waits_return. split_and!; done. Qed.

Lemma did_check s :
  did env [FlashClear] s (check_operation_result env s)
    (λ _ s', self s' = self s ∧ WRITE_BUF s' = WRITE_BUF s ∧ 0 <= env_operation_result env (hist s)).
Proof.
  exists [FlashClear]. unfold check_operation_result, mbind, M_bind, gets, tell, modify.
  destruct (_ <? 0) eqn:E; cbn; split_and!; try done.
  - exists (hist s), FlashClear. split; [done|]. by apply Z.ltb_lt.
  - by apply Z.ltb_ge.
Qed.

Lemma did_erase p s :
  did env [FlashErase p] s (call_ok env FcTock (FlashErase p) s)
    (λ _ s', self s' = self s ∧ WRITE_BUF s' = WRITE_BUF s).
Proof.
  exists [FlashErase p]. unfold call_ok, call, mbind, M_bind.
  destruct (env_ok _ _ _) eqn:E; cbn; split_and!; try done.
  exists (hist s), (FlashErase p). done.
Qed.

End Runs.

Section Erase.
Context (env : Env) `{!Returns env}.

Lemma erase_loop_did seg fuel n : ∀ s,
  erase_segment_ (self s) = seg →
  (∃ p, erase_page (self s) = p ∧ 0 <= start_page seg <= p ∧
        p + Z.of_nat n = start_page seg + page_count seg - 1 ∧ start_page seg + page_count seg <= 2 ^ 32 - 1) →
  (n < fuel)%nat →
  did env (erase_range (erase_page (self s) + 1) (Z.of_nat n)) s (erase_loop env fuel s) (λ _ _, True).
Proof.
  revert n. induction fuel as [|fuel IH]; intros n s Hseg (p & Hp & Hs & Hn & Hmax) Hf; [lia|].
  assert (Hlast : u32 (u32 (start_page seg + page_count seg) - 1) = p + Z.of_nat n).
  { rewrite (u32_small (_ + _)), u32_small by (unfold fits; lia). lia. }
  cbn [erase_loop]. rewrite Hp. destruct n as [|n].
  - rewrite erase_range_0. unfold erase_segment_continue, mbind, M_bind, gets. cbv beta iota zeta.
    rewrite Hseg, Hp, Hlast. rewrite (proj2 (Z.leb_le _ _)) by lia. by apply did_ret.
  - rewrite Nat2Z.inj_succ, erase_range_S by lia.
    change (erase_calls (p + 1)) with ([FlashErase (p + 1)] ++ ([FlashWait] ++ [FlashClear])).
    rewrite <-!(app_assoc _ _ (erase_range _ _)).
    apply (did_bind env _ _ _ _ _ (λ more s', more = true ∧ erase_segment_ (self s') = seg ∧ erase_page (self s') = p + 1)).
    + unfold erase_segment_continue.
      apply (did_bind env _ _ [] _ _ _ _ (did_gets env self s)). intros c s0 _ [-> ->].
      cbv zeta. rewrite Hseg, Hp, Hlast. rewrite (proj2 (Z.leb_gt _ _)) by lia.
      apply (did_bind env _ _ [] [FlashErase (p + 1)] _ _ _ (did_set env _ s)). intros _ s1 _ [Hs1 _].
      apply (did_bind env _ _ [] [FlashErase (p + 1)] _ _ _ (did_gets env _ s1)). intros page s2 _ [-> ->].
      assert (Hp1 : erase_page (self s1) = p + 1).
      { rewrite Hs1. cbn. rewrite Hp. apply u32_small. unfold fits. lia. }
      rewrite Hp1.
      apply (did_bind env _ _ [FlashErase (p + 1)] [] _ _ _ (did_erase env _ s1)). intros _ s3 _ [Hs3 _].
      apply did_ret. rewrite Hs3, Hp1. split_and!; [done| |done]. rewrite Hs1. exact Hseg.
    + intros more s1 _ (-> & Hseg1 & Hp1).
      apply (did_bind env _ _ [FlashWait] _ _ _ _ (did_wait env s1)). intros _ s2 _ [Hs2 _].
      apply (did_bind env _ _ [FlashClear] _ _ _ _ (did_check env s2)). intros _ s3 _ (Hs3 & _).
      replace (Z.succ (p + 1)) with (erase_page (self s3) + 1) by (rewrite Hs3, Hs2, Hp1; lia).
      apply IH; [by rewrite Hs3, Hs2|exists (p + 1); rewrite Hs3, Hs2; split_and!; lia|lia].
Qed.

(** A segment that names pages: the kernel's inactive segments. *)
Definition segment_ok (seg : SegmentInfo) : Prop :=
  0 <= start_page seg ∧ 1 <= page_count seg ∧ start_page seg + page_count seg <= 2 ^ 32 - 1.

Lemma erase_segment_did fuel seg s :
  segment_ok seg → page_count seg <= Z.of_nat fuel →
  did env (erase_range (start_page seg) (page_count seg)) s (erase_segment env fuel seg s) (λ _ _, True).
Proof.
  intros (H0 & H1 & H2) Hf.
  replace (page_count seg) with (Z.succ (Z.of_nat (Z.to_nat (page_count seg - 1)))) at 1 by lia.
  rewrite erase_range_S by lia.
  change (erase_calls (start_page seg)) with ([FlashErase (start_page seg)] ++ ([FlashWait] ++ [FlashClear])).
  rewrite <-!(app_assoc _ _ (erase_range _ _)). unfold erase_segment.
  apply (did_bind env _ _ _ _ _ (λ _ s', erase_segment_ (self s') = seg ∧ erase_page (self s') = start_page seg)).
  - unfold erase_segment_start.
    apply (did_bind env _ _ [] [FlashErase _] _ _ _ (did_set env _ s)). intros _ s1 _ [Hs1 _].
    apply (did_bind env _ _ [] [FlashErase _] _ _ _ (did_gets env _ s1)). intros page s2 _ [-> ->].
    assert (Hp : erase_page (self s1) = start_page seg) by (by rewrite Hs1).
    rewrite Hp. eapply did_weaken; [apply did_erase|]. intros _ s3 _ [-> _]. by rewrite Hs1.
  - intros _ s1 _ [Hseg Hp].
    apply (did_bind env _ _ [FlashWait] _ _ _ _ (did_wait env s1)). intros _ s2 _ [Hs2 _].
    apply (did_bind env _ _ [FlashClear] _ _ _ _ (did_check env s2)). intros _ s3 _ (Hs3 & _).
    replace (Z.succ (start_page seg)) with (erase_page (self s3) + 1) by (rewrite Hs3, Hs2, Hp; lia).
    apply (erase_loop_did seg); [by rewrite Hs3, Hs2| |lia].
    exists (start_page seg). rewrite Hs3, Hs2. split_and!; lia.
Qed.

End Erase.

Section Write.
Context (env : Env) `{!Returns env}.

Lemma compare_loop_spec n : ∀ idx r w,
  (idx + n <= length r)%nat → (idx + n <= length w)%nat →
  compare_loop n idx r w = Some (bool_decide (take n (drop idx r) = take n (drop idx w))).
Proof.
  induction n as [|n IH]; intros idx r w Hr Hw; [done|].
  destruct (lookup_lt_is_Some_2 r idx) as [a Ha]; [lia|].
  destruct (lookup_lt_is_Some_2 w idx) as [b Hb]; [lia|].
  cbn [compare_loop]. rewrite Ha, Hb. rewrite (drop_S _ _ _ Ha), (drop_S _ _ _ Hb). cbn [take].
  destruct (Z.eqb_spec a b) as [->|Hne].
  - rewrite IH by lia. f_equal. apply bool_decide_ext. split; [by intros ->|]. intros H. by injection H.
  - rewrite bool_decide_eq_false_2; [done|]. intros H. by injection H.
Qed.

Lemma length_kernel_fill bytes buf : length (kernel_fill bytes buf) = length buf.
Proof. unfold kernel_fill. rewrite length_take, length_app, length_drop. lia. Qed.

(** The calls of [write_and_verify_segment_chunk]. *)
Definition chunk_off (seg : SegmentInfo) (offset : Z) : Z := u32 (seg_address seg + offset).

Definition write_calls (seg : SegmentInfo) (offset : Z) (data buf : list Z) : list Call :=
  let off := chunk_off seg offset in
  let len := Z.of_nat (length data) in
  [FlashWrite off buf len; FlashWait; FlashClear].

Definition read_call (seg : SegmentInfo) (offset : Z) (data : list Z) : Call :=
  FlashRead (chunk_off seg offset) (replicate MAX_BUFFER_LENGTH 0) (Z.of_nat (length data)).

(** What the flash returns when it is read after the history [h]. *)
Definition read_back (h : list Call) (seg : SegmentInfo) (offset : Z) (data : list Z) : list Z :=
  let len := length data in
  take len (kernel_fill (env_flash_bytes env h (chunk_off seg offset) (Z.of_nat len)) (replicate MAX_BUFFER_LENGTH 0)).

Lemma write_did seg offset data s :
  length (WRITE_BUF s) = MAX_BUFFER_LENGTH → (length data <= MAX_BUFFER_LENGTH)%nat →
  let buf := copy_at (WRITE_BUF s) 0 data in
  did env (write_calls seg offset data buf ++ [read_call seg offset data]) s
    (write_and_verify_segment_chunk env seg offset data s)
    (λ b s', WRITE_BUF s' = buf ∧
       b = bool_decide (read_back (hist s ++ write_calls seg offset data buf) seg offset data = data)).
Proof.
  intros Hw Hd buf. unfold write_calls, write_and_verify_segment_chunk. cbv zeta.
  set (c1 := FlashWrite _ _ _).
  change ([c1; FlashWait; FlashClear] ++ [read_call seg offset data])
    with ([c1] ++ [FlashWait] ++ [FlashClear] ++ [read_call seg offset data]).
  set (inv := λ s' : st, write_segment (self s') = seg ∧ write_offset (self s') = offset ∧
                write_length (self s') = length data ∧ WRITE_BUF s' = buf).
  apply (did_bind env _ _ _ _ _ (λ _ s', inv s')).
  - unfold write_segment_chunk.
    apply (did_bind env _ _ [] [c1] _ _ _ (did_set env _ s)). intros _ s1 Hh1 [Hs1 Hb1].
    apply (did_bind env _ _ [] [c1] _ (λ _ s', hist s' = hist s1 ∧ inv s')).
    + exists []. unfold copy_write_buf. rewrite Hb1, Hw. rewrite (proj2 (Nat.leb_le _ _)) by lia.
      cbn. rewrite app_nil_r. unfold inv. cbn. rewrite Hs1. split_and!; done.
    + intros _ s2 _ [_ (Hi1 & Hi2 & Hi3 & Hi4)].
      apply (did_bind env _ _ [] [c1] _ _ _ (did_gets env id s2)). intros ? s3 _ [-> ->].
      exists [c1]. unfold id, get_write_flash_offset, call. rewrite bind_unfold, Hi1, Hi2, Hi3, Hi4.
      fold (chunk_off seg offset). fold c1. destruct (env_ok _ _ _) eqn:E; cbn; split_and!; try done.
      exists (hist s2), c1. done.
  - intros _ s1 Hh1 Hi.
    apply (did_bind env _ _ [FlashWait] _ _ _ _ (did_wait env s1)). intros _ s2 Hh2 [Hs2 Hb2].
    apply (did_bind env _ _ [FlashClear] _ _ _ _ (did_check env s2)). intros _ s3 Hh3 (Hs3 & Hb3 & _).
    assert (Hi3 : inv s3) by (unfold inv; rewrite Hs3, Hs2, Hb3, Hb2; exact Hi).
    destruct Hi3 as (Hi1 & Hi2 & Hi3 & Hi4). unfold verify_segment_chunk.
    apply (did_bind env _ _ [] [_] _ _ _ (did_gets env id s3)). intros ? s4 _ [-> ->].
    exists [read_call seg offset data]. unfold id, get_write_flash_offset, call. cbv zeta.
    rewrite bind_unfold, Hi1, Hi2, Hi3, Hi4. fold (chunk_off seg offset). fold (read_call seg offset data).
    destruct (env_ok _ _ _) eqn:E; cbn [negb].
    2:{ cbn. split_and!; [done..|]. exists (hist s3), (read_call seg offset data). done. }
    assert (Hbuf : length buf = MAX_BUFFER_LENGTH) by (subst buf; rewrite length_copy_at; lia).
    rewrite compare_loop_spec; [|rewrite length_kernel_fill, length_replicate; lia|lia].
    assert (Hh : hist s3 = hist s ++ [c1; FlashWait; FlashClear]).
    { by rewrite Hh3, Hh2, Hh1, <-!app_assoc. }
    assert (Ht : take (length data) buf = data).
    { subst buf. unfold copy_at. rewrite take_0. cbn [app]. apply take_app_length. }
    rewrite !drop_0, Ht, Hh. unfold unwrap, mret, M_ret. cbn [fst snd log hist WRITE_BUF].
    split_and!; [by rewrite Hh|done|done|exact Hi4|reflexivity].
Qed.

End Write.

(** An environment in which every call succeeds. *)
Class Cooperative (env : Env) := {
  coop_returns :: Returns env;
  coop_ok : ∀ h c, env_ok env h c = true;
  coop_result : ∀ h, 0 <= env_operation_result env h
}.

Section Runaway.
Context (env : Env) `{!Cooperative env}.

Lemma erase_loop_runs seg n : ∀ s,
  erase_segment_ (self s) = seg → 0 <= erase_page (self s) →
  erase_page (self s) + Z.of_nat n <= u32 (u32 (start_page seg + page_count seg) - 1) →
  ∃ s', erase_loop env n s = (Panic, s') ∧
        hist s' = hist s ++ erase_range (erase_page (self s) + 1) (Z.of_nat n).
Proof.
  induction n as [|n IH]; intros s Hseg Hp Hl; [exists s; by rewrite erase_range_0, app_nil_r|].
  assert (Hu : u32 (erase_page (self s) + 1) = erase_page (self s) + 1).
  { apply u32_small. pose proof (u32_fits (u32 (start_page seg + page_count seg) - 1)) as Hf.
    unfold fits in *. lia. }
  rewrite Nat2Z.inj_succ, erase_range_S by lia.
  cbn [erase_loop]. unfold erase_segment_continue, check_operation_result, wait, call_ok, call, tell,
    mbind, M_bind, gets, modify, mret, M_ret.
  cbv beta iota zeta. rewrite Hseg. rewrite (proj2 (Z.leb_gt _ _)) by lia.
  rewrite coop_ok, env_waits_return. rewrite (proj2 (Z.ltb_ge _ _)) by apply coop_result.
  match goal with |- ∃ _, erase_loop env n ?s1 = _ ∧ _ => destruct (IH s1) as (s' & Hr & Hh) end.
  - exact Hseg.
  - cbn. rewrite Hu. lia.
  - cbn. rewrite Hu. lia.
  - exists s'. split; [exact Hr|]. rewrite Hh. cbn. rewrite Hu, <-!app_assoc. cbn.
    by replace (Z.succ (erase_page (self s) + 1)) with (erase_page (self s) + 1 + 1) by lia.
Qed.

End Runaway.

(** ** Theorems *)

(** Erasing a segment.  For a segment of at least one page that lies below
    the last page number, [erase_segment] returns: it makes the calls that erase
    the pages [start_page], [start_page + 1], ... in this order, waiting for
    each and clearing the operation before the next; it answers [Ok] only when
    every page of the segment, and no other page, has been erased, and an error
    only when the flash refused or failed the last of its calls. *)
Theorem erase_segment_exact (env : Env) `{!Returns env} fuel seg s :
  segment_ok seg → page_count seg <= Z.of_nat fuel →
  ∃ r s' calls, erase_segment env fuel seg s = (r, s') ∧ hist s' = hist s ++ calls ∧
    calls `prefix_of` erase_range (start_page seg) (page_count seg) ∧
    match r with
    | Ok tt => calls = erase_range (start_page seg) (page_count seg)
    | Err _ => op_failed env (hist s')
    | Panic => False
    end.
Proof.
  intros Hs Hf. destruct (erase_segment_did env fuel seg s Hs Hf) as (calls & Hh & Hp & Hr).
  destruct (erase_segment env fuel seg s) as [r s']. exists r, s', calls. split_and!; [done..|].
  destruct r as [[]|e|]; [by destruct Hr|done..].
Qed.

(** An environment for the witnesses: everything succeeds, the flash reads [data]. *)
Definition sample_env (segments : RuntimeSegmentInfo) (data : list Z) : Env :=
  mk_Env (λ _ _, true) (λ _, true) (λ _ _ _, data) (λ _, 0) (λ _, true) (λ _, true) (λ _, ThreeByte) segments
    (λ _ buf, (Some 0%nat, buf)).

#[global] Instance sample_env_cooperative segments data : Cooperative (sample_env segments data).
Proof. split; [done|done|]. intros h. apply Z.le_refl. Qed.

Lemma erase_segment_exact_witness :
  ∃ r s' calls,
    erase_segment (sample_env sample_segments []) 120 sample_segment initial = (r, s') ∧
    hist s' = hist initial ++ calls ∧ calls `prefix_of` erase_range 8 120 ∧
    match r with
    | Ok tt => calls = erase_range 8 120
    | Err _ => op_failed (sample_env sample_segments []) (hist s')
    | Panic => False
    end.
Proof.
  apply (erase_segment_exact (sample_env sample_segments []) 120 sample_segment initial); by_compute.
Defined.

(** Writing a chunk.  For a chunk that fits the controller's buffer,
    [write_and_verify_segment_chunk] returns; it writes exactly the chunk (the
    front of [WRITE_BUF]) at the segment's address plus the offset, waits, and
    reads the same range back.  The answer is [Ok true] exactly when the bytes
    read back are the chunk, and an error only when the flash refused or failed
    the last call. *)
Theorem write_chunk_verified (env : Env) `{!Returns env} seg offset data s :
  length (WRITE_BUF s) = MAX_BUFFER_LENGTH → (length data <= MAX_BUFFER_LENGTH)%nat →
  ∃ r s' calls buf, write_and_verify_segment_chunk env seg offset data s = (r, s') ∧
    take (length data) buf = data ∧ hist s' = hist s ++ calls ∧
    calls `prefix_of` write_calls seg offset data buf ++ [read_call seg offset data] ∧
    match r with
    | Ok b => WRITE_BUF s' = buf ∧ calls = write_calls seg offset data buf ++ [read_call seg offset data] ∧
        (b = true ↔ read_back env (hist s ++ write_calls seg offset data buf) seg offset data = data)
    | Err _ => op_failed env (hist s')
    | Panic => False
    end.
Proof.
  intros Hw Hd. pose proof (write_did env seg offset data s Hw Hd) as (calls & Hh & Hp & Hr).
  destruct (write_and_verify_segment_chunk env seg offset data s) as [r s'].
  exists r, s', calls, (copy_at (WRITE_BUF s) 0 data). cbn [fst snd] in *. split_and!; [done| |done|done|].
  - unfold copy_at. rewrite take_0. cbn [app]. apply take_app_length.
  - destruct r as [b|e|]; [|done..]. destruct Hr as (-> & -> & ->). split_and!; [done..|].
    apply bool_decide_eq_true.
Qed.

Lemma write_chunk_verified_witness :
  ∃ r s' calls buf,
    write_and_verify_segment_chunk (sample_env sample_segments [1; 2; 3; 4]) sample_segment 8 [1; 2; 3; 4] initial
      = (r, s') ∧
    take 4 buf = [1; 2; 3; 4] ∧ hist s' = hist initial ++ calls ∧
    calls `prefix_of` write_calls sample_segment 8 [1; 2; 3; 4] buf ++ [read_call sample_segment 8 [1; 2; 3; 4]] ∧
    match r with
    | Ok b => WRITE_BUF s' = buf ∧
        calls = write_calls sample_segment 8 [1; 2; 3; 4] buf ++ [read_call sample_segment 8 [1; 2; 3; 4]] ∧
        (b = true ↔ read_back (sample_env sample_segments [1; 2; 3; 4])
           (hist initial ++ write_calls sample_segment 8 [1; 2; 3; 4] buf) sample_segment 8 [1; 2; 3; 4] = [1; 2; 3; 4])
    | Err _ => op_failed (sample_env sample_segments [1; 2; 3; 4]) (hist s')
    | Panic => False
    end.
Proof.
  apply (write_chunk_verified (sample_env sample_segments [1; 2; 3; 4]) sample_segment 8 [1; 2; 3; 4] initial);
    by_compute.
Defined.

(** A segment without pages at page 0 (the [UNKNOWN_SEGMENT] the kernel
    reports when it does not recognise the running image) is not erased as an
    empty one: the page bound wraps around, and with a flash that accepts every
    page the loop erases page after page from page 0.  After [n] rounds it has
    erased the pages 0 to [n] and is still running, for every [n] below 2^32. *)
Theorem erase_unknown_runs_away (env : Env) `{!Cooperative env} n s :
  Z.of_nat n < 2 ^ 32 →
  ∃ s', erase_segment env n UNKNOWN_SEGMENT s = (Panic, s') ∧
        hist s' = hist s ++ erase_range 0 (Z.of_nat n + 1).
Proof.
  intros Hn. unfold erase_segment, erase_segment_start, check_operation_result, wait, call_ok, call, tell,
    mbind, M_bind, gets, modify, mret, M_ret.
  cbv beta iota zeta. rewrite coop_ok, env_waits_return.
  rewrite (proj2 (Z.ltb_ge _ _)) by apply coop_result.
  match goal with |- ∃ _, erase_loop env n ?s1 = _ ∧ _ =>
    destruct (erase_loop_runs env UNKNOWN_SEGMENT n s1) as (s' & Hr & Hh) end.
  - reflexivity.
  - cbn. lia.
  - change (u32 (u32 (start_page UNKNOWN_SEGMENT + page_count UNKNOWN_SEGMENT) - 1)) with (2 ^ 32 - 1).
    cbn. lia.
  - exists s'. split; [exact Hr|]. rewrite Hh. change (Z.of_nat n + 1) with (Z.succ (Z.of_nat n)).
    rewrite erase_range_S by lia. cbn. by rewrite <-!app_assoc.
Qed.

Lemma erase_unknown_runs_away_witness :
  ∃ s', erase_segment (sample_env UNKNOWN_RUNTIME_SEGMENT_INFO []) 500 UNKNOWN_SEGMENT initial = (Panic, s') ∧
        hist s' = hist initial ++ erase_range 0 501.
Proof.
  apply (erase_unknown_runs_away (sample_env UNKNOWN_RUNTIME_SEGMENT_INFO []) 500 initial). by_compute.
Defined.

End FcFacts.
