(* ===== verification/SpiProcessor.v ===== *)
(** The SPI packet processor of the otpilot application
    (userspace/otpilot/src/spi_processor.rs).

    A packet is a flash command received on the SPI device port.  A page program
    at the mailbox carries a payload (an error, Manticore or firmware-update
    message) that is answered; other writes and erases are passed on to the SPI
    host, split into transactions that fit its buffer.  The services are the
    environment of FirmwareController.v and the calls are recorded in the
    history of the controller's state. *)

From S2P Require Import Prelude Io Wire FlashProto Payload FirmwareProto Tock FirmwareController.
From Stdlib Require Import ZArith Lia.
From stdpp Require Import base decidable option list list_numbers.

#[local] Open Scope Z_scope.

Definition SPI_FLASH_SIZE : Z := 0x4000000.
Definition SPI_MAILBOX_ADDRESS : Z := 0x80000.

(** [spi_device::MAX_READ_BUFFER_SIZE] and [spi_host::MAX_READ_BUFFER_LENGTH] *)
Definition MAX_READ_BUFFER_SIZE : nat := 512.
Definition MAX_READ_BUFFER_LENGTH : nat := 128.

Definition SPI_MAILBOX_SIZE : Z := Z.of_nat MAX_READ_BUFFER_SIZE.

Inductive SpiProcessorError :=
| SpFromWire (e : FromWireError)
| SpToWire (e : ToWireError)
| SpTock
| SpManticore
| UnsupportedFirmwareOperation (c : FwContentType)
| UnsupportedOpCode (o : OpCode)
| InvalidAddress (a : option Z)
| SpFormat.

Definition SPI_TX_BUF_SIZE : nat := 512.

Module SpiProcessor.

(** The processor's firmware controller, with the history of calls, and the
    static [SPI_TX_BUF]. *)
Record st := mk_st { firmware : FirmwareController.st; SPI_TX_BUF : list Z }.

Definition initial : st := mk_st FirmwareController.initial (replicate SPI_TX_BUF_SIZE 0xff).

Definition hist (s : st) : list Call := FirmwareController.hist (firmware s).

Abbreviation SP := (M st SpiProcessorError).

Definition set_firmware (f : FirmwareController.st) (s : st) : st := mk_st f (SPI_TX_BUF s).
Definition set_tx (b : list Z) (s : st) : st := mk_st (firmware s) b.

(** Running a part of the application on its state. *)
Definition svc {A} (m : M FirmwareController.st SpiProcessorError A) : SP A := zoom firmware set_firmware m.

(** The result of a firmware operation as a value, for the [match] on it. *)
Definition attempt {A} (m : M FirmwareController.st FirmwareControllerError A) :
    SP (A + FirmwareControllerError) := λ s,
  match m (firmware s) with
  | (Ok a, f) => (Ok (inl a), set_firmware f s)
  | (Err e, f) => (Ok (inr e), set_firmware f s)
  | (Panic, f) => (Panic, set_firmware f s)
  end.

(** Parsing a slice; the rest of it is returned as well. *)
Definition parse {A} (m : M (list Z) FromWireError A) (data : list Z) : SP (A * list Z) := λ s,
  match m data with
  | (Ok a, rest) => (Ok (a, rest), s)
  | (Err e, _) => (Err (SpFromWire e), s)
  | (Panic, _) => (Panic, s)
  end.

(** Writing through a cursor over [SPI_TX_BUF[from..]]; the consumed length. *)
Definition write_tx (from : nat) (m : M Cursor.t ToWireError unit) : SP nat := λ s,
  match m (Cursor.new (drop from (SPI_TX_BUF s))) with
  | (r, c) =>
      let s' := set_tx (take from (SPI_TX_BUF s) ++ Cursor.buf c) s in
      match r with
      | Ok _ => (Ok (Cursor.consumed_len c), s')
      | Err e => (Err (SpToWire e), s')
      | Panic => (Panic, s')
      end
  end.

Definition is_mailbox_address (addr : Z) : bool :=
  (SPI_MAILBOX_ADDRESS <=? addr) && (addr <? u32 (SPI_MAILBOX_ADDRESS + SPI_MAILBOX_SIZE)).

Section Processor.
Context (env : Env) (fuel : nat).

Definition call_ok (c : Call) : SP unit := svc (FirmwareController.call_ok env SpTock c).

Definition send_data (content_type : ContentType) (content_len : Z) : SP unit :=
  tx_buf ← gets SPI_TX_BUF;
  let header := mk_PayloadHeader content_type content_len 0 in
  body ← unwrap (slice tx_buf HEADER_LEN (length tx_buf));
  sum ← unwrap (compute_checksum header body);
  let header := mk_PayloadHeader content_type content_len sum in
  write_tx 0 (payload_header_to_wire header) ;;
  tx_buf ← gets SPI_TX_BUF;
  out ← unwrap (slice tx_buf 0 (HEADER_LEN + Z.to_nat content_len));
  call_ok (EndWithData out true true).

(** The body of an error message, by its [ToWire] implementation. *)
Definition err_to_wire {W} `{Write W} (m : ErrMessage) : M W ToWireError unit :=
  match m with
  | BadChecksum => bad_checksum_to_wire
  | ContentTypeNotSupported => content_type_not_supported_to_wire
  end.

Definition send_error (msg : ErrMessage) : SP unit :=
  consumed ← write_tx HEADER_LEN (err_header_to_wire (mk_ErrHeader (err_type msg)) ;; err_to_wire msg);
  payload_len ← ok_or (SpFromWire OutOfRange) (u16_try_from consumed);
  send_data CtError payload_len.

Definition process_manticore (data : list Z) : SP unit :=
  tx_buf ← gets SPI_TX_BUF;
  body ← unwrap (slice tx_buf HEADER_LEN (length tx_buf));
  let '(result, response) := env_manticore env data body in
  modify (set_tx (take HEADER_LEN tx_buf ++ kernel_fill response body)) ;;
  manticore_len ← ok_or SpManticore result;
  payload_len ← ok_or (SpFromWire OutOfRange) (u16_try_from manticore_len);
  send_data CtManticore payload_len.

Definition send_firmware_response (response : FirmwareMessage) : SP unit :=
  consumed ← write_tx HEADER_LEN (message_to_wire response);
  payload_len ← ok_or (SpFromWire OutOfRange) (u16_try_from consumed);
  send_data CtFirmware payload_len.

Definition get_inactive_ro : SegmentInfo := inactive_ro (env_segments env).
Definition get_inactive_rw : SegmentInfo := inactive_rw (env_segments env).

Definition process_firmware_inactive_segments (data : list Z) : SP unit :=
  parse isi_request_from_wire data ;;
  send_firmware_response
    (MsgInactiveSegmentsInfoResponse (mk_InactiveSegmentsInfoResponse get_inactive_ro get_inactive_rw)).

(** The inactive segment that a request names. *)
Definition find_segment (sal : SegmentAndLocation) : option SegmentInfo :=
  if decide (sal = identifier get_inactive_rw) then Some get_inactive_rw
  else if decide (sal = identifier get_inactive_ro) then Some get_inactive_ro
  else None.

Definition process_firmware_update_prepare (data : list Z) : SP unit :=
  '(req, _) ← parse update_prepare_request_from_wire data;
  match find_segment (upq_segment req) with
  | None =>
      send_firmware_response
        (MsgUpdatePrepareResponse (mk_UpdatePrepareResponse (upq_segment req) 0 UpInvalidSegmentAndLocation))
  | Some segment =>
      r ← attempt (FirmwareController.erase_segment env fuel segment);
      match r with
      | inl _ =>
          send_firmware_response
            (MsgUpdatePrepareResponse (mk_UpdatePrepareResponse (upq_segment req)
               (wrap 16 (Z.of_nat FirmwareController.get_max_write_chunk_length)) UpSuccess))
      | inr _ =>
          send_firmware_response
            (MsgUpdatePrepareResponse (mk_UpdatePrepareResponse (upq_segment req) 0 UpError))
      end
  end.

Definition send_firmware_write_chunk_response (req : WriteChunkRequest) (result : WriteChunkResult) : SP unit :=
  send_firmware_response (MsgWriteChunkResponse (mk_WriteChunkResponse (wcq_segment req) (wcq_offset req) result)).

Definition process_firmware_write_chunk (data : list Z) : SP unit :=
  '(req, _) ← parse write_chunk_request_from_wire data;
  match find_segment (wcq_segment req) with
  | None => send_firmware_write_chunk_response req WcInvalidSegmentAndLocation
  | Some segment =>
      if seg_size segment <=? wcq_offset req then
        send_firmware_write_chunk_response req WcInvalidOffset
      else if (seg_size segment <? u32 (wcq_offset req + u32 (Z.of_nat (length (wcq_data req)))))
              || (FirmwareController.get_max_write_chunk_length <? length (wcq_data req))%nat then
        send_firmware_write_chunk_response req WcDataTooLong
      else
        r ← attempt (FirmwareController.write_and_verify_segment_chunk env segment (wcq_offset req) (wcq_data req));
        send_firmware_write_chunk_response req
          match r with
          | inr _ => WcError
          | inl false => WcCompareFailed
          | inl true => WcSuccess
          end
  end.

Definition send_firmware_reboot_response (req : RebootRequest) (result : RebootResult) : SP unit :=
  send_firmware_response (MsgRebootResponse (mk_RebootResponse (rbq_time req) result)).

Definition process_firmware_reboot (data : list Z) : SP unit :=
  '(req, _) ← parse reboot_request_from_wire data;
  result ← match rbq_time req with
           | RtImmediate =>
               ok ← svc (FirmwareController.call env ResetChip);
               mret (if ok : bool then RbSuccess else RbError)
           | RtDelayed => mret RbError
           end;
  send_firmware_reboot_response req result.

Definition process_firmware (data : list Z) : SP unit :=
  '(header, data) ← parse fw_header_from_wire data;
  match fw_content header with
  | CtInactiveSegmentsInfoRequest => process_firmware_inactive_segments data
  | CtUpdatePrepareRequest => process_firmware_update_prepare data
  | CtWriteChunkRequest => process_firmware_write_chunk data
  | CtRebootRequest => process_firmware_reboot data
  | c => throw (UnsupportedFirmwareOperation c)
  end.

Definition process_spi_payload (data : list Z) : SP unit :=
  '(header, data) ← parse payload_header_from_wire data;
  sum ← unwrap (compute_checksum header data);
  if negb (checksum header =? sum) then send_error BadChecksum
  else
    match content header with
    | CtManticore => d ← unwrap (slice data 0 (Z.to_nat (content_len header))); process_manticore d
    | CtFirmware => d ← unwrap (slice data 0 (Z.to_nat (content_len header))); process_firmware d
    | CtError => send_error ContentTypeNotSupported
    end.

(** One transaction of [spi_host_send]: the buffer, its used length, and the
    number of data bytes in it. *)
Definition host_transaction {t} `{Address t} (header : Header t) (data : list Z) :
    outcome ToWireError (list Z * nat * nat) :=
  match (header_to_wire header ;;
         if has_dummy_byte (opcode header) then io_to (write_bytes [0x0]) else mret tt)
        (Cursor.new (replicate MAX_READ_BUFFER_LENGTH 0xff)) with
  | (Ok _, c) =>
      let data_len_to_send := Nat.min (MAX_READ_BUFFER_LENGTH - Cursor.consumed_len c) (length data) in
      match io_to (write_bytes (take data_len_to_send data)) c with
      | (Ok _, c) => Ok (Cursor.buf c, Cursor.consumed_len c, data_len_to_send)
      | (Err e, _) => Err e
      | (Panic, _) => Panic
      end
  | (Err e, _) => Err e
  | (Panic, _) => Panic
  end.

(** The address of the next transaction. *)
Definition next_header {t} `{Address t} (header : Header t) (delta : nat) : option (Header t) :=
  match address header with
  | None => Some header
  | Some addr =>
      a ← addr_try_from t (u32 (addr + Z.of_nat delta));
      Some (mk_Header (opcode header) (Some a))
  end.

(** [u32::try_from(data_len_to_send)] never fails: usize has 32 bits. *)
Fixpoint spi_host_send {t} `{Address t} (rounds : nat) (header : Header t) (data : list Z)
    (pre_transaction_fn : SP unit) : SP unit :=
  match rounds with
  | O => panic
  | S rounds' =>
      pre_transaction_fn ;;
      match host_transaction header data with
      | Ok (tx_buf, tx_len, data_len_to_send) =>
          call_ok (SetWaitBusyClear (wait_busy_clear (opcode header))) ;;
          call_ok (HostReadWrite tx_buf (Z.of_nat tx_len)) ;;
          svc (FirmwareController.wait env HostWait) ;;
          let data := drop data_len_to_send data in
          header ← ok_or (SpFromWire OutOfRange) (next_header header data_len_to_send);
          if (length data =? 0)%nat then mret tt
          else spi_host_send rounds' header data pre_transaction_fn
      | Err e => throw (SpToWire e)
      | Panic => panic
      end
  end.

Definition spi_host_write_enable : SP unit :=
  spi_host_send (t := U32) fuel (mk_Header WriteEnable None) [] (mret tt).

Definition spi_host_write {t} `{Address t} (header : Header t) (data : list Z) : SP unit :=
  spi_host_send fuel header data spi_host_write_enable.

Definition clear_device_status (clear_busy clear_write_enable : bool) : SP unit :=
  call_ok (EndWithStatus clear_busy clear_write_enable).

Definition is_write_enable_set : SP bool := gets (λ s, env_write_enable env (hist s)).

Definition process_spi_header {t} `{Address t} (header : Header t) (rx_buf : list Z) : SP unit :=
  data ← (if has_dummy_byte (opcode header) then unwrap (slice rx_buf 1 (length rx_buf)) else mret rx_buf);
  match opcode header with
  | PageProgram =>
      match get_address header with
      | Some addr =>
          if is_mailbox_address addr then
            we ← is_write_enable_set;
            (if we : bool then process_spi_payload data else mret tt) ;;
            clear_device_status true true
          else
            we ← is_write_enable_set;
            (if we : bool then spi_host_write header data else mret tt) ;;
            clear_device_status true true
      | None => throw (InvalidAddress None)
      end
  | SectorErase | BlockErase32KB | BlockErase64KB =>
      match get_address header with
      | Some addr =>
          if is_mailbox_address addr then clear_device_status true true
          else
            we ← is_write_enable_set;
            (if we : bool then spi_host_write header data else mret tt) ;;
            clear_device_status true true
      | None => throw (InvalidAddress None)
      end
  | ChipErase | ChipErase2 =>
      we ← is_write_enable_set;
      (if we : bool then spi_host_write header data else mret tt) ;;
      clear_device_status true true
  | op => throw (UnsupportedOpCode op)
  end.

Definition process_spi_packet (rx_buf : list Z) : SP unit :=
  mode ← gets (λ s, env_address_mode env (hist s));
  match mode with
  | ThreeByte =>
      '(header, rx_buf) ← parse (header_from_wire (t := U24)) rx_buf;
      process_spi_header header rx_buf
  | FourByte =>
      '(header, rx_buf) ← parse (header_from_wire (t := U32)) rx_buf;
      process_spi_header header rx_buf
  end.

End Processor.

End SpiProcessor.

(** ** Facts *)

Module SpFacts.
Import SpiProcessor.

(** The packet that answers with [body]: its header and its checksum. *)
Definition answer_header (ct : ContentType) (body : list Z) : PayloadHeader :=
  let h := mk_PayloadHeader ct (Z.of_nat (length body)) 0 in
  mk_PayloadHeader ct (Z.of_nat (length body)) (default 0 (compute_checksum h body)).

Definition answer (ct : ContentType) (body : list Z) : list Z := encode (answer_header ct body) ++ body.

Definition tx_ok (s : st) : Prop := length (SPI_TX_BUF s) = SPI_TX_BUF_SIZE.

Lemma header_into_buffer h b0 b1 b2 b3 tail :
  payload_header_to_wire h (Cursor.new (b0 :: b1 :: b2 :: b3 :: tail)) =
  (Ok tt, Cursor.mk (encode h ++ tail) 4).
Proof. destruct h. reflexivity. Qed.

Lemma compute_checksum_take ct n k (d : list Z) :
  (n <= length d)%nat →
  compute_checksum (mk_PayloadHeader ct (Z.of_nat n) k) d =
  compute_checksum (mk_PayloadHeader ct (Z.of_nat n) 0) (take n d).
Proof.
  intros Hn. unfold compute_checksum. cbn [content_len content]. rewrite Nat2Z.id.
  rewrite (proj2 (Nat.ltb_ge _ _)) by lia. rewrite (proj2 (Nat.ltb_ge _ _)) by (rewrite length_take; lia).
  by rewrite take_take, Nat.min_id.
Qed.

Lemma slice_prefix {A} (d : list A) n : (n <= length d)%nat → slice d 0 n = Some (take n d).
Proof.
  intros Hn. unfold slice. rewrite (proj2 (Nat.leb_le n _)) by lia. cbn. by rewrite drop_0, Nat.sub_0_r.
Qed.

Lemma slice_suffix {A} (d : list A) n : (n <= length d)%nat → slice d n (length d) = Some (drop n d).
Proof.
  intros Hn. unfold slice. rewrite (proj2 (Nat.leb_le n _)) by lia. rewrite Nat.leb_refl. cbn.
  rewrite take_ge; [done|]. rewrite length_drop. lia.
Qed.

Section Exact.
Context (env : Env).

Lemma send_data_exact ct n s :
  tx_ok s → (HEADER_LEN + n <= SPI_TX_BUF_SIZE)%nat →
  ∃ s', send_data env ct (Z.of_nat n) s =
        call_ok env (EndWithData (answer ct (take n (drop HEADER_LEN (SPI_TX_BUF s)))) true true) s' ∧
        firmware s' = firmware s ∧ tx_ok s'.
Proof.
  intros Htx Hn. unfold tx_ok in Htx. destruct s as [fw tx]. cbn [SPI_TX_BUF firmware] in *.
  do 4 (destruct tx as [|? tx]; [discriminate|]).
  assert (Hl : (n <= length tx)%nat) by (cbn in Htx; unfold HEADER_LEN, SPI_TX_BUF_SIZE in *; lia).
  set (b := take n tx).
  assert (Hb : length b = n) by (subst b; rewrite length_take; lia).
  unfold send_data, mbind, M_bind, gets. cbn [SPI_TX_BUF].
  rewrite slice_suffix by (cbn; unfold HEADER_LEN; lia). cbn [unwrap mret M_ret].
  change (drop HEADER_LEN (_ :: _ :: _ :: _ :: tx)) with tx.
  assert (Hc : compute_checksum (mk_PayloadHeader ct (Z.of_nat n) 0) tx =
               Some (checksum (answer_header ct b))).
  { rewrite compute_checksum_take by done. fold b. unfold answer_header. cbn [checksum]. rewrite Hb.
    unfold compute_checksum. cbn [content_len]. rewrite Nat2Z.id.
    by rewrite (proj2 (Nat.ltb_ge _ _)) by lia. }
  rewrite Hc. cbn [unwrap mret M_ret].
  assert (Hh : mk_PayloadHeader ct (Z.of_nat n) (checksum (answer_header ct b)) = answer_header ct b).
  { unfold answer_header. cbn [checksum]. by rewrite Hb. }
  rewrite Hh. unfold write_tx. cbn [SPI_TX_BUF]. rewrite drop_0, header_into_buffer.
  cbn [Cursor.buf set_tx SPI_TX_BUF firmware take app].
  rewrite slice_prefix.
  2:{ rewrite length_app. change (length (encode (answer_header ct b))) with HEADER_LEN. lia. }
  exists (mk_st fw (encode (answer_header ct b) ++ tx)). cbn [unwrap mret M_ret]. split; [|split; [reflexivity|]].
  - f_equal. unfold answer. f_equal.
    rewrite Nat2Z.id. rewrite take_app_ge by (change (length (encode (answer_header ct b))) with HEADER_LEN; lia).
    f_equal. change (length (encode (answer_header ct b))) with HEADER_LEN.
    by replace (HEADER_LEN + n - HEADER_LEN)%nat with n by lia.
  - exact Htx.
Qed.

Lemma write_tx_exact m bs s :
  emits (W := Cursor.t) (ToIo BufferExhausted) m bs → tx_ok s → (HEADER_LEN + length bs <= SPI_TX_BUF_SIZE)%nat →
  ∃ tx, write_tx HEADER_LEN m s = (Ok (length bs), set_tx tx s) ∧ length tx = SPI_TX_BUF_SIZE ∧
        take (length bs) (drop HEADER_LEN tx) = bs.
Proof.
  intros Hm Htx Hn. unfold tx_ok in Htx. set (c := Cursor.new (drop HEADER_LEN (SPI_TX_BUF s))).
  assert (Hlen : length (Cursor.buf c) = (SPI_TX_BUF_SIZE - HEADER_LEN)%nat).
  { subst c. cbn [Cursor.new Cursor.buf]. rewrite length_drop. lia. }
  assert (Hinv : wr_inv c).
  { split; [cbn; lia|]. rewrite Hlen. by_compute. }
  destruct (Hm c Hinv) as [Hok _]. destruct Hok as (c' & Hr & Hi & Ho & Hroom).
  { change (wr_room c) with (length (Cursor.buf c) - 0)%nat. lia. }
  destruct Hi as [Hi1 Hi2].
  change (wr_out c') with (take (Cursor.cursor c') (Cursor.buf c')) in Ho.
  change (wr_out c) with (take 0 (Cursor.buf c)) in Ho. rewrite take_0 in Ho. cbn [app] in Ho.
  change (wr_room c') with (length (Cursor.buf c') - Cursor.cursor c')%nat in Hroom.
  change (wr_room c) with (length (Cursor.buf c) - 0)%nat in Hroom.
  assert (Hcur : Cursor.cursor c' = length bs) by (rewrite <-Ho, length_take; lia).
  unfold write_tx. fold c. rewrite Hr. unfold Cursor.consumed_len. rewrite Hcur.
  eexists. split; [reflexivity|]. rewrite length_app, length_take.
  split; [unfold HEADER_LEN, SPI_TX_BUF_SIZE in *; lia|].
  rewrite drop_app_length'; [by rewrite <-Hcur|]. rewrite length_take. unfold HEADER_LEN, SPI_TX_BUF_SIZE in *. lia.
Qed.

(** Building a message behind the header and sending it. *)
Lemma respond_exact ct m bs s :
  emits (W := Cursor.t) (ToIo BufferExhausted) m bs → tx_ok s → (HEADER_LEN + length bs <= SPI_TX_BUF_SIZE)%nat →
  ∃ s', (consumed ← write_tx HEADER_LEN m;
         payload_len ← ok_or (SpFromWire OutOfRange) (u16_try_from consumed);
         send_data env ct payload_len) s =
        call_ok env (EndWithData (answer ct bs) true true) s' ∧ firmware s' = firmware s ∧ tx_ok s'.
Proof.
  intros Hm Htx Hn. destruct (write_tx_exact m bs s Hm Htx Hn) as (tx & Hw & Hl & Hb).
  rewrite (bind_ok _ _ _ _ _ Hw). unfold u16_try_from.
  rewrite (proj2 (Z.ltb_lt _ _)) by (unfold SPI_TX_BUF_SIZE in *; lia).
  destruct (send_data_exact ct (length bs) (set_tx tx s)) as (s' & Hs & Hf & Ht); [exact Hl|done|].
  exists s'. split_and!; [|by rewrite Hf|done]. rewrite (bind_ok _ _ _ (Z.of_nat (length bs)) (set_tx tx s)) by done.
  rewrite Hs. cbn [set_tx SPI_TX_BUF]. by rewrite Hb.
Qed.

Lemma err_emits msg :
  emits (W := Cursor.t) (ToIo BufferExhausted)
    (err_header_to_wire (mk_ErrHeader (err_type msg)) ;; err_to_wire msg) [to_wire_value (err_type msg)].
Proof.
  change [to_wire_value (err_type msg)] with ((encode (mk_ErrHeader (err_type msg))) ++ []).
  apply emits_bind; [by apply (to_wire_emits Cursor.t (mk_ErrHeader (err_type msg)))|].
  destruct msg; apply emits_ret.
Qed.

End Exact.

End SpFacts.
