(* ===== verification/SpiForward.v ===== *)
(** Passing writes on to the SPI host: [spi_host_send] of
    userspace/otpilot/src/spi_processor.rs.

    The data of a command is cut into chunks that fit the host's 128-byte buffer
    behind the header; each transaction carries the address of its chunk and is
    preceded by a "write enable" transaction. *)

From S2P Require Import Prelude Io Wire FlashProto Payload FirmwareProto Tock FirmwareController SpiProcessor.
From Stdlib Require Import ZArith Lia.
From stdpp Require Import base decidable option list list_numbers.

#[local] Open Scope Z_scope.

Import FcFacts SpiProcessor.

(** ** One transaction *)

Section Transaction.
Context {t : int_ty} `{AddressLaws t}.

(** What precedes the data on the wire. *)
Definition preamble (h : Header t) : list Z :=
  encode h ++ (if has_dummy_byte (opcode h) then [0] else []).

Definition chunk_room (h : Header t) : nat := (MAX_READ_BUFFER_LENGTH - length (preamble h))%nat.

Lemma length_preamble h : (1 <= length (preamble h) <= 11)%nat.
Proof.
  unfold preamble. destruct h as [op a]. cbn [encode Header_WireLaws]. unfold header_encode. cbn [opcode address].
  rewrite !length_app. cbn [length].
  assert (length (if a is Some x then be_bytes (size_of t) x else []) <= 8)%nat.
  { destruct a; cbn; [rewrite length_be_bytes; destruct t; cbn; lia|lia]. }
  destruct (has_dummy_byte op); cbn [length app]; lia.
Qed.

Lemma host_transaction_exact (h : Header t) data :
  header_valid h →
  let n := Nat.min (chunk_room h) (length data) in
  ∃ buf, host_transaction h data = Ok (buf, (length (preamble h) + n)%nat, n) ∧
         length buf = MAX_READ_BUFFER_LENGTH ∧
         take (length (preamble h) + n) buf = preamble h ++ take n data.
Proof.
  intros Hv n. unfold host_transaction.
  set (c := Cursor.new (replicate MAX_READ_BUFFER_LENGTH 0xff)).
  assert (Hinv : wr_inv c) by (split; [cbn; lia|by_compute]).
  assert (Hem : emits (W := Cursor.t) (ToIo BufferExhausted)
    (header_to_wire h ;; if has_dummy_byte (opcode h) then io_to (write_bytes [0x0]) else mret tt) (preamble h)).
  { apply emits_bind; [by apply (to_wire_emits (WireLaws := Header_WireLaws) Cursor.t h)|].
    destruct (has_dummy_byte _); [apply emits_write|apply emits_ret]. }
  pose proof (length_preamble h) as Hpre.
  destruct (Hem c Hinv) as [Hok _]. destruct Hok as (c1 & Hr1 & Hi1 & Ho1 & Hroom1).
  { change (wr_room c) with 128%nat. lia. }
  rewrite Hr1.
  change (wr_out c) with (@nil Z) in Ho1. cbn [app] in Ho1.
  change (wr_room c) with 128%nat in Hroom1.
  assert (Hc1 : Cursor.consumed_len c1 = length (preamble h)).
  { rewrite <-Ho1. change (wr_out c1) with (take (Cursor.cursor c1) (Cursor.buf c1)).
    destruct Hi1. rewrite length_take. unfold Cursor.consumed_len. lia. }
  rewrite Hc1. fold (chunk_room h). fold n. cbv zeta.
  assert (Hn : (n <= 128 - length (preamble h))%nat) by (subst n; unfold chunk_room, MAX_READ_BUFFER_LENGTH; lia).
  assert (Hlt : length (take n data) = n) by (rewrite length_take; subst n; lia).
  destruct (emits_write (take n data) c1 Hi1) as [Hok _].
  destruct Hok as (c2 & Hr2 & Hi2 & Ho2 & Hroom2); [rewrite Hroom1, Hlt; lia|].
  rewrite Hr2. exists (Cursor.buf c2). rewrite Ho1 in Ho2.
  change (wr_out c2) with (take (Cursor.cursor c2) (Cursor.buf c2)) in Ho2.
  change (wr_room c2) with (length (Cursor.buf c2) - Cursor.cursor c2)%nat in Hroom2.
  destruct Hi2 as [Hi2 _].
  assert (Hc2 : Cursor.cursor c2 = (length (preamble h) + n)%nat).
  { rewrite <-Hlt, <-length_app, <-Ho2, length_take. lia. }
  unfold Cursor.consumed_len. rewrite Hc2. split_and!; [done| |by rewrite <-Ho2, Hc2].
  unfold MAX_READ_BUFFER_LENGTH. lia.
Qed.

Lemma chunk_room_pos h : (0 < chunk_room h)%nat.
Proof. pose proof (length_preamble h). unfold chunk_room, MAX_READ_BUFFER_LENGTH. lia. Qed.

End Transaction.

(** ** The loop *)

(** The calls of one transaction. *)
Definition host_calls {t} `{AddressLaws t} (h : Header t) (chunk : list Z) (calls : list Call) : Prop :=
  ∃ buf, length buf = MAX_READ_BUFFER_LENGTH ∧
    take (length (preamble h) + length chunk) buf = preamble h ++ chunk ∧
    calls = [SetWaitBusyClear (wait_busy_clear (opcode h));
             HostReadWrite buf (Z.of_nat (length (preamble h) + length chunk)); HostWait].

Definition advance {t} (h : Header t) (delta : nat) : Header t :=
  match address h with
  | None => h
  | Some a => mk_Header (opcode h) (Some (a + Z.of_nat delta))
  end.

(** [sent h pre chunks calls]: the calls send the chunks one after the other, each
    at its own address and after the calls [pre]. *)
Inductive sent {t} `{AddressLaws t} (pre : list Call → Prop) : Header t → list (list Z) → list Call → Prop :=
| sent_last h chunk c0 c1 :
    pre c0 → host_calls h chunk c1 → (length chunk <= chunk_room h)%nat →
    sent pre h [chunk] (c0 ++ c1)
| sent_more h chunk chunks c0 c1 cs :
    pre c0 → host_calls h chunk c1 → length chunk = chunk_room h →
    sent pre (advance h (length chunk)) chunks cs →
    sent pre h (chunk :: chunks) (c0 ++ c1 ++ cs).

(** The addresses of the whole data, including the one behind it, are addresses. *)
Definition room_for {t} `{AddressLaws t} (h : Header t) (n : nat) : Prop :=
  match address h with
  | None => True
  | Some a => fits (width t) (a + Z.of_nat n)
  end.

Section Loop.
Context (env : Env) `{!Cooperative env} {t : int_ty} `{AddressLaws t}.

Lemma next_header_exact (h : Header t) n :
  width t <= 32 → header_valid h → room_for h n →
  next_header h n = Some (advance h n) ∧ header_valid (advance h n).
Proof.
  intros Hw. destruct h as [op [a|]]; unfold header_valid, room_for, next_header, advance; cbn [address opcode].
  - intros [Ha Hf] Hr. assert (H2 : 2 ^ width t <= 2 ^ 32) by (apply Z.pow_le_mono_r; lia).
    rewrite u32_small by (unfold fits in *; lia).
    rewrite addr_try by (unfold fits in *; lia). rewrite decide_True by done. done.
  - done.
Qed.

Lemma call_ok_exact c s :
  ∃ s', call_ok env c s = (Ok tt, s') ∧ hist s' = hist s ++ [c] ∧ SPI_TX_BUF s' = SPI_TX_BUF s ∧
        FirmwareController.self (firmware s') = FirmwareController.self (firmware s) ∧
        FirmwareController.WRITE_BUF (firmware s') = FirmwareController.WRITE_BUF (firmware s).
Proof.
  eexists. unfold call_ok, svc, zoom, FirmwareController.call_ok, FirmwareController.call, mbind, M_bind.
  rewrite coop_ok. split_and!; reflexivity.
Qed.

Lemma host_wait_exact s :
  ∃ s', svc (FirmwareController.wait env HostWait) s = (Ok tt, s') ∧ hist s' = hist s ++ [HostWait].
Proof. eexists. unfold svc, zoom, FirmwareController.wait. rewrite FcFacts.env_waits_return. done. Qed.

Lemma room_for_le (h : Header t) n m : header_valid h → room_for h n → (m <= n)%nat → room_for h m.
Proof.
  destruct h as [op [a|]]; unfold header_valid, room_for, fits; cbn [address opcode]; [|done].
  intros [_ ?] ? ?. lia.
Qed.

Lemma room_for_advance (h : Header t) n m : room_for h (n + m) → room_for (advance h n) m.
Proof.
  destruct h as [op [a|]]; unfold room_for, advance; cbn [address]; [|done].
  intros Hf. by replace (a + Z.of_nat n + Z.of_nat m) with (a + Z.of_nat (n + m)) by lia.
Qed.

(** The loop ends by computing the address behind the data. *)
Definition last_result (h : Header t) (n : nat) : outcome SpiProcessorError unit :=
  match next_header h n with
  | Some _ => Ok tt
  | None => Err (SpFromWire OutOfRange)
  end.

Lemma last_result_advance (h : Header t) n m :
  last_result (advance h n) m = last_result h (n + m).
Proof.
  unfold last_result, next_header, advance. destruct h as [op [a|]]; cbn [address opcode]; [|done].
  by replace (a + Z.of_nat n + Z.of_nat m) with (a + Z.of_nat (n + m)) by lia.
Qed.

Lemma last_result_ok (h : Header t) n :
  width t <= 32 → header_valid h → room_for h n → last_result h n = Ok tt.
Proof. intros Hw Hv Hr. unfold last_result. by destruct (next_header_exact h n Hw Hv Hr) as [-> _]. Qed.

Lemma spi_host_send_sent (pre : SP unit) (Pre : list Call → Prop) rounds : ∀ (h : Header t) data s,
  width t <= 32 → header_valid h → room_for h (length data - 1) → (length data < rounds)%nat →
  (∀ s, ∃ s' cs, pre s = (Ok tt, s') ∧ hist s' = hist s ++ cs ∧ Pre cs) →
  ∃ s' chunks calls, spi_host_send env rounds h data pre s = (last_result h (length data), s') ∧
    hist s' = hist s ++ calls ∧ concat chunks = data ∧ sent Pre h chunks calls.
Proof.
  induction rounds as [|rounds IH]; intros h data s Hw Hv Hroom Hr Hpre; [lia|].
  cbn [spi_host_send]. destruct (Hpre s) as (s0 & c0 & Hp & Hh0 & HP). rewrite (bind_ok _ _ _ _ _ Hp).
  set (n := Nat.min (chunk_room h) (length data)).
  destruct (host_transaction_exact h data Hv) as (buf & -> & Hlb & Hb). fold n in Hb |- *.
  destruct (call_ok_exact (SetWaitBusyClear (wait_busy_clear (opcode h))) s0) as (s1 & E1 & Hh1 & _).
  rewrite (bind_ok _ _ _ _ _ E1).
  destruct (call_ok_exact (HostReadWrite buf (Z.of_nat (length (preamble h) + n))) s1) as (s2 & E2 & Hh2 & _).
  rewrite (bind_ok _ _ _ _ _ E2).
  destruct (host_wait_exact s2) as (s3 & E3 & Hh3). rewrite (bind_ok _ _ _ _ _ E3). cbv zeta.
  assert (Hlt : length (take n data) = n) by (rewrite length_take; subst n; lia).
  set (c1 := [SetWaitBusyClear (wait_busy_clear (opcode h));
              HostReadWrite buf (Z.of_nat (length (preamble h) + n)); HostWait]).
  assert (Hc1 : host_calls h (take n data) c1) by (exists buf; by rewrite Hlt).
  assert (Hhist : hist s3 = hist s ++ c0 ++ c1) by (by rewrite Hh3, Hh2, Hh1, Hh0, <-!app_assoc).
  rewrite length_drop. destruct (Nat.eqb_spec (length data - n) 0) as [He|Hne].
  - assert (Hn : n = length data) by (subst n; lia).
    exists s3, [take n data], (c0 ++ c1). split_and!; [|done| |].
    + rewrite Hn. unfold last_result. by destruct (next_header h (length data)).
    + cbn [concat]. rewrite app_nil_r. apply take_ge. lia.
    + apply sent_last; [done..|]. rewrite Hlt. subst n. lia.
  - pose proof (chunk_room_pos h) as Hpos.
    destruct (next_header_exact h n Hw Hv) as [-> Hv'].
    { apply (room_for_le h (length data - 1)); [done..|]. subst n. lia. }
    rewrite (bind_ok _ _ _ (advance h n) s3) by done.
    destruct (IH (advance h n) (drop n data) s3) as (s' & chunks & calls & E & Hh & Hc & Hs); [done|done| | |done|].
    { apply room_for_advance. rewrite length_drop.
      by replace (n + (length data - n - 1))%nat with (length data - 1)%nat by (subst n; lia). }
    { rewrite length_drop. subst n. lia. }
    exists s', (take n data :: chunks), (c0 ++ c1 ++ calls). split_and!.
    + rewrite E, last_result_advance, length_drop. by replace (n + (length data - n))%nat with (length data) by lia.
    + by rewrite Hh, Hhist, <-!app_assoc.
    + cbn [concat]. by rewrite Hc, take_drop.
    + apply sent_more; [done|done|rewrite Hlt; subst n; lia|]. by rewrite Hlt.
Qed.

End Loop.

(** ** Write commands *)

Section Write.
Context (env : Env) `{!Cooperative env}.

(** The calls that enable writing on the flash chip. *)
Definition write_enable_calls (calls : list Call) : Prop :=
  host_calls (t := U32) (mk_Header WriteEnable None) [] calls.

Lemma write_enable_exact fuel s : (0 < fuel)%nat →
  ∃ s' cs, spi_host_write_enable env fuel s = (Ok tt, s') ∧ hist s' = hist s ++ cs ∧ write_enable_calls cs.
Proof.
  intros Hf. unfold spi_host_write_enable.
  destruct (spi_host_send_sent env (mret tt) (λ cs, cs = []) fuel (mk_Header (t := U32) WriteEnable None) [] s)
    as (s' & chunks & calls & E & Hh & Hc & Hs).
  { by_compute. } { done. } { done. } { cbn. lia. }
  { intros s0. exists s0, []. by rewrite app_nil_r. }
  exists s', calls. split_and!; [done|done|].
  inversion Hs as [h chunk c0 c1 Hp Hc1 Hl|h chunk chunks' c0 c1 cs Hp Hc1 Hl Hs']; subst; cbn [concat] in Hc.
  - apply app_eq_nil in Hc as [-> _]. exact Hc1.
  - apply app_eq_nil in Hc as [-> _]. pose proof (chunk_room_pos (mk_Header (t := U32) WriteEnable None)).
    cbn [length] in Hl. lia.
Qed.

Lemma spi_host_write_exact {t} `{AddressLaws t} fuel (h : Header t) data s :
  width t <= 32 → header_valid h → room_for h (length data - 1) → (length data < fuel)%nat →
  ∃ s' chunks calls, spi_host_write env fuel h data s = (last_result h (length data), s') ∧
    hist s' = hist s ++ calls ∧ concat chunks = data ∧ sent write_enable_calls h chunks calls.
Proof.
  intros Hw Hv Hr Hf. apply spi_host_send_sent; [done..|].
  intros s0. apply write_enable_exact. lia.
Qed.

End Write.

(** ** Theorems *)

(** C31: a write command is passed on completely and in order.  When the services
    accept every call and the addresses of the data are addresses of the width
    in use, [spi_host_write] returns [Ok]: the data is cut into chunks whose
    concatenation is the data, all but the last as long as the host's buffer
    allows; each chunk is sent in a transaction of its own that carries the
    command and the address of the chunk and follows a "write enable"
    transaction. *)
Theorem spi_host_write_delivers (env : Env) `{!Cooperative env} {t} `{AddressLaws t} fuel (h : Header t) data s :
  width t <= 32 → header_valid h → room_for h (length data) → (length data < fuel)%nat →
  ∃ s' chunks calls, spi_host_write env fuel h data s = (Ok tt, s') ∧
    hist s' = hist s ++ calls ∧ concat chunks = data ∧ sent write_enable_calls h chunks calls.
Proof.
  intros Hw Hv Hr Hf. rewrite <-(last_result_ok h (length data)) by done.
  apply spi_host_write_exact; [done|done|done| |done]. apply (room_for_le h (length data)); [done..|lia].
Qed.

Lemma spi_host_write_delivers_witness :
  ∃ s' chunks calls,
    spi_host_write (sample_env sample_segments []) 300 sample_header (replicate 256 7) initial = (Ok tt, s') ∧
    hist s' = hist initial ++ calls ∧ concat chunks = replicate 256 7 ∧
    sent write_enable_calls sample_header chunks calls.
Proof.
  apply (spi_host_write_delivers (sample_env sample_segments []) 300 sample_header (replicate 256 7) initial);
    [by_compute|split; by_compute|by_compute|by_compute].
Defined.

(** Programming the end of the 24-bit address space is reported as an error
    after it has been done.  The data that ends with the last three-byte address
    is sent completely, as in any other write; then the address behind it is
    computed, which is not a three-byte address, and [spi_host_write] answers
    [OutOfRange]. *)
Theorem spi_host_write_end_of_space (env : Env) `{!Cooperative env} fuel op a data s :
  has_address op = true → 0 <= a → data ≠ [] → a + Z.of_nat (length data) = 2 ^ 24 → (length data < fuel)%nat →
  let h := mk_Header (t := U24) op (Some a) in
  ∃ s' chunks calls, spi_host_write env fuel h data s = (Err (SpFromWire OutOfRange), s') ∧
    hist s' = hist s ++ calls ∧ concat chunks = data ∧ sent write_enable_calls h chunks calls.
Proof.
  intros Hop Ha Hd He Hf h. destruct data as [|x data]; [done|].
  assert (Hl : last_result h (length (x :: data)) = Err (SpFromWire OutOfRange)).
  { unfold last_result, next_header. cbn [h address]. rewrite He. reflexivity. }
  rewrite <-Hl. refine (spi_host_write_exact env fuel h (x :: data) s _ _ _ Hf); [by_compute| |].
  - cbn [length] in He. split; [done|]. change (width U24) with 24. unfold fits. lia.
  - cbn [length] in *. unfold room_for. cbn [h address]. change (width U24) with 24. unfold fits. lia.
Qed.

Lemma spi_host_write_end_of_space_witness :
  let h := mk_Header (t := U24) PageProgram (Some 0xffff00) in
  ∃ s' chunks calls,
    spi_host_write (sample_env sample_segments []) 300 h (replicate 256 7) initial
      = (Err (SpFromWire OutOfRange), s') ∧
    hist s' = hist initial ++ calls ∧ concat chunks = replicate 256 7 ∧
    sent write_enable_calls h chunks calls.
Proof.
  apply (spi_host_write_end_of_space (sample_env sample_segments []) 300 PageProgram 0xffff00 (replicate 256 7) initial);
    [done|lia|discriminate|reflexivity|by_compute].
Defined.
