(* ===== verification/SpiSafety.v ===== *)
(** What the packet processor can do to the rest of the system
    (userspace/otpilot/src/spi_processor.rs), for every environment and every
    packet: which flash pages and addresses it touches, what it answers, and
    when it panics. *)

From S2P Require Import Prelude Io Wire FlashProto Payload FirmwareProto Tock.
From S2P Require Import FlashHw GlobalSec FirmwareController SpiProcessor SpiForward.
From Stdlib Require Import ZArith Lia.
From stdpp Require Import base decidable option list list_numbers.

#[local] Open Scope Z_scope.

Import FcFacts SpiProcessor SpFacts.

(** ** What the processor is allowed to do *)

(** The segments that are not running. *)
Definition inactive (env : Env) (seg : SegmentInfo) : Prop :=
  seg = inactive_ro (env_segments env) ∨ seg = inactive_rw (env_segments env).

Definition in_segment (seg : SegmentInfo) (off len : Z) : Prop :=
  seg_address seg <= off ∧ off + len <= seg_address seg + seg_size seg.

(** A packet that a host accepts: header and body fit together. *)
Definition answered (out : list Z) : Prop :=
  ∃ ct body, (HEADER_LEN + length body <= SPI_TX_BUF_SIZE)%nat ∧ out = answer ct body.

Definition allowed (env : Env) (c : Call) : Prop :=
  match c with
  | FlashErase p => ∃ seg, inactive env seg ∧ start_page seg <= p < start_page seg + page_count seg
  | FlashWrite off _ len | FlashRead off _ len => ∃ seg, inactive env seg ∧ in_segment seg off len
  | EndWithData out clear_busy clear_write_enable =>
      answered out ∧ clear_busy = true ∧ clear_write_enable = true
  | _ => True
  end.

(** A segment as the kernel describes one: it has pages, and it ends below the
    top of the address space by more than a chunk. *)
Definition segment_sane (seg : SegmentInfo) : Prop :=
  segment_ok seg ∧ 0 <= seg_address seg ∧ 0 <= seg_size seg ∧
  seg_address seg + seg_size seg + Z.of_nat MAX_BUFFER_LENGTH <= 2 ^ 32.

(** What is assumed of the services: waits come back, the kernel's segments are
    sane values, and the Manticore handler answers within its buffer. *)
Class Sane (env : Env) (fuel : nat) := {
  sane_returns :: Returns env;
  sane_segments : ∀ seg, inactive env seg → segment_sane seg ∧ valid seg ∧ page_count seg <= Z.of_nat fuel;
  sane_manticore : ∀ d b n b', env_manticore env d b = (Some n, b') → (n <= length b)%nat
}.

Definition inv (s : st) : Prop :=
  tx_ok s ∧ length (FirmwareController.WRITE_BUF (firmware s)) = MAX_BUFFER_LENGTH.

(** [safe env m Q]: from any state, [m] returns, makes allowed calls only, and
    its value satisfies [Q]. *)
Definition safe (env : Env) {A} (m : SP A) (Q : A → Prop) : Prop :=
  ∀ s, inv s → ∃ r s' calls, m s = (r, s') ∧ inv s' ∧ hist s' = hist s ++ calls ∧
    Forall (allowed env) calls ∧
    match r with
    | Ok a => Q a
    | Err _ => True
    | Panic => False
    end.

(** ** Rules *)

Lemma Forall_prefix {A} (P : A → Prop) l k : l `prefix_of` k → Forall P k → Forall P l.
Proof. intros [x ->] H. by apply Forall_app in H as [? _]. Qed.

Section Rules.
Context (env : Env).

Lemma safe_ret {A} (a : A) (Q : A → Prop) : Q a → safe env (mret a) Q.
Proof. intros HQ s Hs. exists (Ok a), s, []. rewrite app_nil_r. split_and!; done. Qed.

Lemma safe_throw {A} (e : SpiProcessorError) (Q : A → Prop) : safe env (throw e) Q.
Proof. intros s Hs. exists (Err e), s, []. rewrite app_nil_r. split_and!; done. Qed.

Lemma safe_gets {A} (f : st → A) (Q : A → Prop) : (∀ s, inv s → Q (f s)) → safe env (gets f) Q.
Proof. intros HQ s Hs. exists (Ok (f s)), s, []. rewrite app_nil_r. split_and!; try done. by apply HQ. Qed.

Lemma safe_bind {A B} (m : SP A) (f : A → SP B) Q R :
  safe env m Q → (∀ a, Q a → safe env (f a) R) → safe env (m ≫= f) R.
Proof.
  intros Hm Hf s Hs. destruct (Hm s Hs) as (r & s1 & c1 & E & Hi & Hh & Hc & Hr).
  destruct r as [a|e|]; [|exists (Err e), s1, c1; rewrite (bind_err _ _ _ _ _ E); done|done].
  rewrite (bind_ok _ _ _ _ _ E). destruct (Hf a Hr s1 Hi) as (r & s2 & c2 & E2 & Hi2 & Hh2 & Hc2 & Hr2).
  exists r, s2, (c1 ++ c2). split_and!; [done|done| | |done].
  - by rewrite Hh2, Hh, app_assoc.
  - by apply Forall_app.
Qed.

Lemma safe_ok_or {A} (e : SpiProcessorError) (o : option A) (Q : A → Prop) :
  (∀ a, o = Some a → Q a) → safe env (ok_or e o) Q.
Proof. intros HQ. destruct o; [apply safe_ret; auto|apply safe_throw]. Qed.

Lemma safe_unwrap {A} (o : option A) a (Q : A → Prop) : o = Some a → Q a → safe env (unwrap o) Q.
Proof. intros -> HQ. by apply safe_ret. Qed.

Lemma safe_call_ok c : allowed env c → safe env (call_ok env c) (λ _, True).
Proof.
  intros Hc s [Ht Hw]. unfold call_ok, svc, zoom, FirmwareController.call_ok, FirmwareController.call, mbind, M_bind.
  destruct (env_ok _ _ _); eexists _, _, [c]; (split; [reflexivity|]); split_and!; try done; by constructor.
Qed.

Lemma safe_call c : allowed env c → safe env (svc (FirmwareController.call env c)) (λ _, True).
Proof.
  intros Hc s [Ht Hw]. eexists _, _, [c]. split; [reflexivity|]. split_and!; try done. by constructor.
Qed.

Lemma safe_weaken {A} (m : SP A) (Q R : A → Prop) : safe env m Q → (∀ a, Q a → R a) → safe env m R.
Proof.
  intros Hm HQ s Hs. destruct (Hm s Hs) as (r & s' & c & E & Hi & Hh & Hc & Hr).
  exists r, s', c. split_and!; try done. destruct r; auto.
Qed.

Lemma safe_if {A} (b : bool) (m1 m2 : SP A) Q :
  safe env m1 Q → safe env m2 Q → safe env (if b then m1 else m2) Q.
Proof. by destruct b. Qed.

(** Parsing bytes: what the reader judgement gives. *)
Lemma safe_parse {A} (m : M (list Z) FromWireError A) P data :
  reads (R := list Z) m P → bytes_ok data →
  safe env (parse m data) (λ '(a, rest), m data = (Ok a, rest) ∧ ∃ bs, data = bs ++ rest ∧ P bs a).
Proof.
  intros Hm Hd s Hs. unfold parse. specialize (Hm data Hd).
  destruct (m data) as [[a|e|] rest]; [..|done].
  - eexists _, _, []. split; [reflexivity|]. rewrite app_nil_r. split_and!; done.
  - eexists _, _, []. split; [reflexivity|]. rewrite app_nil_r. split_and!; done.
Qed.

(** An operation of the firmware controller whose calls are allowed. *)
Lemma safe_attempt {A} (m : M FirmwareController.st FirmwareControllerError A) :
  (∀ s, length (FirmwareController.WRITE_BUF s) = MAX_BUFFER_LENGTH →
     ∃ todo, did env todo s (m s) (λ _ _, True) ∧ Forall (allowed env) todo ∧
       length (FirmwareController.WRITE_BUF (m s).2) = MAX_BUFFER_LENGTH) →
  safe env (attempt m) (λ _, True).
Proof.
  intros Hm s [Ht Hw]. destruct (Hm (firmware s) Hw) as (todo & (calls & Hh & Hp & Hr) & Ha & Hw').
  unfold attempt. destruct (m (firmware s)) as [[a|e|] f]; cbn [fst snd] in *; [..|done].
  - eexists _, _, calls. split; [reflexivity|]. split_and!; try done. by eapply Forall_prefix.
  - eexists _, _, calls. split; [reflexivity|]. split_and!; try done. by eapply Forall_prefix.
Qed.

(** Sending an answer. *)
Lemma safe_exact (m : SP unit) c :
  (∀ s, tx_ok s → ∃ s', m s = call_ok env c s' ∧ firmware s' = firmware s ∧ tx_ok s') →
  allowed env c → safe env m (λ _, True).
Proof.
  intros Hm Hc s [Ht Hw]. destruct (Hm s Ht) as (s' & -> & Hf & Ht').
  destruct (safe_call_ok c Hc s') as (r & s'' & calls & E & Hi & Hh & Ha & Hr).
  { split; [done|by rewrite Hf]. }
  exists r, s'', calls. split_and!; try done. by rewrite Hh; unfold hist; rewrite Hf.
Qed.

End Rules.

(** ** The write buffer keeps its length *)

Section Keeps.
Context (env : Env).

Definition keeps {A} (m : M FirmwareController.st FirmwareControllerError A) : Prop :=
  ∀ s, length (FirmwareController.WRITE_BUF (m s).2) = length (FirmwareController.WRITE_BUF s).

Lemma keeps_bind {A B} (m : M FirmwareController.st FirmwareControllerError A) (f : A → M _ _ B) :
  keeps m → (∀ a, keeps (f a)) → keeps (m ≫= f).
Proof.
  intros Hm Hf s. rewrite bind_unfold. specialize (Hm s). destruct (m s) as [[a|e|] s']; [|exact Hm..].
  rewrite Hf. exact Hm.
Qed.

Lemma keeps_ret {A} (a : A) : keeps (mret a).
Proof. intros s. reflexivity. Qed.
Lemma keeps_throw {A} e : keeps (throw (A := A) e).
Proof. intros s. reflexivity. Qed.
Lemma keeps_panic {A} : keeps (panic (A := A)).
Proof. intros s. reflexivity. Qed.
Lemma keeps_gets {A} (f : _ → A) : keeps (gets f).
Proof. intros s. reflexivity. Qed.
Lemma keeps_set f : keeps (modify (FirmwareController.set_self f)).
Proof. intros s. reflexivity. Qed.
Lemma keeps_tell c : keeps (FirmwareController.tell c).
Proof. intros s. reflexivity. Qed.
Lemma keeps_call c : keeps (FirmwareController.call env c).
Proof. intros s. reflexivity. Qed.
Lemma keeps_wait c : keeps (FirmwareController.wait env c).
Proof. intros s. unfold FirmwareController.wait. by destruct (env_returns _ _). Qed.
Lemma keeps_unwrap {A} (o : option A) : keeps (unwrap o).
Proof. intros s. by destruct o. Qed.
Lemma keeps_copy data : keeps (FirmwareController.copy_write_buf data).
Proof.
  intros s. unfold FirmwareController.copy_write_buf. destruct (Nat.leb_spec (length data) (length (FirmwareController.WRITE_BUF s))); cbn.
  - apply length_copy_at. lia.
  - rewrite length_take. lia.
Qed.

Ltac keeps_tac :=
  repeat first
    [ apply keeps_ret | apply keeps_throw | apply keeps_panic | apply keeps_gets | apply keeps_set
    | apply keeps_tell | apply keeps_call | apply keeps_wait | apply keeps_unwrap | apply keeps_copy
    | apply keeps_bind; [|intros ?]
    | match goal with
      | |- keeps (if ?b then _ else _) => destruct b
      | |- keeps (FirmwareController.call_ok _ _ _) => unfold FirmwareController.call_ok
      | |- keeps (FirmwareController.check_operation_result _) => unfold FirmwareController.check_operation_result
      end ].

Lemma keeps_erase_loop fuel : keeps (FirmwareController.erase_loop env fuel).
Proof.
  induction fuel as [|fuel IH]; cbn [FirmwareController.erase_loop]; [apply keeps_panic|].
  unfold FirmwareController.erase_segment_continue. keeps_tac; apply IH.
Qed.

Lemma keeps_erase_segment fuel seg : keeps (FirmwareController.erase_segment env fuel seg).
Proof.
  unfold FirmwareController.erase_segment, FirmwareController.erase_segment_start. keeps_tac. apply keeps_erase_loop.
Qed.

Lemma keeps_write_and_verify seg off data :
  keeps (FirmwareController.write_and_verify_segment_chunk env seg off data).
Proof.
  unfold FirmwareController.write_and_verify_segment_chunk, FirmwareController.write_segment_chunk,
    FirmwareController.verify_segment_chunk. keeps_tac.
Qed.

End Keeps.

(** ** The handlers *)

Section Handlers.
Context (env : Env) (fuel : nat) `{!Sane env fuel}.

Lemma answered_allowed ct body :
  (HEADER_LEN + length body <= SPI_TX_BUF_SIZE)%nat → allowed env (EndWithData (answer ct body) true true).
Proof. intros Hl. split_and!; [by exists ct, body|done|done]. Qed.

Lemma safe_respond m :
  message_valid m → (HEADER_LEN + length (message_encode m) <= SPI_TX_BUF_SIZE)%nat →
  safe env (send_firmware_response env m) (λ _, True).
Proof.
  intros Hv Hl. eapply safe_exact; [|by apply answered_allowed].
  intros s Hs. by apply (respond_exact env CtFirmware (message_to_wire m) (message_encode m) s (message_emits m Hv)).
Qed.

Lemma safe_send_error msg : safe env (send_error env msg) (λ _, True).
Proof.
  eapply safe_exact; [|apply (answered_allowed CtError [to_wire_value (err_type msg)])].
  - intros s Hs. apply (respond_exact env CtError _ _ s (err_emits msg)); [done|by_compute].
  - by_compute.
Qed.

Lemma safe_manticore data : safe env (process_manticore env data) (λ _, True).
Proof.
  intros s [Ht Hw]. unfold process_manticore. unfold tx_ok in Ht.
  rewrite (bind_ok _ _ _ (SPI_TX_BUF s) s) by done.
  rewrite slice_suffix by (rewrite Ht; by_compute).
  rewrite (bind_ok _ _ _ (drop HEADER_LEN (SPI_TX_BUF s)) s) by done.
  set (b := drop HEADER_LEN (SPI_TX_BUF s)). assert (Hb : length b = 508%nat) by (subst b; rewrite length_drop, Ht; done).
  destruct (env_manticore env data b) as [result response] eqn:E.
  set (tx := take HEADER_LEN (SPI_TX_BUF s) ++ kernel_fill response b).
  rewrite (bind_ok _ _ _ tt (set_tx tx s)) by done.
  assert (Htx : tx_ok (set_tx tx s)).
  { unfold tx_ok. cbn [set_tx SPI_TX_BUF]. subst tx. rewrite length_app, length_kernel_fill, length_take, Hb, Ht. by_compute. }
  destruct result as [n|].
  2:{ eexists _, _, []. split; [reflexivity|]. rewrite app_nil_r. split_and!; done. }
  pose proof (sane_manticore _ _ _ _ E) as Hn. rewrite Hb in Hn.
  rewrite (bind_ok _ _ _ n (set_tx tx s)) by done.
  unfold u16_try_from. rewrite (proj2 (Z.ltb_lt _ _)) by lia.
  rewrite (bind_ok _ _ _ (Z.of_nat n) (set_tx tx s)) by done.
  destruct (send_data_exact env CtManticore n (set_tx tx s) Htx) as (s' & -> & Hf & Ht').
  { unfold HEADER_LEN, SPI_TX_BUF_SIZE. lia. }
  destruct (safe_call_ok env _ (answered_allowed CtManticore (take n (drop HEADER_LEN (SPI_TX_BUF (set_tx tx s)))) ltac:(rewrite length_take; unfold HEADER_LEN, SPI_TX_BUF_SIZE; lia)) s')
    as (r & s'' & calls & E' & Hi & Hh & Ha & Hr).
  { split; [done|]. by rewrite Hf. }
  exists r, s'', calls. split_and!; try done. rewrite Hh. unfold hist. by rewrite Hf.
Qed.

Lemma find_segment_inactive sal seg : find_segment env sal = Some seg → inactive env seg.
Proof.
  unfold find_segment, get_inactive_ro, get_inactive_rw, inactive. intros H.
  repeat case_decide; simplify_eq; auto.
Qed.

Lemma erase_range_allowed seg : inactive env seg →
  Forall (allowed env) (erase_range (start_page seg) (page_count seg)).
Proof.
  intros Hs. unfold erase_range. apply Forall_concat, Forall_fmap, Forall_forall.
  intros p Hp. apply elem_of_seqZ in Hp. repeat constructor. exists seg. split; [done|lia].
Qed.

Lemma safe_erase seg : inactive env seg →
  safe env (attempt (FirmwareController.erase_segment env fuel seg)) (λ _, True).
Proof.
  intros Hs. destruct (sane_segments seg Hs) as ((Hok & _) & _ & Hf). apply safe_attempt. intros s Hw.
  exists (erase_range (start_page seg) (page_count seg)). split_and!.
  - exact (erase_segment_did env fuel seg s Hok Hf).
  - by apply erase_range_allowed.
  - by rewrite keeps_erase_segment.
Qed.

Lemma safe_write seg off data : inactive env seg →
  0 <= off → off + Z.of_nat (length data) <= seg_size seg → (length data <= MAX_BUFFER_LENGTH)%nat →
  safe env (attempt (FirmwareController.write_and_verify_segment_chunk env seg off data)) (λ _, True).
Proof.
  intros Hs H0 H1 H2. destruct (sane_segments seg Hs) as ((_ & Ha & Hz & Htop) & _ & _).
  assert (Hin : in_segment seg (chunk_off seg off) (Z.of_nat (length data))).
  { unfold in_segment, chunk_off. unfold MAX_BUFFER_LENGTH in Htop. rewrite u32_small by (unfold fits; lia). lia. }
  apply safe_attempt. intros s Hw. eexists. split_and!.
  - eapply did_weaken; [exact (write_did env seg off data s Hw H2)|done].
  - repeat constructor; exists seg; done.
  - by rewrite keeps_write_and_verify.
Qed.

(** *** Firmware requests *)

Lemma find_segment_some sal seg : find_segment env sal = Some seg →
  inactive env seg ∧ segment_sane seg ∧ valid seg.
Proof.
  intros H%find_segment_inactive. destruct (sane_segments seg H) as (? & ? & _). done.
Qed.

Lemma safe_inactive_segments data : bytes_ok data →
  safe env (process_firmware_inactive_segments env data) (λ _, True).
Proof.
  intros Hd. eapply safe_bind.
  { apply (safe_parse env isi_request_from_wire (λ _ _, True)); [|done]. by apply reads_ret. }
  intros _ _. apply safe_respond; [|by_compute].
  split; [apply (sane_segments _ (or_introl eq_refl))|apply (sane_segments _ (or_intror eq_refl))].
Qed.

Lemma safe_update_prepare data : bytes_ok data →
  safe env (process_firmware_update_prepare env fuel data) (λ _, True).
Proof.
  intros Hd. eapply safe_bind.
  { apply (safe_parse env update_prepare_request_from_wire _ data (from_wire_reads (T := UpdatePrepareRequest) (list Z)) Hd). }
  intros [req rest] _. destruct (find_segment env (upq_segment req)) as [seg|] eqn:E.
  2:{ apply safe_respond; [split; by_compute|rewrite length_message; by_compute]. }
  eapply safe_bind; [by apply safe_erase, (find_segment_inactive (upq_segment req))|].
  intros [|] _; (apply safe_respond; [|rewrite length_message; by_compute]); split; by_compute.
Qed.

Lemma safe_write_chunk_response req result : fits 32 (wcq_offset req) →
  safe env (send_firmware_write_chunk_response env req result) (λ _, True).
Proof. intros Hf. apply safe_respond; [exact Hf|rewrite length_message; by_compute]. Qed.

Lemma safe_write_chunk data : bytes_ok data →
  safe env (process_firmware_write_chunk env data) (λ _, True).
Proof.
  intros Hd. eapply safe_bind.
  { apply (safe_parse env write_chunk_request_from_wire _ data (write_chunk_reads (R := list Z)) Hd). }
  intros [req rest] (_ & bs & _ & _ & Hf & _).
  destruct (find_segment env (wcq_segment req)) as [seg|] eqn:E; [|by apply safe_write_chunk_response].
  destruct (find_segment_some _ _ E) as (Hi & (_ & Ha & Hz & Htop) & _).
  destruct (Z.leb_spec (seg_size seg) (wcq_offset req)) as [|Hoff]; [by apply safe_write_chunk_response|].
  destruct (_ || _)%bool eqn:Eb; [by apply safe_write_chunk_response|].
  apply orb_false_iff in Eb as [Eb1 Eb2]. apply Z.ltb_ge in Eb1. apply Nat.ltb_ge in Eb2.
  unfold FirmwareController.get_max_write_chunk_length in Eb2.
  assert (H0 : 0 <= wcq_offset req) by (unfold fits in Hf; lia).
  unfold MAX_BUFFER_LENGTH in Htop, Eb2.
  rewrite (u32_small (Z.of_nat _)), u32_small in Eb1 by (unfold fits in *; lia).
  eapply safe_bind; [by apply safe_write|]. intros r _. by apply safe_write_chunk_response.
Qed.

Lemma safe_reboot data : bytes_ok data → safe env (process_firmware_reboot env data) (λ _, True).
Proof.
  intros Hd. eapply safe_bind.
  { apply (safe_parse env reboot_request_from_wire _ data (from_wire_reads (T := RebootRequest) (list Z)) Hd). }
  intros [req rest] _. apply (safe_bind env _ _ (λ _, True)).
  { destruct (rbq_time req); [|by apply safe_ret].
    eapply safe_bind; [by apply safe_call|]. intros ok _. by apply safe_ret. }
  intros result _. apply safe_respond; [exact I|rewrite length_message; by_compute].
Qed.

Lemma safe_firmware data : bytes_ok data → safe env (process_firmware env fuel data) (λ _, True).
Proof.
  intros Hd. eapply safe_bind.
  { apply (safe_parse env fw_header_from_wire _ data (from_wire_reads (T := FwHeader) (list Z)) Hd). }
  intros [h rest] (_ & bs & -> & _). apply bytes_ok_app in Hd as [_ Hd].
  destruct (fw_content h);
    first [apply safe_throw | by apply safe_update_prepare | by apply safe_write_chunk
          | by apply safe_inactive_segments | by apply safe_reboot].
Qed.

(** *** Payloads *)

(** The payload is as long as its header says. *)
Definition payload_complete (data : list Z) : Prop :=
  match payload_header_from_wire data with
  | (Ok h, rest) => content_len h <= Z.of_nat (length rest)
  | _ => True
  end.

Lemma safe_payload data : bytes_ok data → payload_complete data →
  safe env (process_spi_payload env fuel data) (λ _, True).
Proof.
  intros Hd Hc. eapply safe_bind.
  { apply (safe_parse env payload_header_from_wire _ data (from_wire_reads (T := PayloadHeader) (list Z)) Hd). }
  intros [h rest] (Hp & bs & -> & _ & Hv & _). apply bytes_ok_app in Hd as [_ Hd].
  unfold payload_complete in Hc. rewrite Hp in Hc. unfold fits in Hv.
  assert (Hs : slice rest 0 (Z.to_nat (content_len h)) = Some (take (Z.to_nat (content_len h)) rest))
    by (apply slice_prefix; lia).
  assert (Hs' : bytes_ok (take (Z.to_nat (content_len h)) rest)) by (by apply Forall_take).
  unfold compute_checksum. rewrite (proj2 (Nat.ltb_ge _ _)) by lia.
  eapply (safe_bind env _ _ (λ _, True)); [by eapply safe_unwrap|]. intros sum _.
  apply safe_if; [apply safe_send_error|].
  destruct (content h); [apply safe_send_error| |].
  - eapply (safe_bind env _ _ (λ _, True)); [by eapply safe_unwrap|]. intros d _. apply safe_manticore.
  - eapply (safe_bind env _ _ bytes_ok); [by eapply safe_unwrap|]. intros d ?. by apply safe_firmware.
Qed.

End Handlers.

(** ** Packets *)

Section Packets.
Context (env : Env) (fuel : nat) `{!Sane env fuel}.

Lemma next_header_valid {t} `{AddressLaws t} (h h' : Header t) n :
  header_valid h → next_header h n = Some h' → header_valid h'.
Proof.
  unfold header_valid, next_header. destruct h as [op [a|]]; cbn [address opcode]; [|by intros ? [= <-]].
  intros [Ha _]. rewrite addr_try by apply u32_fits. case_decide as Hf; [|done]. intros [= <-]. done.
Qed.

Lemma safe_host_send {t} `{AddressLaws t} pre rounds : ∀ (h : Header t) data,
  safe env pre (λ _, True) → header_valid h → (length data < rounds)%nat →
  safe env (spi_host_send env rounds h data pre) (λ _, True).
Proof.
  induction rounds as [|rounds IH]; intros h data Hpre Hv Hr; [lia|]. cbn [spi_host_send].
  eapply safe_bind; [exact Hpre|]. intros _ _.
  destruct (host_transaction_exact h data Hv) as (buf & -> & _).
  eapply safe_bind; [by apply safe_call_ok|]. intros _ _.
  eapply safe_bind; [by apply safe_call_ok|]. intros _ _.
  apply (safe_bind env _ _ (λ _, True)).
  { intros s [Ht Hw]. unfold svc, zoom, FirmwareController.wait. rewrite env_waits_return.
    eexists _, _, [HostWait]. split; [reflexivity|]. split_and!; try done. by constructor. }
  intros _ _. cbv zeta.
  eapply (safe_bind env _ _ header_valid); [apply safe_ok_or; intros h'; by apply next_header_valid|].
  intros h' Hv'. rewrite length_drop. pose proof (chunk_room_pos h).
  destruct (Nat.eqb_spec (length data - Nat.min (chunk_room h) (length data)) 0); [by apply safe_ret|].
  apply IH; [done..|]. rewrite length_drop. lia.
Qed.

Lemma safe_host_write {t} `{AddressLaws t} (h : Header t) data :
  header_valid h → (length data < fuel)%nat → safe env (spi_host_write env fuel h data) (λ _, True).
Proof.
  intros Hv Hl. apply safe_host_send; [|done..]. apply safe_host_send; [by apply safe_ret|done|cbn; lia].
Qed.

(** A packet behind its flash header: room for the byte that is skipped, and a
    complete payload when it is meant for the mailbox. *)
Definition packet_complete {t} (h : Header t) (rest : list Z) : Prop :=
  (has_dummy_byte (opcode h) = true → rest ≠ []) ∧
  match opcode h, address h with
  | PageProgram, Some a => is_mailbox_address a = true → payload_complete rest
  | _, _ => True
  end.

Lemma safe_status a b : safe env (clear_device_status env a b) (λ _, True).
Proof. by apply safe_call_ok. Qed.

(** Acting when the write-enable bit is set, then clearing the status. *)
Lemma safe_enabled (m : SP unit) : safe env m (λ _, True) →
  safe env (we ← is_write_enable_set env; (if we : bool then m else mret tt) ;; clear_device_status env true true)
    (λ _, True).
Proof.
  intros Hm. apply (safe_bind env _ _ (λ _, True)); [by apply safe_gets|]. intros we _.
  eapply safe_bind; [apply safe_if; [exact Hm|by apply safe_ret]|]. intros _ _. apply safe_status.
Qed.

Lemma safe_header {t} `{AddressLaws t} (h : Header t) rest :
  header_valid h → bytes_ok rest → packet_complete h rest → (length rest < fuel)%nat →
  safe env (process_spi_header env fuel h rest) (λ _, True).
Proof.
  intros Hv Hb [Hdummy Hpay] Hl. unfold process_spi_header.
  apply (safe_bind env _ _ (λ d, d = if has_dummy_byte (opcode h) then drop 1 rest else rest)).
  { destruct (has_dummy_byte (opcode h)) eqn:E; [|by apply safe_ret].
    destruct rest as [|x rest]; [by destruct Hdummy|].
    eapply safe_unwrap; [apply slice_suffix; cbn; lia|done]. }
  intros d ->. unfold get_address.
  destruct (opcode h) eqn:Eop; cbn [has_dummy_byte] in *;
    try apply safe_throw; try (apply safe_enabled; by apply safe_host_write);
    (destruct (address h) as [a|]; [|apply safe_throw]);
    (destruct (is_mailbox_address a) eqn:Em; [|apply safe_enabled; by apply safe_host_write]);
    try apply safe_status.
  apply safe_enabled, safe_payload; auto.
Qed.

(** The packet, as it is read with addresses of the width [t]. *)
Definition complete_as (t : int_ty) `{Address t} (rx : list Z) : Prop :=
  match header_from_wire (t := t) rx with
  | (Ok h, rest) => packet_complete h rest
  | _ => True
  end.

Definition complete (rx : list Z) : Prop := complete_as U24 rx ∧ complete_as U32 rx.

Lemma safe_parsed {t} `{AddressLaws t} rx : bytes_ok rx → complete_as t rx → (length rx < fuel)%nat →
  safe env ('(h, rest) ← parse (header_from_wire (t := t)) rx; process_spi_header env fuel h rest) (λ _, True).
Proof.
  intros Hb Hc Hl. eapply safe_bind; [apply (safe_parse env _ _ rx (header_reads (R := list Z)) Hb)|].
  intros [h rest] (Hp & bs & -> & Hv & _). unfold complete_as in Hc. change (header_from_wire (t := t)) with (from_wire (Header t) (R := list Z)) in Hc. rewrite Hp in Hc.
  apply bytes_ok_app in Hb as [_ Hb]. rewrite length_app in Hl. apply safe_header; [done..|lia].
Qed.

Lemma safe_packet rx : bytes_ok rx → complete rx → (length rx < fuel)%nat →
  safe env (process_spi_packet env fuel rx) (λ _, True).
Proof.
  intros Hb [H3 H4] Hl. apply (safe_bind env _ _ (λ _, True)); [by apply safe_gets|].
  intros [] _; by apply safe_parsed.
Qed.

End Packets.

(** ** What the predicates say *)

Lemma answer_header_valid ct body :
  (HEADER_LEN + length body <= SPI_TX_BUF_SIZE)%nat → payload_header_valid (answer_header ct body).
Proof.
  intros Hl. split.
  - cbn [answer_header content_len]. unfold fits, SPI_TX_BUF_SIZE in *. lia.
  - unfold answer_header. cbn [checksum]. unfold compute_checksum.
    destruct (_ <? _)%nat; cbn [default]; [by_compute|]. apply wrap_fits. lia.
Qed.

(** A host that reads an answer finds the payload the header announces, with
    the right checksum. *)
Lemma answered_parses out : answered out →
  ∃ h body, payload_header_from_wire out = (Ok h, body) ∧ content_len h = Z.of_nat (length body) ∧
    compute_checksum h body = Some (checksum h).
Proof.
  intros (ct & body & Hl & ->). exists (answer_header ct body), body.
  destruct (@from_wire_parses _ _ _ PayloadHeader_WireLaws (list Z) _ slice_ReadLaws
              (answer_header ct body) (answer_header_valid ct body Hl) (answer ct body) body) as (r' & Hp & Hr').
  { reflexivity. }
  change (rd_view r') with r' in Hr'. subst r'. split_and!; [exact Hp|reflexivity|].
  unfold answer_header. cbn [checksum]. unfold compute_checksum. cbn [content_len content].
  rewrite Nat2Z.id. by rewrite (proj2 (Nat.ltb_ge _ _)) by lia.
Qed.

Lemma header_panics (env : Env) fuel {t} `{Address t} (h : Header t) rest s :
  env_write_enable env (hist s) = true → ¬ packet_complete h rest →
  (process_spi_header env fuel h rest s).1 = Panic.
Proof.
  intros Hwe Hc. unfold process_spi_header.
  destruct (has_dummy_byte (opcode h)) eqn:Ed.
  { destruct rest as [|x rest]; [done|]. exfalso. apply Hc. split; [done|]. by destruct (opcode h). }
  rewrite (bind_ok _ _ _ rest s) by done. unfold get_address.
  destruct (opcode h) eqn:Eop; try (exfalso; apply Hc; split; rewrite Eop; done).
  destruct (address h) as [a|] eqn:Ea; [|exfalso; apply Hc; split; rewrite Eop, ?Ea; done].
  destruct (is_mailbox_address a) eqn:Em; [|exfalso; apply Hc; split; rewrite Eop, ?Ea, ?Em; done].
  rewrite (bind_ok _ _ _ true s) by (unfold is_write_enable_set, gets; by rewrite Hwe).
  destruct (payload_header_from_wire rest) as [[ph|e|] body] eqn:Epay;
    try (exfalso; apply Hc; split; rewrite Eop, ?Ea; [done|]; intros _; unfold payload_complete; by rewrite Epay).
  assert (Hlong : Z.of_nat (length body) < content_len ph).
  { apply Z.nle_gt. intros Hle. apply Hc. split; rewrite Eop, ?Ea; [done|]. intros _.
    unfold payload_complete. by rewrite Epay. }
  unfold process_spi_payload. rewrite bind_unfold.
  rewrite (bind_ok _ _ _ (ph, body) s) by (unfold parse; by rewrite Epay).
  rewrite bind_unfold. unfold compute_checksum. rewrite (proj2 (Nat.ltb_lt _ _)) by lia. done.
Qed.

(** ** Theorems *)

(** The packet processor returns.  For every environment whose services are
    sane and every complete packet of bytes, [process_spi_packet] neither panics
    nor loops; it keeps its buffers at their sizes. *)
Theorem spi_packet_returns (env : Env) fuel `{!Sane env fuel} rx s :
  bytes_ok rx → complete rx → (length rx < fuel)%nat → inv s →
  ∃ r s', process_spi_packet env fuel rx s = (r, s') ∧ r ≠ Panic ∧ inv s'.
Proof.
  intros Hb Hc Hl Hs. destruct (safe_packet env fuel rx Hb Hc Hl s Hs) as (r & s' & calls & E & Hi & _ & _ & Hr).
  exists r, s'. split_and!; [done| |done]. by intros ->.
Qed.

(** Firmware updates stay in the inactive segments.  Whatever the packet, every
    page the application erases is a page of a segment that is not running, and
    every range it writes or reads back lies inside such a segment. *)
Theorem firmware_updates_confined (env : Env) fuel `{!Sane env fuel} rx s :
  bytes_ok rx → complete rx → (length rx < fuel)%nat → inv s →
  ∃ calls, hist (process_spi_packet env fuel rx s).2 = hist s ++ calls ∧
    Forall (λ c, match c with
      | FlashErase p => ∃ seg, inactive env seg ∧ start_page seg <= p < start_page seg + page_count seg
      | FlashWrite off _ len | FlashRead off _ len => ∃ seg, inactive env seg ∧ in_segment seg off len
      | _ => True
      end) calls.
Proof.
  intros Hb Hc Hl Hs. destruct (safe_packet env fuel rx Hb Hc Hl s Hs) as (r & s' & calls & E & _ & Hh & Ha & _).
  exists calls. rewrite E. split; [done|]. eapply Forall_impl; [exact Ha|]. by intros [].
Qed.

(** C6: answers are well formed.  Every packet the application sends back parses as
    a payload header followed by exactly the content it announces, with the
    checksum a receiver computes, and clears the busy and write-enable bits. *)
Theorem answers_well_formed (env : Env) fuel `{!Sane env fuel} rx s :
  bytes_ok rx → complete rx → (length rx < fuel)%nat → inv s →
  ∃ calls, hist (process_spi_packet env fuel rx s).2 = hist s ++ calls ∧
    ∀ out clear_busy clear_write_enable, EndWithData out clear_busy clear_write_enable ∈ calls →
      clear_busy = true ∧ clear_write_enable = true ∧
      ∃ h body, payload_header_from_wire out = (Ok h, body) ∧ content_len h = Z.of_nat (length body) ∧
        compute_checksum h body = Some (checksum h).
Proof.
  intros Hb Hc Hl Hs. destruct (safe_packet env fuel rx Hb Hc Hl s Hs) as (r & s' & calls & E & _ & Hh & Ha & _).
  exists calls. rewrite E. split; [done|]. intros out cb cw Hin.
  rewrite Forall_forall in Ha. destruct (Ha _ Hin) as (Hout & -> & ->). split_and!; [done..|].
  by apply answered_parses.
Qed.


(** ** Witnesses *)

(** The papa board, running the images A. *)
Definition papa_booted : RuntimeSegmentInfo :=
  GlobalSecHardware.get_runtime_segment_info
    (GlobalSecHardware.init papa_segments (GlobalSecHardware.new GlobalSecFacts.sample_registers)).


#[global] Instance sample_sane : Sane (sample_env papa_booted []) 600.
Proof.
  split.
  - apply _.
  - intros seg [->| ->]; split_and!; by_compute.
  - intros d b n b' [= <- _]. lia.
Qed.

(** A page program at the mailbox that carries a firmware message. *)
Definition mailbox_packet (m : FirmwareMessage) : list Z :=
  encode (mk_Header (t := U24) PageProgram (Some SPI_MAILBOX_ADDRESS)) ++ answer CtFirmware (message_encode m).

Definition sample_packet : list Z := mailbox_packet (MsgUpdatePrepareRequest (mk_UpdatePrepareRequest RwB)).

Lemma sample_packet_complete : complete sample_packet.
Proof.
  split; vm_compute; (split; [intros H; discriminate H|intros H1 H2; first [discriminate H1|discriminate H2]]).
Qed.

Lemma spi_packet_returns_witness :
  ∃ r s', process_spi_packet (sample_env papa_booted []) 600 sample_packet initial = (r, s') ∧
    r ≠ Panic ∧ inv s'.
Proof.
  apply (spi_packet_returns (sample_env papa_booted []) 600 sample_packet initial);
    [by_compute|exact sample_packet_complete|by_compute|by_compute].
Defined.

Lemma firmware_updates_confined_witness :
  ∃ calls,
    hist (process_spi_packet (sample_env papa_booted []) 600 sample_packet initial).2 = hist initial ++ calls ∧
    Forall (λ c, match c with
      | FlashErase p => ∃ seg, inactive (sample_env papa_booted []) seg ∧
                          start_page seg <= p < start_page seg + page_count seg
      | FlashWrite off _ len | FlashRead off _ len =>
          ∃ seg, inactive (sample_env papa_booted []) seg ∧ in_segment seg off len
      | _ => True
      end) calls.
Proof.
  apply (firmware_updates_confined (sample_env papa_booted []) 600 sample_packet initial);
    [by_compute|exact sample_packet_complete|by_compute|by_compute].
Defined.

Lemma answers_well_formed_witness :
  ∃ calls,
    hist (process_spi_packet (sample_env papa_booted []) 600 sample_packet initial).2 = hist initial ++ calls ∧
    ∀ out clear_busy clear_write_enable, EndWithData out clear_busy clear_write_enable ∈ calls →
      clear_busy = true ∧ clear_write_enable = true ∧
      ∃ h body, payload_header_from_wire out = (Ok h, body) ∧ content_len h = Z.of_nat (length body) ∧
        compute_checksum h body = Some (checksum h).
Proof.
  apply (answers_well_formed (sample_env papa_booted []) 600 sample_packet initial);
    [by_compute|exact sample_packet_complete|by_compute|by_compute].
Defined.

(** A payload header that announces 65535 bytes, and nothing behind it. *)
Definition short_packet : list Z := [0x02; 0x08; 0; 0; 0x01; 0xff; 0xff; 0].

