(* ===== verification/SpiAnswers.v ===== *)
(** What the packet processor answers (userspace/otpilot/src/spi_processor.rs):
    the abstract update protocol and the proof that the code implements it, and
    the two ends of the system put together: the kernel's segments, and the
    packets of the command-line tool. *)

From S2P Require Import Prelude Io Wire FlashProto Payload FirmwareProto Tock SpiTool.
From S2P Require Import FlashHw GlobalSec FirmwareController SpiProcessor SpiForward SpiSafety.
From Stdlib Require Import ZArith Lia.
From stdpp Require Import base decidable option list list_numbers.

#[local] Open Scope Z_scope.

Import FcFacts SpiProcessor SpFacts.

(** ** The abstract update protocol

    [respond env b m]: the response to the request [m], and the calls to the
    flash and the chip it causes; [b] tells whether the flash returns the chunk
    when it is read back. *)

Definition chunk_fits (seg : SegmentInfo) (q : WriteChunkRequest) : bool :=
  bool_decide (wcq_offset q + Z.of_nat (length (wcq_data q)) <= seg_size seg ∧
               (length (wcq_data q) <= MAX_BUFFER_LENGTH)%nat).

Definition respond (env : Env) (buf : list Z) (b : bool) (m : FirmwareMessage) :
    option (FirmwareMessage * list Call) :=
  match m with
  | MsgInactiveSegmentsInfoRequest _ =>
      Some (MsgInactiveSegmentsInfoResponse
              (mk_InactiveSegmentsInfoResponse (get_inactive_ro env) (get_inactive_rw env)), [])
  | MsgUpdatePrepareRequest q =>
      Some match find_segment env (upq_segment q) with
      | None =>
          (MsgUpdatePrepareResponse (mk_UpdatePrepareResponse (upq_segment q) 0 UpInvalidSegmentAndLocation), [])
      | Some seg =>
          (MsgUpdatePrepareResponse (mk_UpdatePrepareResponse (upq_segment q) 128 UpSuccess),
           erase_range (start_page seg) (page_count seg))
      end
  | MsgWriteChunkRequest q =>
      let answer r := MsgWriteChunkResponse (mk_WriteChunkResponse (wcq_segment q) (wcq_offset q) r) in
      Some match find_segment env (wcq_segment q) with
      | None => (answer WcInvalidSegmentAndLocation, [])
      | Some seg =>
          if seg_size seg <=? wcq_offset q then (answer WcInvalidOffset, [])
          else if negb (chunk_fits seg q) then (answer WcDataTooLong, [])
          else (answer (if b then WcSuccess else WcCompareFailed),
                write_calls seg (wcq_offset q) (wcq_data q) (copy_at buf 0 (wcq_data q))
                ++ [read_call seg (wcq_offset q) (wcq_data q)])
      end
  | MsgRebootRequest q =>
      Some match rbq_time q with
      | RtImmediate => (MsgRebootResponse (mk_RebootResponse RtImmediate RbSuccess), [ResetChip])
      | RtDelayed => (MsgRebootResponse (mk_RebootResponse RtDelayed RbError), [])
      end
  | _ => None
  end.

(** Whether the chunk of the request [m], written after the history of [s], is
    read back unchanged. *)
Definition reads_back (env : Env) (s : st) (m : FirmwareMessage) : bool :=
  match m with
  | MsgWriteChunkRequest q =>
      match find_segment env (wcq_segment q) with
      | Some seg =>
          let buf := copy_at (FirmwareController.WRITE_BUF (firmware s)) 0 (wcq_data q) in
          bool_decide (read_back env (hist s ++ write_calls seg (wcq_offset q) (wcq_data q) buf)
                         seg (wcq_offset q) (wcq_data q) = wcq_data q)
      | None => false
      end
  | _ => false
  end.

(** ** Steps of a run *)

Section Steps.
Context (env : Env) (fuel : nat) `{!Cooperative env} `{!Sane env fuel}.

Lemma coop_not_failed h : ¬ op_failed env h.
Proof.
  intros (h0 & c & _ & Hc). destruct c; try done; try (rewrite coop_ok in Hc; done).
  pose proof (coop_result (env := env) h0). lia.
Qed.

Lemma attempt_exact {A} (m : M FirmwareController.st FirmwareControllerError A) todo P s :
  did env todo (firmware s) (m (firmware s)) P →
  ∃ a s', attempt m s = (Ok (inl a), s') ∧ hist s' = hist s ++ todo ∧ P a (firmware s') ∧
          SPI_TX_BUF s' = SPI_TX_BUF s.
Proof.
  intros (calls & Hh & _ & Hr). unfold attempt. destruct (m (firmware s)) as [[a|e|] f]; cbn [fst snd] in *.
  - destruct Hr as [-> HP]. exists a, (set_firmware f s). split_and!; done.
  - by apply coop_not_failed in Hr.
  - done.
Qed.

(** The answer to a message, sent. *)
Definition says (m : FirmwareMessage) : Call := EndWithData (answer CtFirmware (message_encode m)) true true.

Lemma respond_says m s : tx_ok s → message_valid m →
  (HEADER_LEN + length (message_encode m) <= SPI_TX_BUF_SIZE)%nat →
  ∃ s', send_firmware_response env m s = (Ok tt, s') ∧ hist s' = hist s ++ [says m].
Proof.
  intros Ht Hv Hl.
  destruct (respond_exact env CtFirmware (message_to_wire m) (message_encode m) s (message_emits m Hv) Ht Hl)
    as (s1 & E & Hf & _).
  destruct (call_ok_exact env (says m) s1) as (s2 & E2 & Hh & _). exists s2.
  split; [unfold send_firmware_response; by rewrite E|]. rewrite Hh. unfold hist. by rewrite Hf.
Qed.

Lemma parse_exact {T} `{WireLaws T} (x : T) rest s :
  valid x → parse (from_wire T) (encode x ++ rest) s = (Ok (x, rest), s).
Proof.
  intros Hv. destruct (from_wire_parses (list Z) x Hv (encode x ++ rest) rest) as (r & E & Hr); [done|].
  unfold parse. rewrite E. change (rd_view r) with r in Hr. by subst r.
Qed.

(** The handlers, on the request they are for. *)

Lemma inactive_segments_says (q : InactiveSegmentsInfoRequest) s : tx_ok s →
  ∃ s', process_firmware_inactive_segments env (encode q) s = (Ok tt, s') ∧
    hist s' = hist s ++ [says (MsgInactiveSegmentsInfoResponse
                           (mk_InactiveSegmentsInfoResponse (get_inactive_ro env) (get_inactive_rw env)))].
Proof.
  intros Ht. unfold process_firmware_inactive_segments.
  erewrite bind_ok; [|rewrite <-(app_nil_r (encode q)); by apply (parse_exact q)].
  apply respond_says; [done| |by_compute].
  split; [apply (sane_segments _ (or_introl eq_refl))|apply (sane_segments _ (or_intror eq_refl))].
Qed.

Lemma update_prepare_says (q : UpdatePrepareRequest) s : tx_ok s →
  ∃ s' m calls, process_firmware_update_prepare env fuel (encode q) s = (Ok tt, s') ∧
    respond env [] true (MsgUpdatePrepareRequest q) = Some (m, calls) ∧ hist s' = hist s ++ calls ++ [says m].
Proof.
  intros Ht. unfold process_firmware_update_prepare.
  erewrite bind_ok; [|rewrite <-(app_nil_r (encode q)); by apply (parse_exact q)].
  cbn [respond]. destruct (find_segment env (upq_segment q)) as [seg|] eqn:E.
  - destruct (sane_segments seg (find_segment_inactive env _ _ E)) as ((Hok & _) & _ & Hf).
    destruct (attempt_exact _ _ _ s (erase_segment_did env fuel seg (firmware s) Hok Hf)) as (a & s1 & E1 & Hh1 & _ & Htx).
    rewrite (bind_ok _ _ _ _ _ E1). unfold tx_ok in Ht. rewrite <-Htx in Ht.
    edestruct (respond_says (MsgUpdatePrepareResponse (mk_UpdatePrepareResponse (upq_segment q) 128 UpSuccess)) s1)
      as (s2 & E2 & Hh2); [exact Ht|by_compute|rewrite length_message; by_compute|].
    eexists s2, _, _. split_and!; [exact E2|reflexivity|]. by rewrite Hh2, Hh1, <-app_assoc.
  - edestruct respond_says as (s2 & E2 & Hh2); [exact Ht| | |].
    3:{ eexists s2, _, _. split_and!; [exact E2|reflexivity|exact Hh2]. }
    + by_compute.
    + rewrite length_message. by_compute.
Qed.

Lemma too_long_exact seg (q : WriteChunkRequest) :
  inactive env seg → fits 32 (wcq_offset q) → wcq_offset q < seg_size seg →
  (seg_size seg <? u32 (wcq_offset q + u32 (Z.of_nat (length (wcq_data q))))) ||
  (FirmwareController.get_max_write_chunk_length <? length (wcq_data q))%nat = negb (chunk_fits seg q).
Proof.
  intros Hi Hf Ho. destruct (sane_segments seg Hi) as ((_ & Ha & Hz & Htop) & _).
  unfold FirmwareController.get_max_write_chunk_length, chunk_fits, MAX_BUFFER_LENGTH in *.
  destruct (Nat.ltb_spec 128 (length (wcq_data q))) as [Hlong|Hshort].
  - rewrite orb_true_r. symmetry. apply negb_true_iff, bool_decide_eq_false. lia.
  - rewrite orb_false_r, (u32_small (Z.of_nat _)), u32_small by (unfold fits in *; lia).
    destruct (Z.ltb_spec (seg_size seg) (wcq_offset q + Z.of_nat (length (wcq_data q)))); symmetry.
    + apply negb_true_iff, bool_decide_eq_false. lia.
    + apply negb_false_iff, bool_decide_eq_true. lia.
Qed.

Lemma write_chunk_response_says (q : WriteChunkRequest) r s : tx_ok s → fits 32 (wcq_offset q) →
  ∃ s', send_firmware_write_chunk_response env q r s = (Ok tt, s') ∧
    hist s' = hist s ++ [says (MsgWriteChunkResponse (mk_WriteChunkResponse (wcq_segment q) (wcq_offset q) r))].
Proof. intros Ht Hf. apply respond_says; [done|exact Hf|rewrite length_message; by_compute]. Qed.

Lemma write_chunk_says (q : WriteChunkRequest) s : inv s → fits 32 (wcq_offset q) →
  let m := MsgWriteChunkRequest q in
  ∃ s' a calls, process_firmware_write_chunk env (body_encode m) s = (Ok tt, s') ∧
    respond env (FirmwareController.WRITE_BUF (firmware s)) (reads_back env s m) m = Some (a, calls) ∧
    hist s' = hist s ++ calls ++ [says a].
Proof.
  intros [Ht Hw] Hf m. unfold process_firmware_write_chunk.
  destruct (write_chunk_parses (R := list Z) q (body_encode m) Hf) as (rest & E & _); [done|].
  change (from_wire WriteChunkRequest) with (write_chunk_request_from_wire (R := list Z)) in E.
  rewrite (bind_ok _ _ _ (q, rest) s) by (unfold parse; by rewrite E).
  cbn [respond m reads_back]. destruct (find_segment env (wcq_segment q)) as [seg|] eqn:Es.
  2:{ destruct (write_chunk_response_says q WcInvalidSegmentAndLocation s Ht Hf) as (s2 & E2 & Hh2).
      eexists s2, _, _. split_and!; [exact E2|reflexivity|exact Hh2]. }
  destruct (find_segment_some env fuel _ _ Es) as (Hi & _).
  destruct (Z.leb_spec (seg_size seg) (wcq_offset q)) as [|Hoff].
  { destruct (write_chunk_response_says q WcInvalidOffset s Ht Hf) as (s2 & E2 & Hh2).
    eexists s2, _, _. split_and!; [exact E2|reflexivity|exact Hh2]. }
  rewrite (too_long_exact seg q Hi Hf Hoff). destruct (chunk_fits seg q) eqn:Ec; cbn [negb].
  2:{ destruct (write_chunk_response_says q WcDataTooLong s Ht Hf) as (s2 & E2 & Hh2).
      eexists s2, _, _. split_and!; [exact E2|reflexivity|exact Hh2]. }
  apply bool_decide_eq_true in Ec as [_ Hlen].
  destruct (attempt_exact _ _ _ s (write_did env seg (wcq_offset q) (wcq_data q) (firmware s) Hw Hlen))
    as (b & s1 & E1 & Hh1 & [_ Hb] & Htx).
  rewrite (bind_ok _ _ _ _ _ E1). unfold tx_ok in Ht. rewrite <-Htx in Ht.
  edestruct (write_chunk_response_says q) as (s2 & E2 & Hh2); [exact Ht|exact Hf|].
  eexists s2, _, _. split_and!; [exact E2|reflexivity|]. rewrite Hh2, Hh1, <-app_assoc, Hb. done.
Qed.

Lemma reboot_says (q : RebootRequest) s : tx_ok s →
  ∃ s' a calls, process_firmware_reboot env (encode q) s = (Ok tt, s') ∧
    respond env [] true (MsgRebootRequest q) = Some (a, calls) ∧ hist s' = hist s ++ calls ++ [says a].
Proof.
  intros Ht. unfold process_firmware_reboot.
  erewrite bind_ok; [|rewrite <-(app_nil_r (encode q)); by apply (parse_exact q)].
  cbn [respond]. destruct q as [[]]; cbn [rbq_time].
  - set (s1 := set_firmware (FirmwareController.log ResetChip (firmware s)) s).
    rewrite (bind_ok _ _ s RbSuccess s1).
    2:{ unfold svc, zoom, FirmwareController.call, mbind, M_bind. by rewrite coop_ok. }
    edestruct (respond_says (MsgRebootResponse (mk_RebootResponse RtImmediate RbSuccess)) s1) as (s2 & E2 & Hh2);
      [exact Ht|exact I|by_compute|].
    eexists s2, _, _. split_and!; [exact E2|reflexivity|]. rewrite Hh2. by rewrite app_assoc.
  - rewrite (bind_ok _ _ s RbError s) by done.
    edestruct (respond_says (MsgRebootResponse (mk_RebootResponse RtDelayed RbError)) s) as (s2 & E2 & Hh2);
      [exact Ht|exact I|by_compute|].
    eexists s2, _, _. split_and!; [exact E2|reflexivity|exact Hh2].
Qed.

(** The dispatcher, on any message. *)
Lemma firmware_says m s a calls : inv s → message_valid m →
  respond env (FirmwareController.WRITE_BUF (firmware s)) (reads_back env s m) m = Some (a, calls) →
  ∃ s', process_firmware env fuel (message_encode m) s = (Ok tt, s') ∧ hist s' = hist s ++ calls ++ [says a].
Proof.
  intros Hs Hv Hr. unfold process_firmware, message_encode.
  erewrite bind_ok; [|by apply (parse_exact (mk_FwHeader (message_type m)))].
  cbn [fw_content]. destruct m as [q|q|q|q|q|q|q|q]; cbn [message_type]; try discriminate.
  - destruct (update_prepare_says q s (proj1 Hs)) as (s' & a' & c' & E & Hr' & Hh).
    cbn [respond] in Hr, Hr'. rewrite Hr in Hr'. injection Hr' as -> ->. exists s'. done.
  - destruct (write_chunk_says q s Hs (proj1 Hv)) as (s' & a' & c' & E & Hr' & Hh).
    rewrite Hr in Hr'. injection Hr' as -> ->. exists s'. done.
  - destruct (inactive_segments_says q s (proj1 Hs)) as (s' & E & Hh).
    cbn [respond] in Hr. injection Hr as <- <-. exists s'. done.
  - destruct (reboot_says q s (proj1 Hs)) as (s' & a' & c' & E & Hr' & Hh).
    cbn [respond] in Hr, Hr'. rewrite Hr in Hr'. injection Hr' as -> ->. exists s'. done.
Qed.

(** A payload that is an answer is accepted. *)
Lemma payload_accepted m s : (HEADER_LEN + length (message_encode m) <= SPI_TX_BUF_SIZE)%nat →
  process_spi_payload env fuel (answer CtFirmware (message_encode m)) s = process_firmware env fuel (message_encode m) s.
Proof.
  intros Hl. unfold process_spi_payload, answer. set (b := message_encode m) in *.
  erewrite bind_ok; [|apply (parse_exact (H1 := PayloadHeader_WireLaws)), (answer_header_valid _ b Hl)].
  assert (Hc : compute_checksum (answer_header CtFirmware b) b = Some (checksum (answer_header CtFirmware b))).
  { unfold answer_header. cbn [checksum]. unfold compute_checksum. cbn [content_len content].
    rewrite Nat2Z.id. by rewrite (proj2 (Nat.ltb_ge _ _)) by lia. }
  cbv beta iota. rewrite Hc. rewrite (bind_ok _ _ s (checksum (answer_header CtFirmware b)) s) by done.
  rewrite Z.eqb_refl. cbn [negb answer_header content content_len].
  rewrite Nat2Z.id, slice_all. rewrite (bind_ok _ _ s b s) by done. reflexivity.
Qed.

End Steps.

(** ** Theorems *)


#[global] Instance papa_cooperative data : Cooperative (sample_env papa_booted data) := sample_env_cooperative _ data.


(** The kernel's segments are sane. *)
Lemma papa_sane env fuel ro rw r :
  Returns env → (∀ d b n b', env_manticore env d b = (Some n, b') → (n <= length b)%nat) →
  GlobalSecFacts.booted papa_segments ro rw r → (120 <= fuel)%nat →
  env_segments env = GlobalSecHardware.get_runtime_segment_info
    (GlobalSecHardware.init papa_segments (GlobalSecHardware.new r)) →
  Sane env fuel.
Proof.
  intros Hret Hm Hb Hf Hseg. split; [done| |done].
  unfold inactive. rewrite Hseg. unfold GlobalSecHardware.get_runtime_segment_info, GlobalSecHardware.new.
  destruct (GlobalSecFacts.papa_init ro rw r UNKNOWN_RUNTIME_SEGMENT_INFO Hb) as [-> _].
  cbn [inactive_ro inactive_rw]. intros seg Hi.
  assert (Hc : (segment_sane seg ∧ valid seg) ∧ page_count seg <= 120).
  { destruct Hb as ([->| ->] & [->| ->] & _), Hi as [->| ->]; split_and!; by_compute. }
  destruct Hc as [[? ?] ?]. split_and!; [done|done|lia].
Qed.

(** A call that neither erases a page nor writes a byte of the segment. *)
Definition spares (seg : SegmentInfo) (c : Call) : Prop :=
  match c with
  | FlashErase p => ¬ (start_page seg <= p < start_page seg + page_count seg)
  | FlashWrite off _ len => off + len <= seg_address seg ∨ seg_address seg + seg_size seg <= off
  | _ => True
  end.

(** C1: an update never touches the running image.  Put together: on the papa
    board, whichever images the boot ROM started, with the segments the kernel
    derives from them and for every behaviour of the services, no complete
    packet makes the application erase a page of a running segment or write a
    byte of its address range. *)
Theorem running_image_untouched (env : Env) `{!Returns env} fuel ro rw r rx s :
  GlobalSecFacts.booted papa_segments ro rw r →
  env_segments env = GlobalSecHardware.get_runtime_segment_info
    (GlobalSecHardware.init papa_segments (GlobalSecHardware.new r)) →
  (∀ d b n b', env_manticore env d b = (Some n, b') → (n <= length b)%nat) →
  bytes_ok rx → complete rx → (length rx + 120 < fuel)%nat → inv s →
  ∃ calls, hist (process_spi_packet env fuel rx s).2 = hist s ++ calls ∧
    Forall (λ c, ∀ active, active ∈ [ro; rw] → spares active c) calls.
Proof.
  intros Hb Hseg Hm Hrx Hc Hf Hs.
  pose proof (papa_sane env fuel ro rw r Returns0 Hm Hb ltac:(lia) Hseg) as Hsane.
  destruct (safe_packet env fuel rx Hrx Hc ltac:(lia) s Hs) as (res & s' & calls & E & _ & Hh & Ha & _).
  exists calls. rewrite E. split; [done|]. eapply Forall_impl; [exact Ha|].
  assert (Hd : ∀ seg active, inactive env seg → active ∈ [ro; rw] → GlobalSecFacts.disjoint_segments seg active).
  { unfold inactive. rewrite Hseg. unfold GlobalSecHardware.get_runtime_segment_info, GlobalSecHardware.new.
    destruct (GlobalSecFacts.papa_init ro rw r UNKNOWN_RUNTIME_SEGMENT_INFO Hb) as [-> _].
    cbn [inactive_ro inactive_rw]. intros seg active Hi Hact.
    apply elem_of_cons in Hact as [->|Hact%list_elem_of_singleton]; subst;
      destruct Hb as ([->| ->] & [->| ->] & _), Hi as [->| ->]; by_compute. }
  intros c Hall active Hact. unfold spares. destruct c; try done.
  - destruct Hall as (seg & Hi & Hp). destruct (Hd seg active Hi Hact). lia.
  - destruct Hall as (seg & Hi & Hp1 & Hp2). destruct (Hd seg active Hi Hact). lia.
Qed.

Lemma running_image_untouched_witness :
  ∃ calls, hist (process_spi_packet (sample_env papa_booted []) 600 sample_packet initial).2 = hist initial ++ calls ∧
    Forall (λ c, ∀ active, active ∈ [ro_a papa_segments; rw_a papa_segments] → spares active c) calls.
Proof.
  apply (running_image_untouched (sample_env papa_booted []) 600 (ro_a papa_segments) (rw_a papa_segments)
           GlobalSecFacts.sample_registers sample_packet initial);
    [split_and!; first [by left|reflexivity]|reflexivity|intros d b n b' [= <- _]; lia
    |by_compute|exact sample_packet_complete|by_compute|by_compute].
Defined.

(** What the tool writes for a file. *)
Definition tool_packet (d : list Z) : list Z := encode (tool_header (length d)) ++ d.

(** The application does not accept what the command-line tool produces.  The
    tool writes a checksum of zero; the application answers such a packet with
    [BadChecksum] unless the checksum of the file happens to be zero. *)
Theorem tool_payload_checksum (env : Env) fuel (d : list Z) s :
  Z.of_nat (length d) < 2 ^ 16 →
  process_spi_payload env fuel (tool_packet d) s =
  if decide (compute_checksum (tool_header (length d)) d = Some 0)
  then process_manticore env d s
  else send_error env BadChecksum s.
Proof.
  intros Hd. unfold process_spi_payload, tool_packet.
  erewrite bind_ok; [|apply (parse_exact (H1 := PayloadHeader_WireLaws)), (tool_header_valid _ Hd)].
  cbv beta iota. cbn [tool_header content content_len checksum].
  destruct (compute_checksum (tool_header (length d)) d) as [c|] eqn:E.
  2:{ unfold compute_checksum, tool_header in E. cbn [content_len] in E.
      rewrite Nat2Z.id, (proj2 (Nat.ltb_ge _ _)) in E by lia. discriminate. }
  rewrite (bind_ok _ _ s c s) by done.
  rewrite Nat2Z.id, slice_all. rewrite Z.eqb_sym. destruct (Z.eqb_spec c 0) as [->|Hc]; cbn [negb].
  - rewrite decide_True by done. by rewrite (bind_ok _ _ s d s) by done.
  - rewrite decide_False; [done|]. intros [= ->]. done.
Qed.

Lemma tool_payload_checksum_witness :
  process_spi_payload (sample_env papa_booted []) 600 (tool_packet [1; 2; 3]) initial =
  if decide (compute_checksum (tool_header 3) [1; 2; 3] = Some 0)
  then process_manticore (sample_env papa_booted []) [1; 2; 3] initial
  else send_error (sample_env papa_booted []) BadChecksum initial.
Proof. apply (tool_payload_checksum (sample_env papa_booted []) 600 [1; 2; 3] initial). by_compute. Defined.
