(* ===== verification/SpiDevice.v ===== *)
(** The application's SPI device port (userspace/otpilot/src/spi_device.rs): the
    transaction received last, the address mode, and the system calls that end a
    transaction or configure the port.

    The kernel is a parameter: it answers system calls and runs the two
    subscribed callbacks. *)

From S2P Require Import Prelude Io Wire FlashProto FirmwareProto Tock FlashSyscalls.
From Stdlib Require Import ZArith Lia.
From stdpp Require Import base decidable option list list_numbers.

#[local] Open Scope Z_scope.

(** The system calls of the driver: a command answers with a value or fails;
    [allow] shares a buffer. *)
Class SpiKernel (Kn : Type) := {
  spi_command : Z → Z → Z → Kn → option Z * Kn;
  spi_allow : Z → list Z → Kn → bool * Kn;
  spi_subscribe : Z → Kn → bool * Kn
}.

Module SpiDeviceImpl.

Definition CHECK_IF_PRESENT : Z := 0.
Definition SEND_DATA : Z := 1.
Definition CLEAR_STATUS : Z := 2.
Definition SET_ADDRESS_MODE : Z := 3.
Definition GET_ADDRESS_MODE : Z := 4.
Definition SET_ADDRESS_MODE_HANDLING : Z := 5.
Definition SET_JEDEC_ID : Z := 6.
Definition SET_SFDP : Z := 7.
Definition CONFIGURE_ADDRESSES : Z := 8.
Definition DATA_RECEIVED : Z := 0.
Definition ADDRESS_MODE_CHANGED : Z := 1.
Definition WRITE_BUFFER : Z := 0.
Definition READ_BUFFER : Z := 1.
Definition READ_BUFFER_SIZE : nat := 512.

Section Device.
Context {Kn : Type} `{SpiKernel Kn}.

Record t := mk {
  read_buffer : list Z;
  shared : bool;
  received_len : nat;
  is_busy_set_ : bool;
  is_write_enable_set_ : bool;
  address_mode : AddressMode;
  kernel : Kn
}.

Definition initial (k : Kn) : t := mk (replicate READ_BUFFER_SIZE 0) false 0 false false ThreeByte k.

Definition set_mode (m : AddressMode) (s : t) : t :=
  mk (read_buffer s) (shared s) (received_len s) (is_busy_set_ s) (is_write_enable_set_ s) m (kernel s).
Definition set_shared (s : t) : t :=
  mk (read_buffer s) true (received_len s) (is_busy_set_ s) (is_write_enable_set_ s) (address_mode s) (kernel s).
Definition set_kernel (k : Kn) (s : t) : t :=
  mk (read_buffer s) (shared s) (received_len s) (is_busy_set_ s) (is_write_enable_set_ s) (address_mode s) k.

(** A command with [?]: its value. *)
Definition command (num arg1 arg2 : Z) : M t TockError Z := λ s,
  match spi_command num arg1 arg2 (kernel s) with
  | (Some v, k) => (Ok v, set_kernel k s)
  | (None, k) => (Err mk_TockError, set_kernel k s)
  end.

Definition allow (num : Z) (buffer : list Z) : M t TockError unit := λ s,
  match spi_allow num buffer (kernel s) with
  | (true, k) => (Ok tt, set_kernel k s)
  | (false, k) => (Err mk_TockError, set_kernel k s)
  end.

Definition subscribe_fn (num : Z) : M t TockError unit := λ s,
  match spi_subscribe num (kernel s) with
  | (true, k) => (Ok tt, set_kernel k s)
  | (false, k) => (Err mk_TockError, set_kernel k s)
  end.

Definition initialize : M t TockError unit :=
  command CHECK_IF_PRESENT 0 0 ;;
  subscribe_fn ADDRESS_MODE_CHANGED ;;
  address_mode_val ← command GET_ADDRESS_MODE 0 0;
  mode ← ok_or mk_TockError (address_mode_try_from address_mode_val);
  modify (set_mode mode) ;;
  buf ← gets read_buffer;
  allow READ_BUFFER buf ;;
  modify set_shared ;;
  subscribe_fn DATA_RECEIVED.

(** The callbacks; the kernel has written [bytes] into the shared buffer before. *)
Definition data_received (bytes : list Z) (arg1 : nat) (arg2 arg3 : Z) (s : t) : t :=
  mk (if shared s then take (length (read_buffer s)) (bytes ++ drop (length bytes) (read_buffer s))
      else read_buffer s)
    (shared s) arg1 (negb (arg2 =? 0)) (negb (arg3 =? 0)) (address_mode s) (kernel s).

Definition address_mode_changed (arg1 : Z) (s : t) : t :=
  match address_mode_try_from arg1 with
  | Some m => set_mode m s
  | None => s
  end.

Definition clear_transaction (s : t) : t :=
  mk (read_buffer s) (shared s) 0 (is_busy_set_ s) (is_write_enable_set_ s) (address_mode s) (kernel s).

Definition have_transaction (s : t) : bool := negb (received_len s =? 0)%nat.

(** [&self.read_buffer[0..len]], which panics when the length is out of range. *)
Definition get_read_buffer : M t TockError (list Z) :=
  s ← gets id; unwrap (slice (read_buffer s) 0 (received_len s)).

Definition is_busy_set (s : t) : bool := is_busy_set_ s.
Definition is_write_enable_set (s : t) : bool := is_write_enable_set_ s.

Definition end_transaction : M t TockError unit := modify clear_transaction.

Definition end_transaction_with_status (clear_busy clear_write_enable : bool) : M t TockError unit :=
  modify clear_transaction ;;
  command CLEAR_STATUS (if clear_busy then 1 else 0) (if clear_write_enable then 1 else 0) ;;
  mret tt.

Definition end_transaction_with_data (write_buffer : list Z) (clear_busy clear_write_enable : bool) :
    M t TockError unit :=
  modify clear_transaction ;;
  allow WRITE_BUFFER write_buffer ;;
  command SEND_DATA (if clear_busy then 1 else 0) (if clear_write_enable then 1 else 0) ;;
  mret tt.

Definition set_address_mode (m : AddressMode) : M t TockError unit :=
  command SET_ADDRESS_MODE (address_mode_to_usize m) 0 ;;
  modify (set_mode m).

Definition get_address_mode (s : t) : AddressMode := address_mode s.

Definition set_address_mode_handling (h : HandlerMode) : M t TockError unit :=
  command SET_ADDRESS_MODE_HANDLING (handler_mode_to_usize h) 0 ;; mret tt.

Definition set_jedec_id (data : list Z) : M t TockError unit :=
  allow WRITE_BUFFER data ;; command SET_JEDEC_ID 0 0 ;; mret tt.

Definition set_sfdp (data : list Z) : M t TockError unit :=
  allow WRITE_BUFFER data ;; command SET_SFDP 0 0 ;; mret tt.

Definition configure_addresses (config : AddressConfig) : M t TockError unit :=
  match address_config_to_wire config (Cursor.new (replicate ADDRESS_CONFIG_LEN 0)) with
  | (Ok _, cursor) => allow WRITE_BUFFER (Cursor.buf cursor) ;; command CONFIGURE_ADDRESSES 0 0 ;; mret tt
  | (Err _, _) => throw mk_TockError
  | (Panic, _) => panic
  end.

End Device.
Arguments t Kn : clear implicits.

End SpiDeviceImpl.

(** ** The transaction state machine *)

Module SpiDeviceFacts.
Import SpiDeviceImpl.

(** What the application and the kernel do with the port. *)
Inductive op :=
| OpReceived (bytes : list Z) (busy we : Z)
| OpModeChanged (arg1 : Z)
| OpEnd
| OpEndStatus (clear_busy clear_write_enable : bool)
| OpEndData (buffer : list Z) (clear_busy clear_write_enable : bool)
| OpSetMode (m : AddressMode)
| OpJedec (data : list Z)
| OpSfdp (data : list Z)
| OpConfigure (config : AddressConfig)
| OpHandling (h : HandlerMode).

Section Machine.
Context {Kn : Type} `{SpiKernel Kn}.

Definition run_op (o : op) (s : t Kn) : outcome TockError unit * t Kn :=
  match o with
  | OpReceived bytes busy we => (Ok tt, data_received bytes (length bytes) busy we s)
  | OpModeChanged arg1 => (Ok tt, address_mode_changed arg1 s)
  | OpEnd => end_transaction s
  | OpEndStatus b w => end_transaction_with_status b w s
  | OpEndData d b w => end_transaction_with_data d b w s
  | OpSetMode m => set_address_mode m s
  | OpJedec d => set_jedec_id d s
  | OpSfdp d => set_sfdp d s
  | OpConfigure c => configure_addresses c s
  | OpHandling h => set_address_mode_handling h s
  end.

(** The transaction that is open after an operation. *)
Definition open_after (o : op) (open : option (list Z * bool * bool)) : option (list Z * bool * bool) :=
  match o with
  | OpReceived [] _ _ => None
  | OpReceived bytes busy we => Some (bytes, negb (busy =? 0), negb (we =? 0))
  | OpEnd | OpEndStatus _ _ | OpEndData _ _ _ => None
  | _ => open
  end.

(** The state of the port and the open transaction agree. *)
Definition agrees (s : t Kn) (open : option (list Z * bool * bool)) : Prop :=
  shared s = true ∧ length (read_buffer s) = READ_BUFFER_SIZE ∧ (received_len s <= READ_BUFFER_SIZE)%nat ∧
  match open with
  | None => received_len s = 0%nat
  | Some (bytes, busy, we) =>
      received_len s = length bytes ∧ bytes ≠ [] ∧ take (length bytes) (read_buffer s) = bytes ∧
      is_busy_set_ s = busy ∧ is_write_enable_set_ s = we
  end.

(** The parts of the state that system calls do not change. *)
Definition same (s s' : t Kn) : Prop :=
  read_buffer s' = read_buffer s ∧ shared s' = shared s ∧ received_len s' = received_len s ∧
  is_busy_set_ s' = is_busy_set_ s ∧ is_write_enable_set_ s' = is_write_enable_set_ s.

#[export] Instance same_preorder : PreOrder same.
Proof.
  split; unfold same; [by intros ?|]. intros a b c (? & ? & ? & ? & ?) (? & ? & ? & ? & ?).
  split_and!; etrans; eassumption.
Qed.

Definition calls_only {A} (m : M (t Kn) TockError A) : Prop := ∀ s, same s (m s).2 ∧ (m s).1 ≠ Panic.

Lemma calls_bind {A B} (m : M (t Kn) TockError A) (f : A → M (t Kn) TockError B) :
  calls_only m → (∀ a, calls_only (f a)) → calls_only (m ≫= f).
Proof.
  intros Hm Hf s. rewrite bind_unfold. destruct (Hm s) as [Hs Hp].
  destruct (m s) as [[a|e|] s']; cbn [fst snd] in *; [|done..].
  destruct (Hf a s') as [Hs' Hp']. split; [by etrans|done].
Qed.

Lemma calls_command n a b : calls_only (command n a b).
Proof. intros s. unfold command. by destruct (spi_command _ _ _ _) as [[]]. Qed.
Lemma calls_allow n d : calls_only (allow n d).
Proof. intros s. unfold allow. by destruct (spi_allow _ _ _) as [[]]. Qed.
Lemma calls_ret {A} (a : A) : calls_only (mret a).
Proof. intros s. done. Qed.
Lemma calls_mode m : calls_only (modify (set_mode m)).
Proof. intros s. done. Qed.

Ltac calls_tac :=
  unfold set_address_mode, set_jedec_id, set_sfdp, set_address_mode_handling;
  repeat first [ apply calls_ret | apply calls_command | apply calls_allow | apply calls_mode
               | apply calls_bind; [|intros ?] ].

Lemma config_written c : (address_config_to_wire c (Cursor.new (replicate ADDRESS_CONFIG_LEN 0))).1 = Ok tt.
Proof. by destruct c. Qed.

Lemma calls_configure c : calls_only (configure_addresses c).
Proof.
  unfold configure_addresses. pose proof (config_written c) as Hw.
  destruct (address_config_to_wire c _) as [r cur]. cbn in Hw. subst r.
  calls_tac.
Qed.

(** Operations that are system calls only, and those that close the transaction first. *)
Lemma agrees_calls (m : M (t Kn) TockError unit) s o :
  calls_only m → agrees s o → agrees (m s).2 o ∧ (m s).1 ≠ Panic.
Proof.
  intros Hm Ha. destruct (Hm s) as [(E1 & E2 & E3 & E4 & E5) Hp]. split; [|done].
  unfold agrees. rewrite E1, E2, E3, E4, E5. exact Ha.
Qed.

Lemma agrees_close (m : M (t Kn) TockError unit) s o :
  calls_only m → agrees s o →
  agrees ((modify clear_transaction ;; m) s).2 None ∧ ((modify clear_transaction ;; m) s).1 ≠ Panic.
Proof.
  intros Hm (? & ? & _). apply (agrees_calls m (clear_transaction s) None Hm).
  split_and!; cbn; [done|done|lia|done].
Qed.

Lemma agrees_received bytes busy we s o :
  agrees s o → (length bytes <= READ_BUFFER_SIZE)%nat →
  agrees (data_received bytes (length bytes) busy we s) (open_after (OpReceived bytes busy we) o).
Proof.
  intros (Hs & Hl & _) Hlen. unfold agrees, data_received.
  cbn [shared read_buffer received_len is_busy_set_ is_write_enable_set_]. rewrite Hs, Hl.
  split_and!; [done| |done|].
  - rewrite length_take, length_app, length_drop. lia.
  - destruct bytes as [|x bytes]; [done|]. cbn [open_after]. split_and!; try done.
    rewrite take_take, Nat.min_l by done. apply take_app_length.
Qed.

(** The port's transaction state follows what happened on the bus.  Starting
    from agreement, every operation, with any answers of the kernel, keeps it:
    a received packet of at most 512 bytes opens a transaction with its bytes
    and status bits; each of the three ways to end a transaction closes it even
    when the system call fails; nothing else touches it; and nothing panics. *)
Theorem spi_device_agrees o s open :
  agrees s open → (∀ bytes busy we, o = OpReceived bytes busy we → (length bytes <= READ_BUFFER_SIZE)%nat) →
  agrees (run_op o s).2 (open_after o open) ∧ (run_op o s).1 ≠ Panic.
Proof.
  intros Ha Hlen. destruct o as [bytes busy we|arg1| |b w|d b w|m|d|d|c|h]; cbn [run_op open_after].
  - split; [|done]. apply (agrees_received bytes busy we s open); [done|by eapply Hlen].
  - split; [|done]. cbn [snd]. unfold address_mode_changed. by destruct (address_mode_try_from arg1).
  - exact (agrees_close (mret tt) s open (calls_ret tt) Ha).
  - apply (agrees_close _ s open); [calls_tac|done].
  - apply (agrees_close _ s open); [calls_tac|done].
  - apply agrees_calls; [calls_tac|done].
  - apply agrees_calls; [calls_tac|done].
  - apply agrees_calls; [calls_tac|done].
  - apply agrees_calls; [apply calls_configure|done].
  - apply agrees_calls; [calls_tac|done].
Qed.

End Machine.

(** A kernel that refuses everything, for the witness. *)
#[export] Instance deaf_kernel : SpiKernel unit := {|
  spi_command _ _ _ k := (None, k);
  spi_allow _ _ k := (false, k);
  spi_subscribe _ k := (false, k)
|}.

Definition sample_port : t unit := set_shared (initial tt).

Lemma spi_device_agrees_witness :
  agrees (run_op (OpReceived [2; 8; 0; 0] 1 1) sample_port).2
    (open_after (OpReceived [2; 8; 0; 0] 1 1) None) ∧
  (run_op (OpReceived [2; 8; 0; 0] 1 1) sample_port).1 ≠ Panic.
Proof.
  apply (spi_device_agrees (OpReceived [2; 8; 0; 0] 1 1) sample_port None).
  - split_and!; by_compute.
  - intros bytes busy we [= <- _ _]. by_compute.
Defined.

End SpiDeviceFacts.
