(* ===== verification/Registers.v ===== *)
(** Memory-mapped registers, as the kernel's drivers use them.

    The register interface is Tock's ([kernel::common::registers]), which is not
    part of the repository: its operations on bit fields are the class
    [RegisterInterface], and what its documentation says about them the class
    [RegisterLaws].  [TockBits] is an instance. *)

From S2P Require Import Prelude Io Tock.
From Stdlib Require Import ZArith Lia.
From stdpp Require Import base decidable option list list_numbers.

#[local] Open Scope Z_scope.

(** ** Words and bytes *)

(** The bytes of an array of 32-bit registers, in the order in which they are sent. *)
Definition register_bytes (l : list Z) : list Z := concat (le_bytes 4 <$> l).

Lemma register_bytes_app l1 l2 : register_bytes (l1 ++ l2) = register_bytes l1 ++ register_bytes l2.
Proof. unfold register_bytes. by rewrite fmap_app, concat_app. Qed.

Lemma length_register_bytes l : length (register_bytes l) = (4 * length l)%nat.
Proof.
  induction l as [|w l IH]; [done|]. change (register_bytes (w :: l)) with (le_bytes 4 w ++ register_bytes l).
  rewrite length_app, length_le_bytes, IH. simpl length. lia.
Qed.

Lemma drop_register_bytes n l : register_bytes (drop n l) = drop (4 * n) (register_bytes l).
Proof.
  revert l. induction n as [|n IH]; intros l; [done|]. destruct l as [|w l]; [by rewrite drop_nil|].
  replace (4 * S n)%nat with (4 + 4 * n)%nat by lia. rewrite <-drop_drop.
  change (register_bytes (w :: l)) with (le_bytes 4 w ++ register_bytes l).
  rewrite drop_app_length' by (by rewrite length_le_bytes). apply IH.
Qed.

Lemma take_register_bytes n l : register_bytes (take n l) = take (4 * n) (register_bytes l).
Proof.
  revert l. induction n as [|n IH]; intros l; [done|]. destruct l as [|w l]; [by rewrite take_nil|].
  replace (4 * S n)%nat with (4 + 4 * n)%nat by lia. cbn [take].
  change (register_bytes (w :: take n l)) with (le_bytes 4 w ++ register_bytes (take n l)).
  change (register_bytes (w :: l)) with (le_bytes 4 w ++ register_bytes l). rewrite IH.
  rewrite take_app. rewrite length_le_bytes. rewrite (take_ge (le_bytes 4 w)) by (rewrite length_le_bytes; lia). f_equal. f_equal. lia.
Qed.

Lemma lor_disjoint_add a b n : 0 <= n → 0 <= a < 2 ^ n → Z.lor a (Z.shiftl b n) = a + 2 ^ n * b.
Proof. intros Hn Ha. rewrite Z.lor_comm, Z.shiftl_mul_pow2, BitBufFacts.lor_add_shift by done. lia. Qed.

(** [NAME OFFSET(offset) NUMBITS(width)] *)
Record Field := mk_Field { f_offset : Z; f_width : Z }.

Definition field_ok (f : Field) : Prop := 0 <= f_offset f ∧ 0 < f_width f ∧ f_offset f + f_width f <= 32.

#[global] Instance field_ok_dec f : Decision (field_ok f).
Proof. unfold field_ok. apply _. Defined.

(** No bit belongs to both fields. *)
Definition disjoint_fields (f g : Field) : Prop :=
  f_offset f + f_width f <= f_offset g ∨ f_offset g + f_width g <= f_offset f.

#[global] Instance disjoint_fields_dec f g : Decision (disjoint_fields f g).
Proof. unfold disjoint_fields. apply _. Defined.

(** [FIELD.val(v)], the sum of two field values, [reg.modify(FIELD.val(v))] and
    [reg.read(FIELD)]. *)
Class RegisterInterface := {
  field_val : Field → Z → Z;
  field_add : Z → Z → Z;
  field_modify : Field → Z → Z → Z;
  field_read : Field → Z → Z
}.

Class RegisterLaws `{RegisterInterface} := {
  field_val_bits f v : field_val f v = Z.shiftl (Z.land v (Z.ones (f_width f))) (f_offset f);
  field_add_bits a b : field_add a b = Z.lor a b;
  field_modify_bits f v r :
    field_modify f v r =
      Z.lor (Z.land r (Z.lnot (Z.shiftl (Z.ones (f_width f)) (f_offset f)))) (field_val f v);
  field_read_bits f r : field_read f r = Z.land (Z.shiftr r (f_offset f)) (Z.ones (f_width f))
}.

Module TockBits.
#[export] Instance interface : RegisterInterface := {|
  field_val f v := Z.shiftl (Z.land v (Z.ones (f_width f))) (f_offset f);
  field_add := Z.lor;
  field_modify f v r :=
    Z.lor (Z.land r (Z.lnot (Z.shiftl (Z.ones (f_width f)) (f_offset f))))
      (Z.shiftl (Z.land v (Z.ones (f_width f))) (f_offset f));
  field_read f r := Z.land (Z.shiftr r (f_offset f)) (Z.ones (f_width f)) |}.

#[export] Instance laws : RegisterLaws.
Proof. by split. Qed.
End TockBits.

Section Fields.
Context `{RegisterInterface}.

(** [FIELD::SET], [FIELD::CLEAR] and [reg.is_set(FIELD)] *)
Definition field_set (f : Field) : Z := field_val f (Z.ones (f_width f)).
Definition field_clear (f : Field) : Z := field_val f 0.
Definition is_set (f : Field) (r : Z) : bool := negb (field_read f r =? 0).
Definition modify_set (f : Field) (r : Z) : Z := field_modify f (Z.ones (f_width f)) r.
Definition modify_clear (f : Field) (r : Z) : Z := field_modify f 0 r.

(** [reg.write(a + b + ..)] *)
Definition field_sum (l : list Z) : Z :=
  match l with [] => 0 | x :: l' => foldl field_add x l' end.

Context `{!RegisterLaws}.

Lemma field_read_testbit f r i : field_ok f → 0 <= i →
  Z.testbit (field_read f r) i = (i <? f_width f) && Z.testbit r (i + f_offset f).
Proof.
  intros (Ho & Hw & _) Hi. rewrite field_read_bits, Z.land_spec, Z.shiftr_spec, Z.testbit_ones by lia.
  replace (0 <=? i) with true by (symmetry; lia). rewrite andb_comm. done.
Qed.

Lemma field_val_testbit f v i : field_ok f → 0 <= i →
  Z.testbit (field_val f v) i =
    (f_offset f <=? i) && (i <? f_offset f + f_width f) && Z.testbit v (i - f_offset f).
Proof.
  intros (Ho & Hw & _) Hi. rewrite field_val_bits, Z.shiftl_spec, Z.land_spec by lia.
  destruct (Z.leb_spec (f_offset f) i) as [Hle|Hlt]; simpl.
  - rewrite Z.testbit_ones by lia. replace (0 <=? i - f_offset f) with true by (symmetry; lia).
    replace (i - f_offset f <? f_width f) with (i <? f_offset f + f_width f) by lia. rewrite andb_comm. done.
  - rewrite Z.testbit_neg_r by lia. done.
Qed.

Lemma field_modify_testbit f v r i : field_ok f → 0 <= i →
  Z.testbit (field_modify f v r) i =
    if (f_offset f <=? i) && (i <? f_offset f + f_width f) then Z.testbit v (i - f_offset f) else Z.testbit r i.
Proof.
  intros Hf Hi. rewrite field_modify_bits, Z.lor_spec, field_val_testbit, Z.land_spec, Z.lnot_spec by done.
  destruct Hf as (Ho & Hw & _). rewrite Z.shiftl_spec by lia.
  destruct (Z.leb_spec (f_offset f) i) as [Hle|Hlt]; simpl.
  - rewrite Z.testbit_ones by lia. replace (0 <=? i - f_offset f) with true by (symmetry; lia). simpl.
    replace (i - f_offset f <? f_width f) with (i <? f_offset f + f_width f) by lia.
    destruct (i <? f_offset f + f_width f); simpl; by rewrite ?andb_false_r, ?andb_true_r, ?orb_false_r.
  - rewrite (Z.testbit_neg_r (Z.ones _)) by lia. simpl. by rewrite andb_true_r, orb_false_r.
Qed.

(** A field reads as what was written to it, cut to its width. *)
Lemma read_modify_same f v r : field_ok f → field_read f (field_modify f v r) = v mod 2 ^ f_width f.
Proof.
  intros Hf. apply Z.bits_inj'. intros i Hi. rewrite field_read_testbit by done. destruct Hf as (Ho & Hw & ?) eqn:Ef.
  destruct (Z.ltb_spec i (f_width f)); simpl.
  - rewrite Z.mod_pow2_bits_low, field_modify_testbit by (done || lia).
    rewrite (proj2 (Z.leb_le _ _)), (proj2 (Z.ltb_lt _ _)) by lia. simpl. f_equal. lia.
  - by rewrite Z.mod_pow2_bits_high by lia.
Qed.

(** Writing one field leaves another alone. *)
Lemma read_modify_other f g v r : field_ok f → field_ok g → disjoint_fields f g →
  field_read g (field_modify f v r) = field_read g r.
Proof.
  intros Hf Hg Hd. apply Z.bits_inj'. intros i Hi. rewrite !field_read_testbit by done.
  destruct (Z.ltb_spec i (f_width g)); simpl; [|done]. destruct Hg as (Ho & _).
  rewrite field_modify_testbit by (done || lia).
  destruct (Z.leb_spec (f_offset f) (i + f_offset g)), (Z.ltb_spec (i + f_offset g) (f_offset f + f_width f)); try done.
  destruct Hd; lia.
Qed.

Lemma read_modify_set f r : field_ok f → f_width f = 1 → is_set f (modify_set f r) = true.
Proof. intros Hf Hw. unfold is_set, modify_set. rewrite read_modify_same by done. by rewrite Hw. Qed.

Lemma read_modify_clear f r : field_ok f → is_set f (modify_clear f r) = false.
Proof. intros Hf. unfold is_set, modify_clear. rewrite read_modify_same by done. by rewrite Z.mod_0_l by (apply Z.pow_nonzero; destruct Hf; lia). Qed.

Lemma is_set_other f g v r : field_ok f → field_ok g → disjoint_fields f g →
  is_set g (field_modify f v r) = is_set g r.
Proof. intros. unfold is_set. by rewrite read_modify_other. Qed.

End Fields.
