(* ===== verification/SpiHw.v ===== *)
(** The kernel's SPI device driver (kernel/h1/src/spi_device.rs): the flash chip
    that the chip pretends to be on the SPI bus.

    Registers are named as in the source and hold integers; bit fields are read
    and written through [RegisterInterface].  The controller's own behaviour is
    what the register descriptions in the source say: reading [cmd_addr_fifo]
    takes its oldest entry, and the busy and write-enable bits that software
    clears stay until the host has read the status register. *)

From S2P Require Import Prelude Io Wire FlashProto FirmwareProto Tock Registers.
From Stdlib Require Import ZArith Lia.
From stdpp Require Import base decidable option list list_numbers.

#[local] Open Scope Z_scope.

(** ** Registers *)

Inductive Reg :=
| ctrl | eeprom_ctrl | fast_dual_rd_opcode | eeprom_status
| ext_flash_base_page | ext_flash_limit_page | ext_flash_trans_bit_vector | ext_flash_trans_addr
| cmd_mem_rptr | eeprom_int_enable.

#[global] Instance Reg_eq_dec : EqDecision Reg.
Proof. solve_decision. Defined.

Inductive RegArray :=
| busy_opcode | jedec_id | sfdp | ram_virtual_page | ram_ctrl_page | passthru_filter_rule | generic_ram | eeprom_cmd_buf.

#[global] Instance RegArray_eq_dec : EqDecision RegArray.
Proof. solve_decision. Defined.

(** [busy_clear] and [wel_clear]: the driver has written the status bit;
    [int_pending]: the receive interrupt is raised. *)
Record Registers := mk_Registers {
  reg : Reg → Z;
  arr : RegArray → list Z;
  cmd_addr_fifo : list Z;
  eeprom_busy_status : bool;
  busy_clear : bool;
  eeprom_wel_status : bool;
  wel_clear : bool;
  int_pending : bool
}.

Definition set_reg (x : Reg) (v : Z) (r : Registers) : Registers :=
  mk_Registers (λ y, if decide (y = x) then v else reg r y) (arr r) (cmd_addr_fifo r)
    (eeprom_busy_status r) (busy_clear r) (eeprom_wel_status r) (wel_clear r) (int_pending r).
Definition set_arr (x : RegArray) (l : list Z) (r : Registers) : Registers :=
  mk_Registers (reg r) (λ y, if decide (y = x) then l else arr r y) (cmd_addr_fifo r)
    (eeprom_busy_status r) (busy_clear r) (eeprom_wel_status r) (wel_clear r) (int_pending r).
Definition set_fifo (l : list Z) (r : Registers) : Registers :=
  mk_Registers (reg r) (arr r) l (eeprom_busy_status r) (busy_clear r) (eeprom_wel_status r) (wel_clear r) (int_pending r).
Definition set_busy_clear (b : bool) (r : Registers) : Registers :=
  mk_Registers (reg r) (arr r) (cmd_addr_fifo r) (eeprom_busy_status r) b (eeprom_wel_status r) (wel_clear r) (int_pending r).
Definition set_wel_clear (b : bool) (r : Registers) : Registers :=
  mk_Registers (reg r) (arr r) (cmd_addr_fifo r) (eeprom_busy_status r) (busy_clear r) (eeprom_wel_status r) b (int_pending r).
Definition set_int_pending (b : bool) (r : Registers) : Registers :=
  mk_Registers (reg r) (arr r) (cmd_addr_fifo r) (eeprom_busy_status r) (busy_clear r) (eeprom_wel_status r) (wel_clear r) b.

(** The lengths of the register arrays. *)
Definition array_len (a : RegArray) : nat :=
  match a with
  | busy_opcode => 8 | jedec_id => 3 | sfdp => 32 | ram_virtual_page => 4 | ram_ctrl_page => 4
  | passthru_filter_rule => 16 | generic_ram => 2048 | eeprom_cmd_buf => 512
  end.

(** [register_bitfields!] *)
Definition CTRL_MODE : Field := mk_Field 0 2.
Definition MODE_Eeprom : Z := 2.
Definition MODE_Disabled : Z := 3.
Definition ADDR_MODE : Field := mk_Field 0 1.
Definition PASSTHRU_DIS : Field := mk_Field 1 1.
Definition EXT_FLASH_DIS : Field := mk_Field 2 1.
Definition INT_FLASH_DIS : Field := mk_Field 3 1.
Definition RAM_DIS : Field := mk_Field 4 1.
Definition MAILBOX_EN : Field := mk_Field 5 1.
Definition FIFO_PREFETCH_LIMIT : Field := mk_Field 6 4.
Definition FAST_DUAL_RD_EN : Field := mk_Field 10 1.
Definition VIRTUAL_ADDR_FILTER_EN : Field := mk_Field 11 1.
Definition BUSY_OPCODE_EN : Field := mk_Field 0 1.
Definition BUSY_OPCODE_VALUE : Field := mk_Field 1 8.
Definition PAGE_ID : Field := mk_Field 0 23.
Definition WRAP_MODE : Field := mk_Field 0 1.
Definition INT_LVL : Field := mk_Field 1 8.
Definition PTR_VALUE : Field := mk_Field 0 9.
Definition PTR_FULL : Field := mk_Field 9 1.
Definition RULE_VALID : Field := mk_Field 0 1.
Definition FORCE_CMD : Field := mk_Field 8 8.
Definition CMD_MATCH : Field := mk_Field 16 8.
Definition CMD_MATCH_BIT_VECTOR : Field := mk_Field 24 8.
Definition CMD_ADDR_FIFO_NOT_EMPTY : Field := mk_Field 0 1.
Definition BYTE0 : Field := mk_Field 0 8.
Definition BYTE1 : Field := mk_Field 8 8.
Definition BYTE2 : Field := mk_Field 16 8.
Definition BYTE3 : Field := mk_Field 24 8.

Definition PAGE_SHIFT : Z := 9.

Record SpiDeviceConfiguration := mk_Config {
  enable_fastread4b_cmd : bool;
  enable_enterexit4b_cmd : bool;
  startup_address_mode : AddressMode
}.
Definition default_config : SpiDeviceConfiguration := mk_Config false false ThreeByte.

(** The configuration that the papa board passes to [init]. *)
Definition papa_config : SpiDeviceConfiguration := mk_Config false true ThreeByte.

Definition get_data_byte_or_default (data : list Z) (idx : nat) (default : Z) : Z :=
  match data !! idx with Some b => b | None => default end.

Definition op (o : OpCode) : Z := to_wire_value o.

Module SpiDeviceHardware.
Section Driver.
Context `{RegisterInterface}.

Record t := mk { registers : Registers; client : bool; config : SpiDeviceConfiguration }.

Definition new (r : Registers) : t := mk r false default_config.

Definition on_regs (f : Registers → Registers) (s : t) : t := mk (f (registers s)) (client s) (config s).

(** [passthru_filter_rule[i].write(VALID::SET + FORCE_CMD.val(f) + CMD_MATCH.val(m) + CMD_MATCH_BIT_VECTOR.val(v))] *)
Definition rule (force match_ vector : Z) : Z :=
  field_sum [field_set RULE_VALID; field_val FORCE_CMD force; field_val CMD_MATCH match_;
             field_val CMD_MATCH_BIT_VECTOR vector].

(** The rules written one after the other, [rule_idx] counting them. *)
Definition filter_rules (c : SpiDeviceConfiguration) : list Z :=
  [rule (op NormalRead) 0x00 0xF8] ++
  (if negb (enable_fastread4b_cmd c) then [rule (op FastRead) 0x08 0xF8]
   else [rule (op FastRead) 0x08 0xFC; rule (op FastRead4B) 0x0C 0xFC]) ++
  [rule (op NormalRead) 0x10 0xF0;
   rule (op FastReadDualOutput) 0x20 0xE0;
   rule (op NormalRead) 0x40 0xC0] ++
  (if negb (enable_enterexit4b_cmd c) then [rule (op NormalRead) 0x80 0x80]
   else
     [rule (op ReadJedec) 0x80 0xE0;
      rule 0xA0 0xA0 0xF0;
      rule (op Enter4ByteAddressMode) 0xB0 0xF8;
      rule 0xBF 0xB0 0xF8;
      rule 0xC8 0xC0 0xE0;
      rule (op Exit4ByteAddressMode) 0xE0 0xF0;
      rule 0xFF 0xF0 0xF0]).

(** Writes to the first cells of an array, then one value to the others. *)
Definition fill_array (a : RegArray) (l : list Z) (rest : Z) (r : Registers) : Registers :=
  set_arr a (l ++ replicate (length (arr r a) - length l) rest) r.

Definition init_passthrough_filters (s : t) : t :=
  let s := on_regs (fill_array passthru_filter_rule (filter_rules (config s)) (field_clear RULE_VALID)) s in
  on_regs (λ r, set_reg eeprom_ctrl (modify_clear PASSTHRU_DIS (reg r eeprom_ctrl)) r) s.

Definition busy_rule (opcode : Z) : Z := field_sum [field_set BUSY_OPCODE_EN; field_val BUSY_OPCODE_VALUE opcode].

Definition busy_opcodes (c : SpiDeviceConfiguration) : list Z :=
  (if enable_enterexit4b_cmd c then [busy_rule (op Enter4ByteAddressMode); busy_rule (op Exit4ByteAddressMode)] else [])
  ++ [busy_rule (op WriteStatusRegister)].

Definition init_busy_opcodes (s : t) : t :=
  on_regs (fill_array busy_opcode (busy_opcodes (config s)) (field_clear BUSY_OPCODE_EN)) s.

(** [for idx in 0..len { array[idx].set(!0) }] *)
Definition set_all (a : RegArray) (v : Z) (s : t) : t := on_regs (fill_array a [] v) s.

Definition clear_jedec : t → t := set_all jedec_id 0xFFFFFFFF.
Definition clear_sfdp : t → t := set_all sfdp 0xFFFFFFFF.
Definition clear_send_data : t → t := set_all generic_ram 0xFF.

Definition clear_rx_interrupt (s : t) : t := on_regs (set_int_pending false) s.

Definition enable_rx_interrupt (s : t) : t :=
  on_regs (λ r, set_reg eeprom_int_enable (modify_set CMD_ADDR_FIFO_NOT_EMPTY (reg r eeprom_int_enable)) r) s.

Definition is_busy (s : t) : bool := eeprom_busy_status (registers s).
Definition is_write_enabled (s : t) : bool := eeprom_wel_status (registers s).

Definition set_address_mode (m : AddressMode) (s : t) : t :=
  on_regs (λ r, set_reg eeprom_ctrl
    match m with
    | ThreeByte => modify_clear ADDR_MODE (reg r eeprom_ctrl)
    | FourByte => modify_set ADDR_MODE (reg r eeprom_ctrl)
    end r) s.

Definition get_address_mode (s : t) : AddressMode :=
  if is_set ADDR_MODE (reg (registers s) eeprom_ctrl) then FourByte else ThreeByte.

Definition disabled_eeprom_ctrl : Z :=
  field_sum [field_clear ADDR_MODE; field_set PASSTHRU_DIS; field_set EXT_FLASH_DIS; field_set INT_FLASH_DIS;
             field_set RAM_DIS; field_clear MAILBOX_EN; field_val FIFO_PREFETCH_LIMIT 2; field_set FAST_DUAL_RD_EN;
             field_clear VIRTUAL_ADDR_FILTER_EN].

Definition init (c : SpiDeviceConfiguration) (s : t) : t :=
  let s := on_regs (set_reg eeprom_int_enable 0) s in
  let s := on_regs (set_reg ctrl (field_val CTRL_MODE MODE_Disabled)) s in
  let s := on_regs (set_reg eeprom_ctrl disabled_eeprom_ctrl) s in
  let s := mk (registers s) (client s) c in
  let s := on_regs (set_reg fast_dual_rd_opcode
             (if enable_fastread4b_cmd (config s) then op FastRead4B else op FastReadDualOutput)) s in
  let s := init_passthrough_filters s in
  let s := clear_jedec s in
  let s := clear_sfdp s in
  let s := init_busy_opcodes s in
  let s := set_address_mode (startup_address_mode (config s)) s in
  let s := clear_send_data s in
  let s := on_regs (λ r, set_reg ctrl (field_modify CTRL_MODE MODE_Eeprom (reg r ctrl)) r) s in
  enable_rx_interrupt s.

(** The call to the client, if there is one to make: its arguments; then
    the interrupt is cleared. *)
Definition interrupt_call (s : t) : option (bool * bool) :=
  if negb (bool_decide (cmd_addr_fifo (registers s) = [])) && client s
  then Some (is_busy s, is_write_enabled s) else None.

(** [for idx in (0..data.len()).step_by(4)]: one register per four bytes. *)
Definition register_word (data : list Z) (idx : nat) : Z :=
  field_sum [field_val BYTE0 (get_data_byte_or_default data (idx + 0) 0xFF);
             field_val BYTE1 (get_data_byte_or_default data (idx + 1) 0xFF);
             field_val BYTE2 (get_data_byte_or_default data (idx + 2) 0xFF);
             field_val BYTE3 (get_data_byte_or_default data (idx + 3) 0xFF)].

Definition write_register_data (a : RegArray) (data : list Z) (s : t) : ReturnCode * t :=
  if (length (arr (registers s) a) * 4 <? length data)%nat then (ESIZE, s)
  else
    let words := (λ k, register_word data (4 * k)) <$> seq 0 (Nat.div (length data + 3) 4) in
    (SUCCESS, on_regs (fill_array a words 0xFFFFFFFF) s).

Definition set_client (c : bool) (s : t) : t := mk (registers s) c (config s).

(** [ram_virtual_page[idx].write(..); ram_ctrl_page[idx].write(..)] for each page *)
Definition ram_pages (base : Z) (n : nat) : list Z := (λ i, field_val PAGE_ID (u32 (base + Z.of_nat i))) <$> seq 0 n.

Definition configure_addresses (c : AddressConfig) (s : t) : t :=
  on_regs (λ r,
    let ec f := λ r, set_reg eeprom_ctrl (f (reg r eeprom_ctrl)) r in
    let r := ec (modify_set EXT_FLASH_DIS) r in
    let r := ec (modify_clear VIRTUAL_ADDR_FILTER_EN) r in
    let r := ec (modify_set RAM_DIS) r in
    let r := set_reg ext_flash_base_page (field_val PAGE_ID (Z.shiftr (flash_virtual_base c) PAGE_SHIFT)) r in
    let r := set_reg ext_flash_limit_page (field_val PAGE_ID 0xFFFFFFFF) r in
    let r := set_reg ext_flash_trans_bit_vector 0xFFFFFFFF r in
    let r := set_reg ext_flash_trans_addr (flash_physical_base c) r in
    let ram_virtual_page_base := Z.shiftr (ram_virtual_base c) PAGE_SHIFT in
    let n := length (arr r ram_virtual_page) in
    let r := set_arr ram_virtual_page (ram_pages ram_virtual_page_base n) r in
    let r := set_arr ram_ctrl_page (replicate n (field_sum [field_clear WRAP_MODE; field_val INT_LVL 0])) r in
    let r := ec (modify_clear EXT_FLASH_DIS) r in
    let r := ec (modify_clear RAM_DIS) r in
    ec (modify_clear VIRTUAL_ADDR_FILTER_EN) r) s.

(** [for idx in .. { if tgt_idx >= length { break; } read_buffer[tgt_idx] = cmd_buf[idx]; tgt_idx += 1; }] *)
Fixpoint copy_loop (cmd_buf : list Z) (idxs : list nat) (length tgt_idx : nat) (read_buffer : list Z) : nat * list Z :=
  match idxs with
  | [] => (tgt_idx, read_buffer)
  | idx :: idxs' =>
      if (length <=? tgt_idx)%nat then (tgt_idx, read_buffer)
      else copy_loop cmd_buf idxs' length (S tgt_idx) (<[tgt_idx := nth idx cmd_buf 0]> read_buffer)
  end.

Definition get_received_data (read_buffer : list Z) (s : t) : nat * list Z * t :=
  match cmd_addr_fifo (registers s) with
  | [] => (0%nat, read_buffer, s)
  | cmd_addr_fifo_reg :: fifo =>
      let s := on_regs (set_fifo fifo) s in
      let r := registers s in
      let cmd_buf := arr r eeprom_cmd_buf in
      let start_addr := Z.to_nat (field_read PTR_VALUE (reg r cmd_mem_rptr)) in
      let end_addr := Z.to_nat (field_read PTR_VALUE cmd_addr_fifo_reg) in
      let '(len, read_buffer) :=
        if (start_addr <? end_addr)%nat then
          let len := Nat.min (length read_buffer) (end_addr - start_addr) in
          (len, snd (copy_loop cmd_buf (seq start_addr (end_addr - start_addr)) len 0 read_buffer))
        else if negb (field_read PTR_FULL cmd_addr_fifo_reg =? field_read PTR_FULL (reg r cmd_mem_rptr)) then
          let len := Nat.min (length read_buffer) (length cmd_buf - start_addr + end_addr) in
          let '(tgt_idx, read_buffer) :=
            copy_loop cmd_buf (seq start_addr (length cmd_buf - start_addr)) len 0 read_buffer in
          (len, snd (copy_loop cmd_buf (seq 0 end_addr) len tgt_idx read_buffer))
        else (0%nat, read_buffer) in
      (len, read_buffer, on_regs (set_reg cmd_mem_rptr cmd_addr_fifo_reg) s)
  end.

Definition put_send_data (write_data : list Z) (s : t) : ReturnCode * t :=
  if (length (arr (registers s) generic_ram) <? length write_data)%nat then (ESIZE, s)
  else (SUCCESS, on_regs (fill_array generic_ram write_data 0xFF) s).

Definition set_status (status : Z) (s : t) : t := on_regs (set_reg eeprom_status status) s.
Definition clear_busy (s : t) : t := on_regs (set_busy_clear true) s.
Definition is_write_enable_set (s : t) : bool := is_write_enabled s.
Definition clear_write_enable (s : t) : t := on_regs (set_wel_clear true) s.
Definition set_jedec_id (data : list Z) (s : t) : ReturnCode * t := write_register_data jedec_id data s.
Definition set_sfdp (data : list Z) (s : t) : ReturnCode * t := write_register_data sfdp data s.

End Driver.
End SpiDeviceHardware.
