(* ===== verification/SpiHwFacts.v ===== *)
(** What the kernel's SPI device driver promises: packets are delivered in order and
    complete, identification data and answers can be read back by the host, and
    nothing that the passthrough filter lets out modifies the external flash. *)

From S2P Require Import Prelude Io Wire FlashProto FirmwareProto Tock Registers SpiHw.
From Stdlib Require Import ZArith Lia.
From stdpp Require Import base decidable option list list_numbers.

#[local] Open Scope Z_scope.

Import SpiDeviceHardware.

(** ** The command memory as a queue of packets *)

(** The size of the command memory. *)
Definition BUF : nat := 512.

Lemma BUF_pos : (0 < BUF)%nat.
Proof. unfold BUF. lia. Qed.

#[local] Hint Resolve BUF_pos : core.

(** The [n] bytes of the ring from pointer [p] on. *)
Definition packet (buf : list Z) (p n : nat) : list Z := (λ k, nth ((p + k) mod BUF)%nat buf 0) <$> seq 0 n.

(** What the controller does with a packet of the host: it stores the bytes from
    its write pointer on and enters the new pointer into the address FIFO.  A
    pointer counts modulo twice the buffer size. *)
Fixpoint store (p : nat) (bytes buf : list Z) : list Z :=
  match bytes with
  | [] => buf
  | b :: bytes' => store (S p) bytes' (<[(p mod BUF)%nat := b]> buf)
  end.

Definition wptr (r : Registers) : nat := Z.to_nat (default (reg r cmd_mem_rptr) (last (cmd_addr_fifo r))).

Definition host_send (bytes : list Z) (busy wel : bool) (r : Registers) : Registers :=
  let p := wptr r in
  mk_Registers (reg r) (λ a, if decide (a = eeprom_cmd_buf) then store p bytes (arr r eeprom_cmd_buf) else arr r a)
    (cmd_addr_fifo r ++ [Z.of_nat ((p + length bytes) mod (2 * BUF))])
    (eeprom_busy_status r || busy) (busy_clear r) (if wel then true else eeprom_wel_status r) (wel_clear r) true.

(** The FIFO and the ring hold these packets, oldest first, from pointer [p] on. *)
Fixpoint chain (buf : list Z) (p : nat) (fifo : list Z) (pkts : list (list Z)) : Prop :=
  match fifo, pkts with
  | [], [] => True
  | q :: fifo', pkt :: pkts' =>
      pkt = packet buf p (length pkt) ∧ (1 <= length pkt <= BUF)%nat ∧
      q = Z.of_nat ((p + length pkt) mod (2 * BUF)) ∧ chain buf ((p + length pkt) mod (2 * BUF))%nat fifo' pkts'
  | _, _ => False
  end.

Definition total (pkts : list (list Z)) : nat := length (concat pkts).

Definition queue (r : Registers) (pkts : list (list Z)) : Prop :=
  ∃ p, (p < 2 * BUF)%nat ∧ reg r cmd_mem_rptr = Z.of_nat p ∧ length (arr r eeprom_cmd_buf) = BUF ∧
       chain (arr r eeprom_cmd_buf) p (cmd_addr_fifo r) pkts ∧ (total pkts <= BUF)%nat.

Lemma length_packet buf p n : length (packet buf p n) = n.
Proof. unfold packet. by rewrite length_fmap, length_seq. Qed.

Lemma length_store p bytes buf : length (store p bytes buf) = length buf.
Proof. revert p buf. induction bytes as [|b bytes IH]; intros p buf; [done|]. simpl. rewrite IH. apply length_insert. Qed.

(** Two positions of the ring that are less than its size apart differ. *)
Lemma ring_distinct p i j : (i < j)%nat → (j - i < BUF)%nat → ((p + i) mod BUF ≠ (p + j) mod BUF)%nat.
Proof.
  intros Hij Hd E. pose proof (Nat.div_mod_eq (p + i) BUF). pose proof (Nat.div_mod_eq (p + j) BUF).
  assert ((p + j) / BUF = (p + i) / BUF ∨ (p + j) / BUF >= S ((p + i) / BUF))%nat as [Hq|Hq] by (pose proof (Nat.Div0.div_le_mono (p + i) (p + j) BUF); lia); nia.
Qed.

Lemma nth_insert (l : list Z) i j x : (i < length l)%nat → nth j (<[i := x]> l) 0 = if decide (i = j) then x else nth j l 0.
Proof.
  intros Hi. destruct (decide (i = j)) as [->|Hne].
  - apply nth_lookup_Some with (i := j). by apply list_lookup_insert_eq.
  - rewrite !nth_lookup. by rewrite list_lookup_insert_ne.
Qed.

Lemma store_nth p bytes buf k : length buf = BUF → (length bytes <= BUF)%nat → (k < BUF)%nat →
  nth ((p + k) mod BUF)%nat (store p bytes buf) 0 =
  match bytes !! k with Some b => b | None => nth ((p + k) mod BUF)%nat buf 0 end.
Proof.
  revert p buf k. induction bytes as [|b bytes IH]; intros p buf k Hl Hb Hk; [done|]. cbn [length store] in *.
  assert (p mod BUF < length buf)%nat as Hp by (rewrite Hl; pose proof BUF_pos; apply Nat.mod_upper_bound; lia).
  destruct k as [|k].
  - rewrite Nat.add_0_r. cbn [lookup list_lookup].
    assert (∀ bs q bf, (q + length bs <= BUF)%nat → (0 < q)%nat → length bf = BUF →
      nth (p mod BUF)%nat (store (p + q) bs bf) 0 = nth (p mod BUF)%nat bf 0) as Hkeep.
    { intros bs. induction bs as [|x bs IHs]; intros q bf Hbs Hq Hbf; [done|]. cbn [length store] in *.
      replace (S (p + q)) with (p + S q)%nat by lia. rewrite IHs; [|lia..|by rewrite length_insert].
      rewrite nth_insert by (rewrite Hbf; pose proof BUF_pos; apply Nat.mod_upper_bound; lia). rewrite decide_False; [done|].
      intros E. apply (ring_distinct p 0 q); [lia..|]. by rewrite Nat.add_0_r. }
    replace (S p) with (p + 1)%nat by lia. rewrite Hkeep by (rewrite ?length_insert; lia).
    rewrite nth_insert by done. by rewrite decide_True.
  - replace (p + S k)%nat with (S p + k)%nat by lia. rewrite IH; [|by rewrite length_insert|lia..].
    cbn [lookup list_lookup]. destruct (bytes !! k); [done|].
    rewrite nth_insert by done. rewrite decide_False; [done|].
    intros E. apply (ring_distinct p 0 (S k)); [lia..|]. rewrite Nat.add_0_r. by replace (p + S k)%nat with (S p + k)%nat by lia.
Qed.

Lemma packet_store p bytes buf : length buf = BUF → (length bytes <= BUF)%nat →
  packet (store p bytes buf) p (length bytes) = bytes.
Proof.
  intros Hl Hb. apply list_eq. intros i. unfold packet. rewrite list_lookup_fmap.
  destruct (decide (i < length bytes)%nat) as [Hi|Hi].
  - rewrite lookup_seq_lt by done. cbn [fmap option_fmap option_map]. rewrite Nat.add_0_l, store_nth by (done || lia).
    destruct (lookup_lt_is_Some_2 bytes i Hi) as [b Hbi]. by rewrite Hbi.
  - rewrite lookup_seq_ge by lia. symmetry. apply lookup_ge_None. lia.
Qed.

(** Packets before the write pointer are kept while the ring has room. *)
Lemma packet_store_before p d n bytes buf :
  length buf = BUF → (n <= d)%nat → (d + length bytes <= BUF)%nat →
  packet (store (p + d) bytes buf) p n = packet buf p n.
Proof.
  intros Hl Hn Hd. unfold packet. apply list_fmap_ext. intros i k Hk. apply lookup_seq in Hk as [-> Hk].
  destruct (decide (bytes = [])) as [->|Hne]; [done|].
  assert (length bytes ≠ 0%nat) by (by destruct bytes).
  replace ((p + (0 + i)) mod BUF)%nat with ((p + d + (BUF - d + i)) mod BUF)%nat.
  - rewrite store_nth by lia. rewrite lookup_ge_None_2 by lia. done.
  - replace (p + d + (BUF - d + i))%nat with (p + (0 + i) + 1 * BUF)%nat by lia. by apply Nat.Div0.mod_add.
Qed.

Lemma packet_mod buf p n : packet buf (p mod (2 * BUF))%nat n = packet buf p n.
Proof.
  unfold packet. apply list_fmap_ext. intros i k _. f_equal.
  rewrite <-(Nat.Div0.add_mod_idemp_l (p mod (2 * BUF))), <-(Nat.Div0.add_mod_idemp_l p).
  do 2 f_equal. pose proof (Nat.div_mod_eq p (2 * BUF)) as E.
  rewrite E at 2. rewrite Nat.add_comm. replace (2 * BUF * (p / (2 * BUF)))%nat with (2 * (p / (2 * BUF)) * BUF)%nat by lia.
  by rewrite Nat.Div0.mod_add.
Qed.

Lemma copy_loop_spec cmd_buf idxs len tgt rb : (tgt <= len)%nat → (len <= length rb)%nat →
  let m := Nat.min (length idxs) (len - tgt) in
  copy_loop cmd_buf idxs len tgt rb =
    ((tgt + m)%nat, take tgt rb ++ ((λ i, nth i cmd_buf 0) <$> take m idxs) ++ drop (tgt + m) rb).
Proof.
  revert tgt rb. induction idxs as [|i idxs IH]; intros tgt rb Ht Hl m; subst m; cbn [copy_loop length].
  { rewrite Nat.min_0_l, Nat.add_0_r, take_0. cbn [fmap list_fmap app]. by rewrite take_drop. }
  destruct (Nat.leb_spec len tgt).
  { replace (len - tgt)%nat with 0%nat by lia. rewrite Nat.min_0_r, Nat.add_0_r, take_0. cbn [fmap list_fmap app].
    by rewrite take_drop. }
  rewrite IH by (rewrite ?length_insert; lia).
  replace (Nat.min (S (length idxs)) (len - tgt)) with (S (Nat.min (length idxs) (len - S tgt))) by lia.
  set (m := Nat.min _ _). f_equal; [lia|]. rewrite firstn_cons, fmap_cons.
  replace (tgt + S m)%nat with (S tgt + m)%nat by lia.
  rewrite (take_S_r _ tgt (nth i cmd_buf 0)) by (apply list_lookup_insert_eq; lia).
  rewrite take_insert_ge, drop_insert_lt by lia. by rewrite <-(assoc_L (++)).
Qed.

Section Ring.
Context `{RegisterLaws}.

Lemma ptr_value p : (p < 2 * BUF)%nat → Z.to_nat (field_read PTR_VALUE (Z.of_nat p)) = (p mod BUF)%nat.
Proof.
  intros Hp. rewrite field_read_bits. cbn [f_offset f_width PTR_VALUE]. rewrite Z.shiftr_0_r, Z.land_ones by lia.
  change (2 ^ 9) with (Z.of_nat BUF). rewrite <-Nat2Z.inj_mod. apply Nat2Z.id.
Qed.

Lemma ptr_full p : (p < 2 * BUF)%nat → field_read PTR_FULL (Z.of_nat p) = Z.of_nat (p / BUF).
Proof.
  intros Hp. rewrite field_read_bits. cbn [f_offset f_width PTR_FULL]. rewrite Z.land_ones, Z.shiftr_div_pow2 by lia.
  change (2 ^ 9) with (Z.of_nat BUF). change (2 ^ 1) with 2. rewrite <-Nat2Z.inj_div. apply Z.mod_small.
  pose proof BUF_pos. assert (p / BUF < 2)%nat by (apply Nat.Div0.div_lt_upper_bound; lia). lia.
Qed.

(** A packet of [n] bytes from [p], by cases: it ends before the end of the
    memory, or goes on at its start. *)
Lemma ring_cases p n : (p < 2 * BUF)%nat → (1 <= n <= BUF)%nat →
  let s := (p mod BUF)%nat in let q := ((p + n) mod (2 * BUF))%nat in
  ((s + n < BUF)%nat ∧ (q mod BUF = s + n)%nat) ∨
  ((BUF <= s + n)%nat ∧ (q mod BUF = s + n - BUF)%nat ∧ (q / BUF ≠ p / BUF)%nat).
Proof.
  intros Hp Hn s q. pose proof BUF_pos. unfold s, q.
  pose proof (Nat.div_mod_eq p BUF) as Ep. pose proof (Nat.mod_upper_bound p BUF ltac:(lia)) as Hs.
  set (s0 := (p mod BUF)%nat) in *. set (d := (p / BUF)%nat) in *.
  assert (d = 0 ∨ d = 1)%nat as Hd by (assert (d < 2)%nat by (apply Nat.Div0.div_lt_upper_bound; lia); lia).
  assert (∀ k r, (r < BUF)%nat → ((k * BUF + r) mod BUF = r ∧ (k * BUF + r) / BUF = k)%nat) as Hdm.
  { intros k r Hr. rewrite Nat.add_comm. split; [rewrite Nat.Div0.mod_add; by apply Nat.mod_small|].
    rewrite Nat.div_add, Nat.div_small by lia. lia. }
  assert (∀ x, (x < 2 * BUF)%nat → (x mod (2 * BUF) = x)%nat) as Hsm by (intros; by apply Nat.mod_small).
  destruct (Nat.lt_ge_cases (s0 + n) BUF) as [Hlt|Hge].
  - left. split; [done|]. rewrite Hsm by (destruct Hd; subst d; nia).
    rewrite Ep. replace (BUF * d + s0 + n)%nat with (d * BUF + (s0 + n))%nat by lia. by apply Hdm.
  - right. split; [done|]. destruct Hd as [Hd|Hd].
    + rewrite Hsm by (rewrite Ep, Hd; lia). rewrite Ep, Hd.
      replace (BUF * 0 + s0 + n)%nat with (1 * BUF + (s0 + n - BUF))%nat by lia.
      destruct (Hdm 1%nat (s0 + n - BUF)%nat) as [-> ->]; [lia|]. by split.
    + rewrite Ep, Hd. replace (BUF * 1 + s0 + n)%nat with (s0 + n - BUF + 1 * (2 * BUF))%nat by lia.
      rewrite Nat.Div0.mod_add, Hsm by lia.
      destruct (Hdm 0%nat (s0 + n - BUF)%nat) as [E1 E2]; [lia|]. cbn [Nat.mul Nat.add] in E1, E2. rewrite E1, E2. by split.
Qed.

(** The indices the driver reads are those of the packet. *)
Lemma packet_straight buf p n : (p mod BUF + n <= BUF)%nat →
  packet buf p n = (λ i, nth i buf 0) <$> seq (p mod BUF) n.
Proof.
  intros Hn. apply list_eq. intros i. unfold packet. rewrite !list_lookup_fmap.
  destruct (decide (i < n)%nat); [|by rewrite !lookup_seq_ge by lia].
  rewrite !lookup_seq_lt by lia. cbn [fmap option_fmap option_map]. do 2 f_equal.
  rewrite <-Nat.Div0.add_mod_idemp_l. rewrite Nat.mod_small by lia. lia.
Qed.

Lemma packet_app buf p n m : packet buf p (n + m) = packet buf p n ++ packet buf (p + n) m.
Proof.
  unfold packet. rewrite seq_app, fmap_app. f_equal. apply list_eq. intros i. rewrite !list_lookup_fmap.
  destruct (decide (i < m)%nat); [|by rewrite !lookup_seq_ge by lia].
  rewrite !lookup_seq_lt by lia. cbn [fmap option_fmap option_map]. do 3 f_equal. lia.
Qed.

Lemma receive_packet (s : t) rb p fifo pkt :
  let n := Nat.min (length rb) (length pkt) in
  let q := Z.of_nat ((p + length pkt) mod (2 * BUF)) in
  (p < 2 * BUF)%nat → reg (registers s) cmd_mem_rptr = Z.of_nat p → length (arr (registers s) eeprom_cmd_buf) = BUF →
  cmd_addr_fifo (registers s) = q :: fifo →
  pkt = packet (arr (registers s) eeprom_cmd_buf) p (length pkt) → (1 <= length pkt <= BUF)%nat →
  get_received_data rb s = (n, take n pkt ++ drop n rb, on_regs (set_reg cmd_mem_rptr q) (on_regs (set_fifo fifo) s)).
Proof.
  intros n q Hp Hr Hl Hf Hpkt Hn. pose proof BUF_pos as HB.
  assert ((p + length pkt) mod (2 * BUF) < 2 * BUF)%nat as Hq by (apply Nat.mod_upper_bound; lia).
  pose proof (Nat.mod_upper_bound p BUF ltac:(lia)) as Hpm.
  unfold get_received_data. rewrite Hf. cbn [on_regs registers set_fifo reg arr cmd_addr_fifo]. rewrite Hr. unfold q.
  rewrite !ptr_value, !ptr_full by done. rewrite Hl.
  set (buf := arr (registers s) eeprom_cmd_buf) in *.
  destruct (ring_cases p (length pkt) Hp Hn) as [[Hs He]|(Hs & He & Hfull)]; rewrite He.
  - rewrite (proj2 (Nat.ltb_lt _ _)) by lia. replace (p mod BUF + length pkt - p mod BUF)%nat with (length pkt) by lia. fold n.
    rewrite copy_loop_spec by lia. cbn [snd]. rewrite length_seq, Nat.sub_0_r, take_0. cbn [app].
    replace (Nat.min (length pkt) n) with n by lia. rewrite Nat.add_0_l, fmap_take, <-packet_straight, <-Hpkt by lia. done.
  - rewrite (proj2 (Nat.ltb_ge _ _)) by lia.
    replace (Z.of_nat ((p + length pkt) mod (2 * BUF) / BUF) =? Z.of_nat (p / BUF)) with false
      by (symmetry; apply Z.eqb_neq; rewrite Nat2Z.inj_iff; exact Hfull). cbn [negb].
    replace (BUF - p mod BUF + (p mod BUF + length pkt - BUF))%nat with (length pkt) by lia. fold n.
    rewrite copy_loop_spec by lia. rewrite length_seq, Nat.sub_0_r, Nat.add_0_l, take_0. cbn [app].
    set (a := (BUF - p mod BUF)%nat) in *. set (m := Nat.min a n).
    assert (packet buf p a = (λ i, nth i buf 0) <$> seq (p mod BUF) a) as Ha by (apply packet_straight; lia).
    set (e := (p mod BUF + length pkt - BUF)%nat) in *.
    assert (packet buf (p + a) e = (λ i, nth i buf 0) <$> seq 0 e) as Hb.
    { assert (((p + a) mod BUF)%nat = 0%nat) as Hpa.
      { pose proof (Nat.div_mod_eq p BUF). replace (p + a)%nat with (0 + (p / BUF + 1) * BUF)%nat by lia.
        rewrite Nat.Div0.mod_add. apply Nat.mod_small. lia. }
      rewrite packet_straight; rewrite Hpa; [done|lia]. }
    assert (pkt = packet buf p a ++ packet buf (p + a) e) as Hsplit
      by (rewrite <-packet_app; replace (a + e)%nat with (length pkt) by lia; done).
    rewrite copy_loop_spec; [|lia|rewrite length_app, length_fmap, length_take, length_seq, length_drop; lia].
    cbn [snd]. rewrite length_seq. f_equal. f_equal.
    assert (take n pkt = take n (packet buf p a) ++ take (n - a) (packet buf (p + a) e)) as ->.
    { clearbody n. rewrite Hsplit, take_app, length_packet. done. }
    rewrite !fmap_take, <-Ha, <-Hb, <-(assoc_L (++)).
    assert (length (take m (packet buf p a)) = m) as Hlm by (rewrite length_take, length_packet; lia).
    rewrite (take_app_length' _ _ m (eq_sym Hlm)), drop_app, Hlm, (drop_ge (take m _)) by lia.
    cbn [app]. rewrite drop_drop.
    replace (take m (packet buf p a)) with (take n (packet buf p a)).
    2: { unfold m. destruct (Nat.le_gt_cases a n); [|by rewrite Nat.min_r by lia].
         rewrite Nat.min_l by lia. rewrite !take_ge; [done|rewrite length_packet; lia..]. }
    f_equal. destruct (Nat.le_gt_cases a n) as [Han|Han].
    + replace (Nat.min e (n - m)) with (n - a)%nat by lia. do 2 f_equal. lia.
    + replace (Nat.min e (n - m)) with 0%nat by lia. replace (n - a)%nat with 0%nat by lia. rewrite !take_0. cbn [app].
      f_equal. lia.
Qed.

Lemma packet_mod_add buf x y n : packet buf (x mod (2 * BUF) + y) n = packet buf (x + y) n.
Proof. by rewrite <-packet_mod, Nat.Div0.add_mod_idemp_l, packet_mod. Qed.

Lemma chain_app buf p fifo pkts q pkt : chain buf p fifo pkts →
  (1 <= length pkt <= BUF)%nat → pkt = packet buf (p + total pkts) (length pkt) →
  q = Z.of_nat ((p + total pkts + length pkt) mod (2 * BUF)) → chain buf p (fifo ++ [q]) (pkts ++ [pkt]).
Proof.
  revert p fifo. induction pkts as [|pkt1 pkts IH]; intros p [|q1 fifo] Hc Hn Hp Hq; try done.
  - change (total []) with 0%nat in *. rewrite Nat.add_0_r in Hp, Hq. split; [exact Hp|]. split; [exact Hn|]. split; [exact Hq|exact I].
  - cbn [chain app] in *. destruct Hc as (H1 & H2 & H3 & H4). split; [exact H1|]. split; [exact H2|]. split; [exact H3|].
    unfold total in *. cbn [concat] in *. rewrite length_app in *.
    apply IH; [done|done|..].
    + rewrite packet_mod_add, <-Nat.add_assoc. exact Hp.
    + rewrite Hq. f_equal. rewrite <-(Nat.add_assoc (_ mod _)), Nat.Div0.add_mod_idemp_l. f_equal. lia.
Qed.

Lemma chain_end buf p fifo pkts : (p < 2 * BUF)%nat → chain buf p fifo pkts →
  default (Z.of_nat p) (last fifo) = Z.of_nat ((p + total pkts) mod (2 * BUF)).
Proof.
  revert p fifo. induction pkts as [|pkt pkts IH]; intros p [|q fifo] Hp Hc; try done.
  - unfold total. cbn [concat length]. rewrite Nat.add_0_r, Nat.mod_small by done. done.
  - cbn [chain] in Hc. destruct Hc as (_ & _ & Hq & Hc). pose proof BUF_pos.
    specialize (IH _ fifo ltac:(apply Nat.mod_upper_bound; lia) Hc). unfold total in *. cbn [concat]. rewrite length_app.
    rewrite Nat.Div0.add_mod_idemp_l, <-Nat.add_assoc in IH. rewrite <-IH, last_cons, Hq. by destruct (last fifo).
Qed.

Lemma chain_store buf p fifo pkts p0 d bytes : length buf = BUF → chain buf p fifo pkts →
  (p mod BUF = (p0 + d) mod BUF)%nat → (d + total pkts + length bytes <= BUF)%nat →
  chain (store (p0 + (d + total pkts)) bytes buf) p fifo pkts.
Proof.
  intros Hl. revert p d fifo. induction pkts as [|pkt pkts IH]; intros p d [|q fifo] Hc Hp Hd; try done.
  cbn [chain] in *. destruct Hc as (H1 & H2 & H3 & H4). unfold total in *. cbn [concat] in *. rewrite length_app in *.
  split; [|split; [exact H2|split; [exact H3|]]].
  - rewrite H1 at 1.
    assert (∀ b, packet b p (length pkt) = packet b (p0 + d) (length pkt)) as Hpk.
    { intros b. unfold packet. apply list_fmap_ext. intros i k _. f_equal.
      rewrite <-(Nat.Div0.add_mod_idemp_l p), Hp, Nat.Div0.add_mod_idemp_l. done. }
    rewrite !Hpk. symmetry. replace (p0 + (d + (length pkt + length (concat pkts))))%nat
      with (p0 + d + (length pkt + length (concat pkts)))%nat by lia.
    apply packet_store_before; [done|lia..].
  - replace (d + (length pkt + length (concat pkts)))%nat with (d + length pkt + length (concat pkts))%nat by lia.
    apply IH; [done| |lia].
    rewrite <-Nat.add_0_r at 1.
    assert (∀ x, ((x mod (2 * BUF)) mod BUF = x mod BUF)%nat) as Hmm.
    { intros x. pose proof (Nat.div_mod_eq x (2 * BUF)) as E. rewrite E at 2. rewrite Nat.add_comm.
      replace (2 * BUF * (x / (2 * BUF)))%nat with (2 * (x / (2 * BUF)) * BUF)%nat by lia. by rewrite Nat.Div0.mod_add. }
    rewrite Nat.add_0_r, Hmm, <-Nat.Div0.add_mod_idemp_l, Hp, Nat.Div0.add_mod_idemp_l. f_equal. lia.
Qed.

Lemma queue_send r pkts bytes b w : queue r pkts → bytes ≠ [] → (total pkts + length bytes <= BUF)%nat →
  queue (host_send bytes b w r) (pkts ++ [bytes]).
Proof.
  intros (p & Hp & Hr & Hl & Hc & Ht) Hne Hroom. assert (1 <= length bytes)%nat by (by destruct bytes; simpl; [|lia]).
  pose proof BUF_pos. exists p. unfold host_send. cbn [reg arr cmd_addr_fifo].
  set (b' := arr r eeprom_cmd_buf) in *.
  assert (wptr r = (p + total pkts) mod (2 * BUF))%nat as Hw
    by (unfold wptr; rewrite Hr, (chain_end _ _ _ _ Hp Hc); lia).
  assert (∀ bf, store (wptr r) bytes bf = store (p + total pkts) bytes bf) as Hst.
  { rewrite Hw. generalize (p + total pkts)%nat as x. clear. induction bytes as [|y bytes IH]; intros x bf; [done|]. cbn [store].
    assert (((x mod (2 * BUF)) mod BUF = x mod BUF)%nat) as ->.
    { pose proof (Nat.div_mod_eq x (2 * BUF)) as E. rewrite E at 2. rewrite Nat.add_comm.
      replace (2 * BUF * (x / (2 * BUF)))%nat with (2 * (x / (2 * BUF)) * BUF)%nat by lia. by rewrite Nat.Div0.mod_add. }
    rewrite <-(IH (S x)). rewrite <-(IH (S (x mod (2 * BUF)))). f_equal.
    replace (S (x mod (2 * BUF))) with (x mod (2 * BUF) + 1)%nat by lia. replace (S x) with (x + 1)%nat by lia.
    by rewrite Nat.Div0.add_mod_idemp_l. }
  rewrite decide_True by done. rewrite Hst. split_and!; [done..|by rewrite length_store| |].
  - apply chain_app.
    + apply (chain_store _ _ _ _ p 0); [done..| |lia]. by rewrite Nat.add_0_r.
    + lia.
    + rewrite packet_store by (done || lia). done.
    + rewrite Hw, Nat.Div0.add_mod_idemp_l. done.
  - unfold total in *. rewrite concat_app, length_app. cbn [concat]. rewrite app_nil_r. lia.
Qed.

Lemma queue_receive (s : t) rb pkt pkts : queue (registers s) (pkt :: pkts) →
  let n := Nat.min (length rb) (length pkt) in
  ∃ s', get_received_data rb s = (n, take n pkt ++ drop n rb, s') ∧ queue (registers s') pkts ∧
        client s' = client s ∧ config s' = config s ∧
        eeprom_busy_status (registers s') = eeprom_busy_status (registers s) ∧
        eeprom_wel_status (registers s') = eeprom_wel_status (registers s).
Proof.
  intros (p & Hp & Hr & Hl & Hc & Ht) n. destruct (cmd_addr_fifo (registers s)) as [|q fifo] eqn:Ef; [done|].
  cbn [chain] in Hc. destruct Hc as (H1 & H2 & H3 & H4). pose proof BUF_pos. eexists. split_and!.
  - apply receive_packet with (p := p); try done. by rewrite <-H3.
  - exists ((p + length pkt) mod (2 * BUF))%nat. cbn [registers on_regs set_reg set_fifo reg arr cmd_addr_fifo].
    rewrite decide_True by done. split_and!; [apply Nat.mod_upper_bound; lia|done..|].
    unfold total in *. cbn [concat] in Ht. rewrite length_app in Ht. lia.
  - done.
  - done.
  - done.
  - done.
Qed.

End Ring.

(** ** Any register interface with the laws computes like [TockBits] *)

Section Concrete.
Context `{RI : RegisterInterface} `{!RegisterLaws}.

Lemma field_val_concrete f v : field_val f v = @field_val TockBits.interface f v.
Proof. apply field_val_bits. Qed.

Lemma field_read_concrete f v : field_read f v = @field_read TockBits.interface f v.
Proof. apply field_read_bits. Qed.

Lemma field_modify_concrete f v r : field_modify f v r = @field_modify TockBits.interface f v r.
Proof. rewrite field_modify_bits, field_val_bits. done. Qed.

Lemma field_sum_concrete l : field_sum l = @field_sum TockBits.interface l.
Proof.
  destruct l as [|x l]; [done|]. cbn [field_sum]. revert x. induction l as [|y l IH]; intros x; [done|].
  cbn [foldl]. rewrite IH, field_add_bits. done.
Qed.

Lemma rule_concrete f m v : rule f m v = @rule TockBits.interface f m v.
Proof. unfold rule, field_set. rewrite field_sum_concrete, !field_val_concrete. done. Qed.

Lemma filter_rules_concrete c : filter_rules c = @filter_rules TockBits.interface c.
Proof.
  unfold filter_rules. by rewrite !rule_concrete.
Qed.

End Concrete.

(** ** The passthrough filter *)

(** A valid rule applies to a command that agrees with it on the bits of its
    vector, and the controller then sends the rule's command instead.  Which of
    several rules that apply wins is not documented: [out_commands] has all. *)
Section Filter.
Context `{RI : RegisterInterface}.

Definition rule_applies (cmd r : Z) : bool :=
  is_set RULE_VALID r &&
  (Z.land cmd (field_read CMD_MATCH_BIT_VECTOR r) =? Z.land (field_read CMD_MATCH r) (field_read CMD_MATCH_BIT_VECTOR r)).

Definition out_commands (rules : list Z) (cmd : Z) : list Z :=
  match field_read FORCE_CMD <$> filter (λ r, rule_applies cmd r = true) rules with
  | [] => [cmd]
  | l => l
  end.

End Filter.

(** Commands that change the flash or its status, or prepare for that. *)
Definition modifies (o : OpCode) : bool :=
  match o with
  | WriteStatusRegister | WriteEnable | WriteDisable | WriteSuspend | WriteResume | SectorErase | BlockErase32KB
  | BlockErase64KB | ChipErase | ChipErase2 | PageProgram => true
  | _ => false
  end.
Definition harmless (cmd : Z) : bool := match from_wire_value cmd with Some o => negb (modifies o) | None => true end.

(** The rules with the cells that [init] marks invalid. *)
Definition all_rules `{RegisterInterface} (c : SpiDeviceConfiguration) : list Z :=
  filter_rules c ++ replicate (16 - length (filter_rules c)) (field_clear RULE_VALID).

Lemma filter_checked : forallb (λ c : SpiDeviceConfiguration,
    forallb (λ cmd, forallb harmless (@out_commands TockBits.interface (@all_rules TockBits.interface c) cmd))
      (Z.of_nat <$> seq 0 256))
  [mk_Config false false ThreeByte; mk_Config false true ThreeByte; mk_Config true false ThreeByte; mk_Config true true ThreeByte]
  = true.
Proof. vm_compute. reflexivity. Qed.

Lemma out_commands_concrete `{RegisterLaws} c cmd :
  out_commands (all_rules c) cmd = @out_commands TockBits.interface (@all_rules TockBits.interface c) cmd.
Proof.
  unfold all_rules, field_clear. rewrite filter_rules_concrete, field_val_concrete.
  unfold out_commands.
  assert (∀ r, rule_applies cmd r = @rule_applies TockBits.interface cmd r) as Hra
    by (intros r; unfold rule_applies, is_set; rewrite !(field_read_concrete (RI := H)); reflexivity).
  rewrite (list_filter_iff _ (λ r, @rule_applies TockBits.interface cmd r = true)) by (intros r; by rewrite Hra).
  rewrite (list_fmap_ext _ (@field_read TockBits.interface FORCE_CMD)); [done|].
  intros. apply field_read_concrete.
Qed.

Lemma fill_array_same a l v r : arr (fill_array a l v r) a = l ++ replicate (length (arr r a) - length l) v.
Proof. unfold fill_array, set_arr. cbn [arr]. by rewrite decide_True. Qed.

Lemma fill_array_other a b l v r : a ≠ b → arr (fill_array b l v r) a = arr r a.
Proof. intros Hne. unfold fill_array, set_arr. cbn [arr]. by rewrite decide_False. Qed.

(** ** Data that the host reads *)

Definition wf (r : Registers) : Prop := ∀ a, length (arr r a) = array_len a.

(** The byte of the on-die RAM that a read at a virtual address returns, when one
    of the RAM pages is mapped there. *)
Definition ram_read `{RegisterInterface} (r : Registers) (addr : Z) : option Z :=
  match list_find (λ p, field_read PAGE_ID p = Z.shiftr addr PAGE_SHIFT) (arr r ram_virtual_page) with
  | Some (i, _) => arr r generic_ram !! (i * 512 + Z.to_nat (addr mod 512))%nat
  | None => None
  end.

Section HostData.
Context `{RI : RegisterInterface} `{!RegisterLaws}.

Lemma four_bytes b0 b1 b2 b3 : fits 8 b0 → fits 8 b1 → fits 8 b2 → fits 8 b3 →
  field_sum [field_val BYTE0 b0; field_val BYTE1 b1; field_val BYTE2 b2; field_val BYTE3 b3] = le_value [b0; b1; b2; b3].
Proof.
  unfold fits. intros H0 H1 H2 H3. rewrite field_sum_concrete, !(field_val_concrete (RI := RI)).
  cbn [field_sum foldl field_add TockBits.interface field_val f_offset f_width BYTE0 BYTE1 BYTE2 BYTE3 le_value].
  rewrite !Z.land_ones, !Z.mod_small by lia. rewrite Z.shiftl_0_r.
  change (2 ^ 8) with 256 in *. rewrite (lor_disjoint_add b0 _ 8) by lia. change (2 ^ 8) with 256.
  rewrite (lor_disjoint_add _ _ 16) by lia. change (2 ^ 16) with 65536.
  rewrite (lor_disjoint_add _ _ 24) by lia. lia.
Qed.

Lemma byte_or_default_fits data i : bytes_ok data → fits 8 (get_data_byte_or_default data i 0xFF).
Proof.
  intros Hd. unfold get_data_byte_or_default. destruct (data !! i) eqn:E; [by eapply Forall_lookup_1|unfold fits; lia].
Qed.

(** The first [m] bytes of data that goes on with 0xff. *)
Definition padded (data : list Z) (m : nat) : list Z := (λ i, get_data_byte_or_default data i 0xFF) <$> seq 0 m.

Lemma padded_eq data m : (length data <= m)%nat → padded data m = data ++ replicate (m - length data) 0xFF.
Proof.
  intros Hm. apply list_eq. intros i. unfold padded. rewrite list_lookup_fmap. unfold get_data_byte_or_default.
  destruct (decide (i < length data)%nat) as [Hi|Hi].
  - rewrite lookup_seq_lt, lookup_app_l by lia. cbn [fmap option_fmap option_map]. rewrite Nat.add_0_l.
    by destruct (lookup_lt_is_Some_2 data i Hi) as [x ->].
  - rewrite lookup_app_r by lia. destruct (decide (i < m)%nat).
    + rewrite lookup_seq_lt, lookup_replicate_2 by lia. cbn [fmap option_fmap option_map].
      rewrite Nat.add_0_l, lookup_ge_None_2 by lia. done.
    + rewrite lookup_seq_ge by lia. symmetry. apply lookup_ge_None. rewrite length_replicate. lia.
Qed.

Lemma words_bytes data n : bytes_ok data →
  register_bytes ((λ k, register_word data (4 * k)) <$> seq 0 n) = padded data (4 * n).
Proof.
  intros Hd. induction n as [|n IH]; [done|].
  unfold register_bytes, padded in *. rewrite seq_S, !fmap_app, concat_app, IH.
  replace (4 * S n)%nat with (4 * n + 4)%nat by lia. rewrite seq_app, fmap_app. f_equal.
  cbn [fmap list_fmap seq concat]. rewrite app_nil_r, Nat.add_0_l. unfold register_word.
  rewrite four_bytes by (by apply byte_or_default_fits).
  rewrite (le_bytes_value [_; _; _; _]) by (repeat constructor; by apply byte_or_default_fits).
  rewrite !Nat.add_0_r, !Nat.add_0_l. replace (S (4 * n)) with (4 * n + 1)%nat by lia.
  replace (S (4 * n + 1)) with (4 * n + 2)%nat by lia. by replace (S (4 * n + 2)) with (4 * n + 3)%nat by lia.
Qed.


Lemma register_bytes_ones n : register_bytes (replicate n 0xFFFFFFFF) = replicate (4 * n) 0xFF.
Proof.
  induction n as [|n IH]; [done|]. replace (4 * S n)%nat with (4 + 4 * n)%nat by lia.
  rewrite replicate_add, <-IH. done.
Qed.

Lemma write_register_data_bytes a data (s : t) : bytes_ok data →
  let n := length (arr (registers s) a) in
  ((4 * n < length data)%nat ∧ write_register_data a data s = (ESIZE, s)) ∨
  ((length data <= 4 * n)%nat ∧ ∃ s', write_register_data a data s = (SUCCESS, s') ∧
     register_bytes (arr (registers s') a) = data ++ replicate (4 * n - length data) 0xFF).
Proof.
  intros Hd n. unfold write_register_data. fold n. destruct (Nat.ltb_spec (n * 4) (length data)); [left; split; [lia|done]|right].
  split; [lia|]. eexists. split; [done|]. cbn [registers on_regs]. rewrite fill_array_same. fold n.
  rewrite length_fmap, length_seq, register_bytes_app, words_bytes, register_bytes_ones by done.
  set (m := Nat.div (length data + 3) 4).
  assert (4 * m <= 4 * n ∧ length data <= 4 * m)%nat as [Hm1 Hm2].
  { pose proof (Nat.div_mod_eq (length data + 3) 4). pose proof (Nat.mod_upper_bound (length data + 3) 4 ltac:(lia)).
    assert (m < n + 1)%nat by (apply Nat.Div0.div_lt_upper_bound; lia). fold m in H0. lia. }
  rewrite padded_eq by done. rewrite <-(assoc_L (++)), <-replicate_add. do 2 f_equal. lia.
Qed.

Lemma page_read v : fits 23 v → field_read PAGE_ID (field_val PAGE_ID v) = v.
Proof.
  unfold fits. intros Hv. rewrite field_read_bits, field_val_bits. cbn [f_offset f_width PAGE_ID].
  rewrite Z.shiftl_0_r, Z.shiftr_0_r, <-Z.land_assoc, Z.land_diag, Z.land_ones by lia. by apply Z.mod_small.
Qed.

Lemma ram_pages_find base n i v : fits 23 (base + Z.of_nat (i + n)) → fits 23 (base + Z.of_nat i) →
  list_find (λ p, field_read PAGE_ID p = v) ((λ k, field_val PAGE_ID (u32 (base + Z.of_nat k))) <$> seq i n) =
  if decide (base + Z.of_nat i <= v < base + Z.of_nat (i + n))
  then Some (Z.to_nat (v - base - Z.of_nat i), field_val PAGE_ID v) else None.
Proof.
  revert i. induction n as [|n IH]; intros i Hf Hi.
  { cbn [seq fmap list_fmap list_find]. by rewrite decide_False by lia. }
  cbn [seq fmap list_fmap list_find]. unfold fits in *.
  rewrite u32_small by (unfold fits; lia). rewrite page_read by done.
  destruct (decide (base + Z.of_nat i = v)) as [E|Hne].
  - rewrite decide_True by lia. subst v. do 2 f_equal. lia.
  - change (list_fmap ?f ?l) with (f <$> l). rewrite IH by lia.
    replace (S i + n)%nat with (i + S n)%nat by lia.
    destruct (decide (base + Z.of_nat i <= v < base + Z.of_nat (i + S n))).
    + rewrite decide_True by lia. cbn [fmap option_fmap option_map prod_map fst snd]. f_equal. f_equal. lia.
    + rewrite decide_False by lia. done.
Qed.

End HostData.

(** ** The state that [init] and [configure_addresses] leave *)

Section Setup.
Context `{RI : RegisterInterface} `{!RegisterLaws}.

Lemma init_rules c (s : t) : wf (registers s) →
  arr (registers (init c s)) passthru_filter_rule = all_rules c.
Proof.
  intros Hwf. unfold all_rules. rewrite <-(Hwf passthru_filter_rule : _ = 16%nat). reflexivity.
Qed.

Lemma init_eeprom_ctrl c (s : t) :
  reg (registers (init c s)) eeprom_ctrl =
  match startup_address_mode c with
  | ThreeByte => modify_clear ADDR_MODE (modify_clear PASSTHRU_DIS disabled_eeprom_ctrl)
  | FourByte => modify_set ADDR_MODE (modify_clear PASSTHRU_DIS disabled_eeprom_ctrl)
  end.
Proof. destruct (startup_address_mode c) eqn:E; unfold init, set_address_mode; cbn; rewrite E; reflexivity. Qed.

Lemma disabled_field f : is_set f disabled_eeprom_ctrl = @is_set TockBits.interface f (@disabled_eeprom_ctrl TockBits.interface).
Proof.
  unfold is_set, disabled_eeprom_ctrl, field_set, field_clear.
  rewrite field_sum_concrete, !(field_val_concrete (RI := RI)), (field_read_concrete (RI := RI)). reflexivity.
Qed.

Lemma init_state c (s : t) : wf (registers s) →
  let s' := init c s in
  get_address_mode s' = startup_address_mode c ∧
  field_read CTRL_MODE (reg (registers s') ctrl) = MODE_Eeprom ∧
  is_set CMD_ADDR_FIFO_NOT_EMPTY (reg (registers s') eeprom_int_enable) = true ∧
  is_set PASSTHRU_DIS (reg (registers s') eeprom_ctrl) = false ∧
  is_set EXT_FLASH_DIS (reg (registers s') eeprom_ctrl) = true ∧
  is_set RAM_DIS (reg (registers s') eeprom_ctrl) = true ∧
  arr (registers s') generic_ram = replicate 2048 0xFF ∧
  register_bytes (arr (registers s') jedec_id) = replicate 12 0xFF ∧
  register_bytes (arr (registers s') sfdp) = replicate 128 0xFF.
Proof.
  intros Hwf s'. unfold get_address_mode. unfold s'. rewrite init_eeprom_ctrl. split_and!.
  - destruct (startup_address_mode c).
    + by rewrite read_modify_clear by by_compute.
    + by rewrite read_modify_set by by_compute.
  - change (reg _ ctrl) with (field_modify CTRL_MODE MODE_Eeprom (field_val CTRL_MODE MODE_Disabled)).
    by rewrite read_modify_same by by_compute.
  - change (reg _ eeprom_int_enable) with (modify_set CMD_ADDR_FIFO_NOT_EMPTY 0). by rewrite read_modify_set by by_compute.
  - destruct (startup_address_mode c); [unfold modify_clear at 1|unfold modify_set];
      (rewrite is_set_other by by_compute); by rewrite read_modify_clear by by_compute.
  - destruct (startup_address_mode c); unfold modify_clear, modify_set;
      rewrite !is_set_other by by_compute; rewrite disabled_field; reflexivity.
  - destruct (startup_address_mode c); unfold modify_clear, modify_set;
      rewrite !is_set_other by by_compute; rewrite disabled_field; reflexivity.
  - change (arr _ generic_ram) with (replicate (length (arr (registers s) generic_ram) - 0) 0xFF). by rewrite Hwf.
  - change (arr _ jedec_id) with (replicate (length (arr (registers s) jedec_id) - 0) 0xFFFFFFFF).
    rewrite Hwf. apply (register_bytes_ones 3).
  - change (arr _ sfdp) with (replicate (length (arr (registers s) sfdp) - 0) 0xFFFFFFFF).
    rewrite Hwf. apply (register_bytes_ones 32).
Qed.

Lemma configure_pages c (s : t) : wf (registers s) →
  arr (registers (configure_addresses c s)) ram_virtual_page = ram_pages (Z.shiftr (ram_virtual_base c) PAGE_SHIFT) 4 ∧
  arr (registers (configure_addresses c s)) generic_ram = arr (registers s) generic_ram ∧
  is_set RAM_DIS (reg (registers (configure_addresses c s)) eeprom_ctrl) = false ∧
  is_set EXT_FLASH_DIS (reg (registers (configure_addresses c s)) eeprom_ctrl) = false.
Proof.
  intros Hwf. split_and!.
  - rewrite <-(Hwf ram_virtual_page : _ = 4%nat). reflexivity.
  - reflexivity.
  - change (reg _ eeprom_ctrl) with (modify_clear VIRTUAL_ADDR_FILTER_EN (modify_clear RAM_DIS (modify_clear EXT_FLASH_DIS
      (modify_set RAM_DIS (modify_clear VIRTUAL_ADDR_FILTER_EN (modify_set EXT_FLASH_DIS (reg (registers s) eeprom_ctrl))))))).
    unfold modify_clear at 1. rewrite is_set_other by by_compute. by rewrite read_modify_clear by by_compute.
  - change (reg _ eeprom_ctrl) with (modify_clear VIRTUAL_ADDR_FILTER_EN (modify_clear RAM_DIS (modify_clear EXT_FLASH_DIS
      (modify_set RAM_DIS (modify_clear VIRTUAL_ADDR_FILTER_EN (modify_set EXT_FLASH_DIS (reg (registers s) eeprom_ctrl))))))).
    unfold modify_clear at 1 2. rewrite !is_set_other by by_compute. by rewrite read_modify_clear by by_compute.
Qed.

End Setup.

(** The RAM pages are mapped from [base] on, a multiple of the page size. *)
Definition mapped `{RegisterInterface} (base : Z) (r : Registers) : Prop :=
  arr r ram_virtual_page = ram_pages (Z.shiftr base PAGE_SHIFT) 4 ∧
  0 <= base ∧ base mod 512 = 0 ∧ base + 2048 < 2 ^ 32.

(** What the host reads of data that was put. *)
Definition reads_back `{RegisterInterface} (base : Z) (data : list Z) (r : Registers) : Prop :=
  (∀ k, (k < 2048)%nat → ram_read r (base + Z.of_nat k) = Some (get_data_byte_or_default data k 0xFF)) ∧
  (∀ addr, fits 32 addr → addr < base ∨ base + 2048 <= addr → ram_read r addr = None).

Lemma put_reads_back `{RegisterLaws} base (s : t) (data : list Z) :
  length (arr (registers s) generic_ram) = 2048%nat → mapped base (registers s) →
  put_send_data data s =
    (if decide (length data <= 2048)%nat then (SUCCESS, on_regs (fill_array generic_ram data 0xFF) s) else (ESIZE, s)) ∧
  ((length data <= 2048)%nat → reads_back base data (fill_array generic_ram data 0xFF (registers s))).
Proof.
  intros Hram (Hpages & Hb0 & Hal & Hb). split.
  { unfold put_send_data. rewrite Hram.
    destruct (decide _); [by rewrite (proj2 (Nat.ltb_ge _ _)) by lia|by rewrite (proj2 (Nat.ltb_lt _ _)) by lia]. }
  intros Hl. set (page := Z.shiftr base PAGE_SHIFT) in *.
  assert (base = 512 * page ∧ 0 <= page < 2 ^ 23 - 4) as [Hbase Hbr].
  { unfold page, PAGE_SHIFT. rewrite Z.shiftr_div_pow2 by lia. change (2 ^ 9) with 512.
    pose proof (Z.div_mod base 512 ltac:(lia)). lia. }
  assert (∀ addr, ram_read (fill_array generic_ram data 0xFF (registers s)) addr =
    if decide (page <= Z.shiftr addr PAGE_SHIFT < page + 4)
    then padded data 2048 !! (Z.to_nat (Z.shiftr addr PAGE_SHIFT - page) * 512 + Z.to_nat (addr mod 512))%nat else None) as Hread.
  { intros addr. unfold ram_read. rewrite fill_array_other, Hpages by done. unfold ram_pages.
    rewrite ram_pages_find by (unfold fits; lia). rewrite Z.add_0_r. change (Z.of_nat (0 + 4)) with 4.
    destruct (decide _); [|done]. rewrite fill_array_same, Hram, Z.sub_0_r. by rewrite padded_eq. }
  split.
  - intros k Hk. rewrite Hread.
    assert (Z.shiftr (base + Z.of_nat k) PAGE_SHIFT = page + Z.of_nat k / 512) as ->.
    { rewrite Hbase. unfold PAGE_SHIFT. rewrite Z.shiftr_div_pow2 by lia. change (2 ^ 9) with 512.
      rewrite (Z.mul_comm 512), Z.add_comm, Z.div_add by lia. lia. }
    assert (0 <= Z.of_nat k / 512 < 4) as Hq by (split; [apply Z.div_pos; lia|apply Z.div_lt_upper_bound; lia]).
    rewrite decide_True by lia.
    assert ((base + Z.of_nat k) mod 512 = Z.of_nat k mod 512) as ->.
    { rewrite Hbase, (Z.mul_comm 512), Z.add_comm, Z.mod_add by lia. done. }
    replace (Z.to_nat (page + Z.of_nat k / 512 - page) * 512 + Z.to_nat (Z.of_nat k mod 512))%nat with k
      by (pose proof (Z.div_mod (Z.of_nat k) 512 ltac:(lia)); pose proof (Z.mod_pos_bound (Z.of_nat k) 512 ltac:(lia)); lia).
    unfold padded. rewrite list_lookup_fmap, lookup_seq_lt by done. done.
  - intros addr Ha Hout. rewrite Hread, decide_False; [done|]. unfold fits in Ha. intros Hin. unfold PAGE_SHIFT in Hin.
    rewrite Z.shiftr_div_pow2 in Hin by lia. change (2 ^ 9) with 512 in Hin.
    pose proof (Z.div_mod addr 512 ltac:(lia)). pose proof (Z.mod_pos_bound addr 512 ltac:(lia)). lia.
Qed.

(** ** Theorems *)

(** What the host sends reaches the reader complete and in order.  The command
    memory and its address FIFO behave as a queue of packets: a packet that fits
    into the free part of the ring joins the end, also when it wraps around;
    each read takes the oldest packet, fills the front of the reader's buffer with
    as much of it as fits, returns that length and leaves the rest of the buffer;
    and a read of an empty queue changes nothing. *)
Theorem spi_packets_in_order `{RegisterLaws} (s : t) (pkts : list (list Z)) (rb : list Z) :
  queue (registers s) pkts →
  (∀ bytes busy wel, bytes ≠ [] → (total pkts + length bytes <= BUF)%nat →
     queue (host_send bytes busy wel (registers s)) (pkts ++ [bytes])) ∧
  match pkts with
  | [] => get_received_data rb s = (0%nat, rb, s)
  | pkt :: pkts' =>
      let n := Nat.min (length rb) (length pkt) in
      ∃ s', get_received_data rb s = (n, take n pkt ++ drop n rb, s') ∧ queue (registers s') pkts'
  end.
Proof.
  intros Hq. split; [intros; by apply queue_send|]. destruct pkts as [|pkt pkts].
  - destruct Hq as (p & _ & _ & _ & Hc & _). unfold get_received_data.
    destruct (cmd_addr_fifo (registers s)); [done|]. by destruct Hc.
  - destruct (queue_receive s rb pkt pkts Hq) as (s' & E & Hq' & _). by exists s'.
Qed.

Definition blank_registers : Registers :=
  mk_Registers (λ _, 0) (λ a, replicate (array_len a) 0) [] false false false false false.

Lemma blank_queue : queue blank_registers [].
Proof. exists 0%nat. split_and!; [unfold BUF; lia|done|apply length_replicate|exact I|unfold total; simpl; lia]. Qed.

Lemma blank_wf : wf blank_registers.
Proof. intros a. apply length_replicate. Qed.

Lemma spi_packets_in_order_witness :
  (∀ bytes busy wel, bytes ≠ [] → (total [] + length bytes <= BUF)%nat →
     queue (host_send bytes busy wel (registers (new blank_registers))) ([] ++ [bytes])) ∧
  @get_received_data TockBits.interface [7; 7] (new blank_registers) = (0%nat, [7; 7], new blank_registers).
Proof. apply (@spi_packets_in_order TockBits.interface TockBits.laws (new blank_registers) [] [7; 7]). exact blank_queue. Defined.



(** A gap of the filter.  With the switching of address modes enabled, as the
    papa board has it, the rule that is meant for the bytes 0xb8 to 0xbf is written
    with the pattern of the bytes 0xb0 to 0xb7: the former are sent to the external
    flash unchanged, and for the latter two rules apply with different commands. *)
Theorem passthrough_gap `{RegisterLaws} (c : SpiDeviceConfiguration) (s : t) (cmd : Z) :
  wf (registers s) → enable_enterexit4b_cmd c = true →
  (0xB8 <= cmd <= 0xBF → out_commands (arr (registers (init c s)) passthru_filter_rule) cmd = [cmd]) ∧
  (0xB0 <= cmd <= 0xB7 → out_commands (arr (registers (init c s)) passthru_filter_rule) cmd = [op Enter4ByteAddressMode; 0xBF]).
Proof.
  intros Hwf Hc. rewrite init_rules, out_commands_concrete by done.
  destruct c as [f e m]. cbn [enable_enterexit4b_cmd] in Hc. subst e. split; intros Hcmd.
  - assert (cmd ∈ seqZ 0xB8 8) as Hin by (apply elem_of_seqZ; lia).
    repeat (apply elem_of_cons in Hin as [->|Hin]; [destruct f; vm_compute; reflexivity|]). by apply not_elem_of_nil in Hin.
  - assert (cmd ∈ seqZ 0xB0 8) as Hin by (apply elem_of_seqZ; lia).
    repeat (apply elem_of_cons in Hin as [->|Hin]; [destruct f; vm_compute; reflexivity|]). by apply not_elem_of_nil in Hin.
Qed.

Lemma passthrough_gap_witness :
  (0xB8 <= 0xB9 <= 0xBF → @out_commands TockBits.interface
     (arr (registers (@init TockBits.interface papa_config (new blank_registers))) passthru_filter_rule) 0xB9 = [0xB9]) ∧
  (0xB0 <= 0xB9 <= 0xB7 → @out_commands TockBits.interface
     (arr (registers (@init TockBits.interface papa_config (new blank_registers))) passthru_filter_rule) 0xB9 =
     [op Enter4ByteAddressMode; 0xBF]).
Proof. apply (@passthrough_gap TockBits.interface TockBits.laws papa_config (new blank_registers) 0xB9); [exact blank_wf|reflexivity]. Defined.

(** An answer can be read where the mailbox is mapped.  After the addresses
    have been configured with a page-aligned RAM base and data of at most 2048 bytes has been put, a
    read of any of the 2048 bytes from that base on returns the data, and 0xff
    behind it; a read of any other address does not reach the RAM.  Longer data is
    refused and changes nothing. *)
Theorem answer_readable `{RegisterLaws} (c : AddressConfig) (s : t) (data : list Z) :
  wf (registers s) → 0 <= ram_virtual_base c → ram_virtual_base c mod 512 = 0 → ram_virtual_base c + 2048 < 2 ^ 32 →
  let s1 := configure_addresses c s in
  let '(rc, s2) := put_send_data data s1 in
  if decide (length data <= 2048)%nat then
    rc = SUCCESS ∧ is_set RAM_DIS (reg (registers s2) eeprom_ctrl) = false ∧
    (∀ k, (k < 2048)%nat → ram_read (registers s2) (ram_virtual_base c + Z.of_nat k) =
                            Some (get_data_byte_or_default data k 0xFF)) ∧
    (∀ addr, fits 32 addr → addr < ram_virtual_base c ∨ ram_virtual_base c + 2048 <= addr → ram_read (registers s2) addr = None)
  else rc = ESIZE ∧ s2 = s1.
Proof.
  intros Hwf Hb0 Hal Hb s1. destruct (configure_pages c s Hwf) as (Hpages & Hram & Hdis & _). fold s1 in Hpages, Hram, Hdis.
  destruct (put_reads_back (ram_virtual_base c) s1 data) as [Hput Hread].
  - rewrite Hram. apply Hwf.
  - by split_and!.
  - rewrite Hput. destruct (decide (length data <= 2048)%nat) as [Hl|]; [|done]. destruct (Hread Hl). by split_and!.
Qed.

Definition mailbox_config : AddressConfig := mk_AddressConfig 0 0 0x2000000 0x2000000 0x4000000.

Lemma answer_readable_witness :
  let s1 := @configure_addresses TockBits.interface mailbox_config (new blank_registers) in
  let '(rc, s2) := put_send_data [1; 2; 3] s1 in
  if decide (length [1; 2; 3] <= 2048)%nat then
    rc = SUCCESS ∧ @is_set TockBits.interface RAM_DIS (reg (registers s2) eeprom_ctrl) = false ∧
    (∀ k, (k < 2048)%nat → @ram_read TockBits.interface (registers s2) (ram_virtual_base mailbox_config + Z.of_nat k) =
                            Some (get_data_byte_or_default [1; 2; 3] k 0xFF)) ∧
    (∀ addr, fits 32 addr → addr < ram_virtual_base mailbox_config ∨ ram_virtual_base mailbox_config + 2048 <= addr →
             @ram_read TockBits.interface (registers s2) addr = None)
  else rc = ESIZE ∧ s2 = s1.
Proof.
  apply (@answer_readable TockBits.interface TockBits.laws mailbox_config (new blank_registers) [1; 2; 3]);
    [exact blank_wf|by_compute..].
Defined.

(** Identification data reads back.  The JEDEC ID registers take up to 12
    bytes and the SFDP registers up to 128: the host then reads these bytes in
    order, 0xff behind them; longer data is refused and changes nothing. *)
Theorem identification_read_back `{RegisterLaws} (s : t) (data : list Z) :
  wf (registers s) → bytes_ok data →
  (let '(rc, s') := set_jedec_id data s in
   if decide (length data <= 12)%nat
   then rc = SUCCESS ∧ register_bytes (arr (registers s') jedec_id) = data ++ replicate (12 - length data) 0xFF
   else rc = ESIZE ∧ s' = s) ∧
  (let '(rc, s') := set_sfdp data s in
   if decide (length data <= 128)%nat
   then rc = SUCCESS ∧ register_bytes (arr (registers s') sfdp) = data ++ replicate (128 - length data) 0xFF
   else rc = ESIZE ∧ s' = s).
Proof.
  intros Hwf Hd. split.
  - unfold set_jedec_id. destruct (write_register_data_bytes jedec_id data s Hd) as [[Hl E]|(Hl & s' & E & Hb)];
      rewrite E; rewrite (Hwf jedec_id) in *; cbn [array_len] in *; [rewrite decide_False by lia|rewrite decide_True by lia]; done.
  - unfold set_sfdp. destruct (write_register_data_bytes sfdp data s Hd) as [[Hl E]|(Hl & s' & E & Hb)];
      rewrite E; rewrite (Hwf sfdp) in *; cbn [array_len] in *; [rewrite decide_False by lia|rewrite decide_True by lia]; done.
Qed.

Lemma identification_read_back_witness :
  (let '(rc, s') := @set_jedec_id TockBits.interface [0x26; 0x31; 0x19] (new blank_registers) in
   if decide (length [0x26; 0x31; 0x19] <= 12)%nat
   then rc = SUCCESS ∧ register_bytes (arr (registers s') jedec_id) = [0x26; 0x31; 0x19] ++ replicate (12 - length [0x26; 0x31; 0x19]) 0xFF
   else rc = ESIZE ∧ s' = new blank_registers) ∧
  (let '(rc, s') := @set_sfdp TockBits.interface [0x26; 0x31; 0x19] (new blank_registers) in
   if decide (length [0x26; 0x31; 0x19] <= 128)%nat
   then rc = SUCCESS ∧ register_bytes (arr (registers s') sfdp) = [0x26; 0x31; 0x19] ++ replicate (128 - length [0x26; 0x31; 0x19]) 0xFF
   else rc = ESIZE ∧ s' = new blank_registers).
Proof.
  apply (@identification_read_back TockBits.interface TockBits.laws (new blank_registers) [0x26; 0x31; 0x19]);
    [exact blank_wf|by_compute].
Defined.
