(* ===== verification/SpiSyscall.v ===== *)
(** The system-call driver of the SPI device port
    (kernel/h1_syscalls/src/spi_device.rs) on the kernel's SPI device driver, and
    the interrupt handler that connects the two.

    The grant is a partial map from processes to their data, as in [FlashSyscalls];
    a shared buffer is its contents.  Scheduling a callback appends to the list of
    upcalls. *)

From S2P Require Import Prelude Io Wire FlashProto FirmwareProto Tock Registers SpiHw SpiHwFacts FlashSyscalls SpiDevice.
From Stdlib Require Import ZArith Lia.
From stdpp Require Import base decidable option list list_numbers.

#[local] Open Scope Z_scope.

Abbreviation Hw := SpiDeviceHardware.t.

Record SpiAppData := mk_SpiAppData {
  tx_buffer : option (list Z);
  rx_buffer : option (list Z);
  data_received_callback : option nat;
  address_mode_handling : HandlerMode;
  address_mode_changed_callback : option nat
}.

Definition SpiAppData_default : SpiAppData := mk_SpiAppData None None None HandlerMode_default None.

Record SpiUpcall := mk_SpiUpcall { su_app : AppId; su_callback : nat; su_arg1 : Z; su_arg2 : Z; su_arg3 : Z }.

(** [isize::from(return_code) < 0] *)
Definition is_failure (rc : ReturnCode) : bool :=
  match rc with SUCCESS | SuccessWithValue _ => false | _ => true end.

Definition usize_of_bool (b : bool) : Z := if b then 1 else 0.

Module SpiDeviceSyscall.
Import SpiDeviceHardware.

Section Driver.
Context `{RegisterInterface}.

Record t := mk {
  device : Hw;
  apps : AppId → option SpiAppData;
  current_user : option AppId;
  upcalls : list SpiUpcall
}.

Definition new (d : Hw) (container : AppId → option SpiAppData) : t := mk d container None [].

Definition set_device (d : Hw) (s : t) : t := mk d (apps s) (current_user s) (upcalls s).
Definition set_app (id : AppId) (a : SpiAppData) (s : t) : t :=
  mk (device s) (λ i, if decide (i = id) then Some a else apps s i) (current_user s) (upcalls s).
Definition schedule (id : AppId) (cb : option nat) (arg1 arg2 arg3 : Z) (s : t) : t :=
  mk (device s) (apps s) (current_user s)
    match cb with Some c => upcalls s ++ [mk_SpiUpcall id c arg1 arg2 arg3] | None => upcalls s end.

(** [self.apps.enter(id, f).unwrap_or(fail)] *)
Definition enter (id : AppId) (fail : ReturnCode) (f : SpiAppData → t → ReturnCode * t) (s : t) : ReturnCode * t :=
  match apps s id with None => (fail, s) | Some a => f a s end.

Definition clear_bits (clear_busy_ clear_write_enable_ : bool) (d : Hw) : Hw :=
  let d := if clear_write_enable_ then clear_write_enable d else d in
  if clear_busy_ then clear_busy d else d.

Definition send_data (caller_id : AppId) (clear_busy_ clear_write_enable_ : bool) (s : t) : ReturnCode * t :=
  enter caller_id ENOMEM (λ app_data s,
    match tx_buffer app_data with
    | Some buf =>
        let '(return_code, d) := put_send_data buf (device s) in
        if is_failure return_code then (return_code, set_device d s)
        else (SUCCESS, set_device (clear_bits clear_busy_ clear_write_enable_ d) s)
    | None => (ENOMEM, s)
    end) s.

Definition clear_status (caller_id : AppId) (clear_busy_ clear_write_enable_ : bool) (s : t) : ReturnCode * t :=
  enter caller_id ENOMEM (λ _ s,
    (SUCCESS, set_device (clear_bits clear_busy_ clear_write_enable_ (device s)) s)) s.

Definition set_address_mode (caller_id : AppId) (m : AddressMode) (s : t) : ReturnCode * t :=
  enter caller_id ENOMEM (λ _ s, (SUCCESS, set_device (SpiDeviceHardware.set_address_mode m (device s)) s)) s.

Definition get_address_mode (caller_id : AppId) (s : t) : ReturnCode * t :=
  enter caller_id ENOMEM (λ _ s,
    (SuccessWithValue (address_mode_to_usize (SpiDeviceHardware.get_address_mode (device s))), s)) s.

Definition set_address_mode_handling (caller_id : AppId) (h : HandlerMode) (s : t) : ReturnCode * t :=
  enter caller_id ENOMEM (λ a s,
    (SUCCESS, set_app caller_id (mk_SpiAppData (tx_buffer a) (rx_buffer a) (data_received_callback a) h
                                   (address_mode_changed_callback a)) s)) s.

(** The outer result is [Result<HandlerMode, FromWireError>]. *)
Definition process_spi_cmd (id : AppId) (app_data : SpiAppData) (spi_cmd : Z) (maybe_spi_data : option Z) (s : t) :
    option HandlerMode * t :=
  match from_wire_value spi_cmd : option OpCode with
  | None => (None, s)
  | Some op_code =>
      match op_code with
      | Enter4ByteAddressMode | Exit4ByteAddressMode =>
          match address_mode_handling app_data with
          | HmKernelSpace =>
              let m := match op_code with Enter4ByteAddressMode => FourByte | _ => ThreeByte end in
              let has_address_mode_changed := bool_decide (SpiDeviceHardware.get_address_mode (device s) ≠ m) in
              let d := if has_address_mode_changed then SpiDeviceHardware.set_address_mode m (device s) else device s in
              let s := set_device (clear_busy d) s in
              let s := if has_address_mode_changed
                       then schedule id (address_mode_changed_callback app_data) (address_mode_to_usize m) 0 0 s else s in
              (Some HmKernelSpace, s)
          | handler_mode => (Some handler_mode, s)
          end
      | WriteStatusRegister =>
          match maybe_spi_data with
          | Some spi_data =>
              let d := if is_write_enable_set (device s) then clear_write_enable (set_status spi_data (device s)) else device s in
              (Some HmKernelSpace, set_device (clear_busy d) s)
          | None => (Some HmUserSpace, s)
          end
      | _ => (Some HmUserSpace, s)
      end
  end.

Definition with_tx (caller_id : AppId) (f : list Z → t → ReturnCode * t) (s : t) : ReturnCode * t :=
  enter caller_id ENOMEM (λ a s, match tx_buffer a with Some buf => f buf s | None => (ENOMEM, s) end) s.

Definition set_jedec_id (caller_id : AppId) : t → ReturnCode * t :=
  with_tx caller_id (λ buf s, let '(rc, d) := SpiDeviceHardware.set_jedec_id buf (device s) in (rc, set_device d s)).

Definition set_sfdp (caller_id : AppId) : t → ReturnCode * t :=
  with_tx caller_id (λ buf s, let '(rc, d) := SpiDeviceHardware.set_sfdp buf (device s) in (rc, set_device d s)).

Definition configure_addresses (caller_id : AppId) : t → ReturnCode * t :=
  with_tx caller_id (λ buf s,
    match fst (address_config_from_wire buf) with
    | Ok config => (SUCCESS, set_device (SpiDeviceHardware.configure_addresses config (device s)) s)
    | _ => (EINVAL, s)
    end).

Definition data_available (is_busy_ is_write_enabled_ : bool) (s : t) : t :=
  match current_user s with
  | None => s
  | Some id =>
      snd (enter id FAIL (λ app_data s,
        let '(rx_len, buf, d) :=
          match rx_buffer app_data with
          | Some rx => get_received_data rx (device s)
          | None => get_received_data [0xFF; 0xFF] (device s)
          end in
        let app_data' :=
          match rx_buffer app_data with
          | Some _ => mk_SpiAppData (tx_buffer app_data) (Some buf) (data_received_callback app_data)
                        (address_mode_handling app_data) (address_mode_changed_callback app_data)
          | None => app_data
          end in
        let s := set_app id app_data' (set_device d s) in
        (* without a buffer the two bytes are looked at, and a length of 0 is reported *)
        let len := match rx_buffer app_data with Some _ => rx_len | None => 0%nat end in
        let maybe_spi_cmd := if (0 <? rx_len)%nat then Some (nth 0 buf 0) else None in
        let maybe_spi_data := if (1 <? rx_len)%nat then Some (nth 1 buf 0) else None in
        let '(handler_mode, s) :=
          match maybe_spi_cmd with
          | Some spi_cmd =>
              match process_spi_cmd id app_data' spi_cmd maybe_spi_data s with
              | (Some mode, s) => (mode, s)
              | (None, s) => (HmUserSpace, s)
              end
          | None => (HmUserSpace, s)
          end in
        (SUCCESS,
         if bool_decide (handler_mode = HmUserSpace)
         then schedule id (data_received_callback app_data') (Z.of_nat len) (usize_of_bool is_busy_)
                (usize_of_bool is_write_enabled_) s
         else s)) s)
  end.

Definition subscribe (subscribe_num : Z) (callback : option nat) (app_id : AppId) (s : t) : ReturnCode * t :=
  if subscribe_num =? 0 then
    enter app_id ENOMEM (λ a s,
      (SUCCESS, set_app app_id (mk_SpiAppData (tx_buffer a) (rx_buffer a) callback (address_mode_handling a)
                                  (address_mode_changed_callback a)) s)) s
  else if subscribe_num =? 1 then
    enter app_id ENOMEM (λ a s,
      (SUCCESS, set_app app_id (mk_SpiAppData (tx_buffer a) (rx_buffer a) (data_received_callback a)
                                  (address_mode_handling a) callback) s)) s
  else (ENOSUPPORT, s).

Definition command (command_num arg1 arg2 : Z) (caller_id : AppId) (s : t) : ReturnCode * t :=
  let s := match current_user s with
           | None => mk (device s) (apps s) (Some caller_id) (upcalls s)
           | Some _ => s
           end in
  if command_num =? 0 then (SUCCESS, s)
  else if command_num =? 1 then send_data caller_id (negb (arg1 =? 0)) (negb (arg2 =? 0)) s
  else if command_num =? 2 then clear_status caller_id (negb (arg1 =? 0)) (negb (arg2 =? 0)) s
  else if command_num =? 3 then
    match address_mode_try_from arg1 with Some m => set_address_mode caller_id m s | None => (EINVAL, s) end
  else if command_num =? 4 then get_address_mode caller_id s
  else if command_num =? 5 then
    match handler_mode_try_from arg1 with Some h => set_address_mode_handling caller_id h s | None => (EINVAL, s) end
  else if command_num =? 6 then set_jedec_id caller_id s
  else if command_num =? 7 then set_sfdp caller_id s
  else if command_num =? 8 then configure_addresses caller_id s
  else (ENOSUPPORT, s).

Definition allow (app_id : AppId) (minor_num : Z) (slice : option (list Z)) (s : t) : ReturnCode * t :=
  if minor_num =? 0 then
    enter app_id FAIL (λ a s,
      (SUCCESS, set_app app_id (mk_SpiAppData slice (rx_buffer a) (data_received_callback a)
                                  (address_mode_handling a) (address_mode_changed_callback a)) s)) s
  else if minor_num =? 1 then
    enter app_id FAIL (λ a s,
      (SUCCESS, set_app app_id (mk_SpiAppData (tx_buffer a) slice (data_received_callback a)
                                  (address_mode_handling a) (address_mode_changed_callback a)) s)) s
  else (ENOSUPPORT, s).

(** [SpiDeviceHardware::handle_interrupt_cmd_addr_fifo_not_empty], the driver
    being the client of the device. *)
Definition handle_interrupt_cmd_addr_fifo_not_empty (s : t) : t :=
  let s := match interrupt_call (device s) with Some (b, w) => data_available b w s | None => s end in
  set_device (clear_rx_interrupt (device s)) s.

End Driver.
End SpiDeviceSyscall.
