(* ===== verification/SpiPort.v ===== *)
(** From the bus to the application: the SPI device driver, its system-call driver
    and otpilot's port composed. *)

From S2P Require Import Prelude Io Wire FlashProto FirmwareProto Tock Registers SpiHw SpiHwFacts FlashSyscalls SpiDevice SpiSyscall.
From Stdlib Require Import ZArith Lia.
From stdpp Require Import base decidable option list list_numbers.

#[local] Open Scope Z_scope.

Import SpiDeviceSyscall.

Abbreviation regs s := (SpiDeviceHardware.registers (device s)).

(** Who handles a packet, as the driver decides by its first two bytes. *)
Inductive handler := ToUser | SetMode (m : AddressMode) | WriteStatus (status : Z) | Ignored.

Definition handler_of (h : HandlerMode) (pkt : list Z) : handler :=
  match pkt with
  | [] => ToUser
  | cmd :: rest =>
      match from_wire_value cmd : option OpCode, h, rest with
      | Some Enter4ByteAddressMode, HmKernelSpace, _ => SetMode FourByte
      | Some Exit4ByteAddressMode, HmKernelSpace, _ => SetMode ThreeByte
      | Some (Enter4ByteAddressMode | Exit4ByteAddressMode), HmDisabled, _ => Ignored
      | Some WriteStatusRegister, _, data :: _ => WriteStatus data
      | _, _, _ => ToUser
      end
  end.

(** A port that is in use: a process with a full receive buffer and both callbacks. *)
Record connected (s : t) (app : AppId) (a : SpiAppData) (rb : list Z) (cb mcb : nat) : Prop := {
  co_client : SpiDeviceHardware.client (device s) = true;
  co_user : current_user s = Some app;
  co_app : apps s app = Some a;
  co_rx : rx_buffer a = Some rb;
  co_len : length rb = SpiDeviceImpl.READ_BUFFER_SIZE;
  co_cb : data_received_callback a = Some cb;
  co_mcb : address_mode_changed_callback a = Some mcb
}.

Definition with_rx (a : SpiAppData) (rb : list Z) : SpiAppData :=
  mk_SpiAppData (tx_buffer a) (Some rb) (data_received_callback a) (address_mode_handling a) (address_mode_changed_callback a).

Section Port.
Context `{RegisterLaws}.

(** The interrupt handler up to the decision: the packet is in the buffer. *)
Definition received (s : t) (app : AppId) (a : SpiAppData) (rb : list Z) (d : Hw) : t :=
  set_app app (with_rx a rb) (set_device d s).

Lemma handle_interrupt_split s app a rb cb mcb pkt pkts :
  connected s app a rb cb mcb → queue (regs s) (pkt :: pkts) →
  ∃ d, let rb' := pkt ++ drop (length pkt) rb in
    queue (SpiDeviceHardware.registers d) pkts ∧ (length pkt <= length rb)%nat ∧ pkt ≠ [] ∧
    SpiDeviceHardware.client d = true ∧
    (∃ q fifo, SpiDeviceHardware.registers d = set_reg cmd_mem_rptr q (set_fifo fifo (regs s))) ∧
    let s1 := received s app a rb' d in
    let '(mode, s2) := process_spi_cmd app (with_rx a rb') (nth 0 pkt 0)
                         (if (1 <? length pkt)%nat then Some (nth 1 pkt 0) else None) s1 in
    let s3 := if bool_decide (default HmUserSpace mode = HmUserSpace)
              then schedule app (Some cb) (Z.of_nat (length pkt)) (usize_of_bool (eeprom_busy_status (regs s)))
                     (usize_of_bool (eeprom_wel_status (regs s))) s2
              else s2 in
    handle_interrupt_cmd_addr_fifo_not_empty s = set_device (SpiDeviceHardware.clear_rx_interrupt (device s3)) s3.
Proof.
  intros [Hcl Hu Ha Hrx Hlen Hcb Hmcb] Hq. destruct (queue_receive (device s) rb pkt pkts Hq) as (d & Eg & Hq' & Hcl' & _).
  assert (1 <= length pkt <= BUF)%nat as Hpl.
  { destruct Hq as (p & _ & _ & _ & Hc & _). destruct (cmd_addr_fifo (regs s)); [done|]. by destruct Hc as (_ & ? & _). }
  assert (length pkt <= length rb)%nat as Hle by (rewrite Hlen; apply Hpl).
  rewrite Nat.min_r, take_ge in Eg by lia. exists d. cbn zeta.
  assert (d = (SpiDeviceHardware.get_received_data rb (device s)).2) as Hd by (by rewrite Eg).
  assert (∃ q fifo, SpiDeviceHardware.registers d = set_reg cmd_mem_rptr q (set_fifo fifo (regs s))) as Hregs.
  { rewrite Hd. unfold SpiDeviceHardware.get_received_data. destruct (cmd_addr_fifo (regs s)) as [|q fifo] eqn:Ef.
    - destruct Hq as (p & _ & _ & _ & Hc & _). by rewrite Ef in Hc.
    - exists q, fifo. by destruct (if (_ <? _)%nat then _ else _) as [len rb']. }
  split_and!; [done|done|by destruct pkt; simpl in Hpl; [lia|]|congruence|done..|].
  assert (cmd_addr_fifo (regs s) ≠ []) as Hne.
  { destruct Hq as (p & _ & _ & _ & Hc & _). by destruct (cmd_addr_fifo (regs s)). }
  unfold handle_interrupt_cmd_addr_fifo_not_empty, SpiDeviceHardware.interrupt_call.
  rewrite bool_decide_eq_false_2, Hcl by done. cbn [negb andb].
  unfold data_available. rewrite Hu. unfold enter. rewrite Ha, Hrx, Eg. cbn [snd].
  rewrite (proj2 (Nat.ltb_lt 0 _)) by lia. rewrite Hcb.
  rewrite !(app_nth1 pkt) by lia.
  assert ((if (1 <? length pkt)%nat then Some (nth 1 (pkt ++ drop (length pkt) rb) 0) else None) =
          (if (1 <? length pkt)%nat then Some (nth 1 pkt 0) else None)) as ->
    by (destruct (Nat.ltb_spec 1 (length pkt)); [by rewrite app_nth1|done]).
  unfold received, with_rx. rewrite Hcb.
  destruct (process_spi_cmd _ _ _ _ _) as [[mode|] s2]; cbn [default data_received_callback]; done.
Qed.

(** The decision of [process_spi_cmd] is [handler_of]. *)
Lemma process_handler app a pkt s1 : pkt ≠ [] →
  let '(mode, s2) := process_spi_cmd app a (nth 0 pkt 0) (if (1 <? length pkt)%nat then Some (nth 1 pkt 0) else None) s1 in
  match handler_of (address_mode_handling a) pkt with
  | ToUser => default HmUserSpace mode = HmUserSpace ∧ s2 = s1
  | Ignored => mode = Some HmDisabled ∧ s2 = s1
  | SetMode m =>
      let changed := bool_decide (SpiDeviceHardware.get_address_mode (device s1) ≠ m) in
      let d := if changed then SpiDeviceHardware.set_address_mode m (device s1) else device s1 in
      mode = Some HmKernelSpace ∧
      s2 = let s := set_device (SpiDeviceHardware.clear_busy d) s1 in
           if changed then schedule app (address_mode_changed_callback a) (address_mode_to_usize m) 0 0 s else s
  | WriteStatus v =>
      let d := if eeprom_wel_status (regs s1)
               then SpiDeviceHardware.clear_write_enable (SpiDeviceHardware.set_status v (device s1)) else device s1 in
      mode = Some HmKernelSpace ∧ s2 = set_device (SpiDeviceHardware.clear_busy d) s1
  end.
Proof.
  intros Hne. destruct pkt as [|cmd rest]; [done|]. cbn [nth handler_of length]. unfold process_spi_cmd.
  destruct (from_wire_value cmd : option OpCode) as [o|]; [|by destruct (address_mode_handling a), rest].
  destruct o; try (by destruct (address_mode_handling a), rest); destruct (address_mode_handling a); try done.
  all: destruct rest; done.
Qed.

Lemma set_get_mode m d : SpiDeviceHardware.get_address_mode
  (SpiDeviceHardware.clear_rx_interrupt (SpiDeviceHardware.clear_busy (SpiDeviceHardware.set_address_mode m d))) = m.
Proof.
  set (r := reg (SpiDeviceHardware.registers d) eeprom_ctrl). destruct m.
  - change ((if is_set ADDR_MODE (modify_clear ADDR_MODE r) then FourByte else ThreeByte) = ThreeByte).
    by rewrite read_modify_clear by by_compute.
  - change ((if is_set ADDR_MODE (modify_set ADDR_MODE r) then FourByte else ThreeByte) = FourByte).
    by rewrite read_modify_set by by_compute.
Qed.

End Port.

(** ** Theorems *)

(** C14: a packet of the host becomes a transaction of the application.  With a
    process connected to the port and a packet waiting, one run of the interrupt
    handler takes the oldest packet; unless the kernel handles it, the process gets
    exactly one callback, and when otpilot runs it, the port's transaction is the
    packet, byte for byte, with the busy and write-enable bits of the controller. *)
Theorem packet_reaches_application `{RegisterLaws} {Kn} `{SpiKernel Kn} (s : t) app a rb cb mcb pkt pkts
    (port : SpiDeviceImpl.t Kn) :
  connected s app a rb cb mcb → queue (regs s) (pkt :: pkts) →
  handler_of (address_mode_handling a) pkt = ToUser →
  SpiDeviceImpl.shared port = true → length (SpiDeviceImpl.read_buffer port) = SpiDeviceImpl.READ_BUFFER_SIZE →
  let s' := handle_interrupt_cmd_addr_fifo_not_empty s in
  ∃ rb' arg2 arg3,
    connected s' app (with_rx a rb') rb' cb mcb ∧ queue (regs s') pkts ∧
    upcalls s' = upcalls s ++ [mk_SpiUpcall app cb (Z.of_nat (length pkt)) arg2 arg3] ∧
    let port' := SpiDeviceImpl.data_received rb' (length pkt) arg2 arg3 port in
    SpiDeviceImpl.have_transaction port' = true ∧
    SpiDeviceImpl.get_read_buffer port' = (Ok pkt, port') ∧
    SpiDeviceImpl.is_busy_set port' = eeprom_busy_status (regs s) ∧
    SpiDeviceImpl.is_write_enable_set port' = eeprom_wel_status (regs s).
Proof.
  intros Hco Hq Hh Hsh Hpl s'. destruct (handle_interrupt_split s app a rb cb mcb pkt pkts Hco Hq)
    as (d & Hq' & Hle & Hne & Hcl & _ & Hs). destruct Hco as [_ Hu Ha Hrx Hlen Hcb Hmcb].
  pose proof (process_handler app (with_rx a (pkt ++ drop (length pkt) rb)) pkt
    (received s app a (pkt ++ drop (length pkt) rb) d) Hne) as Hp. cbn [with_rx address_mode_handling] in Hp. rewrite Hh in Hp.
  cbn zeta in Hs, Hp. destruct (process_spi_cmd _ _ _ _ _) as [mode s2]. destruct Hp as [Hm ->]. rewrite bool_decide_eq_true_2 in Hs by done.
  fold s' in Hs. exists (pkt ++ drop (length pkt) rb), (usize_of_bool (eeprom_busy_status (regs s))), (usize_of_bool (eeprom_wel_status (regs s))).
  rewrite Hs. assert (length (pkt ++ drop (length pkt) rb) = SpiDeviceImpl.READ_BUFFER_SIZE) as Hl'
    by (rewrite length_app, length_drop; lia).
  cbn zeta. split_and!.
  - split; try done. cbn. by rewrite decide_True.
  - exact Hq'.
  - done.
  - change (negb (length pkt =? 0)%nat = true). destruct pkt; [by destruct Hne|reflexivity].
  - unfold SpiDeviceImpl.get_read_buffer, SpiDeviceImpl.data_received. rewrite Hsh, Hpl. rewrite bind_unfold. unfold gets, id.
    cbn [SpiDeviceImpl.read_buffer SpiDeviceImpl.received_len].
    unfold slice. rewrite (proj2 (Nat.leb_le _ _)) by lia.
    rewrite (proj2 (Nat.leb_le _ _)) by (rewrite length_take, length_app, Hl'; lia). cbn [andb unwrap].
    rewrite drop_0, Nat.sub_0_r, take_take, Nat.min_l by lia.
    rewrite <-(assoc_L (++)), take_app_length. done.
  - cbn. by destruct (eeprom_busy_status (regs s)).
  - cbn. by destruct (eeprom_wel_status (regs s)).
Qed.

(** What the kernel handles itself.  When the packet switches the address mode
    and the process left that to the kernel, the controller is in the mode asked for
    afterwards, the busy bit is cleared, and the process is told of the mode when
    it changed and of nothing else; a status write of at least one byte sets the
    status exactly when writes are enabled, and clears the busy bit either way;
    and a mode switch that is not to be handled is dropped, with the busy
    bit left as it was. *)
Theorem kernel_handles_commands `{RegisterLaws} (s : t) app a rb cb mcb pkt pkts :
  connected s app a rb cb mcb → queue (regs s) (pkt :: pkts) →
  let s' := handle_interrupt_cmd_addr_fifo_not_empty s in
  let mode s := SpiDeviceHardware.get_address_mode (device s) in
  match handler_of (address_mode_handling a) pkt with
  | ToUser => True
  | SetMode m =>
      mode s' = m ∧ busy_clear (regs s') = true ∧
      upcalls s' = upcalls s ++ (if decide (mode s = m) then [] else [mk_SpiUpcall app mcb (address_mode_to_usize m) 0 0])
  | WriteStatus v =>
      upcalls s' = upcalls s ∧ busy_clear (regs s') = true ∧ mode s' = mode s ∧
      (if eeprom_wel_status (regs s) then reg (regs s') eeprom_status = v ∧ wel_clear (regs s') = true
       else reg (regs s') eeprom_status = reg (regs s) eeprom_status ∧ wel_clear (regs s') = wel_clear (regs s))
  | Ignored => upcalls s' = upcalls s ∧ mode s' = mode s ∧ busy_clear (regs s') = busy_clear (regs s)
  end ∧ queue (regs s') pkts.
Proof.
  intros Hco Hq s' mode. destruct (handle_interrupt_split s app a rb cb mcb pkt pkts Hco Hq)
    as (d & Hq' & Hle & Hne & Hcl & (q & fifo & Hregs) & Hs). destruct Hco as [_ Hu Ha Hrx Hlen Hcb Hmcb].
  pose proof (process_handler app (with_rx a (pkt ++ drop (length pkt) rb)) pkt
    (received s app a (pkt ++ drop (length pkt) rb) d) Hne) as Hp. cbn zeta in Hs, Hp.
  cbn [with_rx address_mode_handling] in Hp.
  destruct (process_spi_cmd _ _ _ _ _) as [md s2]. fold s' in Hs. rewrite Hs.
  assert (∀ m, mode s = m ↔ SpiDeviceHardware.get_address_mode d = m) as Hmode
    by (intros m; unfold mode, SpiDeviceHardware.get_address_mode; by rewrite Hregs).
  destruct (handler_of (address_mode_handling a) pkt) as [|m|v|]; destruct Hp as [Hm ->].
  - split; [done|]. by destruct (bool_decide _).
  - rewrite Hm. rewrite bool_decide_eq_false_2 by done. cbn [received set_app set_device device] in *.
    destruct (decide (mode s = m)) as [E|E].
    + rewrite bool_decide_eq_false_2 by (intros Hn; by apply Hn, Hmode). split; [|exact Hq'].
      split_and!; [by apply Hmode|done|by rewrite app_nil_r].
    + rewrite bool_decide_eq_true_2 by (intros Hn; by apply E, Hmode). split; [|exact Hq'].
      split_and!; [|done|cbn [schedule with_rx address_mode_changed_callback]; by rewrite Hmcb].
      apply set_get_mode.
  - rewrite Hm. rewrite bool_decide_eq_false_2 by done. cbn [received set_app set_device device] in *. rewrite Hregs.
    change (eeprom_wel_status (set_reg _ _ _)) with (eeprom_wel_status (regs s)).
    destruct (eeprom_wel_status (regs s)); (split; [|exact Hq']); (split_and!; [done|done|..]); cbn; rewrite ?Hregs; try done.
    all: unfold mode, SpiDeviceHardware.get_address_mode; cbn; by rewrite Hregs.
  - rewrite Hm. rewrite bool_decide_eq_false_2 by done. split; [|exact Hq'].
    split_and!; [done|by apply Hmode|cbn; by rewrite Hregs].
Qed.

(** ** The way back: system calls of the application *)

(** libtock's view of a return code: a value, or an error. *)
Definition tock_value (rc : ReturnCode) : option Z :=
  match rc with SUCCESS => Some 0 | SuccessWithValue v => Some v | _ => None end.

(** The system-call driver as the kernel of the application's port, for process
    [app]; [cb] is the userdata its callbacks are subscribed with. *)
#[local] Instance capsule_kernel `{RegisterInterface} (app : AppId) (cb : nat) : SpiKernel t := {|
  spi_command num arg1 arg2 s := let '(rc, s) := command num arg1 arg2 app s in (tock_value rc, s);
  spi_allow num buffer s := let '(rc, s) := allow app num (Some buffer) s in (bool_decide (is_Some (tock_value rc)), s);
  spi_subscribe num s := let '(rc, s) := subscribe num (Some cb) app s in (bool_decide (is_Some (tock_value rc)), s)
|}.

Section Back.
Context `{RegisterLaws} (app : AppId) (cb : nat).
Abbreviation port := (SpiDeviceImpl.t SpiDeviceSyscall.t).
Abbreviation pregs p := (regs (SpiDeviceImpl.kernel p)).

Lemma config_wire c : valid c →
  ∃ cursor : Cursor.t, address_config_to_wire c (Cursor.new (replicate ADDRESS_CONFIG_LEN 0)) = (Ok tt, cursor) ∧
            fst (address_config_from_wire (Cursor.buf cursor)) = Ok c.
Proof.
  intros Hv. destruct (to_wire_emits _ c Hv (Cursor.new (replicate ADDRESS_CONFIG_LEN 0))) as [He _].
  { split; simpl; lia. }
  destruct He as (w' & E & _ & Hout & _); [destruct c; by cbn|]. exists w'. split; [exact E|].
  destruct (from_wire_parses (list Z) c Hv (Cursor.buf w') (drop (Cursor.cursor w') (Cursor.buf w'))) as (r' & Er & _).
  - cbn [rd_view slice_ReadLaws]. unfold id. transitivity (Cursor.consumed_bytes w' ++ drop (Cursor.cursor w') (Cursor.buf w')).
    + unfold Cursor.consumed_bytes. by rewrite take_drop.
    + f_equal. exact Hout.
  - change (address_config_from_wire (Cursor.buf w')) with (from_wire AddressConfig (Cursor.buf w')). by rewrite Er.
Qed.

(** Sharing a transmit buffer of a process that has a grant. *)
Lemma allow_tx (p : port) a buf : apps (SpiDeviceImpl.kernel p) app = Some a →
  ∃ s', SpiDeviceImpl.allow (H := capsule_kernel app cb) SpiDeviceImpl.WRITE_BUFFER buf p = (Ok tt, SpiDeviceImpl.set_kernel s' p) ∧
        (∃ a', apps s' app = Some a' ∧ tx_buffer a' = Some buf) ∧ device s' = device (SpiDeviceImpl.kernel p).
Proof.
  intros Ha. unfold SpiDeviceImpl.allow. cbn [spi_allow capsule_kernel]. unfold allow, SpiDeviceImpl.WRITE_BUFFER. cbn [Z.eqb].
  unfold enter. rewrite Ha. cbn [tock_value]. rewrite bool_decide_eq_true_2 by (by eexists).
  eexists. split_and!; [done| |done]. cbn. rewrite decide_True by done. by eexists.
Qed.

Lemma send_command (p : port) a data (b w : bool) : apps (SpiDeviceImpl.kernel p) app = Some a → tx_buffer a = Some data →
  let d := device (SpiDeviceImpl.kernel p) in
  let '(rc, d1) := SpiDeviceHardware.put_send_data data d in
  ∃ p', SpiDeviceImpl.command (H := capsule_kernel app cb) SpiDeviceImpl.SEND_DATA (if b then 1 else 0) (if w then 1 else 0) p =
          (if is_failure rc then Err mk_TockError else Ok 0, p') ∧
        SpiDeviceImpl.received_len p' = SpiDeviceImpl.received_len p ∧
        device (SpiDeviceImpl.kernel p') = if is_failure rc then d1 else clear_bits b w d1.
Proof.
  intros Ha Htx d. destruct (SpiDeviceHardware.put_send_data data d) as [rc d1] eqn:Ep.
  unfold SpiDeviceImpl.command. cbn [spi_command capsule_kernel]. unfold command, SpiDeviceImpl.SEND_DATA. cbn [Z.eqb Pos.eqb].
  assert (∀ s0 : SpiDeviceSyscall.t, apps s0 app = Some a → device s0 = d →
    send_data app b w s0 = if is_failure rc then (rc, set_device d1 s0) else (SUCCESS, set_device (clear_bits b w d1) s0)) as Hsend.
  { intros s0 Ha0 Hd0. unfold send_data, enter. rewrite Ha0, Htx, Hd0, Ep. done. }
  replace (negb ((if b then 1 else 0) =? 0)) with b by (by destruct b).
  replace (negb ((if w then 1 else 0) =? 0)) with w by (by destruct w).
  assert (is_failure rc = true → tock_value rc = None) as Hf by (by destruct rc).
  destruct (current_user (SpiDeviceImpl.kernel p)); rewrite Hsend by done;
    (destruct (is_failure rc); [rewrite Hf by done|]); by eexists.
Qed.

Lemma config_command (p : port) a buf c : apps (SpiDeviceImpl.kernel p) app = Some a → tx_buffer a = Some buf →
  fst (address_config_from_wire buf) = Ok c →
  ∃ s', SpiDeviceImpl.command (H := capsule_kernel app cb) SpiDeviceImpl.CONFIGURE_ADDRESSES 0 0 p = (Ok 0, SpiDeviceImpl.set_kernel s' p) ∧
        apps s' = apps (SpiDeviceImpl.kernel p) ∧
        device s' = SpiDeviceHardware.configure_addresses c (device (SpiDeviceImpl.kernel p)).
Proof.
  intros Ha Htx Hc. unfold SpiDeviceImpl.command. cbn [spi_command capsule_kernel]. unfold command, SpiDeviceImpl.CONFIGURE_ADDRESSES.
  cbn [Z.eqb Pos.eqb]. unfold configure_addresses, with_tx, enter.
  destruct (current_user (SpiDeviceImpl.kernel p)); cbn [apps]; rewrite Ha, Htx, Hc; by eexists.
Qed.

Lemma configure_ok (p : port) a c : apps (SpiDeviceImpl.kernel p) app = Some a → valid c →
  ∃ s', SpiDeviceImpl.configure_addresses (H := capsule_kernel app cb) c p = (Ok tt, SpiDeviceImpl.set_kernel s' p) ∧
        is_Some (apps s' app) ∧
        device s' = SpiDeviceHardware.configure_addresses c (device (SpiDeviceImpl.kernel p)).
Proof.
  intros Ha Hv. destruct (config_wire c Hv) as (cursor & Ew & Ec). unfold SpiDeviceImpl.configure_addresses. rewrite Ew.
  destruct (allow_tx p a (Cursor.buf cursor) Ha) as (s1 & E1 & (a1 & Ha1 & Htx) & Hd1).
  destruct (config_command (SpiDeviceImpl.set_kernel s1 p) a1 (Cursor.buf cursor) c Ha1 Htx Ec) as (s2 & E2 & Ha2 & Hd2).
  exists s2. split_and!.
  - rewrite (bind_ok _ _ _ _ _ E1), (bind_ok _ _ _ _ _ E2). done.
  - rewrite Ha2. cbn. by rewrite Ha1.
  - rewrite Hd2. cbn. by rewrite Hd1.
Qed.

Lemma end_with_data (p : port) a data (b w : bool) : apps (SpiDeviceImpl.kernel p) app = Some a →
  let '(rc, d1) := SpiDeviceHardware.put_send_data data (device (SpiDeviceImpl.kernel p)) in
  ∃ p', SpiDeviceImpl.end_transaction_with_data (H := capsule_kernel app cb) data b w p =
          (if is_failure rc then Err mk_TockError else Ok tt, p') ∧ SpiDeviceImpl.have_transaction p' = false ∧
        device (SpiDeviceImpl.kernel p') = if is_failure rc then d1 else clear_bits b w d1.
Proof.
  intros Ha. destruct (allow_tx (SpiDeviceImpl.clear_transaction p) a data Ha) as (s1 & E1 & (a1 & Ha1 & Htx) & Hd1).
  pose proof (send_command (SpiDeviceImpl.set_kernel s1 (SpiDeviceImpl.clear_transaction p)) a1 data b w Ha1 Htx) as Hs.
  cbn [SpiDeviceImpl.kernel SpiDeviceImpl.set_kernel] in Hs. rewrite Hd1 in Hs. cbn [SpiDeviceImpl.kernel SpiDeviceImpl.clear_transaction] in Hs.
  destruct (SpiDeviceHardware.put_send_data data _) as [rc d1]. destruct Hs as (p' & E2 & Hl & Hd).
  exists p'. split_and!; [|unfold SpiDeviceImpl.have_transaction; by rewrite Hl|done].
  unfold SpiDeviceImpl.end_transaction_with_data. rewrite bind_unfold. unfold modify at 1.
  rewrite (bind_ok _ _ _ _ _ E1), bind_unfold, E2. by destruct (is_failure rc).
Qed.

End Back.

(** C15: an answer of the application reaches the host.  After otpilot has configured
    the addresses with a page-aligned mailbox, ending a transaction with data closes
    it; data of at most 2048 bytes is then what the host reads at the mailbox, with
    0xff behind it and nothing elsewhere, and the busy and write-enable bits are
    cleared as asked; longer data fails, and leaves the busy bit as it was. *)
Theorem answer_reaches_host `{RegisterLaws} (app : AppId) (cb : nat) (p : SpiDeviceImpl.t SpiDeviceSyscall.t) a
    (c : AddressConfig) (data : list Z) (b w : bool) :
  apps (SpiDeviceImpl.kernel p) app = Some a → wf (regs (SpiDeviceImpl.kernel p)) → valid c →
  ram_virtual_base c mod 512 = 0 → ram_virtual_base c + 2048 < 2 ^ 32 →
  ∃ p1, SpiDeviceImpl.configure_addresses (H := capsule_kernel app cb) c p = (Ok tt, p1) ∧
    let '(r, p2) := SpiDeviceImpl.end_transaction_with_data (H := capsule_kernel app cb) data b w p1 in
    let before := regs (SpiDeviceImpl.kernel p) in let after := regs (SpiDeviceImpl.kernel p2) in
    SpiDeviceImpl.have_transaction p2 = false ∧
    if decide (length data <= 2048)%nat then
      r = Ok tt ∧ is_set RAM_DIS (reg after eeprom_ctrl) = false ∧ reads_back (ram_virtual_base c) data after ∧
      busy_clear after = b || busy_clear before ∧ wel_clear after = w || wel_clear before
    else r = Err mk_TockError ∧ busy_clear after = busy_clear before.
Proof.
  intros Ha Hwf Hv Hal Hb. destruct (configure_ok app cb p a c Ha Hv) as (s1 & E1 & [a1 Ha1] & Hd1).
  eexists. split; [exact E1|].
  pose proof (end_with_data app cb (SpiDeviceImpl.set_kernel s1 p) a1 data b w Ha1) as He.
  cbn [SpiDeviceImpl.kernel SpiDeviceImpl.set_kernel] in He. rewrite Hd1 in He.
  destruct (configure_pages c (device (SpiDeviceImpl.kernel p)) Hwf) as (Hpages & Hram & Hdis & _).
  destruct (put_reads_back (ram_virtual_base c)
    (SpiDeviceHardware.configure_addresses c (device (SpiDeviceImpl.kernel p))) data) as [Hput Hread].
  { rewrite Hram. apply Hwf. }
  { destruct Hv as (_ & _ & _ & [Hv _] & _). split_and!; try done. }
  rewrite Hput in He. destruct (decide (length data <= 2048)%nat) as [Hl|Hl]; cbn [is_failure] in He;
    destruct He as (p2 & -> & Hh & Hd); cbn zeta; rewrite Hd; (split; [exact Hh|]).
  - specialize (Hread Hl). destruct b, w; (split_and!; [done|exact Hdis|exact Hread|done|done]).
  - done.
Qed.

(** ** Concrete ports *)

Definition sample_app (h : HandlerMode) : SpiAppData :=
  mk_SpiAppData None (Some (replicate SpiDeviceImpl.READ_BUFFER_SIZE 0)) (Some 1%nat) h (Some 2%nat).
Definition sample_capsule (h : HandlerMode) (pkt : list Z) : t :=
  mk (SpiDeviceHardware.mk (host_send pkt true true blank_registers) true papa_config)
     (λ i, if decide (i = 0%nat) then Some (sample_app h) else None) (Some 0%nat) [].
Definition sample_read_buffer : list Z := replicate SpiDeviceImpl.READ_BUFFER_SIZE 0.

Lemma sample_connected h pkt : connected (sample_capsule h pkt) 0%nat (sample_app h) sample_read_buffer 1%nat 2%nat.
Proof. by split. Qed.

Lemma sample_queue h pkt : pkt ≠ [] → (length pkt <= BUF)%nat → queue (regs (sample_capsule h pkt)) [pkt].
Proof. intros Hne Hl. apply (queue_send blank_registers [] pkt true true blank_queue); [done|]. unfold total. simpl. lia. Qed.

Definition sample_program : list Z := [0x02; 0x00; 0x10; 0x00; 0xAB].

Lemma packet_reaches_application_witness :
  let s' := @handle_interrupt_cmd_addr_fifo_not_empty TockBits.interface (sample_capsule HmKernelSpace sample_program) in
  ∃ rb' arg2 arg3,
    connected s' 0%nat (with_rx (sample_app HmKernelSpace) rb') rb' 1%nat 2%nat ∧ queue (regs s') [] ∧
    upcalls s' = [] ++ [mk_SpiUpcall 0%nat 1%nat (Z.of_nat (length sample_program)) arg2 arg3] ∧
    let port' := SpiDeviceImpl.data_received rb' (length sample_program) arg2 arg3 SpiDeviceFacts.sample_port in
    SpiDeviceImpl.have_transaction port' = true ∧
    SpiDeviceImpl.get_read_buffer port' = (Ok sample_program, port') ∧
    SpiDeviceImpl.is_busy_set port' = true ∧ SpiDeviceImpl.is_write_enable_set port' = true.
Proof.
  apply (@packet_reaches_application TockBits.interface TockBits.laws unit SpiDeviceFacts.deaf_kernel (sample_capsule HmKernelSpace sample_program) 0%nat
           (sample_app HmKernelSpace) sample_read_buffer 1%nat 2%nat sample_program [] SpiDeviceFacts.sample_port).
  - apply sample_connected.
  - apply sample_queue; by_compute.
  - reflexivity.
  - reflexivity.
  - by_compute.
Defined.

Lemma kernel_handles_commands_witness :
  let s := sample_capsule HmKernelSpace [0xB7] in
  let s' := @handle_interrupt_cmd_addr_fifo_not_empty TockBits.interface s in
  (@SpiDeviceHardware.get_address_mode TockBits.interface (device s') = FourByte ∧ busy_clear (regs s') = true ∧
   upcalls s' = [] ++ [mk_SpiUpcall 0%nat 2%nat 1 0 0]) ∧ queue (regs s') [].
Proof.
  apply (@kernel_handles_commands TockBits.interface TockBits.laws (sample_capsule HmKernelSpace [0xB7]) 0%nat
           (sample_app HmKernelSpace) sample_read_buffer 1%nat 2%nat [0xB7] []).
  - apply sample_connected.
  - apply sample_queue; by_compute.
Defined.

Definition sample_kernel_port : SpiDeviceImpl.t SpiDeviceSyscall.t :=
  SpiDeviceImpl.initial (new (SpiDeviceHardware.new blank_registers) (λ _, Some SpiAppData_default)).

Lemma answer_reaches_host_witness :
  ∃ p1, SpiDeviceImpl.configure_addresses (H := @capsule_kernel TockBits.interface 0%nat 1%nat) mailbox_config sample_kernel_port = (Ok tt, p1) ∧
    let '(r, p2) := SpiDeviceImpl.end_transaction_with_data (H := @capsule_kernel TockBits.interface 0%nat 1%nat) [1; 2; 3] true true p1 in
    let before := regs (SpiDeviceImpl.kernel sample_kernel_port) in let after := regs (SpiDeviceImpl.kernel p2) in
    SpiDeviceImpl.have_transaction p2 = false ∧
    if decide (length [1; 2; 3] <= 2048)%nat then
      r = Ok tt ∧ @is_set TockBits.interface RAM_DIS (reg after eeprom_ctrl) = false ∧
      @reads_back TockBits.interface (ram_virtual_base mailbox_config) [1; 2; 3] after ∧
      busy_clear after = true || busy_clear before ∧ wel_clear after = true || wel_clear before
    else r = Err mk_TockError ∧ busy_clear after = busy_clear before.
Proof.
  apply (@answer_reaches_host TockBits.interface TockBits.laws 0%nat 1%nat sample_kernel_port SpiAppData_default mailbox_config [1; 2; 3] true true).
  - reflexivity.
  - exact blank_wf.
  - cbn. split_and!; by_compute.
  - reflexivity.
  - by_compute.
Defined.
