(* ===== verification/UsbTypes.v ===== *)
(** The data of the USB stack (kernel/h1/src/usb/constants.rs, types.rs and
    serialize.rs): descriptors and their encodings into byte and word buffers,
    and the setup requests of the host.

    A write outside a buffer panics: the encoders return [None].  Records have the
    fields of the source; sixteen-bit fields are encoded low byte first. *)

From S2P Require Import Prelude Io Tock Registers.
From Stdlib Require Import ZArith Lia.
From stdpp Require Import base decidable option list list_numbers.

#[local] Open Scope Z_scope.

(** ** constants.rs *)

Definition STRING_LANG : Z := 0.
Definition STRING_VENDOR : Z := 1.
Definition STRING_BOARD : Z := 2.
Definition STRING_PLATFORM : Z := 3.
Definition STRING_INTERFACE1 : Z := 4.
Definition STRING_BLAH : Z := 5.
Definition STRING_INTERFACE2 : Z := 6.

Definition MAX_CONTROL_ENDPOINTS : Z := 3.
Definition MAX_NORMAL_ENDPOINTS : Z := 16.
Definition MAX_PACKET_SIZE : Z := 64.
Definition U2F_REPORT_SIZE : Z := 64.
Definition EP_BUFFER_SIZE_BYTES : nat := Z.to_nat MAX_PACKET_SIZE.
Definition EP_BUFFER_SIZE_WORDS : nat := EP_BUFFER_SIZE_BYTES / 4.
Definition RX_FIFO_SIZE : Z :=
  (4 * MAX_CONTROL_ENDPOINTS + 6) + (2 * (MAX_PACKET_SIZE / 4 + 1)) + (2 * MAX_NORMAL_ENDPOINTS) + 1.
Definition TX_FIFO_SIZE : Z := 2 * MAX_PACKET_SIZE / 4.

Inductive Descriptor :=
| Device | Configuration | String | Interface | Endpoint | DeviceQualifier | HidDevice | Report | Unknown.

#[global] Instance Descriptor_eq_dec : EqDecision Descriptor.
Proof. solve_decision. Defined.

(** [d as u8] *)
Definition descriptor_u8 (d : Descriptor) : Z :=
  match d with
  | Device => 0x01 | Configuration => 0x02 | String => 0x03 | Interface => 0x04 | Endpoint => 0x05
  | DeviceQualifier => 0x06 | HidDevice => 0x21 | Report => 0x22 | Unknown => 0xFF
  end.

Definition from_u8 (t : Z) : Descriptor :=
  if t =? 0x01 then Device
  else if t =? 0x02 then Configuration
  else if t =? 0x03 then String
  else if t =? 0x04 then Interface
  else if t =? 0x05 then Endpoint
  else if t =? 0x06 then Endpoint
  else if t =? 0x21 then HidDevice
  else if t =? 0x22 then Report
  else Unknown.

Definition GET_DESCRIPTOR_DEVICE : Z := 1.
Definition GET_DESCRIPTOR_CONFIGURATION : Z := 2.
Definition GET_DESCRIPTOR_STRING : Z := 3.
Definition GET_DESCRIPTOR_INTERFACE : Z := 4.
Definition GET_DESCRIPTOR_DEVICE_QUALIFIER : Z := 6.

Definition U2F_REPORT_DESCRIPTOR : list Z :=
  [0x06; 0xD0; 0xF1; 0x09; 0x01; 0xA1; 0x01; 0x09; 0x20; 0x15; 0x00; 0x26; 0xFF; 0x00; 0x75; 0x08; 0x95; 0x40;
   0x81; 0x02; 0x09; 0x21; 0x15; 0x00; 0x26; 0xFF; 0x00; 0x75; 0x08; 0x95; 0x40; 0x91; 0x02; 0xC0].

(** ** serialize.rs *)

(** [serialize] of an object whose memory is the bytes [obj], with [beyond] the
    memory behind it.  The element type of the copy is that of the destination, so
    [length] words are copied, not bytes; [None] when they do not fit. *)
Definition source_byte (obj : list Z) (beyond : nat → Z) (i : nat) : Z :=
  match obj !! i with Some b => b | None => wrap 8 (beyond (i - length obj)%nat) end.

Definition source_word (obj : list Z) (beyond : nat → Z) (k : nat) : Z :=
  le_value (source_byte obj beyond <$> seq (4 * k) 4).

Definition serialize (obj : list Z) (beyond : nat → Z) (buffer : list Z) : option (nat * list Z) :=
  let len := (length buffer * 4)%nat in
  let length_ := if (len <? length obj)%nat then len else length obj in
  if (length_ <=? length buffer)%nat
  then Some (length_, (source_word obj beyond <$> seq 0 length_) ++ drop length_ buffer)
  else None.

(** ** types.rs: descriptors *)

Record DeviceDescriptor := mk_DeviceDescriptor {
  dd_length : Z; dd_descriptor_type : Z; dd_usb : Z; dd_device_class : Z; dd_device_sub_class : Z;
  dd_device_protocol : Z; dd_max_packet_size0 : Z; dd_vendor : Z; dd_product : Z; dd_device : Z;
  dd_manufacturer : Z; dd_i_product : Z; dd_serial_number : Z; dd_num_configurations : Z
}.

(** Its memory under [repr(C)]: the sixteen-bit fields fall on even offsets. *)
Definition device_descriptor_memory (d : DeviceDescriptor) : list Z :=
  [dd_length d; dd_descriptor_type d] ++ le_bytes 2 (dd_usb d) ++
  [dd_device_class d; dd_device_sub_class d; dd_device_protocol d; dd_max_packet_size0 d] ++
  le_bytes 2 (dd_vendor d) ++ le_bytes 2 (dd_product d) ++ le_bytes 2 (dd_device d) ++
  [dd_manufacturer d; dd_i_product d; dd_serial_number d; dd_num_configurations d].

(** [buf[0] = ..; buf[1] = ..; ..] *)
Definition put_front (vs buf : list Z) : option (list Z) :=
  if (length vs <=? length buf)%nat then Some (vs ++ drop (length vs) buf) else None.

(** [x as u8] and [(x >> 8) as u8] *)
Definition low (x : Z) : Z := Z.land x 0xff.
Definition high (x : Z) : Z := Z.land (Z.shiftr x 8) 0xff.

(** [a << 0 | b << 8 | c << 16 | d << 24] *)
Definition pack (a b c d : Z) : Z :=
  Z.lor (Z.lor (Z.lor (Z.shiftl a 0) (Z.shiftl b 8)) (Z.shiftl c 16)) (Z.shiftl d 24).

Module ConfigurationDescriptor.
Record t := mk {
  b_length : Z; b_descriptor_type : Z; w_total_length : Z; b_num_interfaces : Z; b_configuration_value : Z;
  i_configuration : Z; bm_attributes : Z; b_max_power : Z
}.
Definition LENGTH : Z := 9.
Definition new (num_interfaces i_configuration b_max_power : Z) : t :=
  mk LENGTH (descriptor_u8 Configuration) LENGTH num_interfaces 1 i_configuration 0x80 b_max_power.
Definition into_u32_buf (self : t) (buf : list Z) : option (nat * list Z) :=
  b ← put_front [Z.lor (Z.lor (Z.shiftl (b_length self) 0) (Z.shiftl (b_descriptor_type self) 8))
                   (Z.shiftl (w_total_length self) 16);
                 pack (b_num_interfaces self) (b_configuration_value self) (i_configuration self) (bm_attributes self);
                 Z.shiftl (b_max_power self) 0] buf;
  Some (Z.to_nat LENGTH, b).
Definition into_u8_buf (self : t) (buf : list Z) : option (nat * list Z) :=
  b ← put_front [b_length self; b_descriptor_type self; low (w_total_length self); high (w_total_length self);
                 b_num_interfaces self; b_configuration_value self; i_configuration self; bm_attributes self;
                 b_max_power self] buf;
  Some (Z.to_nat LENGTH, b).
Definition set_total_length (len : Z) (self : t) : t :=
  mk (b_length self) (b_descriptor_type self) len (b_num_interfaces self) (b_configuration_value self)
    (i_configuration self) (bm_attributes self) (b_max_power self).
Definition get_total_length (self : t) : Z := w_total_length self.
Definition length (self : t) : nat := Z.to_nat LENGTH.
End ConfigurationDescriptor.

Module StringDescriptor.
Record t := mk { b_length : Z; b_descriptor_type : Z; b_string : list Z }.
Definition new (str : list Z) : t :=
  mk (wrap 8 (Z.of_nat (length str) * 2 + 2)) (descriptor_u8 String) str.

(** The loop over the characters from index [i] on. *)
Fixpoint chars (i : nat) (cs : list Z) (buf : list Z) : option (list Z) :=
  match cs with
  | [] => Some buf
  | c :: cs' =>
      if (i mod 2 =? 1)%nat then
        if (i / 2 + 1 <? length buf)%nat then chars (S i) cs' (<[(i / 2 + 1)%nat := c]> buf) else None
      else
        match buf !! (i / 2)%nat with
        | Some w => chars (S i) cs' (<[(i / 2)%nat := Z.lor w (Z.shiftl c 16)]> buf)
        | None => None
        end
  end.

Definition into_u32_buf (self : t) (buf : list Z) : option (nat * list Z) :=
  let first := Z.lor (Z.shiftl (b_length self) 0) (Z.shiftl (b_descriptor_type self) 8) in
  match b_string self with
  | [] => b ← put_front [first] buf; Some (2%nat, b)
  | c :: cs =>
      b ← put_front [Z.lor first (Z.shiftl c 16)] buf;
      b ← chars 1 cs b;
      Some ((2 + 2 * length (b_string self))%nat, b)
  end.
Definition length (self : t) : nat := Z.to_nat (b_length self).
End StringDescriptor.

Module InterfaceDescriptor.
Record t := mk {
  b_length : Z; b_descriptor_type : Z; b_interface_number : Z; b_alternate_setting : Z; b_num_endpoints : Z;
  b_interface_class : Z; b_interface_sub_class : Z; b_interface_protocol : Z; i_interface : Z
}.
Definition new (interface_string which class sub_class protocol : Z) : t :=
  mk 9 4 which 0 2 class sub_class protocol interface_string.
Definition into_u32_buf (self : t) (buf : list Z) : option (nat * list Z) :=
  b ← put_front [pack (b_length self) (b_descriptor_type self) (b_interface_number self) (b_alternate_setting self);
                 pack (b_num_endpoints self) (b_interface_class self) (b_interface_sub_class self)
                   (b_interface_protocol self);
                 Z.shiftl (i_interface self) 0] buf;
  Some (9%nat, b).
Definition into_u8_buf (self : t) (buf : list Z) : option (nat * list Z) :=
  b ← put_front [b_length self; b_descriptor_type self; b_interface_number self; b_alternate_setting self;
                 b_num_endpoints self; b_interface_class self; b_interface_sub_class self;
                 b_interface_protocol self; i_interface self] buf;
  Some (9%nat, b).
Definition length (self : t) : nat := 9.
End InterfaceDescriptor.

Inductive EndpointTransferType := Control | Isochronous | Bulk | Interrupt.
Inductive EndpointSynchronizationType := NoSync | Asynchronous | Adaptive | Synchronous.
Inductive EndpointUsageType := Data | Feedback | ExplicitFeedback | UsageReserved.

Definition transfer_u8 (x : EndpointTransferType) : Z :=
  match x with Control => 0 | Isochronous => 1 | Bulk => 2 | Interrupt => 3 end.
Definition sync_u8 (x : EndpointSynchronizationType) : Z :=
  match x with NoSync => 0 | Asynchronous => 1 | Adaptive => 2 | Synchronous => 3 end.
Definition usage_u8 (x : EndpointUsageType) : Z :=
  match x with Data => 0 | Feedback => 1 | ExplicitFeedback => 2 | UsageReserved => 3 end.

Record EndpointAttributes := mk_EndpointAttributes {
  transfer : EndpointTransferType; synchronization : EndpointSynchronizationType; usage : EndpointUsageType
}.

(** [Into<u8>] and [From<u8>] *)
Definition attributes_into (a : EndpointAttributes) : Z :=
  match transfer a with
  | Isochronous => transfer_u8 (transfer a)
  | _ => Z.lor (Z.lor (transfer_u8 (transfer a)) (Z.shiftl (sync_u8 (synchronization a)) 2))
           (Z.shiftl (usage_u8 (usage a)) 4)
  end.

Definition attributes_from (val : Z) : EndpointAttributes :=
  mk_EndpointAttributes
    (let v := Z.land val 3 in
     if v =? 0 then Control else if v =? 1 then Isochronous else if v =? 2 then Bulk else if v =? 3 then Interrupt
     else Control)
    (let v := Z.land (Z.shiftr val 2) 3 in
     if v =? 0 then NoSync else if v =? 1 then Asynchronous else if v =? 2 then Adaptive
     else if v =? 3 then Synchronous else NoSync)
    (let v := Z.land (Z.shiftr val 4) 3 in
     if v =? 0 then Data else if v =? 1 then Feedback else if v =? 2 then ExplicitFeedback else UsageReserved).

Module EndpointDescriptor.
Record t := mk {
  b_length : Z; b_descriptor_type : Z; b_endpoint_address : Z; bm_attributes : Z; w_max_packet_size : Z;
  b_interval : Z
}.
Definition new (address : Z) (attributes : EndpointAttributes) (interval : Z) : t :=
  mk 7 (descriptor_u8 Interface) address (attributes_into attributes) MAX_PACKET_SIZE interval.
Definition into_u8_buf (self : t) (buf : list Z) : option (nat * list Z) :=
  b ← put_front [7; descriptor_u8 Endpoint; b_endpoint_address self; bm_attributes self;
                 low (w_max_packet_size self); high (w_max_packet_size self); b_interval self] buf;
  Some (7%nat, b).
Definition length (self : t) : nat := 7.
End EndpointDescriptor.

Module HidDeviceDescriptor.
Record t := mk {
  b_length : Z; b_descriptor_type : Z; w_release : Z; b_country : Z; b_descriptors : Z;
  b_sub_descriptor_type : Z; w_sub_descriptor_length : Z
}.
Definition new : t := mk 9 (descriptor_u8 HidDevice) 0x0100 0 1 34 34.
Definition into_u8_buf (self : t) (buf : list Z) : option (nat * list Z) :=
  b ← put_front [b_length self; b_descriptor_type self; low (w_release self); high (w_release self);
                 b_country self; b_descriptors self; b_sub_descriptor_type self;
                 low (w_sub_descriptor_length self); high (w_sub_descriptor_length self)] buf;
  Some (9%nat, b).
Definition length (self : t) : nat := 9.
End HidDeviceDescriptor.

(** ** types.rs: setup requests *)

Inductive SetupRequestType :=
| GetStatus | ClearFeature | ReqReserved | SetFeature | SetAddress | GetDescriptor | SetDescriptor
| GetConfiguration | SetConfiguration | GetInterface | SetInterface | SynchFrame | Undefined.
Inductive SetupClassRequestType := ClassUndefined | SetIdle.
Inductive SetupDirection := HostToDevice | DeviceToHost.
Inductive SetupRequestClass := Standard | Class_ | Vendor | ClassReserved.
Inductive SetupRecipient := ToDevice | ToInterface | ToEndpoint | ToOther | ToReserved.

Record SetupRequest := mk_SetupRequest {
  bm_request_type : Z; b_request : Z; w_value : Z; w_index : Z; w_length : Z
}.

(** [SetupRequest::new]: [None] when the buffer has fewer than two words. *)
Definition setup_new (buf : list Z) : option SetupRequest :=
  match buf with
  | w0 :: w1 :: _ =>
      Some (mk_SetupRequest (Z.land w0 0xff) (Z.shiftr (Z.land w0 0x0000ff00) 8) (Z.shiftr (Z.land w0 0xffff0000) 16)
              (Z.land w1 0x0000ffff) (Z.shiftr (Z.land w1 0xffff0000) 16))
  | _ => None
  end.

(** [SetupRequest::parse] overwrites all fields. *)
Definition setup_parse (buf : list Z) (req : SetupRequest) : option SetupRequest := setup_new buf.

Definition data_direction (r : SetupRequest) : SetupDirection :=
  if Z.shiftr (Z.land (bm_request_type r) 0x80) 7 =? 0 then HostToDevice else DeviceToHost.
Definition req_type (r : SetupRequest) : SetupRequestClass :=
  let v := Z.shiftr (Z.land (bm_request_type r) 0x60) 5 in
  if v =? 0 then Standard else if v =? 1 then Class_ else if v =? 2 then Vendor else ClassReserved.
Definition recipient (r : SetupRequest) : SetupRecipient :=
  let v := Z.land (bm_request_type r) 0x1f in
  if v =? 0 then ToDevice else if v =? 1 then ToInterface else if v =? 2 then ToEndpoint
  else if v =? 3 then ToOther else ToReserved.
Definition class_request (r : SetupRequest) : SetupClassRequestType :=
  if b_request r =? 10 then SetIdle else ClassUndefined.
Definition request (r : SetupRequest) : SetupRequestType :=
  match b_request r with
  | 0 => GetStatus | 1 => ClearFeature | 2 => ReqReserved | 3 => SetFeature | 4 => ReqReserved
  | 5 => SetAddress | 6 => GetDescriptor | 7 => SetDescriptor | 8 => GetConfiguration | 9 => SetConfiguration
  | 10 => GetInterface | 11 => SetInterface | 12 => SynchFrame | _ => Undefined
  end.

Record U2fHidCommandFrame := mk_U2fHidCommandFrame {
  channel_id : Z; command_ : Z; bcount_high : Z; bcount_low : Z; frame_data : list Z
}.
Definition command_frame_into_u32_buf (self : U2fHidCommandFrame) (buf : list Z) : option (list Z) :=
  d0 ← frame_data self !! 0%nat;
  put_front [channel_id self; pack (command_ self) (bcount_high self) (bcount_low self) d0] buf.

(** ** Facts about the encodings *)

(** Or-ing shifted bytes is the little-endian value. *)
Lemma pack_value a b c d : bytes_ok [a; b; c; d] → pack a b c d = le_value [a; b; c; d].
Proof.
  intros (Ha & (Hb & (Hc & (Hd & _)%Forall_cons)%Forall_cons)%Forall_cons)%Forall_cons.
  unfold pack, fits in *. rewrite Z.shiftl_0_r.
  rewrite (lor_disjoint_add a), (lor_disjoint_add (a + _)), (lor_disjoint_add (a + _ + _)) by lia. cbn [le_value]. lia.
Qed.

Lemma le_bytes_pack a b c d : bytes_ok [a; b; c; d] → le_bytes 4 (pack a b c d) = [a; b; c; d].
Proof.
  intros Hb. rewrite pack_value by done. change 4%nat with (length [a; b; c; d]). by apply le_bytes_value.
Qed.

Lemma le_bytes_2_low_high x : le_bytes 2 x = [low x; high x].
Proof.
  unfold low, high. change 0xff with (Z.ones 8). rewrite !Z.land_ones, Z.shiftr_div_pow2 by lia. done.
Qed.

Lemma put_front_some vs buf : (length vs <= length buf)%nat → put_front vs buf = Some (vs ++ drop (length vs) buf).
Proof. intros Hl. unfold put_front. by rewrite (proj2 (Nat.leb_le _ _)). Qed.

(** *** [serialize] *)

Lemma source_byte_ok obj beyond i : bytes_ok obj → fits 8 (source_byte obj beyond i).
Proof.
  intros Hb. unfold source_byte. destruct (obj !! i) as [b|] eqn:E; [|apply wrap_fits; lia].
  by eapply Forall_lookup_1.
Qed.

Lemma source_bytes obj beyond n : bytes_ok obj →
  register_bytes (source_word obj beyond <$> seq 0 n) = source_byte obj beyond <$> seq 0 (4 * n).
Proof.
  intros Hb. induction n as [|n IH]; [done|]. replace (4 * S n)%nat with (4 * n + 4)%nat by lia.
  rewrite seq_S, seq_app, !fmap_app, register_bytes_app, IH. f_equal. cbn [Nat.add fmap list_fmap].
  unfold register_bytes. cbn [fmap list_fmap concat]. rewrite app_nil_r. unfold source_word.
  replace 4%nat with (length (source_byte obj beyond <$> seq (4 * n) 4)) at 1 by done.
  apply le_bytes_value. apply Forall_fmap, Forall_true. intros i. by apply source_byte_ok.
Qed.

Lemma source_front obj beyond n : (length obj <= n)%nat → take (length obj) (source_byte obj beyond <$> seq 0 n) = obj.
Proof.
  intros Hn. apply list_eq. intros i. destruct (decide (i < length obj)%nat) as [Hi|Hi].
  - rewrite lookup_take_lt, list_lookup_fmap, lookup_seq_lt by lia. simpl. unfold source_byte.
    destruct (lookup_lt_is_Some_2 obj i Hi) as [b ->]. done.
  - rewrite !lookup_ge_None_2; [done|lia|]. rewrite length_take. lia.
Qed.

(** What [serialize] leaves in a buffer that has a word for every byte of the object:
    the object, and behind it three times as much of what lay behind the object in memory. *)
Lemma serialize_front obj beyond buf : bytes_ok obj → (length obj <= length buf)%nat →
  ∃ buf', serialize obj beyond buf = Some (length obj, buf') ∧ length buf' = length buf ∧
    take (length obj) (register_bytes buf') = obj ∧
    ∀ j, (j < 3 * length obj)%nat → register_bytes buf' !! (length obj + j)%nat = Some (wrap 8 (beyond j)).
Proof.
  intros Hb Hl. unfold serialize.
  rewrite (proj2 (Nat.ltb_ge _ _)) by lia. rewrite (proj2 (Nat.leb_le _ _)) by lia. eexists. split; [done|].
  rewrite length_app, length_fmap, length_seq, length_drop. split; [lia|].
  rewrite register_bytes_app, source_bytes by done. split.
  - rewrite take_app_le by (rewrite length_fmap, length_seq; lia). apply source_front. lia.
  - intros j Hj. rewrite lookup_app_l by (rewrite length_fmap, length_seq; lia).
    rewrite list_lookup_fmap, lookup_seq_lt by lia. simpl. unfold source_byte.
    rewrite lookup_ge_None_2 by lia. do 3 f_equal. lia.
Qed.

(** *** Strings *)

Lemma le_bytes_4_halves a b : fits 16 a → fits 16 b →
  le_bytes 4 (Z.lor a (Z.shiftl b 16)) = le_bytes 2 a ++ le_bytes 2 b.
Proof.
  intros Ha Hb. unfold fits in *. rewrite lor_disjoint_add by lia. change (2 ^ 16) with (256 * 256) in *.
  simpl. rewrite !Z.div_div by lia.
  assert ((a + 256 * 256 * b) / 256 = a / 256 + 256 * b) as E1
    by (replace (a + 256 * 256 * b) with (a + (256 * b) * 256) by lia; by rewrite Z.div_add by lia).
  assert ((a + 256 * 256 * b) / (256 * 256) = b) as E2
    by (replace (a + 256 * 256 * b) with (a + b * (256 * 256)) by lia; rewrite Z.div_add, Z.div_small by lia; lia).
  assert ((a + 256 * 256 * b) / (256 * 256 * 256) = b / 256) as E3 by (rewrite <-E2 at 2; by rewrite Z.div_div by lia).
  rewrite E1, E2, E3. replace (a + 256 * 256 * b) with (a + (256 * b) * 256) by lia.
  replace (a / 256 + 256 * b) with (a / 256 + b * 256) by lia. by rewrite !Z.mod_add by lia.
Qed.

Lemma le_bytes_4_half a : fits 16 a → le_bytes 4 a = le_bytes 2 a ++ [0; 0].
Proof. intros Ha. pose proof (le_bytes_4_halves a 0 Ha ltac:(done)) as E. by rewrite Z.shiftl_0_l, Z.lor_0_r in E. Qed.

Lemma register_bytes_insert k w buf : (k < length buf)%nat →
  register_bytes (<[k := w]> buf) = take (4 * k) (register_bytes buf) ++ le_bytes 4 w ++ drop (4 * k + 4) (register_bytes buf).
Proof.
  intros Hk. rewrite insert_take_drop by done. rewrite register_bytes_app, take_register_bytes.
  change (register_bytes (w :: drop (S k) buf)) with (le_bytes 4 w ++ register_bytes (drop (S k) buf)).
  rewrite drop_register_bytes. do 3 f_equal. lia.
Qed.

(** The loop: the characters follow the bytes before them, two bytes each. *)
Lemma chars_bytes i cs buf pre :
  (1 <= i)%nat → Forall (fits 16) cs → (i + length cs <= 2 * length buf - 1)%nat →
  take (2 * (i + 1)) (register_bytes buf) = pre →
  ((i mod 2 = 0)%nat → ∃ w, buf !! (i / 2)%nat = Some w ∧ fits 16 w) →
  ∃ buf', StringDescriptor.chars i cs buf = Some buf' ∧ length buf' = length buf ∧
    take (2 * (i + 1 + length cs)) (register_bytes buf') = pre ++ concat (le_bytes 2 <$> cs).
Proof.
  revert i buf pre. induction cs as [|c cs IH]; intros i buf pre Hi Hcs Hl Hpre Hev.
  - exists buf. split_and!; [done..|]. simpl. by rewrite app_nil_r, Nat.add_0_r.
  - apply Forall_cons in Hcs as [Hc Hcs]. simpl length in Hl. cbn [StringDescriptor.chars].
    pose proof (Nat.div_mod_eq i 2) as Hdm. destruct (Nat.eqb_spec (i mod 2) 1) as [Hodd|Hodd].
    + rewrite (proj2 (Nat.ltb_lt _ _)) by lia.
      destruct (IH (S i) (<[(i / 2 + 1)%nat := c]> buf) (pre ++ le_bytes 2 c)) as (b' & E & Hb & Ht).
      * lia.
      * done.
      * rewrite length_insert. lia.
      * rewrite register_bytes_insert by lia. replace (4 * (i / 2 + 1))%nat with (2 * (i + 1))%nat by lia. rewrite Hpre.
        rewrite le_bytes_4_half, <-(assoc_L (++)) by done. rewrite (assoc_L (++)).
        apply take_app_length'. rewrite length_app, length_le_bytes, <-Hpre, length_take, length_register_bytes. lia.
      * intros _. exists c. split; [|done]. replace (S i / 2)%nat with (i / 2 + 1)%nat; [apply list_lookup_insert_eq; lia|].
        pose proof (Nat.div_mod_eq (S i) 2). pose proof (Nat.mod_upper_bound (S i) 2). lia.
      * exists b'. rewrite length_insert in Hb. split_and!; [done..|]. simpl length.
        replace (i + 1 + S (length cs))%nat with (S i + 1 + length cs)%nat by lia. rewrite Ht, <-(assoc_L (++)). done.
    + pose proof (Nat.mod_upper_bound i 2). destruct Hev as (w & Hw & Hfw); [lia|]. rewrite Hw.
      destruct (IH (S i) (<[(i / 2)%nat := Z.lor w (Z.shiftl c 16)]> buf) (pre ++ le_bytes 2 c)) as (b' & E & Hb & Ht).
      * lia.
      * done.
      * rewrite length_insert. lia.
      * rewrite register_bytes_insert by lia. rewrite le_bytes_4_halves by done. rewrite <-(assoc_L (++)).
        assert (pre = take (4 * (i / 2)) (register_bytes buf) ++ le_bytes 2 w) as ->.
        { rewrite <-Hpre. rewrite <-(list_insert_id _ _ _ Hw) at 1. rewrite register_bytes_insert by (by apply lookup_lt_Some in Hw).
          rewrite le_bytes_4_half, <-(assoc_L (++)), (assoc_L (++)) by done. apply take_app_length'.
          rewrite length_app, length_take, length_le_bytes, length_register_bytes. apply lookup_lt_Some in Hw. lia. }
        rewrite !(assoc_L (++)). apply take_app_length'. apply lookup_lt_Some in Hw.
        rewrite !length_app, length_take, !length_le_bytes, length_register_bytes. lia.
      * intros He. pose proof (Nat.div_mod_eq (S i) 2). lia.
      * exists b'. rewrite length_insert in Hb. split_and!; [done..|]. simpl length.
        replace (i + 1 + S (length cs))%nat with (S i + 1 + length cs)%nat by lia. rewrite Ht, <-(assoc_L (++)). done.
Qed.

Lemma le_bytes_first a b : fits 8 a → fits 8 b →
  fits 16 (Z.lor (Z.shiftl a 0) (Z.shiftl b 8)) ∧ le_bytes 2 (Z.lor (Z.shiftl a 0) (Z.shiftl b 8)) = [a; b].
Proof.
  unfold fits. intros Ha Hb. rewrite Z.shiftl_0_r, lor_disjoint_add by lia. change (2 ^ 8) with 256 in *. split; [lia|].
  replace (a + 256 * b) with (le_value [a; b]) by (simpl; lia). change 2%nat with (length [a; b]).
  apply le_bytes_value. by repeat apply Forall_cons_2.
Qed.

(** The bytes that a descriptor stands for. *)
Definition string_bytes (d : StringDescriptor.t) : list Z :=
  [StringDescriptor.b_length d; StringDescriptor.b_descriptor_type d] ++ concat (le_bytes 2 <$> StringDescriptor.b_string d).

Definition string_ok (d : StringDescriptor.t) : Prop :=
  fits 8 (StringDescriptor.b_length d) ∧ fits 8 (StringDescriptor.b_descriptor_type d) ∧
  Forall (fits 16) (StringDescriptor.b_string d).

#[global] Instance string_ok_dec d : Decision (string_ok d).
Proof. unfold string_ok. apply _. Defined.

Lemma length_string_bytes d : length (string_bytes d) = (2 + 2 * length (StringDescriptor.b_string d))%nat.
Proof.
  unfold string_bytes. rewrite length_app. f_equal. induction (StringDescriptor.b_string d) as [|c cs IH]; [done|].
  rewrite fmap_cons. cbn [concat length]. rewrite length_app, length_le_bytes, IH. lia.
Qed.

Lemma string_into_u32_buf d buf : string_ok d → (length (StringDescriptor.b_string d) <= 2 * length buf - 1)%nat → buf ≠ [] →
  ∃ buf', StringDescriptor.into_u32_buf d buf = Some (length (string_bytes d), buf') ∧ length buf' = length buf ∧
    take (length (string_bytes d)) (register_bytes buf') = string_bytes d.
Proof.
  intros (Hl & Ht & Hs) Hlen Hbuf. rewrite length_string_bytes. unfold StringDescriptor.into_u32_buf, string_bytes.
  destruct (le_bytes_first _ _ Hl Ht) as [Hf Hf2]. destruct buf as [|w buf]; [done|].
  destruct (StringDescriptor.b_string d) as [|c cs].
  - rewrite put_front_some by (simpl; lia). eexists. split; [done|]. split; [done|]. cbn [app length drop].
    change (register_bytes (?x :: ?l)) with (le_bytes 4 x ++ register_bytes l).
    rewrite le_bytes_4_half, Hf2 by done. done.
  - apply Forall_cons in Hs as [Hc Hs]. rewrite put_front_some by (simpl; lia). cbn [mbind option_bind length drop app].
    set (first := Z.lor _ _) in *.
    destruct (chars_bytes 1 cs (Z.lor first (Z.shiftl c 16) :: drop 0 buf) ([StringDescriptor.b_length d; StringDescriptor.b_descriptor_type d] ++ le_bytes 2 c))
      as (buf' & E & Hb & Hbytes).
    + lia.
    + done.
    + rewrite drop_0. cbn [length] in *. lia.
    + change (register_bytes (?x :: ?l)) with (le_bytes 4 x ++ register_bytes l). rewrite le_bytes_4_halves, Hf2 by done. done.
    + done.
    + cbn [drop] in E. rewrite E. eexists. split; [done|]. split; [done|].
      replace (2 + 2 * S (length cs))%nat with (2 * (1 + 1 + length cs))%nat by lia. rewrite Hbytes. done.
Qed.

Definition interface_bytes (d : InterfaceDescriptor.t) : list Z :=
  [InterfaceDescriptor.b_length d; InterfaceDescriptor.b_descriptor_type d; InterfaceDescriptor.b_interface_number d;
   InterfaceDescriptor.b_alternate_setting d; InterfaceDescriptor.b_num_endpoints d; InterfaceDescriptor.b_interface_class d;
   InterfaceDescriptor.b_interface_sub_class d; InterfaceDescriptor.b_interface_protocol d; InterfaceDescriptor.i_interface d].

Lemma interface_into_u32_buf d buf : bytes_ok (interface_bytes d) → (3 <= length buf)%nat →
  ∃ buf', InterfaceDescriptor.into_u32_buf d buf = Some (9%nat, buf') ∧ length buf' = length buf ∧
    take 9 (register_bytes buf') = interface_bytes d.
Proof.
  intros Hb Hl. unfold InterfaceDescriptor.into_u32_buf. rewrite put_front_some by (simpl; lia). eexists. split; [done|].
  rewrite length_app, length_drop. split; [simpl length; lia|]. rewrite register_bytes_app.
  unfold interface_bytes in *. destruct d as [a b c e f g h i j]. cbn in Hb.
  do 9 (apply Forall_cons in Hb as [? Hb]).
  unfold register_bytes at 1. cbn [fmap list_fmap concat InterfaceDescriptor.b_length InterfaceDescriptor.b_descriptor_type InterfaceDescriptor.b_interface_number
    InterfaceDescriptor.b_alternate_setting InterfaceDescriptor.b_num_endpoints InterfaceDescriptor.b_interface_class InterfaceDescriptor.b_interface_sub_class InterfaceDescriptor.b_interface_protocol InterfaceDescriptor.i_interface].
  rewrite !le_bytes_pack by (by repeat apply Forall_cons_2). rewrite Z.shiftl_0_r, le_bytes_4_half by (unfold fits in *; lia).
  rewrite le_bytes_2_low_high. unfold low. change 0xff with (Z.ones 8). rewrite Z.land_ones, Z.mod_small by (unfold fits in *; lia). done.
Qed.

(** A setup packet of eight bytes is read as its fields. *)
Lemma setup_new_bytes t r v i l rest : fits 8 t → fits 8 r → fits 16 v → fits 16 i → fits 16 l →
  setup_new (le_value ([t; r] ++ le_bytes 2 v) :: le_value (le_bytes 2 i ++ le_bytes 2 l) :: rest) =
  Some (mk_SetupRequest t r v i l).
Proof.
  intros Ht Hr Hv Hi Hl. unfold setup_new, fits in *.
  change (2 ^ 8) with 256 in *. change (2 ^ 16) with 65536 in *.
  assert (le_value ([t; r] ++ le_bytes 2 v) = t + 256 * r + 65536 * v) as ->.
  { pose proof (Z.div_mod v 256). pose proof (Z.div_mod (v / 256) 256). pose proof (Z.div_lt_upper_bound v 256 256).
    pose proof (Z.div_pos v 256). rewrite (Z.div_small (v / 256)) in * by lia. simpl. lia. }
  assert (le_value (le_bytes 2 i ++ le_bytes 2 l) = i + 65536 * l) as ->.
  { pose proof (Z.div_mod i 256). pose proof (Z.div_mod l 256). pose proof (Z.div_lt_upper_bound i 256 256).
    pose proof (Z.div_lt_upper_bound l 256 256). pose proof (Z.div_pos i 256). pose proof (Z.div_pos l 256).
    simpl. rewrite !(Z.mod_small (_ / 256)) by lia. lia. }
  change 0xff with (Z.ones 8). change 0xffff with (Z.ones 16). change 0xff00 with (Z.shiftl (Z.ones 8) 8).
  change 0xffff0000 with (Z.shiftl (Z.ones 16) 16).
  rewrite !Z.shiftr_land, !Z.shiftr_shiftl_l, !Z.sub_diag, !Z.shiftl_0_r, !Z.land_ones, !Z.shiftr_div_pow2 by lia.
  change (2 ^ 8) with 256. change (2 ^ 16) with 65536. repeat f_equal.
  - replace (t + 256 * r + 65536 * v) with (t + (r + 256 * v) * 256) by lia. rewrite Z.mod_add, Z.mod_small by lia. done.
  - replace (t + 256 * r + 65536 * v) with (t + (r + 256 * v) * 256) by lia. rewrite Z.div_add, Z.div_small by lia.
    replace (0 + (r + 256 * v)) with (r + v * 256) by lia. rewrite Z.mod_add, Z.mod_small by lia. done.
  - rewrite Z.add_comm, Z.mul_comm, Z.div_add_l, Z.div_small by lia. rewrite Z.add_0_r, Z.mod_small by lia. done.
  - rewrite Z.mul_comm, Z.mod_add, Z.mod_small by lia. done.
  - rewrite Z.add_comm, Z.mul_comm, Z.div_add_l, Z.div_small by lia. rewrite Z.add_0_r, Z.mod_small by lia. done.
Qed.
