(* ===== verification/Usb.v ===== *)
(** The USB device driver (kernel/h1/src/usb/mod.rs and registers.rs): endpoint 0,
    which enumerates the device, and endpoint 1, which carries U2F frames.

    Registers hold integers and bit fields are accessed through [RegisterInterface].
    Interrupt registers are cleared by writing ones.  The values that polling the
    reset register returns while the controller is at work are the list
    [reset_reads]; when it is used up the controller is done and the register reads 0.
    The descriptors that the controller is given are named, not addressed, and
    buffers are named with an offset.  The cells that [init] fills are options.
    [beyond] is the memory behind an object that is serialized.  The client of
    endpoint 1 runs inside the driver's state, as the class [UsbHidU2fClient]. *)

From S2P Require Import Prelude Io Tock Registers UsbTypes.
From Stdlib Require Import ZArith Lia.
From stdpp Require Import base decidable option list list_numbers.

#[local] Open Scope Z_scope.

(** ** registers.rs *)

Inductive UReg :=
| ahb_config | configuration | reset | interrupt_status | interrupt_mask | receive_fifo_size | transmit_fifo_size
| gpio | device_in_ep_tx_fifo_size (i : nat) | device_config | device_control | device_in_ep_interrupt_mask
| device_out_ep_interrupt_mask | device_all_ep_interrupt | device_all_ep_interrupt_mask
| in_control (n : nat) | in_interrupt (n : nat) | out_control (n : nat) | out_interrupt (n : nat).

#[global] Instance UReg_eq_dec : EqDecision UReg.
Proof. solve_decision. Defined.

(** The bit fields that the driver uses. *)
Definition GlobalInterruptMask : Field := mk_Field 0 1.
Definition DmaEnable : Field := mk_Field 5 1.
Definition NonPeriodicTxFifoEmptyLevel : Field := mk_Field 7 1.
Definition TimeoutCalibration : Field := mk_Field 0 3.
Definition FullSpeedSerialInterfaceSelect : Field := mk_Field 5 1.
Definition PhySelect : Field := mk_Field 6 1.
Definition UsbTurnaroundTime : Field := mk_Field 10 4.
Definition AhbMasterIdle : Field := mk_Field 31 1.
Definition ResetTxFifoNumber : Field := mk_Field 6 5.
Definition AllFifos : Z := 16.
Definition TxFifoFlush : Field := mk_Field 5 1.
Definition RxFifoFlush : Field := mk_Field 4 1.
Definition PiuFsDedicatedControllerSoftReset : Field := mk_Field 1 1.
Definition StartOfFrame : Field := mk_Field 3 1.
Definition GlobalInNak : Field := mk_Field 6 1.
Definition GlobalOutNak : Field := mk_Field 7 1.
Definition EarlySuspend : Field := mk_Field 10 1.
Definition Suspend : Field := mk_Field 11 1.
Definition Reset : Field := mk_Field 12 1.
Definition EnumerationDone : Field := mk_Field 13 1.
Definition InEndpoints : Field := mk_Field 18 1.
Definition OutEndpoints : Field := mk_Field 19 1.
Definition ResetDetected : Field := mk_Field 23 1.
Definition GpoRegister : Field := mk_Field 16 4.
Definition GpoValue : Field := mk_Field 20 8.
Definition GpoOperation : Field := mk_Field 31 1.
Definition DeviceSpeed : Field := mk_Field 0 2.
Definition Full1 : Z := 3.
Definition DeviceAddress : Field := mk_Field 4 7.
Definition EnableScatterGatherDMAInDeviceMode : Field := mk_Field 23 1.
Definition SoftDisconnect : Field := mk_Field 1 1.
Definition ClearGlobalNonPeriodicInNak : Field := mk_Field 8 1.
Definition ClearGlobalOutNak : Field := mk_Field 10 1.
Definition PowerOnProgrammingDone : Field := mk_Field 11 1.
Definition TransferCompleted : Field := mk_Field 0 1.
Definition EndpointDisabled : Field := mk_Field 1 1.
Definition SetupPhaseDone : Field := mk_Field 3 1.
Definition StatusPhaseReceived : Field := mk_Field 5 1.
Definition IN0 : Field := mk_Field 0 1.
Definition IN1 : Field := mk_Field 1 1.
Definition OUT0 : Field := mk_Field 16 1.
Definition OUT1 : Field := mk_Field 17 1.
Definition MaximumPacketSize : Field := mk_Field 0 11.
Definition UsbActiveEndpoint : Field := mk_Field 15 1.
Definition EndpointType : Field := mk_Field 18 2.
Definition Stall : Field := mk_Field 21 1.
Definition TxFifoNumber : Field := mk_Field 22 4.
Definition ClearNak : Field := mk_Field 26 1.
Definition Enable : Field := mk_Field 31 1.

(** [DescFlag] *)
Definition LAST : Z := Z.shiftl 1 27.
Definition SHORT : Z := Z.shiftl 1 26.
Definition IOC : Z := Z.shiftl 1 25.
Definition SETUP_READY : Z := Z.shiftl 1 24.
Definition STATUS_MASK : Z := Z.shiftl 3 30.
Definition HOST_READY : Z := Z.shiftl 0 30.
Definition DMA_BUSY : Z := Z.shiftl 1 30.
Definition DMA_DONE : Z := Z.shiftl 2 30.
Definition HOST_BUSY : Z := Z.shiftl 3 30.
(** [flags.bytes(n)] *)
Definition bytes (flags n : Z) : Z := Z.lor flags n.

Inductive Buf := B_ep0_out (i : nat) | B_ep0_in | B_ep1_out | B_ep1_in.
Inductive Addr := Null | At (b : Buf) (off : nat).
Record DMADescriptor := mk_DMADescriptor { flags : Z; addr : Addr }.

(** A descriptor by name: what a DMA address register holds. *)
Inductive DescRef := D_ep0_out (i : nat) | D_ep0_in (i : nat) | D_ep1_out | D_ep1_in.

(** ** mod.rs: the state *)

Inductive USBState := WaitingForSetupPacket | DataStageIn | NoDataStage.
Inductive TableCase := CaseA | CaseB | CaseC | CaseD | CaseE.
Inductive PHY := PhyA | PhyB.

#[global] Instance USBState_eq_dec : EqDecision USBState.
Proof. solve_decision. Defined.
#[global] Instance TableCase_eq_dec : EqDecision TableCase.
Proof. solve_decision. Defined.

Definition EP0_IN_BUFFER_COUNT : nat := 4.
Definition EP0_OUT_BUFFER_COUNT : nat := 2.

Module USB.

Record t (C : Type) := mk {
  regs : UReg → Z;
  in_dma : nat → option DescRef;
  out_dma : nat → option DescRef;
  reset_reads : list Z;
  clock_writes : list Z;
  state : USBState;
  ep0_out_descriptors : option (list DMADescriptor);
  ep0_out_buffers : option (list (list Z));
  ep0_in_descriptors : option (list DMADescriptor);
  ep0_in_buffers : option (list Z);
  next_ep0_out_idx : nat;
  last_ep0_out_idx : nat;
  ep1_out_descriptor : option DMADescriptor;
  ep1_out_buffer : option (list Z);
  ep1_in_descriptor : option DMADescriptor;
  ep1_in_buffer : option (list Z);
  device_class : Z;
  vendor_id : Z;
  product_id : Z;
  configuration_descriptor : option (list Z);
  configuration_total_length : Z;
  configuration_current_value : Z;
  strings : option (list StringDescriptor.t);
  u2f_client : option C
}.
Arguments regs {C}.
Arguments in_dma {C}.
Arguments out_dma {C}.
Arguments reset_reads {C}.
Arguments clock_writes {C}.
Arguments state {C}.
Arguments ep0_out_descriptors {C}.
Arguments ep0_out_buffers {C}.
Arguments ep0_in_descriptors {C}.
Arguments ep0_in_buffers {C}.
Arguments next_ep0_out_idx {C}.
Arguments last_ep0_out_idx {C}.
Arguments ep1_out_descriptor {C}.
Arguments ep1_out_buffer {C}.
Arguments ep1_in_descriptor {C}.
Arguments ep1_in_buffer {C}.
Arguments device_class {C}.
Arguments vendor_id {C}.
Arguments product_id {C}.
Arguments configuration_descriptor {C}.
Arguments configuration_total_length {C}.
Arguments configuration_current_value {C}.
Arguments strings {C}.
Arguments u2f_client {C}.
Arguments mk {C}.

Definition set_regs {C} (x : UReg → Z) (s : t C) : t C :=
    mk x (in_dma s) (out_dma s) (reset_reads s) (clock_writes s) (state s) (ep0_out_descriptors s)
    (ep0_out_buffers s) (ep0_in_descriptors s) (ep0_in_buffers s) (next_ep0_out_idx s) (last_ep0_out_idx s)
    (ep1_out_descriptor s) (ep1_out_buffer s) (ep1_in_descriptor s) (ep1_in_buffer s) (device_class s) (vendor_id
    s) (product_id s) (configuration_descriptor s) (configuration_total_length s) (configuration_current_value s)
    (strings s) (u2f_client s).
Definition set_in_dma {C} (x : nat → option DescRef) (s : t C) : t C :=
    mk (regs s) x (out_dma s) (reset_reads s) (clock_writes s) (state s) (ep0_out_descriptors s) (ep0_out_buffers
    s) (ep0_in_descriptors s) (ep0_in_buffers s) (next_ep0_out_idx s) (last_ep0_out_idx s) (ep1_out_descriptor s)
    (ep1_out_buffer s) (ep1_in_descriptor s) (ep1_in_buffer s) (device_class s) (vendor_id s) (product_id s)
    (configuration_descriptor s) (configuration_total_length s) (configuration_current_value s) (strings s)
    (u2f_client s).
Definition set_out_dma {C} (x : nat → option DescRef) (s : t C) : t C :=
    mk (regs s) (in_dma s) x (reset_reads s) (clock_writes s) (state s) (ep0_out_descriptors s) (ep0_out_buffers
    s) (ep0_in_descriptors s) (ep0_in_buffers s) (next_ep0_out_idx s) (last_ep0_out_idx s) (ep1_out_descriptor s)
    (ep1_out_buffer s) (ep1_in_descriptor s) (ep1_in_buffer s) (device_class s) (vendor_id s) (product_id s)
    (configuration_descriptor s) (configuration_total_length s) (configuration_current_value s) (strings s)
    (u2f_client s).
Definition set_reset_reads {C} (x : list Z) (s : t C) : t C :=
    mk (regs s) (in_dma s) (out_dma s) x (clock_writes s) (state s) (ep0_out_descriptors s) (ep0_out_buffers s)
    (ep0_in_descriptors s) (ep0_in_buffers s) (next_ep0_out_idx s) (last_ep0_out_idx s) (ep1_out_descriptor s)
    (ep1_out_buffer s) (ep1_in_descriptor s) (ep1_in_buffer s) (device_class s) (vendor_id s) (product_id s)
    (configuration_descriptor s) (configuration_total_length s) (configuration_current_value s) (strings s)
    (u2f_client s).
Definition set_clock_writes {C} (x : list Z) (s : t C) : t C :=
    mk (regs s) (in_dma s) (out_dma s) (reset_reads s) x (state s) (ep0_out_descriptors s) (ep0_out_buffers s)
    (ep0_in_descriptors s) (ep0_in_buffers s) (next_ep0_out_idx s) (last_ep0_out_idx s) (ep1_out_descriptor s)
    (ep1_out_buffer s) (ep1_in_descriptor s) (ep1_in_buffer s) (device_class s) (vendor_id s) (product_id s)
    (configuration_descriptor s) (configuration_total_length s) (configuration_current_value s) (strings s)
    (u2f_client s).
Definition set_state {C} (x : USBState) (s : t C) : t C :=
    mk (regs s) (in_dma s) (out_dma s) (reset_reads s) (clock_writes s) x (ep0_out_descriptors s) (ep0_out_buffers
    s) (ep0_in_descriptors s) (ep0_in_buffers s) (next_ep0_out_idx s) (last_ep0_out_idx s) (ep1_out_descriptor s)
    (ep1_out_buffer s) (ep1_in_descriptor s) (ep1_in_buffer s) (device_class s) (vendor_id s) (product_id s)
    (configuration_descriptor s) (configuration_total_length s) (configuration_current_value s) (strings s)
    (u2f_client s).
Definition set_ep0_out_descriptors {C} (x : option (list DMADescriptor)) (s : t C) : t C :=
    mk (regs s) (in_dma s) (out_dma s) (reset_reads s) (clock_writes s) (state s) x (ep0_out_buffers s)
    (ep0_in_descriptors s) (ep0_in_buffers s) (next_ep0_out_idx s) (last_ep0_out_idx s) (ep1_out_descriptor s)
    (ep1_out_buffer s) (ep1_in_descriptor s) (ep1_in_buffer s) (device_class s) (vendor_id s) (product_id s)
    (configuration_descriptor s) (configuration_total_length s) (configuration_current_value s) (strings s)
    (u2f_client s).
Definition set_ep0_out_buffers {C} (x : option (list (list Z))) (s : t C) : t C :=
    mk (regs s) (in_dma s) (out_dma s) (reset_reads s) (clock_writes s) (state s) (ep0_out_descriptors s) x
    (ep0_in_descriptors s) (ep0_in_buffers s) (next_ep0_out_idx s) (last_ep0_out_idx s) (ep1_out_descriptor s)
    (ep1_out_buffer s) (ep1_in_descriptor s) (ep1_in_buffer s) (device_class s) (vendor_id s) (product_id s)
    (configuration_descriptor s) (configuration_total_length s) (configuration_current_value s) (strings s)
    (u2f_client s).
Definition set_ep0_in_descriptors {C} (x : option (list DMADescriptor)) (s : t C) : t C :=
    mk (regs s) (in_dma s) (out_dma s) (reset_reads s) (clock_writes s) (state s) (ep0_out_descriptors s)
    (ep0_out_buffers s) x (ep0_in_buffers s) (next_ep0_out_idx s) (last_ep0_out_idx s) (ep1_out_descriptor s)
    (ep1_out_buffer s) (ep1_in_descriptor s) (ep1_in_buffer s) (device_class s) (vendor_id s) (product_id s)
    (configuration_descriptor s) (configuration_total_length s) (configuration_current_value s) (strings s)
    (u2f_client s).
Definition set_ep0_in_buffers {C} (x : option (list Z)) (s : t C) : t C :=
    mk (regs s) (in_dma s) (out_dma s) (reset_reads s) (clock_writes s) (state s) (ep0_out_descriptors s)
    (ep0_out_buffers s) (ep0_in_descriptors s) x (next_ep0_out_idx s) (last_ep0_out_idx s) (ep1_out_descriptor s)
    (ep1_out_buffer s) (ep1_in_descriptor s) (ep1_in_buffer s) (device_class s) (vendor_id s) (product_id s)
    (configuration_descriptor s) (configuration_total_length s) (configuration_current_value s) (strings s)
    (u2f_client s).
Definition set_next_ep0_out_idx {C} (x : nat) (s : t C) : t C :=
    mk (regs s) (in_dma s) (out_dma s) (reset_reads s) (clock_writes s) (state s) (ep0_out_descriptors s)
    (ep0_out_buffers s) (ep0_in_descriptors s) (ep0_in_buffers s) x (last_ep0_out_idx s) (ep1_out_descriptor s)
    (ep1_out_buffer s) (ep1_in_descriptor s) (ep1_in_buffer s) (device_class s) (vendor_id s) (product_id s)
    (configuration_descriptor s) (configuration_total_length s) (configuration_current_value s) (strings s)
    (u2f_client s).
Definition set_last_ep0_out_idx {C} (x : nat) (s : t C) : t C :=
    mk (regs s) (in_dma s) (out_dma s) (reset_reads s) (clock_writes s) (state s) (ep0_out_descriptors s)
    (ep0_out_buffers s) (ep0_in_descriptors s) (ep0_in_buffers s) (next_ep0_out_idx s) x (ep1_out_descriptor s)
    (ep1_out_buffer s) (ep1_in_descriptor s) (ep1_in_buffer s) (device_class s) (vendor_id s) (product_id s)
    (configuration_descriptor s) (configuration_total_length s) (configuration_current_value s) (strings s)
    (u2f_client s).
Definition set_ep1_out_descriptor {C} (x : option DMADescriptor) (s : t C) : t C :=
    mk (regs s) (in_dma s) (out_dma s) (reset_reads s) (clock_writes s) (state s) (ep0_out_descriptors s)
    (ep0_out_buffers s) (ep0_in_descriptors s) (ep0_in_buffers s) (next_ep0_out_idx s) (last_ep0_out_idx s) x
    (ep1_out_buffer s) (ep1_in_descriptor s) (ep1_in_buffer s) (device_class s) (vendor_id s) (product_id s)
    (configuration_descriptor s) (configuration_total_length s) (configuration_current_value s) (strings s)
    (u2f_client s).
Definition set_ep1_out_buffer {C} (x : option (list Z)) (s : t C) : t C :=
    mk (regs s) (in_dma s) (out_dma s) (reset_reads s) (clock_writes s) (state s) (ep0_out_descriptors s)
    (ep0_out_buffers s) (ep0_in_descriptors s) (ep0_in_buffers s) (next_ep0_out_idx s) (last_ep0_out_idx s)
    (ep1_out_descriptor s) x (ep1_in_descriptor s) (ep1_in_buffer s) (device_class s) (vendor_id s) (product_id s)
    (configuration_descriptor s) (configuration_total_length s) (configuration_current_value s) (strings s)
    (u2f_client s).
Definition set_ep1_in_descriptor {C} (x : option DMADescriptor) (s : t C) : t C :=
    mk (regs s) (in_dma s) (out_dma s) (reset_reads s) (clock_writes s) (state s) (ep0_out_descriptors s)
    (ep0_out_buffers s) (ep0_in_descriptors s) (ep0_in_buffers s) (next_ep0_out_idx s) (last_ep0_out_idx s)
    (ep1_out_descriptor s) (ep1_out_buffer s) x (ep1_in_buffer s) (device_class s) (vendor_id s) (product_id s)
    (configuration_descriptor s) (configuration_total_length s) (configuration_current_value s) (strings s)
    (u2f_client s).
Definition set_ep1_in_buffer {C} (x : option (list Z)) (s : t C) : t C :=
    mk (regs s) (in_dma s) (out_dma s) (reset_reads s) (clock_writes s) (state s) (ep0_out_descriptors s)
    (ep0_out_buffers s) (ep0_in_descriptors s) (ep0_in_buffers s) (next_ep0_out_idx s) (last_ep0_out_idx s)
    (ep1_out_descriptor s) (ep1_out_buffer s) (ep1_in_descriptor s) x (device_class s) (vendor_id s) (product_id
    s) (configuration_descriptor s) (configuration_total_length s) (configuration_current_value s) (strings s)
    (u2f_client s).
Definition set_device_class {C} (x : Z) (s : t C) : t C :=
    mk (regs s) (in_dma s) (out_dma s) (reset_reads s) (clock_writes s) (state s) (ep0_out_descriptors s)
    (ep0_out_buffers s) (ep0_in_descriptors s) (ep0_in_buffers s) (next_ep0_out_idx s) (last_ep0_out_idx s)
    (ep1_out_descriptor s) (ep1_out_buffer s) (ep1_in_descriptor s) (ep1_in_buffer s) x (vendor_id s) (product_id
    s) (configuration_descriptor s) (configuration_total_length s) (configuration_current_value s) (strings s)
    (u2f_client s).
Definition set_vendor_id {C} (x : Z) (s : t C) : t C :=
    mk (regs s) (in_dma s) (out_dma s) (reset_reads s) (clock_writes s) (state s) (ep0_out_descriptors s)
    (ep0_out_buffers s) (ep0_in_descriptors s) (ep0_in_buffers s) (next_ep0_out_idx s) (last_ep0_out_idx s)
    (ep1_out_descriptor s) (ep1_out_buffer s) (ep1_in_descriptor s) (ep1_in_buffer s) (device_class s) x
    (product_id s) (configuration_descriptor s) (configuration_total_length s) (configuration_current_value s)
    (strings s) (u2f_client s).
Definition set_product_id {C} (x : Z) (s : t C) : t C :=
    mk (regs s) (in_dma s) (out_dma s) (reset_reads s) (clock_writes s) (state s) (ep0_out_descriptors s)
    (ep0_out_buffers s) (ep0_in_descriptors s) (ep0_in_buffers s) (next_ep0_out_idx s) (last_ep0_out_idx s)
    (ep1_out_descriptor s) (ep1_out_buffer s) (ep1_in_descriptor s) (ep1_in_buffer s) (device_class s) (vendor_id
    s) x (configuration_descriptor s) (configuration_total_length s) (configuration_current_value s) (strings s)
    (u2f_client s).
Definition set_configuration_descriptor {C} (x : option (list Z)) (s : t C) : t C :=
    mk (regs s) (in_dma s) (out_dma s) (reset_reads s) (clock_writes s) (state s) (ep0_out_descriptors s)
    (ep0_out_buffers s) (ep0_in_descriptors s) (ep0_in_buffers s) (next_ep0_out_idx s) (last_ep0_out_idx s)
    (ep1_out_descriptor s) (ep1_out_buffer s) (ep1_in_descriptor s) (ep1_in_buffer s) (device_class s) (vendor_id
    s) (product_id s) x (configuration_total_length s) (configuration_current_value s) (strings s) (u2f_client s).
Definition set_configuration_total_length {C} (x : Z) (s : t C) : t C :=
    mk (regs s) (in_dma s) (out_dma s) (reset_reads s) (clock_writes s) (state s) (ep0_out_descriptors s)
    (ep0_out_buffers s) (ep0_in_descriptors s) (ep0_in_buffers s) (next_ep0_out_idx s) (last_ep0_out_idx s)
    (ep1_out_descriptor s) (ep1_out_buffer s) (ep1_in_descriptor s) (ep1_in_buffer s) (device_class s) (vendor_id
    s) (product_id s) (configuration_descriptor s) x (configuration_current_value s) (strings s) (u2f_client s).
Definition set_configuration_current_value {C} (x : Z) (s : t C) : t C :=
    mk (regs s) (in_dma s) (out_dma s) (reset_reads s) (clock_writes s) (state s) (ep0_out_descriptors s)
    (ep0_out_buffers s) (ep0_in_descriptors s) (ep0_in_buffers s) (next_ep0_out_idx s) (last_ep0_out_idx s)
    (ep1_out_descriptor s) (ep1_out_buffer s) (ep1_in_descriptor s) (ep1_in_buffer s) (device_class s) (vendor_id
    s) (product_id s) (configuration_descriptor s) (configuration_total_length s) x (strings s) (u2f_client s).
Definition set_strings {C} (x : option (list StringDescriptor.t)) (s : t C) : t C :=
    mk (regs s) (in_dma s) (out_dma s) (reset_reads s) (clock_writes s) (state s) (ep0_out_descriptors s)
    (ep0_out_buffers s) (ep0_in_descriptors s) (ep0_in_buffers s) (next_ep0_out_idx s) (last_ep0_out_idx s)
    (ep1_out_descriptor s) (ep1_out_buffer s) (ep1_in_descriptor s) (ep1_in_buffer s) (device_class s) (vendor_id
    s) (product_id s) (configuration_descriptor s) (configuration_total_length s) (configuration_current_value s)
    x (u2f_client s).
Definition set_u2f_client {C} (x : option C) (s : t C) : t C :=
    mk (regs s) (in_dma s) (out_dma s) (reset_reads s) (clock_writes s) (state s) (ep0_out_descriptors s)
    (ep0_out_buffers s) (ep0_in_descriptors s) (ep0_in_buffers s) (next_ep0_out_idx s) (last_ep0_out_idx s)
    (ep1_out_descriptor s) (ep1_out_buffer s) (ep1_in_descriptor s) (ep1_in_buffer s) (device_class s) (vendor_id
    s) (product_id s) (configuration_descriptor s) (configuration_total_length s) (configuration_current_value s)
    (strings s) x.

(** The static [USB0] before [init]; the registers are as the hardware has them. *)
Definition new {C} (r : UReg → Z) (reads : list Z) : t C :=
  mk r (λ _, None) (λ _, None) reads [] WaitingForSetupPacket None None None None 0 0 None None None None
    0x00 0x0011 0x7788 None 0 0 None None.

(** What the driver asks of its client. *)
Class UsbHidU2fClient (C : Type) := {
  reconnected : K (t C) unit;
  frame_received : K (t C) unit;
  frame_transmitted : K (t C) unit
}.

Section Driver.
Context {C : Type} `{RegisterInterface} `{!UsbHidU2fClient C} (beyond : nat → Z).
Implicit Types s : t C.

Abbreviation Kt := (K (t C)).

(** *** Access to registers and cells *)

Definition clears_on_write (r : UReg) : bool :=
  match r with interrupt_status | in_interrupt _ | out_interrupt _ => true | _ => false end.

Definition store (r : UReg) (v : Z) (s : t C) : t C :=
  let old := regs s r in
  let new := if clears_on_write r then Z.land old (Z.lnot v) else v in
  set_regs (λ x, if decide (x = r) then new else regs s x) s.

(** [reg.set(v)], [reg.write(a + b)] and [reg.modify(FIELD.val(v))] *)
Definition write (r : UReg) (vs : list Z) : Kt unit := modify (store r (field_sum vs)).
Definition modify_reg (r : UReg) (f : Z → Z) : Kt unit := modify (λ s, store r (f (regs s r)) s).
Definition read (r : UReg) : Kt Z := gets (λ s, regs s r).

Definition set_in_dma_address (n : nat) (d : DescRef) : Kt unit :=
  modify (λ s, set_in_dma (λ m, if decide (m = n) then Some d else in_dma s m) s).
Definition set_out_dma_address (n : nat) (d : DescRef) : Kt unit :=
  modify (λ s, set_out_dma (λ m, if decide (m = n) then Some d else out_dma s m) s).

(** [cell.map(|x| ..)] *)
Definition map_cell {A} (get : t C → option A) (f : A → Kt unit) : Kt unit :=
  o ← gets get; match o with Some a => f a | None => mret tt end.

(** [descs[i].flags = v] *)
Definition with_flags (i : nat) (v : Z) (descs : list DMADescriptor) : option (list DMADescriptor) :=
  d ← descs !! i; Some (<[i := mk_DMADescriptor v (addr d)]> descs).

Definition set_out_flags (i : nat) (v : Z) : Kt unit :=
  map_cell ep0_out_descriptors (λ descs, d ← unwrap (with_flags i v descs); modify (set_ep0_out_descriptors (Some d))).
Definition set_in_flags (v : Z) : Kt unit :=
  map_cell ep0_in_descriptors (λ descs, d ← unwrap (with_flags 0 v descs); modify (set_ep0_in_descriptors (Some d))).

(** *** FIFOs and reset *)

(** The polling of [while reset.is_set(TxFifoFlush) {}]. *)
Fixpoint wait_flush (reads : list Z) : list Z :=
  match reads with
  | [] => []
  | v :: reads' => if is_set TxFifoFlush v then wait_flush reads' else reads'
  end.

Definition flush_rx_fifo : Kt unit :=
  write reset [field_set TxFifoFlush] ;;
  modify (λ s, set_reset_reads (wait_flush (reset_reads s)) s).

Definition flush_tx_fifo (fifo_num : Z) : Kt unit :=
  let fifo_field := field_val ResetTxFifoNumber (if (0 <=? fifo_num) && (fifo_num <=? 16) then fifo_num else AllFifos) in
  write reset [field_set TxFifoFlush; fifo_field] ;;
  modify (λ s, set_reset_reads (wait_flush (reset_reads s)) s).

(** A polling loop with a timeout: whether the bit was seen clear. *)
Fixpoint spin (f : Field) (timeout : nat) (reads : list Z) : bool * list Z :=
  match reads with
  | [] => (true, [])
  | v :: reads' =>
      if is_set f v then match timeout with O => (false, reads') | S n => spin f n reads' end
      else (true, reads')
  end.

Definition soft_reset : Kt unit :=
  write reset [field_set PiuFsDedicatedControllerSoftReset] ;;
  r ← gets reset_reads;
  let '(ok, r) := spin PiuFsDedicatedControllerSoftReset (Z.to_nat 10000) r in
  modify (set_reset_reads r) ;;
  if ok : bool then
    let '(_, r) := spin AhbMasterIdle (Z.to_nat 10000) r in modify (set_reset_reads r)
  else mret tt.

Definition setup_data_fifos : Kt unit :=
  write receive_fifo_size [Z.land RX_FIFO_SIZE 0xffff] ;;
  write transmit_fifo_size [Z.lor (Z.shiftl TX_FIFO_SIZE 16) (Z.land RX_FIFO_SIZE 0xffff)] ;;
  modify (λ s, foldl (λ s i, store (device_in_ep_tx_fifo_size i)
                 (Z.lor (Z.shiftl TX_FIFO_SIZE 16) (RX_FIFO_SIZE + Z.of_nat i * TX_FIFO_SIZE)) s) s (seq 0 15)) ;;
  flush_tx_fifo 0x10 ;;
  flush_rx_fifo.

(** *** Endpoint 0 *)

Definition init_ep0_descriptors : Kt unit :=
  map_cell ep0_out_descriptors (λ descs, map_cell ep0_out_buffers (λ bufs,
    modify (set_ep0_out_descriptors (Some
      (imap (λ i d, if (i <? length bufs)%nat then mk_DMADescriptor HOST_BUSY (At (B_ep0_out i) 0) else d) descs))) ;;
    modify (set_next_ep0_out_idx 0) ;;
    set_out_dma_address 0 (D_ep0_out 0))) ;;
  map_cell ep0_in_buffers (λ buf, map_cell ep0_in_descriptors (λ descs,
    modify (set_ep0_in_descriptors (Some (imap (λ i _, mk_DMADescriptor HOST_BUSY (At B_ep0_in (i * 64))) descs))) ;;
    set_in_dma_address 0 (D_ep0_in 0))).

Definition enable_out_disable_in (v : Z) : Z := modify_clear IN0 (modify_set OUT0 v).

Definition expect_setup_packet : Kt unit :=
  modify (set_state WaitingForSetupPacket) ;;
  next ← gets next_ep0_out_idx;
  set_out_flags next (bytes (Z.lor (Z.lor HOST_READY LAST) IOC) 64) ;;
  modify_reg device_all_ep_interrupt_mask enable_out_disable_in ;;
  write (out_control 0) [field_set Enable; field_set ClearNak].

Definition usb_reset : Kt unit :=
  modify (set_state WaitingForSetupPacket) ;;
  modify_reg device_config (field_modify DeviceAddress 0) ;;
  init_ep0_descriptors ;;
  expect_setup_packet.

Definition stall_both_fifos : Kt unit :=
  modify (set_state WaitingForSetupPacket) ;;
  next ← gets next_ep0_out_idx;
  set_out_flags next (bytes (Z.lor LAST IOC) 64) ;;
  modify_reg device_all_ep_interrupt_mask enable_out_disable_in ;;
  write (out_control 0) [field_set Enable; field_set Stall] ;;
  flush_tx_fifo 0 ;;
  write (in_control 0) [field_set Enable; field_set Stall].

Definition handle_unexpected_packet : Kt unit := stall_both_fifos.
Definition handle_bad_packet : Kt unit := stall_both_fifos.

Definition swap_ep0_out_descriptors : Kt unit :=
  map_cell ep0_out_descriptors (λ descs,
    noi ← gets next_ep0_out_idx;
    modify (set_last_ep0_out_idx noi) ;;
    let noi := ((noi + 1) mod length descs)%nat in
    modify (set_next_ep0_out_idx noi) ;;
    set_out_dma_address 0 (D_ep0_out noi)).

(** The control word for the next stage; the NAK is cleared in case C. *)
Definition enable_word (transfer_type : TableCase) : list Z :=
  if decide (transfer_type = CaseC) then [field_set Enable; field_set ClearNak] else [field_set Enable].

Definition enable_in0_out0 (v : Z) : Z := modify_set OUT0 (modify_set IN0 v).

(** The part that [expect_data_phase_in] and [expect_status_phase_in] share. *)
Definition start_in (transfer_type : TableCase) : Kt unit :=
  flush_tx_fifo 0 ;;
  set_in_dma_address 0 (D_ep0_in 0) ;;
  write (in_control 0) (enable_word transfer_type) ;;
  next ← gets next_ep0_out_idx;
  set_out_flags next (bytes (Z.lor (Z.lor HOST_READY LAST) IOC) 64) ;;
  write (out_control 0) (enable_word transfer_type) ;;
  modify_reg device_all_ep_interrupt_mask enable_in0_out0.

Definition expect_data_phase_in (transfer_type : TableCase) : Kt unit :=
  modify (set_state DataStageIn) ;;
  map_cell ep0_in_descriptors (λ _, start_in transfer_type).

Definition IN_FLAGS : Z := Z.lor (Z.lor (Z.lor HOST_READY LAST) SHORT) IOC.

Definition expect_status_phase_in (transfer_type : TableCase) : Kt unit :=
  modify (set_state NoDataStage) ;;
  map_cell ep0_in_descriptors (λ descs,
    b ← gets ep0_in_buffers;
    d ← unwrap (descs !! 0%nat);
    let a := match b with Some _ => At B_ep0_in 0 | None => addr d end in
    modify (set_ep0_in_descriptors (Some (<[0%nat := mk_DMADescriptor (bytes IN_FLAGS 0) a]> descs))) ;;
    start_in transfer_type).

(** *** Descriptors *)

Definition generate_device_descriptor (s : t C) : DeviceDescriptor :=
  mk_DeviceDescriptor 18 1 0x0200 (device_class s) 0x00 0x00 MAX_PACKET_SIZE (vendor_id s) (product_id s) 0x0100
    STRING_VENDOR STRING_BOARD STRING_LANG 1.

(** [f(&mut desc[size..size + n])] *)
Definition into_slice (size n : nat) (f : list Z → option (nat * list Z)) (desc : list Z) : option (nat * list Z) :=
  sub ← slice desc size (size + n);
  r ← f sub;
  Some (fst r, take size desc ++ snd r ++ drop (size + n) desc).

Definition full_configuration_descriptor (desc : list Z) : option (nat * list Z) :=
  let config := ConfigurationDescriptor.new 1 STRING_PLATFORM 50 in
  let attributes := mk_EndpointAttributes Interrupt NoSync Data in
  let u2f := InterfaceDescriptor.new STRING_INTERFACE2 0 3 0 0 in
  let hid := HidDeviceDescriptor.new in
  let ep1out := EndpointDescriptor.new 0x01 attributes 2 in
  let ep1in := EndpointDescriptor.new 0x81 attributes 2 in
  let size := ConfigurationDescriptor.length config in
  r ← into_slice size (InterfaceDescriptor.length u2f) (InterfaceDescriptor.into_u8_buf u2f) desc;
  let size := (size + fst r)%nat in
  r ← into_slice size (HidDeviceDescriptor.length hid) (HidDeviceDescriptor.into_u8_buf hid) (snd r);
  let size := (size + fst r)%nat in
  r ← into_slice size (EndpointDescriptor.length ep1out) (EndpointDescriptor.into_u8_buf ep1out) (snd r);
  let size := (size + fst r)%nat in
  r ← into_slice size (EndpointDescriptor.length ep1in) (EndpointDescriptor.into_u8_buf ep1in) (snd r);
  let size := (size + fst r)%nat in
  let config := ConfigurationDescriptor.set_total_length (wrap 16 (Z.of_nat size)) config in
  r ← into_slice 0 (ConfigurationDescriptor.length config) (ConfigurationDescriptor.into_u8_buf config) (snd r);
  Some (size, snd r).

Definition generate_full_configuration_descriptor : Kt unit :=
  map_cell configuration_descriptor (λ desc,
    r ← unwrap (full_configuration_descriptor desc);
    modify (set_configuration_descriptor (Some (snd r))) ;;
    modify (set_configuration_total_length (wrap 16 (Z.of_nat (fst r))))).

(** *** Setup requests *)

(** [descs[0].flags = (HOST_READY | LAST | SHORT | IOC).bytes(len as u16);
    self.expect_data_phase_in(transfer_type)] *)
Definition reply (len : nat) (r : SetupRequest) (transfer_type : TableCase) : Kt unit :=
  set_in_flags (bytes IN_FLAGS (wrap 16 (Z.min (Z.of_nat len) (w_length r)))) ;;
  expect_data_phase_in transfer_type.

(** [ep0_in_buffers.map(|buf| x.into(buf)).unwrap_or(0)] *)
Definition encode_in (f : list Z → option (nat * list Z)) : Kt nat :=
  b ← gets ep0_in_buffers;
  match b with
  | Some buf => r ← unwrap (f buf); modify (set_ep0_in_buffers (Some (snd r))) ;; mret (fst r)
  | None => mret 0%nat
  end.

(** The words of the configuration descriptor, an array of 64 bytes. *)
Definition configuration_words (desc : list Z) : list Z :=
  (λ i, pack (nth (4 * i + 0) desc 0) (nth (4 * i + 1) desc 0) (nth (4 * i + 2) desc 0) (nth (4 * i + 3) desc 0))
  <$> seq 0 16.

Definition encode_configuration : Kt nat :=
  b ← gets ep0_in_buffers;
  d ← gets configuration_descriptor;
  match b, d with
  | Some buf, Some desc =>
      len ← gets configuration_total_length;
      buf ← unwrap (put_front (configuration_words desc) buf);
      modify (set_ep0_in_buffers (Some buf)) ;;
      mret (Z.to_nat len)
  | _, _ => mret 0%nat
  end.

Definition get_descriptor (transfer_type : TableCase) (r : SetupRequest) : Kt unit :=
  let descriptor_type := Z.shiftr (w_value r) 8 in
  if descriptor_type =? GET_DESCRIPTOR_DEVICE then
    d ← gets generate_device_descriptor;
    len ← encode_in (serialize (device_descriptor_memory d) beyond);
    reply len r transfer_type
  else if descriptor_type =? GET_DESCRIPTOR_CONFIGURATION then
    len ← encode_configuration;
    reply len r transfer_type
  else if descriptor_type =? GET_DESCRIPTOR_INTERFACE then
    len ← encode_in (InterfaceDescriptor.into_u32_buf (InterfaceDescriptor.new STRING_INTERFACE2 0 0x03 0 0));
    reply len r transfer_type
  else if descriptor_type =? GET_DESCRIPTOR_DEVICE_QUALIFIER then stall_both_fifos
  else if descriptor_type =? GET_DESCRIPTOR_STRING then
    map_cell strings (λ strs,
      str ← unwrap (strs !! Z.to_nat (Z.land (w_value r) 0xff));
      len ← encode_in (StringDescriptor.into_u32_buf str);
      reply len r transfer_type)
  else handle_unexpected_packet.

Definition handle_standard_host_to_device (transfer_type : TableCase) (r : SetupRequest) : Kt unit := panic.

Definition handle_standard_device_to_host (transfer_type : TableCase) (r : SetupRequest) : Kt unit :=
  match request r with
  | GetDescriptor => get_descriptor transfer_type r
  | GetConfiguration =>
      v ← gets configuration_current_value;
      len ← encode_in (serialize [v] beyond);
      reply len r transfer_type
  | GetStatus =>
      map_cell ep0_in_buffers (λ buf, b ← unwrap (put_front [0x0] buf); modify (set_ep0_in_buffers (Some b))) ;;
      set_in_flags (bytes IN_FLAGS 2) ;;
      expect_status_phase_in transfer_type
  | _ => handle_unexpected_packet
  end.

(** [buf[i / 4] = c << ..] for the first byte of a word, [buf[i / 4] |= c << ..] for the others. *)
Definition store_byte (i : nat) (c : Z) (buf : list Z) : option (list Z) :=
  w ← buf !! (i / 4)%nat;
  Some (<[(i / 4)%nat := if (i mod 4 =? 0)%nat then Z.shiftl c 0
                         else Z.lor w (Z.shiftl c (8 * Z.of_nat (i mod 4)))]> buf).

(** [for i in i..i + n] over the report descriptor. *)
Fixpoint report_loop (n i : nat) (buf : list Z) : option (list Z) :=
  match n with
  | O => Some buf
  | S n' => c ← U2F_REPORT_DESCRIPTOR !! i; b ← store_byte i c buf; report_loop n' (S i) b
  end.

Definition handle_standard_interface_to_host (transfer_type : TableCase) (r : SetupRequest) : Kt unit :=
  match request r with
  | GetDescriptor =>
      let len := Z.to_nat (w_length r) in
      match from_u8 (wrap 8 (Z.shiftr (w_value r) 8)) with
      | Report =>
          (if (length U2F_REPORT_DESCRIPTOR =? len)%nat then mret tt else handle_bad_packet) ;;
          map_cell ep0_in_buffers (λ buf,
            b ← unwrap (report_loop len 0 buf);
            modify (set_ep0_in_buffers (Some b)) ;;
            set_in_flags (bytes IN_FLAGS (wrap 16 (Z.of_nat len))) ;;
            expect_data_phase_in transfer_type)
      | _ => handle_unexpected_packet
      end
  | _ => handle_unexpected_packet
  end.

Definition handle_standard_host_to_interface (transfer_type : TableCase) (r : SetupRequest) : Kt unit :=
  handle_unexpected_packet.
Definition handle_class_interface_to_host (transfer_type : TableCase) (r : SetupRequest) : Kt unit :=
  handle_unexpected_packet.
Definition handle_class_host_to_interface (transfer_type : TableCase) (r : SetupRequest) : Kt unit :=
  match class_request r with SetIdle => stall_both_fifos | _ => handle_unexpected_packet end.

(** Endpoint 1, which becomes active with the address. *)
Definition U2F_FLAGS : Z := bytes (Z.lor (Z.lor LAST HOST_READY) IOC) U2F_REPORT_SIZE.
Definition INTERRUPT_TYPE : Z := 3.

Definition setup_u2f_descriptors : Kt unit :=
  map_cell ep1_out_descriptor (λ _, map_cell ep1_out_buffer (λ _,
    modify (set_ep1_out_descriptor (Some (mk_DMADescriptor U2F_FLAGS (At B_ep1_out 0)))) ;;
    set_out_dma_address 1 D_ep1_out)) ;;
  map_cell ep1_in_descriptor (λ _, map_cell ep1_in_buffer (λ _,
    modify (set_ep1_in_descriptor (Some (mk_DMADescriptor (Z.lor (Z.lor LAST HOST_BUSY) IOC) (At B_ep1_in 0)))) ;;
    set_in_dma_address 1 D_ep1_in)) ;;
  map_cell ep1_out_descriptor (λ _, map_cell ep1_out_buffer (λ _,
    write (out_control 1) [field_set Enable; field_set ClearNak; field_set UsbActiveEndpoint;
                           field_val EndpointType INTERRUPT_TYPE; field_val MaximumPacketSize U2F_REPORT_SIZE])) ;;
  map_cell ep1_in_descriptor (λ _, map_cell ep1_in_buffer (λ _,
    write (in_control 1) [field_set UsbActiveEndpoint; field_val TxFifoNumber 1;
                          field_val EndpointType INTERRUPT_TYPE; field_val MaximumPacketSize U2F_REPORT_SIZE])) ;;
  modify_reg device_all_ep_interrupt_mask (λ v, modify_set IN1 (modify_set OUT1 v)).

Definition handle_standard_no_data_phase (transfer_type : TableCase) (r : SetupRequest) : Kt unit :=
  match request r with
  | GetStatus => handle_unexpected_packet
  | SetAddress =>
      let new_addr := Z.land (w_value r) 0x7f in
      modify_reg device_config (field_modify DeviceAddress new_addr) ;;
      setup_u2f_descriptors ;;
      expect_status_phase_in transfer_type
  | SetConfiguration =>
      modify (set_configuration_current_value (wrap 8 (w_value r))) ;;
      expect_status_phase_in transfer_type
  | _ => handle_unexpected_packet
  end.

Definition dispatch (transfer_type : TableCase) (r : SetupRequest) : Kt unit :=
  match req_type r, recipient r with
  | Standard, ToDevice =>
      match data_direction r with
      | DeviceToHost => handle_standard_device_to_host transfer_type r
      | HostToDevice =>
          if 0 <? w_length r then handle_standard_host_to_device transfer_type r
          else handle_standard_no_data_phase transfer_type r
      end
  | Standard, ToInterface =>
      match data_direction r with
      | DeviceToHost => handle_standard_interface_to_host transfer_type r
      | HostToDevice => handle_standard_host_to_interface transfer_type r
      end
  | Standard, _ => mret tt
  | Class_, ToInterface =>
      match data_direction r with
      | DeviceToHost => handle_class_interface_to_host transfer_type r
      | HostToDevice => handle_class_host_to_interface transfer_type r
      end
  | _, _ => mret tt
  end.

Definition handle_setup (transfer_type : TableCase) : Kt unit :=
  map_cell ep0_out_buffers (λ bufs,
    last ← gets last_ep0_out_idx;
    buf ← unwrap (bufs !! last);
    r ← unwrap (setup_new buf);
    dispatch transfer_type r).

(** *** Interrupts *)

(** [TableCase::decode_interrupt] *)
Definition decode_interrupt (v : Z) : TableCase :=
  if is_set TransferCompleted v then
    if is_set SetupPhaseDone v then CaseC
    else if is_set StatusPhaseReceived v then CaseE
    else CaseA
  else if is_set SetupPhaseDone v then CaseB else CaseD.

Definition in_detected : Kt unit :=
  write (in_control 0) [field_set Enable; field_set ClearNak] ;;
  write (out_control 0) [field_set Enable; field_set ClearNak].

Definition handle_endpoint0_events (out_interrupt in_interrupt : bool) : Kt unit :=
  ep_out_interrupts ← read (Usb.out_interrupt 0);
  (if out_interrupt then write (Usb.out_interrupt 0) [ep_out_interrupts] else mret tt) ;;
  ep_in_interrupts ← read (Usb.in_interrupt 0);
  (if in_interrupt then write (Usb.in_interrupt 0) [ep_in_interrupts] else mret tt) ;;
  (if out_interrupt && is_set TransferCompleted ep_out_interrupts then swap_ep0_out_descriptors else mret tt) ;;
  let transfer_type := decode_interrupt ep_out_interrupts in
  descs ← gets ep0_out_descriptors;
  descs ← unwrap descs;
  last ← gets last_ep0_out_idx;
  desc ← unwrap (descs !! last);
  let setup_ready := Z.land (flags desc) SETUP_READY =? SETUP_READY in
  st ← gets state;
  match st with
  | WaitingForSetupPacket =>
      match transfer_type with
      | CaseA | CaseC => if setup_ready then handle_setup transfer_type else handle_unexpected_packet
      | CaseB => stall_both_fifos
      | _ => mret tt
      end
  | DataStageIn =>
      (if in_interrupt && is_set TransferCompleted ep_in_interrupts then write (in_control 0) [field_set Enable]
       else mret tt) ;;
      if out_interrupt then
        match transfer_type with
        | CaseB => in_detected
        | CaseA | CaseC => if setup_ready then handle_setup transfer_type else expect_setup_packet
        | _ => mret tt
        end
      else mret tt
  | NoDataStage =>
      (if in_interrupt && is_set TransferCompleted ep_in_interrupts then write (in_control 0) [field_set Enable]
       else mret tt) ;;
      if out_interrupt then
        match transfer_type with
        | CaseB => in_detected
        | CaseA | CaseC => if setup_ready then handle_setup transfer_type else expect_setup_packet
        | _ => expect_setup_packet
        end
      else mret tt
  end.

Definition client_call (f : Kt unit) : Kt unit := map_cell u2f_client (λ _, f).

Definition handle_endpoint1_events (out_interrupt in_interrupt : bool) : Kt unit :=
  (if in_interrupt then
     v ← read (Usb.in_interrupt 1);
     write (Usb.in_interrupt 1) [v] ;;
     if is_set TransferCompleted v then client_call frame_transmitted else mret tt
   else mret tt) ;;
  if out_interrupt then
    v ← read (Usb.out_interrupt 1);
    write (Usb.out_interrupt 1) [v] ;;
    if is_set TransferCompleted v then client_call frame_received else mret tt
  else mret tt.

Definition handle_interrupt : Kt unit :=
  status ← read interrupt_status;
  mask ← read interrupt_mask;
  (if is_set StartOfFrame mask && is_set StartOfFrame status then modify_reg interrupt_mask (modify_clear StartOfFrame)
   else mret tt) ;;
  (if is_set Reset status || is_set ResetDetected status then usb_reset else mret tt) ;;
  (if is_set InEndpoints status || is_set OutEndpoints status then
     pending ← read device_all_ep_interrupt;
     let inter_ep0_out := is_set OUT0 pending in
     let inter_ep0_in := is_set IN0 pending in
     let inter_ep1_out := is_set OUT1 pending in
     let inter_ep1_in := is_set IN1 pending in
     if inter_ep0_out || inter_ep0_in then handle_endpoint0_events inter_ep0_out inter_ep0_in
     else if inter_ep1_out || inter_ep1_in then handle_endpoint1_events inter_ep1_out inter_ep1_in
     else mret tt
   else mret tt) ;;
  (if is_set GlobalOutNak status then modify_reg device_control (modify_set ClearGlobalOutNak) else mret tt) ;;
  (if is_set GlobalInNak status then modify_reg device_control (modify_set ClearGlobalNonPeriodicInNak) else mret tt) ;;
  write interrupt_status [status].

(** *** Initialization *)

(** [Clock::enable]: a write to the clock-enable register of the power unit. *)
Definition USB0_CLOCK : Z := 8.
Definition USB0_TIMER_HS_CLOCK : Z := 9.
Definition enable_clock (n : Z) : Kt unit := modify (λ s, set_clock_writes (clock_writes s ++ [Z.shiftl 1 n]) s).

Definition write_usb_configuration : Kt unit :=
  write configuration [field_val PhySelect 1; field_val FullSpeedSerialInterfaceSelect 0;
                       field_val UsbTurnaroundTime 14; field_val TimeoutCalibration 7].

Definition clear_endpoint_interrupts : Kt unit :=
  modify (λ s, foldl (λ s i, store (out_interrupt i) 0xFFFFFFFF s) s (seq 0 16)) ;;
  modify (λ s, foldl (λ s i, store (in_interrupt i) 0xFFFFFFFF s) s (seq 0 16)) ;;
  write interrupt_status [0xFFFFFFFF].

Definition init (od : list DMADescriptor) (ob : list (list Z)) (idesc : list DMADescriptor) (ib : list Z)
    (od1 : DMADescriptor) (ob1 : list Z) (id1 : DMADescriptor) (ib1 : list Z) (cb : list Z) (phy : PHY)
    (class_ vid pid : option Z) (strs : list StringDescriptor.t) : Kt unit :=
  modify (set_ep0_out_descriptors (Some od)) ;;
  modify (set_ep0_out_buffers (Some ob)) ;;
  modify (set_ep0_in_descriptors (Some idesc)) ;;
  modify (set_ep0_in_buffers (Some ib)) ;;
  modify (set_ep1_out_descriptor (Some od1)) ;;
  modify (set_ep1_out_buffer (Some ob1)) ;;
  modify (set_ep1_in_descriptor (Some id1)) ;;
  modify (set_ep1_in_buffer (Some ib1)) ;;
  modify (set_configuration_descriptor (Some cb)) ;;
  modify (set_strings (Some strs)) ;;
  (match class_ with Some v => modify (set_device_class v) | None => mret tt end) ;;
  (match vid with Some v => modify (set_vendor_id v) | None => mret tt end) ;;
  (match pid with Some v => modify (set_product_id v) | None => mret tt end) ;;
  generate_full_configuration_descriptor ;;
  enable_clock USB0_CLOCK ;;
  enable_clock USB0_TIMER_HS_CLOCK ;;
  write interrupt_mask [0] ;;
  write device_all_ep_interrupt_mask [0] ;;
  write device_in_ep_interrupt_mask [0] ;;
  write device_out_ep_interrupt_mask [0] ;;
  write gpio [field_val GpoOperation 1; field_val GpoRegister 0;
              field_val GpoValue (match phy with PhyA => 4 | PhyB => 5 end)] ;;
  write_usb_configuration ;;
  soft_reset ;;
  write_usb_configuration ;;
  write ahb_config [field_set GlobalInterruptMask; field_set DmaEnable; field_set NonPeriodicTxFifoEmptyLevel] ;;
  modify_reg device_control (modify_set SoftDisconnect) ;;
  modify_reg device_config (λ v, modify_set EnableScatterGatherDMAInDeviceMode (field_modify DeviceSpeed Full1 v)) ;;
  setup_data_fifos ;;
  clear_endpoint_interrupts ;;
  write device_out_ep_interrupt_mask [field_set TransferCompleted; field_set EndpointDisabled; field_set SetupPhaseDone] ;;
  write device_in_ep_interrupt_mask [field_set TransferCompleted; field_set EndpointDisabled] ;;
  write interrupt_mask [field_set GlobalOutNak; field_set GlobalInNak; field_set Reset; field_set EnumerationDone;
                        field_set InEndpoints; field_set OutEndpoints; field_set EarlySuspend; field_set Suspend;
                        field_set StartOfFrame] ;;
  modify_reg device_control (modify_set PowerOnProgrammingDone) ;;
  modify_reg device_control (modify_clear PowerOnProgrammingDone) ;;
  modify_reg device_control (λ v, modify_set ClearGlobalNonPeriodicInNak (modify_set ClearGlobalOutNak v)) ;;
  modify_reg device_control (modify_clear SoftDisconnect).

(** *** The U2F interface of endpoint 1 *)

Definition u2f_set_client (c : C) : Kt unit := modify (set_u2f_client (Some c)).

Definition ep1_tx_fifo_is_ready (s : t C) : bool :=
  match ep1_in_descriptor s with
  | Some d => (Z.land (flags d) STATUS_MASK =? DMA_DONE) || (Z.land (flags d) STATUS_MASK =? HOST_BUSY)
  | None => false
  end.

Definition ep1_rx_fifo_is_ready (s : t C) : bool :=
  match ep1_out_descriptor s with Some d => Z.land (flags d) DMA_DONE =? DMA_DONE | None => false end.

Definition ep1_enable_tx : Kt unit :=
  map_cell ep1_in_descriptor (λ d,
    modify (set_ep1_in_descriptor (Some (mk_DMADescriptor U2F_FLAGS (addr d)))) ;;
    modify_reg (in_control 1) (λ v, modify_set ClearNak (modify_set Enable v))).

Definition ep1_enable_rx : Kt ReturnCode :=
  o ← gets ep1_out_descriptor;
  match o with
  | Some d =>
      modify (set_ep1_out_descriptor (Some (mk_DMADescriptor U2F_FLAGS (addr d)))) ;;
      modify_reg (out_control 1) (λ v, modify_set ClearNak (modify_set Enable v)) ;;
      mret SUCCESS
  | None => mret FAIL
  end.

Definition force_reconnect : Kt ReturnCode := panic.
Definition enable_rx : Kt ReturnCode := ep1_enable_rx ;; mret SUCCESS.
Definition iface_respond : Kt ReturnCode := mret FAIL.
Definition transmit_ready : Kt bool := gets ep1_tx_fifo_is_ready.

Definition put_frame (frame : list Z) : Kt ReturnCode :=
  ready ← gets ep1_tx_fifo_is_ready;
  if ready : bool then
    map_cell ep1_in_buffer (λ hw, b ← unwrap (put_front frame hw); modify (set_ep1_in_buffer (Some b))) ;;
    ep1_enable_tx ;;
    mret SUCCESS
  else mret EBUSY.

(** [for (i, c) in slice.iter().enumerate()] *)
Fixpoint slice_loop (i : nat) (slice buf : list Z) : option (list Z) :=
  match slice with
  | [] => Some buf
  | c :: slice' => b ← store_byte i c buf; slice_loop (S i) slice' b
  end.

Definition put_slice (slice : list Z) : Kt ReturnCode :=
  if (64 <? length slice)%nat then mret ESIZE
  else
    ready ← gets ep1_tx_fifo_is_ready;
    if ready : bool then
      map_cell ep1_in_buffer (λ hw, b ← unwrap (slice_loop 0 slice hw); modify (set_ep1_in_buffer (Some b))) ;;
      ep1_enable_tx ;;
      mret SUCCESS
    else mret EBUSY.

(** [get_frame] and [get_slice] return the caller's buffer. *)
Definition get_frame (frame : list Z) : Kt (list Z) :=
  o ← gets ep1_out_buffer;
  match o with
  | Some hw => if (16 <=? length hw)%nat && (16 <=? length frame)%nat then mret (take 16 hw ++ drop 16 frame) else panic
  | None => mret frame
  end.

Definition get_slice (slice : list Z) : Kt (ReturnCode * list Z) :=
  if (64 <? length slice)%nat then mret (ESIZE, slice)
  else
    o ← gets ep1_out_buffer;
    match o with
    | Some hw =>
        bytes ← unwrap (mapM (λ i, w ← hw !! (i / 4)%nat;
                             Some (Z.land (Z.shiftr w (8 * Z.of_nat (i mod 4))) 0xff)) (seq 0 (length slice)));
        mret (SUCCESS, bytes)
    | None => mret (SUCCESS, slice)
    end.

End Driver.
End USB.
