(* ===== verification/UsbFacts.v ===== *)
(** Facts about the USB driver: what the encoders leave in the buffers, what each
    setup packet is answered, which state is kept by every operation, and what
    travels over endpoint 1. *)

From S2P Require Import Prelude Io Tock Registers UsbTypes Usb.
From Stdlib Require Import ZArith Lia.
From stdpp Require Import base decidable option list list_numbers.

#[local] Open Scope Z_scope.

Import USB.

(** ** Bytes stored into words *)

Lemma le_value_zeros l n : le_value (l ++ replicate n 0) = le_value l.
Proof. induction l as [|b l IH]; cbn [app le_value]; [|by rewrite IH]. induction n as [|n IH]; [done|]. cbn [replicate le_value]. lia. Qed.

Lemma le_bytes_padded l : bytes_ok l → (length l <= 4)%nat → le_bytes 4 (le_value l) = l ++ replicate (4 - length l) 0.
Proof.
  intros Hb Hl. rewrite <-(le_value_zeros l (4 - length l)).
  replace 4%nat with (length (l ++ replicate (4 - length l) 0)) at 1 by (rewrite length_app, length_replicate; lia).
  apply le_bytes_value. apply bytes_ok_app. split; [done|]. apply Forall_replicate. done.
Qed.

Lemma le_value_snoc l c : le_value (l ++ [c]) = le_value l + 256 ^ Z.of_nat (length l) * c.
Proof.
  induction l as [|b l IH]; cbn [app le_value length]; [rewrite Z.pow_0_r; lia|]. rewrite IH, Nat2Z.inj_succ, Z.pow_succ_r by lia. lia.
Qed.

(** One more byte of a word. *)
Lemma store_byte_next k l c buf : bytes_ok l → (length l < 4)%nat → buf !! k = Some (le_value l) ∨ l = [] ∧ (k < length buf)%nat →
  store_byte (4 * k + length l) c buf = Some (<[k := le_value (l ++ [c])]> buf).
Proof.
  intros Hb Hl Hk. unfold store_byte.
  assert ((4 * k + length l) / 4 = k)%nat as -> by (rewrite Nat.mul_comm, Nat.div_add_l, Nat.div_small by lia; lia).
  assert ((4 * k + length l) mod 4 = length l)%nat as -> by (rewrite Nat.add_comm, Nat.mul_comm, Nat.Div0.mod_add, Nat.mod_small by lia; lia).
  destruct Hk as [Hk|[-> Hk]].
  - rewrite Hk. cbn [mbind option_bind]. do 2 f_equal. rewrite le_value_snoc. destruct l as [|b l].
    { cbn [length Nat.eqb le_value]. rewrite Z.shiftl_0_r, Z.pow_0_r. lia. }
    rewrite (proj2 (Nat.eqb_neq _ _)) by (simpl; lia).
    pose proof (le_value_bound _ Hb) as Hv. rewrite lor_disjoint_add; [|lia|rewrite Z.pow_mul_r by lia; exact Hv].
    by rewrite Z.pow_mul_r by lia.
  - destruct (lookup_lt_is_Some_2 buf k Hk) as [w ->]. cbn [mbind option_bind length Nat.eqb app le_value]. do 2 f_equal.
    rewrite Z.shiftl_0_r. lia.
Qed.

Lemma slice_loop_app i a b buf : slice_loop i (a ++ b) buf = slice_loop i a buf ≫= slice_loop (i + length a) b.
Proof.
  revert i buf. induction a as [|c a IH]; intros i buf; cbn [app slice_loop length].
  - cbn. by rewrite Nat.add_0_r.
  - destruct (store_byte i c buf) as [x|]; [|done]. cbn [mbind option_bind]. rewrite IH. by rewrite Nat.add_succ_r.
Qed.

(** The bytes of one word. *)
Lemma slice_loop_word k pre l buf : bytes_ok (pre ++ l) → (length pre + length l <= 4)%nat → l ≠ [] →
  buf !! k = Some (le_value pre) ∨ pre = [] ∧ (k < length buf)%nat →
  slice_loop (4 * k + length pre) l buf = Some (<[k := le_value (pre ++ l)]> buf).
Proof.
  revert pre buf. induction l as [|c l IH]; intros pre buf Hb Hl Hne Hk; [done|]. cbn [slice_loop length] in *.
  apply bytes_ok_app in Hb as [Hp Hcl]. rewrite store_byte_next by (done || lia). cbn [mbind option_bind].
  assert (k < length buf)%nat as Hlt by (destruct Hk as [Hk|[_ Hk]]; [by apply lookup_lt_Some in Hk|done]).
  destruct l as [|d l]; [done|]. replace (S (4 * k + length pre)) with (4 * k + length (pre ++ [c]))%nat by (rewrite length_app; simpl; lia).
  rewrite IH.
  - rewrite list_insert_insert_eq, <-(assoc_L (++)). done.
  - rewrite <-(assoc_L (++)). by apply bytes_ok_app.
  - rewrite length_app. cbn [length] in *. lia.
  - done.
  - left. by apply list_lookup_insert_eq.
Qed.

Definition padding (n : nat) : nat := ((n + 3) / 4 * 4 - n)%nat.

(** What the loop leaves: the bytes, zeros up to the end of the last word, and the old contents. *)
Lemma slice_loop_bytes k slice buf : bytes_ok slice → (4 * k + length slice <= 4 * length buf)%nat →
  ∃ buf', slice_loop (4 * k) slice buf = Some buf' ∧ length buf' = length buf ∧
    register_bytes buf' = take (4 * k) (register_bytes buf) ++ slice ++ replicate (padding (length slice)) 0 ++
                          drop (4 * k + length slice + padding (length slice)) (register_bytes buf).
Proof.
  remember (length slice) as n eqn:En. revert k slice buf En. induction n as [n IH] using lt_wf_ind. intros k slice buf En Hb Hl.
  destruct (decide (n = 0)%nat) as [->|Hn0].
  { destruct slice; [|done]. exists buf. split_and!; [done..|]. cbn [app]. change (padding 0) with 0%nat. cbn [replicate app].
    by rewrite !Nat.add_0_r, take_drop. }
  assert (k < length buf)%nat as Hk by lia. assert (length (register_bytes buf) = 4 * length buf)%nat as HlB by apply length_register_bytes.
  destruct (decide (n <= 4)%nat) as [Hn4|Hn4].
  - pose proof (slice_loop_word k [] slice buf Hb) as Hw. cbn [length app Nat.add] in Hw. rewrite Nat.add_0_r in Hw.
    rewrite Hw by (first [lia | by (intros ->) | by right]). eexists. split; [done|]. rewrite length_insert. split; [done|].
    rewrite register_bytes_insert by done. rewrite le_bytes_padded by (done || lia). rewrite <-!(assoc_L (++)), <-En.
    assert (padding n = 4 - n)%nat as ->.
    { unfold padding. replace ((n + 3) / 4)%nat with 1%nat; [lia|]. apply Nat.div_unique with (r := (n - 1)%nat); lia. }
    do 4 f_equal. lia.
  - assert (slice = take 4 slice ++ drop 4 slice) as Es by (by rewrite take_drop).
    assert (length (take 4 slice) = 4)%nat as Hl4 by (rewrite length_take; lia).
    rewrite Es in Hb. apply bytes_ok_app in Hb as [Hb1 Hb2].
    pose proof (slice_loop_word k [] (take 4 slice) buf Hb1) as Hw. cbn [length app Nat.add] in Hw. rewrite Nat.add_0_r in Hw.
    destruct (IH (n - 4)%nat ltac:(lia) (S k) (drop 4 slice) (<[k := le_value (take 4 slice)]> buf)) as (buf' & E & Hlen & Hby).
    { rewrite length_drop. lia. }
    { done. }
    { rewrite length_insert. lia. }
    exists buf'. rewrite length_insert in Hlen. split; [|split; [done|]].
    { rewrite Es, slice_loop_app, Hw, Hl4 by (first [lia | (intros E0; by rewrite E0 in Hl4) | by right]).
      cbn [mbind option_bind]. replace (4 * k + 4)%nat with (4 * S k)%nat by lia. exact E. }
    rewrite Hby, register_bytes_insert, le_bytes_padded, Hl4 by (done || lia). change (replicate (4 - 4) 0) with (@nil Z). rewrite app_nil_r.
    set (A := take (4 * k) (register_bytes buf) ++ take 4 slice).
    assert (length A = 4 * S k)%nat as HA by (subst A; rewrite length_app, length_take; lia).
    replace (take (4 * k) (register_bytes buf) ++ take 4 slice ++ drop (4 * k + 4) (register_bytes buf))
      with (A ++ drop (4 * k + 4) (register_bytes buf)) by (subst A; by rewrite <-(assoc_L (++))).
    rewrite take_app_length' by done. rewrite drop_app_ge, HA, drop_drop by lia.
    assert (padding (n - 4) = padding n) as ->.
    { unfold padding. replace ((n + 3) / 4)%nat with ((n - 4 + 3) / 4 + 1)%nat; [lia|].
      rewrite <-(Nat.div_add (n - 4 + 3) 1 4) by lia. f_equal. lia. }
    rewrite Es at 2. subst A. rewrite <-!(assoc_L (++)). do 5 f_equal. lia.
Qed.

(** *** The report and the configuration descriptor *)

Lemma report_loop_slice n i buf : (i + n <= length U2F_REPORT_DESCRIPTOR)%nat →
  report_loop n i buf = slice_loop i (take n (drop i U2F_REPORT_DESCRIPTOR)) buf.
Proof.
  revert i buf. induction n as [|n IH]; intros i buf Hi; [by rewrite take_0|]. cbn [report_loop].
  destruct (lookup_lt_is_Some_2 U2F_REPORT_DESCRIPTOR i ltac:(lia)) as [c Hc]. rewrite Hc, (drop_S _ _ _ Hc). cbn [mbind option_bind firstn slice_loop].
  destruct (store_byte i c buf); [|done]. cbn [mbind option_bind]. apply IH. lia.
Qed.

Lemma report_loop_none n i buf : (i <= length U2F_REPORT_DESCRIPTOR < i + n)%nat → report_loop n i buf = None.
Proof.
  revert i buf. induction n as [|n IH]; intros i buf Hi; [lia|]. cbn [report_loop].
  destruct (U2F_REPORT_DESCRIPTOR !! i) as [c|] eqn:Hc; [|done]. apply lookup_lt_Some in Hc.
  cbn [mbind option_bind]. destruct (store_byte i c buf); [|done]. apply IH. lia.
Qed.

Lemma take_nth_4 (l : list Z) n : (n + 4 <= length l)%nat →
  take (n + 4) l = take n l ++ [nth (n + 0) l 0; nth (n + 1) l 0; nth (n + 2) l 0; nth (n + 3) l 0].
Proof.
  intros Hl. rewrite <-(take_drop n l) at 1. rewrite take_app_ge by (rewrite length_take; lia).
  rewrite length_take. replace (n + 4 - n `min` length l)%nat with 4%nat by lia. f_equal.
  assert (∀ k, nth (n + k) l 0 = nth k (drop n l) 0) as Hn.
  { intros k. rewrite <-(take_drop n l) at 1. rewrite app_nth2 by (rewrite length_take; lia). f_equal. rewrite length_take. lia. }
  rewrite !Hn. assert (4 <= length (drop n l))%nat as H4 by (rewrite length_drop; lia).
  destruct (drop n l) as [|a [|b [|c [|d r]]]]; simpl in H4; [lia..|]. done.
Qed.

Lemma configuration_words_bytes desc : bytes_ok desc → length desc = 64%nat → register_bytes (configuration_words desc) = desc.
Proof.
  intros Hb Hl. unfold configuration_words. transitivity (take (4 * 16) desc); [|apply take_ge; lia].
  assert (16 * 4 <= length desc)%nat as H16 by lia. revert H16. generalize 16%nat as n.
  induction n as [|n IH]; intros Hn; [done|]. rewrite seq_S, fmap_app, register_bytes_app, IH by lia.
  replace (4 * S n)%nat with (4 * n + 4)%nat by lia. rewrite take_nth_4 by lia. f_equal.
  unfold register_bytes. cbn [fmap list_fmap concat Nat.add]. rewrite app_nil_r, le_bytes_pack; [done|].
  assert (∀ k, fits 8 (nth k desc 0)) as Hf.
  { intros k. destruct (decide (k < length desc)%nat); [|rewrite nth_overflow by lia; done]. eapply Forall_nth; [done|lia]. }
  by repeat apply Forall_cons_2.
Qed.

(** ** The state of the driver *)

Section State.
Context {C : Type}.
Implicit Types s : t C.

Record wf (s : t C) : Prop := mk_wf {
  wf_out : ∃ od, ep0_out_descriptors s = Some od ∧ length od = 2%nat;
  wf_out_buffers : ∃ ob, ep0_out_buffers s = Some ob ∧ length ob = 2%nat ∧ Forall (λ b, length b = 16%nat) ob;
  wf_in : ∃ ds, ep0_in_descriptors s = Some ds ∧ length ds = 4%nat;
  wf_in_buffer : ∃ b, ep0_in_buffers s = Some b ∧ length b = 64%nat;
  wf_idx : (next_ep0_out_idx s < 2)%nat ∧ (last_ep0_out_idx s < 2)%nat;
  wf_ep1_out : ∃ d b, ep1_out_descriptor s = Some d ∧ ep1_out_buffer s = Some b ∧ length b = 16%nat;
  wf_ep1_in : ∃ d b, ep1_in_descriptor s = Some d ∧ ep1_in_buffer s = Some b ∧ length b = 16%nat;
  wf_ids : fits 8 (device_class s) ∧ fits 16 (vendor_id s) ∧ fits 16 (product_id s) ∧ fits 8 (configuration_current_value s);
  wf_configuration : ∃ d, configuration_descriptor s = Some d ∧ length d = 64%nat ∧ bytes_ok d ∧ configuration_total_length s = 41;
  wf_strings : ∃ l, strings s = Some l ∧ Forall (λ d, string_ok d ∧ (length (StringDescriptor.b_string d) <= 126)%nat) l
}.

(** The first IN descriptor points to the start of the buffer, as after a bus reset. *)
Definition addressed (s : t C) : Prop :=
  ∃ ds d, ep0_in_descriptors s = Some ds ∧ ds !! 0%nat = Some d ∧ addr d = At B_ep0_in 0.

(** What endpoint 0 changes besides its state, buffers and IN descriptors. *)
Definition upd (r : UReg → Z) (d : nat → option DescRef) (rr : list Z) (od : list DMADescriptor) (s : t C) : t C :=
  set_regs r (set_in_dma d (set_reset_reads rr (set_ep0_out_descriptors (Some od) s))).

Lemma wf_upd r d rr od s : length od = 2%nat → wf s → wf (upd r d rr od s).
Proof. intros Hl []. constructor; try done. by exists od. Qed.
Lemma wf_set_state x s : wf s → wf (set_state x s).
Proof. intros []. by constructor. Qed.
Lemma wf_set_regs x s : wf s → wf (set_regs x s).
Proof. intros []. by constructor. Qed.
Lemma wf_set_out_dma x s : wf s → wf (set_out_dma x s).
Proof. intros []. by constructor. Qed.
Lemma wf_set_in_dma x s : wf s → wf (set_in_dma x s).
Proof. intros []. by constructor. Qed.
Lemma wf_set_in_buffer b s : length b = 64%nat → wf s → wf (set_ep0_in_buffers (Some b) s).
Proof. intros Hl []. constructor; try done. by exists b. Qed.
Lemma wf_set_in ds s : length ds = 4%nat → wf s → wf (set_ep0_in_descriptors (Some ds) s).
Proof. intros Hl []. constructor; try done. by exists ds. Qed.
Lemma wf_set_current v s : fits 8 v → wf s → wf (set_configuration_current_value v s).
Proof. intros Hl []. constructor; try done. by destruct wf_ids0 as (? & ? & ? & ?). Qed.

End State.

Create HintDb usb.
#[export] Hint Resolve wf_upd wf_set_state wf_set_regs wf_set_out_dma wf_set_in_dma wf_set_in_buffer wf_set_in wf_set_current : usb.

Section Driver.
Context {C : Type} `{RegisterLaws} `{!UsbHidU2fClient C} (beyond : nat → Z).
Implicit Types s : t C.

Lemma set_out_flags_ok i v s od : ep0_out_descriptors s = Some od → (i < length od)%nat →
  ∃ od', set_out_flags i v s = (Ok tt, set_ep0_out_descriptors (Some od') s) ∧ length od' = length od.
Proof.
  intros Ho Hi. unfold set_out_flags, map_cell, with_flags. rewrite bind_unfold. unfold gets at 1. rewrite Ho.
  destruct (lookup_lt_is_Some_2 od i Hi) as [d Hd]. rewrite Hd. cbn. eexists. split; [done|]. apply length_insert.
Qed.

(** Runs [set_out_flags] on the next descriptor of the list [od]. *)
Ltac run_out_flags od :=
  match goal with |- context [(set_out_flags ?i ?v ≫= _) ?s1] =>
    let E := fresh in destruct (set_out_flags_ok i v s1 od) as (? & E & ?); [done|cbn; lia|rewrite (bind_ok _ _ _ _ _ E); run] end.

Lemma start_in_ok tc s : wf s → ∃ r d rr od, start_in tc s = (Ok tt, upd r d rr od s) ∧ length od = 2%nat ∧
  r (in_control 0) = field_sum (enable_word tc) ∧ r (out_control 0) = field_sum (enable_word tc) ∧
  r device_config = regs s device_config ∧ d 0%nat = Some (D_ep0_in 0).
Proof.
  intros [(od & Ho & Hl) _ _ _ [Hn _] _ _ _ _ _].
  unfold start_in, flush_tx_fifo, write, set_in_dma_address, modify_reg. run. run_out_flags od.
  do 4 eexists. split; [reflexivity|]. split; [congruence|done].
Qed.

Lemma stall_ok s : wf s → ∃ r d rr od, stall_both_fifos s = (Ok tt, set_state WaitingForSetupPacket (upd r d rr od s)) ∧
  length od = 2%nat ∧ r (in_control 0) = field_sum [field_set Enable; field_set Stall] ∧
  r (out_control 0) = field_sum [field_set Enable; field_set Stall] ∧ r device_config = regs s device_config.
Proof.
  intros [(od & Ho & Hl) _ _ _ [Hn _] _ _ _ _ _].
  unfold stall_both_fifos, flush_tx_fifo, write, modify_reg. run. run_out_flags od.
  do 4 eexists. split; [reflexivity|]. split; [congruence|done].
Qed.

Lemma expect_setup_ok s : wf s → ∃ r d rr od, expect_setup_packet s = (Ok tt, set_state WaitingForSetupPacket (upd r d rr od s)) ∧
  length od = 2%nat.
Proof.
  intros [(od & Ho & Hl) _ _ _ [Hn _] _ _ _ _ _].
  unfold expect_setup_packet, write, modify_reg. run. run_out_flags od.
  do 4 eexists. split; [reflexivity|congruence].
Qed.

(** ** What the host sees *)

(** What the controller sends for the next IN token: the descriptor it was given, when that is ready. *)
Definition dma_in (s : t C) : option (list Z) :=
  match in_dma s 0 with
  | Some (D_ep0_in i) =>
      ds ← ep0_in_descriptors s; d ← ds !! i; b ← ep0_in_buffers s;
      match addr d with
      | At B_ep0_in off =>
          if Z.land (flags d) STATUS_MASK =? HOST_READY
          then Some (take (Z.to_nat (Z.land (flags d) 0xffff)) (drop off (register_bytes b))) else None
      | _ => None
      end
  | _ => None
  end.

Definition enabled (s : t C) (r : UReg) : Prop := is_set Enable (regs s r) = true ∧ is_set Stall (regs s r) = false.
Definition stalled (s : t C) (r : UReg) : Prop := is_set Enable (regs s r) = true ∧ is_set Stall (regs s r) = true.

(** Endpoint 0 is in a stage of state [st], about to send [data]. *)
Definition presents (st : USBState) (data : list Z) (s : t C) : Prop :=
  state s = st ∧ dma_in s = Some data ∧ enabled s (in_control 0) ∧ enabled s (out_control 0).

Definition refused (s : t C) : Prop :=
  state s = WaitingForSetupPacket ∧ stalled s (in_control 0) ∧ stalled s (out_control 0).

Lemma enable_word_bits tc : is_set Enable (field_sum (enable_word tc)) = true ∧ is_set Stall (field_sum (enable_word tc)) = false.
Proof.
  unfold is_set, enable_word, field_sum, field_set. destruct (decide (tc = CaseC)); cbn [foldl];
    rewrite !field_read_bits, ?field_add_bits, !field_val_bits; by split; vm_compute.
Qed.

Lemma stall_word_bits : is_set Enable (field_sum [field_set Enable; field_set Stall]) = true ∧
  is_set Stall (field_sum [field_set Enable; field_set Stall]) = true.
Proof.
  unfold is_set, field_sum, field_set. cbn [foldl]. rewrite !field_read_bits, !field_add_bits, !field_val_bits. by split; vm_compute.
Qed.

Lemma in_flags_bits n : fits 16 n →
  Z.land (bytes IN_FLAGS n) STATUS_MASK = HOST_READY ∧ Z.land (bytes IN_FLAGS n) 0xffff = n.
Proof.
  intros Hn. unfold bytes. rewrite !Z.land_lor_distr_l. change (Z.land IN_FLAGS STATUS_MASK) with 0.
  change (Z.land IN_FLAGS 0xffff) with 0. rewrite !Z.lor_0_l. split.
  - change STATUS_MASK with (Z.shiftl (Z.ones 2) 30). apply Z.bits_inj'. intros i Hi. rewrite Z.land_spec, Z.shiftl_spec by done.
    change HOST_READY with 0. rewrite Z.bits_0. destruct (Z.ltb_spec i 30).
    + rewrite (Z.testbit_neg_r (Z.ones 2)) by lia. apply andb_false_r.
    + rewrite (fits_bits 16 n i) by (done || lia). done.
  - change 0xffff with (Z.ones 16). rewrite Z.land_ones by lia. by apply Z.mod_small.
Qed.

(** Well-formed, and past the first bus reset. *)
Definition good (s : t C) : Prop := wf s ∧ addressed s.

(** What requests do not change. *)
Definition settings (s : t C) :=
  (device_class s, vendor_id s, product_id s, configuration_descriptor s, configuration_total_length s, strings s).

Lemma set_in_flags_ok v s : good s → ∃ ds, set_in_flags v s = (Ok tt, set_ep0_in_descriptors (Some ds) s) ∧ length ds = 4%nat ∧
  ds !! 0%nat = Some (mk_DMADescriptor v (At B_ep0_in 0)).
Proof.
  intros [[_ _ (ds & Hd & Hl) _ _ _ _ _ _ _] (ds' & d & Hd' & Hd0 & Ha)]. rewrite Hd in Hd'. simplify_eq.
  unfold set_in_flags, map_cell, with_flags. rewrite bind_gets, Hd, Hd0. cbn. eexists. split; [done|]. rewrite length_insert.
  split; [done|]. rewrite Ha. apply list_lookup_insert_eq. lia.
Qed.

Lemma data_phase_ok tc s ds b data : good s → ep0_in_descriptors s = Some ds →
  ds !! 0%nat = Some (mk_DMADescriptor (bytes IN_FLAGS (Z.of_nat (length data))) (At B_ep0_in 0)) →
  ep0_in_buffers s = Some b → take (length data) (register_bytes b) = data → fits 16 (Z.of_nat (length data)) →
  ∃ s', expect_data_phase_in tc s = (Ok tt, s') ∧ presents DataStageIn data s' ∧ good s' ∧ settings s' = settings s ∧
    configuration_current_value s' = configuration_current_value s ∧ regs s' device_config = regs s device_config.
Proof.
  intros [Hwf Had] Hds Hd0 Hb Hdata Hfit. unfold expect_data_phase_in, map_cell. run. cbn [ep0_in_descriptors set_state]. rewrite Hds.
  destruct (start_in_ok tc (set_state DataStageIn s)) as (r & d & rr & od & E & Hl & Hi & Ho & Hc & Hd); [by auto with usb|].
  rewrite E. eexists. split; [done|]. split_and!; [|split; [by auto with usb|exact Had]|done..].
  destruct (in_flags_bits _ Hfit) as [Hf1 Hf2]. split_and!.
  - done.
  - unfold dma_in. cbn. rewrite Hd, Hds. cbn. rewrite Hd0. cbn. rewrite Hb. cbn [mbind option_bind].
    rewrite Hf1, Hf2, Nat2Z.id, Z.eqb_refl, drop_0, Hdata. done.
  - unfold enabled. cbn. rewrite Hi. apply enable_word_bits.
  - unfold enabled. cbn. rewrite Ho. apply enable_word_bits.
Qed.

(** An answer that has been encoded is sent, cut to the length asked for. *)
Lemma reply_ok tc r s b full : good s → ep0_in_buffers s = Some b → take (length full) (register_bytes b) = full →
  fits 16 (Z.of_nat (length full)) → 0 <= w_length r →
  ∃ s', reply (length full) r tc s = (Ok tt, s') ∧ presents DataStageIn (take (Z.to_nat (w_length r)) full) s' ∧ good s' ∧
    settings s' = settings s ∧ configuration_current_value s' = configuration_current_value s ∧
    regs s' device_config = regs s device_config.
Proof.
  intros Hg Hb Hfull Hfit Hw. unfold reply. set (data := take (Z.to_nat (w_length r)) full).
  assert (Z.min (Z.of_nat (length full)) (w_length r) = Z.of_nat (length data)) as Elen
    by (subst data; rewrite length_take; lia).
  assert (fits 16 (Z.of_nat (length data))) as Hfit' by (unfold fits in *; lia).
  rewrite Elen, wrap_small by done.
  destruct (set_in_flags_ok (bytes IN_FLAGS (Z.of_nat (length data))) s Hg) as (ds & E & Hl & Hd0). rewrite (bind_ok _ _ _ _ _ E).
  destruct (data_phase_ok tc (set_ep0_in_descriptors (Some ds) s) ds b data) as (s' & E' & Hp & Hg' & Hk).
  - destruct Hg as [Hwf _]. split; [by auto with usb|]. by eexists ds, _.
  - done.
  - done.
  - done.
  - subst data. rewrite length_take, <-take_take, Hfull. done.
  - done.
  - exists s'. by rewrite E'.
Qed.

Lemma status_phase_ok tc s : good s →
  ∃ s', expect_status_phase_in tc s = (Ok tt, s') ∧ presents NoDataStage [] s' ∧ good s' ∧ settings s' = settings s ∧
    configuration_current_value s' = configuration_current_value s ∧ regs s' device_config = regs s device_config.
Proof.
  intros [Hwf (ds & d & Hds & Hd0 & Ha)]. pose proof Hwf as [_ _ (ds' & Hds' & Hl) (b & Hb & _) _ _ _ _ _ _].
  rewrite Hds in Hds'. injection Hds' as <-.
  unfold expect_status_phase_in, map_cell. run. cbn [ep0_in_descriptors set_state]. rewrite Hds. run.
  cbn [ep0_in_buffers set_state]. rewrite Hb, Hd0. cbn [unwrap]. run.
  set (s1 := set_ep0_in_descriptors _ _).
  assert (wf s1) as Hwf1 by (apply wf_set_in; [by rewrite length_insert|by auto with usb]).
  destruct (start_in_ok tc s1 Hwf1) as (r & dd & rr & od & E & Hlo & Hi & Ho & Hc & Hd). rewrite E. eexists. split; [done|].
  assert ((<[0%nat:=mk_DMADescriptor (bytes IN_FLAGS 0) (At B_ep0_in 0)]> ds) !! 0%nat = Some (mk_DMADescriptor (bytes IN_FLAGS 0) (At B_ep0_in 0)))
    as Hins by (apply list_lookup_insert_eq; lia).
  split_and!; [|split; [by auto with usb|by eexists _, _]|done..].
  split_and!.
  - done.
  - unfold dma_in. cbn. rewrite Hd. cbn. rewrite Hins. cbn. rewrite Hb. done.
  - unfold enabled. cbn. rewrite Hi. apply enable_word_bits.
  - unfold enabled. cbn. rewrite Ho. apply enable_word_bits.
Qed.

Lemma refuse_ok s : good s →
  ∃ s', stall_both_fifos s = (Ok tt, s') ∧ refused s' ∧ good s' ∧ settings s' = settings s ∧
    configuration_current_value s' = configuration_current_value s ∧ regs s' device_config = regs s device_config.
Proof.
  intros [Hwf Had]. destruct (stall_ok s Hwf) as (r & d & rr & od & E & Hl & Hi & Ho & Hc). rewrite E. eexists. split; [done|].
  split_and!; [|split; [by auto with usb|exact Had]|done..].
  split_and!; [done| |]; unfold stalled; cbn; rewrite ?Hi, ?Ho; apply stall_word_bits.
Qed.

(** ** Setup requests *)

Inductive Answer := Reply (data : list Z) | Ack | Refuse | Silent.

(** The answer of the device to a request, as a function of its settings; [None] where the kernel panics. *)
Definition answer (s : t C) (r : SetupRequest) : option Answer :=
  let cut l := take (Z.to_nat (w_length r)) l in
  let type := Z.shiftr (w_value r) 8 in
  match req_type r, recipient r, data_direction r with
  | Standard, ToDevice, DeviceToHost =>
      match request r with
      | GetDescriptor =>
          if type =? 1 then Some (Reply (cut (device_descriptor_memory (generate_device_descriptor s))))
          else if type =? 2 then
            Some (Reply (cut (take (Z.to_nat (configuration_total_length s)) (default [] (configuration_descriptor s)))))
          else if type =? 4 then Some (Reply (cut (interface_bytes (InterfaceDescriptor.new STRING_INTERFACE2 0 0x03 0 0))))
          else if type =? 3 then
            str ← default [] (strings s) !! Z.to_nat (Z.land (w_value r) 0xff); Some (Reply (cut (string_bytes str)))
          else Some Refuse
      | GetConfiguration => Some (Reply (cut [configuration_current_value s]))
      | GetStatus => Some Ack
      | _ => Some Refuse
      end
  | Standard, ToDevice, HostToDevice =>
      if 0 <? w_length r then None
      else match request r with SetAddress | SetConfiguration => Some Ack | _ => Some Refuse end
  | Standard, ToInterface, DeviceToHost =>
      match request r with
      | GetDescriptor =>
          if type =? 0x22 then if w_length r <=? 34 then Some (Reply (cut U2F_REPORT_DESCRIPTOR)) else None
          else Some Refuse
      | _ => Some Refuse
      end
  | Standard, ToInterface, HostToDevice => Some Refuse
  | Class_, ToInterface, _ => Some Refuse
  | _, _, _ => Some Silent
  end.

Definition sees (a : Answer) (s s' : t C) : Prop :=
  match a with
  | Reply data => presents DataStageIn data s'
  | Ack => presents NoDataStage [] s'
  | Refuse => refused s'
  | Silent => s' = s
  end.

Definition device_address (s : t C) : Z := field_read DeviceAddress (regs s device_config).

(** The requests without data that change the device. *)
Definition sets (x : SetupRequestType) (r : SetupRequest) : bool :=
  match req_type r, recipient r, data_direction r, request r, x with
  | Standard, ToDevice, HostToDevice, SetAddress, SetAddress => true
  | Standard, ToDevice, HostToDevice, SetConfiguration, SetConfiguration => true
  | _, _, _, _, _ => false
  end.

Definition effects (r : SetupRequest) (s s' : t C) : Prop :=
  good s' ∧ settings s' = settings s ∧
  configuration_current_value s' = (if sets SetConfiguration r then wrap 8 (w_value r) else configuration_current_value s) ∧
  device_address s' = (if sets SetAddress r then Z.land (w_value r) 0x7f else device_address s).

Lemma encode_in_ok f s b n b' : ep0_in_buffers s = Some b → f b = Some (n, b') →
  encode_in f s = (Ok n, set_ep0_in_buffers (Some b') s).
Proof. intros Hb Hf. unfold encode_in. run. rewrite Hb, Hf. done. Qed.

Lemma good_in_buffer s b : good s → length b = 64%nat → good (set_ep0_in_buffers (Some b) s).
Proof. intros [Hwf Had] Hl. split; [by auto with usb|exact Had]. Qed.

Lemma u2f_descriptors_ok s : good s → ∃ s', setup_u2f_descriptors s = (Ok tt, s') ∧ good s' ∧ settings s' = settings s ∧
  configuration_current_value s' = configuration_current_value s ∧ regs s' device_config = regs s device_config.
Proof.
  intros [Hwf Had]. pose proof Hwf as [_ _ _ _ _ (od & ob & H1 & H2 & H3) (id & ib & H4 & H5 & H6) _ _ _].
  destruct s. cbn in H1, H2, H4, H5. subst. eexists. split; [reflexivity|]. split_and!; [|done..].
  split; [|exact Had]. destruct Hwf. constructor; try done; cbn; by eauto.
Qed.

(** The parts of the answer theorem: a request that is answered with data, and the others. *)
Lemma reply_encoded f tc r s full : good s → fits 16 (Z.of_nat (length full)) → 0 <= w_length r →
  (∀ b, length b = 64%nat → ∃ b', f b = Some (length full, b') ∧ length b' = 64%nat ∧ take (length full) (register_bytes b') = full) →
  ∃ s', (len ← encode_in f; reply len r tc) s = (Ok tt, s') ∧ presents DataStageIn (take (Z.to_nat (w_length r)) full) s' ∧ good s' ∧
    settings s' = settings s ∧ configuration_current_value s' = configuration_current_value s ∧
    regs s' device_config = regs s device_config.
Proof.
  intros Hg Hl Hw Hf. pose proof Hg as [[_ _ _ (b & Hb0 & Hlb) _ _ _ _ _ _] _].
  destruct (Hf b Hlb) as (b' & E & Hl' & Ht). rewrite (bind_ok _ _ _ _ _ (encode_in_ok _ _ _ _ _ Hb0 E)).
  destruct (reply_ok tc r (set_ep0_in_buffers (Some b') s) b' full) as (s' & E' & Hp & Hg' & Hk).
  - by apply good_in_buffer.
  - done.
  - done.
  - done.
  - done.
  - by exists s'.
Qed.

Lemma device_descriptor_ok s : wf s → bytes_ok (device_descriptor_memory (generate_device_descriptor s)) ∧
  length (device_descriptor_memory (generate_device_descriptor s)) = 18%nat.
Proof.
  intros [_ _ _ _ _ _ _ (Hc & Hv & Hp & _) _ _]. unfold device_descriptor_memory, generate_device_descriptor. cbn [dd_length dd_descriptor_type
    dd_usb dd_device_class dd_device_sub_class dd_device_protocol dd_max_packet_size0 dd_vendor dd_product dd_device dd_manufacturer
    dd_i_product dd_serial_number dd_num_configurations].
  split; [|by rewrite !length_app, !length_le_bytes].
  repeat (apply bytes_ok_app; split); try apply le_bytes_ok; repeat apply Forall_cons_2; try done; by constructor.
Qed.

Lemma get_descriptor_answered tc r s a : good s → 0 <= w_length r → 0 <= w_value r →
  (let type := Z.shiftr (w_value r) 8 in let cut l := take (Z.to_nat (w_length r)) l in
   if type =? 1 then Some (Reply (cut (device_descriptor_memory (generate_device_descriptor s))))
   else if type =? 2 then
     Some (Reply (cut (take (Z.to_nat (configuration_total_length s)) (default [] (configuration_descriptor s)))))
   else if type =? 4 then Some (Reply (cut (interface_bytes (InterfaceDescriptor.new STRING_INTERFACE2 0 0x03 0 0))))
   else if type =? 3 then
     str ← default [] (strings s) !! Z.to_nat (Z.land (w_value r) 0xff); Some (Reply (cut (string_bytes str)))
   else Some Refuse) = Some a →
  ∃ s', get_descriptor beyond tc r s = (Ok tt, s') ∧ sees a s s' ∧ good s' ∧ settings s' = settings s ∧
    configuration_current_value s' = configuration_current_value s ∧ regs s' device_config = regs s device_config.
Proof.
  intros Hg Hw Hv Ha. unfold get_descriptor, GET_DESCRIPTOR_DEVICE, GET_DESCRIPTOR_CONFIGURATION, GET_DESCRIPTOR_INTERFACE,
    GET_DESCRIPTOR_DEVICE_QUALIFIER, GET_DESCRIPTOR_STRING. cbn zeta in Ha. pose proof Hg as [Hwf _].
  destruct (Z.eqb_spec (Z.shiftr (w_value r) 8) 1) as [_|_].
  { simplify_eq. run. destruct (device_descriptor_ok s Hwf) as [Hb Hl]. apply reply_encoded; [done|by rewrite Hl|done|].
    intros b Hlb. destruct (serialize_front _ beyond b Hb) as (b' & E & H1 & H2 & _); [lia|]. exists b'. rewrite <-Hlb. split_and!; [exact E|exact H1|exact H2]. }
  destruct (Z.eqb_spec (Z.shiftr (w_value r) 8) 2) as [_|_].
  { simplify_eq. pose proof Hwf as [_ _ _ (b & Hb & Hlb) _ _ _ _ (d & Hd & Hld & Hbd & Ht) _].
    unfold encode_configuration. run. rewrite Hb, Hd. run. rewrite put_front_some by (unfold configuration_words; rewrite length_fmap, length_seq; lia).
    cbn [unwrap]. run. rewrite Ht. cbn [default].
    change (Z.to_nat 41) with 41%nat.
    match goal with |- context [reply _ _ _ (set_ep0_in_buffers (Some ?b') s)] => set (b1 := b') end.
    assert (length b1 = 64)%nat as Hl1 by (subst b1; rewrite length_app, length_drop; unfold configuration_words; rewrite length_fmap, length_seq; lia).
    destruct (reply_ok tc r (set_ep0_in_buffers (Some b1) s) b1 (take 41 d)) as (s' & E & Hp & Hk).
    - by apply good_in_buffer.
    - done.
    - subst b1. rewrite register_bytes_app, configuration_words_bytes by done. rewrite length_take.
      rewrite take_app_le by lia. f_equal. lia.
    - rewrite length_take, Hld. done.
    - done.
    - rewrite length_take_le in E by lia. rewrite E. exists s'. split; [done|]. split; [exact Hp|exact Hk]. }
  destruct (Z.eqb_spec (Z.shiftr (w_value r) 8) 4) as [_|_].
  { simplify_eq. apply reply_encoded; [done..|]. intros b Hlb.
    destruct (interface_into_u32_buf (InterfaceDescriptor.new STRING_INTERFACE2 0 3 0 0) b) as (b' & E & H1 & H2); [by_compute|lia|].
    exists b'. rewrite <-Hlb. split_and!; [exact E|exact H1|exact H2]. }
  destruct (Z.eqb_spec (Z.shiftr (w_value r) 8) 3) as [Hty|_].
  - rewrite (proj2 (Z.eqb_neq _ _)) by lia. pose proof Hwf as [_ _ _ _ _ _ _ _ _ (strs & Hs & Hok)].
    unfold map_cell. run. rewrite Hs in *. change (default [] (Some strs)) with strs in Ha.
    destruct (strs !! _) as [str|] eqn:Hstr; cbn [mbind option_bind] in Ha; [|discriminate Ha]. simplify_eq. cbn [unwrap]. run.
    rewrite Forall_lookup in Hok. destruct (Hok _ _ Hstr) as [Hso Hsl].
    apply reply_encoded; [done| |done|].
    + rewrite length_string_bytes. unfold fits. lia.
    + intros b Hlb. destruct (string_into_u32_buf str b Hso) as (b' & E & H1 & H2); [lia|by intros ->|]. exists b'. rewrite <-Hlb. split_and!; [exact E|exact H1|exact H2].
  - simplify_eq. assert (∀ x, (if x : bool then stall_both_fifos else handle_unexpected_packet) s = stall_both_fifos s) as Hx by (by intros []).
    rewrite Hx. by apply refuse_ok.
Qed.

Lemma setup_new_fits buf r : setup_new buf = Some r → fits 16 (w_value r) ∧ fits 16 (w_length r).
Proof.
  unfold setup_new. destruct buf as [|w0 [|w1 buf]]; [done..|]. intros [= <-]. cbn [w_value w_length].
  change 0xffff0000 with (Z.shiftl (Z.ones 16) 16). rewrite !Z.shiftr_land, !Z.shiftr_shiftl_l, !Z.sub_diag, !Z.shiftl_0_r, !Z.land_ones by lia.
  split; apply Z.mod_pos_bound; lia.
Qed.

(** A request that changes nothing but the stage of endpoint 0. *)
Lemma effects_kept r s s' : sets SetAddress r = false → sets SetConfiguration r = false → good s' → settings s' = settings s →
  configuration_current_value s' = configuration_current_value s → regs s' device_config = regs s device_config → effects r s s'.
Proof. intros H1 H2 Hg Hs Hc Hd. unfold effects, device_address. by rewrite H1, H2, Hd. Qed.

Lemma report_bytes b len : length b = 64%nat → (len <= 34)%nat →
  ∃ b', report_loop len 0 b = Some b' ∧ length b' = 64%nat ∧ take len (register_bytes b') = take len U2F_REPORT_DESCRIPTOR.
Proof.
  intros Hb Hl. assert (length (take len U2F_REPORT_DESCRIPTOR) = len) as Hlen by (by apply length_take_le).
  rewrite report_loop_slice by done. rewrite drop_0.
  destruct (slice_loop_bytes 0 (take len U2F_REPORT_DESCRIPTOR) b) as (b' & E & Hl' & Hby).
  { apply Forall_take. by_compute. }
  { rewrite Hlen. lia. }
  exists b'. split_and!; [exact E|lia|]. rewrite Hby. change (4 * 0)%nat with 0%nat. rewrite take_0. cbn [app].
  by apply take_app_length'.
Qed.

Lemma report_answered tc r s : good s → w_length r <= 34 → 0 <= w_length r →
  ∃ s', map_cell ep0_in_buffers (λ buf,
            b ← unwrap (report_loop (Z.to_nat (w_length r)) 0 buf);
            modify (set_ep0_in_buffers (Some b)) ;;
            set_in_flags (bytes IN_FLAGS (wrap 16 (Z.of_nat (Z.to_nat (w_length r))))) ;;
            expect_data_phase_in tc) s = (Ok tt, s') ∧
    presents DataStageIn (take (Z.to_nat (w_length r)) U2F_REPORT_DESCRIPTOR) s' ∧ good s' ∧ settings s' = settings s ∧
    configuration_current_value s' = configuration_current_value s ∧ regs s' device_config = regs s device_config.
Proof.
  intros Hg Hw H0'. pose proof Hg as [[_ _ _ (b & Hb & Hlb) _ _ _ _ _ _] _]. set (len := Z.to_nat (w_length r)).
  destruct (report_bytes b len Hlb) as (b' & E & Hl & Ht); [lia|].
  assert (length (take len U2F_REPORT_DESCRIPTOR) = len) as Hlen by (apply length_take_le; change (length U2F_REPORT_DESCRIPTOR) with 34%nat; lia).
  assert (fits 16 (Z.of_nat len)) as Hfit by (unfold fits; lia). rewrite wrap_small by done.
  unfold map_cell. run. rewrite Hb, E. cbn [unwrap]. run.
  destruct (set_in_flags_ok (bytes IN_FLAGS (Z.of_nat len)) (set_ep0_in_buffers (Some b') s)) as (ds & E1 & Hl1 & Hd0).
  { by apply good_in_buffer. }
  rewrite (bind_ok _ _ _ _ _ E1). rewrite <-Hlen in Hd0.
  destruct (data_phase_ok tc (set_ep0_in_descriptors (Some ds) (set_ep0_in_buffers (Some b') s)) ds b' (take len U2F_REPORT_DESCRIPTOR))
    as (s' & E2 & Hp & Hk); [|done|done|done|by rewrite Hlen|by rewrite Hlen|].
  { destruct Hg as [Hwf _]. split; [by auto with usb|]. by eexists ds, _. }
  exists s'. by rewrite E2.
Qed.

Lemma report_type v : fits 16 v → from_u8 (wrap 8 (Z.shiftr v 8)) = if Z.shiftr v 8 =? 0x22 then Report else from_u8 (Z.shiftr v 8).
Proof.
  intros [H1 H2]. rewrite wrap_small.
  - by destruct (Z.eqb_spec (Z.shiftr v 8) 0x22) as [->|].
  - unfold fits in *. rewrite Z.shiftr_div_pow2 by lia. split; [apply Z.div_pos; lia|apply Z.div_lt_upper_bound; lia].
Qed.

Lemma not_report v : v ≠ 0x22 → from_u8 v ≠ Report.
Proof. intros Hv. unfold from_u8. rewrite (proj2 (Z.eqb_neq v 0x22) Hv). by repeat case_match. Qed.

(** Requests to the device that ask for data. *)
Lemma device_to_host_answered tc r s a : good s → fits 16 (w_value r) → fits 16 (w_length r) →
  req_type r = Standard → recipient r = ToDevice → data_direction r = DeviceToHost → answer s r = Some a →
  ∃ s', handle_standard_device_to_host beyond tc r s = (Ok tt, s') ∧ sees a s s' ∧ effects r s s'.
Proof.
  intros Hg [Hv _] [Hw _] Et Er Ed Ha. unfold answer in Ha. rewrite Et, Er, Ed in Ha.
  assert (∀ x, sets x r = false) as Hsets by (intros x; unfold sets; by rewrite Et, Er, Ed).
  unfold handle_standard_device_to_host.
  assert (∀ m : K (t C) unit, (∃ s', m s = (Ok tt, s') ∧ sees a s s' ∧ good s' ∧ settings s' = settings s ∧
    configuration_current_value s' = configuration_current_value s ∧ regs s' device_config = regs s device_config) →
    ∃ s', m s = (Ok tt, s') ∧ sees a s s' ∧ effects r s s') as Hlift.
  { intros m (s' & E & Hs & H1 & H2 & H3 & H4). exists s'. split_and!; [done..|]. by apply effects_kept. }
  destruct (request r); try (simplify_eq; apply Hlift; by apply refuse_ok).
  - (* GetStatus *)
    simplify_eq. apply Hlift. pose proof Hg as [[_ _ _ (b & Hb & Hlb) _ _ _ _ _ _] _].
    unfold map_cell. run. rewrite Hb, put_front_some by (cbn [length]; lia). cbn [unwrap]. run.
    assert (length ([0x0] ++ drop (length [0x0]) b) = 64%nat) as Hl0 by (rewrite length_app, length_drop; cbn [length]; lia).
    destruct (set_in_flags_ok (bytes IN_FLAGS 2) (set_ep0_in_buffers (Some ([0x0] ++ drop (length [0x0]) b)) s)) as (ds & E & Hl & Hd0).
    { by apply good_in_buffer. }
    rewrite (bind_ok _ _ _ _ _ E). match goal with |- context [expect_status_phase_in tc ?s1] => destruct (status_phase_ok tc s1) as (s' & E1 & Hk) end.
    { destruct Hg as [Hwf _]. split; [by auto with usb|]. by eexists ds, _. }
    exists s'. by rewrite E1.
  - (* GetDescriptor *) apply Hlift. by apply get_descriptor_answered.
  - (* GetConfiguration *)
    simplify_eq. apply Hlift. run. pose proof Hg as [[_ _ _ _ _ _ _ (_ & _ & _ & Hc) _ _] _].
    apply reply_encoded; [done..|]. intros b Hlb.
    destruct (serialize_front [configuration_current_value s] beyond b) as (b' & E & H1 & H2 & _).
    + by apply Forall_singleton.
    + cbn [length]. lia.
    + exists b'. rewrite <-Hlb. split_and!; [exact E|exact H1|exact H2].
Qed.

Lemma no_data_answered tc r s a : good s → req_type r = Standard → recipient r = ToDevice → data_direction r = HostToDevice →
  w_length r <= 0 → answer s r = Some a →
  ∃ s', handle_standard_no_data_phase tc r s = (Ok tt, s') ∧ sees a s s' ∧ effects r s s'.
Proof.
  intros Hg Et Er Ed Hw Ha. unfold answer in Ha. rewrite Et, Er, Ed in Ha. rewrite (proj2 (Z.ltb_ge _ _)) in Ha by lia.
  unfold handle_standard_no_data_phase, effects, sets. rewrite Et, Er, Ed.
  destruct (request r); try (simplify_eq; destruct (refuse_ok s Hg) as (s' & E & Hr & H1 & H2 & H3 & H4); exists s';
    unfold handle_unexpected_packet, device_address; rewrite E, H4; by split_and!).
  - (* SetAddress *)
    simplify_eq. unfold modify_reg. run. match goal with |- context [(setup_u2f_descriptors ≫= _) ?s1] =>
      destruct (u2f_descriptors_ok s1) as (s2 & E2 & Hg2 & Hs2 & Hc2 & Hd2) end.
    { destruct Hg as [Hwf Had]. split; [by apply wf_set_regs|exact Had]. }
    rewrite (bind_ok _ _ _ _ _ E2). destruct (status_phase_ok tc s2 Hg2) as (s' & E & Hp & Hg' & Hs' & Hc' & Hd').
    exists s'. split_and!; [done|done|done|by rewrite Hs', Hs2|by rewrite Hc', Hc2|].
    unfold device_address. rewrite Hd', Hd2. cbn. rewrite decide_True, read_modify_same by (done || by_compute).
    change 0x7f with (Z.ones 7). rewrite Z.land_ones by lia. cbn [f_width DeviceAddress]. by rewrite Z.mod_mod by lia.
  - (* SetConfiguration *)
    simplify_eq. run. match goal with |- context [expect_status_phase_in tc ?s1] =>
      destruct (status_phase_ok tc s1) as (s' & E & Hp & Hg' & Hs' & Hc' & Hd') end.
    { destruct Hg as [Hwf Had]. split; [apply wf_set_current; [apply wrap_fits; lia|done]|exact Had]. }
    exists s'. unfold device_address. rewrite Hd'. by split_and!.
Qed.

Lemma interface_to_host_answered tc r s a : good s → fits 16 (w_value r) → fits 16 (w_length r) →
  req_type r = Standard → recipient r = ToInterface → data_direction r = DeviceToHost → answer s r = Some a →
  ∃ s', handle_standard_interface_to_host tc r s = (Ok tt, s') ∧ sees a s s' ∧ good s' ∧ settings s' = settings s ∧
    configuration_current_value s' = configuration_current_value s ∧ regs s' device_config = regs s device_config.
Proof.
  intros Hg Hv [Hw _] Et Er Ed Ha. unfold answer in Ha. rewrite Et, Er, Ed in Ha.
  unfold handle_standard_interface_to_host. destruct (request r); try (simplify_eq; by apply refuse_ok).
  rewrite report_type by done. destruct (Z.eqb_spec (Z.shiftr (w_value r) 8) 0x22) as [_|Hn].
  - destruct (Z.leb_spec (w_length r) 34) as [Hl|]; [|done]. simplify_eq. rewrite bind_unfold.
    destruct (_ =? _)%nat.
    + cbn [mret M_ret]. by apply report_answered.
    + destruct (refuse_ok s Hg) as (s1 & E1 & _ & Hg1 & Hs1 & Hc1 & Hd1). unfold handle_bad_packet. rewrite E1.
      destruct (report_answered tc r s1 Hg1 Hl Hw) as (s' & E & Hp & Hg' & Hs' & Hc' & Hd'). exists s'. cbn beta iota.
      rewrite <-Hs1, <-Hc1, <-Hd1. by split_and!.
  - simplify_eq. apply not_report in Hn. destruct (from_u8 _); try done; by apply refuse_ok.
Qed.

Lemma dispatch_answered tc r s a : good s → fits 16 (w_value r) → fits 16 (w_length r) → answer s r = Some a →
  ∃ s', dispatch beyond tc r s = (Ok tt, s') ∧ sees a s s' ∧ effects r s s'.
Proof.
  intros Hg Hv Hw Ha. pose proof Hw as [Hw0 _]. unfold dispatch.
  assert (∀ m : K (t C) unit, (∀ x, sets x r = false) → (∃ s', m s = (Ok tt, s') ∧ sees a s s' ∧ good s' ∧ settings s' = settings s ∧
    configuration_current_value s' = configuration_current_value s ∧ regs s' device_config = regs s device_config) →
    ∃ s', m s = (Ok tt, s') ∧ sees a s s' ∧ effects r s s') as Hlift.
  { intros m Hx (s' & E & Hs & H1 & H2 & H3 & H4). exists s'. split_and!; [done..|]. by apply effects_kept. }
  unfold sets in Hlift. pose proof Ha as Ha'. unfold answer in Ha'.
  destruct (req_type r) eqn:Et, (recipient r) eqn:Er; try (simplify_eq; apply Hlift; [done|by exists s]).
  - destruct (data_direction r) eqn:Ed; [|by apply device_to_host_answered].
    destruct (Z.ltb_spec 0 (w_length r)); [done|]. by apply no_data_answered.
  - destruct (data_direction r) eqn:Ed; [simplify_eq; apply Hlift; [done|by apply refuse_ok]|].
    apply Hlift; [done|]. by apply interface_to_host_answered.
  - apply Hlift; [done|]. destruct (data_direction r); simplify_eq; unfold handle_class_host_to_interface, handle_class_interface_to_host;
      [destruct (class_request r)|]; by apply refuse_ok.
Qed.

Lemma dispatch_panics tc r s : good s → fits 16 (w_value r) → fits 16 (w_length r) → answer s r = None → (dispatch beyond tc r s).1 = Panic.
Proof.
  intros Hg Hv Hw Ha. unfold dispatch. unfold answer in Ha.
  destruct (req_type r), (recipient r), (data_direction r); try done.
  - destruct (0 <? w_length r); [done|]. by destruct (request r).
  - unfold handle_standard_device_to_host. destruct (request r); try done. unfold get_descriptor. cbn zeta in Ha.
    destruct (Z.eqb_spec (Z.shiftr (w_value r) 8) 1) as [|H1]; [done|]. destruct (Z.eqb_spec (Z.shiftr (w_value r) 8) 2) as [|H2]; [done|].
    destruct (Z.eqb_spec (Z.shiftr (w_value r) 8) 4) as [|H4]; [done|]. destruct (Z.eqb_spec (Z.shiftr (w_value r) 8) 3) as [H3|]; [|done].
    rewrite H3. unfold GET_DESCRIPTOR_DEVICE, GET_DESCRIPTOR_CONFIGURATION, GET_DESCRIPTOR_INTERFACE,
      GET_DESCRIPTOR_DEVICE_QUALIFIER, GET_DESCRIPTOR_STRING. cbn [Z.eqb Pos.eqb]. unfold map_cell. rewrite bind_gets. pose proof Hg as [[_ _ _ _ _ _ _ _ _ (strs & Hs & _)] _].
    rewrite Hs in *. change (default [] (Some strs)) with strs in Ha. destruct (strs !! _); [done|]. done.
  - unfold handle_standard_interface_to_host. destruct (request r); try done. rewrite report_type by done.
    destruct (_ =? 0x22); [|done]. destruct (Z.leb_spec (w_length r) 34) as [|Hl]; [done|]. rewrite bind_unfold.
    rewrite (proj2 (Nat.eqb_neq _ _)) by (change (length U2F_REPORT_DESCRIPTOR) with 34%nat; lia).
    destruct (refuse_ok s Hg) as (s1 & E1 & _ & [[_ _ _ (b & Hb & _) _ _ _ _ _ _] _] & _). unfold handle_bad_packet. rewrite E1.
    unfold map_cell. rewrite bind_gets, Hb, report_loop_none; [done|]. change (length U2F_REPORT_DESCRIPTOR) with 34%nat. lia.
Qed.

(** The setup packet in the buffer that was received last. *)
Definition received (s : t C) (r : SetupRequest) : Prop :=
  ∃ ob buf, ep0_out_buffers s = Some ob ∧ ob !! last_ep0_out_idx s = Some buf ∧ setup_new buf = Some r.

Lemma received_some s : wf s → ∃ r, received s r ∧ fits 16 (w_value r) ∧ fits 16 (w_length r).
Proof.
  intros [_ (ob & Hob & Hl & Hf) _ _ [_ Hlast] _ _ _ _ _]. destruct (lookup_lt_is_Some_2 ob (last_ep0_out_idx s)) as [buf Hbuf]; [lia|].
  rewrite Forall_lookup in Hf. specialize (Hf _ _ Hbuf). destruct buf as [|w0 [|w1 buf]]; [done..|].
  assert (∃ r, setup_new (w0 :: w1 :: buf) = Some r) as [r Hr] by by eexists.
  exists r. split; [by eexists _, _|by eapply setup_new_fits].
Qed.

Lemma handle_setup_dispatch tc s r : received s r → handle_setup beyond tc s = dispatch beyond tc r s.
Proof.
  intros (ob & buf & Hob & Hbuf & Hr). unfold handle_setup, map_cell. rewrite bind_gets, Hob. cbn beta iota.
  rewrite bind_gets, Hbuf. cbn [unwrap]. rewrite bind_mret, Hr. done.
Qed.

(** The requests that crash the kernel. *)
Definition crashes (s : t C) (r : SetupRequest) : Prop :=
  req_type r = Standard ∧
  (recipient r = ToDevice ∧ data_direction r = HostToDevice ∧ 0 < w_length r ∨
   recipient r = ToDevice ∧ data_direction r = DeviceToHost ∧ request r = GetDescriptor ∧ Z.shiftr (w_value r) 8 = 3 ∧
     (length (default [] (strings s)) <= Z.to_nat (Z.land (w_value r) 0xff))%nat ∨
   recipient r = ToInterface ∧ data_direction r = DeviceToHost ∧ request r = GetDescriptor ∧ Z.shiftr (w_value r) 8 = 0x22 ∧
     34 < w_length r).

Lemma answer_none s r : answer s r = None ↔ crashes s r.
Proof.
  unfold answer, crashes. split.
  - intros Ha. destruct (req_type r); [|by destruct (recipient r)|done..]. split; [done|].
    destruct (recipient r), (data_direction r); try done.
    + left. destruct (Z.ltb_spec 0 (w_length r)); [done|]. by destruct (request r).
    + right; left. destruct (request r); try done. cbn zeta in Ha.
      destruct (Z.eqb_spec (Z.shiftr (w_value r) 8) 1); [done|]. destruct (Z.eqb_spec (Z.shiftr (w_value r) 8) 2); [done|].
      destruct (Z.eqb_spec (Z.shiftr (w_value r) 8) 4); [done|]. destruct (Z.eqb_spec (Z.shiftr (w_value r) 8) 3); [|done].
      destruct (default [] (strings s) !! _) eqn:E; [done|]. apply lookup_ge_None in E. done.
    + right; right. destruct (request r); try done. cbn zeta in Ha.
      destruct (Z.eqb_spec (Z.shiftr (w_value r) 8) 0x22); [|done]. by destruct (Z.leb_spec (w_length r) 34).
  - intros [-> [(-> & -> & Hw)|[(-> & -> & -> & Hv & Hs)|(-> & -> & -> & Hv & Hw)]]].
    + by rewrite (proj2 (Z.ltb_lt _ _)).
    + cbn zeta. rewrite Hv. cbn [Z.eqb Pos.eqb]. by rewrite lookup_ge_None_2.
    + cbn zeta. rewrite Hv. cbn [Z.eqb Pos.eqb]. by rewrite (proj2 (Z.leb_gt _ _)).
Qed.

(** ** Every event *)

(** A handler that returns in a good state, or has received a request that crashes it. *)
Definition safe (m : K (t C) unit) (s : t C) : Prop :=
  (∃ s', m s = (Ok tt, s') ∧ good s') ∨
  ((m s).1 = Panic ∧ ∃ ob k buf r, ep0_out_buffers s = Some ob ∧ ob !! k = Some buf ∧ setup_new buf = Some r ∧ crashes s r).

Lemma handle_setup_safe tc s : good s → safe (handle_setup beyond tc) s.
Proof.
  intros Hg. destruct (received_some s (proj1 Hg)) as (r & Hr & Hv & Hw). unfold safe. rewrite (handle_setup_dispatch tc s r Hr).
  destruct (answer s r) as [a|] eqn:Ha.
  - destruct (dispatch_answered tc r s a Hg Hv Hw Ha) as (s' & E & _ & Hg' & _). left. by exists s'.
  - right. split; [by apply dispatch_panics|]. destruct Hr as (ob & buf & H1 & H2 & H3). eexists _, _, _, r. split_and!; [done..|by apply answer_none].
Qed.

Lemma ok_safe m s : (∃ s', m s = (Ok tt, s') ∧ good s') → safe m s.
Proof. by left. Qed.

Lemma stall_good s : good s → ∃ s', stall_both_fifos s = (Ok tt, s') ∧ good s'.
Proof. intros Hg. destruct (refuse_ok s Hg) as (s' & E & _ & Hg' & _). by exists s'. Qed.

Lemma expect_setup_good s : good s → ∃ s', expect_setup_packet s = (Ok tt, s') ∧ good s'.
Proof.
  intros [Hwf Had]. destruct (expect_setup_ok s Hwf) as (r & d & rr & od & E & Hl). rewrite E. eexists. split; [done|].
  split; [by auto with usb|exact Had].
Qed.

Lemma write_good r vs s : good s → ∃ s', write r vs s = (Ok tt, s') ∧ good s' ∧ ep0_out_buffers s' = ep0_out_buffers s ∧
  settings s' = settings s ∧ state s' = state s.
Proof. intros [Hwf Had]. eexists. split; [reflexivity|]. split_and!; [split; [by apply wf_set_regs|exact Had]|done..]. Qed.

Definition same (s s' : t C) : Prop := ep0_out_buffers s' = ep0_out_buffers s ∧ strings s' = strings s.

Lemma safe_step {A} (m : K (t C) A) (f : A → K (t C) unit) s a s1 :
  m s = (Ok a, s1) → same s s1 → safe (f a) s1 → safe (m ≫= f) s.
Proof.
  intros E [Hb Hs] Hf. unfold safe. rewrite (bind_ok _ _ _ _ _ E). destruct Hf as [Hf|[Hp (ob & k & buf & r & H1 & H2 & H3 & H4)]]; [by left|].
  right. split; [done|]. exists ob, k, buf, r. rewrite <-Hb. split_and!; [done..|]. unfold crashes in *. by rewrite Hs in H4.
Qed.

Lemma safe_then (m : K (t C) unit) (k : K (t C) unit) s :
  safe m s → (∀ s', good s' → ∃ s'', k s' = (Ok tt, s'') ∧ good s'') → safe (m ;; k) s.
Proof.
  intros [(s' & E & Hg)|[Hp Hr]] Hk.
  - destruct (Hk s' Hg) as (s'' & E' & Hg'). left. exists s''. by rewrite (bind_ok _ _ _ _ _ E).
  - right. split; [|done]. rewrite bind_unfold. by destruct (m s) as [[]].
Qed.

Lemma write_when (c : bool) r vs s : good s →
  ∃ s', (if c then write r vs else mret tt) s = (Ok tt, s') ∧ good s' ∧ same s s' ∧ state s' = state s.
Proof.
  intros Hg. destruct c; [|by exists s]. destruct (write_good r vs s Hg) as (s' & E & Hg' & H1 & H2 & H3). exists s'.
  split_and!; [done..| |done]. split; [done|]. by injection H2.
Qed.

Lemma swap_good s : good s → ∃ s', swap_ep0_out_descriptors s = (Ok tt, s') ∧ good s' ∧ same s s' ∧ state s' = state s.
Proof.
  intros [Hwf Had]. pose proof Hwf as [(od & Ho & Hl) _ _ _ [Hn Hlast] _ _ _ _ _].
  unfold swap_ep0_out_descriptors, map_cell, set_out_dma_address. run. rewrite Ho. run. eexists. split; [reflexivity|].
  split_and!; [|done..]. split; [|exact Had]. destruct Hwf. constructor; try done. cbn. rewrite Hl.
  split; [apply Nat.mod_upper_bound; lia|done].
Qed.

Lemma handle_endpoint0_safe o i s : good s → safe (handle_endpoint0_events beyond o i) s.
Proof.
  intros Hg. unfold handle_endpoint0_events, read. eapply safe_step; [reflexivity|done|].
  destruct (write_when o (out_interrupt 0) [regs s (out_interrupt 0)] s Hg) as (s1 & E1 & Hg1 & Hs1 & _).
  eapply safe_step; [exact E1|exact Hs1|]. eapply safe_step; [reflexivity|done|].
  destruct (write_when i (in_interrupt 0) [regs s1 (in_interrupt 0)] s1 Hg1) as (s2 & E2 & Hg2 & Hs2 & _).
  eapply safe_step; [exact E2|exact Hs2|].
  set (ei := regs s1 (in_interrupt 0)). set (eo := regs s (out_interrupt 0)).
  assert (∃ s3, (if o && is_set TransferCompleted eo then swap_ep0_out_descriptors else mret tt) s2 = (Ok tt, s3) ∧ good s3 ∧ same s2 s3)
    as (s3 & E3 & Hg3 & Hs3).
  { destruct (o && _); [|by exists s2]. destruct (swap_good s2 Hg2) as (s3 & E3 & Hg3 & Hs3 & _). by exists s3. }
  eapply safe_step; [exact E3|exact Hs3|]. pose proof Hg3 as [[(od & Hod & Hlo) _ _ _ [_ Hlast] _ _ _ _ _] _].
  eapply safe_step; [reflexivity|done|]. rewrite Hod. eapply safe_step; [reflexivity|done|]. eapply safe_step; [reflexivity|done|].
  destruct (lookup_lt_is_Some_2 od (last_ep0_out_idx s3)) as [desc Hdesc]; [lia|]. rewrite Hdesc.
  eapply safe_step; [reflexivity|done|]. eapply safe_step; [reflexivity|done|].
  assert (safe (mret tt) s3) as Hret by (apply ok_safe; by exists s3).
  assert (∀ s', good s' → safe (mret tt) s') as Hret' by (intros s' Hg'; apply ok_safe; by exists s').
  assert (∀ tc s', good s' → safe (if Z.land (flags desc) SETUP_READY =? SETUP_READY then handle_setup beyond tc else expect_setup_packet) s') as Hset.
  { intros tc s' Hg'. destruct (_ =? _); [by apply handle_setup_safe|apply ok_safe; by apply expect_setup_good]. }
  assert (∀ s', good s' → safe in_detected s') as Hin.
  { intros s' [Hwf' Had']. apply ok_safe. eexists. split; [reflexivity|]. split; [by do 2 apply wf_set_regs|exact Had']. }
  destruct (state s3).
  - destruct (decode_interrupt eo); try done; try (apply ok_safe; by apply stall_good);
      (destruct (_ =? _); [by apply handle_setup_safe|apply ok_safe; by apply stall_good]).
  - destruct (write_when (i && is_set TransferCompleted ei) (in_control 0) [field_set Enable] s3 Hg3) as (s4 & E4 & Hg4 & Hs4 & _).
    eapply safe_step; [exact E4|exact Hs4|]. destruct o; [|by apply Hret']. destruct (decode_interrupt eo); auto.
  - destruct (write_when (i && is_set TransferCompleted ei) (in_control 0) [field_set Enable] s3 Hg3) as (s4 & E4 & Hg4 & Hs4 & _).
    eapply safe_step; [exact E4|exact Hs4|]. destruct o; [|by apply Hret']. destruct (decode_interrupt eo); auto;
      apply ok_safe; by apply expect_setup_good.
Qed.

(** A bus reset makes a well-formed state good, whatever stage endpoint 0 was in. *)
Lemma usb_reset_good s : wf s → ∃ s', usb_reset s = (Ok tt, s') ∧ good s' ∧ same s s' ∧ state s' = WaitingForSetupPacket ∧
  device_address s' = 0 ∧ settings s' = settings s.
Proof.
  intros Hwf. unfold usb_reset, modify_reg. run. set (s1 := store _ _ _).
  assert (wf s1) as Hwf1 by (by do 2 first [apply wf_set_regs | apply wf_set_state]).
  assert (∃ s2, init_ep0_descriptors s1 = (Ok tt, s2) ∧ good s2 ∧ same s1 s2 ∧ regs s2 = regs s1 ∧ settings s2 = settings s1)
    as (s2 & E2 & [Hwf2 Had2] & Hs2 & Hr2 & Hk2).
  { pose proof Hwf1 as [(od & Ho & Hl) (ob & Hob & Hlb & _) (ds & Hd & Hld) (b & Hb & _) _ _ _ _ _ _].
    destruct s1. cbn in Ho, Hob, Hd, Hb. subst. eexists. split; [reflexivity|]. split_and!; [|done..].
    split; [|eexists _, _; cbn; split; [done|]; rewrite list_lookup_imap; destruct ds; [done|]; by split].
    destruct Hwf1. constructor; try done; cbn.
    - eexists. split; [done|]. by rewrite length_imap.
    - eexists. split; [done|]. by rewrite length_imap.
    - cbn in *. lia. }
  rewrite (bind_ok _ _ _ _ _ E2).
  assert (regs s2 device_config = field_modify DeviceAddress 0 (regs s device_config)) as Hdc.
  { rewrite Hr2. subst s1. cbn. by rewrite decide_True. }
  destruct Hs2 as [Hs2a Hs2b]. pose proof Hwf2 as [(od & Ho & Hl) _ _ _ [Hn _] _ _ _ _ _].
  unfold expect_setup_packet, write, modify_reg. run. run_out_flags od. eexists. split; [reflexivity|].
  split_and!; [split|split|done| |]; cbn.
  - destruct Hwf2. constructor; try done. cbn. eexists. split; [done|]. congruence.
  - exact Had2.
  - exact Hs2a.
  - exact Hs2b.
  - unfold device_address. cbn. rewrite !decide_False, Hdc, read_modify_same by (done || by_compute). done.
  - exact Hk2.
Qed.

(** What the driver relies on from its client. *)
Class ClientLaws := {
  transmitted_returns s : good s → ∃ s', frame_transmitted s = (Ok tt, s') ∧ good s';
  received_returns s : good s → ∃ s', frame_received s = (Ok tt, s') ∧ good s'
}.
Context `{!ClientLaws}.

Lemma client_call_good (m : K (t C) unit) s : good s → (∀ s, good s → ∃ s', m s = (Ok tt, s') ∧ good s') →
  ∃ s', client_call m s = (Ok tt, s') ∧ good s'.
Proof.
  intros Hg Hm. unfold client_call, map_cell. run. destruct (u2f_client s); [by apply Hm|by exists s].
Qed.

Lemma handle_endpoint1_good o i s : good s → ∃ s', handle_endpoint1_events o i s = (Ok tt, s') ∧ good s'.
Proof.
  intros Hg. unfold handle_endpoint1_events, read.
  assert (∀ r (m : K (t C) unit) s, good s → (∀ s, good s → ∃ s', m s = (Ok tt, s') ∧ good s') →
    ∃ s', (v ← gets (λ s, regs s r); write r [v] ;; if is_set TransferCompleted v then client_call m else mret tt) s = (Ok tt, s') ∧ good s') as Hhalf.
  { intros r m s1 Hg1 Hm. run. destruct (write_good r [regs s1 r] s1 Hg1) as (s2 & E2 & Hg2 & _). rewrite (bind_ok _ _ _ _ _ E2).
    destruct (is_set _ _); [by apply client_call_good|by exists s2]. }
  assert (∃ s1, (if i then v ← gets (λ s, regs s (in_interrupt 1)); write (in_interrupt 1) [v] ;;
      if is_set TransferCompleted v then client_call frame_transmitted else mret tt else mret tt) s = (Ok tt, s1) ∧ good s1) as (s1 & E1 & Hg1).
  { destruct i; [apply Hhalf; [done|apply transmitted_returns]|by exists s]. }
  rewrite (bind_ok _ _ _ _ _ E1). destruct o; [apply Hhalf; [done|apply received_returns]|by exists s1].
Qed.

Lemma modify_reg_when (c : bool) r f s : good s →
  ∃ s', (if c then modify_reg r f else mret tt) s = (Ok tt, s') ∧ good s' ∧ same s s'.
Proof.
  intros [Hwf Had]. destruct c; [|by exists s]. eexists. split; [reflexivity|]. split; [|done]. split; [by apply wf_set_regs|exact Had].
Qed.

Lemma handle_interrupt_safe s : good s → safe (handle_interrupt beyond) s.
Proof.
  intros Hg. unfold handle_interrupt, read. do 2 (eapply safe_step; [reflexivity|done|]).
  set (status := regs s interrupt_status).
  destruct (modify_reg_when (is_set StartOfFrame (regs s interrupt_mask) && is_set StartOfFrame status) interrupt_mask
    (modify_clear StartOfFrame) s Hg) as (s1 & E1 & Hg1 & Hs1). eapply safe_step; [exact E1|exact Hs1|].
  assert (∃ s2, (if is_set Reset status || is_set ResetDetected status then usb_reset else mret tt) s1 = (Ok tt, s2) ∧ good s2 ∧ same s1 s2)
    as (s2 & E2 & Hg2 & Hs2).
  { destruct (_ || _); [|by exists s1]. destruct (usb_reset_good s1 (proj1 Hg1)) as (s2 & E2 & Hg2 & Hs2 & _). by exists s2. }
  eapply safe_step; [exact E2|exact Hs2|]. apply safe_then.
  - destruct (is_set InEndpoints status || _); [|apply ok_safe; by exists s2]. eapply safe_step; [reflexivity|done|].
    destruct (is_set OUT0 _ || _); [by apply handle_endpoint0_safe|]. apply ok_safe.
    destruct (is_set OUT1 _ || _); [by apply handle_endpoint1_good|by exists s2].
  - intros s3 Hg3.
    destruct (modify_reg_when (is_set GlobalOutNak status) device_control (modify_set ClearGlobalOutNak) s3 Hg3) as (s4 & E4 & Hg4 & _).
    destruct (modify_reg_when (is_set GlobalInNak status) device_control (modify_set ClearGlobalNonPeriodicInNak) s4 Hg4) as (s5 & E5 & Hg5 & _).
    destruct (write_good interrupt_status [status] s5 Hg5) as (s6 & E6 & Hg6 & _). exists s6.
    by rewrite (bind_ok _ _ _ _ _ E4), (bind_ok _ _ _ _ _ E5).
Qed.
End Driver.
