(* ===== verification/UsbDevice.v ===== *)
(** The USB device as a whole: its initialization, its answers to the host, the
    frames of endpoint 1, and the states that it can reach. *)

From S2P Require Import Prelude Io Tock Registers UsbTypes Usb UsbFacts.
From Stdlib Require Import ZArith Lia.
From stdpp Require Import base decidable option list list_numbers relations.

#[local] Open Scope Z_scope.

Import USB.

(** ** The configuration descriptor *)

Definition CONFIGURATION : list Z :=
  [9; 2; 41; 0; 1; 1; 3; 0x80; 50] ++ [9; 4; 0; 0; 2; 3; 0; 0; 6] ++ [9; 0x21; 0; 1; 0; 1; 34; 34; 0] ++
  [7; 5; 0x01; 3; 64; 0; 2] ++ [7; 5; 0x81; 3; 64; 0; 2].

Lemma configuration_generated desc : length desc = 64%nat →
  full_configuration_descriptor desc = Some (41%nat, CONFIGURATION ++ drop 41 desc).
Proof. intros Hl. do 64 (destruct desc as [|? desc]; [done|]). destruct desc; [reflexivity|done]. Qed.

(** A reader of USB descriptors: each starts with its length and its type. *)
Fixpoint walk (fuel : nat) (bs : list Z) : option (list (Z * list Z)) :=
  match fuel, bs with
  | _, [] => Some []
  | S fuel', n :: t :: rest =>
      if (2 <=? n) && (Z.of_nat (length rest) + 2 >=? n) then
        l ← walk fuel' (drop (Z.to_nat n - 2) rest); Some ((t, take (Z.to_nat n - 2) rest) :: l)
      else None
  | _, _ => None
  end.

(** ** Initialization *)

Section Init.
Context {C : Type} `{RegisterLaws} `{!UsbHidU2fClient C} (beyond : nat → Z).
Implicit Types s : t C.

(** An operation on registers returns, and keeps the cells. *)
Definition keeps (m : K (t C) unit) : Prop :=
  ∀ s, wf s → ∃ s', m s = (Ok tt, s') ∧ wf s' ∧ settings s' = settings s ∧
    (configuration_current_value s', u2f_client s') = (configuration_current_value s, u2f_client s).

Lemma keeps_seq (m k : K (t C) unit) : keeps m → keeps k → keeps (m ;; k).
Proof.
  intros Hm Hk s Hs. destruct (Hm s Hs) as (s1 & E1 & H1 & K1 & V1). destruct (Hk s1 H1) as (s2 & E2 & H2 & K2 & V2).
  exists s2. rewrite (bind_ok _ _ _ _ _ E1). split_and!; [done|done|congruence..].
Qed.
Lemma keeps_write r vs : keeps (write r vs).
Proof. intros s Hs. eexists. split; [reflexivity|]. split; [by apply wf_set_regs|done]. Qed.
Lemma keeps_modify r f : keeps (modify_reg r f).
Proof. intros s Hs. eexists. split; [reflexivity|]. split; [by apply wf_set_regs|done]. Qed.
Lemma keeps_reads f : keeps (modify (λ s, set_reset_reads (f s) s)).
Proof. intros s []. eexists. split; [reflexivity|]. split; [by constructor|done]. Qed.
Lemma keeps_clock n : keeps (enable_clock n).
Proof. intros s []. eexists. split; [reflexivity|]. split; [by constructor|done]. Qed.
Lemma keeps_fold (f : nat → t C → t C) l : (∀ i, keeps (modify (f i))) → keeps (modify (λ s, foldl (λ s i, f i s) s l)).
Proof.
  intros Hf s Hs. eexists. split; [reflexivity|]. revert s Hs. induction l as [|i l IH]; intros s Hs; [done|]. cbn [foldl].
  destruct (Hf i s Hs) as (s1 & E & H1 & K1 & V1). injection E as <-. destruct (IH _ H1) as (H2 & K2 & V2). split_and!; congruence.
Qed.
Lemma keeps_soft_reset : keeps soft_reset.
Proof.
  intros s Hs. unfold soft_reset, write. run. destruct (spin _ _ _) as [ok r]. run.
  destruct ok; [destruct (spin _ _ _) as [ok r']|]; (eexists; split; [reflexivity|]; split; [|done]; destruct Hs; by constructor).
Qed.

(** The second part of [init], after the cells have been filled. *)
Lemma keeps_data_fifos : keeps setup_data_fifos.
Proof.
  unfold setup_data_fifos, flush_tx_fifo, flush_rx_fifo.
  repeat first [apply keeps_seq | apply keeps_write | apply keeps_reads | apply (keeps_fold (λ i s, store (device_in_ep_tx_fifo_size i) _ s)); intros i].
  intros s Hs. eexists. split; [reflexivity|]. split; [by apply wf_set_regs|done].
Qed.

Lemma keeps_clear_interrupts : keeps clear_endpoint_interrupts.
Proof.
  unfold clear_endpoint_interrupts.
  repeat apply keeps_seq; [apply (keeps_fold (λ i s, store (out_interrupt i) _ s))|apply (keeps_fold (λ i s, store (in_interrupt i) _ s))|apply keeps_write];
    intros i s Hs; (eexists; split; [reflexivity|]; split; [by apply wf_set_regs|done]).
Qed.

Lemma option_set {A} (o : option A) (set : A → t C → t C) (get : t C → A) s : set (get s) s = s →
  (match o with Some v => modify (set v) | None => mret tt end : K (t C) unit) s = (Ok tt, set (default (get s) o) s).
Proof. intros Hs. destruct o; [done|]. cbn. by rewrite Hs. Qed.

(** The arguments of [init] have the lengths of their types, and the strings are as the constructors make them. *)
Record arguments_ok (od : list DMADescriptor) (ob : list (list Z)) (idesc : list DMADescriptor) (ib ob1 ib1 cb : list Z)
    (class_ vid pid : option Z) (strs : list StringDescriptor.t) : Prop := mk_arguments_ok {
  a_od : length od = 2%nat;
  a_ob : length ob = 2%nat ∧ Forall (λ b, length b = 16%nat) ob;
  a_id : length idesc = 4%nat;
  a_ib : length ib = 64%nat;
  a_ep1 : length ob1 = 16%nat ∧ length ib1 = 16%nat;
  a_cb : length cb = 64%nat ∧ bytes_ok cb;
  a_ids : fits 8 (default 0 class_) ∧ fits 16 (default 0x0011 vid) ∧ fits 16 (default 0x7788 pid);
  a_strs : Forall (λ d, string_ok d ∧ (length (StringDescriptor.b_string d) <= 126)%nat) strs
}.

(** The client may have been linked before. *)
Lemma init_wf c r reads od ob idesc ib od1 ob1 id1 ib1 cb phy class_ vid pid strs :
  arguments_ok od ob idesc ib ob1 ib1 cb class_ vid pid strs →
  ∃ s', init od ob idesc ib od1 ob1 id1 ib1 cb phy class_ vid pid strs (set_u2f_client c (new (C := C) r reads)) = (Ok tt, s') ∧ wf s' ∧
    settings s' = (default 0 class_, default 0x0011 vid, default 0x7788 pid, Some (CONFIGURATION ++ drop 41 cb), 41, Some strs) ∧
    u2f_client s' = c.
Proof.
  intros [Hod [Hob Hob16] Hid Hib [Hob1 Hib1] [Hcb Hcbb] (Hc & Hv & Hp) Hstrs]. unfold init. run.
  rewrite (bind_ok _ _ _ _ _ (option_set class_ set_device_class device_class _ eq_refl)).
  rewrite (bind_ok _ _ _ _ _ (option_set vid set_vendor_id vendor_id _ eq_refl)).
  rewrite (bind_ok _ _ _ _ _ (option_set pid set_product_id product_id _ eq_refl)).
  unfold generate_full_configuration_descriptor, map_cell. run. cbn [configuration_descriptor set_product_id set_vendor_id set_device_class
    set_strings set_configuration_descriptor]. run. rewrite configuration_generated by done. cbn [unwrap]. run.
  assert (∃ D, D = CONFIGURATION ++ drop 41 cb ∧ length D = 64%nat ∧ bytes_ok D) as (D & ED & HDl & HDb).
  { eexists. split; [done|]. split; [by rewrite length_app, length_drop, Hcb|]. apply bytes_ok_app. split; [by_compute|by apply Forall_drop]. }
  change (snd (41%nat, CONFIGURATION ++ drop 41 cb)) with (CONFIGURATION ++ drop 41 cb). rewrite <-ED.
  match goal with |- ∃ s', ?m ?s1 = _ ∧ _ => assert (wf s1) as Hwf end.
  { constructor; cbn; eauto 10 with lia.
    split_and!; done || lia. }
  match goal with |- ∃ s', ?m ?s1 = _ ∧ _ => assert (keeps m) as Hk end.
  { repeat match goal with
      | |- keeps (write _ _) => apply keeps_write
      | |- keeps write_usb_configuration => apply keeps_write
      | |- keeps (modify_reg _ _) => apply keeps_modify
      | |- keeps (enable_clock _) => apply keeps_clock
      | |- keeps soft_reset => apply keeps_soft_reset
      | |- keeps setup_data_fifos => apply keeps_data_fifos
      | |- keeps clear_endpoint_interrupts => apply keeps_clear_interrupts
      | |- keeps _ => apply keeps_seq
      end. }
  destruct (Hk _ Hwf) as (s' & E & Hwf' & Hs & [= _ Hcl]). exists s'. split_and!; [exact E|done|by rewrite Hs|by rewrite Hcl].
Qed.
End Init.

(** ** The frames of endpoint 1 *)

Section Frames.
Context {C : Type} `{RegisterLaws} `{!UsbHidU2fClient C} (beyond : nat → Z).
Implicit Types s : t C.

(** Endpoint 1 has been set up, as [SetAddress] does. *)
Definition ep1_active (s : t C) : Prop :=
  in_dma s 1 = Some D_ep1_in ∧ ∃ d, ep1_in_descriptor s = Some d ∧ addr d = At B_ep1_in 0.

(** What the controller sends on endpoint 1. *)
Definition dma_in1 (s : t C) : option (list Z) :=
  match in_dma s 1, ep1_in_descriptor s, ep1_in_buffer s with
  | Some D_ep1_in, Some d, Some b =>
      match addr d with
      | At B_ep1_in off =>
          if Z.land (flags d) STATUS_MASK =? HOST_READY
          then Some (take (Z.to_nat (Z.land (flags d) 0xffff)) (drop off (register_bytes b))) else None
      | _ => None
      end
  | _, _, _ => None
  end.

Lemma ep1_enable_tx_ok s d : ep1_in_descriptor s = Some d →
  ∃ r, ep1_enable_tx s = (Ok tt, set_regs r (set_ep1_in_descriptor (Some (mk_DMADescriptor U2F_FLAGS (addr d))) s)).
Proof. intros Hd. unfold ep1_enable_tx, map_cell, modify_reg. run. rewrite Hd. by eexists. Qed.

(** What the controller sends once a frame of the driver is marked ready. *)
Lemma dma_in1_sent s b f : in_dma s 1 = Some D_ep1_in → addr f = At B_ep1_in 0 → length b = 16%nat →
  ep1_in_descriptor s = Some (mk_DMADescriptor U2F_FLAGS (addr f)) → ep1_in_buffer s = Some b →
  dma_in1 s = Some (register_bytes b).
Proof.
  intros Hdma Had Hl Hd Hb. unfold dma_in1. rewrite Hdma, Hd, Hb. cbn [addr flags]. rewrite Had.
  change (Z.land U2F_FLAGS STATUS_MASK =? HOST_READY) with true. cbn iota. rewrite drop_0. f_equal.
  change (Z.to_nat (Z.land U2F_FLAGS 0xffff)) with 64%nat. apply take_ge. rewrite length_register_bytes. lia.
Qed.

Lemma put_slice_ready slice s : wf s → bytes_ok slice → (length slice <= 64)%nat → ep1_tx_fifo_is_ready s = true →
  ∃ old b r d, ep1_in_buffer s = Some old ∧ length b = 16%nat ∧ ep1_in_descriptor s = Some d ∧
    put_slice slice s = (Ok SUCCESS, set_regs r (set_ep1_in_descriptor (Some (mk_DMADescriptor U2F_FLAGS (addr d))) (set_ep1_in_buffer (Some b) s))) ∧
    register_bytes b = slice ++ replicate (padding (length slice)) 0 ++ drop (length slice + padding (length slice)) (register_bytes old).
Proof.
  intros [_ _ _ _ _ _ (d & old & Hd & Hb & Hl) _ _ _] Hs Hlen Hr. destruct (slice_loop_bytes 0 slice old) as (b & E & Hlb & Hby); [done|lia|].
  destruct (ep1_enable_tx_ok (set_ep1_in_buffer (Some b) s) d Hd) as [r Et].
  exists old, b, r, d. split_and!; [done|lia|done| |].
  - unfold put_slice. rewrite (proj2 (Nat.ltb_ge _ _)) by lia. run. rewrite Hr. unfold map_cell. run. rewrite Hb. run.
    change (4 * 0)%nat with 0%nat in E. rewrite E. cbn [unwrap]. run. by rewrite (bind_ok _ _ _ _ _ Et).
  - rewrite Hby. change (4 * 0)%nat with 0%nat. rewrite take_0. done.
Qed.

Lemma word_byte w k : (k < 4)%nat → Some (Z.land (Z.shiftr w (8 * Z.of_nat k)) 0xff) = le_bytes 4 w !! k.
Proof.
  intros Hk. change 0xff with (Z.ones 8). rewrite Z.land_ones, Z.shiftr_div_pow2 by lia. change (2 ^ 8) with 256.
  do 4 (destruct k as [|k]; [simpl; rewrite ?Z.div_div by lia; rewrite ?Z.div_1_r; done|]). lia.
Qed.

Lemma register_byte l i : (i < 4 * length l)%nat →
  (w ← l !! (i / 4)%nat; Some (Z.land (Z.shiftr w (8 * Z.of_nat (i mod 4))) 0xff)) = register_bytes l !! i.
Proof.
  intros Hi. pose proof (Nat.div_mod_eq i 4) as Hdm. pose proof (Nat.mod_upper_bound i 4 ltac:(lia)) as Hm.
  destruct (lookup_lt_is_Some_2 l (i / 4)%nat) as [w Hw]; [lia|]. rewrite Hw. cbn [mbind option_bind]. rewrite word_byte by done.
  rewrite <-(take_drop_middle _ _ _ Hw) at 1. rewrite register_bytes_app.
  assert (length (register_bytes (take (i / 4) l)) = 4 * (i / 4))%nat as Hlt by (rewrite length_register_bytes, length_take; lia).
  rewrite lookup_app_r by lia. rewrite Hlt. change (register_bytes (w :: ?r)) with (le_bytes 4 w ++ register_bytes r).
  rewrite lookup_app_l by (rewrite length_le_bytes; lia). f_equal. lia.
Qed.

Lemma get_slice_ok slice s hw : ep1_out_buffer s = Some hw → length hw = 16%nat → (length slice <= 64)%nat →
  get_slice slice s = (Ok (SUCCESS, take (length slice) (register_bytes hw)), s).
Proof.
  intros Hhw Hl Hs. unfold get_slice. rewrite (proj2 (Nat.ltb_ge _ _)) by lia. run. rewrite Hhw.
  assert (mapM (λ i, w ← hw !! (i / 4)%nat; Some (Z.land (Z.shiftr w (8 * Z.of_nat (i mod 4))) 0xff)) (seq 0 (length slice)) =
    Some (take (length slice) (register_bytes hw))) as ->; [|done].
  apply mapM_Some, Forall2_same_length_lookup_2.
  { rewrite length_seq, length_take, length_register_bytes. lia. }
  intros i j x Hj Hx. apply lookup_seq in Hj as [-> Hi]. rewrite lookup_take_lt in Hx by lia. rewrite register_byte by lia. exact Hx.
Qed.
End Frames.

(** ** Theorems *)

Section Statements.
Context {C : Type} `{RegisterLaws} `{!UsbHidU2fClient C} (beyond : nat → Z).
Implicit Types s : t C.


(** C38: A host can crash the kernel, and exactly with these packets: a standard request
    to the device that announces data to the device, a request for a string descriptor
    with an index behind the last string, and a request for more than 34 bytes of the
    report descriptor. *)
Theorem host_crashes_kernel (tc : TableCase) (s : t C) (r : SetupRequest) :
  good s → received s r → ((handle_setup beyond tc s).1 = Panic ↔ crashes s r).
Proof.
  intros Hg Hr. assert (fits 16 (w_value r) ∧ fits 16 (w_length r)) as [Hv Hw] by (destruct Hr as (? & ? & _ & _ & Hr); by eapply setup_new_fits).
  rewrite (handle_setup_dispatch beyond tc s r Hr), <-answer_none. destruct (answer s r) as [a|] eqn:Ha.
  - destruct (dispatch_answered beyond tc r s a Hg Hv Hw Ha) as (s' & E & _). rewrite E. done.
  - split; [done|]. intros _. by apply dispatch_panics.
Qed.

(** What happens to the driver: the controller and the host change registers, the state
    of descriptors and what was received; interrupts; and calls of the client. *)
Inductive ustep : t C → t C → Prop :=
| U_hardware s r rr od ds ds0 ob d1 d2 d20 b1 :
    length od = 2%nat → ep0_in_descriptors s = Some ds0 → addr <$> ds = addr <$> ds0 →
    length ob = 2%nat → Forall (λ b, length b = 16%nat) ob → length b1 = 16%nat →
    ep1_in_descriptor s = Some d20 → addr d2 = addr d20 →
    ustep s (set_regs r (set_reset_reads rr (set_ep0_out_descriptors (Some od) (set_ep0_in_descriptors (Some ds)
              (set_ep0_out_buffers (Some ob) (set_ep1_out_descriptor (Some d1) (set_ep1_in_descriptor (Some d2)
               (set_ep1_out_buffer (Some b1) s))))))))
| U_interrupt s s' : handle_interrupt beyond s = (Ok tt, s') → ustep s s'
| U_put slice s rc s' : bytes_ok slice → put_slice slice s = (Ok rc, s') → ustep s s'
| U_enable_rx s rc s' : enable_rx s = (Ok rc, s') → ustep s s'.

Lemma put_slice_good slice s : good s → bytes_ok slice → ∃ rc s', put_slice slice s = (Ok rc, s') ∧ good s'.
Proof.
  intros [Hwf Had] Hb. destruct (decide (64 < length slice)%nat) as [Hl|Hl].
  { exists ESIZE, s. unfold put_slice. by rewrite (proj2 (Nat.ltb_lt _ _)). }
  destruct (ep1_tx_fifo_is_ready s) eqn:Hr.
  - destruct (put_slice_ready slice s Hwf Hb ltac:(lia) Hr) as (old & b & r & d & Ho & Hlb & Hd & E & _). eexists _, _. split; [exact E|].
    split; [|exact Had]. destruct Hwf. constructor; try done. cbn. by eauto.
  - exists EBUSY, s. unfold put_slice. rewrite (proj2 (Nat.ltb_ge _ _)) by lia. rewrite bind_gets, Hr. done.
Qed.

Context `{!ClientLaws}.

Lemma ustep_good s s' : good s → ustep s s' → good s'.
Proof.
  intros Hg Hs. pose proof Hg as [Hwf Had]. destruct Hs as [s r rr od ds ds0 ob d1 d2 d20 b1 Hod Hds Haddr Hob Hob16 Hb1 Hd2 Had2|s s' E|slice s rc s' Hb E|s rc s' E].
  - split.
    + destruct Hwf as [W1 W2 W3 W4 W5 W6 W7 W8 W9 W10]. constructor; try done; cbn; eauto 10.
      * destruct W3 as (ds1 & E1 & El). rewrite Hds in E1. injection E1 as ->. exists ds. split; [done|].
        apply (f_equal length) in Haddr. by rewrite !length_fmap in Haddr; lia.
      * destruct W7 as (d & b & _ & E2 & E3). by eauto.
    + destruct Had as (ds1 & d & E1 & E2 & E3). rewrite Hds in E1. injection E1 as ->.
      assert ((addr <$> ds) !! 0%nat = Some (addr d)) as Hx by (by rewrite Haddr, list_lookup_fmap, E2).
      rewrite list_lookup_fmap in Hx. destruct (ds !! 0%nat) as [d0|] eqn:E0; [|done]. injection Hx as Hx. exists ds, d0. split_and!; [done..|]. by rewrite Hx.
  - destruct (handle_interrupt_safe beyond s Hg) as [(s2 & E2 & Hg2)|[Hp _]]; [congruence|]. by rewrite E in Hp.
  - destruct (put_slice_good slice s Hg Hb) as (rc' & s2 & E2 & Hg2). congruence.
  - unfold enable_rx, ep1_enable_rx, modify_reg in E. destruct Hwf as [? ? ? ? ? (d & b & E1 & E2 & E3) ? ? ? ?].
    rewrite bind_unfold in E. unfold gets in E. rewrite bind_unfold, E1 in E. cbn in E. injection E as <- <-. split; [|exact Had].
    constructor; try done. cbn. by eauto.
Qed.

(** C22: The driver stays well formed: from a bus reset on, whatever the controller and the
    host do and whichever interrupts and client calls happen, all buffers and
    descriptors are present with their sizes, the indices are in range, the IN
    descriptor points to its buffer and the settings have their widths; the
    interrupt handler returns unless a buffer holds a packet that crashes it; and
    sending a frame always returns. *)
Theorem usb_stays_well_formed (s0 s : t C) :
  good s0 → rtc ustep s0 s →
  good s ∧ safe (handle_interrupt beyond) s ∧
  ∀ slice, bytes_ok slice → ∃ rc s', put_slice slice s = (Ok rc, s') ∧ good s'.
Proof.
  intros Hg Hr. assert (good s) as Hgs by (induction Hr as [|x y z Hxy _ IH]; [done|]; apply IH; by eapply ustep_good).
  split_and!; [done|by apply handle_interrupt_safe|]. intros slice Hb. by apply put_slice_good.
Qed.

(** A request for the configuration descriptor. *)
Definition configuration_request (r : SetupRequest) : Prop :=
  req_type r = Standard ∧ recipient r = ToDevice ∧ data_direction r = DeviceToHost ∧ request r = GetDescriptor ∧
  Z.shiftr (w_value r) 8 = 2.

(** What a host reads from a configuration: its own length, one interface of class HID
    with a report descriptor as long as the driver's, and two interrupt endpoints with
    64-byte packets, one in each direction. *)
Definition describes_u2f (conf : list Z) : Prop :=
  ∃ c i h e1 e2, walk (length conf) conf = Some [(2, c); (4, i); (0x21, h); (5, e1); (5, e2)] ∧
    le_value (take 2 c) = Z.of_nat (length conf) ∧ c !! 2%nat = Some 1 ∧
    i !! 2%nat = Some 2 ∧ i !! 3%nat = Some 3 ∧
    h !! 4%nat = Some 0x22 ∧ le_value (take 2 (drop 5 h)) = Z.of_nat (length U2F_REPORT_DESCRIPTOR) ∧
    (e1 !! 0%nat, e2 !! 0%nat) = (Some 0x01, Some 0x81) ∧
    (transfer ∘ attributes_from <$> e1 !! 1%nat, transfer ∘ attributes_from <$> e2 !! 1%nat) = (Some Interrupt, Some Interrupt) ∧
    (le_value (take 2 (drop 2 e1)), le_value (take 2 (drop 2 e2))) = (64, 64).


(** What a frame sent to the host contains.  More than 64 bytes are refused, and so is
    any frame while the last one has not been taken; otherwise the host gets 64 bytes:
    the bytes given, zeros up to the next multiple of four, and behind them bytes of
    the frame before. *)
Theorem frame_sent (slice : list Z) (s : t C) :
  wf s → ep1_active s → bytes_ok slice →
  let '(r, s') := put_slice slice s in
  if decide (64 < length slice)%nat then r = Ok ESIZE ∧ s' = s
  else if ep1_tx_fifo_is_ready s then
    r = Ok SUCCESS ∧ ep1_tx_fifo_is_ready s' = false ∧
    ∃ old, ep1_in_buffer s = Some old ∧
      dma_in1 s' = Some (slice ++ replicate (padding (length slice)) 0 ++
                         drop (length slice + padding (length slice)) (register_bytes old))
  else r = Ok EBUSY ∧ s' = s.
Proof.
  intros Hwf [Hdma (d & Hd & Had)] Hb. destruct (decide (64 < length slice)%nat) as [Hl|Hl].
  { unfold put_slice. by rewrite (proj2 (Nat.ltb_lt _ _)). }
  destruct (ep1_tx_fifo_is_ready s) eqn:Hr.
  - destruct (put_slice_ready slice s Hwf Hb ltac:(lia) Hr) as (old & b & r & d' & Ho & Hlb & Hd' & E & Hby). rewrite E.
    rewrite Hd in Hd'. injection Hd' as <-. split_and!; [done|done|]. exists old. split; [done|]. rewrite <-Hby. by apply (dma_in1_sent _ b d).
  - unfold put_slice. rewrite (proj2 (Nat.ltb_ge _ _)) by lia. by rewrite bind_gets, Hr.
Qed.
End Statements.

(** ** The strings of the golf2 board *)

Definition GOLF2_STRINGS : list StringDescriptor.t :=
  [StringDescriptor.mk 4 (descriptor_u8 String) [0x0409];
   StringDescriptor.mk 24 (descriptor_u8 String) [0x0047; 0x006f; 0x006f; 0x0067; 0x006c; 0x0065; 0x0020; 0x0049; 0x006e; 0x0063; 0x002e];
   StringDescriptor.mk 14 (descriptor_u8 String) [0x0070; 0x0072; 0x006f; 0x0074; 0x006f; 0x0032];
   StringDescriptor.mk 54 (descriptor_u8 String) [0x0070; 0x0072; 0x006F; 0x0074; 0x006F; 0x0032; 0x005F; 0x0076; 0x0031; 0x002E; 0x0031; 0x002E; 0x0038; 0x0037; 0x0031; 0x0033; 0x002D; 0x0030; 0x0031; 0x0033; 0x0032; 0x0031; 0x0037; 0x0064; 0x0039; 0x0031];
   StringDescriptor.mk 12 (descriptor_u8 String) [0x0053; 0x0068; 0x0065; 0x006C; 0x006C; 0x006C];
   StringDescriptor.mk 8 (descriptor_u8 String) [0x0042; 0x004C; 0x0041; 0x0048];
   StringDescriptor.mk 20 (descriptor_u8 String) [0x0048; 0x006F; 0x0074; 0x0065; 0x006C; 0x0020; 0x0055; 0x0032; 0x0046]].

(** What a host reads that asks for as many bytes as the descriptor announces. *)
Definition announced (d : StringDescriptor.t) : list Z := take (StringDescriptor.length d) (string_bytes d).

(** Two of the board's seven strings announce a length that is two bytes short, so that a
    host which trusts it loses the last character: the names of the shell interface and
    of string 5; the other five are read completely. *)
Theorem golf2_strings_truncated (i : nat) (d : StringDescriptor.t) :
  GOLF2_STRINGS !! i = Some d →
  announced d = string_bytes (StringDescriptor.mk (StringDescriptor.b_length d) (StringDescriptor.b_descriptor_type d)
    (if decide (i = 4%nat ∨ i = 5%nat) then removelast (StringDescriptor.b_string d) else StringDescriptor.b_string d)).
Proof. do 7 (destruct i as [|i]; [intros [= <-]; vm_compute; reflexivity|]). intros Hi. apply lookup_lt_Some in Hi. cbn in Hi. lia. Qed.

Lemma golf2_strings_truncated_witness :
  announced (StringDescriptor.mk 8 3 [0x42; 0x4C; 0x41; 0x48]) = [8; 3; 0x42; 0; 0x4C; 0; 0x41; 0].
Proof. rewrite (golf2_strings_truncated 5 (StringDescriptor.mk 8 3 [0x42; 0x4C; 0x41; 0x48]) eq_refl). reflexivity. Defined.

(** ** A device of the golf2 board *)

#[local] Instance no_client : UsbHidU2fClient unit := {| reconnected := mret tt; frame_received := mret tt; frame_transmitted := mret tt |}.
#[local] Instance no_client_laws : ClientLaws (C := unit).
Proof. split; intros s Hg; by exists s. Qed.

(** A state in which [pkt] has been received. *)
Definition golf2_with {C} (client : C) (pkt : list Z) : t C :=
  USB.mk (λ _, 0) (λ n, if decide (n = 1%nat) then Some D_ep1_in else None) (λ _, None) [] [] WaitingForSetupPacket
    (Some [mk_DMADescriptor HOST_BUSY (At (B_ep0_out 0) 0); mk_DMADescriptor HOST_BUSY (At (B_ep0_out 1) 0)])
    (Some [pkt; replicate 16 0])
    (Some ((λ i, mk_DMADescriptor HOST_BUSY (At B_ep0_in (i * 64))) <$> seq 0 4)) (Some (replicate 64 0)) 1 0
    (Some (mk_DMADescriptor U2F_FLAGS (At B_ep1_out 0))) (Some (replicate 16 0))
    (Some (mk_DMADescriptor HOST_BUSY (At B_ep1_in 0))) (Some (replicate 16 0x61616161))
    0 0x18d1 0x5026 (Some (CONFIGURATION ++ replicate 23 0)) 41 0 (Some GOLF2_STRINGS) (Some client).

Definition golf2 : list Z → t unit := golf2_with tt.

Lemma golf2_with_good {C} (client : C) pkt : length pkt = 16%nat → good (golf2_with client pkt).
Proof.
  intros Hl. split; [|by eexists _, _; split_and!]. constructor.
  - by eexists.
  - eexists. split; [reflexivity|]. split; [done|]. by repeat constructor.
  - by eexists.
  - by eexists.
  - cbn. lia.
  - eexists _, _. by split_and!.
  - eexists _, _. by split_and!.
  - by_compute.
  - eexists. split; [reflexivity|]. by_compute.
  - eexists. split; [reflexivity|]. by_compute.
Qed.

Lemma golf2_good pkt : length pkt = 16%nat → good (golf2 pkt).
Proof. apply golf2_with_good. Qed.

(** The setup packet of eight bytes, in the buffer of an endpoint. *)
Definition packet (t r v i l : Z) : list Z :=
  le_value ([t; r] ++ le_bytes 2 v) :: le_value (le_bytes 2 i ++ le_bytes 2 l) :: replicate 14 0.

Lemma packet_received t r v i l : fits 8 t → fits 8 r → fits 16 v → fits 16 i → fits 16 l →
  received (golf2 (packet t r v i l)) (mk_SetupRequest t r v i l).
Proof. intros Ht Hr Hv Hi Hl. eexists _, _. split_and!; [done..|]. by apply setup_new_bytes. Qed.


(** The host asks for string 7. *)
Lemma host_crashes_kernel_witness :
  (@handle_setup _ TockBits.interface (λ _, 0) CaseC (golf2 (packet 0x80 6 0x307 0 255))).1 = Panic.
Proof.
  apply (proj2 (@host_crashes_kernel unit TockBits.interface TockBits.laws (λ _, 0) CaseC (golf2 (packet 0x80 6 0x307 0 255))
    (mk_SetupRequest 0x80 6 0x307 0 255) (golf2_good (packet 0x80 6 0x307 0 255) eq_refl) ltac:(by apply packet_received))).
  split; [reflexivity|]. right; left. split_and!; reflexivity || (cbn; lia).
Defined.

Lemma usb_stays_well_formed_witness :
  good (golf2 (packet 0x80 6 0x100 0 18)) ∧
  @safe unit (@handle_interrupt unit TockBits.interface no_client (λ _, 0)) (golf2 (packet 0x80 6 0x100 0 18)).
Proof.
  destruct (@usb_stays_well_formed unit TockBits.interface TockBits.laws no_client (λ _, 0) no_client_laws
    (golf2 (packet 0x80 6 0x100 0 18)) (golf2 (packet 0x80 6 0x100 0 18)) (golf2_good (packet 0x80 6 0x100 0 18) eq_refl) (rtc_refl _ _)) as (Hg & Hs & _).
  split; [exact Hg|exact Hs].
Defined.


(** Two bytes are sent after a frame of letters: the host sees letters of that frame. *)
Lemma frame_sent_witness :
  ∃ rest, dma_in1 (@put_slice unit TockBits.interface [1; 2] (golf2 (replicate 16 0))).2 = Some ([1; 2; 0; 0; 0x61; 0x61] ++ rest).
Proof.
  pose proof (@frame_sent unit TockBits.interface [1; 2] (golf2 (replicate 16 0)) (proj1 (golf2_good (replicate 16 0) eq_refl))) as Hf.
  destruct (put_slice [1; 2] (golf2 (replicate 16 0))) as [r s'] eqn:E. destruct Hf as (_ & _ & old & [= <-] & Hd).
  - split; [reflexivity|]. eexists. split; reflexivity.
  - by_compute.
  - cbn [snd]. eexists. rewrite Hd. reflexivity.
Defined.
