(* ===== verification/U2f.v ===== *)
(** The U2F system calls (kernel/h1/src/usb/driver.rs): the client of endpoint 1,
    which hands received frames to every process and sends the frames of processes.

    Processes are the entries of the grant, in the order of the iteration; entering
    the grant of a process without an entry gives the error [denied].  Buffers shared
    by a process are lists of bytes; scheduled callbacks are the list [upcalls]. *)

From S2P Require Import Prelude Io Tock Registers UsbTypes Usb UsbFacts UsbDevice.
From Stdlib Require Import ZArith Lia.
From stdpp Require Import base decidable option list list_numbers.

#[local] Open Scope Z_scope.

Definition U2F_CMD_CHECK : Z := 0.
Definition U2F_CMD_TRANSMIT : Z := 1.
Definition U2F_CMD_RECEIVE : Z := 2.
Definition U2F_ALLOW_TRANSMIT : Z := 1.
Definition U2F_ALLOW_RECEIVE : Z := 2.
Definition U2F_SUBSCRIBE_TRANSMIT_DONE : Z := 1.
Definition U2F_SUBSCRIBE_RECEIVE_DONE : Z := 2.
Definition U2F_SUBSCRIBE_RECONNECT : Z := 3.

Record App := mk_App {
  tx_callback : option nat;
  rx_callback : option nat;
  connection_callback : option nat;
  tx_buffer : option (list Z);
  rx_buffer : option (list Z)
}.
Definition App_default : App := mk_App None None None None None.

Definition set_tx_callback (c : option nat) (a : App) : App :=
  mk_App c (rx_callback a) (connection_callback a) (tx_buffer a) (rx_buffer a).
Definition set_rx_callback (c : option nat) (a : App) : App :=
  mk_App (tx_callback a) c (connection_callback a) (tx_buffer a) (rx_buffer a).
Definition set_connection_callback (c : option nat) (a : App) : App :=
  mk_App (tx_callback a) (rx_callback a) c (tx_buffer a) (rx_buffer a).
Definition set_tx_buffer (b : option (list Z)) (a : App) : App :=
  mk_App (tx_callback a) (rx_callback a) (connection_callback a) b (rx_buffer a).
Definition set_rx_buffer (b : option (list Z)) (a : App) : App :=
  mk_App (tx_callback a) (rx_callback a) (connection_callback a) (tx_buffer a) b.

(** A callback scheduled with three zero arguments. *)
Record U2fUpcall := mk_U2fUpcall { u_app : nat; u_callback : nat }.

Record U2fSyscallDriver := mk_U2f { grant : list (nat * App); upcalls : list U2fUpcall; busy : bool }.

Definition U2fSyscallDriver_new (grant : list (nat * App)) : U2fSyscallDriver := mk_U2f grant [] false.

Section Driver.
Context `{RegisterInterface} (denied : ReturnCode).

Abbreviation Usb := (USB.t U2fSyscallDriver).

(** [cb.schedule(0, 0, 0)] when there is a callback. *)
Definition scheduled (id : nat) (cb : option nat) : list U2fUpcall :=
  match cb with Some c => [mk_U2fUpcall id c] | None => [] end.

(** The iterations of [reconnected] and [frame_transmitted]. *)
Definition notify_all (get : App → option nat) : K Usb unit :=
  modify (λ s, USB.set_u2f_client ((λ d, mk_U2f (grant d) (upcalls d ++ concat ((λ p, scheduled p.1 (get p.2)) <$> grant d)) (busy d))
                                   <$> USB.u2f_client s) s).

Definition reconnected : K Usb unit := notify_all connection_callback.

(** One process in [frame_received]. *)
Definition receive_one (p : nat * App) : K Usb (nat * App) :=
  match rx_buffer p.2 with
  | Some buf => r ← USB.get_slice buf; mret (p.1, set_rx_buffer (Some r.2) p.2)
  | None => mret p
  end.

Fixpoint receive_all (ps : list (nat * App)) : K Usb (list (nat * App)) :=
  match ps with
  | [] => mret []
  | p :: ps' => p' ← receive_one p; r ← receive_all ps'; mret (p' :: r)
  end.

Definition frame_received : K Usb unit :=
  o ← gets USB.u2f_client;
  match o with
  | Some d =>
      ps ← receive_all (grant d);
      modify (USB.set_u2f_client (Some (mk_U2f ps (upcalls d ++ concat ((λ p, scheduled p.1 (rx_callback p.2)) <$> grant d)) (busy d))))
  | None => mret tt
  end.

Definition frame_transmitted : K Usb unit := notify_all tx_callback.

#[export] Instance u2f_client : USB.UsbHidU2fClient U2fSyscallDriver :=
  {| USB.reconnected := reconnected; USB.frame_received := frame_received; USB.frame_transmitted := frame_transmitted |}.

(** *** System calls *)

(** The entry of a process in the grant. *)
Definition entry (id : nat) (l : list (nat * App)) : option App := snd <$> list_find (λ p, p.1 = id) l ≫= λ r, Some r.2.

(** [apps.enter(appid, |app, _| ..)] for an update that returns [SUCCESS]. *)
Definition enter (id : nat) (f : App → App) : K Usb ReturnCode :=
  o ← gets USB.u2f_client;
  match o with
  | Some d =>
      if decide (id ∈ (grant d).*1) then
        modify (USB.set_u2f_client (Some (mk_U2f ((λ p, if decide (p.1 = id) then (p.1, f p.2) else p) <$> grant d) (upcalls d) (busy d)))) ;;
        mret SUCCESS
      else mret denied
  | None => mret denied
  end.

Definition allow (id : nat) (allow_num : Z) (slice : option (list Z)) : K Usb ReturnCode :=
  if allow_num =? U2F_ALLOW_TRANSMIT then enter id (set_tx_buffer slice)
  else if allow_num =? U2F_ALLOW_RECEIVE then enter id (set_rx_buffer slice)
  else mret ENOSUPPORT.

Definition subscribe (subscribe_num : Z) (callback : option nat) (id : nat) : K Usb ReturnCode :=
  if subscribe_num =? U2F_SUBSCRIBE_TRANSMIT_DONE then enter id (set_tx_callback callback)
  else if subscribe_num =? U2F_SUBSCRIBE_RECEIVE_DONE then enter id (set_rx_callback callback)
  else if subscribe_num =? U2F_SUBSCRIBE_RECONNECT then enter id (set_connection_callback callback)
  else mret ENOSUPPORT.

(** [while !transmit_ready() {}]: the flags that the controller writes between the
    polls; [false] when they are used up and the loop still runs. *)
Fixpoint wait_ready (written : list Z) : K Usb bool :=
  ready ← USB.transmit_ready;
  if ready : bool then mret true
  else
    match written with
    | [] => mret false
    | v :: written' =>
        modify (λ s, USB.set_ep1_in_descriptor ((λ d, mk_DMADescriptor v (addr d)) <$> USB.ep1_in_descriptor s) s) ;;
        wait_ready written'
    end.

(** [None]: the call has not returned. *)
Definition transmit (id : nat) (written : list Z) : K Usb (option ReturnCode) :=
  o ← gets USB.u2f_client;
  match o ≫= λ d, entry id (grant d) with
  | Some app =>
      match tx_callback app, tx_buffer app with
      | Some _, Some buf =>
          done ← wait_ready written;
          if done : bool then
            ready ← USB.transmit_ready;
            if ready : bool then rc ← USB.put_slice buf; mret (Some rc) else mret (Some EBUSY)
          else mret None
      | _, _ => mret (Some ERESERVE)
      end
  | None => mret (Some denied)
  end.

Definition command (command_num : Z) (id : nat) (written : list Z) : K Usb (option ReturnCode) :=
  if command_num =? U2F_CMD_CHECK then mret (Some SUCCESS)
  else if command_num =? U2F_CMD_TRANSMIT then transmit id written
  else if command_num =? U2F_CMD_RECEIVE then rc ← USB.enable_rx; mret (Some rc)
  else mret (Some ENOSUPPORT).

End Driver.

(** ** Facts *)

Section Facts.
Context `{RegisterLaws} (denied : ReturnCode).

Abbreviation Usb := (USB.t U2fSyscallDriver).
Implicit Types s : Usb.

Lemma set_client_good d s : good s → good (USB.set_u2f_client d s).
Proof. intros [[] Had]. split; [by constructor|exact Had]. Qed.

(** What a process finds in its buffer after a frame. *)
Definition filled (frame : list Z) (a : App) : App :=
  match rx_buffer a with
  | Some b => set_rx_buffer (Some (if decide (length b <= 64)%nat then take (length b) frame else b)) a
  | None => a
  end.

Lemma receive_all_ok hw ps s : USB.ep1_out_buffer s = Some hw → length hw = 16%nat →
  receive_all ps s = (Ok ((λ p, (p.1, filled (register_bytes hw) p.2)) <$> ps), s).
Proof.
  intros Hhw Hl. induction ps as [|[id a] ps IH]; [done|]. cbn [receive_all fmap list_fmap].
  assert (receive_one (id, a) s = (Ok (id, filled (register_bytes hw) a), s)) as E1.
  { unfold receive_one, filled. cbn [fst snd]. destruct (rx_buffer a) as [b|]; [|done]. rewrite bind_unfold.
    destruct (decide (length b <= 64)%nat) as [Hb|Hb].
    - by rewrite (get_slice_ok b s hw Hhw Hl Hb).
    - unfold USB.get_slice. by rewrite (proj2 (Nat.ltb_lt _ _)) by lia. }
  rewrite (bind_ok _ _ _ _ _ E1), (bind_ok _ _ _ _ _ IH). done.
Qed.

Lemma frame_received_ok s d hw : USB.u2f_client s = Some d → USB.ep1_out_buffer s = Some hw → length hw = 16%nat →
  frame_received s = (Ok tt, USB.set_u2f_client (Some (mk_U2f ((λ p, (p.1, filled (register_bytes hw) p.2)) <$> grant d)
    (upcalls d ++ concat ((λ p, scheduled p.1 (rx_callback p.2)) <$> grant d)) (busy d))) s).
Proof.
  intros Hd Hhw Hl. unfold frame_received. rewrite bind_gets, Hd. by rewrite (bind_ok _ _ _ _ _ (receive_all_ok hw (grant d) s Hhw Hl)).
Qed.

(** The system-call driver is a client as the USB driver expects it. *)
#[export] Instance u2f_client_laws : ClientLaws (C := U2fSyscallDriver).
Proof.
  split; intros s Hg.
  - eexists. split; [reflexivity|]. by apply set_client_good.
  - cbn [USB.frame_received u2f_client]. pose proof Hg as [[_ _ _ _ _ (d1 & hw & _ & Hhw & Hl) _ _ _ _] _].
    destruct (USB.u2f_client s) as [d|] eqn:Hd.
    + rewrite (frame_received_ok s d hw Hd Hhw Hl). eexists. split; [done|]. by apply set_client_good.
    + unfold frame_received. rewrite bind_gets, Hd. by exists s.
Qed.

(** The descriptor is free for a new frame. *)
Definition free_flags (v : Z) : bool := (Z.land v STATUS_MASK =? DMA_DONE) || (Z.land v STATUS_MASK =? HOST_BUSY).

Lemma transmit_ready_flags s d : USB.ep1_in_descriptor s = Some d → USB.ep1_tx_fifo_is_ready s = free_flags (flags d).
Proof. intros Hd. unfold USB.ep1_tx_fifo_is_ready. by rewrite Hd. Qed.

Lemma wait_ready_ok written s d : USB.ep1_in_descriptor s = Some d →
  ∃ v, wait_ready written s = (Ok (existsb free_flags (flags d :: written)), USB.set_ep1_in_descriptor (Some (mk_DMADescriptor v (addr d))) s) ∧
    free_flags v = existsb free_flags (flags d :: written).
Proof.
  revert s d. induction written as [|w written IH]; intros s d Hd; cbn [wait_ready]; unfold USB.transmit_ready; rewrite bind_gets, (transmit_ready_flags s d Hd).
  - exists (flags d). cbn [existsb]. rewrite orb_false_r. split; [|done].
    assert (USB.set_ep1_in_descriptor (Some (mk_DMADescriptor (flags d) (addr d))) s = s) as -> by (destruct s, d; cbn in *; by subst).
    by destruct (free_flags (flags d)).
  - cbn [existsb]. destruct (free_flags (flags d)) eqn:Ef; cbn [orb].
    + exists (flags d). split; [|done]. assert (USB.set_ep1_in_descriptor (Some (mk_DMADescriptor (flags d) (addr d))) s = s) as -> by (destruct s, d; cbn in *; by subst). done.
    + rewrite bind_modify, Hd. cbn [fmap option_fmap option_map].
      destruct (IH (USB.set_ep1_in_descriptor (Some (mk_DMADescriptor w (addr d))) s) (mk_DMADescriptor w (addr d)) eq_refl) as (v & E & Hv).
      exists v. rewrite E. done.
Qed.

(** A frame that the controller has received is handed to the processes. *)
Lemma handle_frame s d hw :
  is_set TransferCompleted (USB.regs s (out_interrupt 1)) = true →
  USB.u2f_client s = Some d → USB.ep1_out_buffer s = Some hw → length hw = 16%nat →
  ∃ r, USB.handle_endpoint1_events true false s = (Ok tt, USB.set_u2f_client (Some (mk_U2f
    ((λ p, (p.1, filled (register_bytes hw) p.2)) <$> grant d)
    (upcalls d ++ concat ((λ p, scheduled p.1 (rx_callback p.2)) <$> grant d)) (busy d))) (USB.set_regs r s)).
Proof.
  intros Hi Hd Hhw Hl. unfold USB.handle_endpoint1_events, USB.read, USB.write, USB.client_call. run. rewrite Hi. run.
  unfold USB.map_cell. unfold USB.store. run. eexists. cbn. rewrite Hd. by apply frame_received_ok.
Qed.

(** A frame from the host reaches every process.  After the interrupt for a frame,
    the receive buffer of each process with at most 64 bytes starts with the frame and
    keeps its length, a larger buffer and the other data of the process are untouched,
    and each process that subscribed gets exactly one callback, in the order of the
    grants, whether its buffer was filled or not. *)
Theorem frames_reach_processes (s : Usb) (d : U2fSyscallDriver) (hw : list Z) :
  is_set TransferCompleted (USB.regs s (out_interrupt 1)) = true →
  USB.u2f_client s = Some d → USB.ep1_out_buffer s = Some hw → length hw = 16%nat →
  ∃ s' d', USB.handle_endpoint1_events true false s = (Ok tt, s') ∧ USB.u2f_client s' = Some d' ∧
    (∀ i id a, grant d !! i = Some (id, a) →
       ∃ a', grant d' !! i = Some (id, a') ∧
         (tx_callback a', rx_callback a', connection_callback a', tx_buffer a') =
         (tx_callback a, rx_callback a, connection_callback a, tx_buffer a) ∧
         match rx_buffer a with
         | Some b => rx_buffer a' = Some (if decide (length b <= 64)%nat then take (length b) (register_bytes hw) else b)
         | None => rx_buffer a' = None
         end) ∧
    upcalls d' = upcalls d ++ omap (λ p, mk_U2fUpcall p.1 <$> rx_callback p.2) (grant d).
Proof.
  intros Hi Hd Hhw Hl. destruct (handle_frame s d hw Hi Hd Hhw Hl) as [r E]. eexists _, _. split; [exact E|]. split; [done|]. split.
  - intros i id a Ha. eexists. split; [cbn [grant]; by rewrite list_lookup_fmap, Ha|]. cbn [fst snd]. unfold filled.
    destruct (rx_buffer a) eqn:Hb; by rewrite ?Hb.
  - cbn [upcalls]. f_equal. clear. induction (grant d) as [|[id a] l IH]; [done|]. cbn. destruct (rx_callback a); cbn; by rewrite IH.
Qed.

(** The transmit call, for a process with a callback and a buffer of at most 64 bytes:
    when the controller frees the descriptor at some poll, the call returns [SUCCESS]
    and the host will be sent the buffer (padded as [put_slice] pads it); when it never
    does, the call does not return: the kernel polls for as long as the host takes no
    frame.  A process without a callback or a buffer gets [ERESERVE]. *)
Theorem transmit_sends_or_polls (s : Usb) (d : U2fSyscallDriver) (id : nat) (app : App) (written : list Z) :
  wf s → ep1_active s → USB.u2f_client s = Some d → entry id (grant d) = Some app →
  match tx_callback app, tx_buffer app with
  | Some _, Some buf =>
      bytes_ok buf → (length buf <= 64)%nat →
      (∃ f, USB.ep1_in_descriptor s = Some f ∧
        if existsb free_flags (flags f :: written) then
          ∃ s' rest, command denied U2F_CMD_TRANSMIT id written s = (Ok (Some SUCCESS), s') ∧ dma_in1 s' = Some (buf ++ rest)
        else (command denied U2F_CMD_TRANSMIT id written s).1 = Ok None)
  | _, _ => command denied U2F_CMD_TRANSMIT id written s = (Ok (Some ERESERVE), s)
  end.
Proof.
  intros Hwf [Hdma (f & Hf & Haddr)] Hd He. unfold command, transmit. change (U2F_CMD_TRANSMIT =? U2F_CMD_CHECK) with false.
  change (U2F_CMD_TRANSMIT =? U2F_CMD_TRANSMIT) with true. cbn iota. rewrite bind_gets, Hd. cbn [mbind option_bind]. rewrite He.
  destruct (tx_callback app); [|done]. destruct (tx_buffer app) as [buf|]; [|done]. intros Hb Hlen. exists f. split; [done|].
  destruct (wait_ready_ok written s f Hf) as (v & E & Hv). rewrite (bind_ok _ _ _ _ _ E).
  destruct (existsb free_flags (flags f :: written)); [|done].
  set (s1 := USB.set_ep1_in_descriptor (Some (mk_DMADescriptor v (addr f))) s).
  assert (USB.ep1_tx_fifo_is_ready s1 = true) as Hr by (by rewrite (transmit_ready_flags s1 (mk_DMADescriptor v (addr f)) eq_refl)).
  assert (wf s1) as Hwf1. { destruct Hwf as [? ? ? ? ? ? (? & ? & _ & ? & ?) ? ? ?]. constructor; try done. cbn. by eauto. }
  destruct (put_slice_ready buf s1 Hwf1 Hb Hlen Hr) as (old & b & r & d' & _ & Hlb & Hd' & Ep & Hby). injection Hd' as <-.
  unfold USB.transmit_ready. rewrite bind_gets, Hr, (bind_ok _ _ _ _ _ Ep). eexists _, _. split; [reflexivity|].
  etransitivity; [apply (dma_in1_sent _ b f); done|]. by rewrite Hby.
Qed.
End Facts.

(** ** Two processes: the first has both buffers and callbacks, the second only a large
    receive buffer and its callback. *)

Definition two_processes : U2fSyscallDriver :=
  U2fSyscallDriver_new [(0%nat, mk_App (Some 7%nat) (Some 8%nat) None (Some [1; 2; 3]) (Some [0; 0]));
                        (1%nat, mk_App None (Some 9%nat) None None (Some (replicate 65 0)))].

Definition u2f_board : USB.t U2fSyscallDriver := golf2_with two_processes (replicate 16 0).

(** A frame of letters has arrived. *)
Definition frame_arrived : USB.t U2fSyscallDriver :=
  USB.set_regs (λ _, 1) (USB.set_ep1_out_buffer (Some (replicate 16 0x61616161)) u2f_board).

Lemma frames_reach_processes_witness :
  ∃ s' d', @USB.handle_endpoint1_events _ TockBits.interface u2f_client true false frame_arrived = (Ok tt, s') ∧
    USB.u2f_client s' = Some d' ∧ upcalls d' = [mk_U2fUpcall 0 8; mk_U2fUpcall 1 9] ∧
    (snd <$> grant d' !! 0%nat) ≫= rx_buffer = Some [0x61; 0x61].
Proof.
  destruct (@frames_reach_processes TockBits.interface frame_arrived two_processes (replicate 16 0x61616161))
    as (s' & d' & E & Hd & Hg & Hu); [reflexivity..|].
  exists s', d'. split_and!; [exact E|exact Hd|exact Hu|].
  destruct (Hg 0%nat _ _ eq_refl) as (a' & Ha & _ & Hb). rewrite Ha. exact Hb.
Defined.

(** The descriptor is taken at the second poll; or never. *)
Lemma transmit_sends_or_polls_witness :
  let s := USB.set_ep1_in_descriptor (Some (mk_DMADescriptor USB.U2F_FLAGS (At B_ep1_in 0))) u2f_board in
  (∃ s' rest, @command TockBits.interface ENOSUPPORT U2F_CMD_TRANSMIT 0 [USB.U2F_FLAGS; DMA_DONE] s = (Ok (Some SUCCESS), s') ∧
     dma_in1 s' = Some ([1; 2; 3] ++ rest)) ∧
  (@command TockBits.interface ENOSUPPORT U2F_CMD_TRANSMIT 0 (replicate 1000 USB.U2F_FLAGS) s).1 = Ok None.
Proof.
  intros s. assert (wf s) as Hwf.
  { destruct (golf2_with_good two_processes (replicate 16 0) eq_refl) as [[? ? ? ? ? ? (? & ? & _ & ? & ?) ? ? ?] _].
    constructor; try assumption. eexists _, _. split_and!; [reflexivity|eassumption|assumption]. }
  assert (ep1_active s) as Ha by (split; [reflexivity|]; eexists; split; reflexivity).
  assert (bytes_ok [1; 2; 3]) as Hb by by_compute. split.
  - destruct (@transmit_sends_or_polls TockBits.interface ENOSUPPORT s two_processes 0 _ [USB.U2F_FLAGS; DMA_DONE]
      Hwf Ha eq_refl eq_refl Hb ltac:(cbn; lia)) as (f & [= <-] & Hs). exact Hs.
  - destruct (@transmit_sends_or_polls TockBits.interface ENOSUPPORT s two_processes 0 _ (replicate 1000 USB.U2F_FLAGS)
      Hwf Ha eq_refl eq_refl Hb ltac:(cbn; lia)) as (f & [= <-] & Hs). exact Hs.
Defined.
