(* ===== verification/Personality.v ===== *)
(** Device attestation data: the driver (kernel/h1/src/personality.rs,
    hil/personality.rs), its system calls (kernel/h1_syscalls/src/personality.rs), and
    the golf2 board, on which both run on a user of the flash multiplexer.

    The driver is written against the HIL's [Flash] trait.  A call to its client is the
    result of the callback that makes it.  The write buffer that the boards provide has
    512 words; a driver with a smaller one would write behind it in [set_u8], which is
    not modelled. *)

From S2P Require Import Prelude Io Tock Registers FlashHil NvCounter FlashSyscalls NvDevice VirtualFlash.
From Stdlib Require Import ZArith Lia.
From stdpp Require Import base decidable option list list_numbers relations.

#[local] Open Scope Z_scope.

Inductive PState := Idle | ErasingU8 | WritingU8 | ErasingStruct | WritingStruct.

#[global] Instance PState_eq_dec : EqDecision PState.
Proof. solve_decision. Defined.

Definition PERSONALITY_ADDRESS : Z := 0x80000 - 3 * 0x800.
Definition PERSONALITY_ADDRESS_U32 : Z := PERSONALITY_ADDRESS / 4.
Definition PERSONALITY_SIZE : nat := 2048.
Definition PAGE_SIZE_U32 : nat := 512.

(** [offset / H1_FLASH_PAGE_SIZE] *)
Definition PERSONALITY_PAGE : Z := PERSONALITY_ADDRESS / 0x800.

(** [PersonalityData]; the words of the struct in memory, and back. *)
Record PersonalityData := mk_PersonalityData {
  checksum : list Z;
  salt : list Z;
  pub_x : list Z;
  pub_y : list Z;
  certificate_hash : list Z;
  certificate_len : Z;
  certificate : list Z
}.

Definition data_words (d : PersonalityData) : list Z :=
  checksum d ++ salt d ++ pub_x d ++ pub_y d ++ certificate_hash d ++ [certificate_len d] ++
  FlashSyscalls.app_words 471 (certificate d).

Definition words_data (ws : list Z) : PersonalityData :=
  mk_PersonalityData (take 8 ws) (take 8 (drop 8 ws)) (take 8 (drop 16 ws)) (take 8 (drop 24 ws)) (take 8 (drop 32 ws))
    (default 0 (ws !! 40%nat)) (register_bytes (take 471 (drop 41 ws))).

Inductive PersonalityCall := SetDone (rval : ReturnCode) | SetU8Done (rval : ReturnCode).

Module PersonalityDriver.
Section Driver.
Context {F : Type} `{Flash F}.

(** [client]: a client is set. *)
Record t := mk {
  state : PState;
  client : bool;
  flash : option F;
  write_buffer : option (list Z)
}.

Definition new : t := mk Idle false None None.

Definition set_state (x : PState) (s : t) : t := mk x (client s) (flash s) (write_buffer s).
Definition set_client (s : t) : t := mk (state s) true (flash s) (write_buffer s).
Definition set_flash (f : F) (s : t) : t := mk (state s) (client s) (Some f) (write_buffer s).
Definition replace_buffer (b : option (list Z)) (s : t) : t := mk (state s) (client s) (flash s) b.
Definition set_buffer (b : list Z) : t → t := replace_buffer (Some b).

(** A call on the flash; [unwrap] of a missing one. *)
Definition on_flash {A} (m : K F A) : K t A := λ s,
  match flash s with
  | Some f => let '(r, f') := m f in (r, set_flash f' s)
  | None => (Panic, s)
  end.

Definition start_write (target : Z) : K t bool :=
  f ← gets flash;
  b ← gets write_buffer;
  match f, b with
  | Some _, Some buf =>
      modify (replace_buffer None) ;;
      r ← on_flash (flash_write target buf);
      match r.2 with
      | None => mret true
      | Some buf => modify (replace_buffer (Some buf)) ;; mret false
      end
  | _, _ => mret false
  end.

(** The loop of [get] and [get_u8]: [n] words from word [i] on are put into [b]. *)
Fixpoint read_words {B} (f : F) (put : nat → Z → B → B) (n i : nat) (b : B) : ReturnCode * B :=
  match n with
  | O => (SUCCESS, b)
  | S n' =>
      match flash_read (PERSONALITY_ADDRESS_U32 + Z.of_nat i) f with
      | SuccessWithValue v => read_words f put n' (S i) (put i (u32 v) b)
      | result => (result, b)
      end
  end.

Definition get (data : PersonalityData) (s : t) : ReturnCode * PersonalityData :=
  match flash s with
  | None => (ENOMEM, data)
  | Some f =>
      let '(rc, ws) := read_words f (λ i v ws, <[i := v]> ws) PAGE_SIZE_U32 0 (data_words data) in
      (rc, words_data ws)
  end.

Definition get_u8 (data : list Z) (s : t) : ReturnCode * list Z :=
  if (length data <? PERSONALITY_SIZE)%nat then (ESIZE, data)
  else
    match flash s with
    | None => (ENOMEM, data)
    | Some f => read_words f (λ i v b, copy_at b (4 * i) (le_bytes 4 v)) PAGE_SIZE_U32 0 data
    end.

(** What [set] and [set_u8] do when they are idle: erase the page, and when that has
    started and there is a buffer, fill it and take the next state. *)
Definition start_set (next : PState) (fill : list Z → option (list Z)) : K t ReturnCode :=
  f ← gets flash;
  match f with
  | None => mret ENOMEM
  | Some _ =>
      rval ← on_flash (flash_erase PERSONALITY_PAGE);
      match rval with
      | SUCCESS =>
          b ← gets write_buffer;
          (match b with
           | Some buffer =>
               modify (set_state next) ;;
               buffer' ← unwrap (fill buffer);
               modify (replace_buffer (Some buffer'))
           | None => mret tt
           end) ;;
          mret SUCCESS
      | _ => mret rval
      end
  end.

Definition set (data : PersonalityData) : K t ReturnCode :=
  st ← gets state;
  if bool_decide (st ≠ Idle) then mret EBUSY
  else
    start_set ErasingStruct (λ buffer,
      if (length buffer <? PAGE_SIZE_U32)%nat then None else Some (copy_at buffer 0 (data_words data))).

Definition set_u8 (data : list Z) : K t ReturnCode :=
  if (length data <? PERSONALITY_SIZE)%nat then mret ESIZE
  else
    st ← gets state;
    if bool_decide (st ≠ Idle) then mret EBUSY
    else
      start_set ErasingU8 (λ buffer,
        Some (copy_at buffer 0 (FlashSyscalls.app_words PAGE_SIZE_U32 (take PERSONALITY_SIZE data)))).

Definition call (c : PersonalityCall) : K t (option PersonalityCall) :=
  gets (λ s, if client s then Some c else None).

Definition erase_done (rcode : ReturnCode) : K t (option PersonalityCall) :=
  st ← gets state;
  match st with
  | ErasingStruct =>
      started ← start_write PERSONALITY_ADDRESS_U32;
      if started : bool then modify (set_state WritingStruct) ;; mret None
      else c ← call (SetDone FAIL); modify (set_state Idle) ;; mret c
  | ErasingU8 =>
      started ← start_write PERSONALITY_ADDRESS_U32;
      if started : bool then modify (set_state WritingU8) ;; mret None
      else c ← call (SetU8Done FAIL); modify (set_state Idle) ;; mret c
  | _ => mret None
  end.

Definition write_done (data : list Z) (rcode : ReturnCode) : K t (option PersonalityCall) :=
  st ← gets state;
  match st with
  | WritingStruct => modify (set_state Idle) ;; call (SetDone rcode)
  | WritingU8 => modify (set_state Idle) ;; call (SetU8Done rcode)
  | _ => mret None
  end.

(** [flash::Client] *)
Definition flash_done (c : ClientCall) : K t (option PersonalityCall) :=
  match c with EraseDone rc => erase_done rc | WriteDone data rc => write_done data rc end.

End Driver.
Arguments t F : clear implicits.
End PersonalityDriver.

(** ** System calls *)

Record PersonalityApp := mk_PersonalityApp { app_data : option (list Z); app_callback : option nat }.

Definition PersonalityApp_default : PersonalityApp := mk_PersonalityApp None None.

Definition COMMAND_CHECK : Z := 0.
Definition COMMAND_READ : Z := 1.
Definition COMMAND_WRITE : Z := 2.
Definition ALLOW_BUFFER : Z := 0.
Definition SUBSCRIBE_WRITE_DONE : Z := 0.

Module PersonalitySyscall.
Section Driver.
Context {F : Type} `{Flash F}.

Record t := mk {
  device : PersonalityDriver.t F;
  apps : AppId → option PersonalityApp;
  busy : bool;
  current_user : option AppId;
  upcalls : list Upcall
}.

Definition new (d : PersonalityDriver.t F) (container : AppId → option PersonalityApp) : t := mk d container false None [].

Definition set_device (d : PersonalityDriver.t F) (s : t) : t := mk d (apps s) (busy s) (current_user s) (upcalls s).
Definition set_app (id : AppId) (a : PersonalityApp) (s : t) : t :=
  mk (device s) (λ i, if decide (i = id) then Some a else apps s i) (busy s) (current_user s) (upcalls s).
Definition set_current_user (u : option AppId) (s : t) : t := mk (device s) (apps s) (busy s) u (upcalls s).
Definition schedule (id : AppId) (cb : option nat) (rc : ReturnCode) (s : t) : t :=
  mk (device s) (apps s) (busy s) (current_user s)
    match cb with Some c => upcalls s ++ [mk_Upcall id c rc] | None => upcalls s end.

Definition on_device {A} (m : K (PersonalityDriver.t F) A) : K t A := zoom device set_device m.

(** [self.apps.enter(id, f).unwrap_or(ENOMEM)] *)
Definition enter (id : AppId) (f : PersonalityApp → K t ReturnCode) : K t ReturnCode :=
  o ← gets (λ s, apps s id);
  match o with None => mret ENOMEM | Some a => f a end.

Definition subscribe (subscribe_num : Z) (callback : option nat) (id : AppId) : K t ReturnCode :=
  if subscribe_num =? SUBSCRIBE_WRITE_DONE then
    enter id (λ a, modify (set_app id (mk_PersonalityApp (app_data a) callback)) ;; mret SUCCESS)
  else mret ENOSUPPORT.

Definition command_read (id : AppId) : K t ReturnCode :=
  b ← gets busy;
  if b : bool then mret EBUSY
  else
    enter id (λ a,
      match app_data a with
      | None => mret ENOMEM
      | Some data_slice =>
          r ← gets (λ s, PersonalityDriver.get_u8 data_slice (device s));
          modify (set_app id (mk_PersonalityApp (Some r.2) (app_callback a))) ;;
          mret SUCCESS
      end).

Definition command_write (id : AppId) : K t ReturnCode :=
  b ← gets busy;
  if b : bool then mret EBUSY
  else
    enter id (λ a,
      match app_data a with
      | None => mret ENOMEM
      | Some data_slice =>
          _ ← on_device (PersonalityDriver.set_u8 data_slice);
          modify (set_current_user (Some id)) ;;
          mret SUCCESS
      end).

Definition command (command_num : Z) (id : AppId) : K t ReturnCode :=
  if command_num =? COMMAND_CHECK then mret SUCCESS
  else if command_num =? COMMAND_READ then command_read id
  else if command_num =? COMMAND_WRITE then command_write id
  else mret ENOSUPPORT.

Definition allow (id : AppId) (minor_num : Z) (slice : option (list Z)) : K t ReturnCode :=
  if minor_num =? ALLOW_BUFFER then
    enter id (λ a, modify (set_app id (mk_PersonalityApp slice (app_callback a))) ;; mret SUCCESS)
  else mret ENOSUPPORT.

(** [set_done] and [set_u8_done] have the same body. *)
Definition done_ (rval : ReturnCode) : K t unit :=
  o ← gets (λ s, u ← current_user s; a ← apps s u; Some (u, a));
  match o with
  | Some (u, a) => modify (set_current_user None) ;; modify (schedule u (app_callback a) rval)
  | None => mret tt
  end.

Definition set_done : ReturnCode → K t unit := done_.
Definition set_u8_done : ReturnCode → K t unit := done_.

(** The flash calls the driver, and the driver calls its client. *)
Definition flash_event (c : ClientCall) : K t unit :=
  o ← on_device (PersonalityDriver.flash_done c);
  match o with
  | Some (SetDone rc) => set_done rc
  | Some (SetU8Done rc) => set_u8_done rc
  | None => mret tt
  end.

End Driver.
Arguments t F : clear implicits.
End PersonalitySyscall.

(** ** The golf2 board: user 0 of the multiplexer is the driver, user 1 the counter *)

Module Golf2.
Import PersonalitySyscall.

Definition PERSONALITY_USER : nat := 0.
Definition COUNTER_USER : nat := 1.

#[export] Instance personality_flash : Flash (MuxFlash.t Dev) := {|
  flash_erase := MuxFlash.user_erase PERSONALITY_USER;
  flash_read := MuxFlash.user_read;
  flash_write := MuxFlash.user_write PERSONALITY_USER |}.

Abbreviation S := (PersonalitySyscall.t (MuxFlash.t Dev)).

Section Board.
(** The requests that the counter makes in its callback. *)
Context (counter : ClientCall → list Request).

Definition on_mux {A} (m : K (MuxFlash.t Dev) A) : K S A := on_device (PersonalityDriver.on_flash m).

(** [MuxFlash] as the client of the flash driver, with its users' clients. *)
Definition user_event (v : nat) (c : ClientCall) : K S unit :=
  on_mux (modify (MuxFlash.set_operation v OpIdle)) ;;
  linked ← on_mux (gets (λ x, fu_client (MuxFlash.node x v)));
  if linked : bool then
    if decide (v = PERSONALITY_USER) then flash_event c
    else on_mux (MuxFlash.requests (pair v <$> counter c))
  else mret tt.

Definition mux_event (c : ClientCall) : K S unit :=
  o ← on_mux (gets MuxFlash.in_flight);
  on_mux (modify (MuxFlash.set_in_flight None)) ;;
  (match o with Some v => user_event v c | None => mret tt end) ;;
  on_mux MuxFlash.do_next_op.

(** The flash of the board. *)
Definition flash_of (s : S) : option Dev := MuxFlash.driver <$> PersonalityDriver.flash (device s).

(** The flash has ended its operation, with memory [m]. *)
Definition ended (m : Z → Z) (s : S) : S :=
  set_device (PersonalityDriver.mk (PersonalityDriver.state (device s)) (PersonalityDriver.client (device s))
    (MuxFlash.set_driver (mk_Dev m None) <$> PersonalityDriver.flash (device s)) (PersonalityDriver.write_buffer (device s))) s.

Inductive pstep : S → S → Prop :=
| P_command n id s rc s' : command n id s = (Ok rc, s') → pstep s s'
| P_subscribe n cb id s rc s' : subscribe n cb id s = (Ok rc, s') → pstep s s'
| P_allow id n b s rc s' : allow id n b s = (Ok rc, s') → pstep s s'
| P_counter r s s' : on_mux (MuxFlash.request COUNTER_USER r) s = (Ok tt, s') → pstep s s'
| P_flash d op c m s s' : flash_of s = Some d → pending d = Some op → mux_event c (ended m s) = (Ok tt, s') → pstep s s'.

(** The board after start-up. *)
Definition boot (m : Z → Z) (container : AppId → option PersonalityApp) : S :=
  PersonalitySyscall.new
    (PersonalityDriver.mk Idle true
      (Some (MuxFlash.mk (mk_Dev m None) [PERSONALITY_USER; COUNTER_USER] (λ _, mk_FlashUser None 0 0 OpIdle true) None []))
      (Some (replicate 512 0))) container.

End Board.
End Golf2.

(** ** Facts *)

(** What an idle driver does when it is given data and the erase starts. *)
Lemma set_u8_ok {F} `{Flash F} (d : PersonalityDriver.t F) f f1 data :
  PersonalityDriver.state d = Idle → PersonalityDriver.flash d = Some f → (2048 <= length data)%nat →
  flash_erase PERSONALITY_PAGE f = (Ok SUCCESS, f1) →
  PersonalityDriver.set_u8 data d = (Ok SUCCESS,
    match PersonalityDriver.write_buffer d with
    | Some buf => PersonalityDriver.mk ErasingU8 (PersonalityDriver.client d) (Some f1)
                    (Some (copy_at buf 0 (FlashSyscalls.app_words 512 (take 2048 data))))
    | None => PersonalityDriver.set_flash f1 d
    end).
Proof.
  intros Hs Hf Hl He. unfold PersonalityDriver.set_u8. rewrite (proj2 (Nat.ltb_ge _ _)) by (cbv [PERSONALITY_SIZE]; lia).
  rewrite bind_gets, Hs. rewrite bool_decide_eq_false_2 by (intros Hn; by apply Hn).
  unfold PersonalityDriver.start_set. rewrite bind_gets, Hf.
  rewrite (bind_ok _ _ _ SUCCESS (PersonalityDriver.set_flash f1 d)) by (unfold PersonalityDriver.on_flash; by rewrite Hf, He).
  rewrite bind_gets. change (PersonalityDriver.write_buffer (PersonalityDriver.set_flash f1 d)) with (PersonalityDriver.write_buffer d).
  by destruct (PersonalityDriver.write_buffer d).
Qed.

Lemma copy_page (buf data : list Z) : length buf = 512%nat →
  copy_at buf 0 (FlashSyscalls.app_words 512 data) = FlashSyscalls.app_words 512 data.
Proof.
  intros Hl. unfold copy_at. rewrite take_0, drop_ge by (rewrite FlashSyscallFacts.length_app_words; lia). by rewrite app_nil_r.
Qed.

Module PersonalityFacts.
Import PersonalitySyscall Golf2.

Section Facts.
Context (counter : ClientCall → list Request).

(** Nothing runs and nothing will: the mux waits for an operation that the flash has
    refused. *)
Definition wedged (m : Z → Z) (ups : list Upcall) (s : S) : Prop :=
  ∃ x, PersonalityDriver.flash (device s) = Some x ∧ MuxFlash.driver x = mk_Dev m None ∧
    is_Some (MuxFlash.in_flight x) ∧ PersonalityDriver.state (device s) = WritingU8 ∧ upcalls s = ups.

Lemma request_wedged v r (x x' : MuxFlash.t Dev) : is_Some (MuxFlash.in_flight x) → MuxFlash.request v r x = (Ok tt, x') →
  MuxFlash.driver x' = MuxFlash.driver x ∧ MuxFlash.in_flight x' = MuxFlash.in_flight x.
Proof.
  intros [u Hu]. destruct r; unfold MuxFlash.request, MuxFlash.user_erase, MuxFlash.user_write, mbind, M_bind, gets, modify;
    (destruct (MuxFlash.busy _); [by intros [= <-]|]); rewrite (MuxFacts.do_next_op_busy _ u) by done; by intros [= <-].
Qed.

Lemma wedged_set_device_same m ups s d : wedged m ups s → PersonalityDriver.flash d = PersonalityDriver.flash (device s) →
  PersonalityDriver.state d = PersonalityDriver.state (device s) → wedged m ups (set_device d s).
Proof. intros (x & Hx & Hrest) Hf Hs. exists x. cbn. by rewrite Hf, Hs. Qed.

(** A call that does not touch the driver. *)
Lemma wedged_same m ups s s' : wedged m ups s → device s' = device s → upcalls s' = upcalls s → wedged m ups s'.
Proof. intros (x & Hx) Hd Hu. exists x. by rewrite Hd, Hu. Qed.

Lemma enter_wedged m ups id f s rc s' : wedged m ups s → enter id f s = (Ok rc, s') →
  (∀ a, f a s = (Ok rc, s') → wedged m ups s') → wedged m ups s'.
Proof.
  intros Hw E Hf. unfold enter in E. rewrite bind_unfold in E. cbn in E. destruct (apps s id); [by eapply Hf|]. by injection E as <- <-.
Qed.

(** A call that returned without doing anything. *)
Ltac returned E := cbv [mret M_ret] in E; injection E as <- <-.

Lemma command_wedged m ups n id s rc s' : wedged m ups s → command n id s = (Ok rc, s') → wedged m ups s'.
Proof.
  intros Hw E. unfold command in E. destruct (_ =? _); [by returned E|]. destruct (_ =? _); [|destruct (_ =? _); [|by returned E]].
  - unfold command_read in E. rewrite bind_unfold in E. cbn in E. destruct (busy s); [by returned E|].
    eapply enter_wedged; [exact Hw|exact E|]. intros a Ea. cbn beta in Ea. destruct (app_data a) as [data|]; [|by returned Ea].
    returned Ea. by apply (wedged_same _ _ s).
  - unfold command_write in E. rewrite bind_unfold in E. cbn in E. destruct (busy s); [by returned E|].
    eapply enter_wedged; [exact Hw|exact E|]. intros a Ea. cbn beta in Ea. destruct (app_data a) as [data|]; [|by returned Ea].
    assert (∃ c, PersonalityDriver.set_u8 data (device s) = (Ok c, device s)) as [c Ec].
    { destruct Hw as (x & _ & _ & _ & Hs & _). unfold PersonalityDriver.set_u8. destruct (_ <? _)%nat; [by eexists|].
      rewrite bind_unfold. cbn. rewrite Hs. by eexists. }
    unfold on_device, zoom in Ea. rewrite bind_unfold, Ec in Ea. returned Ea. by apply (wedged_same _ _ s).
Qed.

Lemma pstep_wedged m ups s s' : wedged m ups s → pstep counter s s' → wedged m ups s'.
Proof.
  intros Hw Hs. destruct Hs as [n id s1 rc s2 E|n cb id s1 rc s2 E|id n b s1 rc s2 E|r s1 s2 E|d op c m' s1 s2 Hd Hp _].
  - by eapply command_wedged.
  - unfold subscribe in E. destruct (_ =? _); [|by returned E].
    eapply enter_wedged; [exact Hw|exact E|]. intros a Ea. cbn beta in Ea. returned Ea. by apply (wedged_same _ _ s1).
  - unfold allow in E. destruct (_ =? _); [|by returned E].
    eapply enter_wedged; [exact Hw|exact E|]. intros a Ea. cbn beta in Ea. returned Ea. by apply (wedged_same _ _ s1).
  - destruct Hw as (x & Hx & Hd & Hf & Hs & Hu). unfold on_mux, on_device, PersonalityDriver.on_flash, zoom in E. rewrite Hx in E.
    destruct (MuxFlash.request COUNTER_USER r x) as [[[]|e|] x'] eqn:Er; try done.
    injection E as <-. destruct (request_wedged _ _ x x' Hf Er) as [Hd' Hf']. exists x'. cbn. by rewrite Hd', Hf'.
  - destruct Hw as (x & Hx & Hdx & _). unfold flash_of in Hd. rewrite Hx in Hd. injection Hd as <-. by rewrite Hdx in Hp.
Qed.

Lemma rtc_wedged m ups s s' : wedged m ups s → rtc (pstep counter) s s' → wedged m ups s'.
Proof. intros Hw Hr. induction Hr as [|x y z Hxy _ IH]; [done|]. apply IH. by eapply pstep_wedged. Qed.

(** The board between the write call and the end of the erase. *)
Definition erasing (m : Z → Z) (container : AppId → option PersonalityApp) (id : AppId) (buf : list Z) : S :=
  PersonalitySyscall.mk
    (PersonalityDriver.mk ErasingU8 true
      (Some (MuxFacts.started (MuxFlash.set_operation PERSONALITY_USER (OpErase PERSONALITY_PAGE)
        (MuxFlash.mk (mk_Dev m None) [PERSONALITY_USER; COUNTER_USER] (λ _, mk_FlashUser None 0 0 OpIdle true) None []))
        PERSONALITY_USER (PErase PERSONALITY_PAGE)))
      (Some buf)) container false (Some id) [].

Lemma enter_ok id f (s : S) a : apps s id = Some a → enter id f s = f a s.
Proof. intros Ha. unfold enter. by rewrite bind_gets, Ha. Qed.

Lemma set_u8_starts_erase m container id data : (2048 <= length data)%nat →
  PersonalityDriver.set_u8 data (device (boot m container)) =
    (Ok SUCCESS, device (erasing m container id (FlashSyscalls.app_words 512 (take 2048 data)))).
Proof.
  intros Hl. rewrite (set_u8_ok _ (default (MuxFlash.new (mk_Dev m None)) (PersonalityDriver.flash (device (boot m container))))
    (default (MuxFlash.new (mk_Dev m None)) (PersonalityDriver.flash (device (erasing m container id []))))) by (done || reflexivity).
  change (PersonalityDriver.write_buffer (device (boot m container))) with (Some (replicate 512 0)). cbn iota.
  rewrite copy_page by apply length_replicate. reflexivity.
Qed.

Lemma write_starts_erase m container id a data :
  container id = Some a → app_data a = Some data → (2048 <= length data)%nat →
  command COMMAND_WRITE id (boot m container) =
    (Ok SUCCESS, erasing m container id (FlashSyscalls.app_words 512 (take 2048 data))).
Proof.
  intros Ha Hd Hl. change (command COMMAND_WRITE id (boot m container)) with (command_write id (boot m container)).
  unfold command_write. rewrite bind_gets. cbn iota. change (busy (boot m container)) with false. cbn iota.
  rewrite (enter_ok id _ (boot m container) a Ha), Hd. unfold on_device, zoom. rewrite bind_unfold, (set_u8_starts_erase m container id data Hl). reflexivity.
Qed.

(** A write of more than 32 words on an idle mux: accepted, refused by the flash, and in
    flight for good. *)
Lemma user_write_refused u us target data (x : MuxFlash.t Dev) :
  MuxFlash.users x = u :: us → MuxFlash.in_flight x = None → operation (MuxFlash.node x u) = OpIdle → (32 < length data)%nat →
  ∃ y, MuxFlash.user_write u target data x = (Ok (SUCCESS, None), y) ∧ MuxFlash.driver y = MuxFlash.driver x ∧
    MuxFlash.in_flight y = Some u.
Proof.
  intros Hu Hf Hi Hl. unfold MuxFlash.user_write. rewrite bind_gets. unfold MuxFlash.busy at 1. rewrite Hi. cbn [negb bool_decide].
  rewrite bool_decide_eq_true_2 by done. cbn [negb]. run.
  set (x1 := MuxFlash.set_node u _ x).
  assert (∃ y, MuxFlash.do_next_op x1 = (Ok tt, y) ∧ MuxFlash.driver y = MuxFlash.driver x ∧ MuxFlash.in_flight y = Some u) as (y & E & Hy).
  { unfold MuxFlash.do_next_op. rewrite bind_gets. change (MuxFlash.in_flight x1) with (MuxFlash.in_flight x). rewrite Hf. cbn [is_Some bool_decide].
    rewrite bool_decide_eq_false_2 by (by intros [? [=]]). run.
    assert (list_find (λ v, MuxFlash.busy (MuxFlash.node x1 v)) (MuxFlash.users x1) = Some (0%nat, u)) as ->.
    { change (MuxFlash.users x1) with (MuxFlash.users x). rewrite Hu. cbn [list_find]. rewrite decide_True; [done|].
      unfold x1. cbn [MuxFlash.set_node MuxFlash.node]. by rewrite decide_True. }
    cbn [fmap option_fmap option_map snd fst]. run. unfold x1. repeat (cbn; rewrite decide_True by done). cbn.
    unfold MuxFlash.on_driver, zoom, mbind, M_bind. cbn. unfold dev_write. rewrite (proj2 (Nat.ltb_lt _ _)) by lia. cbn.
    eexists. split; [reflexivity|]. done. }
  rewrite (bind_ok _ _ _ _ _ E). eauto.
Qed.

(** The end of the erase: the flash refuses 512 words, and nobody notices. *)
Lemma erase_wedges m m' container id buf rc : length buf = 512%nat →
  ∃ s, mux_event counter (EraseDone rc) (ended m' (erasing m container id buf)) = (Ok tt, s) ∧ wedged m' [] s.
Proof.
  intros Hl. unfold mux_event. rewrite (bind_ok _ _ _ (Some PERSONALITY_USER) (ended m' (erasing m container id buf))) by reflexivity.
  set (s1 := (on_mux (modify (MuxFlash.set_in_flight None)) (ended m' (erasing m container id buf))).2).
  rewrite (bind_ok _ _ _ tt s1) by reflexivity. cbn iota. unfold user_event. run.
  set (s2 := (on_mux (modify (MuxFlash.set_operation PERSONALITY_USER OpIdle)) s1).2).
  rewrite (bind_ok _ _ _ tt s2) by reflexivity. run. rewrite (bind_ok _ _ _ true s2) by reflexivity. cbn iota. rewrite decide_True by done.
  set (x := default (MuxFlash.new (mk_Dev m' None)) (PersonalityDriver.flash (device s2))).
  destruct (user_write_refused PERSONALITY_USER [COUNTER_USER] PERSONALITY_ADDRESS_U32 buf x) as (y & Ew & Hd & Hf); [done..|lia|].
  assert (PersonalityDriver.start_write PERSONALITY_ADDRESS_U32 (device s2) =
    (Ok true, PersonalityDriver.mk ErasingU8 true (Some y) None)) as Es.
  { unfold PersonalityDriver.start_write. run. change (PersonalityDriver.flash (device s2)) with (Some x).
    change (PersonalityDriver.write_buffer (device s2)) with (Some buf). cbn iota. run.
    rewrite (bind_ok _ _ _ (SUCCESS, None) (PersonalityDriver.mk ErasingU8 true (Some y) None)); [done|].
    unfold PersonalityDriver.on_flash. change (PersonalityDriver.flash (PersonalityDriver.replace_buffer None (device s2))) with (Some x).
    cbn [flash_write personality_flash]. by rewrite Ew. }
  set (s3 := set_device (PersonalityDriver.mk WritingU8 true (Some y) None) s2).
  assert (flash_event (EraseDone rc) s2 = (Ok tt, s3)) as Ef.
  { unfold flash_event, PersonalityDriver.flash_done, PersonalityDriver.erase_done. rewrite (bind_ok _ _ _ None s3); [done|].
    unfold on_device, zoom. run. change (PersonalityDriver.state (device s2)) with ErasingU8. cbn iota. by rewrite (bind_ok _ _ _ _ _ Es). }
  rewrite (bind_ok _ _ _ _ _ Ef). exists s3. split.
  - unfold on_mux, on_device, PersonalityDriver.on_flash, zoom. change (PersonalityDriver.flash (device s3)) with (Some y). cbn iota.
    by rewrite (MuxFacts.do_next_op_busy y PERSONALITY_USER Hf).
  - exists y. split_and!; [done|by rewrite Hd|by rewrite Hf|done|done].
Qed.
End Facts.
End PersonalityFacts.

(** ** Words and bytes of a page *)

Lemma app_words_S n buf : FlashSyscalls.app_words (S n) buf = le_value (take 4 buf) :: FlashSyscalls.app_words n (drop 4 buf).
Proof.
  unfold FlashSyscalls.app_words. cbn [seq fmap list_fmap]. rewrite drop_0. f_equal. rewrite <-fmap_S_seq, <-list_fmap_compose.
  apply list_fmap_ext. intros i w _. cbn [compose]. rewrite drop_drop. do 3 f_equal. lia.
Qed.

Lemma app_words_bytes n buf : bytes_ok buf → length buf = (4 * n)%nat → register_bytes (FlashSyscalls.app_words n buf) = buf.
Proof.
  revert buf. induction n as [|n IH]; intros buf Hb Hl; [by destruct buf|]. rewrite app_words_S.
  change (register_bytes (?w :: ?l)) with (le_bytes 4 w ++ register_bytes l).
  assert (bytes_ok (take 4 buf) ∧ bytes_ok (drop 4 buf)) as [H4 Hd] by (by apply bytes_ok_app; rewrite take_drop).
  rewrite IH; [|done|rewrite length_drop; lia]. assert (length (take 4 buf) = 4%nat) as H4l by (rewrite length_take; lia).
  rewrite <-H4l at 1. rewrite le_bytes_value by done. apply take_drop.
Qed.

Section Reading.
Context {F : Type} `{Flash F}.

(** The page in the flash holds [ws]. *)
Definition holds (f : F) (ws : list Z) : Prop :=
  ∀ i w, ws !! i = Some w → flash_read (PERSONALITY_ADDRESS_U32 + Z.of_nat i) f = SuccessWithValue w.

Lemma read_words_u8 f ws n i b : holds f ws → Forall (fits 32) ws → (i + n = length ws)%nat → (4 * length ws <= length b)%nat →
  PersonalityDriver.read_words f (λ i v b, copy_at b (4 * i) (le_bytes 4 v)) n i b =
    (SUCCESS, take (4 * i) b ++ register_bytes (drop i ws) ++ drop (4 * length ws) b).
Proof.
  revert i b. induction n as [|n IH]; intros i b Hh Hf Hn Hb; cbn [PersonalityDriver.read_words].
  - rewrite drop_ge by lia. replace (length ws) with i by lia. f_equal. symmetry. apply take_drop.
  - destruct (lookup_lt_is_Some_2 ws i) as [w Hw]; [lia|]. rewrite (Hh i w Hw), u32_small by (by eapply Forall_lookup_1).
    assert (length (le_bytes 4 w) = 4%nat) as H4 by apply length_le_bytes.
    rewrite IH; [|done|done|lia|rewrite length_copy_at; lia]. f_equal.
    rewrite <-(take_drop_middle ws i w Hw) at 3. rewrite drop_app_length' by (rewrite length_take; lia).
    change (register_bytes (w :: ?l)) with (le_bytes 4 w ++ register_bytes l). rewrite app_assoc.
    replace (4 * S i)%nat with (4 * i + length (le_bytes 4 w))%nat by lia. rewrite take_copy_at by lia. rewrite <-!app_assoc. do 3 f_equal.
    apply (drop_agree (4 * i + length (le_bytes 4 w))); [lia|]. apply drop_copy_at. lia.
Qed.

Lemma app_words_fits n buf : bytes_ok buf → length buf = (4 * n)%nat → Forall (fits 32) (FlashSyscalls.app_words n buf).
Proof.
  revert buf. induction n as [|n IH]; intros buf Hb Hl; [constructor|]. rewrite app_words_S.
  assert (bytes_ok (take 4 buf) ∧ bytes_ok (drop 4 buf)) as [H4 Hd] by (by apply bytes_ok_app; rewrite take_drop).
  constructor; [|apply IH; [done|rewrite length_drop; lia]]. pose proof (le_value_bound _ H4) as Hv. rewrite length_take in Hv.
  unfold fits. replace (2 ^ 32) with (256 ^ Z.of_nat (4 `min` length buf)) by (rewrite Nat.min_l by lia; done). exact Hv.
Qed.

Lemma get_u8_ok (d : PersonalityDriver.t F) f data out : PersonalityDriver.flash d = Some f → bytes_ok data → (2048 <= length data)%nat →
  (2048 <= length out)%nat → holds f (FlashSyscalls.app_words 512 (take 2048 data)) →
  PersonalityDriver.get_u8 out d = (SUCCESS, take 2048 data ++ drop 2048 out).
Proof.
  intros Hf Hb Hl Ho Hh. assert (length (take 2048 data) = (4 * 512)%nat) as Ht by (rewrite length_take; lia).
  assert (bytes_ok (take 2048 data)) as Hbt by (by apply Forall_take).
  unfold PersonalityDriver.get_u8. rewrite (proj2 (Nat.ltb_ge _ _)) by (cbv [PERSONALITY_SIZE]; lia). rewrite Hf.
  pose proof (FlashSyscallFacts.length_app_words 512 (take 2048 data)) as Hlw.
  rewrite (read_words_u8 f (FlashSyscalls.app_words 512 (take 2048 data))); [|done|by apply app_words_fits|rewrite Hlw; cbv [PAGE_SIZE_U32]; lia|lia].
  rewrite take_0, drop_0, app_words_bytes, Hlw by done. reflexivity.
Qed.
End Reading.

(** ** Theorems *)

Section Statements.
Context {F : Type} `{Flash F}.
Implicit Types d : PersonalityDriver.t F.

(** Attestation data survives the flash.  On a flash that accepts a page-sized write,
    an idle driver erases the page, writes the data when the erase has ended, whatever
    its result, tells its client the result of the write, and from then on a read gives
    back the first 2048 bytes of the data; the driver is idle again, but without its
    write buffer. *)
Theorem personality_roundtrip d f f1 f1' f2 f3 buf data out back rc rc' :
  PersonalityDriver.state d = Idle → PersonalityDriver.client d = true → PersonalityDriver.flash d = Some f →
  PersonalityDriver.write_buffer d = Some buf → length buf = 512%nat →
  bytes_ok data → (2048 <= length data)%nat → (2048 <= length out)%nat →
  let ws := FlashSyscalls.app_words 512 (take 2048 data) in
  flash_erase PERSONALITY_PAGE f = (Ok SUCCESS, f1) →
  flash_write PERSONALITY_ADDRESS_U32 ws f1' = (Ok (SUCCESS, None), f2) →
  holds f3 ws →
  ∃ d1 d2 d3, PersonalityDriver.set_u8 data d = (Ok SUCCESS, d1) ∧ PersonalityDriver.flash d1 = Some f1 ∧
    PersonalityDriver.erase_done rc (PersonalityDriver.set_flash f1' d1) = (Ok None, d2) ∧ PersonalityDriver.flash d2 = Some f2 ∧
    PersonalityDriver.write_done back rc' (PersonalityDriver.set_flash f3 d2) = (Ok (Some (SetU8Done rc')), d3) ∧
    PersonalityDriver.get_u8 out d3 = (SUCCESS, take 2048 data ++ drop 2048 out) ∧
    PersonalityDriver.state d3 = Idle ∧ PersonalityDriver.write_buffer d3 = None.
Proof.
  intros Hs Hc Hf Hb Hlb Hd Hl Ho ws He Hw Hh.
  exists (PersonalityDriver.mk ErasingU8 true (Some f1) (Some ws)), (PersonalityDriver.mk WritingU8 true (Some f2) None),
    (PersonalityDriver.mk Idle true (Some f3) None). split_and!; try done.
  - by rewrite (set_u8_ok d f f1), Hb, Hc, copy_page.
  - unfold PersonalityDriver.erase_done. rewrite bind_gets. cbn [PersonalityDriver.state PersonalityDriver.set_flash].
    rewrite (bind_ok _ _ _ true (PersonalityDriver.mk ErasingU8 true (Some f2) None)); [done|].
    unfold PersonalityDriver.start_write, PersonalityDriver.on_flash. rewrite !bind_gets. cbn [PersonalityDriver.flash PersonalityDriver.set_flash PersonalityDriver.write_buffer].
    rewrite bind_modify, bind_unfold. cbn [PersonalityDriver.flash PersonalityDriver.replace_buffer PersonalityDriver.set_flash]. by rewrite Hw.
  - by apply (get_u8_ok _ f3).
Qed.

(** After a completed write the data can never be written again: the buffer is gone, so
    a further write of any data is answered with [SUCCESS], the page with the old data
    is erased, and when the erase ends nothing is written and nobody is told. *)
Theorem second_write_erases d f f1 data rc f1' :
  PersonalityDriver.state d = Idle → PersonalityDriver.write_buffer d = None → PersonalityDriver.flash d = Some f →
  (2048 <= length data)%nat → flash_erase PERSONALITY_PAGE f = (Ok SUCCESS, f1) →
  ∃ d1, PersonalityDriver.set_u8 data d = (Ok SUCCESS, d1) ∧ PersonalityDriver.flash d1 = Some f1 ∧
    PersonalityDriver.erase_done rc (PersonalityDriver.set_flash f1' d1) = (Ok None, PersonalityDriver.set_flash f1' d1) ∧
    PersonalityDriver.state d1 = Idle ∧ PersonalityDriver.write_buffer d1 = None.
Proof.
  intros Hs Hb Hf Hl He. exists (PersonalityDriver.set_flash f1 d). split_and!; try done.
  - by rewrite (set_u8_ok d f f1), Hb.
  - unfold PersonalityDriver.erase_done. rewrite bind_gets. cbn [PersonalityDriver.state PersonalityDriver.set_flash]. by rewrite Hs.
Qed.

(** A failing write call takes the callback of the running one.  While the write of one
    process is under way, the write call of any other process with a buffer, of whatever
    size, is answered with [SUCCESS] although the driver refuses it; when the first
    write ends, its result is reported to the second process only. *)
Theorem write_call_steals_callback (s : PersonalitySyscall.t F) (owner other : AppId) (a b : PersonalityApp) data cb back rc :
  PersonalitySyscall.current_user s = Some owner → PersonalitySyscall.busy s = false →
  PersonalityDriver.state (PersonalitySyscall.device s) = WritingU8 → PersonalityDriver.client (PersonalitySyscall.device s) = true →
  PersonalitySyscall.apps s owner = Some a → PersonalitySyscall.apps s other = Some b →
  app_data b = Some data → app_callback b = Some cb →
  ∃ s1 s2, PersonalitySyscall.command COMMAND_WRITE other s = (Ok SUCCESS, s1) ∧
    PersonalitySyscall.device s1 = PersonalitySyscall.device s ∧
    PersonalitySyscall.flash_event (WriteDone back rc) s1 = (Ok tt, s2) ∧
    PersonalitySyscall.upcalls s2 = PersonalitySyscall.upcalls s ++ [mk_Upcall other cb rc] ∧
    PersonalitySyscall.current_user s2 = None.
Proof.
  intros Hu Hb Hs Hc Ha Hbo Hd Hcb.
  assert (∃ c, PersonalityDriver.set_u8 data (PersonalitySyscall.device s) = (Ok c, PersonalitySyscall.device s)) as [c Ec].
  { unfold PersonalityDriver.set_u8. destruct (_ <? _)%nat; [by eexists|]. rewrite bind_gets, Hs. by eexists. }
  set (s1 := PersonalitySyscall.set_current_user (Some other) s). eexists s1, _. split_and!.
  - change (PersonalitySyscall.command COMMAND_WRITE other s) with (PersonalitySyscall.command_write other s).
    unfold PersonalitySyscall.command_write, PersonalitySyscall.enter, PersonalitySyscall.on_device, zoom. rewrite bind_gets, Hb, bind_gets, Hbo, Hd.
    rewrite bind_unfold, Ec. run. unfold s1. by destruct s.
  - done.
  - unfold PersonalitySyscall.flash_event, PersonalityDriver.flash_done, PersonalityDriver.write_done.
    set (d2 := PersonalityDriver.set_state Idle (PersonalitySyscall.device s)).
    rewrite (bind_ok _ _ _ (Some (SetU8Done rc)) (PersonalitySyscall.set_device d2 s1)).
    + unfold PersonalitySyscall.set_u8_done, PersonalitySyscall.done_. rewrite bind_gets. cbn [PersonalitySyscall.current_user PersonalitySyscall.set_device PersonalitySyscall.apps s1 PersonalitySyscall.set_current_user].
      cbn [mbind option_bind]. rewrite Hbo. run. reflexivity.
    + unfold PersonalitySyscall.on_device, zoom. run. change (PersonalitySyscall.device s1) with (PersonalitySyscall.device s). rewrite Hs. run.
      unfold PersonalityDriver.call, gets. fold d2. change (PersonalityDriver.client d2) with (PersonalityDriver.client (PersonalitySyscall.device s)). by rewrite Hc.
  - cbn. by rewrite Hcb.
  - done.
Qed.
End Statements.

#[local] Existing Instance Golf2.personality_flash.


(** ** Witnesses *)

(** A flash of which every word reads as [w] and that accepts everything. *)
#[local] Instance uniform_flash : Flash Z := {|
  flash_erase _ := mret SUCCESS;
  flash_read _ w := SuccessWithValue w;
  flash_write _ _ := mret (SUCCESS, None) |}.

Definition uniform_driver (b : option (list Z)) : PersonalityDriver.t Z := PersonalityDriver.mk Idle true (Some 0x07070707) b.

Lemma personality_roundtrip_witness :
  ∃ d1 d2 d3, PersonalityDriver.set_u8 (replicate 2048 7) (uniform_driver (Some (replicate 512 0))) = (Ok SUCCESS, d1) ∧
    PersonalityDriver.erase_done FAIL (PersonalityDriver.set_flash 0x07070707 d1) = (Ok None, d2) ∧
    PersonalityDriver.write_done [] SUCCESS (PersonalityDriver.set_flash 0x07070707 d2) = (Ok (Some (SetU8Done SUCCESS)), d3) ∧
    PersonalityDriver.get_u8 (replicate 2050 1) d3 = (SUCCESS, take 2048 (replicate 2048 7) ++ drop 2048 (replicate 2050 1)).
Proof.
  destruct (personality_roundtrip (uniform_driver (Some (replicate 512 0))) 0x07070707 0x07070707 0x07070707 0x07070707 0x07070707
    (replicate 512 0) (replicate 2048 7) (replicate 2050 1) [] FAIL SUCCESS) as (d1 & d2 & d3 & E1 & _ & E2 & _ & E3 & E4 & _);
    [reflexivity..|by apply Forall_replicate|reflexivity|vm_compute; lia|reflexivity|reflexivity| |].
  - assert (Forall (λ w, w = 0x07070707) (FlashSyscalls.app_words 512 (take 2048 (replicate 2048 7)))) as Hall by by_compute.
    intros i w Hi. cbn [flash_read uniform_flash]. f_equal. symmetry. by eapply (Forall_lookup_1 _ _ _ _ Hall).
  - exists d1, d2, d3. split_and!; [exact E1|exact E2|exact E3|exact E4].
Defined.

Lemma second_write_erases_witness :
  ∃ d1, PersonalityDriver.set_u8 (replicate 2048 7) (uniform_driver None) = (Ok SUCCESS, d1) ∧
    PersonalityDriver.erase_done SUCCESS (PersonalityDriver.set_flash 0xFFFFFFFF d1) = (Ok None, PersonalityDriver.set_flash 0xFFFFFFFF d1).
Proof.
  destruct (second_write_erases (uniform_driver None) 0x07070707 0x07070707 (replicate 2048 7) SUCCESS 0xFFFFFFFF) as (d1 & E1 & _ & E2 & _);
    [reflexivity..|vm_compute; lia|reflexivity|]. by exists d1.
Defined.

Lemma write_call_steals_callback_witness :
  let s := PersonalitySyscall.mk (PersonalityDriver.mk WritingU8 true (Some 0) None)
             (λ id, Some (mk_PersonalityApp (Some [1]) (Some id))) false (Some 0%nat) [] in
  ∃ s1 s2, PersonalitySyscall.command COMMAND_WRITE 1%nat s = (Ok SUCCESS, s1) ∧
    PersonalitySyscall.flash_event (WriteDone [] SUCCESS) s1 = (Ok tt, s2) ∧
    PersonalitySyscall.upcalls s2 = [mk_Upcall 1%nat 1%nat SUCCESS].
Proof.
  intros s. destruct (write_call_steals_callback s 0%nat 1%nat (mk_PersonalityApp (Some [1]) (Some 0%nat)) (mk_PersonalityApp (Some [1]) (Some 1%nat))
    [1] 1%nat [] SUCCESS) as (s1 & s2 & E1 & _ & E2 & E3 & _); [reflexivity..|]. by exists s1, s2.
Defined.

