(* ===== verification/Digest.v ===== *)
(** Message digests: the interface (kernel/h1/src/hil/digest.rs), the key manager's SHA
    engine (kernel/h1/src/crypto/sha.rs, keymgr.rs) and the system calls
    (kernel/h1_syscalls/src/digest.rs).

    The system calls are written against [DigestEngine], as in the source, and proved
    against [DigestLaws]; the SHA engine is an instance.  What the hardware computes is
    a parameter: a function of the registers that configure it and of the bytes of the
    message.  [finalize] waits for the hardware without a bound: [None] is a call that
    does not return.  The input and output buffers of a process do not overlap. *)

From S2P Require Import Prelude Io Tock Registers FlashSyscalls.
From Stdlib Require Import ZArith Lia.
From stdpp Require Import base decidable option list list_numbers.

#[local] Open Scope Z_scope.

Inductive DigestMode := Sha1 | Sha256 | Sha256Hmac.

#[global] Instance DigestMode_eq_dec : EqDecision DigestMode.
Proof. solve_decision. Defined.

Definition output_size (m : DigestMode) : nat :=
  match m with Sha1 => 160 / 8 | Sha256 => 256 / 8 | Sha256Hmac => 256 / 8 end.

Inductive DigestError := EngineNotSupported | NotConfigured | BufferTooSmall (needed : nat) | Timeout.

Inductive SyscallError := NotImplemented | InvalidState | OutOfRange | ResourceBusy.

Definition syscall_error (e : DigestError) : SyscallError :=
  match e with
  | EngineNotSupported => NotImplemented
  | NotConfigured => InvalidState
  | BufferTooSmall _ => OutOfRange
  | Timeout => ResourceBusy
  end.

Class DigestEngine (E : Type) := {
  initialize : DigestMode → E → (DigestError + unit) * E;
  initialize_hmac : list Z → E → (DigestError + unit) * E;
  initialize_certificate : Z → E → (DigestError + unit) * E;
  update : list Z → E → (DigestError + nat) * E;
  finalize : list Z → E → option ((DigestError + nat) * list Z * E);
  finalize_hidden : E → option ((DigestError + nat) * E)
}.

(** ** The SHA engine *)

Definition Trig_Go : Z := 0x1.
Definition Trig_Stop : Z := 0x8.

Definition Cfg_Sha1 : Z := 0x02.
Definition Cfg_Livestream : Z := 0x10.
Definition Cfg_Hmac : Z := 0x20.
Definition Cfg_IntEnDone : Z := 0x10000.

Definition CertBits : Z := 0x3f.
Definition Cert_Enable : Z := 0x40.

Definition HMAC_KEY_SIZE_BYTES : nat := 32.
Definition HMAC_KEY_SIZE_WORDS : nat := HMAC_KEY_SIZE_BYTES / 4.

(** The registers that the engine uses; [message] is what has been fed since the last
    start, and [done_in] the number of reads until a stopped computation is done. *)
Record ShaRegisters := mk_Sha {
  cfg_en : Z;
  use_cert : Z;
  key_w : list Z;
  sts_h : list Z;
  itop : Z;
  running : bool;
  message : list Z;
  done_in : option nat
}.

Definition set_itop (v : Z) (r : ShaRegisters) : ShaRegisters :=
  mk_Sha (cfg_en r) (use_cert r) (key_w r) (sts_h r) v (running r) (message r) (done_in r).
Definition set_cfg_en (v : Z) (r : ShaRegisters) : ShaRegisters :=
  mk_Sha v (use_cert r) (key_w r) (sts_h r) (itop r) (running r) (message r) (done_in r).
Definition set_use_cert (v : Z) (r : ShaRegisters) : ShaRegisters :=
  mk_Sha (cfg_en r) v (key_w r) (sts_h r) (itop r) (running r) (message r) (done_in r).
Definition set_key_w (l : list Z) (r : ShaRegisters) : ShaRegisters :=
  mk_Sha (cfg_en r) (use_cert r) l (sts_h r) (itop r) (running r) (message r) (done_in r).

Module ShaEngine.
Section Engine.
(** The digest of a message, in eight words, and how long it takes. *)
Context (compute : Z → Z → list Z → list Z → list Z) (delay : list Z → nat).

Record t := mk { regs : ShaRegisters; current_mode : option DigestMode }.

Definition new (r : ShaRegisters) : t := mk r None.

(** [regs.trig.set(v)] *)
Definition set_trig (v : Z) (r : ShaRegisters) : ShaRegisters :=
  if v =? Trig_Go then mk_Sha (cfg_en r) (use_cert r) (key_w r) (sts_h r) (itop r) true [] None
  else if (v =? Trig_Stop) && running r
  then mk_Sha (cfg_en r) (use_cert r) (key_w r) (sts_h r) (itop r) false (message r) (Some (delay (message r)))
  else r.

(** One byte for the FIFO. *)
Definition feed (b : Z) (r : ShaRegisters) : ShaRegisters :=
  mk_Sha (cfg_en r) (use_cert r) (key_w r) (sts_h r) (itop r) (running r) (message r ++ [b]) (done_in r).

(** The hardware works between two reads of [itop]. *)
Definition tick (r : ShaRegisters) : ShaRegisters :=
  match done_in r with
  | Some O => mk_Sha (cfg_en r) (use_cert r) (key_w r) (compute (cfg_en r) (use_cert r) (key_w r) (message r)) 1 false (message r) None
  | Some (S n) => mk_Sha (cfg_en r) (use_cert r) (key_w r) (sts_h r) (itop r) (running r) (message r) (Some n)
  | None => r
  end.

(** [while regs.itop.get() == 0 {}], at most [fuel] reads. *)
Fixpoint wait_done (fuel : nat) (r : ShaRegisters) : option ShaRegisters :=
  if itop r =? 0 then match fuel with O => None | S fuel' => wait_done fuel' (tick r) end else Some r.

(** The reads that a computation under way needs; without one, no number is enough. *)
Definition enough (r : ShaRegisters) : nat := match done_in r with Some n => S n | None => 0 end.

Definition handle_interrupt (s : t) : t := mk (set_itop 0 (regs s)) (current_mode s).

Definition mode_flags (m : DigestMode) : Z :=
  let flags := Z.lor Cfg_Livestream Cfg_IntEnDone in
  match m with Sha1 => Z.lor flags Cfg_Sha1 | Sha256 => flags | Sha256Hmac => Z.lor flags Cfg_Hmac end.

Definition initialize_ (m : DigestMode) (s : t) : (DigestError + unit) * t :=
  let r := set_itop 0 (regs s) in
  let r := set_trig Trig_Stop r in
  let r := set_cfg_en (mode_flags m) r in
  (inr tt, mk (set_trig Trig_Go r) (Some m)).

(** The words of the key; the loop sets the key registers one after the other. *)
Definition key_words (key : list Z) : list Z := FlashSyscalls.app_words HMAC_KEY_SIZE_WORDS key.

Definition initialize_hmac_ (key : list Z) (s : t) : (DigestError + unit) * t :=
  let r := set_itop 0 (regs s) in
  if (length key <? HMAC_KEY_SIZE_BYTES)%nat then (inl (BufferTooSmall HMAC_KEY_SIZE_BYTES), mk r (Some Sha256Hmac))
  else
    let r := set_key_w (key_words key) r in
    let r := set_cfg_en (Z.lor (Z.lor Cfg_Livestream Cfg_IntEnDone) Cfg_Hmac) r in
    (inr tt, mk (set_trig Trig_Go r) (Some Sha256Hmac)).

Definition initialize_certificate_ (certificate_id : Z) (s : t) : (DigestError + unit) * t :=
  let r := set_itop 0 (regs s) in
  let r := set_use_cert (Z.lor (Z.land certificate_id CertBits) Cert_Enable) r in
  let r := set_cfg_en Cfg_IntEnDone r in
  (inr tt, mk (set_trig Trig_Go r) (current_mode s)).

Definition update_ (data : list Z) (s : t) : (DigestError + nat) * t :=
  match current_mode s with
  | None => (inl NotConfigured, s)
  | Some _ => (inr (length data), mk (foldl (λ r b, feed b r) (regs s) data) (current_mode s))
  end.

(** Stop and wait. *)
Definition stop (s : t) : option ShaRegisters :=
  let r := set_trig Trig_Stop (set_itop 0 (regs s)) in wait_done (enough r) r.

Definition finalize_ (output : list Z) (s : t) : option ((DigestError + nat) * list Z * t) :=
  match current_mode s with
  | None => Some (inl NotConfigured, output, s)
  | Some mode =>
      let expected_output_size := output_size mode in
      if (length output <? expected_output_size)%nat then Some (inl (BufferTooSmall expected_output_size), output, s)
      else
        r ← stop s;
        Some (inr expected_output_size, copy_at output 0 (register_bytes (take (expected_output_size / 4) (sts_h r))),
              mk (set_itop 0 r) (current_mode s))
  end.

Definition finalize_hidden_ (s : t) : option ((DigestError + nat) * t) :=
  r ← stop s; Some (inr 0%nat, mk (set_itop 0 r) (current_mode s)).

#[export] Instance engine : DigestEngine t := {|
  initialize := initialize_;
  initialize_hmac := initialize_hmac_;
  initialize_certificate := initialize_certificate_;
  update := update_;
  finalize := finalize_;
  finalize_hidden := finalize_hidden_ |}.

End Engine.
End ShaEngine.

(** ** System calls *)

Record DigestApp := mk_DigestApp { input_buffer : option (list Z); output_buffer : option (list Z) }.

Definition DigestApp_default : DigestApp := mk_DigestApp None None.

Definition COMMAND_CHECK : Z := 0.
Definition COMMAND_INITIALIZE : Z := 1.
Definition COMMAND_UPDATE : Z := 2.
Definition COMMAND_FINALIZE : Z := 3.
Definition COMMAND_BUSY : Z := 4.
Definition COMMAND_CERTIFICATE_INIT : Z := 5.

Module DigestDriver.
Section Driver.
Context {E : Type} `{DigestEngine E}.

Record t := mk { engine : E; apps : AppId → option DigestApp; current_user : option AppId }.

Definition new (e : E) (container : AppId → option DigestApp) : t := mk e container None.

Definition set_engine (e : E) (s : t) : t := mk e (apps s) (current_user s).
Definition set_app (id : AppId) (a : DigestApp) (s : t) : t :=
  mk (engine s) (λ i, if decide (i = id) then Some a else apps s i) (current_user s).
Definition set_current_user (u : option AppId) (s : t) : t := mk (engine s) (apps s) u.

(** The code for an error; that of [NotConfigured] differs between the commands. *)
Definition error_code (not_configured : ReturnCode) (e : DigestError) : ReturnCode :=
  match e with
  | EngineNotSupported => ENOSUPPORT
  | NotConfigured => not_configured
  | BufferTooSmall _ => ESIZE
  | Timeout => FAIL
  end.

Definition code_of {A} (not_configured : ReturnCode) (r : DigestError + A) : ReturnCode :=
  match r with inr _ => SUCCESS | inl e => error_code not_configured e end.

Definition digest_mode (r2 : Z) : option DigestMode :=
  if r2 =? 0 then Some Sha1 else if r2 =? 1 then Some Sha256 else if r2 =? 2 then Some Sha256Hmac else None.

(** The bodies of [self.apps.enter(caller_id, ..)]. *)
Definition command_initialize (r2 : Z) (id : AppId) (a : DigestApp) (s : t) : ReturnCode * t :=
  if current_user s is Some _ then (EBUSY, s)
  else
    let s := set_current_user (Some id) s in
    match digest_mode r2 with
    | None => (EINVAL, s)
    | Some Sha256Hmac =>
        match input_buffer a with
        | None => (ENOMEM, s)
        | Some slice => let '(r, e) := initialize_hmac slice (engine s) in (code_of FAIL r, set_engine e s)
        end
    | Some mode => let '(r, e) := initialize mode (engine s) in (code_of FAIL r, set_engine e s)
    end.

Definition owns (id : AppId) (s : t) : bool := bool_decide (current_user s = Some id).

Definition command_update (input_len : Z) (id : AppId) (a : DigestApp) (s : t) : ReturnCode * t :=
  if negb (owns id s) then (EBUSY, s)
  else
    match input_buffer a with
    | None => (ENOMEM, s)
    | Some slice =>
        if Z.of_nat (length slice) <? input_len then (ESIZE, s)
        else let '(r, e) := update (take (Z.to_nat input_len) slice) (engine s) in (code_of ERESERVE r, set_engine e s)
    end.

Definition command_finalize (id : AppId) (a : DigestApp) (s : t) : option (ReturnCode * t) :=
  if negb (owns id s) then Some (EBUSY, s)
  else
    let s := set_current_user None s in
    match output_buffer a with
    | Some slice =>
        '(r, slice', e) ← finalize slice (engine s);
        Some (code_of FAIL r, set_app id (mk_DigestApp (input_buffer a) (Some slice')) (set_engine e s))
    | None =>
        '(r, e) ← finalize_hidden (engine s);
        Some (code_of FAIL r, set_engine e s)
    end.

Definition command_certificate_init (r2 : Z) (id : AppId) (a : DigestApp) (s : t) : ReturnCode * t :=
  if current_user s is Some _ then (EBUSY, s)
  else
    let s := set_current_user (Some id) s in
    let '(r, e) := initialize_certificate (u32 r2) (engine s) in
    let s := set_engine e s in
    match r with
    | inl _ => (code_of FAIL r, s)
    | inr _ => (SUCCESS, if input_buffer a is None then set_current_user None s else s)
    end.

(** [self.apps.enter(id, f).unwrap_or(ENOMEM)] *)
Definition enter (id : AppId) (f : DigestApp → t → option (ReturnCode * t)) (s : t) : option (ReturnCode * t) :=
  match apps s id with None => Some (ENOMEM, s) | Some a => f a s end.

Definition command (minor_num r2 : Z) (id : AppId) (s : t) : option (ReturnCode * t) :=
  if minor_num =? COMMAND_CHECK then Some (SUCCESS, s)
  else if minor_num =? COMMAND_INITIALIZE then enter id (λ a s, Some (command_initialize r2 id a s)) s
  else if minor_num =? COMMAND_UPDATE then enter id (λ a s, Some (command_update r2 id a s)) s
  else if minor_num =? COMMAND_FINALIZE then enter id (command_finalize id) s
  else if minor_num =? COMMAND_BUSY then Some (if current_user s is Some _ then EBUSY else SUCCESS, s)
  else if minor_num =? COMMAND_CERTIFICATE_INIT then enter id (λ a s, Some (command_certificate_init r2 id a s)) s
  else Some (ENOSUPPORT, s).

Definition allow (id : AppId) (allow_num : Z) (slice : option (list Z)) (s : t) : option (ReturnCode * t) :=
  if allow_num =? 0 then enter id (λ a s, Some (SUCCESS, set_app id (mk_DigestApp slice (output_buffer a)) s)) s
  else if allow_num =? 1 then enter id (λ a s, Some (SUCCESS, set_app id (mk_DigestApp (input_buffer a) slice) s)) s
  else Some (ENOSUPPORT, s).

End Driver.
Arguments t E : clear implicits.
End DigestDriver.

(** ** What the system calls rely on *)

(** A computation is configured once ([Session]) and then fed; its digest is a function
    of the two. *)
Class DigestLaws (E : Type) `{DigestEngine E} := {
  Session : Type;
  session_mode : Session → DigestMode;
  digest_of : Session → list Z → list Z;
  session : E → option (Session * list Z);
  length_digest c msg : length (digest_of c msg) = output_size (session_mode c);
  initialize_law m e : ∃ c e', initialize m e = (inr tt, e') ∧ session e' = Some (c, []) ∧ session_mode c = m;
  initialize_hmac_law key e :
    if (length key <? HMAC_KEY_SIZE_BYTES)%nat then ∃ e', initialize_hmac key e = (inl (BufferTooSmall HMAC_KEY_SIZE_BYTES), e')
    else ∃ c e', initialize_hmac key e = (inr tt, e') ∧ session e' = Some (c, []) ∧ session_mode c = Sha256Hmac;
  update_law data e c msg : session e = Some (c, msg) →
    ∃ e', update data e = (inr (length data), e') ∧ session e' = Some (c, msg ++ data);
  finalize_law out e c msg : session e = Some (c, msg) →
    let size := output_size (session_mode c) in
    if (length out <? size)%nat then finalize out e = Some (inl (BufferTooSmall size), out, e)
    else ∃ e', finalize out e = Some (inr size, digest_of c msg ++ drop size out, e')
}.

Section Sha.
Context (compute : Z → Z → list Z → list Z → list Z) (delay : list Z → nat).
Context (length_compute : ∀ cfg cert key msg, length (compute cfg cert key msg) = 8%nat).

Record ShaSession := mk_ShaSession { ss_mode : DigestMode; ss_cfg : Z; ss_cert : Z; ss_key : list Z }.

Definition sha_digest (c : ShaSession) (msg : list Z) : list Z :=
  register_bytes (take (output_size (ss_mode c) / 4) (compute (ss_cfg c) (ss_cert c) (ss_key c) msg)).

Definition sha_session (s : ShaEngine.t) : option (ShaSession * list Z) :=
  m ← ShaEngine.current_mode s;
  let r := ShaEngine.regs s in
  if running r then Some (mk_ShaSession m (cfg_en r) (use_cert r) (key_w r), message r) else None.

Lemma foldl_feed data r :
  foldl (λ r b, ShaEngine.feed b r) r data =
    mk_Sha (cfg_en r) (use_cert r) (key_w r) (sts_h r) (itop r) (running r) (message r ++ data) (done_in r).
Proof.
  revert r. induction data as [|b data IH]; intros r; cbn [foldl]; [rewrite app_nil_r; by destruct r|].
  rewrite IH. unfold ShaEngine.feed. cbn. by rewrite <-app_assoc.
Qed.

(** The wait ends as soon as the hardware is done. *)
Lemma wait_done_ok n r : itop r = 0 → done_in r = Some n →
  ShaEngine.wait_done compute (S n) r =
    Some (mk_Sha (cfg_en r) (use_cert r) (key_w r) (compute (cfg_en r) (use_cert r) (key_w r) (message r)) 1 false (message r) None).
Proof.
  revert r. induction n as [|n IH]; intros r Hi Hd; cbn [ShaEngine.wait_done]; rewrite Hi; cbn [Z.eqb].
  - unfold ShaEngine.tick. by rewrite Hd.
  - change (ShaEngine.wait_done compute (S n) (ShaEngine.tick compute r) = Some (mk_Sha (cfg_en r) (use_cert r) (key_w r) (compute (cfg_en r) (use_cert r) (key_w r) (message r)) 1 false (message r) None)).
    unfold ShaEngine.tick. rewrite Hd. by rewrite IH.
Qed.

(** Without a computation it never ends. *)
Lemma wait_done_never fuel r : itop r = 0 → done_in r = None → ShaEngine.wait_done compute fuel r = None.
Proof.
  revert r. induction fuel as [|fuel IH]; intros r Hi Hd; cbn [ShaEngine.wait_done]; rewrite Hi; cbn [Z.eqb]; [done|].
  unfold ShaEngine.tick. rewrite Hd. by apply IH.
Qed.

Lemma stop_running s : running (ShaEngine.regs s) = true →
  let r := ShaEngine.regs s in
  ShaEngine.stop compute delay s =
    Some (mk_Sha (cfg_en r) (use_cert r) (key_w r) (compute (cfg_en r) (use_cert r) (key_w r) (message r)) 1 false (message r) None).
Proof.
  intros Hr r. unfold ShaEngine.stop, ShaEngine.set_trig. cbn [running set_itop]. rewrite Hr. cbn [Z.eqb Trig_Go Trig_Stop Pos.eqb andb].
  unfold ShaEngine.enough. cbn [done_in]. by rewrite (wait_done_ok (delay (message r))).
Qed.

#[export] Instance sha_laws : @DigestLaws ShaEngine.t (ShaEngine.engine compute delay).
Proof.
  refine {| session := sha_session; session_mode := ss_mode; digest_of := sha_digest |}.
  - intros c msg. unfold sha_digest. rewrite length_register_bytes, length_take, length_compute. by destruct (ss_mode c).
  - intros m e. eexists _, _. split; [reflexivity|]. by split.
  - intros key e. cbn [initialize_hmac ShaEngine.engine]. unfold ShaEngine.initialize_hmac_. destruct (_ <? _)%nat; [by eexists|].
    eexists _, _. split; [reflexivity|]. by split.
  - intros data [r m] c msg Hs. unfold sha_session in Hs. cbn in Hs. destruct m as [m|]; [|done]. cbn in Hs.
    destruct (running r) eqn:Hr; [|done]. injection Hs as <- <-.
    eexists. split; [reflexivity|]. cbn. rewrite foldl_feed. unfold sha_session. cbn. by rewrite Hr.
  - intros out [r m] c msg Hs. unfold sha_session in Hs. cbn in Hs. destruct m as [m|]; [|done]. cbn in Hs.
    destruct (running r) eqn:Hr; [|done]. injection Hs as <- <-. cbn [ss_mode]. cbn [finalize ShaEngine.engine]. unfold ShaEngine.finalize_.
    cbn [ShaEngine.current_mode]. destruct (_ <? _)%nat eqn:Hl; [done|]. rewrite stop_running by done. cbn [mbind option_bind sts_h ShaEngine.regs].
    eexists. do 3 f_equal. unfold copy_at, sha_digest. cbn [ss_mode ss_cfg ss_cert ss_key]. rewrite take_0, length_register_bytes, length_take, length_compute. by destruct m.
Qed.
End Sha.

(** ** Isolation *)

(** Calls of processes. *)
Inductive DigestEvent :=
| ECommand (id : AppId) (minor_num r2 : Z)
| EAllow (id : AppId) (allow_num : Z) (slice : option (list Z)).

#[global] Instance DigestEvent_finalize_dec P ev : Decision (∃ r2, ev = ECommand P COMMAND_FINALIZE r2).
Proof.
  destruct ev as [id n r2|id n b]; [|right; by intros [? ?]].
  destruct (decide (id = P ∧ n = COMMAND_FINALIZE)) as [[-> ->]|Hn]; [left; by eexists|]. right. intros [r Hr]. injection Hr. intros _ H1 H2. by apply Hn.
Defined.

Section Isolation.
Context {E : Type} `{DigestLaws E}.
Implicit Types s : DigestDriver.t E.

Definition apply_event (ev : DigestEvent) s : option (ReturnCode * DigestDriver.t E) :=
  match ev with
  | ECommand id n r2 => DigestDriver.command n r2 id s
  | EAllow id n b => DigestDriver.allow id n b s
  end.

Fixpoint run_events (evs : list DigestEvent) s : option (DigestDriver.t E) :=
  match evs with
  | [] => Some s
  | ev :: evs' => r ← apply_event ev s; run_events evs' r.2
  end.

(** What a process has fed, by its own calls alone: the buffers it shares and the
    message. *)
Definition fed_step (P : AppId) (st : DigestApp * list Z) (ev : DigestEvent) : DigestApp * list Z :=
  let '(a, msg) := st in
  match ev with
  | EAllow id n b =>
      if decide (id = P) then
        if n =? 0 then (mk_DigestApp b (output_buffer a), msg)
        else if n =? 1 then (mk_DigestApp (input_buffer a) b, msg) else st
      else st
  | ECommand id n r2 =>
      if decide (id = P ∧ n = COMMAND_UPDATE) then
        match input_buffer a with
        | Some b => if Z.of_nat (length b) <? r2 then st else (a, msg ++ take (Z.to_nat r2) b)
        | None => st
        end
      else st
  end.

Definition fed (P : AppId) (evs : list DigestEvent) (a : DigestApp) : DigestApp * list Z := foldl (fed_step P) (a, []) evs.

(** No event is the process's own end of the computation. *)
Definition unfinished (P : AppId) (evs : list DigestEvent) : Prop := Forall (λ ev, ¬ ∃ r2, ev = ECommand P COMMAND_FINALIZE r2) evs.

Definition in_session (P : AppId) (c : Session) (st : DigestApp * list Z) s : Prop :=
  DigestDriver.current_user s = Some P ∧ DigestDriver.apps s P = Some st.1 ∧ session (DigestDriver.engine s) = Some (c, st.2).

Lemma allow_event P c st id n b s : in_session P c st s →
  ∃ rc s', DigestDriver.allow id n b s = Some (rc, s') ∧ in_session P c (fed_step P st (EAllow id n b)) s'.
Proof.
  intros (Hu & Ha & Hs). destruct st as [a msg]. cbn [fst snd] in *. unfold DigestDriver.allow, DigestDriver.enter, fed_step.
  repeat (destruct (_ =? _)); destruct (DigestDriver.apps s id) as [a0|] eqn:Hid; (eexists _, _; split; [reflexivity|]);
    (destruct (decide (id = P)) as [->|Hne]; [|try done]).
  all: try (congruence || done).
  - rewrite Ha in Hid. injection Hid as <-. split_and!; [done| |done]. cbn. by rewrite decide_True.
  - split_and!; [done| |done]. cbn. by rewrite decide_False.
  - rewrite Ha in Hid. injection Hid as <-. split_and!; [done| |done]. cbn. by rewrite decide_True.
  - split_and!; [done| |done]. cbn. by rewrite decide_False.
Qed.

Lemma command_event P c st id n r2 s : in_session P c st s → ¬ (id = P ∧ n = COMMAND_FINALIZE) →
  ∃ rc s', DigestDriver.command n r2 id s = Some (rc, s') ∧ in_session P c (fed_step P st (ECommand id n r2)) s'.
Proof.
  intros Hin Hnf. pose proof Hin as (Hu & Ha & Hs). destruct st as [a msg]. cbn [fst snd] in *.
  assert (n ≠ COMMAND_UPDATE → fed_step P (a, msg) (ECommand id n r2) = (a, msg)) as Hother
    by (intros Hn; unfold fed_step; by rewrite decide_False by tauto).
  unfold DigestDriver.command, DigestDriver.enter.
  destruct (Z.eqb_spec n COMMAND_CHECK) as [->|Hn0]; [rewrite Hother by done; by eauto|].
  destruct (Z.eqb_spec n COMMAND_INITIALIZE) as [->|Hn1].
  { rewrite Hother by done. unfold DigestDriver.command_initialize. rewrite Hu. destruct (DigestDriver.apps s id); by eauto. }
  destruct (Z.eqb_spec n COMMAND_UPDATE) as [->|Hn2].
  { unfold fed_step. destruct (decide (id = P ∧ COMMAND_UPDATE = COMMAND_UPDATE)) as [[-> _]|Hne].
    - rewrite Ha. unfold DigestDriver.command_update, DigestDriver.owns. rewrite bool_decide_eq_true_2 by done. cbn [negb].
      destruct (input_buffer a) as [b|]; [|by eauto]. destruct (_ <? _); [by eauto|].
      destruct (update_law (take (Z.to_nat r2) b) (DigestDriver.engine s) c msg Hs) as (e' & -> & Hs').
      eexists _, _. split; [reflexivity|]. by split_and!.
    - destruct (DigestDriver.apps s id); [|by eauto]. unfold DigestDriver.command_update, DigestDriver.owns.
      rewrite bool_decide_eq_false_2 by (rewrite Hu; intros [= ->]; tauto). by eauto. }
  rewrite Hother by done. destruct (Z.eqb_spec n COMMAND_FINALIZE) as [->|Hn3].
  { destruct (DigestDriver.apps s id); [|by eauto]. unfold DigestDriver.command_finalize, DigestDriver.owns.
    rewrite bool_decide_eq_false_2 by (rewrite Hu; intros [= ->]; tauto). by eauto. }
  destruct (_ =? _); [by eauto|]. destruct (_ =? _); [|by eauto].
  unfold DigestDriver.command_certificate_init. rewrite Hu. destruct (DigestDriver.apps s id); by eauto.
Qed.

Lemma run_session P c evs st s : in_session P c st s → unfinished P evs →
  ∃ s', run_events evs s = Some s' ∧ in_session P c (foldl (fed_step P) st evs) s'.
Proof.
  revert st s. induction evs as [|ev evs IH]; intros st s Hin Hf; cbn [run_events foldl]; [by eauto|].
  apply Forall_cons in Hf as [Hev Hf].
  assert (∃ rc s1, apply_event ev s = Some (rc, s1) ∧ in_session P c (fed_step P st ev) s1) as (rc & s1 & -> & H1).
  { destruct ev as [id n r2|id n b]; [|by apply allow_event]. apply command_event; [done|]. intros [-> ->]. by eauto. }
  cbn [mbind option_bind snd]. by apply IH.
Qed.

(** The modes a process can ask for, with the key for the last one. *)
Definition usable (r2 : Z) (a : DigestApp) (m : DigestMode) : Prop :=
  DigestDriver.digest_mode r2 = Some m ∧
  (m = Sha256Hmac → ∃ key, input_buffer a = Some key ∧ (HMAC_KEY_SIZE_BYTES <= length key)%nat).

Lemma initialize_session P r2 a m s : DigestDriver.current_user s = None → DigestDriver.apps s P = Some a → usable r2 a m →
  ∃ c s', DigestDriver.command COMMAND_INITIALIZE r2 P s = Some (SUCCESS, s') ∧ session_mode c = m ∧ in_session P c (a, []) s'.
Proof.
  intros Hu Ha [Hm Hk]. change (DigestDriver.command COMMAND_INITIALIZE r2 P s) with
    (DigestDriver.enter P (λ a s, Some (DigestDriver.command_initialize r2 P a s)) s).
  unfold DigestDriver.enter, DigestDriver.command_initialize. rewrite Ha, Hu, Hm.
  set (s0 := DigestDriver.set_current_user (Some P) s). destruct m.
  - destruct (initialize_law Sha1 (DigestDriver.engine s0)) as (c & e' & -> & Hs & Hc). eexists c, _. by split_and!.
  - destruct (initialize_law Sha256 (DigestDriver.engine s0)) as (c & e' & -> & Hs & Hc). eexists c, _. by split_and!.
  - destruct (Hk eq_refl) as (key & -> & Hl). pose proof (initialize_hmac_law key (DigestDriver.engine s0)) as Hl'.
    rewrite (proj2 (Nat.ltb_ge _ _)) in Hl' by lia. destruct Hl' as (c & e' & -> & Hs & Hc). eexists c, _. by split_and!.
Qed.

(** C26: A digest depends on its owner's calls alone.  A process that starts a computation on
    an idle engine owns it: whatever calls it and all other processes make in any order,
    short of its own finalize, every call returns, and what has been fed to the engine
    is what the process fed by its own successful updates, with the configuration chosen
    at the start.  Its finalize then fills the front of its output buffer with the
    digest of these bytes and releases the engine; a buffer that is too small ends the
    computation with [ESIZE]. *)
Theorem digest_isolated (P : AppId) (r2 : Z) (a : DigestApp) (m : DigestMode) s :
  DigestDriver.current_user s = None → DigestDriver.apps s P = Some a → usable r2 a m →
  ∃ c s1, DigestDriver.command COMMAND_INITIALIZE r2 P s = Some (SUCCESS, s1) ∧ session_mode c = m ∧
    ∀ evs, unfinished P evs → let '(a', msg) := fed P evs a in
      ∃ s2, run_events evs s1 = Some s2 ∧ DigestDriver.apps s2 P = Some a' ∧
        ∀ out, output_buffer a' = Some out →
          ∃ rc s3, DigestDriver.command COMMAND_FINALIZE 0 P s2 = Some (rc, s3) ∧ DigestDriver.current_user s3 = None ∧
            if decide (length out < output_size m)%nat then rc = ESIZE ∧ (DigestDriver.apps s3 P ≫= output_buffer) = Some out
            else rc = SUCCESS ∧ (DigestDriver.apps s3 P ≫= output_buffer) = Some (digest_of c msg ++ drop (output_size m) out).
Proof.
  intros Hu Ha Hm. destruct (initialize_session P r2 a m s Hu Ha Hm) as (c & s1 & E1 & Hc & H1). exists c, s1. split_and!; [done..|].
  intros evs Hf. destruct (run_session P c evs (a, []) s1 H1 Hf) as (s2 & E2 & H2). unfold fed. destruct (foldl _ _ _) as [a' msg].
  destruct H2 as (Hu2 & Ha2 & Hs2). cbn [fst snd] in *. exists s2. split_and!; [done..|]. intros out Ho.
  change (DigestDriver.command COMMAND_FINALIZE 0 P s2) with (DigestDriver.enter P (DigestDriver.command_finalize P) s2).
  unfold DigestDriver.enter, DigestDriver.command_finalize, DigestDriver.owns. rewrite Ha2, Hu2, bool_decide_eq_true_2, Ho by done. cbn [negb].
  pose proof (finalize_law out (DigestDriver.engine s2) c msg Hs2) as Hfin. cbn zeta in Hfin. rewrite Hc in Hfin.
  cbn [DigestDriver.engine DigestDriver.set_current_user]. destruct (decide (length out < output_size m)%nat) as [Hl|Hl].
  - rewrite (proj2 (Nat.ltb_lt _ _)) in Hfin by lia. rewrite Hfin. eexists _, _. split; [reflexivity|]. cbn. by rewrite decide_True.
  - rewrite (proj2 (Nat.ltb_ge _ _)) in Hfin by lia. destruct Hfin as (e' & ->). eexists _, _. split; [reflexivity|]. cbn. by rewrite decide_True.
Qed.

(** A call that fails leaves the engine owned. *)
Definition refused (r2 : Z) (a : DigestApp) (rc : ReturnCode) : Prop :=
  match DigestDriver.digest_mode r2 with
  | None => rc = EINVAL
  | Some Sha256Hmac =>
      match input_buffer a with
      | None => rc = ENOMEM
      | Some key => (length key < HMAC_KEY_SIZE_BYTES)%nat ∧ rc = ESIZE
      end
  | Some _ => False
  end.

Lemma owner_kept P ev s rc s' : DigestDriver.current_user s = Some P → ¬ (∃ r2, ev = ECommand P COMMAND_FINALIZE r2) →
  apply_event ev s = Some (rc, s') → DigestDriver.current_user s' = Some P.
Proof.
  intros Hu Hf Er. destruct ev as [id n r2|id n b]; cbn in Er.
  - unfold DigestDriver.command, DigestDriver.enter, DigestDriver.command_initialize, DigestDriver.command_update,
      DigestDriver.command_finalize, DigestDriver.command_certificate_init, DigestDriver.owns in Er. rewrite Hu in Er.
    destruct (_ =? _); [by injection Er as <- <-|]. destruct (_ =? _); [destruct (DigestDriver.apps s id); by injection Er as <- <-|].
    destruct (_ =? _).
    { destruct (DigestDriver.apps s id) as [a|]; [|by injection Er as <- <-]. destruct (negb _); [by injection Er as <- <-|].
      destruct (input_buffer a); [|by injection Er as <- <-]. destruct (_ <? _); [by injection Er as <- <-|]. destruct (update _ _). by injection Er as <- <-. }
    destruct (Z.eqb_spec n COMMAND_FINALIZE) as [->|].
    { destruct (DigestDriver.apps s id); [|by injection Er as <- <-].
      rewrite bool_decide_eq_false_2 in Er by (intros [= ->]; by eauto). by injection Er as <- <-. }
    destruct (_ =? _); [by injection Er as <- <-|]. destruct (_ =? _); [destruct (DigestDriver.apps s id)|]; by injection Er as <- <-.
  - unfold DigestDriver.allow, DigestDriver.enter in Er. repeat destruct (_ =? _); try destruct (DigestDriver.apps s id); by injection Er as <- <-.
Qed.

Lemma run_owner P evs s s' : DigestDriver.current_user s = Some P → unfinished P evs → run_events evs s = Some s' →
  DigestDriver.current_user s' = Some P.
Proof.
  revert s. induction evs as [|ev evs IH]; intros s Hu Hf Hr; [by injection Hr as <-|]. apply Forall_cons in Hf as [Hev Hf].
  cbn [run_events] in Hr. destruct (apply_event ev s) as [[rc s1]|] eqn:Ev; [|done]. eapply IH; [by eapply owner_kept|done|exact Hr].
Qed.

(** A failed initialization locks the engine.  A process that asks for an unknown mode,
    or for an HMAC without a key of 32 bytes, gets an error and owns the engine all the
    same: until it calls finalize, whatever calls are made, every process is told that
    the engine is busy. *)
Theorem failed_init_locks_engine (P : AppId) (r2 : Z) (a : DigestApp) (rc : ReturnCode) s :
  DigestDriver.current_user s = None → DigestDriver.apps s P = Some a → refused r2 a rc →
  ∃ s1, DigestDriver.command COMMAND_INITIALIZE r2 P s = Some (rc, s1) ∧
    ∀ evs s2, unfinished P evs → run_events evs s1 = Some s2 →
      ∀ Q r2', is_Some (DigestDriver.apps s2 Q) → DigestDriver.command COMMAND_INITIALIZE r2' Q s2 = Some (EBUSY, s2).
Proof.
  intros Hu Ha Hr.
  assert (∃ s1, DigestDriver.command COMMAND_INITIALIZE r2 P s = Some (rc, s1) ∧ DigestDriver.current_user s1 = Some P) as (s1 & E1 & Hu1).
  { change (DigestDriver.command COMMAND_INITIALIZE r2 P s) with (DigestDriver.enter P (λ a s, Some (DigestDriver.command_initialize r2 P a s)) s).
    unfold DigestDriver.enter, DigestDriver.command_initialize. rewrite Ha, Hu. unfold refused in Hr.
    destruct (DigestDriver.digest_mode r2) as [[]|]; [done|done| |subst; by eauto].
    destruct (input_buffer a) as [key|]; [|subst; by eauto]. destruct Hr as [Hl ->].
    pose proof (initialize_hmac_law key (DigestDriver.engine (DigestDriver.set_current_user (Some P) s))) as Hl'.
    rewrite (proj2 (Nat.ltb_lt _ _)) in Hl' by lia. destruct Hl' as (e' & ->). by eauto. }
  exists s1. split; [done|]. intros evs s2 Hf Hr2 Q r2' [b Hb]. pose proof (run_owner P evs s1 s2 Hu1 Hf Hr2) as Hu2.
  change (DigestDriver.command COMMAND_INITIALIZE r2' Q s2) with (DigestDriver.enter Q (λ a s, Some (DigestDriver.command_initialize r2' Q a s)) s2).
  unfold DigestDriver.enter, DigestDriver.command_initialize. by rewrite Hb, Hu2.
Qed.
End Isolation.

(** A certificate computation works only after an ordinary one.  Its start does not set
    the mode of the engine: the first update is refused with [ERESERVE] when no digest
    has been computed since boot, and otherwise the size of the result is that of the
    mode used last. *)
Theorem certificate_uses_stale_mode (compute : Z → Z → list Z → list Z → list Z) (delay : list Z → nat)
    (P : AppId) (cert n : Z) (a : DigestApp) (input : list Z) (s : DigestDriver.t ShaEngine.t) :
  DigestDriver.current_user s = None → DigestDriver.apps s P = Some a → input_buffer a = Some input →
  0 <= n <= Z.of_nat (length input) →
  let _ := ShaEngine.engine compute delay in
  ∃ s1 rc s2, DigestDriver.command COMMAND_CERTIFICATE_INIT cert P s = Some (SUCCESS, s1) ∧
    DigestDriver.command COMMAND_UPDATE n P s1 = Some (rc, s2) ∧
    ShaEngine.current_mode (DigestDriver.engine s2) = ShaEngine.current_mode (DigestDriver.engine s) ∧
    match ShaEngine.current_mode (DigestDriver.engine s) with
    | None => rc = ERESERVE
    | Some _ => rc = SUCCESS
    end.
Proof.
  intros Hu Ha Hi Hn EN.
  set (s1 := DigestDriver.set_engine (snd (ShaEngine.initialize_certificate_ delay (u32 cert) (DigestDriver.engine s)))
               (DigestDriver.set_current_user (Some P) s)).
  exists s1. assert (DigestDriver.command COMMAND_CERTIFICATE_INIT cert P s = Some (SUCCESS, s1)) as ->.
  { change (DigestDriver.command COMMAND_CERTIFICATE_INIT cert P s) with
      (DigestDriver.enter P (λ a s, Some (DigestDriver.command_certificate_init cert P a s)) s).
    unfold DigestDriver.enter, DigestDriver.command_certificate_init. rewrite Ha, Hu, Hi. reflexivity. }
  change (DigestDriver.command COMMAND_UPDATE n P s1) with (DigestDriver.enter P (λ a s, Some (DigestDriver.command_update n P a s)) s1).
  unfold DigestDriver.enter, DigestDriver.command_update, DigestDriver.owns. change (DigestDriver.apps s1 P) with (DigestDriver.apps s P).
  rewrite Ha, Hi, bool_decide_eq_true_2 by done. cbn [negb]. rewrite (proj2 (Z.ltb_ge _ _)) by lia.
  cbn [update EN ShaEngine.engine]. unfold ShaEngine.update_. change (ShaEngine.current_mode (DigestDriver.engine s1)) with (ShaEngine.current_mode (DigestDriver.engine s)).
  destruct (ShaEngine.current_mode (DigestDriver.engine s)) eqn:Hm; eexists _, _; split_and!; [reflexivity..|done|reflexivity|reflexivity|done|done].
Qed.

(** ** Witnesses *)

(** A hardware that counts the bytes. *)
Definition count_compute (cfg cert : Z) (key msg : list Z) : list Z := replicate 8 (Z.of_nat (length msg)).

Lemma length_count_compute cfg cert key msg : length (count_compute cfg cert key msg) = 8%nat.
Proof. done. Qed.

Definition sha_boot : DigestDriver.t ShaEngine.t :=
  DigestDriver.new (ShaEngine.new (mk_Sha 0 0 (replicate 8 0) (replicate 8 0) 0 false [] None))
    (λ _, Some (mk_DigestApp (Some [1; 2; 3]) (Some (replicate 33 9)))).

Definition sha_counter : DigestEngine ShaEngine.t := ShaEngine.engine count_compute (λ _, 5%nat).

(** Process 0 hashes two and then three bytes, while process 1 tries to interfere. *)
Lemma digest_isolated_witness :
  let _ := sha_counter in
  let _ := sha_laws count_compute (λ _, 5%nat) length_count_compute in
  let evs := [ECommand 0%nat COMMAND_UPDATE 2; ECommand 1%nat COMMAND_INITIALIZE 0; ECommand 1%nat COMMAND_UPDATE 3;
              ECommand 1%nat COMMAND_FINALIZE 0; ECommand 0%nat COMMAND_UPDATE 3] in
  ∃ c s1 s2 s3, DigestDriver.command COMMAND_INITIALIZE 1 0%nat sha_boot = Some (SUCCESS, s1) ∧ run_events evs s1 = Some s2 ∧
    DigestDriver.command COMMAND_FINALIZE 0 0%nat s2 = Some (SUCCESS, s3) ∧
    (DigestDriver.apps s3 0%nat ≫= output_buffer) = Some (digest_of c [1; 2; 1; 2; 3] ++ [9]).
Proof.
  intros EN EL evs.
  destruct (digest_isolated 0%nat 1 (mk_DigestApp (Some [1; 2; 3]) (Some (replicate 33 9))) Sha256 sha_boot) as (c & s1 & E1 & Hc & Hall);
    [reflexivity|reflexivity|split; [reflexivity|discriminate]|].
  specialize (Hall evs). destruct (fed 0%nat evs _) as [a' msg] eqn:Hfed.
  destruct Hall as (s2 & E2 & _ & Hfin); [unfold unfinished; by_compute|]. injection Hfed as <- <-.
  destruct (Hfin _ eq_refl) as (rc & s3 & E3 & _ & Hrc). rewrite decide_False in Hrc by (vm_compute; lia). destruct Hrc as [-> Ho].
  exists c, s1, s2, s3. split_and!; [exact E1|exact E2|exact E3|exact Ho].
Defined.

(** Process 0 asks for mode 7; process 1 finds the engine busy. *)
Lemma failed_init_locks_engine_witness :
  let _ := sha_counter in
  ∃ s1, DigestDriver.command COMMAND_INITIALIZE 7 0%nat sha_boot = Some (EINVAL, s1) ∧
    DigestDriver.command COMMAND_INITIALIZE 1 1%nat s1 = Some (EBUSY, s1).
Proof.
  intros EN.
  destruct (@failed_init_locks_engine ShaEngine.t sha_counter (sha_laws count_compute (λ _, 5%nat) length_count_compute) 0%nat 7
    (mk_DigestApp (Some [1; 2; 3]) (Some (replicate 33 9))) EINVAL sha_boot) as (s1 & E1 & Hall); [reflexivity..|].
  exists s1. split; [exact E1|]. apply (Hall [] s1); [constructor|reflexivity|]. injection E1 as <-. by eexists.
Defined.

Lemma certificate_uses_stale_mode_witness :
  let _ := sha_counter in
  ∃ s1 s2, DigestDriver.command COMMAND_CERTIFICATE_INIT 3 0%nat sha_boot = Some (SUCCESS, s1) ∧
    DigestDriver.command COMMAND_UPDATE 2 0%nat s1 = Some (ERESERVE, s2).
Proof.
  intros EN.
  destruct (certificate_uses_stale_mode count_compute (λ _, 5%nat) 0%nat 3 2 (mk_DigestApp (Some [1; 2; 3]) (Some (replicate 33 9))) [1; 2; 3] sha_boot)
    as (s1 & rc & s2 & E1 & E2 & _ & Hrc); [reflexivity..|cbn; lia|]. cbn in Hrc. subst rc. by exists s1, s2.
Defined.
