(* ===== verification/Info.v ===== *)
(** What the chip tells the application: the power-management unit
    (kernel/h1/src/pmu.rs), the fuses (fuse.rs), the system calls that report the reset
    source, the device id and the firmware segments (kernel/h1_syscalls/src/reset.rs,
    fuse.rs, globalsec.rs), and otpilot's clients of them
    (userspace/otpilot/src/reset.rs, fuse.rs, globalsec.rs).

    A computation that does not return (a reset of the chip) is [None]. *)

From S2P Require Import Prelude Io Wire FlashProto FirmwareProto Tock FlashSyscalls GlobalSec.
From Stdlib Require Import ZArith Lia.
From stdpp Require Import base decidable option list list_numbers.

#[local] Open Scope Z_scope.

(** ** Power management *)

Inductive PeripheralClock0 :=
| Camo0 | Crypto0 | Dma0 | Flash0 | Fuse0 | GlobalSec_ | GlobalSecTimer | GlobalSecHs | Gpio0 | Gpio1 | I2C0 | I2C1 | I2CS0
| KeyMgr0 | PeriAPB0 | PeriAPB1 | PeriAPB2 | PeriAPB2Timer | PeriAPB3 | PeriAPB3Timer | PeriAPB3HS | PinMux | Pmu_ | RBox0
| Rdd0 | Rtc0 | Rtc0Timer | Spi0Hs | Spi1Hs | Sps0 | Sps0TimerHs | Swdp0 | Temp0.

Inductive PeripheralClock1 :=
| TimeHs0Timer | TimeHs1Timer | TimeLs0 | TimeUs0Timer | Trng0 | Uart0Timer | Uart1Timer | Uart2Timer | Usb0 | Usb0TimerHs
| Volt0 | Watchdog0 | Xo0 | Xo0Timer | PeripheralMasterMatrix | PeripheralMatrix.

Inductive PeripheralClock := Bank0 (c : PeripheralClock0) | Bank1 (c : PeripheralClock1).

#[global] Instance PeripheralClock0_eq_dec : EqDecision PeripheralClock0.
Proof. solve_decision. Defined.
#[global] Instance PeripheralClock1_eq_dec : EqDecision PeripheralClock1.
Proof. solve_decision. Defined.

(** The variants in the order of their discriminants. *)
Definition clocks0 : list PeripheralClock0 :=
  [Camo0; Crypto0; Dma0; Flash0; Fuse0; GlobalSec_; GlobalSecTimer; GlobalSecHs; Gpio0; Gpio1; I2C0; I2C1; I2CS0;
   KeyMgr0; PeriAPB0; PeriAPB1; PeriAPB2; PeriAPB2Timer; PeriAPB3; PeriAPB3Timer; PeriAPB3HS; PinMux; Pmu_; RBox0;
   Rdd0; Rtc0; Rtc0Timer; Spi0Hs; Spi1Hs; Sps0; Sps0TimerHs; Swdp0; Temp0].

Definition clocks1 : list PeripheralClock1 :=
  [TimeHs0Timer; TimeHs1Timer; TimeLs0; TimeUs0Timer; Trng0; Uart0Timer; Uart1Timer; Uart2Timer; Usb0; Usb0TimerHs;
   Volt0; Watchdog0; Xo0; Xo0Timer; PeripheralMasterMatrix; PeripheralMatrix].

Definition clock0_u32 (c : PeripheralClock0) : Z := default 0 (Z.of_nat ∘ fst <$> list_find (λ x, x = c) clocks0).
Definition clock1_u32 (c : PeripheralClock1) : Z := default 0 (Z.of_nat ∘ fst <$> list_find (λ x, x = c) clocks1).

Inductive PmuReg :=
| pmu_reset | clear_reset | reset_source_reg | global_reset | reset0
| peripheral_clocks0_enable | peripheral_clocks0_disable | peripheral_clocks1_enable | peripheral_clocks1_disable.

#[global] Instance PmuReg_eq_dec : EqDecision PmuReg.
Proof. solve_decision. Defined.

(** [1 << n] on [u32] in the release build: the shift is taken modulo 32. *)
Definition shl1 (n : Z) : Z := Z.shiftl 1 (n mod 32).

Module Pmu.

(** The values of the registers and the writes to them, the last one at the end. *)
Record t := mk { regs : PmuReg → Z; writes : list (PmuReg * Z) }.

Definition write (r : PmuReg) (v : Z) (s : t) : t :=
  mk (λ x, if decide (x = r) then v else regs s x) (writes s ++ [(r, v)]).

(** [Clock::enable] and [Clock::disable] *)
Definition enable (c : PeripheralClock) : t → t :=
  match c with
  | Bank0 c => write peripheral_clocks0_enable (shl1 (clock0_u32 c))
  | Bank1 c => write peripheral_clocks1_enable (shl1 (clock1_u32 c))
  end.

Definition disable (c : PeripheralClock) : t → t :=
  match c with
  | Bank0 c => write peripheral_clocks0_disable (shl1 (clock0_u32 c))
  | Bank1 c => write peripheral_clocks1_disable (shl1 (clock1_u32 c))
  end.

Definition reset_dcrypto (s : t) : t := write pmu_reset (Z.land (regs s reset0) (Z.lnot 0x2)) s.

End Pmu.

Definition GLOBAL_RESET_KEY : Z := 0x7041776.

Module ResetImpl.

(** [reset_source]: the byte that [init] has read. *)
Record t := mk { reset_source : Z; pmu : Pmu.t }.

Definition new (p : Pmu.t) : t := mk 0 p.

Definition init (s : t) : t :=
  mk (Z.land (Pmu.regs (pmu s) reset_source_reg) 0xff) (Pmu.write clear_reset 1 (pmu s)).

(** The write that resets the chip; it does not return. *)
Definition reset_chip (s : t) : t := mk (reset_source s) (Pmu.write global_reset GLOBAL_RESET_KEY (pmu s)).

Definition get_reset_source (s : t) : ResetSource :=
  let bit m := negb (Z.land (reset_source s) m =? 0) in
  mk_ResetSource (bit 0x1) (bit 0x2) (bit 0x4) (bit 0x8) (bit 0x10) (bit 0x20) (bit 0x40) (bit 0x80).

End ResetImpl.

(** ** Fuses *)

Record FuseRegisters := mk_FuseRegisters { dev_id0 : Z; dev_id1 : Z }.

Definition get_dev_id (r : FuseRegisters) : Z := Z.lor (Z.shiftl (dev_id0 r) 32) (dev_id1 r).

(** ** System calls *)

(** The grant holds one buffer per process; the three drivers have the same shape. *)
Record InfoCapsule (D : Type) := mk_Info {
  info_device : D;
  info_apps : AppId → option (option (list Z));
  info_user : option AppId
}.
Arguments mk_Info {D}.
Arguments info_device {D}.
Arguments info_apps {D}.
Arguments info_user {D}.

Section Capsules.
Context {D : Type}.
Implicit Types s : InfoCapsule D.

Definition set_info_device (d : D) s : InfoCapsule D := mk_Info d (info_apps s) (info_user s).
Definition set_info_buffer (id : AppId) (b : option (list Z)) s : InfoCapsule D :=
  mk_Info (info_device s) (λ i, if decide (i = id) then Some b else info_apps s i) (info_user s).

(** [if self.current_user.get() == None { self.current_user.set(Some(caller_id)); }] *)
Definition note_user (id : AppId) s : InfoCapsule D :=
  mk_Info (info_device s) (info_apps s) (match info_user s with None => Some id | u => u end).

(** [self.apps.enter(caller_id, ..)]: the answer is put into the buffer, if there is
    one. *)
Definition answer_with (fill : D → list Z → bool * list Z) (id : AppId) s : ReturnCode * InfoCapsule D :=
  match info_apps s id with
  | None => (ENOMEM, s)
  | Some None => (SUCCESS, s)
  | Some (Some buffer) =>
      let '(ok, buffer') := fill (info_device s) buffer in
      (if ok : bool then SUCCESS else ENOMEM, set_info_buffer id (Some buffer') s)
  end.

Definition info_allow (id : AppId) (minor_num : Z) (slice : option (list Z)) s : ReturnCode * InfoCapsule D :=
  if minor_num =? 0 then
    match info_apps s id with
    | None => (FAIL, s)
    | Some _ => (SUCCESS, set_info_buffer id slice s)
    end
  else (ENOSUPPORT, s).
End Capsules.

(** [x.to_wire(Cursor::new(buffer))] *)
Definition serialize_into {T} `{ToWire T} (x : T) (buffer : list Z) : bool * list Z :=
  match to_wire x (Cursor.new buffer) with
  | (Ok _, c) => (true, Cursor.buf c)
  | (_, c) => (false, Cursor.buf c)
  end.

Definition reset_get_source (id : AppId) (s : InfoCapsule ResetImpl.t) : ReturnCode * InfoCapsule ResetImpl.t :=
  answer_with (λ d, serialize_into (ResetImpl.get_reset_source d)) id s.

Definition reset_command (command_num : Z) (id : AppId) (s : InfoCapsule ResetImpl.t) :
    option ReturnCode * InfoCapsule ResetImpl.t :=
  let s := note_user id s in
  if command_num =? 0 then (Some SUCCESS, s)
  else if command_num =? 1 then (None, set_info_device (ResetImpl.reset_chip (info_device s)) s)
  else if command_num =? 2 then let '(rc, s) := reset_get_source id s in (Some rc, s)
  else (Some ENOSUPPORT, s).

Definition globalsec_get_info (id : AppId) (s : InfoCapsule GlobalSecHardware.t) : ReturnCode * InfoCapsule GlobalSecHardware.t :=
  answer_with (λ d, serialize_into (GlobalSecHardware.get_runtime_segment_info d)) id s.

Definition globalsec_command (command_num : Z) (id : AppId) (s : InfoCapsule GlobalSecHardware.t) :
    option ReturnCode * InfoCapsule GlobalSecHardware.t :=
  let s := note_user id s in
  if command_num =? 0 then (Some SUCCESS, s)
  else if command_num =? 1 then let '(rc, s) := globalsec_get_info id s in (Some rc, s)
  else (Some ENOSUPPORT, s).

(** The loop over [dev_id.to_be_bytes()]: it stops at the end of the buffer. *)
Definition put_dev_id (r : FuseRegisters) (buffer : list Z) : bool * list Z :=
  let bytes := be_bytes 8 (get_dev_id r) in
  let n := Nat.min 8 (length buffer) in
  ((8 <=? length buffer)%nat, take n bytes ++ drop n buffer).

Definition fuse_command (command_num : Z) (id : AppId) (s : InfoCapsule FuseRegisters) : option ReturnCode * InfoCapsule FuseRegisters :=
  let s := note_user id s in
  if command_num =? 0 then (Some SUCCESS, s)
  else if command_num =? 1 then let '(rc, s) := answer_with put_dev_id id s in (Some rc, s)
  else (Some ENOSUPPORT, s).

(** ** Otpilot's clients *)

Inductive InfoError := KernelError (rc : ReturnCode) | Format.

(** The system calls of one driver, made by process [id]. *)
Section Clients.
Context {D : Type} (command : Z → AppId → InfoCapsule D → option ReturnCode * InfoCapsule D) (id : AppId).

Definition is_error (rc : ReturnCode) : bool := match rc with SUCCESS | SuccessWithValue _ => false | _ => true end.

(** [allow] of a zeroed buffer, the command, and the end of the sharing. *)
Definition query (command_num : Z) (len : nat) (s : InfoCapsule D) : option ((InfoError + list Z) * InfoCapsule D) :=
  let '(rc, s) := info_allow id 0 (Some (replicate len 0)) s in
  if is_error rc then Some (inl (KernelError rc), s)
  else
    match command command_num id s with
    | (None, _) => None
    | (Some rc, s) =>
        let buffer := default [] (mjoin (info_apps s id)) in
        let s := set_info_buffer id None s in
        Some (if is_error rc then inl (KernelError rc) else inr buffer, s)
    end.

(** [T::from_wire(buffer.as_ref())] *)
Definition parsed {T} `{FromWire T} (r : InfoError + list Z) : InfoError + T :=
  match r with
  | inl e => inl e
  | inr buffer => match from_wire T buffer with (Ok x, _) => inr x | _ => inl Format end
  end.
End Clients.

Definition otpilot_get_reset_source (id : AppId) (s : InfoCapsule ResetImpl.t) : option ((InfoError + ResetSource) * InfoCapsule ResetImpl.t) :=
  '(r, s) ← query reset_command id 2 RESET_SOURCE_LEN s; Some (parsed r, s).

Definition otpilot_get_runtime_segment_info (id : AppId) (s : InfoCapsule GlobalSecHardware.t) :
    option ((InfoError + RuntimeSegmentInfo) * InfoCapsule GlobalSecHardware.t) :=
  '(r, s) ← query globalsec_command id 1 RUNTIME_SEGMENT_INFO_LEN s; Some (parsed r, s).

Definition otpilot_get_dev_id (id : AppId) (s : InfoCapsule FuseRegisters) : option ((InfoError + Z) * InfoCapsule FuseRegisters) :=
  '(r, s) ← query fuse_command id 1 8 s;
  Some (match r with inl e => inl e | inr b => inr (be_value b) end, s).

(** [reset]: the call, and a panic should it return. *)
Definition otpilot_reset (id : AppId) (s : InfoCapsule ResetImpl.t) : option (outcome InfoError unit * InfoCapsule ResetImpl.t) :=
  match reset_command 1 id s with
  | (None, _) => None
  | (Some rc, s) => Some (if is_error rc then Err (KernelError rc) else Panic, s)
  end.

(** ** Facts *)

Section Wired.
Context {T : Type} `{WireLaws T}.

Lemma serialize_ok (x : T) buffer : valid x → Z.of_nat (length buffer) < 2 ^ 32 → (length (encode x) <= length buffer)%nat →
  ∃ b, serialize_into x buffer = (true, b) ∧ (from_wire T b).1 = Ok x.
Proof.
  intros Hv Hb Hl. destruct (to_wire_emits Cursor.t x Hv (Cursor.new buffer)) as [He _]; [split; cbn; lia|].
  destruct He as (c & E & [Hc _] & Ho & _); [cbn; lia|]. unfold serialize_into. rewrite E. exists (Cursor.buf c). split; [done|].
  destruct (from_wire_parses (list Z) x Hv (Cursor.buf c) (drop (Cursor.cursor c) (Cursor.buf c))) as (r' & Er & _).
  - cbn [rd_view slice_ReadLaws]. unfold id. transitivity (Cursor.consumed_bytes c ++ drop (Cursor.cursor c) (Cursor.buf c)).
    + unfold Cursor.consumed_bytes. by rewrite take_drop.
    + f_equal. change (Cursor.consumed_bytes c) with (wr_out c). by rewrite Ho.
  - by rewrite Er.
Qed.
End Wired.

Lemma query_ok {D} (command : Z → AppId → InfoCapsule D → option ReturnCode * InfoCapsule D) fill id n len (s : InfoCapsule D) b :
  is_Some (info_apps s id) → (∀ s, command n id s = let '(rc, s) := answer_with fill id (note_user id s) in (Some rc, s)) →
  fill (info_device s) (replicate len 0) = (true, b) →
  ∃ s', query command id n len s = Some (inr b, s') ∧ info_device s' = info_device s.
Proof.
  intros [o Ho] Hc Hf. unfold query, info_allow. rewrite Ho. cbn. rewrite Hc. unfold answer_with. cbn [note_user info_apps set_info_buffer info_device].
  rewrite decide_True by done. rewrite Hf. cbn. rewrite decide_True by done. cbn. by eexists.
Qed.

Lemma mask_bit w k : 0 <= k → negb (Z.land w (2 ^ k) =? 0) = Z.testbit w k.
Proof.
  intros Hk. destruct (Z.testbit w k) eqn:Hb.
  - destruct (Z.eqb_spec (Z.land w (2 ^ k)) 0) as [E|]; [|done]. exfalso.
    apply (f_equal (λ x, Z.testbit x k)) in E. by rewrite Z.land_spec, Hb, Z.pow2_bits_true, Z.bits_0 in E by lia.
  - rewrite (proj2 (Z.eqb_eq _ _)); [done|]. apply Z.bits_inj'. intros i Hi. rewrite Z.land_spec, Z.bits_0.
    destruct (decide (i = k)) as [->|Hne]; [by rewrite Hb|]. by rewrite (Z.pow2_bits_false k i), andb_false_r by lia.
Qed.

Lemma reset_source_bits (pmu : Pmu.t) :
  let v := Pmu.regs pmu reset_source_reg in
  ResetImpl.get_reset_source (ResetImpl.init (ResetImpl.new pmu)) =
    mk_ResetSource (Z.testbit v 0) (Z.testbit v 1) (Z.testbit v 2) (Z.testbit v 3)
      (Z.testbit v 4) (Z.testbit v 5) (Z.testbit v 6) (Z.testbit v 7).
Proof.
  intros v. unfold ResetImpl.get_reset_source. cbn [ResetImpl.init ResetImpl.new ResetImpl.reset_source ResetImpl.pmu]. fold v.
  change 0x1 with (2 ^ 0). change 0x2 with (2 ^ 1). change 0x4 with (2 ^ 2). change 0x8 with (2 ^ 3).
  change 0x10 with (2 ^ 4). change 0x20 with (2 ^ 5). change 0x40 with (2 ^ 6). change 0x80 with (2 ^ 7).
  rewrite !mask_bit by lia. rewrite !Z.land_spec. by rewrite !andb_true_r.
Qed.

Lemma dev_id_value r : fits 32 (dev_id0 r) → fits 32 (dev_id1 r) → get_dev_id r = 2 ^ 32 * dev_id0 r + dev_id1 r.
Proof.
  intros H0 H1. unfold get_dev_id. rewrite Z.shiftl_mul_pow2 by lia.
  rewrite BitBufFacts.lor_add_shift by (lia || exact H1). lia.
Qed.

Lemma length_rsi (x : RuntimeSegmentInfo) : length (encode x) = RUNTIME_SEGMENT_INFO_LEN.
Proof. reflexivity. Qed.

(** The application learns what the chip knows.  For a process with an entry in the
    grants, and whatever calls it and others made before: the reset source it is given
    has exactly the flags of the low byte that the power unit's register held when the
    kernel started; the segment information is the kernel's; and the device id is the
    number that the two fuse registers form. *)
Theorem device_info_reported (id : AppId) (pmu : Pmu.t) (gs : GlobalSecHardware.t) (fr : FuseRegisters) apps1 apps2 apps3 u1 u2 u3 :
  is_Some (apps1 id) → is_Some (apps2 id) → is_Some (apps3 id) →
  valid (GlobalSecHardware.get_runtime_segment_info gs) → fits 32 (dev_id0 fr) → fits 32 (dev_id1 fr) →
  let v := Pmu.regs pmu reset_source_reg in
  (∃ s', otpilot_get_reset_source id (mk_Info (ResetImpl.init (ResetImpl.new pmu)) apps1 u1) =
     Some (inr (mk_ResetSource (Z.testbit v 0) (Z.testbit v 1) (Z.testbit v 2) (Z.testbit v 3)
                  (Z.testbit v 4) (Z.testbit v 5) (Z.testbit v 6) (Z.testbit v 7)), s')) ∧
  (∃ s', otpilot_get_runtime_segment_info id (mk_Info gs apps2 u2) = Some (inr (GlobalSecHardware.get_runtime_segment_info gs), s')) ∧
  (∃ s', otpilot_get_dev_id id (mk_Info fr apps3 u3) = Some (inr (2 ^ 32 * dev_id0 fr + dev_id1 fr), s')).
Proof.
  intros H1 H2 H3 Hv Hd0 Hd1 v. split_and!.
  - destruct (serialize_ok (ResetImpl.get_reset_source (ResetImpl.init (ResetImpl.new pmu))) (replicate RESET_SOURCE_LEN 0)) as (b & Eb & Hb);
      [done|done|done|].
    destruct (query_ok reset_command (λ d, serialize_into (ResetImpl.get_reset_source d)) id 2 RESET_SOURCE_LEN
      (mk_Info (ResetImpl.init (ResetImpl.new pmu)) apps1 u1) b H1) as (s' & E & _); [done|exact Eb|].
    exists s'. unfold otpilot_get_reset_source. rewrite E. cbn [mbind option_bind]. unfold parsed.
    destruct (from_wire ResetSource b) as [r c]. cbn in Hb. subst r. by rewrite reset_source_bits.
  - destruct (serialize_ok (GlobalSecHardware.get_runtime_segment_info gs) (replicate RUNTIME_SEGMENT_INFO_LEN 0)) as (b & Eb & Hb);
      [done|done|by rewrite length_rsi, length_replicate|].
    destruct (query_ok globalsec_command (λ d, serialize_into (GlobalSecHardware.get_runtime_segment_info d)) id 1 RUNTIME_SEGMENT_INFO_LEN
      (mk_Info gs apps2 u2) b H2) as (s' & E & _); [done|exact Eb|].
    exists s'. unfold otpilot_get_runtime_segment_info. rewrite E. cbn [mbind option_bind]. unfold parsed.
    destruct (from_wire RuntimeSegmentInfo b) as [r c]. cbn in Hb. by subst r.
  - destruct (query_ok fuse_command put_dev_id id 1 8 (mk_Info fr apps3 u3) (be_bytes 8 (get_dev_id fr)) H3) as (s' & E & _); [done| |].
    + unfold put_dev_id. cbn [info_device]. rewrite length_replicate. cbn [Nat.min Nat.leb]. by rewrite drop_ge, app_nil_r, take_ge by done.
    + exists s'. unfold otpilot_get_dev_id. rewrite E. cbn [mbind option_bind]. rewrite dev_id_value by done. rewrite be_value_bytes.
      do 3 f_equal. apply Z.mod_small. unfold fits in *. cbn [Z.of_nat Pos.of_succ_nat]. lia.
Qed.

Lemma device_info_reported_witness :
  let pmu := Pmu.mk (λ r, if decide (r = reset_source_reg) then 0x121 else 0) [] in
  ∃ s', otpilot_get_reset_source 0%nat (mk_Info (ResetImpl.init (ResetImpl.new pmu)) (λ _, Some None) None) =
    Some (inr (mk_ResetSource true false false false false true false false), s').
Proof.
  intros pmu. destruct (device_info_reported 0%nat pmu (GlobalSecHardware.new GlobalSecFacts.sample_registers)
    (mk_FuseRegisters 1 2) (λ _, Some None) (λ _, Some None) (λ _, Some None) None None None) as [H _];
    [by eexists..|by_compute|by_compute|by_compute|exact H].
Defined.

(** ** Clocks *)

Lemma clocks0_all c : c ∈ clocks0.
Proof. destruct c; by_compute. Qed.

(** Each clock of bank 0 has a bit of its own, but for the last: there are 33 of them, so
    that enabling the temperature sensor's clock enables the first one. *)
Theorem temp_clock_aliases (c c' : PeripheralClock0) (s : Pmu.t) :
  Pmu.regs (Pmu.enable (Bank0 c) s) peripheral_clocks0_enable = Pmu.regs (Pmu.enable (Bank0 c') s) peripheral_clocks0_enable ↔
  c = c' ∨ (c = Temp0 ∧ c' = Camo0) ∨ (c = Camo0 ∧ c' = Temp0).
Proof.
  assert (Forall (λ c, Forall (λ c', shl1 (clock0_u32 c) = shl1 (clock0_u32 c') ↔
    c = c' ∨ (c = Temp0 ∧ c' = Camo0) ∨ (c = Camo0 ∧ c' = Temp0)) clocks0) clocks0) as Hall by by_compute.
  rewrite Forall_forall in Hall. specialize (Hall c (clocks0_all c)). rewrite Forall_forall in Hall. exact (Hall c' (clocks0_all c')).
Qed.
