(* ===== verification/Dcrypto.v ===== *)
(** The dcrypto coprocessor: its driver (kernel/h1/src/crypto/dcrypto.rs) and the system
    calls on it (kernel/h1_syscalls/src/dcrypto.rs).

    The program that runs on the coprocessor is not part of the repository: what it
    leaves in the data memory is arbitrary.  Its memories are the lists [dmem] and
    [imem]; a driver that has not been initialized does not reach them. *)

From S2P Require Import Prelude Io Tock Registers FlashSyscalls Info.
From Stdlib Require Import ZArith Lia.
From stdpp Require Import base decidable option list list_numbers.

#[local] Open Scope Z_scope.

Definition DROM_SIZE : nat := 1024.
Definition DMEM_SIZE : nat := 1024.
Definition IMEM_SIZE : nat := 1024.

Definition RAND_STALL_EN : Z := 0x1.
Definition RAND_STALL_FREQ_6 : Z := Z.shiftl 3 1.
Definition RAND_STALL_FREQ_MASK : Z := Z.lnot (Z.shiftl 0x3 1).

Inductive HwState := HwHalt | HwRun | HwBreak | HwWipe | HwUnknown.

Inductive DState := Uninitialized | Halt | Starting | Running | Break | Wiping.

#[global] Instance DState_eq_dec : EqDecision DState.
Proof. solve_decision. Defined.

Inductive ProgramFault :=
| FaultBreak | DataAccess | LoopOverflow | LoopUnderflow | ModOperandRange | StackOverflow | Fault | Trap | FaultUnknown.

#[global] Instance ProgramFault_eq_dec : EqDecision ProgramFault.
Proof. solve_decision. Defined.

Definition fault_usize (f : ProgramFault) : Z :=
  match f with
  | FaultBreak => 7 | DataAccess => 5 | LoopOverflow => 3 | LoopUnderflow => 4 | ModOperandRange => 11
  | StackOverflow => 2 | Fault => 10 | Trap => 8 | FaultUnknown => 12
  end.

Inductive InterruptFlag :=
| CommandReceive | CommandDone | PCStackOverflow | LoopStackOverflow | LoopStackUnderflow | DMemPointersOverflow
| DrfPointersOverflow | IfBreak | IfTrap | DoneWipeSecrets | IfProgramFault | OperandOutofRange.

Definition flag_u32 (f : InterruptFlag) : Z :=
  Z.shiftl 1 (match f with
  | CommandReceive => 0 | CommandDone => 1 | PCStackOverflow => 2 | LoopStackOverflow => 3 | LoopStackUnderflow => 4
  | DMemPointersOverflow => 5 | DrfPointersOverflow => 6 | IfBreak => 7 | IfTrap => 8 | DoneWipeSecrets => 9
  | IfProgramFault => 10 | OperandOutofRange => 11 end).

(** Calls to the client. *)
Inductive DcryptoCall := ExecutionComplete (error : ReturnCode) (fault : ProgramFault).

Inductive DReg := control | int_enable | int_state | host_cmd | status | rand_stall | wipe_secrets_reg.

#[global] Instance DReg_eq_dec : EqDecision DReg.
Proof. solve_decision. Defined.

Module DcryptoEngine.

(** [int_reads]: what the next reads of [int_state] find set again; [mapped]: the cells
    of the memories are filled. *)
Record t := mk {
  regs : DReg → Z;
  int_reads : list Z;
  client : bool;
  state : DState;
  mapped : bool;
  dmem : list Z;
  imem : list Z;
  pmu : Pmu.t
}.

Definition new (r : DReg → Z) (reads d i : list Z) (p : Pmu.t) : t := mk r reads false Uninitialized false d i p.

Definition set_reg (r : DReg) (v : Z) (s : t) : t :=
  mk (λ x, if decide (x = r) then v else regs s x) (int_reads s) (client s) (state s) (mapped s) (dmem s) (imem s) (pmu s).
Definition set_int_reads (l : list Z) (s : t) : t := mk (regs s) l (client s) (state s) (mapped s) (dmem s) (imem s) (pmu s).
Definition set_client (s : t) : t := mk (regs s) (int_reads s) true (state s) (mapped s) (dmem s) (imem s) (pmu s).
Definition set_state (x : DState) (s : t) : t := mk (regs s) (int_reads s) (client s) x (mapped s) (dmem s) (imem s) (pmu s).
Definition set_mapped (s : t) : t := mk (regs s) (int_reads s) (client s) (state s) true (dmem s) (imem s) (pmu s).
Definition set_dmem (l : list Z) (s : t) : t := mk (regs s) (int_reads s) (client s) (state s) (mapped s) l (imem s) (pmu s).
Definition set_imem (l : list Z) (s : t) : t := mk (regs s) (int_reads s) (client s) (state s) (mapped s) (dmem s) l (pmu s).
Definition set_pmu (p : Pmu.t) (s : t) : t := mk (regs s) (int_reads s) (client s) (state s) (mapped s) (dmem s) (imem s) p.

Definition write (r : DReg) (v : Z) : K t unit := modify (set_reg r v).

(** A write of ones to [int_state] clears them. *)
Definition clear_int (v : Z) : K t unit := modify (λ s, set_reg int_state (Z.land (regs s int_state) (Z.lnot v)) s).

Definition ENABLED_INTERRUPTS : Z :=
  foldl Z.lor 0 (flag_u32 <$> [CommandDone; DMemPointersOverflow; DrfPointersOverflow; LoopStackOverflow; LoopStackUnderflow;
                               OperandOutofRange; PCStackOverflow; IfProgramFault; IfTrap]).

Definition initialize : K t ReturnCode :=
  modify set_mapped ;;
  st ← gets state;
  if bool_decide (st ≠ Uninitialized) then mret EALREADY
  else
    modify (λ s, set_pmu (Pmu.reset_dcrypto (Pmu.enable (Bank0 Crypto0) (pmu s))) s) ;;
    stall ← gets (λ s, regs s rand_stall);
    let stall := Z.land stall (Z.lnot RAND_STALL_EN) in
    write rand_stall stall ;;
    let stall := Z.lor (Z.land stall RAND_STALL_FREQ_MASK) RAND_STALL_FREQ_6 in
    write rand_stall stall ;;
    write rand_stall (Z.lor stall RAND_STALL_EN) ;;
    modify (set_dmem (replicate DMEM_SIZE 0xdddddddd)) ;;
    modify (set_imem (replicate IMEM_SIZE 0xdddddddd)) ;;
    clear_int 0xffffffff ;;
    write int_enable ENABLED_INTERRUPTS ;;
    write control 1 ;;
    write control 0 ;;
    modify (set_state Halt) ;;
    mret SUCCESS.

Definition call (c : DcryptoCall) : K t (option DcryptoCall) := gets (λ s, if client s then Some c else None).

Definition cause_of (nvic : Z) : ProgramFault :=
  match nvic with
  | 1 => DataAccess | 3 => DataAccess | 6 => LoopOverflow | 7 => LoopUnderflow | 8 => ModOperandRange
  | 9 => StackOverflow | 10 => Fault | 11 => Trap | _ => FaultUnknown
  end.

Definition flag_of (nvic : Z) : option InterruptFlag :=
  match nvic with
  | 1 => Some DMemPointersOverflow | 3 => Some DrfPointersOverflow | 6 => Some LoopStackOverflow | 7 => Some LoopStackUnderflow
  | 8 => Some OperandOutofRange | 9 => Some PCStackOverflow | 10 => Some IfProgramFault | 11 => Some IfTrap | _ => None
  end.

Definition hw_state (v : Z) : HwState :=
  let x := Z.land v 0x3 in if x =? 0 then HwHalt else if x =? 1 then HwRun else if x =? 2 then HwBreak else if x =? 3 then HwWipe else HwUnknown.

Definition handle_error_interrupt (nvic : Z) : K t (option DcryptoCall) :=
  let cause := cause_of nvic in
  flag ← unwrap (flag_of nvic);
  clear_int (flag_u32 flag) ;;
  v ← gets (λ s, regs s status);
  let new_state := match hw_state v with HwBreak => Break | HwHalt => Halt | HwRun => Running | HwWipe => Wiping | HwUnknown => Uninitialized end in
  modify (set_state new_state) ;;
  if bool_decide (new_state ≠ Running) &&
     bool_decide (cause ∈ [DataAccess; LoopOverflow; LoopUnderflow; StackOverflow])
  then call (ExecutionComplete FAIL cause) else mret None.

Definition handle_receive_interrupt : K t unit :=
  st ← gets state;
  if bool_decide (st ≠ Starting) then panic
  else clear_int (flag_u32 CommandReceive) ;; modify (set_state Running).

Definition handle_done_interrupt : K t (option DcryptoCall) :=
  st ← gets state;
  match st with
  | Running | Break | Halt =>
      clear_int (flag_u32 CommandDone) ;;
      modify (set_state Halt) ;;
      call (ExecutionComplete SUCCESS (match st with Break => FaultBreak | _ => FaultUnknown end))
  | _ => panic
  end.

Definition handle_break_interrupt : K t unit := panic.
Definition handle_wipe_interrupt : K t unit := clear_int (flag_u32 DoneWipeSecrets).

(** The test at the start of the memory operations, for memories of 1024 words. *)
Definition out_of_range (data : list Z) (offset length_ : Z) : bool :=
  (1024 <? offset) || (1024 <? length_) || (1024 <? u32 (offset + length_)) || (u32 (Z.of_nat (length data)) <? length_).

(** [for i in 0..length { let index = i * 4; .. data[index + 3] .. }] *)
Definition in_data (data : list Z) (length_ : Z) : bool := 4 * length_ <=? Z.of_nat (length data).

Definition read_mem (mem : t → list Z) (data : list Z) (offset length_ : Z) : K t (ReturnCode * list Z) :=
  if out_of_range data offset length_ then mret (ESIZE, data)
  else
    here ← gets mapped;
    if here : bool then
      if in_data data length_ then
        m ← gets mem; mret (SUCCESS, copy_at data 0 (register_bytes (take (Z.to_nat length_) m)))
      else panic
    else mret (SUCCESS, data).

Definition write_mem (mem : t → list Z) (set_mem : list Z → t → t) (data : list Z) (offset length_ : Z) : K t ReturnCode :=
  if out_of_range data offset length_ then mret ESIZE
  else
    st ← gets state;
    if bool_decide (st ≠ Halt) then mret EBUSY
    else
      here ← gets mapped;
      (if here : bool then
         if in_data data length_ then
           modify (λ s, set_mem (copy_at (mem s) (Z.to_nat offset) (FlashSyscalls.app_words (Z.to_nat length_) data)) s)
         else panic
       else mret tt) ;;
      mret SUCCESS.

Definition read_data : list Z → Z → Z → K t (ReturnCode * list Z) := read_mem dmem.
Definition write_data : list Z → Z → Z → K t ReturnCode := write_mem dmem set_dmem.
Definition read_instructions : list Z → Z → Z → K t (ReturnCode * list Z) := read_mem imem.
Definition write_instructions : list Z → Z → Z → K t ReturnCode := write_mem imem set_imem.

(** [while { int_state.set(0xffffffff); int_state.get() & 0x3 != 0 } {}] *)
Fixpoint wait_clear (reads : list Z) : list Z :=
  match reads with
  | [] => []
  | v :: reads' => if Z.land v 0x3 =? 0 then reads' else wait_clear reads'
  end.

Definition execute_instruction (instruction : Z) (is_call : bool) : K t ReturnCode :=
  st ← gets state;
  if bool_decide (st ≠ Halt) then mret EBUSY
  else
    clear_int 0xffffffff ;;
    modify (λ s, set_int_reads (wait_clear (int_reads s)) s) ;;
    write host_cmd instruction ;;
    (if is_call then modify (set_state Running) else mret tt) ;;
    mret SUCCESS.

Definition call_imem (address : Z) : K t ReturnCode :=
  if Z.of_nat (IMEM_SIZE - 4) <? address then mret ESIZE
  else execute_instruction (u32 (0x08000000 + address)) true.

Definition reset : K t ReturnCode := mret FAIL.

Definition wipe_secrets : K t ReturnCode :=
  modify (set_state Wiping) ;; write wipe_secrets_reg 0 ;; mret SUCCESS.

End DcryptoEngine.

(** ** System calls *)

(** One for all processes; a callback knows its process. *)
Record DcryptoApp := mk_DcryptoApp {
  program : option (list Z);
  data_buffer : option (list Z);
  callback : option (AppId * nat)
}.

Definition DcryptoApp_default : DcryptoApp := mk_DcryptoApp None None None.

Record DcryptoUpcall := mk_DcryptoUpcall { du_callback : AppId * nat; du_error : ReturnCode; du_fault : Z }.

Module DcryptoDriver.

Record t := mk {
  device : DcryptoEngine.t;
  app : DcryptoApp;
  busy : bool;
  upcalls : list DcryptoUpcall
}.

Definition new (d : DcryptoEngine.t) : t := mk d DcryptoApp_default false [].

Definition set_device (d : DcryptoEngine.t) (s : t) : t := mk d (app s) (busy s) (upcalls s).
Definition set_app (a : DcryptoApp) (s : t) : t := mk (device s) a (busy s) (upcalls s).
Definition set_busy (b : bool) (s : t) : t := mk (device s) (app s) b (upcalls s).
Definition schedule (u : DcryptoUpcall) (s : t) : t := mk (device s) (app s) (busy s) (upcalls s ++ [u]).

Definition on_device {A} (m : K DcryptoEngine.t A) : K t A := zoom device set_device m.

Definition run_program (instruction : Z) : K t ReturnCode :=
  a ← gets app;
  match data_buffer a, program a with
  | Some data, Some prog =>
      let data_len := Z.of_nat (length data / 4) in
      let program_len := Z.of_nat (length prog / 4) in
      rval ← on_device (DcryptoEngine.write_data data 0 data_len);
      rval ← (if bool_decide (rval = SUCCESS) then on_device (DcryptoEngine.write_instructions prog 0 program_len) else mret rval);
      if bool_decide (rval ≠ SUCCESS) then mret rval
      else on_device (DcryptoEngine.call_imem instruction)
  | _, _ => mret ENOMEM
  end.

Definition subscribe (subscribe_num : Z) (cb : option nat) (id : AppId) : K t ReturnCode :=
  if subscribe_num =? 0 then
    modify (λ s, set_app (mk_DcryptoApp (program (app s)) (data_buffer (app s)) (pair id <$> cb)) s) ;; mret SUCCESS
  else mret ENOSUPPORT.

Definition command (command_num instruction : Z) (id : AppId) : K t ReturnCode :=
  if command_num =? 0 then mret SUCCESS
  else if command_num =? 1 then
    b ← gets busy;
    if b : bool then mret EBUSY
    else modify (set_busy true) ;; run_program (u32 instruction)
  else mret ENOSUPPORT.

Definition allow (id : AppId) (minor_num : Z) (slice : option (list Z)) : K t ReturnCode :=
  if minor_num =? 0 then modify (λ s, set_app (mk_DcryptoApp (program (app s)) slice (callback (app s))) s) ;; mret SUCCESS
  else if minor_num =? 1 then modify (λ s, set_app (mk_DcryptoApp slice (data_buffer (app s)) (callback (app s))) s) ;; mret SUCCESS
  else mret ENOSUPPORT.

Definition execution_complete (error : ReturnCode) (fault : ProgramFault) : K t unit :=
  modify (set_busy false) ;;
  a ← gets app;
  match callback a with
  | Some cb =>
      data ← unwrap (data_buffer a);
      r ← on_device (DcryptoEngine.read_data data 0 (Z.of_nat (length data / 4)));
      modify (schedule (mk_DcryptoUpcall cb error (fault_usize fault))) ;;
      modify (set_app (mk_DcryptoApp (program a) (Some r.2) (callback a)))
  | None => mret tt
  end.

(** An interrupt of the coprocessor, and what it calls. *)
Definition interrupt (handler : K DcryptoEngine.t (option DcryptoCall)) : K t unit :=
  o ← on_device handler;
  match o with
  | Some (ExecutionComplete error fault) => execution_complete error fault
  | None => mret tt
  end.

End DcryptoDriver.

(** ** Facts *)

Module DcryptoFacts.
Import DcryptoDriver.

Lemma in_range {data : list Z} : (length data <= 4096)%nat → DcryptoEngine.out_of_range data 0 (Z.of_nat (length data / 4)) = false.
Proof.
  intros H. assert (length data / 4 <= 1024)%nat by (apply Nat.Div0.div_le_upper_bound; lia).
  assert (length data / 4 <= length data)%nat by (apply Nat.Div0.div_le_upper_bound; lia).
  unfold DcryptoEngine.out_of_range, u32, wrap. rewrite !Z.mod_small by lia.
  repeat rewrite (proj2 (Z.ltb_ge _ _)) by lia. done.
Qed.

Lemma in_data_whole (data : list Z) : DcryptoEngine.in_data data (Z.of_nat (length data / 4)) = true.
Proof. apply Z.leb_le. pose proof (Nat.Div0.mul_div_le (length data) 4). lia. Qed.

Lemma write_mem_ok mem set_mem (data : list Z) s :
  (length data <= 4096)%nat → DcryptoEngine.state s = Halt → DcryptoEngine.mapped s = true →
  DcryptoEngine.write_mem mem set_mem data 0 (Z.of_nat (length data / 4)) s =
    (Ok SUCCESS, set_mem (copy_at (mem s) 0 (FlashSyscalls.app_words (length data / 4) data)) s).
Proof.
  intros Hl Hs Hm. unfold DcryptoEngine.write_mem. rewrite in_range by done. run. rewrite bool_decide_eq_false_2 by tauto.
  run. rewrite Hm, in_data_whole. run. by rewrite Nat2Z.id.
Qed.

Lemma read_mem_ok mem (data : list Z) s :
  (length data <= 4096)%nat → DcryptoEngine.mapped s = true →
  DcryptoEngine.read_mem mem data 0 (Z.of_nat (length data / 4)) s =
    (Ok (SUCCESS, copy_at data 0 (register_bytes (take (length data / 4) (mem s)))), s).
Proof.
  intros Hl Hm. unfold DcryptoEngine.read_mem. rewrite in_range by done. run. rewrite Hm, in_data_whole. run. by rewrite Nat2Z.id.
Qed.

Lemma copy_words (dst data : list Z) n :
  copy_at dst 0 (FlashSyscalls.app_words n data) = FlashSyscalls.app_words n data ++ drop n dst.
Proof. unfold copy_at. by rewrite FlashSyscallFacts.length_app_words. Qed.

Lemma on_device_ok {A} (m : K DcryptoEngine.t A) s a d :
  m (device s) = (Ok a, d) → on_device m s = (Ok a, set_device d s).
Proof. intros E. unfold on_device, zoom. by rewrite E. Qed.

(** A driver that is ready for a program: nothing runs, and the process has shared both
    buffers and subscribed. *)
Definition ready (prog data : list Z) (cb : AppId * nat) (s : t) : Prop :=
  busy s = false ∧ app s = mk_DcryptoApp (Some prog) (Some data) (Some cb) ∧
  DcryptoEngine.state (device s) = Halt ∧ DcryptoEngine.mapped (device s) = true ∧ DcryptoEngine.client (device s) = true.

(** The state after the command that runs [prog] on [data]. *)
Definition started (prog data : list Z) (address : Z) (s : t) : t :=
  let d := device s in
  let d := DcryptoEngine.set_dmem (copy_at (DcryptoEngine.dmem d) 0 (FlashSyscalls.app_words (length data / 4) data)) d in
  let d := DcryptoEngine.set_imem (copy_at (DcryptoEngine.imem d) 0 (FlashSyscalls.app_words (length prog / 4) prog)) d in
  let d := DcryptoEngine.set_reg int_state (Z.land (DcryptoEngine.regs d int_state) (Z.lnot 0xffffffff)) d in
  let d := DcryptoEngine.set_int_reads (DcryptoEngine.wait_clear (DcryptoEngine.int_reads d)) d in
  let d := DcryptoEngine.set_reg host_cmd (0x08000000 + address) d in
  mk (DcryptoEngine.set_state Running d) (app s) true (upcalls s).

Lemma run_starts prog data cb address id s :
  ready prog data cb s → (length prog <= 4096)%nat → (length data <= 4096)%nat → 0 <= address <= 1020 →
  command 1 address id s = (Ok SUCCESS, started prog data address s).
Proof.
  intros (Hb & Ha & Hs & Hm & Hc) Hp Hd Hr. unfold command. cbn [Z.eqb Pos.eqb]. run. rewrite Hb. run.
  unfold run_program. run. cbn [app set_busy]. rewrite Ha. cbn [data_buffer program].
  unfold DcryptoEngine.write_data, DcryptoEngine.write_instructions.
  erewrite bind_ok by (apply on_device_ok, write_mem_ok; done).
  rewrite bool_decide_eq_true_2 by done.
  erewrite bind_ok by (apply on_device_ok, write_mem_ok; done).
  rewrite bool_decide_eq_false_2 by tauto. erewrite on_device_ok; [reflexivity|].
  unfold DcryptoEngine.call_imem, u32, wrap. rewrite (Z.mod_small address) by lia.
  rewrite (proj2 (Z.ltb_ge _ _)) by (unfold IMEM_SIZE; lia). rewrite Z.mod_small by lia.
  unfold DcryptoEngine.execute_instruction. run. rewrite bool_decide_eq_false_2 by (cbn; tauto).
  unfold DcryptoEngine.clear_int, DcryptoEngine.write. run. reflexivity.
Qed.

Lemma done_reports prog data cb s dmem' :
  app s = mk_DcryptoApp (Some prog) (Some data) (Some cb) → DcryptoEngine.state (device s) = Running →
  DcryptoEngine.mapped (device s) = true → DcryptoEngine.client (device s) = true → (length data <= 4096)%nat →
  ∃ s', interrupt DcryptoEngine.handle_done_interrupt (set_device (DcryptoEngine.set_dmem dmem' (device s)) s) = (Ok tt, s') ∧
    upcalls s' = upcalls s ++ [mk_DcryptoUpcall cb SUCCESS 12] ∧
    ready prog (copy_at data 0 (register_bytes (take (length data / 4) dmem'))) cb s'.
Proof.
  intros Ha Hs Hm Hc Hd. unfold interrupt.
  erewrite bind_ok; [|apply on_device_ok; unfold DcryptoEngine.handle_done_interrupt; run; cbn; rewrite Hs;
    unfold DcryptoEngine.clear_int; run; unfold DcryptoEngine.call, gets; cbn; rewrite Hc; reflexivity].
  unfold execution_complete. run. cbn. rewrite Ha. cbn [callback data_buffer].
  erewrite bind_ok by reflexivity. unfold DcryptoEngine.read_data.
  erewrite bind_ok by (apply on_device_ok, read_mem_ok; done). run. eexists. split; [reflexivity|]. done.
Qed.

(** A program runs on the coprocessor and its results come back.  With both buffers
    shared, of at most 4096 bytes, and a callback, the command to run succeeds: the front
    of the data memory holds the words of the data buffer, the front of the instruction
    memory those of the program and both are as before beyond, the coprocessor is called
    at the address, and every further run is refused.  Whatever data memory the program
    leaves, its end delivers one call that reports success; the data buffer then holds
    the data memory's words, its last partial word unchanged, and the driver is ready
    for the next program. *)
Theorem program_runs (prog data : list Z) (cb : AppId * nat) (address : Z) (id : AppId) (s : t) :
  ready prog data cb s → (length prog <= 4096)%nat → (length data <= 4096)%nat → 0 <= address <= 1020 →
  ∃ s1, command 1 address id s = (Ok SUCCESS, s1) ∧
    DcryptoEngine.dmem (device s1) =
      FlashSyscalls.app_words (length data / 4) data ++ drop (length data / 4) (DcryptoEngine.dmem (device s)) ∧
    DcryptoEngine.imem (device s1) =
      FlashSyscalls.app_words (length prog / 4) prog ++ drop (length prog / 4) (DcryptoEngine.imem (device s)) ∧
    DcryptoEngine.regs (device s1) host_cmd = 0x08000000 + address ∧
    (∀ id' a, command 1 a id' s1 = (Ok EBUSY, s1)) ∧
    ∀ dmem', length dmem' = DMEM_SIZE →
      ∃ s2, interrupt DcryptoEngine.handle_done_interrupt (set_device (DcryptoEngine.set_dmem dmem' (device s1)) s1) = (Ok tt, s2) ∧
        upcalls s2 = upcalls s ++ [mk_DcryptoUpcall cb SUCCESS 12] ∧
        ready prog (register_bytes (take (length data / 4) dmem') ++ drop (4 * (length data / 4)) data) cb s2.
Proof.
  intros Hr Hp Hd Ha. exists (started prog data address s). split; [by eapply run_starts|].
  split_and!; [exact (copy_words _ _ _)..|reflexivity|done|]. intros dmem' Hl.
  destruct Hr as (Hb & Happ & Hs & Hm & Hc).
  destruct (done_reports prog data cb (started prog data address s) dmem') as (s2 & E & Hu & Hr2); [done..|].
  exists s2. split_and!; [exact E|exact Hu|]. unfold copy_at in Hr2. rewrite length_register_bytes, length_take in Hr2.
  rewrite Nat.min_l in Hr2; [exact Hr2|]. rewrite Hl. apply Nat.Div0.div_le_upper_bound. unfold DMEM_SIZE. lia.
Qed.

Definition sample_engine : DcryptoEngine.t :=
  DcryptoEngine.set_client (DcryptoEngine.new (λ _, 0) [] (replicate 1024 7) (replicate 1024 7) (Pmu.mk (λ _, 0) [])).

Definition sample_driver : t :=
  mk (DcryptoEngine.initialize sample_engine).2 (mk_DcryptoApp (Some [1; 0; 0; 0]) (Some [2; 0; 0; 0; 9]) (Some (0%nat, 5%nat))) false [].

Lemma program_runs_witness :
  ∃ s1, command 1 16 0%nat sample_driver = (Ok SUCCESS, s1) ∧
    ∃ s2, interrupt DcryptoEngine.handle_done_interrupt (set_device (DcryptoEngine.set_dmem (replicate 1024 258) (device s1)) s1) = (Ok tt, s2) ∧
      data_buffer (app s2) = Some [2; 1; 0; 0; 9].
Proof.
  destruct (program_runs [1; 0; 0; 0] [2; 0; 0; 0; 9] (0, 5)%nat 16 0%nat sample_driver) as (s1 & E & _ & _ & _ & _ & H);
    [by split_and!|cbn; lia|cbn; lia|lia|].
  exists s1. split; [exact E|]. destruct (H (replicate 1024 258)) as (s2 & E2 & _ & _ & Ha & _); [done|].
  exists s2. split; [exact E2|]. by rewrite Ha.
Defined.

(** ** What can go wrong *)

Inductive DcryptoAct :=
| ActCommand (command_num instruction : Z) (id : AppId)
| ActAllow (id : AppId) (minor_num : Z) (slice : option (list Z))
| ActSubscribe (subscribe_num : Z) (cb : option nat) (id : AppId).

Definition act (a : DcryptoAct) : K t ReturnCode :=
  match a with
  | ActCommand c i id => command c i id
  | ActAllow id m slice => allow id m slice
  | ActSubscribe n cb id => subscribe n cb id
  end.

Fixpoint acts (l : list DcryptoAct) : K t (list ReturnCode) :=
  match l with
  | [] => mret []
  | a :: l => rc ← act a; rest ← acts l; mret (rc :: rest)
  end.

Lemma act_stays_busy a s : busy s = true →
  ∃ rc s', act a s = (Ok rc, s') ∧ busy s' = true ∧ device s' = device s.
Proof.
  intros Hb. destruct a as [c i id|id m sl|n cb id]; unfold act, command, allow, subscribe; repeat case_match; run;
    try rewrite Hb; eauto.
Qed.

Lemma acts_stay_busy l s : busy s = true → ∃ rcs s', acts l s = (Ok rcs, s') ∧ busy s' = true ∧ device s' = device s.
Proof.
  revert s. induction l as [|a l IH]; intros s Hb; [by eexists _, _|]. cbn [acts].
  destruct (act_stays_busy a s Hb) as (rc & s1 & E & Hb1 & Hd1). erewrite bind_ok by exact E.
  destruct (IH s1 Hb1) as (rcs & s2 & E2 & Hb2 & Hd2). erewrite bind_ok by exact E2. eexists _, _. split; [done|]. split; [done|congruence].
Qed.

(** A run that fails locks the coprocessor for good.  The driver is marked busy before
    the buffers are looked at, and only the end of a program clears the mark.  So when one
    process runs without having shared a program or a data buffer, the call is refused,
    the coprocessor is untouched and still halted, and after any calls of any processes
    every run is refused as busy. *)
Theorem failed_run_locks (s : t) (id : AppId) (address : Z) :
  busy s = false → data_buffer (app s) = None ∨ program (app s) = None →
  ∃ s1, command 1 address id s = (Ok ENOMEM, s1) ∧ device s1 = device s ∧
    ∀ l, ∃ rcs s2, acts l s1 = (Ok rcs, s2) ∧ device s2 = device s ∧ ∀ id' a, command 1 a id' s2 = (Ok EBUSY, s2).
Proof.
  intros Hb Hn. exists (set_busy true s).
  assert (run_program (u32 address) (set_busy true s) = (Ok ENOMEM, set_busy true s)) as E.
  { unfold run_program. run. cbn [app set_busy]. destruct Hn as [->| ->]; [done|by destruct (data_buffer (app s))]. }
  split_and!; [|done|].
  - unfold command. cbn [Z.eqb Pos.eqb]. run. rewrite Hb. run. exact E.
  - intros l. destruct (acts_stay_busy l (set_busy true s) eq_refl) as (rcs & s2 & E2 & Hb2 & Hd2).
    exists rcs, s2. split_and!; [done|done|]. intros id' a. unfold command. cbn [Z.eqb Pos.eqb]. run. by rewrite Hb2.
Qed.

Lemma failed_run_locks_witness :
  ∃ s1, command 1 0 3%nat (new sample_engine) = (Ok ENOMEM, s1) ∧
    ∃ rcs s2, acts [ActAllow 0%nat 0 (Some [1; 2; 3; 4]); ActAllow 0%nat 1 (Some [1; 2; 3; 4])] s1 = (Ok rcs, s2) ∧
      command 1 0 0%nat s2 = (Ok EBUSY, s2).
Proof.
  destruct (failed_run_locks (new sample_engine) 3%nat 0 eq_refl (or_introl eq_refl)) as (s1 & E & _ & H).
  exists s1. split; [exact E|].
  destruct (H [ActAllow 0%nat 0 (Some [1; 2; 3; 4]); ActAllow 0%nat 1 (Some [1; 2; 3; 4])]) as (rcs & s2 & E2 & _ & H2).
  exists rcs, s2. split; [exact E2|apply H2].
Defined.

(** A process can stop the kernel while a program runs.  Taking the data buffer back
    is allowed at any time; the end of the program then unwraps the missing buffer. *)
Theorem withdrawn_buffer_panics (prog data : list Z) (cb : AppId * nat) (address : Z) (id id' : AppId) (s : t) (dmem' : list Z) :
  ready prog data cb s → (length prog <= 4096)%nat → (length data <= 4096)%nat → 0 <= address <= 1020 →
  ∃ s1 s2, command 1 address id s = (Ok SUCCESS, s1) ∧ allow id' 0 None s1 = (Ok SUCCESS, s2) ∧
    (interrupt DcryptoEngine.handle_done_interrupt (set_device (DcryptoEngine.set_dmem dmem' (device s2)) s2)).1 = Panic.
Proof.
  intros Hr Hp Hd Ha. eexists _, _. split_and!; [by eapply run_starts|reflexivity|].
  destruct Hr as (Hb & Happ & Hs & Hm & Hc). unfold interrupt.
  erewrite bind_ok; [|apply on_device_ok; unfold DcryptoEngine.handle_done_interrupt; run; cbn;
    unfold DcryptoEngine.clear_int; run; unfold DcryptoEngine.call, gets; cbn; rewrite Hc; reflexivity].
  unfold execution_complete. run. cbn. by rewrite Happ.
Qed.

Lemma withdrawn_buffer_panics_witness :
  ∃ s1 s2, command 1 16 0%nat sample_driver = (Ok SUCCESS, s1) ∧ allow 1%nat 0 None s1 = (Ok SUCCESS, s2) ∧
    (interrupt DcryptoEngine.handle_done_interrupt (set_device (DcryptoEngine.set_dmem [] (device s2)) s2)).1 = Panic.
Proof.
  apply (withdrawn_buffer_panics [1; 0; 0; 0] [2; 0; 0; 0; 9] (0, 5)%nat 16 0%nat 1%nat sample_driver []);
    [by split_and!|cbn; lia|cbn; lia|lia].
Defined.

End DcryptoFacts.
