(* ===== verification/SpiHost.v ===== *)
(** The SPI host controller: the kernel's driver (kernel/h1/src/spi_host.rs), the system
    calls that configure it (kernel/h1_syscalls/src/spi_host.rs) and the application's
    client (userspace/otpilot/src/spi_host.rs).

    Between the driver and the client the board has Tock's [VirtualSpiMasterDevice] and
    [spi_controller], which are not part of the repository: the driver's client is a
    computation that the driver calls, and the kernel that the application sees a class.
    The controller is what the register descriptions say: [START] sends the first
    [SIZE + 1] bytes of [tx_fifo], the answer arrives in [rx_fifo], and [TXDONE] is set. *)

From S2P Require Import Prelude Io Tock Registers FlashSyscalls.
From Stdlib Require Import ZArith Lia.
From stdpp Require Import base decidable option list list_numbers.

#[local] Open Scope Z_scope.

(** ** Registers *)

Inductive HostReg := host_ctrl | host_xact | host_ictrl | host_istate.

#[global] Instance HostReg_eq_dec : EqDecision HostReg.
Proof. solve_decision. Defined.

Record HostRegisters := mk_HostRegisters { hreg : HostReg → Z; tx_fifo : list Z; rx_fifo : list Z }.

Definition set_hreg (x : HostReg) (v : Z) (r : HostRegisters) : HostRegisters :=
  mk_HostRegisters (λ y, if decide (y = x) then v else hreg r y) (tx_fifo r) (rx_fifo r).
Definition set_tx_fifo (l : list Z) (r : HostRegisters) : HostRegisters := mk_HostRegisters (hreg r) l (rx_fifo r).
Definition set_rx_fifo (l : list Z) (r : HostRegisters) : HostRegisters := mk_HostRegisters (hreg r) (tx_fifo r) l.

Definition CPOL : Field := mk_Field 0 1.
Definition CPHA : Field := mk_Field 1 1.
Definition CSBSU : Field := mk_Field 2 4.
Definition CSBHLD : Field := mk_Field 6 4.
Definition IDIV : Field := mk_Field 10 12.
Definition CSBPOL : Field := mk_Field 22 1.
Definition TXBITOR : Field := mk_Field 23 1.
Definition TXBYTOR : Field := mk_Field 24 1.
Definition RXBITOR : Field := mk_Field 25 1.
Definition RXBYTOR : Field := mk_Field 26 1.
Definition ENPASSTHRU : Field := mk_Field 27 1.
Definition START : Field := mk_Field 0 1.
Definition BCNT : Field := mk_Field 1 3.
Definition SIZE : Field := mk_Field 4 7.
Definition RDY_POLL : Field := mk_Field 11 1.
Definition RDY_POLL_DLY : Field := mk_Field 12 5.
Definition TXDONE : Field := mk_Field 0 1.

Module SpiHostHardware.
Section Driver.
Context `{RegisterInterface}.

Record t := mk {
  registers : HostRegisters;
  transaction_len : nat;
  tx_buffer : option (list Z);
  rx_buffer : option (list Z);
  client : bool
}.

Definition new (r : HostRegisters) : t := mk r 0 None None false.

Definition on_regs (f : HostRegisters → HostRegisters) (s : t) : t :=
  mk (f (registers s)) (transaction_len s) (tx_buffer s) (rx_buffer s) (client s).
Definition on_reg (x : HostReg) (f : Z → Z) : t → t := on_regs (λ r, set_hreg x (f (hreg r x)) r).
Definition set_len (n : nat) (s : t) : t := mk (registers s) n (tx_buffer s) (rx_buffer s) (client s).
Definition set_tx (b : option (list Z)) (s : t) : t := mk (registers s) (transaction_len s) b (rx_buffer s) (client s).
Definition set_rx (b : option (list Z)) (s : t) : t := mk (registers s) (transaction_len s) (tx_buffer s) b (client s).
Definition set_client (s : t) : t := mk (registers s) (transaction_len s) (tx_buffer s) (rx_buffer s) true.

Definition init : t → t :=
  on_reg host_xact (λ _, field_sum [field_clear START; field_val BCNT 7; field_val SIZE 0; field_clear RDY_POLL; field_val RDY_POLL_DLY 0]) ∘
  on_reg host_ctrl (λ _, field_sum [field_clear CPOL; field_clear CPHA; field_clear CSBSU; field_clear CSBHLD; field_val IDIV 2;
    field_clear CSBPOL; field_set TXBITOR; field_clear TXBYTOR; field_set RXBITOR; field_clear RXBYTOR; field_clear ENPASSTHRU]).

Definition enable_tx_interrupt : t → t := on_reg host_ictrl (modify_set TXDONE).
Definition disable_tx_interrupt : t → t := on_reg host_ictrl (modify_clear TXDONE).

(** [istate_clr.write(ISTATE_CLR::TXDONE::SET)] *)
Definition clear_done : t → t := on_reg host_istate (modify_clear TXDONE).

(** The answer's bytes are copied over the front of the buffer. *)
Definition read_data (s : t) (read_buffer : list Z) : list Z :=
  copy_at read_buffer 0 (take (Nat.min (length read_buffer) (transaction_len s)) (rx_fifo (registers s))).

(** [done tx rx len] is the client's [read_write_done]; it may call the driver. *)
Definition handle_interrupt (done : list Z → option (list Z) → nat → K t unit) : K t unit :=
  finished ← gets (λ s, is_set TXDONE (hreg (registers s) host_istate));
  (if finished : bool then
     modify clear_done ;;
     c ← gets client;
     if c : bool then
       tx ← gets tx_buffer;
       modify (set_tx None) ;;
       match tx with
       | Some tx_buf =>
           modify (λ s, set_rx (read_data s <$> rx_buffer s) s) ;;
           rx ← gets rx_buffer;
           modify (set_rx None) ;;
           len ← gets transaction_len;
           done tx_buf rx len
       | None => mret tt
       end
     else mret tt
   else mret tt) ;;
  modify disable_tx_interrupt.

(** The bytes that a transaction puts into [tx_fifo]. *)
Definition tx_bytes (write_buffer : option (list Z)) (transaction_len : nat) : list Z :=
  let given := match write_buffer with Some b => take (Nat.min (length b) transaction_len) b | None => [] end in
  given ++ replicate (transaction_len - length given) 0xff.

Definition start_transaction (write_buffer read_buffer : option (list Z)) (transaction_len : nat) : K t ReturnCode :=
  s ← gets registers;
  if (transaction_len =? 0)%nat || (length (tx_fifo s) <? transaction_len)%nat || (length (rx_fifo s) <? transaction_len)%nat
  then mret ESIZE
  else
    modify (on_reg host_xact (field_modify BCNT 7)) ;;
    modify (on_reg host_xact (field_modify SIZE (Z.of_nat (transaction_len - 1)))) ;;
    modify (on_regs (λ r, set_tx_fifo (copy_at (tx_fifo r) 0 (tx_bytes write_buffer transaction_len)) r)) ;;
    modify (λ s, match write_buffer with Some b => set_tx (Some b) s | None => s end) ;;
    modify (λ s, match read_buffer with Some b => set_rx (Some b) s | None => s end) ;;
    modify (set_len transaction_len) ;;
    modify clear_done ;;
    modify enable_tx_interrupt ;;
    modify (on_reg host_xact (modify_set START)) ;;
    mret SUCCESS.

Definition set_bit (f : Field) (enabled : bool) : Z → Z := if enabled then modify_set f else modify_clear f.

Definition spi_device_spi_host_passthrough (enabled : bool) : t → t := on_reg host_ctrl (set_bit ENPASSTHRU enabled).
Definition wait_busy_clear_in_transactions (enabled : bool) : t → t := on_reg host_xact (set_bit RDY_POLL enabled).

Definition is_busy (s : t) : bool := is_set TXDONE (hreg (registers s) host_istate).

Definition read_write_bytes (write_buffer : list Z) (read_buffer : option (list Z)) (len : nat) : K t ReturnCode :=
  busy ← gets is_busy;
  if busy : bool then mret EBUSY else start_transaction (Some write_buffer) read_buffer len.

(** The rest of [SpiMaster]; most of it is not implemented. *)
Definition master_init : K t unit := mret tt.
Definition write_byte (val : Z) : K t unit := panic.
Definition read_byte : K t Z := panic.
Definition read_write_byte (val : Z) : K t Z := panic.
Definition specify_chip_select (cs : bool) : K t unit := mret tt.
Definition set_rate (rate : Z) : K t Z := panic.
Definition get_rate : K t Z := panic.
Definition set_clock (polarity : bool) : K t unit := panic.
Definition get_clock : K t bool := panic.
Definition set_phase (phase : bool) : K t unit := panic.
Definition get_phase : K t bool := panic.
Definition hold_low : K t unit := panic.
Definition release_low : K t unit := mret tt.

(** ** The controller *)

(** The bytes that [START] sends. *)
Definition on_wire (r : HostRegisters) : list Z := take (Z.to_nat (field_read SIZE (hreg r host_xact)) + 1) (tx_fifo r).

(** A started transaction with a device that answers as [slave] says. *)
Definition transacted (slave : list Z → list Z) (s : t) : t :=
  if is_set START (hreg (registers s) host_xact) then
    on_reg host_xact (modify_clear START) (on_reg host_istate (modify_set TXDONE)
      (on_regs (λ r, set_rx_fifo (copy_at (rx_fifo r) 0 (slave (on_wire r))) r) s))
  else s.

(** The interrupt reaches the kernel. *)
Definition interrupted (s : t) : bool :=
  is_set TXDONE (hreg (registers s) host_istate) && is_set TXDONE (hreg (registers s) host_ictrl).

End Driver.
End SpiHostHardware.

(** ** System calls *)

Module SpiHostSyscall.
Section Driver.
Context `{RegisterInterface}.

(** [apps]: which processes have an entry in the grant; it holds no data. *)
Record t := mk { device : SpiHostHardware.t; apps : AppId → bool; current_user : option AppId }.

Definition new (d : SpiHostHardware.t) (container : AppId → bool) : t := mk d container None.

Definition note_user (id : AppId) (s : t) : t :=
  mk (device s) (apps s) (match current_user s with None => Some id | u => u end).

Definition enter (id : AppId) (f : SpiHostHardware.t → SpiHostHardware.t) (s : t) : ReturnCode * t :=
  if apps s id then (SUCCESS, mk (f (device s)) (apps s) (current_user s)) else (ENOMEM, s).

Definition spi_device_spi_host_passthrough (id : AppId) (enable : bool) : t → ReturnCode * t :=
  enter id (SpiHostHardware.spi_device_spi_host_passthrough enable).
Definition wait_busy_clear_in_transactions (id : AppId) (enable : bool) : t → ReturnCode * t :=
  enter id (SpiHostHardware.wait_busy_clear_in_transactions enable).

Definition subscribe (subscribe_num : Z) : ReturnCode := ENOSUPPORT.
Definition allow (minor_num : Z) : ReturnCode := ENOSUPPORT.

Definition command (command_num arg1 : Z) (id : AppId) (s : t) : ReturnCode * t :=
  let s := note_user id s in
  if command_num =? 0 then (SUCCESS, s)
  else if command_num =? 1 then spi_device_spi_host_passthrough id (negb (arg1 =? 0)) s
  else if command_num =? 2 then wait_busy_clear_in_transactions id (negb (arg1 =? 0)) s
  else (ENOSUPPORT, s).
End Driver.
End SpiHostSyscall.

(** ** The application's client *)

(** The kernel as the application sees it: the answers to the system calls of the driver,
    and [yieldk], which may run the callback of a completed transaction; the kernel has
    then put [bytes] into the shared buffer. *)
Class HostKernel (Kn : Type) := {
  host_command : Z → Z → Z → Kn → bool * Kn;
  host_allow : Z → list Z → Kn → bool * Kn;
  host_unshare : Z → Kn → Kn;
  host_subscribe : Z → Kn → bool * Kn;
  host_yield : Kn → option (list Z) * Kn
}.

Module SpiHostImpl.

Definition MAX_READ_BUFFER_LENGTH : nat := 128.
Definition CHECK_IF_PRESENT : Z := 0.
Definition READ_WRITE_BYTES : Z := 2.
Definition READ_WRITE_COMPLETE : Z := 0.
Definition READ_BUFFER : Z := 0.
Definition WRITE_BUFFER : Z := 1.

Section Client.
Context {Kn : Type} `{HostKernel Kn}.

Record t := mk {
  read_buffer : list Z;
  read_buffer_share : bool;
  read_write_length : nat;
  read_write_done_ : bool;
  kernel : Kn
}.

Definition initial (k : Kn) : t := mk (replicate MAX_READ_BUFFER_LENGTH 0) false 0 false k.

Definition set_kernel (k : Kn) (s : t) : t := mk (read_buffer s) (read_buffer_share s) (read_write_length s) (read_write_done_ s) k.
Definition set_shared (s : t) : t := mk (read_buffer s) true (read_write_length s) (read_write_done_ s) (kernel s).
Definition set_length (n : nat) (s : t) : t := mk (read_buffer s) (read_buffer_share s) n (read_write_done_ s) (kernel s).
Definition set_done (b : bool) (s : t) : t := mk (read_buffer s) (read_buffer_share s) (read_write_length s) b (kernel s).

(** A system call with [?] *)
Definition sys (f : Kn → bool * Kn) : M t TockError unit := λ s,
  match f (kernel s) with
  | (true, k) => (Ok tt, set_kernel k s)
  | (false, k) => (Err mk_TockError, set_kernel k s)
  end.

Definition initialize : M t TockError unit :=
  sys (host_command CHECK_IF_PRESENT 0 0) ;;
  buf ← gets read_buffer;
  sys (host_allow READ_BUFFER buf) ;;
  modify set_shared.

Definition register_read_write_done_callback : M t TockError unit := sys (host_subscribe READ_WRITE_COMPLETE).

(** The callback. *)
Definition read_write_done (bytes : list Z) (s : t) : t :=
  mk (if read_buffer_share s then take (length (read_buffer s)) (bytes ++ drop (length bytes) (read_buffer s)) else read_buffer s)
    (read_buffer_share s) (read_write_length s) true (kernel s).

(** The sharing of the write buffer ends with the call, however it ends. *)
Definition with_share {A} (m : M t TockError A) : M t TockError A := λ s,
  let '(r, s) := m s in (r, set_kernel (host_unshare WRITE_BUFFER (kernel s)) s).

Definition read_write_bytes (write_buffer : list Z) (read_write_length_ : nat) : M t TockError unit :=
  sys (host_allow WRITE_BUFFER write_buffer) ;;
  with_share
    (modify (set_length read_write_length_) ;;
     modify (set_done false) ;;
     register_read_write_done_callback ;;
     n ← gets read_write_length;
     sys (host_command READ_WRITE_BYTES (Z.of_nat n) 0)).

Definition is_read_write_done (s : t) : bool := read_write_done_ s.

Definition yieldk (s : t) : t :=
  match host_yield (kernel s) with
  | (Some bytes, k) => read_write_done bytes (set_kernel k s)
  | (None, k) => set_kernel k s
  end.

(** [None]: still waiting after [fuel] yields. *)
Fixpoint wait_read_write_done (fuel : nat) (s : t) : option t :=
  if is_read_write_done s then Some s
  else match fuel with 0%nat => None | S n => wait_read_write_done n (yieldk s) end.

Definition get_read_buffer : M t TockError (list Z) :=
  s ← gets id; unwrap (slice (read_buffer s) 0 (read_write_length s)).

End Client.
End SpiHostImpl.

(** ** Facts *)

Module SpiHostFacts.
Import SpiHostHardware.

Section Facts.
Context `{RegisterLaws}.

Definition wf (s : t) : Prop := length (tx_fifo (registers s)) = 128%nat ∧ length (rx_fifo (registers s)) = 128%nat.

(** A transaction that the controller has not finished, with its interrupt enabled or
    not. *)
Definition running (tx : list Z) (rx : option (list Z)) (len : nat) (enabled : bool) (s : t) : Prop :=
  tx_buffer s = Some tx ∧ rx_buffer s = rx ∧ transaction_len s = len ∧
  is_set START (hreg (registers s) host_xact) = true ∧ is_busy s = false ∧
  is_set TXDONE (hreg (registers s) host_ictrl) = enabled ∧
  on_wire (registers s) = tx_bytes (Some tx) len ∧ wf s.

(** The registers of a state that was built by writes to them. *)
Ltac registers_of :=
  unfold enable_tx_interrupt, disable_tx_interrupt, clear_done, spi_device_spi_host_passthrough, wait_busy_clear_in_transactions,
    is_busy, on_wire, on_reg;
  cbn [hreg tx_fifo rx_fifo set_hreg set_tx_fifo set_rx_fifo registers on_regs set_len set_tx set_rx set_client
       transaction_len tx_buffer rx_buffer client];
  repeat first [rewrite decide_True by done | rewrite decide_False by done].

Lemma is_set_set_other f g r : field_ok f → field_ok g → disjoint_fields f g → is_set g (modify_set f r) = is_set g r.
Proof. apply is_set_other. Qed.
Lemma is_set_clear_other f g r : field_ok f → field_ok g → disjoint_fields f g → is_set g (modify_clear f r) = is_set g r.
Proof. apply is_set_other. Qed.
Lemma read_set_other f g r : field_ok f → field_ok g → disjoint_fields f g → field_read g (modify_set f r) = field_read g r.
Proof. apply read_modify_other. Qed.

(** What a field reads after writes to the fields of its register. *)
Ltac fields := repeat first
  [ rewrite read_modify_set by (done || by_compute)
  | rewrite read_modify_clear by by_compute
  | rewrite is_set_set_other by by_compute
  | rewrite is_set_clear_other by by_compute
  | rewrite is_set_other by by_compute
  | rewrite read_set_other by by_compute
  | rewrite read_modify_other by by_compute
  | rewrite read_modify_same by by_compute ].

Lemma copy_front (dst src : list Z) : copy_at dst 0 src = src ++ drop (length src) dst.
Proof. done. Qed.

Lemma length_tx_bytes tx len : length (tx_bytes (Some tx) len) = len.
Proof. unfold tx_bytes. rewrite length_app, length_replicate, length_take. lia. Qed.

Lemma start_runs tx rx len s : wf s → (1 <= len <= 128)%nat →
  ∃ s1, start_transaction (Some tx) rx len s = (Ok SUCCESS, s1) ∧
    running tx (match rx with Some b => Some b | None => rx_buffer s end) len true s1 ∧ client s1 = client s.
Proof.
  intros [Ht Hr] Hl. unfold start_transaction. rewrite bind_gets.
  replace (_ || _) with false by (symmetry; rewrite !orb_false_iff; split_and!; [apply Nat.eqb_neq|apply Nat.ltb_ge..]; lia).
  run. eexists. split; [reflexivity|]. split; [|by destruct rx].
  assert (take (Z.to_nat (Z.of_nat (len - 1) `mod` 2 ^ f_width SIZE) + 1) (copy_at (tx_fifo (registers s)) 0 (tx_bytes (Some tx) len)) =
    tx_bytes (Some tx) len) as Hw.
  { rewrite Z.mod_small by (cbn; lia). rewrite Nat2Z.id. unfold copy_at. rewrite take_0, app_nil_l.
    rewrite take_app_length'; [done|]. rewrite length_tx_bytes. lia. }
  assert (length (copy_at (tx_fifo (registers s)) 0 (tx_bytes (Some tx) len)) = 128%nat) as Hl' by
    (rewrite length_copy_at; rewrite ?length_tx_bytes; lia).
  unfold running, wf. destruct rx; split_and!; try done; registers_of; fields; done.
Qed.

(** What a client gets for its buffer [b]. *)
Definition filled (answer b : list Z) : list Z := take (length b) answer ++ drop (length answer) b.

Lemma read_data_filled answer b s rest : rx_fifo (registers s) = answer ++ rest → length answer = transaction_len s →
  read_data s b = filled answer b.
Proof.
  intros Hr Hl. unfold read_data, copy_at, filled. rewrite Hr, take_0, app_nil_l, length_take, length_app, Hl.
  destruct (decide (length b <= transaction_len s)%nat).
  - rewrite (Nat.min_l (length b)), take_app_le by lia. f_equal. rewrite !drop_ge by lia. done.
  - rewrite (Nat.min_r (length b)), <-Hl, take_app_length by lia. rewrite take_ge by lia. do 2 f_equal. lia.
Qed.

Definition idle (s : t) : Prop :=
  tx_buffer s = None ∧ rx_buffer s = None ∧ is_busy s = false ∧ is_set START (hreg (registers s) host_xact) = false ∧ wf s.

Definition answers (slave : list Z → list Z) : Prop := ∀ l, length (slave l) = length l.

(** The end of a transaction, up to the call to the client. *)
Lemma finish_calls slave done tx rx len e s : answers slave → (len <= 128)%nat → running tx rx len e s → client s = true →
  ∃ s3, handle_interrupt done (transacted slave s) =
      (done tx (filled (slave (tx_bytes (Some tx) len)) <$> rx) len ;; modify disable_tx_interrupt) s3 ∧
    idle s3 ∧ client s3 = true.
Proof.
  intros Ha Hl (Htx & Hrx & Hlen & Hst & Hb & Hi & Hw & Ht & Hr) Hc. unfold transacted. rewrite Hst.
  unfold handle_interrupt. rewrite bind_gets. registers_of. fields. cbn [negb]. run. registers_of. rewrite Hc. run. registers_of. rewrite Htx.
  run. registers_of. rewrite Hlen.
  eexists. split.
  - apply (f_equal (λ x, (done tx x len ≫= _) _)). rewrite Hrx. apply option_fmap_ext. intros b.
    eapply read_data_filled; registers_of; unfold on_wire in Hw.
    + by rewrite Hw, copy_front.
    + by rewrite Ha, length_tx_bytes, Hlen.
  - unfold idle, wf. registers_of. unfold on_wire in Hw. rewrite Hw. fields. split_and!; try done.
    rewrite length_copy_at; rewrite ?Ha, ?length_tx_bytes; lia.
Qed.

Lemma transacted_interrupts slave tx rx len e s : running tx rx len e s →
  is_busy (transacted slave s) = true ∧ interrupted (transacted slave s) = e.
Proof.
  intros (_ & _ & _ & Hst & _ & Hi & _). unfold transacted. rewrite Hst. unfold interrupted. registers_of. fields. done.
Qed.


(** ** What can go wrong *)

(** What happens around the driver when no interrupt reaches it. *)
Inductive HostOp :=
| OpReadWrite (tx : list Z) (rx : option (list Z)) (len : nat)
| OpPassthrough (enabled : bool)
| OpPoll (enabled : bool)
| OpBus (slave : list Z → list Z).

Definition host_op (o : HostOp) : K t unit :=
  match o with
  | OpReadWrite tx rx len => read_write_bytes tx rx len ;; mret tt
  | OpPassthrough b => modify (spi_device_spi_host_passthrough b)
  | OpPoll b => modify (wait_busy_clear_in_transactions b)
  | OpBus slave => modify (transacted slave)
  end.

Fixpoint host_ops (l : list HostOp) : K t unit :=
  match l with [] => mret tt | o :: l => host_op o ;; host_ops l end.

(** A finished transaction whose interrupt is masked. *)
Definition lost (s : t) : Prop :=
  is_busy s = true ∧ is_set TXDONE (hreg (registers s) host_ictrl) = false ∧ is_set START (hreg (registers s) host_xact) = false.

Lemma is_set_set_bit f g b r : field_ok f → field_ok g → disjoint_fields f g → is_set g (set_bit f b r) = is_set g r.
Proof. intros. unfold set_bit. destruct b; by apply is_set_other. Qed.

Lemma host_op_lost o s : lost s → ∃ s', host_op o s = (Ok tt, s') ∧ lost s'.
Proof.
  intros (Hb & Hi & Hs). destruct o as [tx rx len|b|b|slave]; cbn [host_op].
  - unfold read_write_bytes. run. rewrite Hb. run. by eexists.
  - eexists. split; [reflexivity|]. done.
  - eexists. split; [reflexivity|]. split; [done|]. split; [done|]. registers_of. by rewrite is_set_set_bit by by_compute.
  - eexists. split; [reflexivity|]. unfold transacted. by rewrite Hs.
Qed.

Lemma host_ops_lost l s : lost s → ∃ s', host_ops l s = (Ok tt, s') ∧ lost s'.
Proof.
  revert s. induction l as [|o l IH]; intros s Hs; [by eexists|]. destruct (host_op_lost o s Hs) as (s1 & E & H1).
  destruct (IH s1 H1) as (s2 & E2 & H2). exists s2. cbn [host_ops]. by erewrite bind_ok.
Qed.

(** A transaction that a client starts from its completion call is lost.  The handler
    disables the interrupt after the call, also the one that the new transaction has just
    enabled: the new transaction is accepted and carried out on the bus, but its end is
    never reported, and from then on, whatever is called, no interrupt arrives and every
    transaction is refused as busy. *)
Theorem nested_transaction_lost (slave : list Z → list Z) tx1 rx1 len1 tx2 rx2 len2 (s : t) :
  answers slave → (1 <= len1 <= 128)%nat → (1 <= len2 <= 128)%nat → running tx1 rx1 len1 true s → client s = true →
  let done (_ : list Z) (_ : option (list Z)) (_ : nat) := read_write_bytes tx2 rx2 len2 ;; mret tt in
  ∃ s2, handle_interrupt done (transacted slave s) = (Ok tt, s2) ∧ running tx2 rx2 len2 false s2 ∧
    ∀ l, ∃ s4, host_ops l (transacted slave s2) = (Ok tt, s4) ∧ interrupted s4 = false ∧
      ∀ tx rx len, read_write_bytes tx rx len s4 = (Ok EBUSY, s4).
Proof.
  intros Ha Hl1 Hl2 Hr Hc done. destruct (finish_calls slave done tx1 rx1 len1 true s) as (s3 & E & (Ht & Hrx & Hb & Hs & Hw) & _); [done|lia|done|done|].
  destruct (start_runs tx2 rx2 len2 s3 Hw Hl2) as (s1 & E1 & Hr1 & _). exists (disable_tx_interrupt s1).
  assert (running tx2 rx2 len2 false (disable_tx_interrupt s1)) as Hr2.
  { destruct Hr1 as (? & Hx & ? & ? & ? & ? & ? & ?). rewrite Hrx in Hx. unfold running. registers_of. fields.
    split_and!; try done. by destruct rx2. }
  split_and!; [|done|].
  - rewrite E. unfold done, read_write_bytes. run. rewrite Hb. erewrite bind_ok by exact E1. done.
  - intros l. destruct (transacted_interrupts slave _ _ _ _ _ Hr2) as [Hb2 Hi2].
    destruct (host_ops_lost l (transacted slave (disable_tx_interrupt s1))) as (s4 & E4 & Hb4 & Hi4 & _).
    + unfold interrupted in Hi2. unfold is_busy in Hb2. rewrite Hb2 in Hi2. split_and!; [done|done|].
      destruct Hr2 as (_ & _ & _ & Hst & _). unfold transacted. rewrite Hst. registers_of. by fields.
    + exists s4. split_and!; [done|unfold interrupted; by rewrite Hi4, andb_false_r|].
      intros tx rx len. unfold read_write_bytes. run. by rewrite Hb4.
Qed.

(** The busy check is the wrong way round: it looks at the flag of a finished
    transaction.  While a transaction runs, a second one is accepted; it takes the first
    one's place, whose write buffer is dropped and whose client is never called, and
    when it has no read buffer it is given the first one's. *)
Theorem running_transaction_overwritten tx1 rx1 len1 e tx2 rx2 len2 (s : t) :
  (1 <= len2 <= 128)%nat → running tx1 rx1 len1 e s →
  ∃ s2, read_write_bytes tx2 rx2 len2 s = (Ok SUCCESS, s2) ∧
    running tx2 (match rx2 with Some b => Some b | None => rx1 end) len2 true s2.
Proof.
  intros Hl (_ & Hrx & _ & _ & Hb & _ & _ & Hw). destruct (start_runs tx2 rx2 len2 s Hw Hl) as (s2 & E & Hr & _).
  exists s2. split; [unfold read_write_bytes; run; by rewrite Hb|]. by rewrite <-Hrx.
Qed.

(** ** Settings *)

(** Whether the controller lets the SPI device pass through, and whether transactions wait
    for the device's busy bit. *)
Definition settings (s : t) : bool * bool :=
  (is_set ENPASSTHRU (hreg (registers s) host_ctrl), is_set RDY_POLL (hreg (registers s) host_xact)).

(** What happens to the system: commands of processes, transactions, the controller, and
    interrupts, in whose completion the client may start a transaction. *)
Inductive HostEvent :=
| HCommand (command_num arg1 : Z) (id : AppId)
| HReadWrite (tx : list Z) (rx : option (list Z)) (len : nat)
| HBus (slave : list Z → list Z)
| HInterrupt (next : option (list Z * option (list Z) * nat)).

Definition next_transaction (next : option (list Z * option (list Z) * nat)) : K t unit :=
  match next with
  | Some (tx, rx, len) => read_write_bytes tx rx len ;; mret tt
  | None => mret tt
  end.

Definition host_event (ev : HostEvent) (s : SpiHostSyscall.t) : SpiHostSyscall.t :=
  let on_device (d : t) := SpiHostSyscall.mk d (SpiHostSyscall.apps s) (SpiHostSyscall.current_user s) in
  match ev with
  | HCommand n arg id => (SpiHostSyscall.command n arg id s).2
  | HReadWrite tx rx len => on_device (read_write_bytes tx rx len (SpiHostSyscall.device s)).2
  | HBus slave => on_device (transacted slave (SpiHostSyscall.device s))
  | HInterrupt next => on_device (handle_interrupt (λ _ _ _, next_transaction next) (SpiHostSyscall.device s)).2
  end.

(** The abstract settings: only a command of a known process changes them. *)
Definition setting_event (known : AppId → bool) (ev : HostEvent) (x : bool * bool) : bool * bool :=
  match ev with
  | HCommand n arg id =>
      if known id then
        if n =? 1 then (negb (arg =? 0), x.2) else if n =? 2 then (x.1, negb (arg =? 0)) else x
      else x
  | _ => x
  end.

(** A computation that leaves the settings alone. *)
Ltac keeps := repeat first
  [ progress steps
  | apply steps_modify; intros ?; unfold same, settings; repeat case_match; registers_of; by fields
  | case_match; try done ].

Lemma read_write_keeps tx rx len : steps_in (same settings) (read_write_bytes tx rx len).
Proof. unfold read_write_bytes, start_transaction. keeps. Qed.

Lemma interrupt_keeps next : steps_in (same settings) (handle_interrupt (λ _ _ _, next_transaction next)).
Proof. unfold handle_interrupt, next_transaction, read_write_bytes, start_transaction. keeps. Qed.

Lemma transacted_settings slave s : settings (transacted slave s) = settings s.
Proof. unfold transacted. case_match; [|done]. unfold settings. registers_of. by fields. Qed.

Lemma passthrough_settings b s : settings (spi_device_spi_host_passthrough b s) = (b, (settings s).2).
Proof. unfold settings. registers_of. unfold set_bit. destruct b; by fields. Qed.
Lemma poll_settings b s : settings (wait_busy_clear_in_transactions b s) = ((settings s).1, b).
Proof. unfold settings. registers_of. unfold set_bit. destruct b; by fields. Qed.

Lemma host_event_settings ev s :
  settings (SpiHostSyscall.device (host_event ev s)) = setting_event (SpiHostSyscall.apps s) ev (settings (SpiHostSyscall.device s)) ∧
  SpiHostSyscall.apps (host_event ev s) = SpiHostSyscall.apps s.
Proof.
  destruct ev as [n arg id|tx rx len|slave|next]; cbn [host_event setting_event SpiHostSyscall.device SpiHostSyscall.apps].
  - unfold SpiHostSyscall.command, SpiHostSyscall.spi_device_spi_host_passthrough, SpiHostSyscall.wait_busy_clear_in_transactions,
      SpiHostSyscall.enter. cbn [SpiHostSyscall.note_user SpiHostSyscall.apps SpiHostSyscall.device SpiHostSyscall.current_user].
    destruct (Z.eqb_spec n 0) as [->|]; [by destruct (SpiHostSyscall.apps s id)|].
    destruct (n =? 1); [|destruct (n =? 2)]; destruct (SpiHostSyscall.apps s id); cbn [snd SpiHostSyscall.device SpiHostSyscall.apps];
      split; try done; [apply passthrough_settings|apply poll_settings].
  - split; [apply read_write_keeps|done].
  - split; [apply transacted_settings|done].
  - split; [apply interrupt_keeps|done].
Qed.

(** Passthrough and busy polling are as last commanded.  After any sequence of system
    calls, transactions, bus activity and interrupts, in whose completion a client may
    start further transactions, the controller passes the SPI device through and polls
    the busy bit exactly as the last such command of a process with an entry in the
    grant said, or as before when there was none. *)
Theorem settings_follow_commands (evs : list HostEvent) (s : SpiHostSyscall.t) :
  settings (SpiHostSyscall.device (foldl (flip host_event) s evs)) =
    foldl (flip (setting_event (SpiHostSyscall.apps s))) (settings (SpiHostSyscall.device s)) evs.
Proof.
  revert s. induction evs as [|ev evs IH]; intros s; [done|]. cbn [foldl flip]. rewrite IH.
  destruct (host_event_settings ev s) as [Hs Ha]. by rewrite Hs, Ha.
Qed.

End Facts.
End SpiHostFacts.

Module SpiHostClientFacts.
Import SpiHostImpl.
Section Client.
Context {Kn : Type} `{HostKernel Kn}.

(** The kernel runs the callback at the yield after [n] others, with [bytes] shared. *)
Fixpoint completes_after (n : nat) (bytes : list Z) (k : Kn) : Prop :=
  match n with
  | 0%nat => (host_yield k).1 = Some bytes
  | S n => (host_yield k).1 = None ∧ completes_after n bytes (host_yield k).2
  end.

Lemma wait_completes n bytes fuel s : read_write_done_ s = false → completes_after n bytes (kernel s) →
  ∃ k, wait_read_write_done fuel s = if (n <? fuel)%nat then Some (read_write_done bytes (set_kernel k s)) else None.
Proof.
  revert n s. induction fuel as [|fuel IH]; intros n s Hd Hc; cbn [wait_read_write_done]; unfold is_read_write_done; rewrite Hd.
  - by exists (kernel s).
  - unfold yieldk. destruct n as [|n]; cbn [completes_after] in Hc; destruct (host_yield (kernel s)) as [o k] eqn:E; cbn [fst snd] in Hc.
    + subst o. exists k. by destruct fuel.
    + destruct Hc as [-> Hc]. destruct (IH n (set_kernel k s) Hd Hc) as (k' & E'). exists k'. rewrite E'. done.
Qed.

Lemma read_write_sets wb len s s1 : read_write_bytes wb len s = (Ok tt, s1) →
  read_buffer s1 = read_buffer s ∧ read_buffer_share s1 = read_buffer_share s ∧ read_write_length s1 = len ∧ read_write_done_ s1 = false.
Proof.
  unfold read_write_bytes, with_share, register_read_write_done_callback, sys. rewrite bind_unfold.
  destruct (host_allow _ _ _) as [[] k]; [|done]. run. rewrite bind_unfold. cbn [set_length set_done set_kernel kernel].
  destruct (host_subscribe _ k) as [[] k1]; [|done]. run. cbn. destruct (host_command _ _ _ k1) as [[] k2]; [|done]. by intros [= <-].
Qed.

(** The application reads the answer of the SPI bus.  Once a transaction of at most 128
    bytes is accepted, waiting for it yields exactly until the kernel runs the callback,
    and returns; the read buffer is then the answer, cut to the length of the
    transaction. *)
Theorem client_reads_answer (wb : list Z) (len n fuel : nat) (bytes : list Z) (s s1 : t) :
  read_buffer_share s = true → length (read_buffer s) = MAX_READ_BUFFER_LENGTH → length bytes = MAX_READ_BUFFER_LENGTH →
  (len <= MAX_READ_BUFFER_LENGTH)%nat → read_write_bytes wb len s = (Ok tt, s1) → completes_after n bytes (kernel s1) →
  match wait_read_write_done fuel s1 with
  | Some s2 => (n < fuel)%nat ∧ (get_read_buffer s2).1 = Ok (take len bytes)
  | None => (fuel <= n)%nat
  end.
Proof.
  intros Hs Hl Hb Hlen E Hc. destruct (read_write_sets wb len s s1 E) as (H1 & H2 & H3 & H4).
  destruct (wait_completes n bytes fuel s1 H4 Hc) as (k & ->). destruct (Nat.ltb_spec n fuel); [|done]. split; [done|].
  unfold get_read_buffer. rewrite bind_gets. cbn. rewrite H1, H2, H3, Hs, Hl.
  rewrite (drop_ge (read_buffer s)), app_nil_r by lia. rewrite take_ge by lia. unfold slice. cbn [Nat.leb andb].
  by rewrite (proj2 (Nat.leb_le _ _)), Nat.sub_0_r, drop_0 by lia.
Qed.
End Client.

(** A kernel that accepts everything and completes at its third yield. *)
Definition counting_kernel : HostKernel nat := {|
  host_command _ _ _ k := (true, k); host_allow _ _ k := (true, k); host_unshare _ k := k; host_subscribe _ k := (true, k);
  host_yield k := (if (k =? 2)%nat then Some (replicate 128 7) else None, S k) |}.

Lemma client_reads_answer_witness :
  let s := mk (replicate 128 0) true 0 false 0%nat in
  let s1 := (@read_write_bytes nat counting_kernel [0x9f] 3 s).2 in
  match @wait_read_write_done nat counting_kernel 5 s1 with
  | Some s2 => (2 < 5)%nat ∧ (get_read_buffer s2).1 = Ok (take 3 (replicate 128 7))
  | None => (5 <= 2)%nat
  end.
Proof.
  exact (@client_reads_answer nat counting_kernel [0x9f] 3 2 5 (replicate 128 7) (mk (replicate 128 0) true 0 false 0%nat)
    (@read_write_bytes nat counting_kernel [0x9f] 3 (mk (replicate 128 0) true 0 false 0%nat)).2
    eq_refl eq_refl eq_refl ltac:(unfold MAX_READ_BUFFER_LENGTH; lia) eq_refl (conj eq_refl (conj eq_refl eq_refl))).
Defined.
End SpiHostClientFacts.

(** ** Witnesses *)

Module SpiHostWitnesses.
Import SpiHostHardware SpiHostFacts TockBits.

Definition sample_host : t :=
  set_client (init (new (mk_HostRegisters (λ _, 0) (replicate 128 0xaa) (replicate 128 0xbb)))).

Lemma answers_rev : answers (@rev Z).
Proof. intros l. apply length_rev. Qed.


Lemma sample_running : running [1; 2] None 2 true (read_write_bytes [1; 2] None 2 sample_host).2.
Proof. repeat split; by_compute. Qed.

Lemma nested_transaction_lost_witness :
  ∃ s2, handle_interrupt (λ _ _ _, read_write_bytes [3] None 1 ;; mret tt)
      (transacted (@rev Z) (read_write_bytes [1; 2] None 2 sample_host).2) = (Ok tt, s2) ∧
    read_write_bytes [4] None 1 (transacted (@rev Z) s2) = (Ok EBUSY, transacted (@rev Z) s2).
Proof.
  destruct (nested_transaction_lost (@rev Z) [1; 2] None 2 [3] None 1 (read_write_bytes [1; 2] None 2 sample_host).2)
    as (s2 & E & _ & H); [exact answers_rev|lia|lia|exact sample_running|done|].
  exists s2. split; [exact E|]. destruct (H []) as (s4 & [= <-] & _ & H4). apply H4.
Defined.

Lemma running_transaction_overwritten_witness :
  ∃ s2, read_write_bytes [3] None 1 (read_write_bytes [1; 2] None 2 sample_host).2 = (Ok SUCCESS, s2) ∧ running [3] None 1 true s2.
Proof. apply (running_transaction_overwritten [1; 2] None 2 true [3] None 1); [lia|exact sample_running]. Defined.

Lemma settings_follow_commands_witness :
  settings (SpiHostSyscall.device (foldl (flip host_event) (SpiHostSyscall.new sample_host (λ id, (id =? 0)%nat))
    [HCommand 1 1 0%nat; HReadWrite [1] None 1; HCommand 2 5 0%nat; HBus (@rev Z); HInterrupt (Some ([2], None, 1%nat)); HCommand 1 0 1%nat])) = (true, true).
Proof.
  rewrite (settings_follow_commands
    [HCommand 1 1 0%nat; HReadWrite [1] None 1; HCommand 2 5 0%nat; HBus (@rev Z); HInterrupt (Some ([2], None, 1%nat)); HCommand 1 0 1%nat]).
  reflexivity.
Defined.

End SpiHostWitnesses.
