(* ===== verification/Aes.v ===== *)
(** The AES engine: the kernel's driver (kernel/h1/src/crypto/aes.rs, the registers of
    crypto/keymgr.rs) and the system calls on it (kernel/h1_syscalls/src/aes.rs).

    What the engine computes is a parameter: [cipher] maps the control register, the key,
    the counter and a block of four words to four words.  It takes its blocks from the
    write FIFO and puts the results into the read FIFO. *)

From S2P Require Import Prelude Io Tock Registers FlashSyscalls.
From Stdlib Require Import ZArith Lia.
From stdpp Require Import base decidable option list list_numbers.

#[local] Open Scope Z_scope.

Definition AES128_BLOCK_SIZE : nat := 16.
Definition AES128_KEY_SIZE : nat := 16.

Inductive KeySize := KeySize128 | KeySize192 | KeySize256.
Definition key_size_u32 (k : KeySize) : Z := match k with KeySize128 => 0x0 | KeySize192 => 0x2 | KeySize256 => 0x4 end.

Inductive CipherMode := Ecb | Ctr | Cbc | Gcm.
Definition cipher_mode_u32 (m : CipherMode) : Z := match m with Ecb => 0x0 | Ctr => 0x8 | Cbc => 0x10 | Gcm => 0x18 end.

Definition Mode_Encrypt : Z := 0x20.
Definition CtrEndian_Little : Z := 0x40.
Definition AesModule_Enable : Z := 0x80.

Inductive Interrupt := WFIFOOverflow | RFIFOOverflow | RFIFOUnderflow | DoneCipher | DoneKeyExpansion | DoneWipeSecrets.
Definition interrupt_usize (i : Interrupt) : Z :=
  match i with
  | WFIFOOverflow => 0 | RFIFOOverflow => 1 | RFIFOUnderflow => 2 | DoneCipher => 3 | DoneKeyExpansion => 4 | DoneWipeSecrets => 5
  end.

Definition parse_interrupt (interrupt : Z) : option Interrupt :=
  if interrupt =? 104 then Some DoneCipher
  else if interrupt =? 105 then Some DoneKeyExpansion
  else if interrupt =? 106 then Some DoneWipeSecrets
  else if interrupt =? 107 then Some RFIFOOverflow
  else if interrupt =? 108 then Some RFIFOUnderflow
  else if interrupt =? 109 then Some WFIFOOverflow
  else None.

(** [key_start] counts the reads that still find the key expansion running;
    [wfifo_depth] is the number of words that the write FIFO takes. *)
Record AesRegisters := mk_Aes {
  ctrl : Z;
  wfifo : list Z;
  rfifo : list Z;
  key : list Z;
  key_start : nat;
  ctr : list Z;
  int_enable : Z;
  int_state : Z;
  wiped : bool;
  wfifo_depth : nat
}.

Definition set_ctrl (v : Z) (r : AesRegisters) : AesRegisters :=
  mk_Aes v (wfifo r) (rfifo r) (key r) (key_start r) (ctr r) (int_enable r) (int_state r) (wiped r) (wfifo_depth r).
Definition set_wfifo (l : list Z) (r : AesRegisters) : AesRegisters :=
  mk_Aes (ctrl r) l (rfifo r) (key r) (key_start r) (ctr r) (int_enable r) (int_state r) (wiped r) (wfifo_depth r).
Definition set_rfifo (l : list Z) (r : AesRegisters) : AesRegisters :=
  mk_Aes (ctrl r) (wfifo r) l (key r) (key_start r) (ctr r) (int_enable r) (int_state r) (wiped r) (wfifo_depth r).
Definition set_key_regs (l : list Z) (r : AesRegisters) : AesRegisters :=
  mk_Aes (ctrl r) (wfifo r) (rfifo r) l (key_start r) (ctr r) (int_enable r) (int_state r) (wiped r) (wfifo_depth r).
Definition set_key_start (n : nat) (r : AesRegisters) : AesRegisters :=
  mk_Aes (ctrl r) (wfifo r) (rfifo r) (key r) n (ctr r) (int_enable r) (int_state r) (wiped r) (wfifo_depth r).
Definition set_ctr (l : list Z) (r : AesRegisters) : AesRegisters :=
  mk_Aes (ctrl r) (wfifo r) (rfifo r) (key r) (key_start r) l (int_enable r) (int_state r) (wiped r) (wfifo_depth r).
Definition set_int_enable (v : Z) (r : AesRegisters) : AesRegisters :=
  mk_Aes (ctrl r) (wfifo r) (rfifo r) (key r) (key_start r) (ctr r) v (int_state r) (wiped r) (wfifo_depth r).
Definition set_int_state (v : Z) (r : AesRegisters) : AesRegisters :=
  mk_Aes (ctrl r) (wfifo r) (rfifo r) (key r) (key_start r) (ctr r) (int_enable r) v (wiped r) (wfifo_depth r).
Definition set_wiped (r : AesRegisters) : AesRegisters :=
  mk_Aes (ctrl r) (wfifo r) (rfifo r) (key r) (key_start r) (ctr r) (int_enable r) (int_state r) true (wfifo_depth r).

Module AesEngine.
Section Engine.
Context (cipher : Z → list Z → list Z → list Z → list Z) (expansion : list Z → nat).

Record t := mk {
  regs : AesRegisters;
  client : bool;
  output : option (list Z);
  input : option (list Z);
  read_index : nat;
  write_index : nat;
  stop_index : nat
}.

Definition new (r : AesRegisters) : t := mk r false None None 0 0 0.

Definition on_regs (f : AesRegisters → AesRegisters) (s : t) : t :=
  mk (f (regs s)) (client s) (output s) (input s) (read_index s) (write_index s) (stop_index s).
Definition set_client (s : t) : t := mk (regs s) true (output s) (input s) (read_index s) (write_index s) (stop_index s).
Definition set_output (b : option (list Z)) (s : t) : t := mk (regs s) (client s) b (input s) (read_index s) (write_index s) (stop_index s).
Definition set_input (b : option (list Z)) (s : t) : t := mk (regs s) (client s) (output s) b (read_index s) (write_index s) (stop_index s).
Definition set_indices (r w e : nat) (s : t) : t := mk (regs s) (client s) (output s) (input s) r w e.

(** ** Registers *)

Definition enable_interrupt (i : Interrupt) : t → t :=
  on_regs (λ r, set_int_enable (Z.lor (int_enable r) (Z.shiftl 1 (interrupt_usize i))) r).

(** A write of one to a bit of [int_state] clears it. *)
Definition clear_interrupt (i : Interrupt) : t → t :=
  on_regs (λ r, set_int_state (Z.land (int_state r) (Z.lnot (Z.shiftl 1 (interrupt_usize i)))) r).

Definition enable_all_interrupts (s : t) : t :=
  foldl (flip enable_interrupt) s [WFIFOOverflow; RFIFOOverflow; RFIFOUnderflow; DoneCipher; DoneKeyExpansion; DoneWipeSecrets].

Definition finish : t → t := on_regs (λ r, set_wiped (set_ctrl 0 (set_int_enable 0 r))).

Definition setup (s : t) : t :=
  on_regs (λ r, set_ctrl (Z.lor (ctrl r) AesModule_Enable) r) (enable_interrupt DoneKeyExpansion (enable_interrupt DoneCipher s)).

Definition set_cipher_mode (m : CipherMode) : t → t :=
  on_regs (λ r, set_ctrl (Z.lor (Z.land (ctrl r) (Z.lnot 0x18)) (u32 (Z.shiftl (cipher_mode_u32 m) 3))) r).

Definition set_encrypt_mode (encrypt : bool) : t → t :=
  on_regs (λ r, set_ctrl (if encrypt then Z.lor (ctrl r) Mode_Encrypt else Z.land (ctrl r) (Z.lnot Mode_Encrypt)) r).

(** [while regs.key_start.get() != 0 {}] *)
Fixpoint wait_expanded (n : nat) : nat := match n with 0%nat => 0 | S n => wait_expanded n end.

Definition install_key (size : KeySize) (k : list Z) (s : t) : t :=
  let s := on_regs (λ r, set_ctrl (Z.lor (Z.land (ctrl r) (Z.lnot 0x6)) (u32 (Z.shiftl (key_size_u32 size) 1))) r) s in
  let s := on_regs (set_key_regs k) s in
  let s := on_regs (set_key_start (expansion k)) s in
  on_regs (λ r, set_key_start (wait_expanded (key_start r)) r) s.

Definition set_key (k : list Z) (s : t) : ReturnCode * t :=
  if negb (length k =? 16)%nat then (ESIZE, s)
  else (SUCCESS, install_key KeySize128 (FlashSyscalls.app_words 4 k ++ replicate 4 0) s).

Definition set_iv (iv : list Z) (s : t) : ReturnCode * t :=
  if negb (length iv =? AES128_BLOCK_SIZE)%nat then (ESIZE, s)
  else (SUCCESS, on_regs (set_ctr (FlashSyscalls.app_words 4 iv)) s).

Definition start_message (s : t) : t := s.
Definition disable (s : t) : t := s.
Definition enable : t → t := setup.

Definition set_mode_aes128ecb (encrypting : bool) (s : t) : t := set_encrypt_mode encrypting (set_cipher_mode Ecb s).
Definition set_mode_aes128cbc (encrypting : bool) (s : t) : t := set_encrypt_mode encrypting (set_cipher_mode Cbc s).
Definition set_mode_aes128ctr (encrypting : bool) (s : t) : t := set_encrypt_mode true (set_cipher_mode Ctr s).

(** ** Data *)

(** [word.iter().enumerate().fold(0, |accm, (i, byte)| accm | (byte << (i * 8)))] *)
Definition chunk_word (chunk : list Z) : Z := le_value chunk.

(** The loop over the chunks of four bytes: the words written, and their bytes. *)
Fixpoint write_chunks (fuel : nat) (data : list Z) (written_bytes written_words : nat) (r : AesRegisters) : nat * nat * AesRegisters :=
  match fuel, data with
  | 0%nat, _ | _, [] => (written_bytes, written_words, r)
  | S fuel, _ =>
      if (wfifo_depth r <=? length (wfifo r))%nat || (16 <=? written_bytes)%nat then (written_bytes, written_words, r)
      else
        let chunk := take 4 data in
        write_chunks fuel (drop 4 data) (written_bytes + length chunk) (S written_words) (set_wfifo (wfifo r ++ [chunk_word chunk]) r)
  end.

Definition crypt_words (data : list Z) (s : t) : nat * t :=
  let '(written_bytes, written_words, r) := write_chunks (length data) data 0 0 (regs s) in
  (written_bytes, on_regs (λ _, set_wfifo (wfifo r ++ replicate (4 - written_words) 0) r) s).

(** The loop of [read_data]: words while there are any and the buffer has room. *)
Fixpoint read_loop (words output : list Z) (i : nat) : nat * list Z * list Z :=
  match words with
  | [] => (i, output, [])
  | w :: words' =>
      if (i + 3 <? length output)%nat then read_loop words' (copy_at output i (le_bytes 4 w)) (i + 4) else (i, output, words)
  end.

Definition read_data (out : list Z) (s : t) : nat * list Z * t :=
  let '(n, out, rest) := read_loop (rfifo (regs s)) out 0 in (n, out, on_regs (set_rfifo rest) s).

Definition try_set_indices (start stop : nat) (s : t) : bool * t :=
  if (stop <? start)%nat then (false, s)
  else
    let sublen := (stop - start)%nat in
    if negb (sublen mod AES128_BLOCK_SIZE =? 0)%nat then (false, s)
    else
      let fits_ := match output s with Some dest => (stop <=? length dest)%nat | None => false end in
      match input s with
      | None => if fits_ then (true, set_indices start start stop s) else (false, s)
      | Some source => if (sublen =? length source)%nat && fits_ then (true, set_indices start 0 stop s) else (false, s)
      end.

(** [Some (rc, source, dest)]: refused, and the buffers are given back. *)
Definition crypt (source : option (list Z)) (dest : list Z) (start stop : nat) : K t (option (ReturnCode * option (list Z) * list Z)) :=
  i ← gets input;
  if bool_decide (is_Some i) then mret (Some (EBUSY, source, dest))
  else
    modify (set_input source) ;;
    modify (set_output (Some dest)) ;;
    ok ← (λ s, let '(ok, s) := try_set_indices start stop s in (Ok ok, s));
    if ok : bool then
      i ← gets input;
      o ← gets output;
      buf ← unwrap (match i with Some b => Some b | None => o end);
      data ← unwrap (slice buf start stop);
      modify (λ s, (crypt_words data s).2) ;;
      mret None
    else
      i ← gets input;
      o ← gets output;
      modify (set_input None) ;; modify (set_output None) ;;
      d ← unwrap o;
      mret (Some (EINVAL, i, d)).

(** The engine takes a block. *)
Definition ciphered (s : t) : t :=
  if (4 <=? length (wfifo (regs s)))%nat then
    on_regs (λ r, set_int_state (Z.lor (int_state r) (Z.shiftl 1 (interrupt_usize DoneCipher)))
      (set_rfifo (rfifo r ++ cipher (ctrl r) (key r) (ctr r) (take 4 (wfifo r))) (set_wfifo (drop 4 (wfifo r)) r))) s
  else s.

Definition pending (i : Interrupt) (s : t) : bool := Z.testbit (int_state (regs s)) (interrupt_usize i).

End Engine.
End AesEngine.

(** ** System calls *)

Record AesApp := mk_AesApp {
  app_key : option (list Z);
  input_buffer : option (list Z);
  output_buffer : option (list Z);
  iv_buffer : option (list Z);
  crypto_callback : option nat
}.

Definition AesApp_default : AesApp := mk_AesApp None None None None None.

Definition set_app_key (b : option (list Z)) (a : AesApp) : AesApp := mk_AesApp b (input_buffer a) (output_buffer a) (iv_buffer a) (crypto_callback a).
Definition set_input_buffer (b : option (list Z)) (a : AesApp) : AesApp := mk_AesApp (app_key a) b (output_buffer a) (iv_buffer a) (crypto_callback a).
Definition set_output_buffer (b : option (list Z)) (a : AesApp) : AesApp := mk_AesApp (app_key a) (input_buffer a) b (iv_buffer a) (crypto_callback a).
Definition set_iv_buffer (b : option (list Z)) (a : AesApp) : AesApp := mk_AesApp (app_key a) (input_buffer a) (output_buffer a) b (crypto_callback a).
Definition set_crypto_callback (c : option nat) (a : AesApp) : AesApp := mk_AesApp (app_key a) (input_buffer a) (output_buffer a) (iv_buffer a) c.

Record AesUpcall := mk_AesUpcall { au_app : AppId; au_callback : nat; au_val : nat }.

Module AesDriver.
Section Driver.
Context (expansion : list Z → nat).

Record t := mk {
  device : AesEngine.t;
  apps : AppId → option AesApp;
  current_user : option AppId;
  buffer : option (list Z);
  upcalls : list AesUpcall
}.

Definition new (d : AesEngine.t) (container : AppId → option AesApp) : t := mk d container None None [].

Definition set_device (d : AesEngine.t) (s : t) : t := mk d (apps s) (current_user s) (buffer s) (upcalls s).
Definition set_app (id : AppId) (a : AesApp) (s : t) : t :=
  mk (device s) (λ i, if decide (i = id) then Some a else apps s i) (current_user s) (buffer s) (upcalls s).
Definition set_user (u : option AppId) (s : t) : t := mk (device s) (apps s) u (buffer s) (upcalls s).
Definition set_buffer (b : option (list Z)) (s : t) : t := mk (device s) (apps s) (current_user s) b (upcalls s).
Definition schedule (id : AppId) (cb : option nat) (val : nat) (s : t) : t :=
  mk (device s) (apps s) (current_user s) (buffer s) (upcalls s ++ match cb with Some c => [mk_AesUpcall id c val] | None => [] end).

Definition on_device (f : AesEngine.t → AesEngine.t) (s : t) : t := set_device (f (device s)) s.

(** [Some buf]: the buffer has the wrong size and is given back. *)
Definition initialize (input_buffer : list Z) (s : t) : option (list Z) * t :=
  let s := on_device AesEngine.setup s in
  if negb (length input_buffer =? AES128_BLOCK_SIZE)%nat then (Some input_buffer, s)
  else (None, set_buffer (Some input_buffer) s).

(** [self.apps.enter(id, ..)], with the answer for a process without a grant. *)
Definition enter (id : AppId) (fail : ReturnCode) (f : AesApp → K t ReturnCode) : K t ReturnCode :=
  o ← gets (λ s, apps s id);
  match o with Some a => f a | None => mret fail end.

(** [for (i, c) in src[0..16].iter().enumerate() { buf[i] = *c; }] *)
Definition copy_block (src buf : list Z) : option (list Z) :=
  block ← slice src 0 AES128_BLOCK_SIZE;
  if (AES128_BLOCK_SIZE <=? length buf)%nat then Some (copy_at buf 0 block) else None.

Definition run_aes (id : AppId) : K t ReturnCode :=
  enter id ENOMEM (λ a,
    b ← gets buffer;
    match input_buffer a, app_key a, b with
    | Some src, Some k, Some buf =>
        if (length k =? AES128_KEY_SIZE)%nat then
          modify (on_device (λ d, (AesEngine.set_key expansion k d).2)) ;;
          buf ← unwrap (copy_block src buf);
          modify (set_buffer None) ;;
          opt ← zoom device set_device (AesEngine.crypt None buf 0 AES128_BLOCK_SIZE);
          match opt with
          | Some (rcode, _, obuf) => modify (set_buffer (Some obuf)) ;; mret rcode
          | None => mret SUCCESS
          end
        else
          modify (set_app id (set_app_key None a)) ;; mret EINVAL
    | _, _, _ => mret ENOMEM
    end).

Definition subscribe (subscribe_num : Z) (cb : option nat) (id : AppId) : K t ReturnCode :=
  if subscribe_num =? 0 then enter id ENOMEM (λ a, modify (set_app id (set_crypto_callback cb a)) ;; mret SUCCESS)
  else mret ENOSUPPORT.

Definition command_ctr (id : AppId) : K t ReturnCode :=
  enter id ENOMEM (λ a,
    modify (on_device (AesEngine.set_mode_aes128ctr true)) ;;
    match iv_buffer a with
    | Some iv => modify (on_device (λ d, (AesEngine.set_iv iv d).2)) ;; run_aes id
    | None => mret ENOMEM
    end).

Definition command_install_key (id : AppId) : K t ReturnCode :=
  enter id ENOMEM (λ a,
    match app_key a with
    | Some k =>
        (if (length k =? AES128_KEY_SIZE)%nat then modify (on_device (λ d, (AesEngine.set_key expansion k d).2)) else mret tt) ;;
        mret SUCCESS
    | None => mret ENOMEM
    end).

Definition command (command_num : Z) (id : AppId) : K t ReturnCode :=
  modify (λ s, match current_user s with None => set_user (Some id) s | Some _ => s end) ;;
  if command_num =? 0 then mret SUCCESS
  else if command_num =? 1 then modify (on_device (AesEngine.set_mode_aes128ecb true)) ;; run_aes id
  else if command_num =? 2 then modify (on_device (AesEngine.set_mode_aes128ecb false)) ;; run_aes id
  else if (command_num =? 3) || (command_num =? 4) then command_ctr id
  else if command_num =? 5 then modify (on_device (AesEngine.set_mode_aes128cbc true)) ;; run_aes id
  else if command_num =? 6 then modify (on_device (AesEngine.set_mode_aes128cbc false)) ;; run_aes id
  else if command_num =? 7 then command_install_key id
  else modify (set_user None) ;; mret ENOSUPPORT.

Definition share (id : AppId) (set : option (list Z) → AesApp → AesApp) (size : nat) (slice : option (list Z)) : K t ReturnCode :=
  enter id FAIL (λ a,
    match slice with
    | Some b => if negb (length b =? size)%nat then mret ESIZE else modify (set_app id (set (Some b) a)) ;; mret SUCCESS
    | None => modify (set_app id (set None a)) ;; mret SUCCESS
    end).

Definition allow (id : AppId) (minor_num : Z) (slice : option (list Z)) : K t ReturnCode :=
  if minor_num =? 0 then share id set_app_key AES128_KEY_SIZE slice
  else if minor_num =? 1 then share id set_input_buffer AES128_BLOCK_SIZE slice
  else if minor_num =? 2 then share id set_output_buffer AES128_BLOCK_SIZE slice
  else if minor_num =? 3 then share id set_iv_buffer AES128_BLOCK_SIZE slice
  else mret ENOSUPPORT.

(** [device.read_data] into one of the process's buffers: the number of bytes, and the
    buffer. *)
Definition fill (b : option (list Z)) (d : AesEngine.t) : nat * option (list Z) * AesEngine.t :=
  match b with
  | Some buf => let '(n, buf, d) := AesEngine.read_data buf d in (n, Some buf, d)
  | None => (0%nat, None, d)
  end.

Definition deliver (id : AppId) (a : AesApp) (s : t) : t :=
  let '(_, out, d) := fill (output_buffer a) (device s) in
  let '(val, inp, d) := fill (input_buffer a) d in
  schedule id (crypto_callback a) val (set_user None (set_app id (set_input_buffer inp (set_output_buffer out a)) (set_device d s))).

Definition crypt_done (out : list Z) (s : t) : t :=
  let s := match current_user s with
           | Some id => match apps s id with Some a => deliver id a s | None => s end
           | None => s
           end in
  set_buffer (Some out) s.

(** The interrupt of the engine, with the driver as its client. *)
Definition handle_interrupt (interrupt : Z) : K t unit :=
  int ← unwrap (parse_interrupt interrupt);
  c ← gets (λ s, AesEngine.client (device s));
  (if c : bool then
     match int with
     | DoneCipher =>
         o ← gets (λ s, AesEngine.output (device s));
         modify (on_device (AesEngine.set_input None)) ;;
         modify (on_device (AesEngine.set_output None)) ;;
         out ← unwrap o;
         modify (crypt_done out)
     | _ => mret tt
     end
   else mret tt) ;;
  modify (on_device (AesEngine.clear_interrupt int)).

End Driver.
End AesDriver.

(** ** Facts *)

Module AesFacts.
Import AesDriver.

Section Facts.
Context (cipher : Z → list Z → list Z → list Z → list Z) (expansion : list Z → nat).
Hypothesis cipher_block : ∀ c k v b, length (cipher c k v b) = 4%nat.

Lemma crypt_words_block data (d : AesEngine.t) : length data = 16%nat → wfifo (AesEngine.regs d) = [] → (4 <= wfifo_depth (AesEngine.regs d))%nat →
  (AesEngine.crypt_words data d).2 = AesEngine.on_regs (set_wfifo (FlashSyscalls.app_words 4 data)) d.
Proof.
  intros Hl Hw Hd. destruct d as [[? w ? ? ? ? ? ? ? n] ? ? ? ? ? ?]. cbn in Hw, Hd. subst w.
  do 17 (destruct data as [|? data]; [discriminate Hl || idtac|]); [|discriminate Hl].
  do 4 (destruct n as [|n]; [lia|]). reflexivity.
Qed.

Lemma read_loop_block words out rest : length words = 4%nat → length out = 16%nat →
  AesEngine.read_loop (words ++ rest) out 0 = (16%nat, register_bytes words, rest).
Proof.
  intros Hw Ho. do 5 (destruct words as [|? words]; [discriminate Hw || idtac|]); [|discriminate Hw].
  do 17 (destruct out as [|? out]; [discriminate Ho || idtac|]); [|discriminate Ho]. destruct rest; reflexivity.
Qed.

(** An engine that takes a block, and one that works on [src]. *)
Definition free (d : AesEngine.t) : Prop :=
  AesEngine.client d = true ∧ AesEngine.input d = None ∧ AesEngine.output d = None ∧
  wfifo (AesEngine.regs d) = [] ∧ (4 <= wfifo_depth (AesEngine.regs d))%nat.

Definition working (src : list Z) (d : AesEngine.t) : Prop :=
  AesEngine.client d = true ∧ AesEngine.input d = None ∧ AesEngine.output d = Some src ∧
  wfifo (AesEngine.regs d) = FlashSyscalls.app_words 4 src ∧ (4 <= wfifo_depth (AesEngine.regs d))%nat.

Definition block (b : list Z) : Prop := length b = 16%nat.

Lemma crypt_starts src (d : AesEngine.t) : block src → free d →
  ∃ d', AesEngine.crypt None src 0 AES128_BLOCK_SIZE d = (Ok None, d') ∧ working src d' ∧
    AesEngine.regs d' = set_wfifo (FlashSyscalls.app_words 4 src) (AesEngine.regs d).
Proof.
  intros Hs (Hc & Hi & Ho & Hw & Hd). unfold AesEngine.crypt. rewrite bind_gets, Hi. rewrite bool_decide_eq_false_2 by (by intros []). run.
  rewrite bind_unfold. unfold AesEngine.try_set_indices. cbn [AesEngine.output AesEngine.input AesEngine.set_output AesEngine.set_input].
  cbn [Nat.ltb Nat.leb AES128_BLOCK_SIZE Nat.sub Nat.modulo]. rewrite Hs. cbn -[FlashSyscalls.app_words mbind].
  run. cbn [AesEngine.input AesEngine.output AesEngine.set_indices AesEngine.set_output AesEngine.set_input].
  erewrite bind_ok by reflexivity. replace AES128_BLOCK_SIZE with (length src) by exact Hs. rewrite slice_all. erewrite bind_ok by reflexivity. run.
  eexists. split; [reflexivity|]. rewrite crypt_words_block by done. done.
Qed.

(** What the commands do to the engine before the block is written. *)
Definition prepared (n : Z) (a : AesApp) (d : AesEngine.t) : option AesEngine.t :=
  if n =? 1 then Some (AesEngine.set_mode_aes128ecb true d)
  else if n =? 2 then Some (AesEngine.set_mode_aes128ecb false d)
  else if (n =? 3) || (n =? 4) then (λ iv, (AesEngine.set_iv iv (AesEngine.set_mode_aes128ctr true d)).2) <$> iv_buffer a
  else if n =? 5 then Some (AesEngine.set_mode_aes128cbc true d)
  else if n =? 6 then Some (AesEngine.set_mode_aes128cbc false d)
  else None.

Lemma prepared_free n a d d1 : prepared n a d = Some d1 → free d → free d1.
Proof.
  unfold prepared. intros Hp (? & ? & ? & ? & ?).
  repeat case_match; simplify_option_eq; try done; by (unfold AesEngine.set_iv; case_match).
Qed.

(** The part of a command behind the choice of the mode. *)
Lemma aes_run_starts id a src k buf s d1 :
  apps s id = Some a → input_buffer a = Some src → app_key a = Some k → buffer s = Some buf →
  block src → block k → block buf → free (device s) → d1 = (AesEngine.set_key expansion k (device s)).2 →
  ∃ d2, run_aes expansion id s = (Ok SUCCESS, set_device d2 (set_buffer None s)) ∧ working src d2 ∧
    AesEngine.regs d2 = set_wfifo (FlashSyscalls.app_words 4 src) (AesEngine.regs d1).
Proof.
  intros Ha Hi Hk Hb Hs Hkl Hbl Hf ->. unfold run_aes, enter. rewrite bind_gets, Ha. rewrite bind_gets, Hi, Hk, Hb.
  rewrite (proj2 (Nat.eqb_eq _ _)) by exact Hkl. run.
  assert (copy_block src buf = Some src) as Hc.
  { unfold copy_block. replace AES128_BLOCK_SIZE with (length src) by exact Hs. rewrite slice_all. cbn [mbind option_bind].
    rewrite (proj2 (Nat.leb_le _ _)) by (rewrite Hs, Hbl; done). f_equal. unfold copy_at. rewrite take_0, drop_ge by (rewrite Hs, Hbl; done).
    by rewrite app_nil_r. }
  rewrite Hc. erewrite bind_ok by reflexivity. run.
  destruct (crypt_starts src (AesEngine.set_key expansion k (device s)).2 Hs) as (d2 & E & Hw & Hr).
  { unfold AesEngine.set_key. rewrite Hkl. exact Hf. }
  exists d2. split; [|done]. erewrite bind_ok; [|unfold zoom; cbn [device set_buffer set_device on_device]; rewrite E; reflexivity]. done.
Qed.

Lemma note_user id s :
  match current_user s with None => set_user (Some id) s | Some _ => s end = set_user (Some (default id (current_user s))) s.
Proof. by destruct s as [? ? [] ? ?]. Qed.

Lemma command_starts n id a src k buf s d1 :
  1 <= n <= 6 → apps s id = Some a → input_buffer a = Some src → app_key a = Some k → buffer s = Some buf →
  block src → block k → block buf → free (device s) → prepared n a (device s) = Some d1 →
  ∃ d2, command expansion n id s = (Ok SUCCESS, mk d2 (apps s) (Some (default id (current_user s))) None (upcalls s)) ∧ working src d2 ∧
    AesEngine.regs d2 = set_wfifo (FlashSyscalls.app_words 4 src) (AesEngine.regs (AesEngine.set_key expansion k d1).2).
Proof.
  intros Hn Ha Hi Hk Hb Hs Hkl Hbl Hf Hp. pose proof (prepared_free n a _ _ Hp Hf) as Hf1.
  set (s0 := set_user (Some (default id (current_user s))) s).
  destruct (aes_run_starts id a src k buf (set_device d1 s0) _ Ha Hi Hk Hb Hs Hkl Hbl Hf1 eq_refl) as (d2 & E & Hw & Hr).
  exists d2. split; [|done]. assert (command expansion n id s = run_aes expansion id (set_device d1 s0)) as ->; [|exact E].
  unfold command. rewrite bind_modify, note_user. fold s0. unfold prepared in Hp. destruct (Z.eqb_spec n 0); [lia|].
  destruct (n =? 1); [by simplify_eq|]. destruct (n =? 2); [by simplify_eq|]. destruct ((n =? 3) || (n =? 4)).
  - unfold command_ctr, enter. rewrite bind_gets. subst s0. cbn [apps set_user]. rewrite Ha. run.
    destruct (iv_buffer a); [|done]. by simplify_eq/=.
  - destruct (n =? 5); [by simplify_eq|]. destruct (n =? 6); by simplify_eq.
Qed.
(** The end of a block, up to the delivery to the process. *)
Definition completed (d : AesEngine.t) : AesEngine.t := AesEngine.set_output None (AesEngine.set_input None (AesEngine.ciphered cipher d)).

Lemma interrupt_delivers src id a s : working src (device s) → current_user s = Some id → apps s id = Some a →
  handle_interrupt 104 (on_device (AesEngine.ciphered cipher) s) =
    (Ok tt, on_device (AesEngine.clear_interrupt DoneCipher) (set_buffer (Some src) (deliver id a (on_device completed s)))).
Proof.
  intros (Hc & Hi & Ho & Hw & Hd) Hu Ha. unfold handle_interrupt. cbn [parse_interrupt Z.eqb Pos.eqb]. erewrite bind_ok by reflexivity.
  assert (AesEngine.client (AesEngine.ciphered cipher (device s)) = true ∧ AesEngine.output (AesEngine.ciphered cipher (device s)) = Some src) as [Hc' Ho'].
  { unfold AesEngine.ciphered. by case_match. }
  run. cbn [device on_device set_device]. rewrite Hc'. run. cbn [device on_device set_device AesEngine.output AesEngine.set_input]. rewrite Ho'.
  run. erewrite bind_ok by reflexivity. run. unfold crypt_done, modify. cbn [current_user apps on_device set_device]. by rewrite Hu, Ha.
Qed.

Lemma completed_regs src s : working src (device s) → let r := AesEngine.regs (device s) in
  rfifo (AesEngine.regs (completed (device s))) = rfifo r ++ cipher (ctrl r) (key r) (ctr r) (FlashSyscalls.app_words 4 src) ∧
  free (completed (device s)).
Proof.
  intros (Hc & Hi & Ho & Hw & Hd) r. unfold completed, AesEngine.ciphered, free.
  rewrite Hw, FlashSyscallFacts.length_app_words. cbn -[FlashSyscalls.app_words]. rewrite Hw. fold r. done.
Qed.

(** The callback of a process, with the number of bytes. *)
Definition told (id : AppId) (a : AesApp) (val : nat) : list AesUpcall :=
  match crypto_callback a with Some c => [mk_AesUpcall id c val] | None => [] end.

(** What a process with both buffers finds when the read FIFO holds [w1] and [w2]. *)
Lemma fill_block out w rest (d : AesEngine.t) : block out → length w = 4%nat → rfifo (AesEngine.regs d) = w ++ rest →
  fill (Some out) d = (16%nat, Some (register_bytes w), AesEngine.on_regs (set_rfifo rest) d).
Proof. intros Ho Hw Hr. unfold fill, AesEngine.read_data. by rewrite Hr, read_loop_block. Qed.

Lemma fill_empty b (d : AesEngine.t) : rfifo (AesEngine.regs d) = [] → ∃ d', fill b d = (0%nat, b, d') ∧ rfifo (AesEngine.regs d') = [] ∧ (free d → free d').
Proof. intros Hr. unfold fill, AesEngine.read_data. rewrite Hr. destruct b; by eexists. Qed.

Lemma deliver_result id a s out w : output_buffer a = Some out → block out → length w = 4%nat → rfifo (AesEngine.regs (device s)) = w →
  free (device s) →
  ∃ d, deliver id a s = mk d (λ i, if decide (i = id) then Some (set_output_buffer (Some (register_bytes w)) a) else apps s i)
      None (buffer s) (upcalls s ++ told id a 0) ∧ rfifo (AesEngine.regs d) = [] ∧ free d.
Proof.
  intros Ho Hb Hw Hr Hf. unfold deliver. rewrite Ho. rewrite (fill_block out w []) by (done || by rewrite app_nil_r).
  destruct (fill_empty (input_buffer a) (AesEngine.on_regs (set_rfifo []) (device s))) as (d & -> & Hd & Hfd); [done|].
  exists d. split; [|split; [done|by apply Hfd]]. by destruct a.
Qed.

(** The end of a block, for whatever process is the current user. *)
Lemma run_delivers src P a out (d : AesEngine.t) ap ups : working src d → rfifo (AesEngine.regs d) = [] → ap P = Some a →
  output_buffer a = Some out → block out → let r := AesEngine.regs d in
  ∃ d3, handle_interrupt 104 (on_device (AesEngine.ciphered cipher) (mk d ap (Some P) None ups)) =
    (Ok tt, mk d3 (λ i, if decide (i = P) then Some (set_output_buffer (Some (register_bytes
        (cipher (ctrl r) (key r) (ctr r) (FlashSyscalls.app_words 4 src)))) a) else ap i) None (Some src) (ups ++ told P a 0)) ∧
    free d3 ∧ rfifo (AesEngine.regs d3) = [].
Proof.
  intros Hw Hr Ha Ho Hol r. destruct (completed_regs src (mk d ap (Some P) None ups) Hw) as [Hc1 Hc2]. cbn [device] in *.
  rewrite Hr, app_nil_l in Hc1.
  destruct (deliver_result P a (on_device completed (mk d ap (Some P) None ups)) out
    (cipher (ctrl r) (key r) (ctr r) (FlashSyscalls.app_words 4 src)) Ho Hol) as (d3 & E & Hd3 & Hf3); [by apply cipher_block|exact Hc1|done|].
  eexists. split; [rewrite (interrupt_delivers src P a), E by done; reflexivity|]. done.
Qed.

Lemma prepared_regs n a d d1 k : prepared n a d = Some d1 → block k → let r := AesEngine.regs (AesEngine.set_key expansion k d1).2 in
  rfifo r = rfifo (AesEngine.regs d) ∧ key r = FlashSyscalls.app_words 4 k ++ replicate 4 0.
Proof.
  intros Hp Hk. unfold AesEngine.set_key. rewrite Hk. cbn. split; [|done]. revert Hp. unfold prepared, AesEngine.set_iv.
  intros. repeat case_match; simplify_option_eq; try done; by case_match.
Qed.

(** A block goes through the engine.  On an idle engine with an empty read FIFO, each of
    the six commands, called by a process that has shared a key, an input and an output
    buffer (and an initialization vector for counter mode), is accepted.  When the
    engine is done, the interrupt puts the result, under the key and the block of the
    process and the control word of the command, into its output buffer and delivers one
    call; everything else is as before and the engine idle again. *)
Theorem block_processed (n : Z) (id : AppId) (a : AesApp) (src out k buf : list Z) (s : t) (d1 : AesEngine.t) :
  1 <= n <= 6 → apps s id = Some a → current_user s = None → input_buffer a = Some src → output_buffer a = Some out → app_key a = Some k →
  buffer s = Some buf → block src → block out → block k → block buf → free (device s) → rfifo (AesEngine.regs (device s)) = [] →
  prepared n a (device s) = Some d1 →
  ∃ s1 s2, command expansion n id s = (Ok SUCCESS, s1) ∧
    handle_interrupt 104 (on_device (AesEngine.ciphered cipher) s1) = (Ok tt, s2) ∧
    (let r := AesEngine.regs (AesEngine.set_key expansion k d1).2 in
     apps s2 id = Some (set_output_buffer (Some (register_bytes
       (cipher (ctrl r) (FlashSyscalls.app_words 4 k ++ replicate 4 0) (ctr r) (FlashSyscalls.app_words 4 src)))) a)) ∧
    (∀ id', id' ≠ id → apps s2 id' = apps s id') ∧ upcalls s2 = upcalls s ++ told id a 0 ∧
    current_user s2 = None ∧ buffer s2 = Some src ∧ free (device s2) ∧ rfifo (AesEngine.regs (device s2)) = [].
Proof.
  intros Hn Ha Hu Hi Ho Hk Hb Hs Hol Hkl Hbl Hf Hr Hp.
  destruct (command_starts n id a src k buf s d1) as (d2 & E & Hw & Hr2); [done..|].
  destruct (prepared_regs n a _ d1 k Hp Hkl) as [Hr3 Hk3]. rewrite Hu in E. cbn [default] in E.
  destruct (run_delivers src id a out d2 (apps s) (upcalls s)) as (d3 & E3 & Hf3 & Hd3); [done|rewrite Hr2; cbn; congruence|done..|].
  eexists _, _. split; [exact E|]. split; [exact E3|]. rewrite Hr2. cbn -[FlashSyscalls.app_words replicate]. rewrite Hk3, decide_True by done.
  split_and!; try done. intros id' Hne. by rewrite decide_False.
Qed.

(** Results go to whoever called first.  A process that has only asked whether the
    driver is there is from then on its current user.  When another process then
    encrypts a block, the call succeeds, but the result, computed with the other's key
    from the other's data, is put into the first one's output buffer, which alone is
    called; the process that asked for it gets nothing. *)
Theorem result_goes_to_first_caller (P Q : AppId) (ap aq : AesApp) (n : Z) (src out k buf : list Z) (s : t) (d1 : AesEngine.t) :
  P ≠ Q → current_user s = None → apps s P = Some ap → apps s Q = Some aq → output_buffer ap = Some out → block out →
  1 <= n <= 6 → input_buffer aq = Some src → app_key aq = Some k → buffer s = Some buf → block src → block k → block buf →
  free (device s) → rfifo (AesEngine.regs (device s)) = [] → prepared n aq (device s) = Some d1 →
  ∃ s0 s1 s2, command expansion 0 P s = (Ok SUCCESS, s0) ∧ command expansion n Q s0 = (Ok SUCCESS, s1) ∧
    handle_interrupt 104 (on_device (AesEngine.ciphered cipher) s1) = (Ok tt, s2) ∧
    (let r := AesEngine.regs (AesEngine.set_key expansion k d1).2 in
     (apps s2 P ≫= output_buffer) = Some (register_bytes
       (cipher (ctrl r) (FlashSyscalls.app_words 4 k ++ replicate 4 0) (ctr r) (FlashSyscalls.app_words 4 src)))) ∧
    apps s2 Q = Some aq ∧ upcalls s2 = upcalls s ++ told P ap 0.
Proof.
  intros Hne Hu Hap Haq Ho Hol Hn Hi Hk Hb Hs Hkl Hbl Hf Hr Hp. exists (set_user (Some P) s).
  destruct (command_starts n Q aq src k buf (set_user (Some P) s) d1) as (d2 & E & Hw & Hr2); [done..|].
  destruct (prepared_regs n aq _ d1 k Hp Hkl) as [Hr3 Hk3]. cbn [default current_user set_user apps upcalls] in E.
  destruct (run_delivers src P ap out d2 (apps s) (upcalls s)) as (d3 & E3 & _ & _); [done|rewrite Hr2; cbn; congruence|done..|].
  eexists _, _. split; [unfold command; rewrite bind_modify, Hu; done|]. split; [exact E|]. split; [exact E3|].
  rewrite Hr2. cbn -[FlashSyscalls.app_words replicate]. rewrite Hk3, decide_True, decide_False by done. done.
Qed.

(** ** The cipher mode *)

Lemma land_lor_clear x y m : Z.land (Z.lor (Z.land x (Z.lnot m)) y) m = Z.land y m.
Proof.
  apply Z.bits_inj'. intros i Hi. rewrite !Z.land_spec, Z.lor_spec, Z.land_spec, Z.lnot_spec by lia.
  destruct (Z.testbit x i), (Z.testbit y i), (Z.testbit m i); done.
Qed.

Definition mode_bits (d : AesEngine.t) : Z := Z.land (ctrl (AesEngine.regs d)) 0x18.

Lemma set_cipher_mode_bits m d : mode_bits (AesEngine.set_cipher_mode m d) = 0.
Proof. unfold mode_bits. cbn. rewrite land_lor_clear. by destruct m. Qed.

Lemma land_lor_other x m n : Z.land m n = 0 → Z.land (Z.lor x m) n = Z.land x n.
Proof. intros H. by rewrite Z.land_lor_distr_l, H, Z.lor_0_r. Qed.

Lemma land_clear_other x m n : Z.land m n = 0 → Z.land (Z.land x (Z.lnot m)) n = Z.land x n.
Proof.
  intros H. apply Z.bits_inj'. intros i Hi. rewrite !Z.land_spec, Z.lnot_spec by lia.
  apply (f_equal (λ z, Z.testbit z i)) in H. rewrite Z.land_spec, Z.bits_0 in H.
  destruct (Z.testbit x i), (Z.testbit m i), (Z.testbit n i); done.
Qed.

Lemma set_encrypt_mode_bits b d : mode_bits (AesEngine.set_encrypt_mode b d) = mode_bits d.
Proof. unfold mode_bits. destruct b; cbn; [by apply land_lor_other|by apply land_clear_other]. Qed.

Lemma set_key_bits k d : mode_bits (AesEngine.set_key expansion k d).2 = mode_bits d.
Proof. unfold AesEngine.set_key. case_match; [done|]. unfold mode_bits. cbn. rewrite Z.lor_0_r. by apply land_clear_other. Qed.

Lemma set_iv_bits iv d : mode_bits (AesEngine.set_iv iv d).2 = mode_bits d.
Proof. unfold AesEngine.set_iv. by case_match. Qed.

Lemma write_chunks_ctrl fuel data wb ww r : ctrl (AesEngine.write_chunks fuel data wb ww r).2 = ctrl r.
Proof. revert data wb ww r. induction fuel as [|fuel IH]; intros [|b data] wb ww r; try done. cbn. case_match; [done|]. by rewrite IH. Qed.

Lemma crypt_words_bits data d : mode_bits (AesEngine.crypt_words data d).2 = mode_bits d.
Proof.
  unfold mode_bits, AesEngine.crypt_words. pose proof (write_chunks_ctrl (length data) data 0 0 (AesEngine.regs d)) as Hc.
  destruct (AesEngine.write_chunks _ _ _ _ _) as [[] r]. cbn in *. by rewrite Hc.
Qed.

Ltac kept := apply steps_modify; intros ?; exact eq_refl.

Lemma crypt_bits source dest start stop : steps_in (same mode_bits) (AesEngine.crypt source dest start stop).
Proof.
  unfold AesEngine.crypt. steps. case_match; [by steps|]. steps; try kept.
  - intros s. unfold AesEngine.try_set_indices. repeat case_match; simplify_eq; exact eq_refl.
  - case_match; steps; try kept. apply steps_modify. intros s. apply crypt_words_bits.
Qed.

Lemma zoom_bits {A} (m : K AesEngine.t A) : steps_in (same mode_bits) m → steps_in (same (mode_bits ∘ device)) (zoom device set_device m).
Proof. intros Hm s. unfold zoom. specialize (Hm (device s)). by destruct (m (device s)). Qed.

Lemma run_bits id : steps_in (same (mode_bits ∘ device)) (run_aes expansion id).
Proof.
  unfold run_aes, enter. steps. case_match; [|by steps]. steps. repeat case_match; steps; try kept.
  - apply steps_modify. intros s. apply set_key_bits.
  - apply zoom_bits, crypt_bits.
  - by repeat case_match; steps; try kept.
Qed.

(** Every cipher mode is electronic code book.  The mode's value already stands at its
    place in the control register, but the driver shifts it by three more bits: for each
    of the six commands to encrypt or decrypt, in every state, the mode field of the
    control register is that of [Ecb] afterwards, whatever it was. *)
Theorem cipher_mode_always_ecb (n : Z) (id : AppId) (s : t) :
  1 <= n <= 6 → is_Some (apps s id) →
  Z.land (ctrl (AesEngine.regs (device (command expansion n id s).2))) 0x18 = cipher_mode_u32 Ecb.
Proof.
  intros Hn [a Ha]. change (mode_bits (device (command expansion n id s).2) = 0). unfold command. rewrite bind_modify, note_user.
  assert (∀ s', (same (mode_bits ∘ device)) s' (run_aes expansion id s').2) as Hrun by apply run_bits. unfold same, compose in Hrun.
  assert (n = 1 ∨ n = 2 ∨ n = 3 ∨ n = 4 ∨ n = 5 ∨ n = 6) as Hcases by lia.
  destruct_or! Hcases; subst n; cbn [Z.eqb Pos.eqb orb];
    try (rewrite bind_modify, Hrun; cbn [device on_device set_device];
         unfold AesEngine.set_mode_aes128ecb, AesEngine.set_mode_aes128cbc; by rewrite set_encrypt_mode_bits, set_cipher_mode_bits);
    unfold command_ctr, enter; rewrite bind_gets; cbn [apps set_user]; rewrite Ha, bind_modify; destruct (iv_buffer a);
    rewrite ?bind_modify, ?Hrun; cbn [snd mret M_ret device on_device set_device]; rewrite ?set_iv_bits; unfold AesEngine.set_mode_aes128ctr;
    by rewrite set_encrypt_mode_bits, set_cipher_mode_bits.
Qed.

(** ** Results that stay in the engine *)

Lemma deliver_nowhere id a s : output_buffer a = None → input_buffer a = None →
  deliver id a s = mk (device s) (λ i, if decide (i = id) then Some a else apps s i) None (buffer s) (upcalls s ++ told id a 0).
Proof. intros Ho Hi. unfold deliver. rewrite Ho, Hi. destruct a. cbn in *. by subst. Qed.

Lemma deliver_two id a s out src w1 w2 : output_buffer a = Some out → input_buffer a = Some src → block out → block src →
  length w1 = 4%nat → length w2 = 4%nat → rfifo (AesEngine.regs (device s)) = w1 ++ w2 →
  (∃ d, deliver id a s = mk d (λ i, if decide (i = id) then
      Some (set_input_buffer (Some (register_bytes w2)) (set_output_buffer (Some (register_bytes w1)) a)) else apps s i)
    None (buffer s) (upcalls s ++ told id a 16)).
Proof.
  intros Ho Hi Hol Hil H1 H2 Hr. unfold deliver. rewrite Ho, (fill_block out w1 w2) by done. rewrite Hi, (fill_block src w2 []) by (done || cbn; by rewrite app_nil_r).
  by eexists.
Qed.

(** A result that nobody takes goes to the next process.  When a process takes its
    input buffer back while its block is processed, and has no output buffer, the result
    stays in the engine's FIFO.  The next process that runs a block then finds the first
    one's result in its output buffer, and its own in the place of its input. *)
Theorem withdrawn_result_leaks (P Q : AppId) (ap aq : AesApp) (n m : Z) (srcp kp srcq kq out iv buf : list Z) (s : t) (d1 : AesEngine.t) :
  P ≠ Q → current_user s = None → buffer s = Some buf → block buf → free (device s) → rfifo (AesEngine.regs (device s)) = [] →
  apps s P = Some ap → input_buffer ap = Some srcp → app_key ap = Some kp → output_buffer ap = None → block srcp → block kp →
  apps s Q = Some aq → input_buffer aq = Some srcq → app_key aq = Some kq → output_buffer aq = Some out → iv_buffer aq = Some iv →
  block srcq → block kq → block out →
  1 <= n <= 6 → 1 <= m <= 6 → prepared n ap (device s) = Some d1 →
  ∃ s1 s2 s3 s4 s5, command expansion n P s = (Ok SUCCESS, s1) ∧ allow P 1 None s1 = (Ok SUCCESS, s2) ∧
    handle_interrupt 104 (on_device (AesEngine.ciphered cipher) s2) = (Ok tt, s3) ∧
    command expansion m Q s3 = (Ok SUCCESS, s4) ∧
    handle_interrupt 104 (on_device (AesEngine.ciphered cipher) s4) = (Ok tt, s5) ∧
    (let r := AesEngine.regs (AesEngine.set_key expansion kp d1).2 in
     (apps s5 Q ≫= output_buffer) = Some (register_bytes
       (cipher (ctrl r) (FlashSyscalls.app_words 4 kp ++ replicate 4 0) (ctr r) (FlashSyscalls.app_words 4 srcp)))).
Proof.
  intros Hne Hu Hb Hbl Hf Hr Hap Hip Hkp Hop Hsp Hkpl Haq Hiq Hkq Hoq Hiv Hsq Hkql Hol Hn Hm Hp.
  destruct (command_starts n P ap srcp kp buf s d1) as (d2 & E1 & Hw & Hr2); [done..|]. rewrite Hu in E1. cbn [default] in E1.
  destruct (prepared_regs n ap _ d1 kp Hp Hkpl) as [Hr3 Hk3].
  set (s1 := mk d2 (apps s) (Some P) None (upcalls s)). set (ap' := set_input_buffer None ap). set (s2 := set_app P ap' s1).
  assert (allow P 1 None s1 = (Ok SUCCESS, s2)) as E2.
  { unfold allow, share, enter. cbn [Z.eqb Pos.eqb]. rewrite bind_gets. subst s1. cbn [apps]. by rewrite Hap. }
  destruct (completed_regs srcp s2 Hw) as [Hc1 Hc2]. cbn [device s2 s1 set_app] in Hc1, Hc2.
  set (w := cipher _ _ _ _) in Hc1. assert (length w = 4%nat) as Hwl by apply cipher_block.
  assert (rfifo (AesEngine.regs d2) = []) as Hd2 by (rewrite Hr2; cbn; congruence). rewrite Hd2, app_nil_l in Hc1.
  pose proof (interrupt_delivers srcp P ap' s2 Hw eq_refl) as E3. rewrite deliver_nowhere in E3 by done.
  set (s3 := on_device _ (set_buffer _ (mk _ _ _ _ _))) in E3.
  assert (∃ d4, prepared m aq (device s3) = Some d4) as [d4 Hd4].
  { assert (m = 1 ∨ m = 2 ∨ m = 3 ∨ m = 4 ∨ m = 5 ∨ m = 6) as Hcases by lia.
    unfold prepared. rewrite Hiv. destruct_or! Hcases; subst m; cbn; by eexists. }
  assert (apps s3 Q = Some aq) as Haq3 by (cbn; by rewrite !decide_False).
  destruct (command_starts m Q aq srcq kq srcp s3 d4) as (d5 & E4 & Hw5 & Hr5); [done..|].
  destruct (prepared_regs m aq _ d4 kq Hd4 Hkql) as [Hr6 Hk6].
  set (s4 := mk d5 _ _ _ _) in E4.
  destruct (completed_regs srcq s4 Hw5) as [Hc4 _]. cbn [device s4] in Hc4. set (w' := cipher _ _ _ _) in Hc4.
  assert (rfifo (AesEngine.regs d5) = w) as Hd5 by (rewrite Hr5; cbn [rfifo set_wfifo]; rewrite Hr6; exact Hc1). rewrite Hd5 in Hc4.
  pose proof (interrupt_delivers srcq Q aq s4 Hw5 eq_refl Haq3) as E5.
  destruct (deliver_two Q aq (on_device completed s4) out srcq w w') as (d6 & E6); [done..|apply cipher_block|done|]. rewrite E6 in E5.
  exists s1, s2, s3, s4. eexists. split_and!; [exact E1|exact E2|apply E3; cbn; by rewrite decide_True|exact E4|exact E5|].
  cbn -[FlashSyscalls.app_words replicate]. rewrite decide_True by done. cbn -[FlashSyscalls.app_words replicate]. subst w. rewrite Hr2. cbn -[FlashSyscalls.app_words replicate].
  by rewrite Hk3.
Qed.

(** A result is lost when, before the engine is done, any process calls a command that does
    not exist: nobody is told, and the result stays in the FIFO. *)
Lemma unknown_command_drops_result src id n s : working src (device s) → 7 < n →
  ∃ s1 s2, command expansion n id s = (Ok ENOSUPPORT, s1) ∧
    handle_interrupt 104 (on_device (AesEngine.ciphered cipher) s1) = (Ok tt, s2) ∧
    apps s2 = apps s ∧ upcalls s2 = upcalls s ∧ rfifo (AesEngine.regs (device s2)) = rfifo (AesEngine.regs (completed (device s))).
Proof.
  intros (Hc & Hi & Ho & Hw & Hd) Hn. exists (set_user None s). eexists. split; [|split].
  - unfold command. rewrite bind_modify, note_user. repeat (rewrite (proj2 (Z.eqb_neq n _)) by lia). done.
  - unfold handle_interrupt. cbn [parse_interrupt Z.eqb Pos.eqb]. erewrite bind_ok by reflexivity.
    assert (AesEngine.client (AesEngine.ciphered cipher (device s)) = true ∧ AesEngine.output (AesEngine.ciphered cipher (device s)) = Some src) as [Hc' Ho'].
    { unfold AesEngine.ciphered. by case_match. }
    run. cbn [device on_device set_device set_user]. rewrite Hc'. run. cbn [device on_device set_device set_user AesEngine.output AesEngine.set_input]. rewrite Ho'.
    run. erewrite bind_ok by reflexivity. run. reflexivity.
  - done.
Qed.

(** ** Safety *)

(** The parts of the engine that the kernel buffer depends on. *)
Definition engine_ok (b : option (list Z)) (d : AesEngine.t) : Prop :=
  AesEngine.client d = true ∧ AesEngine.input d = None ∧ (4 <= wfifo_depth (AesEngine.regs d))%nat ∧
  match b with
  | Some buf => block buf ∧ AesEngine.output d = None ∧ wfifo (AesEngine.regs d) = [] ∧ AesEngine.pending DoneCipher d = false
  | None => ∃ o, AesEngine.output d = Some o ∧ block o ∧
      (length (wfifo (AesEngine.regs d)) = 4%nat ∧ AesEngine.pending DoneCipher d = false ∨
       wfifo (AesEngine.regs d) = [] ∧ AesEngine.pending DoneCipher d = true)
  end.

Definition blocks (o : option (list Z)) : Prop := match o with Some b => block b | None => True end.
Definition app_ok (a : AesApp) : Prop := blocks (app_key a) ∧ blocks (input_buffer a) ∧ blocks (output_buffer a) ∧ blocks (iv_buffer a).
Definition driver_ok (s : t) : Prop := engine_ok (buffer s) (device s) ∧ ∀ id a, apps s id = Some a → app_ok a.

(** [engine_ok] looks at this only. *)
Definition view (d : AesEngine.t) :=
  (AesEngine.client d, AesEngine.input d, AesEngine.output d, wfifo_depth (AesEngine.regs d), wfifo (AesEngine.regs d), int_state (AesEngine.regs d)).

Lemma engine_ok_view b d d' : view d' = view d → engine_ok b d → engine_ok b d'.
Proof. unfold view, engine_ok, AesEngine.pending. intros [= -> -> -> -> -> ->]. done. Qed.

Lemma set_key_view k d : view (AesEngine.set_key expansion k d).2 = view d.
Proof. unfold AesEngine.set_key. by case_match. Qed.
Lemma set_iv_view iv d : view (AesEngine.set_iv iv d).2 = view d.
Proof. unfold AesEngine.set_iv. by case_match. Qed.

Lemma fill_view b d : let '(_, b', d') := fill b d in view d' = view d ∧ (blocks b → blocks b').
Proof.
  destruct b as [buf|]; [|done]. unfold fill, AesEngine.read_data.
  assert (∀ ws out i, length (AesEngine.read_loop ws out i).1.2 = length out) as Hl.
  { induction ws as [|w ws IH]; intros out i; [done|]. cbn [AesEngine.read_loop]. destruct (Nat.ltb_spec (i + 3) (length out)); [|done].
    rewrite IH. apply length_copy_at. rewrite length_le_bytes. lia. }
  specialize (Hl (rfifo (AesEngine.regs d)) buf 0%nat). destruct (AesEngine.read_loop _ _ _) as [[n out] rest]. cbn in Hl. split; [done|].
  intros Hb. cbn. unfold block. by rewrite Hl.
Qed.

Lemma free_engine buf d : engine_ok (Some buf) d → free d.
Proof. by intros (? & ? & ? & _ & ? & ? & _). Qed.

Lemma update_apps (id : AppId) a' (ap : AppId → option AesApp) : (∀ i a, ap i = Some a → app_ok a) → app_ok a' →
  ∀ i a, (if decide (i = id) then Some a' else ap i) = Some a → app_ok a.
Proof. intros Hap Ha' i a. case_decide; [by intros [= <-]|apply Hap]. Qed.

Lemma run_ok id s : driver_ok s → ∃ rc s', run_aes expansion id s = (Ok rc, s') ∧ driver_ok s'.
Proof.
  intros [He Ha]. unfold run_aes, enter. rewrite bind_gets. destruct (apps s id) as [a|] eqn:E; [|by eexists _, _].
  destruct (Ha id a E) as (Hk & Hi & _). rewrite bind_gets.
  destruct (input_buffer a) as [src|] eqn:Ei; [|by eexists _, _]. destruct (app_key a) as [k|] eqn:Ek; [|by eexists _, _].
  destruct (buffer s) as [buf|] eqn:Eb; [|rewrite <-Eb in *; by eexists _, _].
  destruct (aes_run_starts id a src k buf s (AesEngine.set_key expansion k (device s)).2 E Ei Ek Eb Hi Hk) as (d2 & E2 & Hw & Hr); [by apply He|by eapply free_engine|done|].
  unfold run_aes, enter in E2. rewrite bind_gets, E, bind_gets, Ei, Ek, Eb in E2. eexists _, _. split; [exact E2|].
  split; [|exact Ha]. cbn [buffer device set_device set_buffer]. destruct Hw as (Hc & Hin & Ho & Hwf & Hd). split_and!; [done..|].
  exists src. split_and!; [done|done|]. left. rewrite Hwf, FlashSyscallFacts.length_app_words. split; [done|].
  unfold AesEngine.pending. rewrite Hr. cbn [int_state set_wfifo].
  pose proof (set_key_view k (device s)) as Hv. unfold view in Hv. injection Hv as _ _ _ _ _ ->. apply He.
Qed.

(** Changes of the engine that [engine_ok] does not see. *)
Lemma aes_device_ok f s : (∀ d, view (f d) = view d) → driver_ok s → driver_ok (on_device f s).
Proof. intros Hf [He Ha]. split; [|exact Ha]. by eapply engine_ok_view; [apply Hf|]. Qed.

Lemma command_ok n id s : driver_ok s → ∃ rc s', command expansion n id s = (Ok rc, s') ∧ driver_ok s'.
Proof.
  intros Hs. unfold command. rewrite bind_modify, note_user. set (s0 := set_user _ s). assert (driver_ok s0) as H0 by done. clearbody s0. clear Hs s.
  assert (∀ f, (∀ d, view (f d) = view d) → ∃ rc s', (modify (on_device f) ;; run_aes expansion id) s0 = (Ok rc, s') ∧ driver_ok s') as Hmode.
  { intros f Hf. rewrite bind_modify. by apply run_ok, aes_device_ok. }
  repeat (case_match; [first [by eexists _, _ | by apply Hmode | idtac]|]).
  - unfold command_ctr, enter. rewrite bind_gets. destruct (apps s0 id) as [a|]; [|by eexists _, _]. rewrite bind_modify.
    destruct (iv_buffer a); [|eexists _, _; split; [done|by apply aes_device_ok]].
    rewrite bind_modify. apply run_ok, aes_device_ok; [intros d; apply set_iv_view|by apply aes_device_ok].
  - unfold command_install_key, enter. rewrite bind_gets. destruct (apps s0 id) as [a|]; [|by eexists _, _].
    destruct (app_key a) as [k|]; [|by eexists _, _]. case_match; [|by eexists _, _]. rewrite bind_modify.
    eexists _, _. split; [done|]. apply aes_device_ok; [intros d; apply set_key_view|done].
  - rewrite bind_modify. by eexists _, _.
Qed.

Lemma share_ok id set size slice s : (∀ x a, blocks x → app_ok a → app_ok (set x a)) → size = 16%nat → driver_ok s →
  ∃ rc s', share id set size slice s = (Ok rc, s') ∧ driver_ok s'.
Proof.
  intros Hset Hsz [He Ha]. unfold share, enter. rewrite bind_gets. destruct (apps s id) as [a|] eqn:E; [|by eexists _, _].
  destruct slice as [b|].
  - destruct (Nat.eqb_spec (length b) size) as [Hb|]; cbn [negb]; [|by eexists _, _]. rewrite bind_modify. eexists _, _. split; [done|].
    split; [exact He|]. apply update_apps; [exact Ha|]. apply Hset; [unfold blocks, block; congruence|by eapply Ha].
  - rewrite bind_modify. eexists _, _. split; [done|]. split; [exact He|]. apply update_apps; [exact Ha|]. apply Hset; [done|by eapply Ha].
Qed.

Lemma allow_ok id n slice s : driver_ok s → ∃ rc s', allow id n slice s = (Ok rc, s') ∧ driver_ok s'.
Proof.
  intros Hs. unfold allow. repeat (case_match; [apply share_ok; [|done..]; intros x a Hx (? & ? & ? & ?); by split_and!|]). by eexists _, _.
Qed.

Lemma subscribe_ok n cb id s : driver_ok s → ∃ rc s', subscribe n cb id s = (Ok rc, s') ∧ driver_ok s'.
Proof.
  intros [He Ha]. unfold subscribe, enter. case_match; [|by eexists _, _]. rewrite bind_gets.
  destruct (apps s id) as [a|] eqn:E; [|by eexists _, _]. rewrite bind_modify. eexists _, _. split; [done|].
  split; [exact He|]. apply update_apps; [exact Ha|exact (Ha id a E)].
Qed.

Lemma deliver_ok id a s : apps s id = Some a → (∀ i a, apps s i = Some a → app_ok a) →
  view (device (deliver id a s)) = view (device s) ∧ (∀ i a', apps (deliver id a s) i = Some a' → app_ok a').
Proof.
  intros E Ha. unfold deliver. destruct (Ha id a E) as (Hk & Hi & Ho & Hiv).
  pose proof (fill_view (output_buffer a) (device s)) as H1. destruct (fill (output_buffer a) (device s)) as [[n out] d].
  pose proof (fill_view (input_buffer a) d) as H2. destruct (fill (input_buffer a) d) as [[val inp] d'].
  destruct H1 as [Hv1 Hb1], H2 as [Hv2 Hb2]. split; [cbn; congruence|].
  apply update_apps; [exact Ha|]. split_and!; [done|by apply Hb2|by apply Hb1|done].
Qed.

Lemma pending_cleared i d : AesEngine.pending i (AesEngine.clear_interrupt i d) = false.
Proof.
  change (Z.testbit (Z.land (int_state (AesEngine.regs d)) (Z.lnot (Z.shiftl 1 (interrupt_usize i)))) (interrupt_usize i) = false).
  rewrite Z.land_spec, Z.lnot_spec by (by destruct i). destruct i; apply andb_false_r.
Qed.

Lemma interrupt_ok s : driver_ok s → AesEngine.pending DoneCipher (device s) = true →
  ∃ s', handle_interrupt 104 s = (Ok tt, s') ∧ driver_ok s' ∧ is_Some (buffer s').
Proof.
  intros [(Hc & Hi & Hd & He) Ha] Hp. destruct (buffer s) as [buf|]; [destruct He as (_ & _ & _ & ?); congruence|].
  destruct He as (o & Ho & Hol & [[_ ?]|[Hw _]]); [congruence|].
  unfold handle_interrupt. cbn [parse_interrupt Z.eqb Pos.eqb]. erewrite bind_ok by reflexivity.
  run. rewrite Hc. run. cbn [device on_device set_device AesEngine.output AesEngine.set_input]. rewrite Ho.
  run. erewrite bind_ok by reflexivity. run. eexists. split; [reflexivity|]. unfold crypt_done. cbn [current_user apps on_device set_device].
  set (s1 := on_device (AesEngine.set_output None) (on_device (AesEngine.set_input None) s)).
  set (s2 := match current_user s with Some _ => _ | None => s1 end).
  assert (view (device s2) = view (device s1) ∧ (∀ i a, apps s2 i = Some a → app_ok a)) as [Hv Ha2].
  { subst s2. destruct (current_user s) as [id|]; [|done]. destruct (apps s id) as [a|] eqn:E; [|done]. by apply deliver_ok. }
  split; [|done]. split; [|exact Ha2]. cbn [buffer set_buffer on_device set_device device]. unfold view in Hv. injection Hv as Hv1 Hv2 Hv3 Hv4 Hv5 Hv6.
  split_and!; [..|apply pending_cleared]; cbn; by rewrite ?Hv1, ?Hv2, ?Hv3, ?Hv4, ?Hv5.
Qed.

(** The engine at work, and its interrupt when there is one. *)
Inductive AesEvent :=
| EvCommand (n : Z) (id : AppId)
| EvAllow (id : AppId) (n : Z) (slice : option (list Z))
| EvSubscribe (n : Z) (cb : option nat) (id : AppId)
| EvCipher
| EvInterrupt.

Definition aes_event (ev : AesEvent) : K t unit :=
  match ev with
  | EvCommand n id => command expansion n id ;; mret tt
  | EvAllow id n slice => allow id n slice ;; mret tt
  | EvSubscribe n cb id => subscribe n cb id ;; mret tt
  | EvCipher => modify (on_device (AesEngine.ciphered cipher))
  | EvInterrupt => p ← gets (λ s, AesEngine.pending DoneCipher (device s)); if p : bool then handle_interrupt 104 else mret tt
  end.

Lemma cipher_ok s : driver_ok s → driver_ok (on_device (AesEngine.ciphered cipher) s).
Proof.
  intros [(Hc & Hi & Hd & He) Ha]. split; [|exact Ha]. cbn [device buffer on_device set_device]. unfold AesEngine.ciphered.
  destruct (Nat.leb_spec 4 (length (wfifo (AesEngine.regs (device s))))) as [Hl|]; [|done].
  split_and!; [done..|]. destruct (buffer s) as [buf|]; [destruct He as (_ & _ & Hw & _); rewrite Hw in Hl; cbn in Hl; lia|].
  destruct He as (o & Ho & Hol & [[Hw Hp]|[Hw _]]); [|rewrite Hw in Hl; cbn in Hl; lia]. exists o. split_and!; [done|done|]. right.
  cbn. split; [apply drop_ge; lia|].
  change (Z.testbit (Z.lor (int_state (AesEngine.regs (device s))) 8) 3 = true). rewrite Z.lor_spec. apply orb_true_r.
Qed.

Lemma aes_event_ok ev s : driver_ok s → ∃ s', aes_event ev s = (Ok tt, s') ∧ driver_ok s'.
Proof.
  intros Hs. destruct ev as [n id|id n sl|n cb id| |]; cbn [aes_event].
  - destruct (command_ok n id s Hs) as (rc & s' & E & H'). exists s'. by erewrite bind_ok.
  - destruct (allow_ok id n sl s Hs) as (rc & s' & E & H'). exists s'. by erewrite bind_ok.
  - destruct (subscribe_ok n cb id s Hs) as (rc & s' & E & H'). exists s'. by erewrite bind_ok.
  - eexists. split; [reflexivity|]. by apply cipher_ok.
  - rewrite bind_gets. destruct (AesEngine.pending _ _) eqn:Hp; [|by eexists]. destruct (interrupt_ok s Hs Hp) as (s' & E & H' & _). by exists s'.
Qed.

Fixpoint aes_events (evs : list AesEvent) : K t unit :=
  match evs with [] => mret tt | ev :: evs => aes_event ev ;; aes_events evs end.

Definition boot (r : AesRegisters) (container : AppId → option AesApp) : t :=
  (initialize (replicate AES128_BLOCK_SIZE 0) (new (AesEngine.set_client (AesEngine.new r)) container)).2.

(** C25: The AES driver never panics and never loses its buffer.  From start-up, whatever
    system calls processes make and whenever the engine finishes a block and its
    interrupt is handled, every call and every interrupt returns; at any time the
    kernel's block buffer is either in the driver, or in the engine with a block that the
    engine still has to process or has just finished; and every buffer that a process
    shares has the size of a block. *)
Theorem aes_never_panics (r : AesRegisters) (container : AppId → option AesApp) (evs : list AesEvent) :
  wfifo r = [] → (4 <= wfifo_depth r)%nat → int_state r = 0 → (∀ id a, container id = Some a → a = AesApp_default) →
  ∃ s, aes_events evs (boot r container) = (Ok tt, s) ∧ driver_ok s.
Proof.
  intros Hw Hd Hi Hcon.
  assert (driver_ok (boot r container)) as Hs.
  { split; [|intros id a E; by rewrite (Hcon id a E)]. cbn. unfold AesEngine.pending. split_and!; try done. cbn. by rewrite Hi. }
  revert Hs. generalize (boot r container) as s. induction evs as [|ev evs IH]; intros s Hs; [by eexists|].
  destruct (aes_event_ok ev s Hs) as (s1 & E & H1). cbn [aes_events]. erewrite bind_ok by exact E. by apply IH.
Qed.

End Facts.

(** The interface allows a source buffer whose bytes go to [dest[start..stop]].  The driver
    takes these indices for the source as well: a block that does not start at the front
    of the destination panics. *)
Theorem source_offset_panics (source dest : list Z) (start stop : nat) (d : AesEngine.t) :
  AesEngine.input d = None → (0 < start)%nat → (start <= stop <= length dest)%nat → length source = (stop - start)%nat →
  ((stop - start) mod 16 = 0)%nat →
  (AesEngine.crypt (Some source) dest start stop d).1 = Panic.
Proof.
  intros Hi H0 Hs Hl Hm. unfold AesEngine.crypt. rewrite bind_gets, Hi. rewrite bool_decide_eq_false_2 by (by intros []). run.
  assert (AesEngine.try_set_indices start stop (AesEngine.set_output (Some dest) (AesEngine.set_input (Some source) d)) =
    (true, AesEngine.set_indices start 0 stop (AesEngine.set_output (Some dest) (AesEngine.set_input (Some source) d)))) as E.
  { unfold AesEngine.try_set_indices. rewrite (proj2 (Nat.ltb_ge _ _)) by lia. cbn [AesEngine.output AesEngine.input AesEngine.set_output AesEngine.set_input].
    unfold AES128_BLOCK_SIZE. rewrite Hm, Hl, (Nat.eqb_refl (stop - start)), (proj2 (Nat.leb_le stop _)) by lia. done. }
  rewrite bind_unfold, E. run. erewrite bind_ok by reflexivity. unfold slice.
  rewrite (proj2 (Nat.leb_le start stop)), (proj2 (Nat.leb_gt _ _)) by (cbn; lia). done.
Qed.

End AesFacts.

(** ** Witnesses *)

Module AesWitnesses.
Import AesDriver AesFacts.

Definition test_cipher (c : Z) (k v b : list Z) : list Z := take 4 (b ++ [0; 0; 0; 0]).
Definition test_expansion (k : list Z) : nat := 3.

Lemma test_block c k v b : length (test_cipher c k v b) = 4%nat.
Proof. unfold test_cipher. rewrite length_take, length_app. change (length [0; 0; 0; 0]) with 4%nat. lia. Qed.

Definition test_regs : AesRegisters := mk_Aes 0 [] [] [] 0 [] 0 0 false 4.
Definition test_app : AesApp :=
  mk_AesApp (Some (replicate 16 1)) (Some (replicate 16 2)) (Some (replicate 16 0)) (Some (replicate 16 3)) (Some 7%nat).
Definition test_driver : t :=
  boot test_regs (λ id, Some (if (id =? 1)%nat then test_app else mk_AesApp (Some (replicate 16 5)) (Some (replicate 16 6)) None None None)).

Lemma test_free : free (device test_driver).
Proof. repeat split; cbn; lia. Qed.

Lemma block_processed_witness :
  ∃ s1 s2, command test_expansion 1 1%nat test_driver = (Ok SUCCESS, s1) ∧
    handle_interrupt 104 (on_device (AesEngine.ciphered test_cipher) s1) = (Ok tt, s2) ∧
    (apps s2 1%nat ≫= output_buffer) = Some (replicate 16 2).
Proof.
  destruct (block_processed test_cipher test_expansion test_block 1 1%nat test_app (replicate 16 2) (replicate 16 0) (replicate 16 1) (replicate 16 0)
    test_driver (AesEngine.set_mode_aes128ecb true (device test_driver))) as (s1 & s2 & E1 & E2 & H & _);
    [lia|done|done|done|done|done|done|done|done|done|done|exact test_free|done|done|].
  exists s1, s2. split; [exact E1|]. split; [exact E2|]. by rewrite H.
Defined.

Lemma result_goes_to_first_caller_witness :
  ∃ s0 s1 s2, command test_expansion 0 1%nat test_driver = (Ok SUCCESS, s0) ∧ command test_expansion 1 2%nat s0 = (Ok SUCCESS, s1) ∧
    handle_interrupt 104 (on_device (AesEngine.ciphered test_cipher) s1) = (Ok tt, s2) ∧
    (apps s2 1%nat ≫= output_buffer) = Some (replicate 16 6) ∧ upcalls s2 = [mk_AesUpcall 1%nat 7%nat 0].
Proof.
  destruct (result_goes_to_first_caller test_cipher test_expansion test_block 1%nat 2%nat test_app
    (mk_AesApp (Some (replicate 16 5)) (Some (replicate 16 6)) None None None) 1 (replicate 16 6) (replicate 16 0) (replicate 16 5) (replicate 16 0)
    test_driver (AesEngine.set_mode_aes128ecb true (device test_driver))) as (s0 & s1 & s2 & E0 & E1 & E2 & H & _ & Hu);
    [done|done|done|done|done|done|lia|done|done|done|done|done|done|exact test_free|done|done|].
  exists s0, s1, s2. split; [exact E0|]. split; [exact E1|]. split; [exact E2|]. split; [exact H|exact Hu].
Defined.

Lemma withdrawn_result_leaks_witness :
  ∃ s1 s2 s3 s4 s5, command test_expansion 1 2%nat test_driver = (Ok SUCCESS, s1) ∧ allow 2%nat 1 None s1 = (Ok SUCCESS, s2) ∧
    handle_interrupt 104 (on_device (AesEngine.ciphered test_cipher) s2) = (Ok tt, s3) ∧
    command test_expansion 1 1%nat s3 = (Ok SUCCESS, s4) ∧
    handle_interrupt 104 (on_device (AesEngine.ciphered test_cipher) s4) = (Ok tt, s5) ∧
    (apps s5 1%nat ≫= output_buffer) = Some (replicate 16 6).
Proof.
  exact (withdrawn_result_leaks test_cipher test_expansion test_block 2%nat 1%nat
    (mk_AesApp (Some (replicate 16 5)) (Some (replicate 16 6)) None None None) test_app 1 1
    (replicate 16 6) (replicate 16 5) (replicate 16 2) (replicate 16 1) (replicate 16 0) (replicate 16 3) (replicate 16 0)
    test_driver (AesEngine.set_mode_aes128ecb true (device test_driver))
    ltac:(done) eq_refl eq_refl eq_refl test_free eq_refl eq_refl eq_refl eq_refl eq_refl eq_refl eq_refl eq_refl eq_refl eq_refl eq_refl eq_refl
    eq_refl eq_refl eq_refl ltac:(lia) ltac:(lia) eq_refl).
Defined.

Lemma cipher_mode_always_ecb_witness :
  Z.land (ctrl (AesEngine.regs (device (command test_expansion 5 1%nat test_driver).2))) 0x18 = 0.
Proof. apply (cipher_mode_always_ecb test_expansion 5 1%nat test_driver); [lia|by eexists]. Defined.

Lemma aes_never_panics_witness :
  ∃ s, aes_events test_cipher test_expansion
    [EvAllow 0%nat 0 (Some (replicate 16 1)); EvAllow 0%nat 1 (Some (replicate 16 2)); EvCommand 1 0%nat; EvCipher; EvInterrupt; EvInterrupt]
    (boot test_regs (λ _, Some AesApp_default)) = (Ok tt, s).
Proof.
  destruct (aes_never_panics test_cipher test_expansion test_regs (λ _, Some AesApp_default)
    [EvAllow 0%nat 0 (Some (replicate 16 1)); EvAllow 0%nat 1 (Some (replicate 16 2)); EvCommand 1 0%nat; EvCipher; EvInterrupt; EvInterrupt])
    as (s & E & _); [done|cbn; lia|done|by intros ?? [= <-]|].
  exists s. exact E.
Defined.

End AesWitnesses.
