(* ===== verification/Uart.v ===== *)
(** The UART driver (kernel/h1/src/uart.rs).

    The controller has a transmit and a receive FIFO of 32 characters; the bits of its
    state register that the driver reads say whether the transmit FIFO is full (bit 0),
    the transmitter idle (bits 4 and 5) and the receive FIFO empty (bit 7).  [line] is
    what has left on the wire.  Calls to the clients are the results of the operations,
    which end with them. *)

From S2P Require Import Prelude Io Tock Info.
From Stdlib Require Import ZArith Lia.
From stdpp Require Import base decidable option list list_numbers.

#[local] Open Scope Z_scope.

Definition FIFO_DEPTH : nat := 32.

Inductive UartCall :=
| TransmittedBuffer (buffer : list Z) (len : nat) (rc : ReturnCode)
| ReceivedBuffer (buffer : list Z) (len : nat) (rc : ReturnCode).

Module UART.

Record t := mk {
  tx_fifo : list Z;
  line : list Z;
  rx_fifo : list Z;
  nco : Z;
  control : Z;
  interrupt_control : Z;
  pmu : Pmu.t;
  clock : PeripheralClock1;
  tx_buffer : option (list Z);
  tx_limit : nat;
  tx_cursor : nat;
  rx_buffer : option (list Z);
  rx_limit : nat;
  rx_cursor : nat;
  tx_client : bool;
  rx_client : bool
}.

Definition new (c : PeripheralClock1) (p : Pmu.t) : t := mk [] [] [] 0 0 0 p c None 0 0 None 0 0 false false.

Definition set_fifos (tx ln rx : list Z) (s : t) : t :=
  mk tx ln rx (nco s) (control s) (interrupt_control s) (pmu s) (clock s) (tx_buffer s) (tx_limit s) (tx_cursor s)
    (rx_buffer s) (rx_limit s) (rx_cursor s) (tx_client s) (rx_client s).
Definition set_nco (v : Z) (s : t) : t :=
  mk (tx_fifo s) (line s) (rx_fifo s) v (control s) (interrupt_control s) (pmu s) (clock s) (tx_buffer s) (tx_limit s) (tx_cursor s)
    (rx_buffer s) (rx_limit s) (rx_cursor s) (tx_client s) (rx_client s).
Definition set_control (v : Z) (s : t) : t :=
  mk (tx_fifo s) (line s) (rx_fifo s) (nco s) v (interrupt_control s) (pmu s) (clock s) (tx_buffer s) (tx_limit s) (tx_cursor s)
    (rx_buffer s) (rx_limit s) (rx_cursor s) (tx_client s) (rx_client s).
Definition set_interrupt_control (v : Z) (s : t) : t :=
  mk (tx_fifo s) (line s) (rx_fifo s) (nco s) (control s) v (pmu s) (clock s) (tx_buffer s) (tx_limit s) (tx_cursor s)
    (rx_buffer s) (rx_limit s) (rx_cursor s) (tx_client s) (rx_client s).
Definition set_pmu (p : Pmu.t) (s : t) : t :=
  mk (tx_fifo s) (line s) (rx_fifo s) (nco s) (control s) (interrupt_control s) p (clock s) (tx_buffer s) (tx_limit s) (tx_cursor s)
    (rx_buffer s) (rx_limit s) (rx_cursor s) (tx_client s) (rx_client s).
Definition set_tx (b : option (list Z)) (limit cursor : nat) (s : t) : t :=
  mk (tx_fifo s) (line s) (rx_fifo s) (nco s) (control s) (interrupt_control s) (pmu s) (clock s) b limit cursor
    (rx_buffer s) (rx_limit s) (rx_cursor s) (tx_client s) (rx_client s).
Definition set_rx (b : option (list Z)) (limit cursor : nat) (s : t) : t :=
  mk (tx_fifo s) (line s) (rx_fifo s) (nco s) (control s) (interrupt_control s) (pmu s) (clock s) (tx_buffer s) (tx_limit s) (tx_cursor s)
    b limit cursor (tx_client s) (rx_client s).
Definition set_clients (tx rx : bool) (s : t) : t :=
  mk (tx_fifo s) (line s) (rx_fifo s) (nco s) (control s) (interrupt_control s) (pmu s) (clock s) (tx_buffer s) (tx_limit s) (tx_cursor s)
    (rx_buffer s) (rx_limit s) (rx_cursor s) tx rx.

(** ** The controller *)

Definition tx_full (s : t) : bool := (FIFO_DEPTH <=? length (tx_fifo s))%nat.
Definition tx_idle (s : t) : bool := (length (tx_fifo s) =? 0)%nat.

(** A write to [write_data]; a full FIFO drops it. *)
Definition write_data (b : Z) (s : t) : t := if tx_full s then s else set_fifos (tx_fifo s ++ [b]) (line s) (rx_fifo s) s.

(** The transmitter sends a character; the receiver gets one, which a full FIFO drops. *)
Definition shift (s : t) : t :=
  match tx_fifo s with b :: rest => set_fifos rest (line s ++ [b]) (rx_fifo s) s | [] => s end.
Definition arrive (b : Z) (s : t) : t :=
  if (FIFO_DEPTH <=? length (rx_fifo s))%nat then s else set_fifos (tx_fifo s) (line s) (rx_fifo s ++ [b]) s.

(** ** Configuration *)

Definition on_clock (f : PeripheralClock → Pmu.t → Pmu.t) (s : t) : t := set_pmu (f (Bank1 (clock s)) (pmu s)) s.

Definition enable_tx (s : t) : t := let s := on_clock Pmu.enable s in set_control (Z.lor (control s) 1) s.

Definition disable_tx (s : t) : t :=
  let ctrl := Z.land (control s) (Z.lnot 1) in
  let s := set_control ctrl s in
  if Z.land ctrl 3 =? 0 then on_clock Pmu.disable s else s.

Definition enable_rx (s : t) : t :=
  let s := on_clock Pmu.enable s in
  let s := set_control (Z.lor (control s) 2) s in
  set_interrupt_control (Z.lor (interrupt_control s) 2) s.

Definition disable_rx (s : t) : t :=
  let ctrl := Z.land (control s) (Z.lnot 2) in
  let s := set_control ctrl s in
  let s := if Z.land ctrl 3 =? 0 then on_clock Pmu.disable s else s in
  set_interrupt_control (Z.land (interrupt_control s) (Z.lnot 2)) s.

(** [(1 << 14) * baudrate / 375000] on [u32] *)
Definition config (baudrate : Z) (s : t) : t := set_nco (u32 (2 ^ 14 * baudrate) / 375000) s.

Definition configure (baud_rate : Z) (s : t) : ReturnCode * t := (SUCCESS, config baud_rate s).

(** ** Sending *)

(** [while state & 1 != 0 {}] and [while state & 0b110000 != 0b110000 {}]: the transmitter
    sends a character between two polls. *)
Fixpoint wait_room (fuel : nat) (s : t) : option t :=
  if tx_full s then match fuel with 0%nat => None | S n => wait_room n (shift s) end else Some s.
Fixpoint wait_idle (fuel : nat) (s : t) : option t :=
  if tx_idle s then Some s else match fuel with 0%nat => None | S n => wait_idle n (shift s) end.

Fixpoint sync_loop (fuel : nat) (bytes : list Z) (s : t) : option t :=
  match bytes with
  | [] => Some s
  | b :: rest => s ← wait_room fuel s; sync_loop fuel rest (write_data b s)
  end.

Definition send_bytes_sync (fuel : nat) (bytes : list Z) (s : t) : option t :=
  s ← sync_loop fuel bytes (enable_tx s); wait_idle fuel s.

(** [for b in bytes[init_cursor..limit].iter() { .. }] *)
Fixpoint send_loop (bytes : list Z) (s : t) : t :=
  match bytes with
  | [] => s
  | b :: rest =>
      if tx_full s then s
      else send_loop rest (write_data b (set_tx (tx_buffer s) (tx_limit s) (tx_cursor s + 1) s))
  end.

(** The number of bytes written, or -1. *)
Definition send_remaining_bytes : K t Z :=
  b ← gets tx_buffer;
  init_cursor ← gets tx_cursor;
  limit ← gets tx_limit;
  nwritten ←
    match b with
    | Some bytes =>
        if (init_cursor =? limit)%nat then mret (-1)
        else
          data ← unwrap (slice bytes init_cursor limit);
          modify (send_loop data) ;;
          cursor ← gets tx_cursor;
          mret (Z.of_nat cursor - Z.of_nat init_cursor)
    | None => mret 0
    end;
  (if 0 <=? nwritten then modify (λ s, set_interrupt_control (Z.lor (interrupt_control s) 1) s) else mret tt) ;;
  mret nwritten.

Definition handle_tx_interrupt : K t (option UartCall) :=
  n ← send_remaining_bytes;
  if n =? -1 then
    c ← gets tx_client;
    b ← gets tx_buffer;
    if c : bool then
      match b with
      | Some buf =>
          limit ← gets tx_limit;
          modify (λ s, set_tx None (tx_limit s) (tx_cursor s) s) ;;
          mret (Some (TransmittedBuffer buf limit SUCCESS))
      | None => mret None
      end
    else mret None
  else mret None.

Definition set_transmit_client (s : t) : t := set_clients true (rx_client s) s.

Definition transmit_buffer (buffer : list Z) (len : nat) : K t (ReturnCode * option (list Z)) :=
  b ← gets tx_buffer;
  match b with
  | Some _ => mret (EBUSY, Some buffer)
  | None =>
      modify (set_tx (Some buffer) len 0) ;;
      send_remaining_bytes ;;
      mret (SUCCESS, None)
  end.

Definition transmit_word (word : Z) : ReturnCode := FAIL.
Definition transmit_abort (s : t) : ReturnCode := if bool_decide (is_Some (tx_buffer s)) then FAIL else SUCCESS.

(** ** Receiving *)

Definition purge_rx_fifo (s : t) : t := set_fifos (tx_fifo s) (line s) [] s.

(** [while rx_cursor < rx_limit && state & (1 << 7) == 0 { .. }] *)
Fixpoint read_loop (fifo buffer : list Z) (limit cursor : nat) : option (list Z * nat * list Z) :=
  match fifo with
  | [] => Some (buffer, cursor, [])
  | b :: rest =>
      if (cursor <? limit)%nat then
        if (cursor <? length buffer)%nat then read_loop rest (<[cursor := b]> buffer) limit (cursor + 1) else None
      else Some (buffer, cursor, fifo)
  end.

Definition read_rx_fifo : K t (option UartCall) :=
  b ← gets rx_buffer;
  match b with
  | Some buf =>
      s ← gets id;
      r ← unwrap (read_loop (rx_fifo s) buf (rx_limit s) (rx_cursor s));
      let '(buf, cursor, rest) := r in
      modify (λ s, set_rx (Some buf) (rx_limit s) cursor (set_fifos (tx_fifo s) (line s) rest s)) ;;
      if (0 <? rx_limit s)%nat && (rx_limit s <=? cursor)%nat then
        if rx_client s then
          modify (λ s, set_rx None (rx_limit s) (rx_cursor s) s) ;;
          mret (Some (ReceivedBuffer buf (rx_limit s) SUCCESS))
        else mret None
      else mret None
  | None => mret None
  end.

Definition handle_rx_interrupt : K t (option UartCall) := read_rx_fifo.

Definition set_receive_client (s : t) : t := enable_rx (purge_rx_fifo (set_clients (tx_client s) true s)).

Definition receive_buffer (buffer : list Z) (len : nat) : K t (ReturnCode * option (list Z) * option UartCall) :=
  b ← gets rx_buffer;
  match b with
  | Some _ => mret (EBUSY, Some buffer, None)
  | None =>
      if (length buffer <? len)%nat then mret (ENOMEM, Some buffer, None)
      else
        modify (set_rx (Some buffer) len 0) ;;
        c ← read_rx_fifo;
        mret (SUCCESS, None, c)
  end.

Definition receive_word : ReturnCode := FAIL.

Definition receive_abort : K t (ReturnCode * option UartCall) :=
  b ← gets rx_buffer;
  c ← gets rx_client;
  match b with
  | Some buf =>
      if c : bool then
        limit ← gets rx_limit;
        modify (λ s, set_rx None (rx_limit s) (rx_cursor s) s) ;;
        mret (SUCCESS, Some (ReceivedBuffer buf limit ECANCEL))
      else mret (SUCCESS, None)
  | None => mret (SUCCESS, None)
  end.

End UART.

(** ** Facts *)

Module UartFacts.
Import UART.

(** The baud rate divisor.  For rates below 2^18 it is 2^20 times the rate divided by
    the clock of 24 MHz, rounded down, as the comment in [config] says; from there on the
    product wraps around 32 bits. *)
Theorem config_divisor (baudrate : Z) (s : t) : 0 <= baudrate < 2 ^ 18 → nco (config baudrate s) = 2 ^ 20 * baudrate / 24000000.
Proof.
  intros H. cbn [config nco set_nco]. unfold u32, wrap. rewrite Z.mod_small by lia.
  replace (2 ^ 20 * baudrate) with (64 * (2 ^ 14 * baudrate)) by lia. replace 24000000 with (64 * 375000) by lia.
  by rewrite Z.div_mul_cancel_l by lia.
Qed.

(** *** Sending *)

Lemma send_loop_eq data s : (length (tx_fifo s) <= 32)%nat → let n := Nat.min (length data) (32 - length (tx_fifo s)) in
  send_loop data s =
    set_fifos (tx_fifo s ++ take n data) (line s) (rx_fifo s) (set_tx (tx_buffer s) (tx_limit s) (tx_cursor s + n) s).
Proof.
  revert s. induction data as [|b data IH]; intros s Hl n.
  - subst n. cbn [length Nat.min take]. rewrite app_nil_r, Nat.add_0_r. by destruct s.
  - cbn [send_loop]. unfold tx_full, FIFO_DEPTH. destruct (Nat.leb_spec 32 (length (tx_fifo s))) as [Hf|Hf].
    + subst n. rewrite Nat.min_r by lia. replace (32 - length (tx_fifo s))%nat with 0%nat by lia. cbn. rewrite app_nil_r, Nat.add_0_r. by destruct s.
    + unfold write_data at 1, tx_full, FIFO_DEPTH. cbn [tx_fifo set_tx]. rewrite (proj2 (Nat.leb_gt _ _)) by lia.
      rewrite IH by (cbn; rewrite length_app; cbn; lia). cbn [tx_fifo set_fifos set_tx tx_cursor tx_buffer tx_limit line rx_fifo].
      rewrite length_app. cbn [length]. subst n.
      replace (Nat.min (length (b :: data)) (32 - length (tx_fifo s))) with (S (Nat.min (length data) (32 - (length (tx_fifo s) + 1)))) by (cbn [length]; lia).
      set (m := Nat.min (length data) _). cbn [take]. rewrite <-app_assoc. cbn [app].
      replace (tx_cursor s + S m)%nat with (tx_cursor s + 1 + m)%nat by lia. reflexivity.
Qed.

(** A buffer that is being sent: [pre] went before it. *)
Definition sending (buf : list Z) (len : nat) (pre : list Z) (s : t) : Prop :=
  tx_buffer s = Some buf ∧ tx_limit s = len ∧ (tx_cursor s <= len <= length buf)%nat ∧ tx_client s = true ∧
  line s ++ tx_fifo s = pre ++ take (tx_cursor s) buf ∧ (length (tx_fifo s) <= 32)%nat.

(** Nothing is being sent, and [sent] is or will be on the wire. *)
Definition quiet (sent : list Z) (s : t) : Prop :=
  tx_buffer s = None ∧ tx_client s = true ∧ line s ++ tx_fifo s = sent ∧ (length (tx_fifo s) <= 32)%nat.

Lemma send_remaining_eq buf len pre s : sending buf len pre s → (tx_cursor s < len)%nat →
  ∃ n s', send_remaining_bytes s = (Ok n, s') ∧ 0 <= n ∧ sending buf len pre s' ∧
    tx_cursor s' = Nat.min len (tx_cursor s + (32 - length (tx_fifo s))).
Proof.
  intros (Hb & Hl & Hc & Hcl & Hs & Hf) Hlt. unfold send_remaining_bytes. run. rewrite Hb, Hl.
  rewrite (proj2 (Nat.eqb_neq _ _)) by lia. unfold slice. rewrite !(proj2 (Nat.leb_le _ _)) by lia. cbn [andb].
  rewrite bind_assoc. erewrite bind_ok by reflexivity. run. rewrite send_loop_eq by done.
  rewrite length_take, length_drop. rewrite (Nat.min_l (len - tx_cursor s)) by lia. set (n := Nat.min (len - tx_cursor s) (32 - length (tx_fifo s))).
  cbn [tx_cursor set_fifos set_tx]. rewrite (proj2 (Z.leb_le _ _)) by lia. run. eexists _, _. split; [reflexivity|].
  split; [lia|]. split; [|cbn; lia]. repeat split; cbn; try done; try lia.
  - rewrite app_assoc, Hs, <-app_assoc. f_equal. rewrite take_take, Nat.min_l by lia. by rewrite take_take_drop.
  - rewrite length_app, !length_take, length_drop. lia.
Qed.

Lemma tx_interrupt_eq buf len pre s : sending buf len pre s →
  ∃ c s', handle_tx_interrupt s = (Ok c, s') ∧
    (c = None ∧ sending buf len pre s' ∧ (tx_cursor s < len)%nat ∧ tx_cursor s' = Nat.min len (tx_cursor s + (32 - length (tx_fifo s))) ∨
     c = Some (TransmittedBuffer buf len SUCCESS) ∧ quiet (pre ++ take len buf) s' ∧ tx_cursor s = len).
Proof.
  intros H. destruct (decide (tx_cursor s < len)%nat) as [Hlt|Hge].
  - destruct (send_remaining_eq buf len pre s H Hlt) as (n & s' & E & Hn & Hs & Hc). exists None, s'. split; [|by left].
    unfold handle_tx_interrupt. erewrite bind_ok by exact E. by rewrite (proj2 (Z.eqb_neq _ _)) by lia.
  - destruct H as (Hb & Hl & Hc & Hcl & Hs & Hf). assert (tx_cursor s = len) as Hcur by lia.
    eexists (Some _), _. split; [|right].
    + unfold handle_tx_interrupt, send_remaining_bytes. run. rewrite Hb, Hl, Hcur, Nat.eqb_refl. run. cbn [Z.leb Z.compare]. run.
      cbn [Z.eqb Pos.eqb]. run. rewrite Hcl, Hb. run. rewrite Hl. reflexivity.
    + split; [done|]. split; [|done]. repeat split; cbn; try done. by rewrite Hs, Hcur.
Qed.

Lemma shift_same s : line (shift s) ++ tx_fifo (shift s) = line s ++ tx_fifo s ∧ (length (tx_fifo (shift s)) <= length (tx_fifo s))%nat.
Proof. unfold shift. destruct (tx_fifo s) eqn:E; cbn; rewrite ?E; [done|]. rewrite <-app_assoc. split; [done|lia]. Qed.

Lemma shift_sending buf len pre s : sending buf len pre s → sending buf len pre (shift s).
Proof.
  intros (? & ? & ? & ? & Hs & Hf). destruct (shift_same s) as [Hx Hy]. unfold sending. rewrite Hx.
  unfold shift in *. destruct (tx_fifo s); cbn in *; split_and!; try done; lia.
Qed.

Lemma shift_quiet sent s : quiet sent s → quiet sent (shift s).
Proof.
  intros (? & ? & Hs & Hf). destruct (shift_same s) as [Hx Hy]. unfold quiet. rewrite Hx.
  unfold shift in *. destruct (tx_fifo s); cbn in *; split_and!; try done; lia.
Qed.

Lemma tx_interrupt_quiet sent s : quiet sent s → ∃ s', handle_tx_interrupt s = (Ok None, s') ∧ quiet sent s'.
Proof.
  intros (Hb & Hc & Hs & Hf). eexists. split; [unfold handle_tx_interrupt, send_remaining_bytes; run; rewrite Hb; run; cbn [Z.leb Z.compare]; run; reflexivity|].
  done.
Qed.

(** What happens while the driver sends: the wire takes a character, or the interrupt. *)
Inductive TxEvent := TxShift | TxInterrupt.

Fixpoint tx_events (evs : list TxEvent) : K t (list UartCall) :=
  match evs with
  | [] => mret []
  | TxShift :: evs => modify shift ;; tx_events evs
  | TxInterrupt :: evs => c ← handle_tx_interrupt; rest ← tx_events evs; mret (option_list c ++ rest)
  end.

Lemma tx_events_quiet sent evs s : quiet sent s → ∃ s', tx_events evs s = (Ok [], s') ∧ quiet sent s'.
Proof.
  revert s. induction evs as [|[] evs IH]; intros s Hs; [by eexists| |]; cbn [tx_events].
  - rewrite bind_modify. by apply IH, shift_quiet.
  - destruct (tx_interrupt_quiet sent s Hs) as (s1 & E & H1). destruct (IH s1 H1) as (s2 & E2 & H2). exists s2.
    erewrite bind_ok by exact E. by erewrite bind_ok by exact E2.
Qed.

Lemma tx_events_sending buf len pre evs s : sending buf len pre s →
  ∃ calls s', tx_events evs s = (Ok calls, s') ∧
    (calls = [] ∧ sending buf len pre s' ∨ calls = [TransmittedBuffer buf len SUCCESS] ∧ quiet (pre ++ take len buf) s').
Proof.
  revert s. induction evs as [|[] evs IH]; intros s Hs; [by eauto 6| |]; cbn [tx_events].
  - rewrite bind_modify. by apply IH, shift_sending.
  - destruct (tx_interrupt_eq buf len pre s Hs) as (c & s1 & E & [(-> & H1 & _)|(-> & H1 & _)]); erewrite bind_ok by exact E.
    + destruct (IH s1 H1) as (calls & s2 & E2 & H2). exists calls, s2. by erewrite bind_ok by exact E2.
    + destruct (tx_events_quiet _ evs s1 H1) as (s2 & E2 & H2). eexists _, s2. erewrite bind_ok by exact E2. split; [reflexivity|]. by right.
Qed.

(** The wire takes all that is in the FIFO, and the interrupt comes. *)
Definition drained_then_interrupt : list TxEvent := replicate 32 TxShift ++ [TxInterrupt].

Lemma shifts_drain n s : (length (tx_fifo s) <= n)%nat →
  tx_fifo (Nat.iter n shift s) = [] ∧ tx_cursor (Nat.iter n shift s) = tx_cursor s.
Proof.
  revert s. induction n as [|n IH]; intros s Hl; [cbn; split; [by apply nil_length_inv, Nat.le_0_r|done]|].
  rewrite Nat.iter_succ_r. destruct (IH (shift s)) as [H1 H2].
  - unfold shift. destruct (tx_fifo s) eqn:E; cbn in *; rewrite ?E; cbn; lia.
  - split; [done|]. rewrite H2. unfold shift. by destruct (tx_fifo s).
Qed.

Lemma tx_events_shifts n evs s : tx_events (replicate n TxShift ++ evs) s = tx_events evs (Nat.iter n shift s).
Proof. revert s. induction n as [|n IH]; intros s; [done|]. rewrite Nat.iter_succ_r, <-IH. done. Qed.

Lemma iter_sending buf len pre n s : sending buf len pre s → sending buf len pre (Nat.iter n shift s).
Proof. intros Hs. induction n; [done|]. cbn. by apply shift_sending. Qed.

Lemma round_progress buf len pre s : sending buf len pre s →
  ∃ calls s', tx_events drained_then_interrupt s = (Ok calls, s') ∧
    (calls = [] ∧ sending buf len pre s' ∧ (tx_cursor s < tx_cursor s')%nat ∨
     calls = [TransmittedBuffer buf len SUCCESS] ∧ quiet (pre ++ take len buf) s').
Proof.
  intros Hs. unfold drained_then_interrupt. rewrite tx_events_shifts. set (s1 := Nat.iter 32 shift s).
  destruct (shifts_drain 32 s) as [Hf Hc]; [by apply Hs|]. fold s1 in Hf, Hc.
  destruct (tx_interrupt_eq buf len pre s1 (iter_sending _ _ _ 32 s Hs)) as (c & s2 & E & [(-> & H2 & Hlt & Hc2)|(-> & H2 & _)]);
    cbn [tx_events]; erewrite bind_ok by exact E; run; eexists _, s2; (split; [reflexivity|]); [|by right].
  left. split; [done|]. split; [done|]. rewrite Hf in Hc2. cbn [length] in Hc2. lia.
Qed.

Lemma tx_events_app e1 e2 s c1 s1 c2 s2 : tx_events e1 s = (Ok c1, s1) → tx_events e2 s1 = (Ok c2, s2) →
  tx_events (e1 ++ e2) s = (Ok (c1 ++ c2), s2).
Proof.
  revert s c1. induction e1 as [|[] e1 IH]; intros s c1 E1 E2; cbn [tx_events app] in *.
  - injection E1 as <- <-. exact E2.
  - rewrite bind_modify in *. by apply IH.
  - apply bind_inv in E1 as (c & s' & Ec & E1). apply bind_inv in E1 as (rest & s'' & Er & E1). injection E1 as <- <-.
    erewrite bind_ok by exact Ec. erewrite bind_ok by (by apply IH). by rewrite app_assoc.
Qed.

Lemma rounds_finish buf len pre n s : sending buf len pre s → (len - tx_cursor s < n)%nat →
  ∃ s', tx_events (concat (replicate n drained_then_interrupt)) s = (Ok [TransmittedBuffer buf len SUCCESS], s') ∧ quiet (pre ++ take len buf) s'.
Proof.
  revert s. induction n as [|n IH]; intros s Hs Hn; [lia|]. cbn [replicate concat].
  destruct (round_progress buf len pre s Hs) as (calls & s1 & E & [(-> & H1 & Hc)|(-> & H1)]).
  - destruct (IH s1 H1) as (s2 & E2 & H2); [destruct H1 as (_ & _ & ? & _); lia|]. exists s2. split; [|done]. by rewrite (tx_events_app _ _ _ _ _ _ _ E E2).
  - destruct (tx_events_quiet _ (concat (replicate n drained_then_interrupt)) s1 H1) as (s2 & E2 & H2). exists s2. split; [|done].
    by rewrite (tx_events_app _ _ _ _ _ _ _ E E2).
Qed.


(** The length is not checked: more than the buffer holds panics the kernel. *)
Theorem transmit_overlong_panics (buf : list Z) (len : nat) (s : t) : tx_buffer s = None → (length buf < len)%nat →
  (transmit_buffer buf len s).1 = Panic.
Proof.
  intros Hb Hl. unfold transmit_buffer, send_remaining_bytes. rewrite bind_gets, Hb, bind_modify. run. cbn [tx_buffer set_tx tx_cursor tx_limit].
  rewrite (proj2 (Nat.eqb_neq _ _)) by lia. unfold slice. rewrite (proj2 (Nat.leb_gt len _)), andb_false_r by lia. done.
Qed.

(** *** Receiving *)

Lemma read_loop_eq fifo buf limit cursor : (cursor <= limit <= length buf)%nat →
  let n := Nat.min (length fifo) (limit - cursor) in
  ∃ buf', read_loop fifo buf limit cursor = Some (buf', (cursor + n)%nat, drop n fifo) ∧ length buf' = length buf ∧
    take (cursor + n) buf' = take cursor buf ++ take n fifo.
Proof.
  revert buf cursor. induction fifo as [|b fifo IH]; intros buf cursor Hc n.
  - exists buf. subst n. cbn [length Nat.min take drop]. rewrite Nat.add_0_r, app_nil_r. done.
  - cbn [read_loop]. destruct (Nat.ltb_spec cursor limit) as [Hlt|Hge].
    + rewrite (proj2 (Nat.ltb_lt _ _)) by lia. destruct (IH (<[cursor := b]> buf) (cursor + 1)%nat) as (buf' & E & Hl & Ht); [rewrite length_insert; lia|].
      exists buf'. subst n. replace (Nat.min (length (b :: fifo)) (limit - cursor)) with (S (Nat.min (length fifo) (limit - (cursor + 1)))) by (cbn [length]; lia).
      set (m := Nat.min (length fifo) _) in *. replace (cursor + S m)%nat with (cursor + 1 + m)%nat by lia. split; [exact E|]. split; [by rewrite Hl, length_insert|].
      rewrite Ht. cbn [take]. rewrite Nat.add_1_r, (take_S_r _ _ b) by (apply list_lookup_insert_eq; lia).
      rewrite take_insert_ge by lia. by rewrite <-app_assoc.
    + exists buf. subst n. replace (limit - cursor)%nat with 0%nat by lia. rewrite Nat.min_0_r, Nat.add_0_r, take_0, drop_0, app_nil_r. done.
Qed.

(** What happens while the driver receives: a character arrives, the interrupt, or the
    client gives a buffer. *)
Inductive RxEvent := RxArrive (b : Z) | RxInterrupt | RxReceive (buffer : list Z) (len : nat).

(** The driver, with what its FIFO has taken and what its client was given. *)
Record RxTrace := mk_RxTrace { uart : t; accepted : list Z; delivered : list Z }.

Definition given (c : option UartCall) : list Z :=
  match c with Some (ReceivedBuffer buf len _) => take len buf | _ => [] end.

Definition rx_event (ev : RxEvent) (x : RxTrace) : option RxTrace :=
  match ev with
  | RxArrive b =>
      let full := (FIFO_DEPTH <=? length (rx_fifo (uart x)))%nat in
      Some (mk_RxTrace (arrive b (uart x)) (accepted x ++ if full then [] else [b]) (delivered x))
  | RxInterrupt =>
      match handle_rx_interrupt (uart x) with
      | (Ok c, s) => Some (mk_RxTrace s (accepted x) (delivered x ++ given c))
      | _ => None
      end
  | RxReceive buf len =>
      match receive_buffer buf len (uart x) with
      | (Ok (_, _, c), s) => Some (mk_RxTrace s (accepted x) (delivered x ++ given c))
      | _ => None
      end
  end.

Fixpoint rx_events (evs : list RxEvent) (x : RxTrace) : option RxTrace :=
  match evs with [] => Some x | ev :: evs => rx_event ev x ≫= rx_events evs end.

(** What is in the buffer of the driver. *)
Definition partial (s : t) : list Z := match rx_buffer s with Some buf => take (rx_cursor s) buf | None => [] end.

Definition rx_ok (s : t) : Prop :=
  rx_client s = true ∧ match rx_buffer s with Some buf => (rx_cursor s <= rx_limit s <= length buf)%nat | None => True end.

Lemma read_rx_fifo_eq s : rx_ok s → ∃ c s', read_rx_fifo s = (Ok c, s') ∧ rx_ok s' ∧ given c ++ partial s' ++ rx_fifo s' = partial s ++ rx_fifo s.
Proof.
  intros [Hc Hb]. unfold read_rx_fifo, partial. run. destruct (rx_buffer s) as [buf|] eqn:Eb; [|exists None, s; split_and!; [done|split; [done|by rewrite Eb]|by rewrite Eb]].
  run. destruct (read_loop_eq (rx_fifo s) buf (rx_limit s) (rx_cursor s) Hb) as (buf' & E & Hl & Ht).
  change (id s) with s. rewrite E. erewrite bind_ok by reflexivity. set (n := Nat.min _ _) in *. cbv beta iota. rewrite bind_modify.
  assert (rx_cursor s + n <= rx_limit s <= length buf')%nat as Hb' by lia.
  destruct ((0 <? rx_limit s)%nat && (rx_limit s <=? rx_cursor s + n)%nat) eqn:Ed.
  - rewrite Hc, bind_modify. eexists _, _. split; [reflexivity|]. split; [done|]. cbn.
    apply andb_true_iff in Ed as [_ Ed%Nat.leb_le]. replace (rx_limit s) with (rx_cursor s + n)%nat by lia. rewrite Ht, <-app_assoc. by rewrite take_drop.
  - eexists _, _. split; [reflexivity|]. split; [done|]. cbn. rewrite Ht, <-app_assoc. by rewrite take_drop.
Qed.

Definition rx_inv (x : RxTrace) : Prop := rx_ok (uart x) ∧ delivered x ++ partial (uart x) ++ rx_fifo (uart x) = accepted x.

Lemma rx_event_ok ev x : rx_inv x → ∃ x', rx_event ev x = Some x' ∧ rx_inv x'.
Proof.
  intros [Hok Hs]. destruct ev as [b| |buf len]; cbn [rx_event].
  - eexists. split; [done|]. unfold rx_inv, arrive. cbn [uart accepted delivered].
    destruct (FIFO_DEPTH <=? length (rx_fifo (uart x)))%nat; (split; [exact Hok|]); [by rewrite app_nil_r|].
    unfold partial in *. cbn [rx_buffer rx_cursor rx_fifo set_fifos]. by rewrite <-Hs, <-!app_assoc.
  - unfold handle_rx_interrupt. destruct (read_rx_fifo_eq (uart x) Hok) as (c & s' & -> & Hok' & Hs'). eexists. split; [done|]. split; [done|].
    cbn. by rewrite <-app_assoc, Hs', Hs.
  - unfold receive_buffer. rewrite bind_gets. destruct (rx_buffer (uart x)) as [old|] eqn:Eb.
    + eexists. split; [reflexivity|]. split; [done|]. cbn. by rewrite app_nil_r.
    + destruct (Nat.ltb_spec (length buf) len); [eexists; split; [reflexivity|]; split; [done|]; cbn; by rewrite app_nil_r|]. rewrite bind_modify.
      set (s0 := set_rx (Some buf) len 0 (uart x)). assert (rx_ok s0) as H0 by (split; [apply Hok|cbn; lia]).
      destruct (read_rx_fifo_eq s0 H0) as (c & s' & E & Hok' & Hs'). erewrite bind_ok by exact E. eexists. split; [reflexivity|]. split; [done|].
      cbn [uart accepted delivered]. rewrite <-app_assoc, Hs', <-Hs. unfold partial. by rewrite Eb.
Qed.


(** A receive of zero characters is accepted and never completed: whatever arrives, no
    call is made, and every further receive is refused. *)
Theorem zero_receive_blocks (buf : list Z) (evs : list RxEvent) (s : t) :
  rx_client s = true → rx_buffer s = None →
  ∃ s1, receive_buffer buf 0 s = (Ok (SUCCESS, None, None), s1) ∧
    ∀ x, rx_events evs (mk_RxTrace s1 [] []) = Some x →
      delivered x = [] ∧ ∀ b n, receive_buffer b n (uart x) = (Ok (EBUSY, Some b, None), uart x).
Proof.
  intros Hc Hb. assert (∀ fifo b, read_loop fifo b 0 0 = Some (b, 0%nat, fifo)) as Hrl by (by intros [|? fifo] b).
  assert (∀ s, rx_buffer s = Some buf → rx_limit s = 0%nat → rx_cursor s = 0%nat → read_rx_fifo s = (Ok None, s)) as Hread.
  { intros x H1 H2 H3. unfold read_rx_fifo. run. rewrite H1. run. change (id x) with x. rewrite H2, H3, Hrl. erewrite bind_ok by reflexivity. run.
    unfold mret, M_ret. destruct x. cbn in *. by subst. }
  set (s1 := set_rx (Some buf) 0 0 s). exists s1. split.
  { unfold receive_buffer. rewrite bind_gets, Hb. cbn [Nat.ltb Nat.leb]. rewrite bind_modify. fold s1. erewrite bind_ok by (by apply Hread). done. }
  set (stuck x := rx_buffer (uart x) = Some buf ∧ rx_limit (uart x) = 0%nat ∧ rx_cursor (uart x) = 0%nat ∧ delivered x = []).
  assert (stuck (mk_RxTrace s1 [] [])) as Hstuck by done. revert Hstuck. generalize (mk_RxTrace s1 [] []).
  induction evs as [|ev evs IH]; intros x (H1 & H2 & H3 & H4) x' Hx'.
  - injection Hx' as <-. split; [done|]. intros b n. unfold receive_buffer. by rewrite bind_gets, H1.
  - cbn [rx_events] in Hx'. apply bind_Some in Hx' as (x1 & E & Hx'). apply (IH x1); [|exact Hx'].
    destruct ev as [b| |b n]; cbn [rx_event] in E.
    + injection E as <-. unfold stuck, arrive. cbn [uart delivered]. destruct (FIFO_DEPTH <=? length (rx_fifo (uart x)))%nat; by split_and!.
    + unfold handle_rx_interrupt in E. rewrite Hread in E by done. injection E as <-. unfold stuck. cbn. by rewrite H4.
    + unfold receive_buffer in E. rewrite bind_gets, H1 in E. injection E as <-. unfold stuck. cbn. by rewrite H4.
Qed.

(** *** Sending without interrupts *)

Lemma wait_room_ok fuel s : (length (tx_fifo s) <= 32)%nat → (0 < fuel)%nat →
  ∃ s', wait_room fuel s = Some s' ∧ (length (tx_fifo s') < 32)%nat ∧ line s' ++ tx_fifo s' = line s ++ tx_fifo s.
Proof.
  intros Hl Hf. destruct fuel as [|fuel]; [lia|]. cbn [wait_room]. unfold tx_full, FIFO_DEPTH.
  destruct (Nat.leb_spec 32 (length (tx_fifo s))) as [Hfull|]; [|by exists s].
  destruct (shift_same s) as [Hs _]. assert (length (tx_fifo (shift s)) < 32)%nat as Hlt by (unfold shift; destruct (tx_fifo s); cbn in *; lia).
  exists (shift s). split; [|done]. destruct fuel; cbn [wait_room]; unfold tx_full, FIFO_DEPTH; by rewrite (proj2 (Nat.leb_gt _ _)) by lia.
Qed.

Lemma wait_idle_ok fuel s : (length (tx_fifo s) <= fuel)%nat → ∃ s', wait_idle fuel s = Some s' ∧ tx_fifo s' = [] ∧ line s' = line s ++ tx_fifo s.
Proof.
  revert s. induction fuel as [|fuel IH]; intros s Hl; cbn [wait_idle]; unfold tx_idle.
  - assert (tx_fifo s = []) as E by (apply nil_length_inv; lia). rewrite E. exists s. by rewrite app_nil_r.
  - destruct (tx_fifo s) as [|b rest] eqn:E; cbn [length Nat.eqb]; [exists s; by rewrite app_nil_r|].
    destruct (IH (shift s)) as (s' & E' & H1 & H2); [unfold shift; rewrite E; cbn in *; lia|]. exists s'. split_and!; [done|done|].
    rewrite H2. unfold shift. rewrite E. cbn. by rewrite <-app_assoc.
Qed.

(** Characters sent synchronously are on the wire when the call returns: it returns,
    after at most 32 polls for each wait, with what was in the FIFO and then all bytes
    sent in order. *)
Theorem send_sync_delivers (bytes : list Z) (s : t) : (length (tx_fifo s) <= 32)%nat →
  ∃ s', send_bytes_sync 32 bytes s = Some s' ∧ line s' = line s ++ tx_fifo s ++ bytes ∧ tx_fifo s' = [].
Proof.
  intros Hl. unfold send_bytes_sync. set (s0 := enable_tx s). assert (line s0 ++ tx_fifo s0 = line s ++ tx_fifo s ∧ (length (tx_fifo s0) <= 32)%nat) as [H0 Hl0] by done.
  rewrite app_assoc, <-H0. clearbody s0. clear Hl H0 s.
  assert (∃ s1, sync_loop 32 bytes s0 = Some s1 ∧ (length (tx_fifo s1) <= 32)%nat ∧ line s1 ++ tx_fifo s1 = (line s0 ++ tx_fifo s0) ++ bytes) as (s1 & E & Hl1 & H1).
  { revert s0 Hl0. induction bytes as [|b bytes IH]; intros s Hl; [exists s; by rewrite app_nil_r|]. cbn [sync_loop].
    destruct (wait_room_ok 32 s Hl) as (s' & E & Hlt & Hs); [lia|]. rewrite E. cbn [mbind option_bind].
    destruct (IH (write_data b s')) as (s1 & E1 & Hl1 & H1).
    - unfold write_data, tx_full, FIFO_DEPTH. rewrite (proj2 (Nat.leb_gt _ _)) by lia. cbn. rewrite length_app. cbn. lia.
    - exists s1. split_and!; [done|done|]. rewrite H1. unfold write_data, tx_full, FIFO_DEPTH. rewrite (proj2 (Nat.leb_gt _ _)) by lia. cbn.
      by rewrite app_assoc, Hs, <-app_assoc. }
  rewrite E. cbn [mbind option_bind]. destruct (wait_idle_ok 32 s1 Hl1) as (s2 & E2 & Hf2 & H2). exists s2. split_and!; [done| |done]. by rewrite H2, H1.
Qed.

(** Sending synchronously switches the transmitter on and moves characters; it touches
    nothing else. *)
Definition settings (s : t) := (nco s, control s, interrupt_control s, pmu s, clock s, tx_buffer s, (rx_buffer s, tx_client s, rx_client s, rx_fifo s)).

Lemma shift_settings s : settings (shift s) = settings s.
Proof. unfold shift. by destruct (tx_fifo s). Qed.
Lemma wait_room_settings n s s' : wait_room n s = Some s' → settings s' = settings s.
Proof.
  revert s. induction n as [|n IH]; intros s; cbn [wait_room]; destruct (tx_full s); intros E; simplify_eq; [done| |done].
  rewrite (IH _ E). apply shift_settings.
Qed.
Lemma wait_idle_settings n s s' : wait_idle n s = Some s' → settings s' = settings s.
Proof.
  revert s. induction n as [|n IH]; intros s; cbn [wait_idle]; destruct (tx_idle s); intros E; simplify_eq; [done|done|].
  rewrite (IH _ E). apply shift_settings.
Qed.
Lemma send_sync_settings n bytes s s' : send_bytes_sync n bytes s = Some s' → settings s' = settings (enable_tx s).
Proof.
  unfold send_bytes_sync. generalize (enable_tx s). clear s. induction bytes as [|b bytes IH]; intros s; cbn [sync_loop].
  - cbn [mbind option_bind]. apply wait_idle_settings.
  - destruct (wait_room n s) as [s1|] eqn:E; [|done]. cbn [mbind option_bind]. intros Hs. rewrite (IH _ Hs), <-(wait_room_settings _ _ _ E).
    unfold write_data. by destruct (tx_full s1).
Qed.

(** ** Witnesses *)

Definition sample_uart : t := set_clients true true (new Uart0Timer (Pmu.mk (λ _, 0) [])).

Lemma config_divisor_witness : nco (config 115200 sample_uart) = 5033.
Proof. rewrite (config_divisor 115200) by lia. reflexivity. Defined.



Lemma zero_receive_blocks_witness : ∃ s1, receive_buffer [0] 0 sample_uart = (Ok (SUCCESS, None, None), s1).
Proof. destruct (zero_receive_blocks [0] [] sample_uart eq_refl eq_refl) as (s1 & E & _). exists s1. exact E. Defined.

Lemma send_sync_delivers_witness : ∃ s', send_bytes_sync 32 (replicate 40 65) sample_uart = Some s' ∧ line s' = replicate 40 65.
Proof. destruct (send_sync_delivers (replicate 40 65) sample_uart) as (s' & E & H & _); [cbn; lia|]. exists s'. split; [exact E|exact H]. Defined.

End UartFacts.
