(* ===== verification/Gpio.v ===== *)
(** General-purpose pins: the driver (kernel/h1/src/gpio.rs), the pin multiplexer as far as
    it uses it (kernel/h1/src/pinmux.rs), and the pins of the papa board at start-up
    (kernel/papa/src/main.rs).

    A write of ones to a register that sets (or clears) bits changes these bits only;
    reading it gives the current bits, as the driver assumes. *)

From S2P Require Import Prelude Io Tock.
From Stdlib Require Import ZArith Lia.
From stdpp Require Import base decidable option list list_numbers.

#[local] Open Scope Z_scope.

(** ** The pin multiplexer *)

Inductive SelectablePin :=
| Disconnected | Vio1 | Vio0 | Diob7 | Diob6 | Diob5 | Diob4 | Diob3 | Diob2 | Diob1 | Diob0
| Dioa14 | Dioa13 | Dioa12 | Dioa11 | Dioa10 | Dioa9 | Dioa8 | Dioa7 | Dioa6 | Dioa5 | Dioa4 | Dioa3 | Dioa2 | Dioa1 | Dioa0
| Diom4 | Diom3 | Diom2 | Diom1 | Diom0.

#[global] Instance SelectablePin_eq_dec : EqDecision SelectablePin.
Proof. solve_decision. Defined.

(** A pin of a port; [false] is [GPIO0_BASE]. *)
Definition PinId : Type := bool * nat.

(** [Function]: the pins of the two ports come first. *)
Definition gpio_function (x : PinId) : Z := (if x.1 then 17 else 1) + Z.of_nat x.2.
Definition Function_Uart0Tx : Z := 70.

(** The function and control registers of the pads, and which pad a peripheral reads. *)
Record Pinmux := mk_Pinmux {
  pad_select : SelectablePin → Z;
  pad_control : SelectablePin → Z;
  gpio_select : PinId → SelectablePin;
  uart0_rx : SelectablePin
}.

Definition set_pad_select (p : SelectablePin) (v : Z) (m : Pinmux) : Pinmux :=
  mk_Pinmux (λ q, if decide (q = p) then v else pad_select m q) (pad_control m) (gpio_select m) (uart0_rx m).
Definition set_pad_control (p : SelectablePin) (v : Z) (m : Pinmux) : Pinmux :=
  mk_Pinmux (pad_select m) (λ q, if decide (q = p) then v else pad_control m q) (gpio_select m) (uart0_rx m).
Definition set_gpio_select (x : PinId) (p : SelectablePin) (m : Pinmux) : Pinmux :=
  mk_Pinmux (pad_select m) (pad_control m) (λ y, if decide (y = x) then p else gpio_select m y) (uart0_rx m).
Definition set_uart0_rx (p : SelectablePin) (m : Pinmux) : Pinmux := mk_Pinmux (pad_select m) (pad_control m) (gpio_select m) p.

(** ** Ports *)

Record PortRegisters := mk_Port {
  data_in : Z;
  data_out : Z;
  output_enable : Z;
  interrupt_enable : Z;
  interrupt_type : Z;
  interrupt_pol : Z;
  interrupt_status : Z
}.

Definition set_data_in (v : Z) (r : PortRegisters) : PortRegisters :=
  mk_Port v (data_out r) (output_enable r) (interrupt_enable r) (interrupt_type r) (interrupt_pol r) (interrupt_status r).
Definition set_data_out (v : Z) (r : PortRegisters) : PortRegisters :=
  mk_Port (data_in r) v (output_enable r) (interrupt_enable r) (interrupt_type r) (interrupt_pol r) (interrupt_status r).
Definition set_output_enable (v : Z) (r : PortRegisters) : PortRegisters :=
  mk_Port (data_in r) (data_out r) v (interrupt_enable r) (interrupt_type r) (interrupt_pol r) (interrupt_status r).
Definition set_interrupt_enable (v : Z) (r : PortRegisters) : PortRegisters :=
  mk_Port (data_in r) (data_out r) (output_enable r) v (interrupt_type r) (interrupt_pol r) (interrupt_status r).
Definition set_interrupt_type (v : Z) (r : PortRegisters) : PortRegisters :=
  mk_Port (data_in r) (data_out r) (output_enable r) (interrupt_enable r) v (interrupt_pol r) (interrupt_status r).
Definition set_interrupt_pol (v : Z) (r : PortRegisters) : PortRegisters :=
  mk_Port (data_in r) (data_out r) (output_enable r) (interrupt_enable r) (interrupt_type r) v (interrupt_status r).
Definition set_interrupt_status (v : Z) (r : PortRegisters) : PortRegisters :=
  mk_Port (data_in r) (data_out r) (output_enable r) (interrupt_enable r) (interrupt_type r) (interrupt_pol r) v.

Inductive Configuration := ConfInput | ConfInputOutput.
Inductive FloatingState := PullUp | PullDown | PullNone.
Inductive InterruptEdge := RisingEdge | FallingEdge | EitherEdge.

Definition bit (p : nat) : Z := Z.shiftl 1 (Z.of_nat p).
Definition set_bits (mask v : Z) : Z := Z.lor v mask.
Definition clear_bits (mask v : Z) : Z := Z.land v (Z.lnot mask).
Definition has_bit (p : nat) (v : Z) : bool := negb (Z.land v (bit p) =? 0).

Module GPIO.

(** [fired]: the calls to the clients of the pins. *)
Record t := mk {
  ports : bool → PortRegisters;
  change : PinId → bool;
  client : PinId → bool;
  pinmux : Pinmux;
  fired : list PinId
}.

Definition on_port (b : bool) (f : PortRegisters → PortRegisters) (s : t) : t :=
  mk (λ b', if decide (b' = b) then f (ports s b) else ports s b') (change s) (client s) (pinmux s) (fired s).
Definition set_change (x : PinId) (v : bool) (s : t) : t :=
  mk (ports s) (λ y, if decide (y = x) then v else change s y) (client s) (pinmux s) (fired s).
Definition set_client (x : PinId) (s : t) : t :=
  mk (ports s) (change s) (λ y, if decide (y = x) then true else client s y) (pinmux s) (fired s).
Definition on_pinmux (f : Pinmux → Pinmux) (s : t) : t := mk (ports s) (change s) (client s) (f (pinmux s)) (fired s).
Definition fire (x : PinId) (s : t) : t :=
  mk (ports s) (change s) (client s) (pinmux s) (fired s ++ if client s x then [x] else []).

Definition on_out (x : PinId) (f : Z → Z → Z) : t → t := on_port x.1 (λ r, set_data_out (f (bit x.2) (data_out r)) r).
Definition on_enable (x : PinId) (f : Z → Z → Z) : t → t := on_port x.1 (λ r, set_output_enable (f (bit x.2) (output_enable r)) r).
Definition on_pol (x : PinId) (f : Z → Z → Z) : t → t := on_port x.1 (λ r, set_interrupt_pol (f (bit x.2) (interrupt_pol r)) r).

Definition handle_interrupt (x : PinId) (s : t) : t :=
  let s := on_port x.1 (λ r, set_interrupt_status (clear_bits (bit x.2) (interrupt_status r)) r) s in
  let s :=
    if change s x then
      if has_bit x.2 (interrupt_pol (ports s x.1)) then on_pol x clear_bits s else on_pol x set_bits s
    else s in
  fire x s.

Definition get_pinmux_pin (x : PinId) (s : t) : option SelectablePin :=
  match gpio_select (pinmux s) x with Disconnected | Vio0 | Vio1 => None | p => Some p end.

Definition is_input (x : PinId) (s : t) : bool := true.
Definition is_output (x : PinId) (s : t) : bool := has_bit x.2 (output_enable (ports s x.1)).

Definition configuration (x : PinId) (s : t) : Configuration := if is_output x s then ConfInputOutput else ConfInput.

Definition make_output (x : PinId) (s : t) : Configuration * t := (ConfInputOutput, on_enable x set_bits s).
Definition disable_output (x : PinId) (s : t) : Configuration * t := (ConfInput, on_enable x set_bits s).
Definition make_input (x : PinId) (s : t) : Configuration * t := (configuration x s, s).
Definition disable_input (x : PinId) (s : t) : Configuration * t := (configuration x s, s).

Definition set_floating_state (x : PinId) (st : FloatingState) (s : t) : t :=
  match get_pinmux_pin x s with
  | Some p =>
      let c := pad_control (pinmux s) p in
      on_pinmux (set_pad_control p
        match st with
        | PullUp => Z.lor (Z.land c (Z.lnot (bit 3))) (bit 4)
        | PullDown => Z.lor (Z.land c (Z.lnot (bit 4))) (bit 3)
        | PullNone => Z.land c (Z.lnot (Z.lor (bit 3) (bit 4)))
        end) s
  | None => s
  end.

Definition floating_state (x : PinId) (s : t) : FloatingState :=
  match get_pinmux_pin x s with
  | Some p =>
      let c := pad_control (pinmux s) p in
      match has_bit 4 c, has_bit 3 c with
      | true, false => PullUp
      | false, true => PullDown
      | _, _ => PullNone
      end
  | None => PullNone
  end.

Definition deactivate_to_low_power (x : PinId) (s : t) : t := set_floating_state x PullNone (disable_output x s).2.

Definition read (x : PinId) (s : t) : bool := has_bit x.2 (data_in (ports s x.1)).

Definition set (x : PinId) : t → t := on_out x set_bits.
Definition clear (x : PinId) : t → t := on_out x clear_bits.
Definition toggle (x : PinId) (s : t) : bool * t :=
  let new_value := Z.lxor (data_out (ports s x.1)) (bit x.2) in
  (has_bit x.2 new_value, on_port x.1 (set_data_out new_value) s).

Definition enable_interrupts (x : PinId) (mode : InterruptEdge) (s : t) : t :=
  let s :=
    match mode with
    | RisingEdge => set_change x false (on_pol x set_bits s)
    | FallingEdge => set_change x false (on_pol x clear_bits s)
    | EitherEdge =>
        let s := set_change x true s in
        if read x s then on_pol x clear_bits s else on_pol x set_bits s
    end in
  on_port x.1 (λ r, set_interrupt_enable (set_bits (bit x.2) (interrupt_enable r))
    (set_interrupt_type (set_bits (bit x.2) (interrupt_type r)) r)) s.

Definition disable_interrupts (x : PinId) : t → t :=
  on_port x.1 (λ r, set_interrupt_enable (clear_bits (bit x.2) (interrupt_enable r)) r).

Definition is_pending (x : PinId) (s : t) : bool := has_bit x.2 (interrupt_status (ports s x.1)).

(** ** The outside *)

(** The level of a pin changes; an edge of the chosen polarity raises the interrupt. *)
Definition level (x : PinId) (v : bool) (s : t) : t :=
  let r := ports s x.1 in
  let edge := negb (eqb (read x s) v) && has_bit x.2 (interrupt_enable r) && has_bit x.2 (interrupt_type r)
              && eqb (has_bit x.2 (interrupt_pol r)) v in
  let s := on_port x.1 (λ r, set_data_in ((if v then set_bits else clear_bits) (bit x.2) (data_in r)) r) s in
  if edge then on_port x.1 (λ r, set_interrupt_status (set_bits (bit x.2) (interrupt_status r)) r) s else s.

(** What a pin drives. *)
Definition driven (x : PinId) (s : t) : option bool :=
  if is_output x s then Some (has_bit x.2 (data_out (ports s x.1))) else None.

End GPIO.

(** ** The papa board *)

Definition GPIO_INPUT_EN : Z := bit 2.
Definition GPIO_PULLUP_EN : Z := bit 4.

Definition BMC_SRST_N : PinId := (false, 0%nat).
Definition BMC_CPU_RST_N : PinId := (false, 1%nat).
Definition SYS_RSTMON_N : PinId := (false, 2%nat).
Definition BMC_RSTMON_N : PinId := (false, 3%nat).

(** The statements of [reset_handler] that set up the pins, in their order. *)
Definition papa_pins : list (GPIO.t → GPIO.t) :=
  let mux f := GPIO.on_pinmux f in
  let pulled p := mux (set_pad_control p (Z.lor GPIO_INPUT_EN GPIO_PULLUP_EN)) in
  [mux (set_pad_select Diob2 (gpio_function BMC_SRST_N)); mux (set_gpio_select BMC_SRST_N Diob2);
   mux (set_pad_select Diob6 (gpio_function BMC_CPU_RST_N)); mux (set_gpio_select BMC_CPU_RST_N Diob6);
   mux (set_pad_select Diob0 (gpio_function SYS_RSTMON_N)); pulled Diob0; mux (set_gpio_select SYS_RSTMON_N Diob0);
   mux (set_pad_select Diob7 (gpio_function BMC_RSTMON_N)); pulled Diob7; mux (set_gpio_select BMC_RSTMON_N Diob7);
   mux (set_pad_select Dioa0 Function_Uart0Tx); pulled Diom0; mux (set_uart0_rx Diom0);
   pulled Dioa11; pulled Dioa6; pulled Dioa12; pulled Dioa2;
   GPIO.clear BMC_SRST_N; λ s, (GPIO.make_output BMC_SRST_N s).2;
   GPIO.clear BMC_CPU_RST_N; λ s, (GPIO.make_output BMC_CPU_RST_N s).2;
   GPIO.clear SYS_RSTMON_N; λ s, (GPIO.make_input SYS_RSTMON_N s).2;
   GPIO.clear BMC_RSTMON_N; λ s, (GPIO.make_input BMC_RSTMON_N s).2].

Definition papa_setup (s : GPIO.t) : GPIO.t := foldl (λ s f, f s) s papa_pins.

(** ** What the driver promises: an array of independent pins *)

(** The calls of the driver on one pin, and the two events from outside. *)
Inductive GpioOp :=
| OpSet | OpClear | OpToggle | OpMakeOutput | OpDisableOutput | OpMakeInput | OpDisableInput
| OpFloat (st : FloatingState) | OpLowPower | OpEnable (mode : InterruptEdge) | OpDisable | OpSetClient
| OpLevel (v : bool) | OpHandle.

Definition run_op (x : PinId) (o : GpioOp) (s : GPIO.t) : GPIO.t :=
  match o with
  | OpSet => GPIO.set x s
  | OpClear => GPIO.clear x s
  | OpToggle => (GPIO.toggle x s).2
  | OpMakeOutput => (GPIO.make_output x s).2
  | OpDisableOutput => (GPIO.disable_output x s).2
  | OpMakeInput => (GPIO.make_input x s).2
  | OpDisableInput => (GPIO.disable_input x s).2
  | OpFloat st => GPIO.set_floating_state x st s
  | OpLowPower => GPIO.deactivate_to_low_power x s
  | OpEnable mode => GPIO.enable_interrupts x mode s
  | OpDisable => GPIO.disable_interrupts x s
  | OpSetClient => GPIO.set_client x s
  | OpLevel v => GPIO.level x v s
  | OpHandle => GPIO.handle_interrupt x s
  end.

Definition run_ops (l : list (PinId * GpioOp)) (s : GPIO.t) : GPIO.t := foldl (λ s c, run_op c.1 c.2 s) s l.

(** A single pin, with nothing but its own bits. *)
Record PinState := mk_PinState {
  p_in : bool;
  p_out : bool;
  p_drives : bool;
  p_armed : bool;
  p_edge : bool;
  p_rising : bool;
  p_pending : bool;
  p_both : bool;
  p_client : bool
}.

Definition pin_state (x : PinId) (s : GPIO.t) : PinState :=
  let r := GPIO.ports s x.1 in
  mk_PinState (has_bit x.2 (data_in r)) (has_bit x.2 (data_out r)) (has_bit x.2 (output_enable r)) (has_bit x.2 (interrupt_enable r))
    (has_bit x.2 (interrupt_type r)) (has_bit x.2 (interrupt_pol r)) (has_bit x.2 (interrupt_status r))
    (GPIO.change s x) (GPIO.client s x).

Definition pin_step (o : GpioOp) (p : PinState) : PinState :=
  let '(mk_PinState i out drv arm edge ris pend both cl) := p in
  match o with
  | OpSet => mk_PinState i true drv arm edge ris pend both cl
  | OpClear => mk_PinState i false drv arm edge ris pend both cl
  | OpToggle => mk_PinState i (negb out) drv arm edge ris pend both cl
  | OpMakeOutput | OpDisableOutput | OpLowPower => mk_PinState i out true arm edge ris pend both cl
  | OpMakeInput | OpDisableInput | OpFloat _ => p
  | OpEnable RisingEdge => mk_PinState i out drv true true true pend false cl
  | OpEnable FallingEdge => mk_PinState i out drv true true false pend false cl
  | OpEnable EitherEdge => mk_PinState i out drv true true (negb i) pend true cl
  | OpDisable => mk_PinState i out drv false edge ris pend both cl
  | OpSetClient => mk_PinState i out drv arm edge ris pend both true
  | OpLevel v => mk_PinState v out drv arm edge ris (pend || (negb (eqb i v) && arm && edge && eqb ris v)) both cl
  | OpHandle => mk_PinState i out drv arm edge (xorb both ris) false both cl
  end.

(** The calls made to clients. *)
Definition pin_fires (o : GpioOp) (p : PinState) : bool := match o with OpHandle => p_client p | _ => false end.

Module GpioFacts.

Import GPIO.

#[local] Lemma has_bit_testbit p v : has_bit p v = Z.testbit v (Z.of_nat p).
Proof.
  unfold has_bit, bit. rewrite Z.shiftl_1_l.
  destruct (Z.testbit v (Z.of_nat p)) eqn:E.
  - destruct (Z.eqb_spec (Z.land v (2 ^ Z.of_nat p)) 0) as [H | H]; [exfalso | done].
    apply (f_equal (λ z, Z.testbit z (Z.of_nat p))) in H.
    rewrite Z.land_spec, E, Z.pow2_bits_true, Z.bits_0 in H by lia. done.
  - destruct (Z.eqb_spec (Z.land v (2 ^ Z.of_nat p)) 0) as [H | H]; [done | exfalso].
    apply H. apply Z.bits_inj'. intros n Hn. rewrite Z.land_spec, Z.bits_0, Z.pow2_bits_eqb by lia.
    destruct (Z.eqb_spec (Z.of_nat p) n) as [<- | ]; [by rewrite E | apply andb_false_r].
Qed.

#[local] Lemma testbit_bit p q : Z.testbit (bit p) (Z.of_nat q) = bool_decide (q = p).
Proof.
  unfold bit. rewrite Z.shiftl_1_l, Z.pow2_bits_eqb by lia.
  case_bool_decide as H; [subst; apply Z.eqb_refl | apply Z.eqb_neq; lia].
Qed.

Lemma has_set p q v : has_bit q (set_bits (bit p) v) = if decide (q = p) then true else has_bit q v.
Proof.
  rewrite !has_bit_testbit. unfold set_bits. rewrite Z.lor_spec, testbit_bit.
  destruct (decide (q = p)); [rewrite bool_decide_eq_true_2 by done; apply orb_true_r | rewrite bool_decide_eq_false_2 by done; apply orb_false_r].
Qed.

Lemma has_clear p q v : has_bit q (clear_bits (bit p) v) = if decide (q = p) then false else has_bit q v.
Proof.
  rewrite !has_bit_testbit. unfold clear_bits. rewrite Z.land_spec, Z.lnot_spec, testbit_bit by lia.
  destruct (decide (q = p)); [rewrite bool_decide_eq_true_2 by done; apply andb_false_r | rewrite bool_decide_eq_false_2 by done; apply andb_true_r].
Qed.

Lemma has_flip p q v : has_bit q (Z.lxor v (bit p)) = if decide (q = p) then negb (has_bit q v) else has_bit q v.
Proof.
  rewrite !has_bit_testbit. rewrite Z.lxor_spec, testbit_bit.
  destruct (decide (q = p)); [rewrite bool_decide_eq_true_2 by done; apply xorb_true_r | rewrite bool_decide_eq_false_2 by done; apply xorb_false_r].
Qed.

#[local] Create Rewrite HintDb gpio.
#[local] Hint Rewrite has_set has_clear has_flip : gpio.

(** What a call does to the registers of a port, bit by bit. *)
Definition port_bits (q : nat) (r : PortRegisters) : list bool :=
  [has_bit q (data_in r); has_bit q (data_out r); has_bit q (output_enable r); has_bit q (interrupt_enable r);
   has_bit q (interrupt_type r); has_bit q (interrupt_pol r); has_bit q (interrupt_status r)].

Lemma pin_on_port_other b p f y s :
  y ≠ (b, p) → (y.2 ≠ p → port_bits y.2 (f (ports s b)) = port_bits y.2 (ports s b)) → pin_state y (on_port b f s) = pin_state y s.
Proof.
  intros Hne H. unfold pin_state. simpl. destruct (decide (y.1 = b)) as [E | ]; [| done].
  destruct y as [b' q]; simpl in *. subst b'. assert (Hq : q ≠ p) by congruence. specialize (H Hq). unfold port_bits in H.
  injection H as H1 H2 H3 H4 H5 H6 H7. by rewrite H1, H2, H3, H4, H5, H6, H7.
Qed.

Ltac other_pin :=
  eapply pin_on_port_other; [eassumption |]; intros Hq; unfold port_bits; simpl; autorewrite with gpio;
  rewrite ?(decide_False (P := _.2 = _)) by exact Hq; reflexivity.

Lemma floating_state_pins x st y s : pin_state y (set_floating_state x st s) = pin_state y s.
Proof. unfold set_floating_state. by destruct (get_pinmux_pin x s). Qed.

#[local] Lemma set_change_other x v y s : y ≠ x → pin_state y (set_change x v s) = pin_state y s.
Proof. intros Hne. unfold pin_state. simpl. by rewrite decide_False by done. Qed.

#[local] Lemma pin_state_fire x y s : pin_state y (fire x s) = pin_state y s.
Proof. done. Qed.

#[local] Lemma on_pol_other x (f : Z → Z → Z) y s :
  (f = set_bits ∨ f = clear_bits) → y ≠ x → pin_state y (on_pol x f s) = pin_state y s.
Proof. intros [-> | ->] Hne; destruct x as [b p]; unfold on_pol; simpl; other_pin. Qed.

Lemma run_op_other x o y s : y ≠ x → pin_state y (run_op x o s) = pin_state y s.
Proof.
  intros Hne. destruct o as [| | | | | | | st | | mode | | | v |]; simpl;
    unfold set, clear, toggle, make_output, disable_output, disable_interrupts, deactivate_to_low_power, on_out, on_enable; simpl;
    rewrite ?floating_state_pins; try done; try (by destruct x; simpl; other_pin).
  - unfold enable_interrupts. destruct x. etransitivity; [simpl; other_pin |].
    destruct mode; rewrite ?set_change_other, ?on_pol_other by auto; [done | done |].
    case_match; rewrite on_pol_other, set_change_other by auto; done.
  - unfold pin_state. simpl. by rewrite decide_False by done.
  - unfold level. destruct x. case_match; [etransitivity; [simpl; other_pin |] |]; destruct v; simpl; other_pin.
  - destruct x as [b p].
    transitivity (pin_state y (on_port b (λ r, set_interrupt_status (clear_bits (bit p) (interrupt_status r)) r) s)); [| other_pin].
    unfold handle_interrupt. simpl. destruct (change s (b, p)); [| done]. destruct (has_bit p _);
      by rewrite pin_state_fire, on_pol_other by auto.
Qed.

Ltac own_pin :=
  unfold pin_state; simpl; rewrite ?(decide_True (P := _ = _)) by reflexivity; simpl;
  rewrite ?(decide_True (P := _ = _)) by reflexivity; simpl; autorewrite with gpio; rewrite ?decide_True by reflexivity.

Lemma run_op_same x o s : pin_state x (run_op x o s) = pin_step o (pin_state x s).
Proof.
  destruct x as [b p], o as [| | | | | | | st | | mode | | | v |]; simpl;
    unfold set, clear, toggle, make_output, disable_output, disable_interrupts, deactivate_to_low_power, on_out, on_enable;
    rewrite ?floating_state_pins; try done; try (by own_pin).
  - unfold enable_interrupts, on_pol, read. destruct mode; try (by own_pin). simpl.
    destruct (has_bit p (data_in (ports s b))) eqn:E; own_pin; rewrite ?E; done.
  - unfold level, read. simpl. destruct (_ && _) eqn:E; destruct v; own_pin; rewrite ?orb_false_r, ?orb_true_r; try done;
      rewrite E; rewrite ?orb_false_r, ?orb_true_r; done.
  - unfold handle_interrupt. simpl. destruct (change s (b, p)) eqn:Ec; [| own_pin; rewrite Ec; done].
    rewrite !decide_True by done. simpl. destruct (has_bit p (interrupt_pol (ports s b))) eqn:Ep; own_pin; rewrite ?Ec, ?Ep; done.
Qed.

Lemma run_op_pin x o y s : pin_state y (run_op x o s) = if decide (y = x) then pin_step o (pin_state y s) else pin_state y s.
Proof. case_decide as H; [subst; apply run_op_same | by apply run_op_other]. Qed.

Lemma run_op_fired x o s : fired (run_op x o s) = fired s ++ if pin_fires o (pin_state x s) then [x] else [].
Proof.
  destruct o as [| | | | | | | st | | mode | | | v |]; simpl; rewrite ?app_nil_r; try done.
  - unfold set_floating_state. by case_match.
  - unfold deactivate_to_low_power, set_floating_state. by case_match.
  - unfold enable_interrupts, on_pol. destruct mode; try done. by case_match.
  - unfold level. by case_match.
  - unfold handle_interrupt, on_pol. simpl. destruct (change s x); [destruct (has_bit _ _) |]; done.
Qed.

(** The driver as an array of pins: a sequence of calls takes the pin [y] to the state it
    reaches by the calls made on [y] alone, in their order. *)
Definition calls_on (y : PinId) (l : list (PinId * GpioOp)) : list GpioOp := (filter (λ c, c.1 = y) l).*2.

(** C18: the driver refines an array of independent pins. Whatever calls are made on the
    thirty-two pins, whatever the outside does to them, and in whichever order, each pin is
    in the state its own calls and events lead to, though all pins of a port share the
    registers; and the clients told are those of the pins whose interrupts were handled. *)
Theorem pins_independent l s y :
  pin_state y (run_ops l s) = foldl (λ p o, pin_step o p) (pin_state y s) (calls_on y l)
  ∧ (∀ x, x ∈ fired (run_ops l s) → x ∈ fired s ∨ (x, OpHandle) ∈ l).
Proof.
  unfold run_ops, calls_on. revert s. induction l as [| [x o] l IH]; intros s; simpl; [by split; [| left] |].
  destruct (IH (run_op x o s)) as [IH1 IH2]. split.
  - rewrite IH1, run_op_pin, filter_cons. simpl. repeat case_decide; subst; simpl; done.
  - intros z Hz. destruct (IH2 z Hz) as [H | H]; [| right; by right].
    rewrite run_op_fired in H. apply elem_of_app in H as [H | H]; [by left | right].
    destruct o; simpl in H; try (by apply elem_of_nil in H).
    case_match; [apply list_elem_of_singleton in H; subst; left | by apply elem_of_nil in H].
Qed.

Lemma driven_pin x s : driven x s = if p_drives (pin_state x s) then Some (p_out (pin_state x s)) else None.
Proof. done. Qed.

Lemma is_output_pin x s : is_output x s = p_drives (pin_state x s).
Proof. done. Qed.

(** [disable_output], and [deactivate_to_low_power] by it, make a pin drive its line:
    they write to the register that enables outputs. The caller is told the pin is an input. *)
Theorem disable_output_drives x s :
  (disable_output x s).1 = ConfInput
  ∧ driven x (disable_output x s).2 = Some (has_bit x.2 (data_out (ports s x.1)))
  ∧ configuration x (disable_output x s).2 = ConfInputOutput
  ∧ driven x (deactivate_to_low_power x s) = Some (has_bit x.2 (data_out (ports s x.1))).
Proof.
  assert (H : ∀ o, o = OpDisableOutput ∨ o = OpLowPower → driven x (run_op x o s) = Some (has_bit x.2 (data_out (ports s x.1)))
            ∧ is_output x (run_op x o s) = true).
  { intros o Ho. rewrite driven_pin, is_output_pin, run_op_same. destruct Ho as [-> | ->]; done. }
  destruct (H OpDisableOutput) as [H1 H1']; [by left |]. destruct (H OpLowPower) as [H2 _]; [by right |].
  unfold configuration. simpl in *. by rewrite H1, H1', H2.
Qed.

(** A level of [x] with its interrupt handled at once, or a call on another pin. *)
Definition visit (x : PinId) (e : bool + PinId * GpioOp) (s : t) : t :=
  match e with
  | inl v => let s := run_op x (OpLevel v) s in if is_pending x s then run_op x OpHandle s else s
  | inr (y, o) => run_op y o s
  end.

Fixpoint transitions (before : bool) (l : list (bool + PinId * GpioOp)) : nat :=
  match l with
  | [] => 0
  | inl v :: l => (if eqb before v then 0 else 1) + transitions v l
  | inr _ :: l => transitions before l
  end.

Definition fired_on (x : PinId) (s : t) : nat := length (filter (λ y, y = x) (fired s)).

(** The pin waits for the edge that comes next. *)
Definition waiting (x : PinId) (s : t) : Prop :=
  ∃ i out drv, pin_state x s = mk_PinState i out drv true true (negb i) false true true.

#[local] Lemma waiting_read x s i out drv : pin_state x s = mk_PinState i out drv true true (negb i) false true true → read x s = i.
Proof. intros H. exact (f_equal p_in H). Qed.

#[local] Lemma fired_on_run x y o s : fired_on x (run_op y o s) = (fired_on x s + if decide (y = x) then if pin_fires o (pin_state y s) then 1 else 0 else 0)%nat.
Proof.
  unfold fired_on. rewrite run_op_fired, filter_app, length_app. f_equal.
  destruct (pin_fires o (pin_state y s)); [rewrite filter_cons |]; simpl; case_decide; done.
Qed.

#[local] Lemma visit_step x e s :
  waiting x s → match e with inl _ => True | inr (y, _) => y ≠ x end →
  waiting x (visit x e s) ∧ fired_on x (visit x e s) = (fired_on x s + match e with inl v => if eqb (read x s) v then 0 else 1 | _ => 0 end)%nat
  ∧ read x (visit x e s) = match e with inl v => v | _ => read x s end.
Proof.
  intros (i & out & drv & Hx) He. rewrite (waiting_read _ _ _ _ _ Hx). destruct e as [v | [y o]]; simpl.
  - assert (Hl : pin_state x (level x v s) = mk_PinState v out drv true true (negb i) (negb (eqb i v)) true true).
    { pose proof (run_op_same x (OpLevel v) s) as H. rewrite Hx in H. etransitivity; [exact H |]. by destruct i, v. }
    assert (Hp : is_pending x (level x v s) = negb (eqb i v)).
    { pose proof (f_equal p_pending Hl) as Hp. exact Hp. }
    pose proof (fired_on_run x x (OpLevel v) s) as Hf. rewrite decide_True in Hf by done. simpl in Hf. rewrite Nat.add_0_r in Hf.
    rewrite Hp. destruct (eqb i v) eqn:Eiv; simpl.
    + apply eqb_prop in Eiv as <-. rewrite ?eqb_reflx in Hl.
      split_and!; [by exists i, out, drv | lia | by eapply waiting_read].
    + assert (Hr : v = negb i) by (by destruct i, v). subst v.
      assert (Hh : pin_state x (handle_interrupt x (level x (negb i) s)) = mk_PinState (negb i) out drv true true i false true true).
      { pose proof (run_op_same x OpHandle (level x (negb i) s)) as H. rewrite Hl in H. etransitivity; [exact H |]. by destruct i. }
      pose proof (fired_on_run x x OpHandle (level x (negb i) s)) as Hf2. rewrite decide_True, Hl in Hf2 by done. simpl in Hf2.
      split_and!; [exists (negb i), out, drv; by rewrite negb_involutive | lia | exact (f_equal p_in Hh)].
  - pose proof (run_op_other y o x s ltac:(done)) as Ho. rewrite Hx in Ho.
    split_and!; [by exists i, out, drv | rewrite fired_on_run, decide_False by done; lia | by eapply waiting_read].
Qed.

(** Interrupts on either edge, which the hardware does not have. Once enabled on a pin
    with a client and nothing pending, every transition of the pin whose interrupt is
    handled before the next calls the client once, and nothing else does, whatever is done
    with the other pins in between. *)
Theorem either_edge_counts x l s :
  client s x = true → is_pending x s = false → Forall (λ e, match e with inl _ => True | inr (y, _) => y ≠ x end) l →
  let s1 := enable_interrupts x EitherEdge s in
  fired_on x (foldl (λ s e, visit x e s) s1 l) = (fired_on x s + transitions (read x s) l)%nat.
Proof.
  intros Hc Hp Hl s1.
  assert (Hw : waiting x s1).
  { pose proof (run_op_same x (OpEnable EitherEdge) s) as H. eexists _, _, _. etransitivity; [exact H |].
    unfold pin_state, pin_step. unfold is_pending in Hp. by rewrite Hc, Hp. }
  assert (Hf : fired_on x s1 = fired_on x s) by (etransitivity; [exact (fired_on_run x x (OpEnable EitherEdge) s) |]; case_decide; simpl; lia).
  assert (Hr : read x s1 = read x s).
  { pose proof (run_op_same x (OpEnable EitherEdge) s) as H. exact (f_equal p_in H). }
  rewrite <- Hf, <- Hr. clearbody s1. clear Hc Hp Hf Hr s. revert s1 Hw. induction Hl as [| e l He Hl IH]; intros s Hw; simpl; [lia |].
  destruct (visit_step x e s Hw He) as (Hw' & Hf' & Hr'). rewrite IH, Hf', Hr' by done. destruct e as [v | [y o]]; simpl; lia.
Qed.

(** The pull of a pin connected to a pad is what was last set, and setting it leaves
    every other control bit of the pad as it was. *)
Theorem floating_state_roundtrip x st p s :
  get_pinmux_pin x s = Some p →
  floating_state x (set_floating_state x st s) = st
  ∧ (∀ n, n ≠ 3%nat → n ≠ 4%nat → has_bit n (pad_control (pinmux (set_floating_state x st s)) p) = has_bit n (pad_control (pinmux s) p))
  ∧ (∀ q, q ≠ p → pad_control (pinmux (set_floating_state x st s)) q = pad_control (pinmux s) q).
Proof.
  intros Hp.
  assert (Hp' : get_pinmux_pin x (set_floating_state x st s) = Some p) by (unfold set_floating_state; rewrite Hp; exact Hp).
  unfold floating_state. rewrite Hp'. unfold set_floating_state. rewrite Hp. simpl. rewrite !decide_True by done.
  assert (Hn : ∀ n c, has_bit n (Z.land c (Z.lnot (Z.lor (bit 3) (bit 4)))) = if decide (n = 3 ∨ n = 4)%nat then false else has_bit n c).
  { intros n c. rewrite !has_bit_testbit, Z.land_spec, Z.lnot_spec, Z.lor_spec, !testbit_bit by lia.
    repeat case_bool_decide; case_decide; try lia; simpl; rewrite ?andb_false_r, ?andb_true_r; done. }
  split_and!.
  - destruct st; rewrite ?Hn; change (Z.lor ?a ?m) with (set_bits m a) in *; try change (Z.land ?a (Z.lnot (bit ?m))) with (clear_bits (bit m) a);
      rewrite ?has_set, ?has_clear; done.
  - intros n H3 H4. destruct st; rewrite ?Hn; change (Z.lor ?a ?m) with (set_bits m a) in *; try change (Z.land ?a (Z.lnot (bit ?m))) with (clear_bits (bit m) a);
      rewrite ?has_set, ?has_clear; repeat (case_decide; try lia); done.
  - intros q Hq. by rewrite decide_False by done.
Qed.

(** *** The papa board *)

#[local] Lemma pins_on_pinmux f y s : pin_state y (on_pinmux f s) = pin_state y s.
Proof. done. Qed.

#[local] Lemma pins_clear x y s : pin_state y (clear x s) = if decide (y = x) then pin_step OpClear (pin_state y s) else pin_state y s.
Proof. exact (run_op_pin x OpClear y s). Qed.

#[local] Lemma pins_make_output x y s : pin_state y (make_output x s).2 = if decide (y = x) then pin_step OpMakeOutput (pin_state y s) else pin_state y s.
Proof. exact (run_op_pin x OpMakeOutput y s). Qed.

#[local] Lemma pins_make_input x y s : pin_state y (make_input x s).2 = pin_state y s.
Proof. done. Qed.

#[local] Hint Rewrite pins_on_pinmux pins_clear pins_make_output pins_make_input : gpio.

(** The pin the goal is about, not driven at the start. *)
Ltac from_off Hoff :=
  match goal with |- context [pin_state ?x (foldl _ ?s _)] =>
    let Hd := fresh in let E := fresh "Epin" in
    pose proof (Hoff x eq_refl) as Hd; rewrite is_output_pin in Hd; destruct (pin_state x s) eqn:E; simpl in Hd; subst
  end.

Ltac after_statements :=
  cbn [take foldl]; rewrite ?take_nil; cbn [foldl]; autorewrite with gpio; match goal with E : pin_state _ _ = _ |- _ => rewrite ?E end; simpl.

(** Neither reset line is driven high after any number of the statements, and both are
    driven low after all of them. *)
Lemma resets_held s m x : (∀ y, y.1 = false → is_output y s = false) → x = BMC_SRST_N ∨ x = BMC_CPU_RST_N →
  driven x (foldl (λ s f, f s) s (take m papa_pins)) ≠ Some true
  ∧ (25 ≤ m → driven x (foldl (λ s f, f s) s (take m papa_pins)) = Some false)%nat.
Proof.
  intros Hoff Hx. rewrite driven_pin. unfold papa_pins. cbv zeta. destruct Hx as [-> | ->]; from_off Hoff;
    do 25 (destruct m as [| m]; [after_statements; split; [done | lia] |]); after_statements; done.
Qed.

(** C17: the board controls the reset lines of the system it protects from the first
    instruction. After any part of the pin set-up, from a chip whose outputs are off, neither
    reset line is driven high, so neither is ever released, not even for an instant; at the
    end both are driven low, and the lines that watch the resets are inputs, not driven,
    pulled up, and connected to their pads. *)
Theorem papa_holds_resets s n :
  (∀ x, x.1 = false → is_output x s = false) →
  let s' := foldl (λ s f, f s) s (take n papa_pins) in
  (∀ x, x = BMC_SRST_N ∨ x = BMC_CPU_RST_N → driven x s' ≠ Some true ∧ driven x (papa_setup s) = Some false)
  ∧ (∀ x p, (x, p) = (SYS_RSTMON_N, Diob0) ∨ (x, p) = (BMC_RSTMON_N, Diob7) →
      driven x s' = None ∧ driven x (papa_setup s) = None
      ∧ get_pinmux_pin x (papa_setup s) = Some p ∧ pad_select (pinmux (papa_setup s)) p = gpio_function x
      ∧ floating_state x (papa_setup s) = PullUp).
Proof.
  intros Hoff.
  assert (Hmonitors : ∀ m x, x = SYS_RSTMON_N ∨ x = BMC_RSTMON_N → driven x (foldl (λ s f, f s) s (take m papa_pins)) = None).
  { intros m x Hx. rewrite driven_pin. unfold papa_pins. cbv zeta. destruct Hx as [-> | ->]; from_off Hoff;
      do 25 (destruct m as [| m]; [after_statements; done |]); after_statements; done. }
  assert (Hall : papa_setup s = foldl (λ s f, f s) s (take 25 papa_pins)) by done.
  split.
  - intros x Hx. rewrite Hall. split; [by apply resets_held | apply resets_held; [done | done | lia]].
  - intros x p Hx. rewrite Hall.
    split_and!; [apply Hmonitors | apply Hmonitors | ..]; destruct Hx as [[= -> ->] | [= -> ->]]; auto.
Qed.

End GpioFacts.

Module GpioWitnesses.

(** Ports after reset, and a client on every pin. *)
Definition reset_port : PortRegisters := mk_Port 0 0 0 0 0 0 0.
Definition reset_state : GPIO.t :=
  GPIO.mk (λ _, reset_port) (λ _, false) (λ _, true) (mk_Pinmux (λ _, 0) (λ _, 0) (λ _, Disconnected) Disconnected) [].

Definition button : PinId := (true, 5%nat).

(** Two presses of a button while another pin of its port is toggled. *)
Lemma either_edge_counts_witness :
  let l := [inl true; inr ((true, 4%nat), OpToggle); inl false; inl false; inr ((true, 6%nat), OpSet); inl true; inl false] in
  GpioFacts.fired_on button (foldl (λ s e, GpioFacts.visit button e s) (GPIO.enable_interrupts button EitherEdge reset_state) l) = 4%nat.
Proof.
  intros l. etransitivity; [apply (GpioFacts.either_edge_counts button l reset_state) |]; [reflexivity | reflexivity | | reflexivity].
  repeat constructor; discriminate.
Defined.

Lemma floating_state_roundtrip_witness :
  let s := GPIO.on_pinmux (set_gpio_select button Diom2) reset_state in
  GPIO.floating_state button (GPIO.set_floating_state button PullDown s) = PullDown.
Proof. intros s. exact (proj1 (GpioFacts.floating_state_roundtrip button PullDown Diom2 s eq_refl)). Defined.

Lemma papa_holds_resets_witness :
  GPIO.driven BMC_SRST_N (foldl (λ s f, f s) reset_state (take 19 papa_pins)) = Some false
  ∧ GPIO.driven BMC_CPU_RST_N (papa_setup reset_state) = Some false
  ∧ GPIO.floating_state SYS_RSTMON_N (papa_setup reset_state) = PullUp.
Proof.
  pose proof (GpioFacts.papa_holds_resets reset_state 19) as [H1 H2]; [intros x _; reflexivity |].
  split; [reflexivity | split; [exact (proj2 (H1 _ (or_intror eq_refl))) |]].
  exact (proj2 (proj2 (proj2 (proj2 (H2 _ _ (or_introl eq_refl)))))).
Defined.

End GpioWitnesses.
