(* ===== verification/Timer.v ===== *)
(** Timers and the random number generator: the alarm timer (kernel/h1/src/timels.rs), the
    microsecond counters (kernel/h1/src/timeus.rs) and the entropy source
    (kernel/h1/src/trng.rs).

    The alarm timer counts [value] down while bit 0 of [control] is set, stops at zero and
    raises its interrupt there; writing [load] starts it over.  A counter adds one to
    [current_value] whenever its divider is through, and starts over after [max_value].
    The generator queues random words, and raises its interrupt when one arrives. *)

From S2P Require Import Prelude Tock.
From Stdlib Require Import ZArith Lia.
From stdpp Require Import base decidable option list list_numbers.

#[local] Open Scope Z_scope.

(** ** The alarm timer *)

Module Timels.

(** [interrupt]: the pending interrupt; [alarms]: the times the client was called. *)
Record t := mk {
  control : Z;
  load : Z;
  reload : Z;
  value : Z;
  interrupt_enable : Z;
  interrupt : bool;
  client : bool;
  now_cell : Z;
  alarms : nat
}.

Definition new : t := mk 0 0 0 0 0 false false 0 0.

Definition set_control (v : Z) (s : t) : t := mk v (load s) (reload s) (value s) (interrupt_enable s) (interrupt s) (client s) (now_cell s) (alarms s).
Definition set_load (v : Z) (s : t) : t := mk (control s) v (reload s) v (interrupt_enable s) (interrupt s) (client s) (now_cell s) (alarms s).
Definition set_reload (v : Z) (s : t) : t := mk (control s) (load s) v (value s) (interrupt_enable s) (interrupt s) (client s) (now_cell s) (alarms s).
Definition set_value (v : Z) (s : t) : t := mk (control s) (load s) (reload s) v (interrupt_enable s) (interrupt s) (client s) (now_cell s) (alarms s).
Definition set_interrupt_enable (v : Z) (s : t) : t := mk (control s) (load s) (reload s) (value s) v (interrupt s) (client s) (now_cell s) (alarms s).
Definition set_interrupt (b : bool) (s : t) : t := mk (control s) (load s) (reload s) (value s) (interrupt_enable s) b (client s) (now_cell s) (alarms s).
Definition set_now (v : Z) (s : t) : t := mk (control s) (load s) (reload s) (value s) (interrupt_enable s) (interrupt s) (client s) v (alarms s).
Definition call_client (s : t) : t :=
  mk (control s) (load s) (reload s) (value s) (interrupt_enable s) (interrupt s) (client s) (now_cell s) (alarms s + if client s then 1 else 0)%nat.
Definition set_alarm_client (s : t) : t :=
  mk (control s) (load s) (reload s) (value s) (interrupt_enable s) (interrupt s) true (now_cell s) (alarms s).

Definition handle_interrupt (s : t) : t :=
  let s := set_interrupt false s in
  let s := set_control 0 s in
  let s := set_now (u32 (now_cell s + reload s)) s in
  let s := set_reload 0 s in
  call_client s.

Definition now (s : t) : Z :=
  let elapsed := u32 (reload s - value s) in
  u32 (now_cell s + elapsed).

Definition set_alarm (reference dt : Z) (s : t) : t :=
  let s := set_control 0 s in
  let target := u32 (reference + dt) in
  let distance := if target <=? now s then 1 else u32 (target - now s) in
  let s := set_load distance s in
  let s := set_reload distance s in
  let s := set_interrupt_enable 1 s in
  set_control 1 s.

Definition get_alarm (s : t) : Z := reload s.
Definition is_armed (s : t) : bool := (Z.land (control s) 1 =? 1) && negb (value s =? 0).
Definition disarm (s : t) : ReturnCode * t := (SUCCESS, set_control 0 s).
Definition minimum_dt : Z := 1.
Definition frequency : Z := 256000.

(** A period of the timer's clock. *)
Definition tick (s : t) : t :=
  if is_armed s then
    let s := set_value (value s - 1) s in
    if (value s =? 0) && (interrupt_enable s =? 1) then set_interrupt true s else s
  else s.

Definition ticks (n : nat) (s : t) : t := Nat.iter n tick s.

End Timels.

(** ** The microsecond counters *)

Module Timeus.

Record Counter := mk_Counter {
  wrapping : bool;
  max_value : Z;
  divider : Z;
  current_value : Z;
  current_divider_value : Z
}.

(** The registers hold four counters; a [Timeus] is the index of one. Indexing [counters] panics out of range. *)
Definition counter (idx : nat) (regs : list Counter) : option Counter := regs !! idx.

Definition now (idx : nat) (regs : list Counter) : option Z := current_value <$> counter idx regs.

Definition start (idx : nat) (regs : list Counter) : option (list Counter) :=
  c ← counter idx regs;
  Some (<[idx := mk_Counter true u32_max 1 (current_value c) (current_divider_value c)]> regs).

Definition tick_counter (c : Counter) : Counter :=
  if wrapping c then
    if divider c <=? current_divider_value c + 1 then
      mk_Counter true (max_value c) (divider c) (if current_value c =? max_value c then 0 else current_value c + 1) 0
    else mk_Counter true (max_value c) (divider c) (current_value c) (current_divider_value c + 1)
  else c.

Definition tick (regs : list Counter) : list Counter := tick_counter <$> regs.

End Timeus.

(** ** The random number generator *)

Inductive Continue := More | Done.

(** A client takes words from the iterator it is given and says whether it needs more. *)
Class EntropyClient (C : Type) := entropy_available : C → list Z → C * nat * Continue.

Module Trng.
Section Trng.
Context {C : Type} `{EntropyClient C}.

Record t := mk {
  interrupt_enable : Z;
  interrupt_state : bool;
  post_processing_control : Z;
  slice_max_upper_limit : Z;
  slice_min_lower_limit : Z;
  timeout_counter : Z;
  timeout_max_try_num : Z;
  power_down_b : Z;
  fsm_state : Z;
  queue : list Z;
  client : option C
}.

Definition set_interrupts (en : Z) (st : bool) (s : t) : t :=
  mk en st (post_processing_control s) (slice_max_upper_limit s) (slice_min_lower_limit s) (timeout_counter s) (timeout_max_try_num s)
    (power_down_b s) (fsm_state s) (queue s) (client s).
Definition set_fsm_state (v : Z) (s : t) : t :=
  mk (interrupt_enable s) (interrupt_state s) (post_processing_control s) (slice_max_upper_limit s) (slice_min_lower_limit s) (timeout_counter s)
    (timeout_max_try_num s) (power_down_b s) v (queue s) (client s).
Definition set_queue (q : list Z) (c : option C) (s : t) : t :=
  mk (interrupt_enable s) (interrupt_state s) (post_processing_control s) (slice_max_upper_limit s) (slice_min_lower_limit s) (timeout_counter s)
    (timeout_max_try_num s) (power_down_b s) (fsm_state s) q c.

Definition new : t := mk 0 false 0 0 0 0 0 0 0 [] None.
Definition set_client (c : C) (s : t) : t := set_queue (queue s) (Some c) s.

(** [Iter::next] *)
Definition next (s : t) : option Z * t :=
  match queue s with
  | w :: q => (Some w, set_queue q (client s) s)
  | [] => (None, s)
  end.

(** [next], [n] times. *)
Fixpoint take_words (n : nat) (s : t) : list Z * t :=
  match n with
  | O => ([], s)
  | S n => match next s with (Some w, s) => let '(l, s) := take_words n s in (w :: l, s) | (None, s) => ([], s) end
  end.

Definition offer (s : t) : t :=
  match client s with
  | Some c =>
      let '(c', n, more) := entropy_available c (queue s) in
      let s := (take_words n s).2 in
      let s := set_queue (queue s) (Some c') s in
      match more with More => set_interrupts 1 (interrupt_state s) s | Done => s end
  | None => s
  end.

Definition handle_interrupt (s : t) : t := offer (set_interrupts 0 false s).

Definition init (s : t) : t := mk (interrupt_enable s) (interrupt_state s) 0xa 1 0 0x7ff 4 1 0 (queue s) (client s).

Definition restart (s : t) : t := set_fsm_state 0 s.

Definition get (s : t) : ReturnCode * t :=
  if decide (queue s = []) then
    let s := if negb (Z.land (fsm_state s) 0x8 =? 0) then restart s else s in
    (SUCCESS, set_interrupts 1 (interrupt_state s) s)
  else (SUCCESS, offer s).

Definition cancel (s : t) : ReturnCode * t := (FAIL, s).

(** Words arrive. *)
Definition arrive (l : list Z) (s : t) : t :=
  let s := set_queue (queue s ++ l) (client s) s in
  if decide (l = []) then s else set_interrupts (interrupt_enable s) true s.

Definition interrupt_raised (s : t) : bool := interrupt_state s && (interrupt_enable s =? 1).

(** A while of the generator: words arrive, and the interrupt is handled if it is raised. *)
Definition turn (l : list Z) (s : t) : t := let s := arrive l s in if interrupt_raised s then handle_interrupt s else s.

End Trng.
Arguments t : clear implicits.
End Trng.

(** ** The alarm timer is right, and where it is not *)

Module TimelsFacts.
Import Timels.

(** Between two alarms. *)
Definition idle (s : t) : Prop := value s = 0 ∧ reload s = 0 ∧ interrupt s = false ∧ fits 32 (now_cell s).

(** An alarm [d] ticks from now, of which [k] have passed. *)
Definition running (n d k : Z) (s : t) : Prop :=
  control s = 1 ∧ interrupt_enable s = 1 ∧ interrupt s = (k =? d) ∧ reload s = d ∧ value s = d - k ∧ now_cell s = n
  ∧ fits 32 n ∧ fits 32 d ∧ 0 <= k <= d ∧ 0 < d.

Lemma now_idle s : idle s → now s = now_cell s.
Proof. intros (Hv & Hr & _ & Hn). unfold now. rewrite Hv, Hr. change (u32 (0 - 0)) with 0. rewrite Z.add_0_r. by apply u32_small. Qed.

Lemma now_running n d k s : running n d k s → now s = u32 (n + k).
Proof.
  intros (_ & _ & _ & Hr & Hv & Hn & _ & Hd & Hk & _). unfold now. rewrite Hr, Hv, Hn. f_equal. f_equal.
  replace (d - (d - k)) with k by lia. apply u32_small. unfold fits in *. lia.
Qed.

Lemma tick_running n d k s : running n d k s → k < d → running n d (k + 1) (tick s).
Proof.
  intros (Hc & He & Hi & Hr & Hv & Hn & Hn' & Hd & Hk & Hd') Hlt. unfold tick, is_armed. rewrite Hc, Hv.
  change (Z.land 1 1 =? 1) with true. rewrite (proj2 (Z.eqb_neq (d - k) 0)) by lia. simpl. rewrite ?He, ?Hv.
  destruct (Z.eqb_spec (d - k - 1) 0) as [E | E]; simpl; unfold running; simpl; rewrite ?Hi, ?Hr, ?Hn;
    split_and!; try done; lia.
Qed.

Lemma ticks_running n d k m s : running n d k s → k + Z.of_nat m <= d → running n d (k + Z.of_nat m) (ticks m s).
Proof.
  intros H. induction m as [| m IH]; intros Hm; [by rewrite Z.add_0_r |].
  replace (k + Z.of_nat (S m)) with (k + Z.of_nat m + 1) by lia. apply tick_running; [apply IH; lia | lia].
Qed.

Definition distance_of (target n : Z) : Z := if target <=? n then 1 else u32 (target - n).

Lemma set_alarm_running reference dt s :
  interrupt s = false → fits 32 (now_cell s) →
  running (now_cell s) (distance_of (u32 (reference + dt)) (now s)) 0 (set_alarm reference dt s).
Proof.
  intros Hi Hn.
  assert (Hd : fits 32 (distance_of (u32 (reference + dt)) (now s)) ∧ 0 < distance_of (u32 (reference + dt)) (now s)).
  { unfold distance_of. destruct (_ <=? _) eqn:E; zb; [unfold fits; lia |].
    assert (fits 32 (now s)) by apply u32_fits. assert (fits 32 (u32 (reference + dt))) by apply u32_fits.
    rewrite u32_small by (unfold fits in *; lia). unfold fits in *; lia. }
  set (d := distance_of (u32 (reference + dt)) (now s)) in *. destruct Hd as [Hd Hpos]. unfold running.
  change (interrupt (set_alarm reference dt s)) with (interrupt s). change (value (set_alarm reference dt s)) with d.
  change (reload (set_alarm reference dt s)) with d. rewrite Hi, (proj2 (Z.eqb_neq 0 d)) by lia.
  split_and!; try done; lia.
Qed.

(** C29: an alarm comes on time. Set while the timer is idle, for a time that is ahead of
    the present one without the 32-bit clock wrapping in between, it leaves the interrupt
    unraised and the clock counting tick by tick until the target, raises it at the target,
    and the handler leaves the clock at the target, calls the client once and the timer
    idle, ready for the next. *)
Theorem alarm_on_time reference dt s :
  idle s → client s = true → now s < u32 (reference + dt) →
  let d := Z.to_nat (u32 (reference + dt) - now s) in
  let armed := set_alarm reference dt s in
  (∀ k, (k < d)%nat → interrupt (ticks k armed) = false ∧ now (ticks k armed) = now s + Z.of_nat k ∧ is_armed (ticks k armed) = true)
  ∧ interrupt (ticks d armed) = true
  ∧ (let s' := handle_interrupt (ticks d armed) in
     now s' = u32 (reference + dt) ∧ alarms s' = S (alarms (ticks d armed)) ∧ idle s' ∧ is_armed s' = false).
Proof.
  intros Hidle Hcl Hlt d armed. pose proof (now_idle s Hidle) as Hnow. destruct Hidle as (Hv & Hr & Hi & Hf).
  pose proof (set_alarm_running reference dt s Hi Hf) as Hrun. fold armed in Hrun.
  set (T := u32 (reference + dt)) in *. assert (HT : fits 32 T) by apply u32_fits.
  assert (Hd : distance_of T (now s) = T - now s).
  { unfold distance_of. rewrite (proj2 (Z.leb_gt _ _)) by lia. apply u32_small. rewrite Hnow in *. unfold fits in *. lia. }
  rewrite Hd, Hnow in Hrun.
  assert (Hk : ∀ k, (k <= d)%nat → running (now_cell s) (T - now_cell s) (Z.of_nat k) (ticks k armed)).
  { intros k Hk. exact (ticks_running _ _ 0 k _ Hrun ltac:(lia)). }
  assert (Hcl' : client (ticks d armed) = client s).
  { clear. induction d as [| d IH]; [done |]. simpl. unfold tick at 1. repeat case_match; done. }
  split_and!.
  - intros k Hlt'. specialize (Hk k ltac:(lia)). rewrite (now_running _ _ _ _ Hk), Hnow.
    destruct Hk as (Hc & _ & Hik & _ & Hvk & _). unfold is_armed. rewrite Hik, Hc, Hvk.
    rewrite (proj2 (Z.eqb_neq (Z.of_nat k) _)), (proj2 (Z.eqb_neq (_ - _) 0)) by lia.
    split_and!; [done | apply u32_small; unfold fits in *; lia | done].
  - destruct (Hk d ltac:(lia)) as (_ & _ & Hid & _). rewrite Hid. apply Z.eqb_eq. lia.
  - specialize (Hk d ltac:(lia)). destruct Hk as (_ & _ & _ & Hrd & Hvd & Hnd & _).
    set (x := ticks d armed) in *. assert (Hnew : u32 (now_cell x + reload x) = T) by (rewrite Hrd, Hnd; replace (_ + _) with T by lia; by apply u32_small).
    unfold handle_interrupt. simpl. rewrite Hnew, Hcl', Hcl. unfold now, idle, is_armed. simpl.
    replace (value x) with 0 by lia. change (u32 (0 - 0)) with 0. rewrite Z.add_0_r, (u32_small T) by done.
    split_and!; try done; lia.
Qed.

(** Setting an alarm while another runs turns the clock back. [set_alarm] works with
    the present time, but keeps only the old start of the count, so [now] falls back by the
    time elapsed since the last interrupt, and the clock stays behind for good: it shows
    [k] ticks too few when the new alarm comes. *)
Theorem set_alarm_rewinds n d k reference dt s :
  running n d k s → k < d → n + k < u32 (reference + dt) →
  let s' := set_alarm reference dt s in
  let d' := Z.to_nat (u32 (reference + dt) - (n + k)) in
  now s = n + k ∧ now s' = n
  ∧ interrupt (ticks d' s') = true
  ∧ now (handle_interrupt (ticks d' s')) = u32 (reference + dt) - k.
Proof.
  intros Hrun Hkd Hlt s' d'. pose proof (now_running _ _ _ _ Hrun) as Hnow.
  destruct Hrun as (_ & _ & Hi & _ & _ & Hn & Hf & Hd & Hk & _).
  rewrite (proj2 (Z.eqb_neq k d)) in Hi by lia.
  set (T := u32 (reference + dt)) in *. assert (HT : fits 32 T) by apply u32_fits.
  rewrite u32_small in Hnow by (unfold fits in *; lia).
  pose proof (set_alarm_running reference dt s Hi ltac:(by rewrite Hn)) as Hrun. fold s' T in Hrun. rewrite Hn, Hnow in Hrun.
  assert (Hdist : distance_of T (n + k) = T - (n + k)).
  { unfold distance_of. rewrite (proj2 (Z.leb_gt _ _)) by lia. apply u32_small. unfold fits in *. lia. }
  rewrite Hdist in Hrun.
  pose proof (ticks_running _ _ 0 d' _ Hrun ltac:(lia)) as Hend.
  assert (Hat : interrupt (ticks d' s') = true).
  { destruct Hend as (_ & _ & Hi' & _). rewrite Hi'. apply Z.eqb_eq. lia. }
  rewrite (now_running _ _ _ _ Hrun), Z.add_0_r, (u32_small n), Hnow by done.
  destruct Hend as (_ & _ & _ & Hr' & Hv' & Hn' & _). split_and!; [done | done | done |].
  unfold now, handle_interrupt. simpl. rewrite Hr', Hn', Hv'. replace (_ - (_ - (_ + _))) with 0; [| lia].
  change (u32 0) with 0. rewrite Z.add_0_r. replace (n + (T - (n + k))) with (T - k) by lia.
  rewrite !u32_small; [done | ..]; rewrite ?u32_small; unfold fits in *; lia.
Qed.

(** An alarm past the end of the 32-bit clock comes at once. The comparison of the
    target with the present does not wrap, so from [dt] ticks before the wrap on, an alarm
    [dt] ticks ahead is taken for one in the past and comes after one tick. *)
Theorem wrapped_alarm_early dt s :
  idle s → client s = true → 0 < dt < 2 ^ 32 → 2 ^ 32 <= now s + dt →
  let s' := tick (set_alarm (now s) dt s) in
  interrupt s' = true ∧ alarms (handle_interrupt s') = S (alarms s) ∧ now (handle_interrupt s') = u32 (now s + 1).
Proof.
  intros Hidle Hcl Hdt Hw s'. pose proof (now_idle s Hidle) as Hnow. destruct Hidle as (Hv & Hr & Hi & Hf).
  pose proof (set_alarm_running (now s) dt s Hi Hf) as Hrun.
  assert (Hdist : distance_of (u32 (now s + dt)) (now s) = 1).
  { unfold distance_of. rewrite (proj2 (Z.leb_le _ _)); [done |]. rewrite Hnow in *. unfold u32, wrap, fits in *.
    replace (now_cell s + dt) with (now_cell s + dt - 2 ^ 32 + 1 * 2 ^ 32) by lia. rewrite Z.mod_add, Z.mod_small by lia. lia. }
  rewrite Hdist in Hrun. pose proof (tick_running _ _ _ _ Hrun ltac:(lia)) as Hend. fold s' in Hend.
  assert (Hcl' : client s' = true ∧ alarms s' = alarms s).
  { unfold s', tick. repeat case_match; by rewrite <- Hcl. }
  destruct Hcl' as [Hcl' Hal]. destruct Hend as (_ & _ & Hi' & Hr' & Hv' & Hn' & _).
  split_and!; [rewrite Hi'; done | unfold handle_interrupt; simpl; rewrite Hcl', Hal; lia |].
  unfold now at 1, handle_interrupt. simpl. rewrite Hr', Hn', Hv', Hnow. change (u32 (0 - (1 - (0 + 1)))) with 0.
  rewrite Z.add_0_r. apply u32_small, u32_fits.
Qed.

End TimelsFacts.

Module TimeusFacts.
Import Timeus.

Lemma start_counter idx regs c :
  regs !! idx = Some c → start idx regs = Some (<[idx := mk_Counter true u32_max 1 (current_value c) (current_divider_value c)]> regs).
Proof. intros H. unfold start, counter. by rewrite H. Qed.

(** Once started, a counter measures time: from zero, [n] ticks of the 24 MHz clock
    later, it reads [n] modulo [2^32], however the other counters are used. *)
Theorem counter_counts idx regs n :
  (∃ c, regs !! idx = Some c ∧ current_value c = 0 ∧ current_divider_value c = 0) →
  ∃ regs', start idx regs = Some regs' ∧ now idx (Nat.iter n tick regs') = Some (u32 (Z.of_nat n)).
Proof.
  intros (c & Hc & H0 & H1). rewrite (start_counter _ _ _ Hc). eexists. split; [done |].
  assert (H : Nat.iter n tick (<[idx := mk_Counter true u32_max 1 (current_value c) (current_divider_value c)]> regs) !! idx
            = Some (mk_Counter true u32_max 1 (u32 (Z.of_nat n)) 0)); [| unfold now, counter; by rewrite H].
  induction n as [| n IH].
  - etransitivity; [apply list_lookup_insert_eq; by eapply lookup_lt_Some |]. by rewrite H0, H1.
  - simpl. unfold tick at 1. rewrite list_lookup_fmap, IH. simpl. unfold tick_counter. simpl. do 2 f_equal.
    assert (Hf : fits 32 (u32 (Z.of_nat n))) by apply u32_fits. unfold u32, wrap, u32_max, fits in *.
    replace (Z.of_nat (S n)) with (Z.of_nat n + 1) by lia. rewrite <- (Z.add_mod_idemp_l (Z.of_nat n)) by lia.
    destruct (Z.eqb_spec (Z.of_nat n mod 2 ^ 32) 0xFFFFFFFF) as [-> | Hne]; [done |]. symmetry. apply Z.mod_small. lia.
Qed.

Lemma counter_counts_witness :
  let regs := [mk_Counter false 7 3 1 0; mk_Counter false 0 0 0 0] in
  ∃ regs', start 1 regs = Some regs' ∧ now 1 (Nat.iter 24 tick regs') = Some 24.
Proof. intros regs. apply (counter_counts 1 regs 24). eexists. split; [reflexivity | split; reflexivity]. Defined.

End TimeusFacts.

(** ** The random number generator delivers *)

(** What a client promises: it takes the words it needs, as far as there are, in their
    order, and asks for more as long as it needs some. *)
Class EntropyNeeds (C : Type) `{EntropyClient C} := {
  needs : C → nat;
  received : C → list Z;
  available_spec : ∀ c l, let '(c', n, more) := entropy_available c l in
    n = Nat.min (needs c) (length l) ∧ received c' = received c ++ take n l ∧ needs c' = (needs c - n)%nat
    ∧ more = if decide (needs c' = 0%nat) then Done else More
}.

Module TrngFacts.
Section TrngFacts.
Context {C : Type} `{EntropyNeeds C}.
Import Trng.

Lemma take_words_queue (n : nat) (s : t C) :
  (take_words n s).1 = take n (queue s) ∧ (take_words n s).2 = set_queue (drop n (queue s)) (client s) s.
Proof.
  revert s. induction n as [| n IH]; intros s; simpl; [by destruct s |].
  destruct (queue s) as [| w q] eqn:E; unfold next; rewrite E; simpl; [by destruct s; simpl in *; subst |].
  destruct (IH (set_queue q (client s) s)) as [IH1 IH2]. destruct (take_words n _) as [l s']. simpl in *. by rewrite IH1, IH2.
Qed.

(** What has come to the client, and what it still needs. *)
Definition taken (s : t C) : list Z := match client s with Some c => received c | None => [] end.
Definition wanted (s : t C) : nat := match client s with Some c => needs c | None => 0%nat end.

(** While the client needs words the interrupt is enabled and no word waits. *)
Definition attentive (s : t C) : Prop := wanted s ≠ 0%nat → interrupt_enable s = 1 ∧ queue s = [].

Lemma offer_effect (s : t C) :
  let s' := offer s in
  taken s' ++ queue s' = taken s ++ queue s ∧ wanted s' = (wanted s - length (queue s))%nat
  ∧ taken s' = taken s ++ take (wanted s) (queue s) ∧ attentive s'.
Proof.
  unfold offer, attentive, taken, wanted. destruct (client s) as [c |] eqn:Ec; simpl; [| rewrite ?Ec; split_and!; [done | lia | done | lia]].
  pose proof (available_spec c (queue s)) as Ha. destruct (entropy_available c (queue s)) as [[c' n] more].
  destruct Ha as (Hn & Hr & Hw & Hm). rewrite (proj2 (take_words_queue n s)).
  assert (Ht : take n (queue s) = take (needs c) (queue s)).
  { rewrite Hn. destruct (decide (needs c ≤ length (queue s))%nat); [by rewrite Nat.min_l by lia |].
    by rewrite Nat.min_r, !take_ge by lia. }
  assert (Hgoal : received c' ++ drop n (queue s) = received c ++ queue s) by (by rewrite Hr, <- app_assoc, take_drop).
  destruct (decide (needs c' = 0%nat)) as [E | E]; subst more; simpl; rewrite Hr, Ht in *;
    (split_and!; [done | lia | done | intros ?]); [lia |].
  split; [done |]. apply drop_ge. lia.
Qed.

Lemma turn_effect l (s : t C) :
  attentive s →
  let s' := turn l s in
  taken s' ++ queue s' = taken s ++ queue s ++ l ∧ wanted s' = (wanted s - length l)%nat ∧ attentive s'
  ∧ (wanted s = 0%nat → taken s' = taken s)
  ∧ (wanted s ≠ 0%nat → taken s' = taken s ++ take (wanted s) l).
Proof.
  intros Hatt. unfold turn. destruct (decide (l = [])) as [-> | Hl].
  - assert (E : arrive [] s = s) by (unfold arrive; rewrite app_nil_r; simpl; by destruct s). rewrite E.
    unfold interrupt_raised. destruct (_ && _) eqn:Er; simpl; rewrite ?app_nil_r, ?take_nil, ?app_nil_r;
      [| split_and!; auto; lia].
    unfold handle_interrupt. destruct (offer_effect (set_interrupts 0 false s)) as (E1 & E2 & E3 & E4).
    unfold taken, wanted in *. simpl in *.
    split_and!; [done | destruct (decide (wanted s = 0%nat)) as [Ew | Ew]; unfold wanted in *; [lia | destruct (Hatt Ew) as [_ Hq]; rewrite Hq in E2; simpl in E2; lia] | done | |];
      intros Hw; [by rewrite Hw, take_0, app_nil_r in E3 | destruct (Hatt Hw) as [_ Hq]; by rewrite Hq, take_nil, app_nil_r in E3].
  - assert (Ea : arrive l s = set_interrupts (interrupt_enable s) true (set_queue (queue s ++ l) (client s) s)).
    { unfold arrive. by rewrite decide_False by done. }
    rewrite Ea. unfold interrupt_raised. simpl. destruct (Z.eqb_spec (interrupt_enable s) 1) as [Een | Een].
    + unfold handle_interrupt.
      destruct (offer_effect (set_interrupts 0 false (set_interrupts (interrupt_enable s) true (set_queue (queue s ++ l) (client s) s)))) as (E1 & E2 & E3 & E4).
      unfold taken, wanted in *. simpl in *.
      destruct (decide (wanted s = 0%nat)) as [Ew | Ew]; unfold wanted in *.
      * rewrite Ew in *. rewrite take_0, app_nil_r in E3. split_and!; [done | lia | done | done | done].
      * destruct (Hatt Ew) as [_ Hq]. rewrite Hq in *. simpl in *. split_and!; [done | lia | done | done | done].
    + assert (Hw : wanted s = 0%nat) by (destruct (decide (wanted s = 0%nat)) as [|n]; [done | destruct (Hatt n); lia]).
      unfold attentive, taken, wanted in *. simpl in *. split_and!; [done | lia | intros ?; congruence | done | intros ?; congruence].
Qed.

Lemma turns_effect ls (s : t C) :
  attentive s →
  let s' := foldl (λ s l, turn l s) s ls in
  taken s' ++ queue s' = taken s ++ queue s ++ concat ls ∧ wanted s' = (wanted s - length (concat ls))%nat ∧ attentive s'
  ∧ taken s' = taken s ++ take (wanted s) (concat ls).
Proof.
  revert s. induction ls as [| l ls IH]; intros s Hatt; simpl; [by rewrite !app_nil_r, take_nil, app_nil_r; split_and!; auto; lia |].
  destruct (turn_effect l s Hatt) as (E1 & E2 & E3 & E4 & E5). destruct (IH (turn l s) E3) as (F1 & F2 & F3 & F4).
  split_and!; [| rewrite F2, E2, length_app; lia | done |].
  - rewrite F1, app_assoc, E1, <- !app_assoc. done.
  - rewrite F4, E2. destruct (decide (wanted s = 0%nat)) as [Ew | Ew].
    + rewrite E4, Ew by done. by rewrite Nat.sub_0_l, !take_0.
    + rewrite E5, take_app by done. by rewrite <- app_assoc.
Qed.

(** Random words come to the client that asks for them, each once and in their
    order. After [get], and whatever the interrupts bring in whatever portions, the client
    has the first words of what the generator had and produced, as many as it needs as far
    as there are; words it does not need stay queued for the next request, none is given
    twice and none is lost; and while it needs more the interrupt is on. *)
Theorem entropy_delivered (c : C) (s : t C) ls :
  client s = Some c →
  let s' := foldl (λ s l, turn l s) (get s).2 ls in
  let words := queue s ++ concat ls in
  (get s).1 = SUCCESS
  ∧ taken s' = received c ++ take (needs c) words
  ∧ taken s' ++ queue s' = received c ++ words
  ∧ ((length words < needs c)%nat → interrupt_enable s' = 1).
Proof.
  intros Hc s' words.
  assert (Hget : (get s).1 = SUCCESS ∧ attentive (get s).2 ∧ taken (get s).2 ++ queue (get s).2 = received c ++ queue s
    ∧ wanted (get s).2 = (needs c - length (queue s))%nat ∧ taken (get s).2 = received c ++ take (needs c) (queue s)).
  { unfold get. destruct (decide (queue s = [])) as [E | E]; simpl.
    - split; [done |]. rewrite E. unfold attentive, wanted, taken. simpl.
      destruct (negb _); simpl; rewrite Hc, E, take_nil, !app_nil_r; split_and!; try done; simpl; lia.
    - destruct (offer_effect s) as (E1 & E2 & E3 & E4). unfold taken, wanted in *. rewrite Hc in *. split_and!; done. }
  destruct Hget as (G1 & G2 & G3 & G4 & G5). destruct (turns_effect ls _ G2) as (F1 & F2 & F3 & F4). fold s' in F1, F2, F3, F4.
  split_and!; [done | | rewrite F1, app_assoc, G3, <- app_assoc; done |].
  - rewrite F4, G4, G5, <- app_assoc. f_equal. unfold words. by rewrite take_app.
  - intros Hlen. unfold words in Hlen. rewrite length_app in Hlen. apply F3. rewrite F2, G4. lia.
Qed.

End TrngFacts.

(** A client that collects words. *)
Definition Collector : Type := nat * list Z.
#[global] Instance collector_client : EntropyClient Collector :=
  λ c l, let n := Nat.min c.1 (length l) in
         (((c.1 - n)%nat, c.2 ++ take n l), n, if decide ((c.1 - n)%nat = 0%nat) then Done else More).
#[global] Instance collector_needs : EntropyNeeds Collector.
Proof. refine {| needs := fst; received := snd |}. intros [k got] l. simpl. split_and!; done. Defined.

Lemma entropy_delivered_witness :
  let s := Trng.set_client (3%nat, []) Trng.new in
  let s' := foldl (λ s l, Trng.turn l s) (Trng.get s).2 [[7]; []; [8; 9; 10]; [11]] in
  taken s' = [7; 8; 9] ∧ taken s' ++ Trng.queue s' = [7; 8; 9; 10; 11].
Proof.
  intros s s'. destruct (entropy_delivered (3%nat, []) s [[7]; []; [8; 9; 10]; [11]] eq_refl) as (_ & H1 & H2 & _).
  split; [exact H1 | exact H2].
Defined.

End TrngFacts.

Module TimelsWitnesses.
Import Timels TimelsFacts.

Definition fresh : t := set_alarm_client new.

Lemma fresh_idle : idle fresh.
Proof. unfold idle, fits. simpl. lia. Qed.

Lemma alarm_on_time_witness :
  interrupt (ticks 5 (set_alarm 0 5 fresh)) = true ∧ now (handle_interrupt (ticks 5 (set_alarm 0 5 fresh))) = 5.
Proof.
  destruct (alarm_on_time 0 5 fresh fresh_idle eq_refl ltac:(reflexivity)) as (_ & H1 & H2 & _). split; [exact H1 | exact H2].
Defined.

Lemma set_alarm_rewinds_witness :
  let s := ticks 3 (set_alarm 0 10 fresh) in
  now s = 3 ∧ now (set_alarm 3 4 s) = 0.
Proof.
  intros s.
  destruct (set_alarm_rewinds 0 10 3 3 4 s) as (H1 & H2 & _); [unfold running, fits; vm_compute; intuition discriminate | lia | reflexivity |].
  split; [exact H1 | exact H2].
Defined.

Lemma wrapped_alarm_early_witness :
  let s := set_now (2 ^ 32 - 10) fresh in
  interrupt (tick (set_alarm (now s) 20 s)) = true.
Proof.
  intros s. apply (wrapped_alarm_early 20 s); [unfold idle, fits; vm_compute; intuition discriminate | reflexivity | lia | vm_compute; discriminate].
Defined.

End TimelsWitnesses.
