(* ===== verification/Chip.v ===== *)
(** The interrupt dispatcher of the chip (kernel/h1/src/chip.rs), over the drivers whose
    handlers it calls.

    The interrupt controller is the one of the processor: [next_pending] picks one of the
    pending interrupts.  Interrupts may arrive at any time; those that arrive while the
    handler of another one runs are given to the loop as a list of sets. *)

From S2P Require Import Prelude Io Tock Info Digest Dcrypto Aes Uart Gpio Timer.
From Stdlib Require Import ZArith Lia.
From stdpp Require Import base decidable option list list_numbers gmap fin_sets.

#[local] Open Scope Z_scope.

(** What the dispatcher needs of the drivers, by the handlers' names. *)
Class ChipDrivers (S : Type) := {
  dcrypto_handle_error_interrupt : Z → K S unit;
  dcrypto_handle_wipe_interrupt : K S unit;
  dcrypto_handle_done_interrupt : K S unit;
  dcrypto_handle_receive_interrupt : K S unit;
  aes_handle_interrupt : Z → K S unit;
  sha_handle_interrupt : Z → K S unit;
  spi_host_handle_interrupt : nat → K S unit;
  spi_device_handle_interrupt : K S unit;
  timels_handle_interrupt : nat → K S unit;
  trng_handle_interrupt : K S unit;
  uart_handle_rx_interrupt : nat → K S unit;
  uart_handle_tx_interrupt : nat → K S unit;
  usb_handle_interrupt : K S unit;
  gpio_handle_interrupt : PinId → K S unit
}.

(** [cortexm3::nvic] *)
Class Nvic := {
  next_pending : gset Z → option Z;
  next_pending_some : ∀ p n, next_pending p = Some n → n ∈ p;
  next_pending_none : ∀ p, next_pending p = None → p = ∅
}.

Definition in_range (lo hi n : Z) : bool := (lo <=? n) && (n <=? hi).

Module Hotel.
Section Hotel.
Context {S : Type} `{ChipDrivers S} `{Nvic}.

(** The [match] of [service_pending_interrupts]. *)
Definition dispatch (nvic_num : Z) : K S unit :=
  if bool_decide (nvic_num ∈ [1; 3; 6; 7; 8; 9; 10; 11]) then dcrypto_handle_error_interrupt nvic_num
  else if nvic_num =? 2 then dcrypto_handle_wipe_interrupt
  else if nvic_num =? 4 then dcrypto_handle_done_interrupt
  else if nvic_num =? 5 then dcrypto_handle_receive_interrupt
  else if in_range 104 109 nvic_num then aes_handle_interrupt nvic_num
  else if nvic_num =? 110 then sha_handle_interrupt nvic_num
  else if nvic_num =? 111 then mret tt
  else if nvic_num =? 127 then spi_host_handle_interrupt 0
  else if nvic_num =? 128 then spi_host_handle_interrupt 1
  else if nvic_num =? 131 then spi_device_handle_interrupt
  else if nvic_num =? 159 then timels_handle_interrupt 0
  else if nvic_num =? 160 then timels_handle_interrupt 1
  else if nvic_num =? 169 then trng_handle_interrupt
  else if nvic_num =? 174 then uart_handle_rx_interrupt 0
  else if nvic_num =? 177 then uart_handle_tx_interrupt 0
  else if nvic_num =? 181 then uart_handle_rx_interrupt 1
  else if nvic_num =? 184 then uart_handle_tx_interrupt 1
  else if nvic_num =? 188 then uart_handle_rx_interrupt 2
  else if nvic_num =? 191 then uart_handle_tx_interrupt 2
  else if nvic_num =? 193 then usb_handle_interrupt
  else if in_range 65 80 nvic_num then gpio_handle_interrupt (false, Z.to_nat (nvic_num - 65))
  else if nvic_num =? 81 then mret tt
  else if in_range 82 97 nvic_num then gpio_handle_interrupt (true, Z.to_nat (nvic_num - 82))
  else if nvic_num =? 98 then mret tt
  else panic.

Definition has_pending_interrupts (p : gset Z) : bool := bool_decide (is_Some (next_pending p)).

(** [service_pending_interrupts]: the interrupts served, in their order, whether the last
    handler panicked, and the state after; [arrivals] come during the handlers, before the pending bit is cleared. *)
Fixpoint service_pending_interrupts (fuel : nat) (arrivals : list (gset Z)) (p : gset Z) (s : S) : option (list Z * bool * gset Z * S) :=
  match fuel with
  | O => None
  | Datatypes.S fuel =>
      match next_pending p with
      | None => Some ([], false, p, s)
      | Some n =>
          match dispatch n s with
          | (Ok _, s') =>
              '(l, r, p', s') ← service_pending_interrupts fuel (tail arrivals) ((p ∪ default ∅ (head arrivals)) ∖ {[n]}) s';
              Some (n :: l, r, p', s')
          | (_, s') => Some ([n], true, p, s')
          end
      end
  end.

End Hotel.
End Hotel.

(** ** The drivers of the chip *)

(** The drivers that have their own models; [rest] holds the SPI drivers, the generator
    and the USB controller. *)
Record ChipState (R : Type) := mk_ChipState {
  dcrypto : DcryptoEngine.t;
  aes : AesDriver.t;
  sha : ShaEngine.t;
  timels : nat → Timels.t;
  uart : nat → UART.t;
  gpio : GPIO.t;
  rest : R
}.
Arguments mk_ChipState {R}. Arguments dcrypto {R}. Arguments aes {R}. Arguments sha {R}.
Arguments timels {R}. Arguments uart {R}. Arguments gpio {R}. Arguments rest {R}.

Class RestDrivers (R : Type) := {
  rest_spi_host : nat → K R unit;
  rest_spi_device : K R unit;
  rest_trng : K R unit;
  rest_usb : K R unit
}.

Section Drivers.
Context {R : Type} `{RestDrivers R}.
Abbreviation CS := (ChipState R).

Definition on_dcrypto {A} (m : K DcryptoEngine.t A) : K CS unit :=
  zoom dcrypto (λ d c, mk_ChipState d (aes c) (sha c) (timels c) (uart c) (gpio c) (rest c)) m ;; mret tt.
Definition on_aes (m : K AesDriver.t unit) : K CS unit :=
  zoom aes (λ a c, mk_ChipState (dcrypto c) a (sha c) (timels c) (uart c) (gpio c) (rest c)) m.
Definition on_sha (f : ShaEngine.t → ShaEngine.t) : K CS unit :=
  modify (λ c, mk_ChipState (dcrypto c) (aes c) (f (sha c)) (timels c) (uart c) (gpio c) (rest c)).
Definition on_timels (i : nat) (f : Timels.t → Timels.t) : K CS unit :=
  modify (λ c, mk_ChipState (dcrypto c) (aes c) (sha c) (λ j, if decide (j = i) then f (timels c i) else timels c j) (uart c) (gpio c) (rest c)).
Definition on_uart {A} (i : nat) (m : K UART.t A) : K CS unit :=
  zoom (λ c, uart c i)
    (λ u c, mk_ChipState (dcrypto c) (aes c) (sha c) (timels c) (λ j, if decide (j = i) then u else uart c j) (gpio c) (rest c)) m ;; mret tt.
Definition on_gpio (f : GPIO.t → GPIO.t) : K CS unit :=
  modify (λ c, mk_ChipState (dcrypto c) (aes c) (sha c) (timels c) (uart c) (f (gpio c)) (rest c)).
Definition on_rest (m : K R unit) : K CS unit :=
  zoom rest (λ r c, mk_ChipState (dcrypto c) (aes c) (sha c) (timels c) (uart c) (gpio c) r) m.

#[global] Instance chip_drivers : ChipDrivers CS := {|
  dcrypto_handle_error_interrupt n := on_dcrypto (DcryptoEngine.handle_error_interrupt n);
  dcrypto_handle_wipe_interrupt := on_dcrypto DcryptoEngine.handle_wipe_interrupt;
  dcrypto_handle_done_interrupt := on_dcrypto DcryptoEngine.handle_done_interrupt;
  dcrypto_handle_receive_interrupt := on_dcrypto DcryptoEngine.handle_receive_interrupt;
  aes_handle_interrupt n := on_aes (AesDriver.handle_interrupt n);
  sha_handle_interrupt _ := on_sha ShaEngine.handle_interrupt;
  spi_host_handle_interrupt i := on_rest (rest_spi_host i);
  spi_device_handle_interrupt := on_rest rest_spi_device;
  timels_handle_interrupt i := on_timels i Timels.handle_interrupt;
  trng_handle_interrupt := on_rest rest_trng;
  uart_handle_rx_interrupt i := on_uart i UART.handle_rx_interrupt;
  uart_handle_tx_interrupt i := on_uart i UART.handle_tx_interrupt;
  usb_handle_interrupt := on_rest rest_usb;
  gpio_handle_interrupt x := on_gpio (GPIO.handle_interrupt x)
|}.

End Drivers.

(** ** What the dispatcher guarantees *)

(** The numbers with an arm of their own. *)
Definition served_numbers : list Z :=
  [1; 2; 3; 4; 5; 6; 7; 8; 9; 10; 11] ++ seqZ 65 34 ++ seqZ 104 8 ++
  [127; 128; 131; 159; 160; 169; 174; 177; 181; 184; 188; 191; 193].

Module HotelFacts.
Import Hotel.

Section Loop.
Context {S : Type} `{ChipDrivers S} `{Nvic}.

Definition arriving (arrivals : list (gset Z)) : gset Z := ⋃ arrivals.
Definition still_to_come (arrivals : list (gset Z)) : nat := sum_list_with size arrivals.

Lemma pending_step (p a : gset Z) n : n ∈ p → (size ((p ∪ a) ∖ {[n]}) + 1 <= size p + size a)%nat.
Proof.
  intros Hn. rewrite size_difference by set_solver. rewrite size_singleton, size_union_alt.
  assert (Hs : (size (a ∖ p) <= size a)%nat) by (apply subseteq_size; set_solver).
  assert (Hp : (1 <= size p)%nat) by (rewrite <- (size_singleton (C := gset Z) n); apply subseteq_size; set_solver). lia.
Qed.

Lemma split_arrivals (arrivals : list (gset Z)) :
  (still_to_come arrivals = size (default ∅ (head arrivals)) + still_to_come (tail arrivals))%nat.
Proof. destruct arrivals; simpl; [| done]. change (0 = size (∅ : gset Z) + 0)%nat. by rewrite size_empty. Qed.

Lemma served_now (arrivals : list (gset Z)) (n : Z) (k : nat) (l : list Z) (p : gset Z) :
  (∀ m, m ∈ ((p ∪ default ∅ (head arrivals)) ∖ {[n]}) ∪ arriving (take k (tail arrivals)) → m ∈ l) →
  ∀ m, m ∈ p ∪ arriving (take (Datatypes.S k) arrivals) → m ∈ n :: l.
Proof.
  intros Hl m Hm. destruct (decide (m = n)) as [-> | Hne]; [left |]. right. apply Hl. unfold arriving in *.
  destruct arrivals as [| a arrivals]; simpl in *; [rewrite take_nil in *; simpl in *; set_solver | set_solver].
Qed.


Lemma unexpected_panics n s : n ∉ served_numbers → dispatch n s = (Panic, s).
Proof.
  intros Hn. assert (Hnot : ∀ m, m ∈ served_numbers → n ≠ m) by (intros m Hm ->; done).
  assert (Hr : ∀ lo hi, (∀ m, lo <= m <= hi → m ∈ served_numbers) → in_range lo hi n = false).
  { intros lo hi Hlh. unfold in_range. destruct (_ && _) eqn:E; [| done]. zb. exfalso. apply (Hnot n); [apply Hlh; lia | done]. }
  unfold dispatch. rewrite bool_decide_eq_false_2.
  2:{ intros Hm. apply (Hnot n); [| done]. revert Hm. rewrite !elem_of_cons, elem_of_nil. intros Hm.
      destruct_or! Hm; subst; try done; unfold served_numbers; rewrite !elem_of_app; left; set_solver. }
  rewrite !Hr.
  2-4: intros m Hm; unfold served_numbers; rewrite !elem_of_app, !elem_of_seqZ; lia.
  repeat match goal with |- context [?a =? ?b] => rewrite (proj2 (Z.eqb_neq a b)) by (apply Hnot; by_compute) end. done.
Qed.

End Loop.
Section Chip.
Context {R : Type} `{RestDrivers R}.

(** The dispatcher and the drivers agree on the numbers. The error handler of the
    dcrypto engine and the handler of the AES engine, which panic on a number that is not
    theirs, are only called with numbers they know: no dcrypto error interrupt panics the
    kernel, nor does any AES interrupt but the end of a cipher without its buffer. A number
    without an arm panics and changes nothing. *)
Theorem dispatched_numbers_known n (s : ChipState R) :
  (n ∈ [1; 3; 6; 7; 8; 9; 10; 11] → is_Some (DcryptoEngine.flag_of n) ∧ (dispatch n s).1 = Ok tt)
  ∧ (104 <= n <= 109 → is_Some (parse_interrupt n)
      ∧ (parse_interrupt n ≠ Some DoneCipher ∨ is_Some (AesEngine.output (AesDriver.device (aes s))) → (dispatch n s).1 = Ok tt))
  ∧ (n ∉ served_numbers → dispatch n s = (Panic, s)).
Proof.
  split_and!; [| | apply unexpected_panics].
  - intros Hn. assert (Hf : is_Some (DcryptoEngine.flag_of n)).
    { revert Hn. rewrite !elem_of_cons, elem_of_nil. intros Hn. destruct_or! Hn; subst; by (eexists; reflexivity) || done. }
    split; [done |]. unfold dispatch. rewrite bool_decide_eq_true_2 by done. destruct Hf as [f Hf]. simpl.
    unfold on_dcrypto, DcryptoEngine.handle_error_interrupt. rewrite Hf. unfold DcryptoEngine.clear_int, DcryptoEngine.call.
    rewrite bind_unfold. unfold zoom. cbn [unwrap]. run. break_if; reflexivity.
  - intros Hn. assert (Hc : n = 104 ∨ n = 105 ∨ n = 106 ∨ n = 107 ∨ n = 108 ∨ n = 109) by lia.
    assert (Hd : dispatch n s = on_aes (AesDriver.handle_interrupt n) s) by (destruct_or! Hc; by subst).
    assert (Hp : is_Some (parse_interrupt n)) by (destruct_or! Hc; subst; by eexists).
    split; [done |]. intros Hout. rewrite Hd. destruct Hp as [i Hi]. rewrite Hi in Hout.
    unfold on_aes, AesDriver.handle_interrupt, zoom. rewrite Hi. cbn [unwrap]. run.
    destruct (AesEngine.client (AesDriver.device (aes s))); [| reflexivity].
    destruct i; try reflexivity. destruct Hout as [Hout | [o Ho]]; [done |]. run. rewrite Ho. reflexivity.
Qed.

(** The number of the interrupt of a pin. *)
Definition pin_interrupt (x : PinId) : Z := (if x.1 then 82 else 65) + Z.of_nat x.2.

(** The interrupt of a pin reaches its driver and nothing else. For each of the 32
    pins, dispatching its interrupt runs the handler of that very pin: its client is
    called if it has one, its status bit is cleared, and no other pin and no other driver of
    the chip changes. *)
Theorem pin_interrupt_served x (s : ChipState R) :
  (x.2 < 16)%nat →
  ∃ s', dispatch (pin_interrupt x) s = (Ok tt, s')
    ∧ gpio s' = GPIO.handle_interrupt x (gpio s)
    ∧ GPIO.fired (gpio s') = GPIO.fired (gpio s) ++ (if GPIO.client (gpio s) x then [x] else [])
    ∧ GPIO.is_pending x (gpio s') = false
    ∧ (∀ y, y ≠ x → pin_state y (gpio s') = pin_state y (gpio s))
    ∧ dcrypto s' = dcrypto s ∧ aes s' = aes s ∧ sha s' = sha s ∧ timels s' = timels s ∧ uart s' = uart s ∧ rest s' = rest s.
Proof.
  intros Hx.
  assert (Hd : dispatch (pin_interrupt x) s = on_gpio (GPIO.handle_interrupt x) s).
  { destruct x as [b k]. simpl in Hx. do 16 (destruct k as [| k]; [by destruct b |]). lia. }
  rewrite Hd. eexists. split; [done |]. simpl. split; [done |].
  split; [exact (GpioFacts.run_op_fired x OpHandle (gpio s)) |].
  split; [exact (f_equal p_pending (GpioFacts.run_op_same x OpHandle (gpio s))) |].
  split; [intros y Hy; exact (GpioFacts.run_op_other x OpHandle y (gpio s) Hy) |]. done.
Qed.

End Chip.
End HotelFacts.

Module HotelWitnesses.
Import Hotel.

#[local] Instance first_pending : Nvic.
Proof.
  refine {| next_pending := λ p, head (elements p) |}.
  - intros p n Hn. apply elem_of_elements. destruct (elements p) as [| m l]; simplify_eq/=. left.
  - intros p Hp. apply leibniz_equiv, elements_empty_iff. destruct (elements p) as [| m l]; [done | discriminate].
Defined.

#[local] Instance no_rest : RestDrivers unit :=
  {| rest_spi_host _ := mret tt; rest_spi_device := mret tt; rest_trng := mret tt; rest_usb := mret tt |}.

Definition chip_at_reset : ChipState unit :=
  let p := Pmu.mk (λ _, 0) [] in
  mk_ChipState (DcryptoEngine.new (λ _, 0) [] [] [] p)
    (AesDriver.new (AesEngine.new (mk_Aes 0 [] [] [] 0 [] 0 0 false 4)) (λ _, None))
    (ShaEngine.new (mk_Sha 0 0 [] [] 0 false [] None)) (λ _, Timels.new) (λ _, UART.new Uart0Timer p)
    (GPIO.mk (λ _, mk_Port 0 0 0 0 0 0 0) (λ _, false) (λ _, true) (mk_Pinmux (λ _, 0) (λ _, 0) (λ _, Disconnected) Disconnected) []) tt.


Lemma dispatched_numbers_known_witness :
  (dispatch 9 chip_at_reset).1 = Ok tt ∧ (dispatch 107 chip_at_reset).1 = Ok tt ∧ dispatch 130 chip_at_reset = (Panic, chip_at_reset).
Proof.
  destruct (HotelFacts.dispatched_numbers_known 9 chip_at_reset) as [H1 _].
  destruct (HotelFacts.dispatched_numbers_known 107 chip_at_reset) as (_ & H2 & _).
  destruct (HotelFacts.dispatched_numbers_known 130 chip_at_reset) as (_ & _ & H3).
  split; [apply H1; by_compute |]. split; [apply H2; [lia | left; discriminate] | apply H3; by_compute].
Defined.

Lemma pin_interrupt_served_witness :
  ∃ s', dispatch 85 chip_at_reset = (Ok tt, s') ∧ GPIO.fired (gpio s') = [(true, 3%nat)].
Proof.
  destruct (HotelFacts.pin_interrupt_served (true, 3%nat) chip_at_reset) as (s' & H1 & _ & H2 & _); [simpl; lia |].
  exists s'. split; [exact H1 | exact H2].
Defined.

End HotelWitnesses.
