(* ===== verification/Board.v ===== *)
(** The boards: the start of the kernel (kernel/h1/src/lib.rs), the numbers of the
    system-call drivers and their dispatch, the flash regions that are opened for writing,
    and the start-up of the papa and golf2 boards (kernel/papa/src/main.rs,
    kernel/golf2/src/main.rs) over the drivers that have their own models.

    Where the segments of the kernel lie is up to the linker.  Capsules of the Tock
    kernel are not part of the repository: their driver numbers are the class
    [TockNumbers], and creating them has no effect on the drivers but to set a client. *)

From S2P Require Import Prelude Io Wire FlashProto FirmwareProto Tock FlashHw NvCounter GlobalSec FlashSyscalls Registers SpiHw SpiHwFacts.
From S2P Require Import SpiSyscall Personality Digest Info Dcrypto SpiHost Aes Uart Gpio Timer Chip.
From Stdlib Require Import ZArith Lia.
From stdpp Require Import base decidable option list list_numbers strings.

#[local] Open Scope Z_scope.

(** ** The start of the kernel *)

Module Start.

(** The words of the memory, by their addresses. *)
Definition Memory : Type := Z → Z.
Definition store (a v : Z) (m : Memory) : Memory := λ b, if decide (b = a) then v else m b.

(** The symbols that the linker defines. *)
Record Symbols := mk_Symbols { szero : Z; ezero : Z; etext : Z; srelocate : Z; erelocate : Z }.

(** [while pdest < pend { *pdest = *psrc; .. }] and [while pdest < pzero { *pdest = 0; .. }] *)
Fixpoint relocate (fuel : nat) (pdest pend psrc : Z) (m : Memory) : option Memory :=
  if pdest <? pend then
    match fuel with O => None | S n => relocate n (pdest + 4) pend (psrc + 4) (store pdest (m psrc) m) end
  else Some m.

Fixpoint clear (fuel : nat) (pdest pzero : Z) (m : Memory) : option Memory :=
  if pdest <? pzero then match fuel with O => None | S n => clear n (pdest + 4) pzero (store pdest 0 m) end
  else Some m.

Inductive NvicCall := disable_all | clear_all_pending | enable_all.

Definition init (fuel : nat) (l : Symbols) (m : Memory) : option (Memory * list NvicCall) :=
  m ← (if negb (etext l =? srelocate l) then relocate fuel (srelocate l) (erelocate l) (etext l) m else Some m);
  m ← clear fuel (szero l) (ezero l) m;
  Some (m, [disable_all; clear_all_pending; enable_all]).

(** *** The vector table *)

Inductive Handler := estack | reset_handler | unhandled_interrupt | hard_fault_handler | svc_handler | systick_handler | generic_isr.

#[global] Instance Handler_eq_dec : EqDecision Handler.
Proof. solve_decision. Defined.

Definition BASE_VECTORS : list Handler :=
  [estack; reset_handler; unhandled_interrupt; hard_fault_handler; unhandled_interrupt; unhandled_interrupt; unhandled_interrupt;
   unhandled_interrupt; unhandled_interrupt; unhandled_interrupt; unhandled_interrupt; svc_handler; unhandled_interrupt;
   unhandled_interrupt; unhandled_interrupt; systick_handler].

Definition IRQS : list Handler := replicate 255 generic_isr.

(** The number that the panic of [unhandled_interrupt] reports. *)
Definition unhandled_number (ipsr : Z) : Z := Z.land ipsr 0x1ff.

End Start.

Module StartFacts.
Import Start.

Definition within (lo hi a : Z) : bool := (lo <=? a) && (a <? hi).

Lemma within_step lo hi a : lo < hi → a mod 4 = lo mod 4 → within lo hi a = within (lo + 4) hi a || (a =? lo).
Proof.
  intros Hlt Hm. unfold within.
  destruct (Z.leb_spec lo a), (Z.ltb_spec a hi), (Z.leb_spec (lo + 4) a), (Z.eqb_spec a lo); simpl; try done; exfalso; try lia.
  pose proof (Z.div_mod a 4 ltac:(lia)). pose proof (Z.div_mod lo 4 ltac:(lia)). lia.
Qed.

Lemma relocate_spec fuel pdest pend psrc m :
  pend - pdest <= 4 * Z.of_nat fuel → (pdest <= psrc ∨ psrc + (pend - pdest) <= pdest) →
  ∃ m', relocate fuel pdest pend psrc m = Some m' ∧
    ∀ a, a mod 4 = pdest mod 4 → m' a = if within pdest pend a then m (psrc + (a - pdest)) else m a.
Proof.
  revert pdest psrc m. induction fuel as [| fuel IH]; intros pdest psrc m Hf Hd; simpl.
  all: destruct (Z.ltb_spec pdest pend) as [Hlt | Hge]; [try (exfalso; lia) |].
  1, 3: exists m; split; [done |]; intros a _; unfold within; destruct (Z.leb_spec pdest a), (Z.ltb_spec a pend); done || (exfalso; lia).
  destruct (IH (pdest + 4) (psrc + 4) (store pdest (m psrc) m)) as (m' & E & Hm'); [lia.. |].
  exists m'. split; [done |]. intros a Ha.
  rewrite Hm' by (rewrite Ha; symmetry; exact (Z_mod_plus_full pdest 1 4)). rewrite (within_step pdest pend a) by done.
  replace (psrc + 4 + (a - (pdest + 4))) with (psrc + (a - pdest)) by lia. unfold store.
  destruct (within (pdest + 4) pend a) eqn:Hw; simpl.
  - unfold within in Hw. apply andb_prop in Hw as [H1 H2]. apply Z.leb_le in H1. apply Z.ltb_lt in H2. rewrite decide_False by lia. done.
  - destruct (Z.eqb_spec a pdest) as [-> | Hne]; [rewrite decide_True by done; f_equal; lia | by rewrite decide_False].
Qed.

Lemma clear_spec fuel pdest pzero m :
  pzero - pdest <= 4 * Z.of_nat fuel →
  ∃ m', clear fuel pdest pzero m = Some m' ∧ ∀ a, a mod 4 = pdest mod 4 → m' a = if within pdest pzero a then 0 else m a.
Proof.
  revert pdest m. induction fuel as [| fuel IH]; intros pdest m Hf; simpl.
  all: destruct (Z.ltb_spec pdest pzero) as [Hlt | Hge]; [try (exfalso; lia) |].
  1, 3: exists m; split; [done |]; intros a _; unfold within; destruct (Z.leb_spec pdest a), (Z.ltb_spec a pzero); done || (exfalso; lia).
  destruct (IH (pdest + 4) (store pdest 0 m)) as (m' & E & Hm'); [lia |]. exists m'. split; [done |]. intros a Ha.
  rewrite Hm' by (rewrite Ha; symmetry; exact (Z_mod_plus_full pdest 1 4)). rewrite (within_step pdest pzero a) by done. unfold store.
  destruct (within (pdest + 4) pzero a); simpl; [done |]. destruct (Z.eqb_spec a pdest) as [-> | Hne]; [by rewrite decide_True | by rewrite decide_False].
Qed.

(** What the loops rely on: the segments are aligned, the initial data is not overwritten
    before it is read, and the zero segment keeps off the data. *)
Definition laid_out (l : Symbols) : Prop :=
  srelocate l mod 4 = 0 ∧ szero l mod 4 = 0 ∧
  (srelocate l <= etext l ∨ etext l + (erelocate l - srelocate l) <= srelocate l) ∧
  (erelocate l <= szero l ∨ ezero l <= srelocate l).

(** The memory that Rust code expects.  With fuel for the words of both segments, [init]
    returns; then the data segment holds the image behind the text, as it was at the start,
    the zero segment is zero, and every other word is untouched; no interrupt is left over. *)
Theorem memory_initialized fuel l m :
  laid_out l → erelocate l - srelocate l <= 4 * Z.of_nat fuel → ezero l - szero l <= 4 * Z.of_nat fuel →
  ∃ m', init fuel l m = Some (m', [disable_all; clear_all_pending; enable_all]) ∧
    ∀ a, a mod 4 = 0 →
      m' a = if within (szero l) (ezero l) a then 0
             else if within (srelocate l) (erelocate l) a then m (etext l + (a - srelocate l)) else m a.
Proof.
  intros (Hr & Hz & Hd & Ho) Hf1 Hf2. unfold init.
  assert (∃ m1, (if negb (etext l =? srelocate l) then relocate fuel (srelocate l) (erelocate l) (etext l) m else Some m) = Some m1
    ∧ ∀ a, a mod 4 = 0 → m1 a = if within (srelocate l) (erelocate l) a then m (etext l + (a - srelocate l)) else m a) as (m1 & -> & H1).
  { destruct (Z.eqb_spec (etext l) (srelocate l)) as [-> | _]; simpl.
    - exists m. split; [done |]. intros a _. replace (srelocate l + (a - srelocate l)) with a by lia. by destruct (within _ _ _).
    - destruct (relocate_spec fuel (srelocate l) (erelocate l) (etext l) m Hf1 Hd) as (m1 & E & H1). exists m1. split; [done |].
      intros a Ha. apply H1. by rewrite Ha. }
  simpl. destruct (clear_spec fuel (szero l) (ezero l) m1 Hf2) as (m2 & -> & H2). simpl. exists m2. split; [done |].
  intros a Ha. rewrite H2 by (by rewrite Ha). destruct (within (szero l) (ezero l) a); [done | by apply H1].
Qed.

(** The linker's layout with a stack of 8 KiB: three words of data, two of zeros. *)
Lemma memory_initialized_witness :
  let l := mk_Symbols 0x1200c 0x12014 0x50000 0x12000 0x1200c in
  ∃ m', init 3 l (λ a, a) = Some (m', [disable_all; clear_all_pending; enable_all]) ∧ m' 0x12008 = 0x50008 ∧ m' 0x12010 = 0 ∧ m' 0x12014 = 0x12014.
Proof.
  intros l. destruct (memory_initialized 3 l (λ a, a)) as (m' & E & H); [| vm_compute; discriminate.. |].
  - split_and!; [reflexivity.. | left; vm_compute; discriminate | left; vm_compute; discriminate].
  - exists m'. split; [exact E |]. rewrite !H by reflexivity. split_and!; reflexivity.
Defined.

(** Every interrupt that the dispatcher serves enters through [generic_isr]; the exceptions
    without a handler report their own number. *)
Lemma vectors_reach_dispatcher :
  Forall (λ n, (BASE_VECTORS ++ IRQS) !! Z.to_nat (16 + n) = Some generic_isr) served_numbers ∧
  Forall (λ e, (BASE_VECTORS !! e = Some unhandled_interrupt → unhandled_number (Z.of_nat e) = Z.of_nat e)) (seq 0 16).
Proof. split; by_compute. Qed.

End StartFacts.

(** ** System-call drivers *)

(** The driver numbers of Tock's capsules. *)
Class TockNumbers := {
  alarm_NUM : Z;
  console_NUM : Z;
  gpio_NUM : Z;
  low_level_debug_NUM : Z;
  rng_NUM : Z;
  spi_controller_NUM : Z;
  ipc_NUM : Z
}.

Definition digest_NUM : Z := 0x40003.
Definition dcrypto_NUM : Z := 0x40004.
Definition aes_NUM : Z := 0x40010.
Definition spi_host_NUM : Z := 0x40020.
Definition spi_device_NUM : Z := 0x40030.
Definition flash_NUM : Z := 0x40040.
Definition fuse_NUM : Z := 0x40050.
Definition globalsec_NUM : Z := 0x40060.
Definition reset_NUM : Z := 0x40070.
Definition personality_NUM : Z := 0x5000b.
Definition u2f_NUM : Z := 0x20008.
Definition nvcounter_NUM : Z := 0x80040000.

(** The drivers of the boards, by the names of their fields. *)
Inductive Capsule :=
| c_timer | c_console | c_gpio | c_low_level_debug | c_rng | c_spi_host_syscalls | c_h1_spi_host_syscalls | c_h1_spi_device_syscalls
| c_aes | c_dcrypto | c_digest | c_flash_syscalls | c_fuse_syscalls | c_globalsec_syscalls | c_reset_syscalls | c_ipc
| c_u2f_usb | c_nvcounter | c_personality.

#[global] Instance Capsule_eq_dec : EqDecision Capsule.
Proof. solve_decision. Defined.

Section Drivers.
Context `{TockNumbers}.

(** [match driver_num { .. }]: the arms in their order. *)
Fixpoint first_arm (n : Z) (arms : list (Z * Capsule)) : option Capsule :=
  match arms with
  | [] => None
  | (num, c) :: rest => if n =? num then Some c else first_arm n rest
  end.

Definition papa_arms : list (Z * Capsule) :=
  [(alarm_NUM, c_timer); (console_NUM, c_console); (gpio_NUM, c_gpio); (low_level_debug_NUM, c_low_level_debug); (rng_NUM, c_rng);
   (spi_controller_NUM, c_spi_host_syscalls); (spi_host_NUM, c_h1_spi_host_syscalls); (spi_device_NUM, c_h1_spi_device_syscalls);
   (aes_NUM, c_aes); (dcrypto_NUM, c_dcrypto); (digest_NUM, c_digest); (flash_NUM, c_flash_syscalls); (fuse_NUM, c_fuse_syscalls);
   (globalsec_NUM, c_globalsec_syscalls); (reset_NUM, c_reset_syscalls); (ipc_NUM, c_ipc)].

Definition golf2_arms : list (Z * Capsule) :=
  [(alarm_NUM, c_timer); (console_NUM, c_console); (gpio_NUM, c_gpio); (low_level_debug_NUM, c_low_level_debug); (rng_NUM, c_rng);
   (u2f_NUM, c_u2f_usb); (aes_NUM, c_aes); (dcrypto_NUM, c_dcrypto); (digest_NUM, c_digest); (nvcounter_NUM, c_nvcounter);
   (personality_NUM, c_personality); (ipc_NUM, c_ipc)].

Definition papa_with_driver (driver_num : Z) : option Capsule := first_arm driver_num papa_arms.
Definition golf2_with_driver (driver_num : Z) : option Capsule := first_arm driver_num golf2_arms.

End Drivers.

(** [DRIVER_NUMBER] of otpilot's clients. *)
Definition otpilot_alarm : Z := 0x00000.
Definition otpilot_console_reader : Z := 1.
Definition otpilot_gpio : Z := 0x00004.
Definition otpilot_spi_host : Z := 0x20001.
Definition otpilot_spi_host_h1 : Z := 0x40020.
Definition otpilot_spi_device : Z := 0x40030.
Definition otpilot_flash : Z := 0x40040.
Definition otpilot_fuse : Z := 0x40050.
Definition otpilot_globalsec : Z := 0x40060.
Definition otpilot_reset : Z := 0x40070.

(** The driver that each client talks to. *)
Definition otpilot_clients : list (Z * Capsule) :=
  [(otpilot_alarm, c_timer); (otpilot_console_reader, c_console); (otpilot_gpio, c_gpio); (otpilot_spi_host, c_spi_host_syscalls);
   (otpilot_spi_host_h1, c_h1_spi_host_syscalls); (otpilot_spi_device, c_h1_spi_device_syscalls); (otpilot_flash, c_flash_syscalls);
   (otpilot_fuse, c_fuse_syscalls); (otpilot_globalsec, c_globalsec_syscalls); (otpilot_reset, c_reset_syscalls)].

(** Tock's numbers as Tock documents them: no two drivers share a number, the ones of
    this repository included, and four of them have the values that otpilot uses. *)
Class TockLaws `{TockNumbers} := {
  papa_numbers_distinct : NoDup papa_arms.*1;
  golf2_numbers_distinct : NoDup golf2_arms.*1;
  alarm_number : alarm_NUM = otpilot_alarm;
  console_number : console_NUM = otpilot_console_reader;
  gpio_number : gpio_NUM = otpilot_gpio;
  spi_controller_number : spi_controller_NUM = otpilot_spi_host
}.

Module DriverFacts.

Lemma first_arm_spec n c arms : NoDup arms.*1 → first_arm n arms = Some c ↔ (n, c) ∈ arms.
Proof.
  induction arms as [| [num d] arms IH]; intros Hnd; simpl; [split; [done | by intros ?%not_elem_of_nil] |].
  apply NoDup_cons in Hnd as [Hn Hnd]. rewrite elem_of_cons. destruct (Z.eqb_spec n num) as [-> | Hne].
  - split; [intros [= ->]; by left |]. intros [[= ->] | Hin]; [done |]. destruct Hn. apply list_elem_of_fmap. by exists (num, c).
  - rewrite IH by done. split; [by right | intros [[= -> ->] | ?]; done].
Qed.

Section Facts.
Context `{TockLaws}.

(** Every client of otpilot reaches its driver on the papa board, at the number that the
    two sides define each for itself; a number that reaches a driver is the only one that
    does, so no arm of [with_driver] hides another, on both boards. *)
Theorem drivers_connected :
  Forall (λ '(n, c), papa_with_driver n = Some c) otpilot_clients ∧
  (∀ n c, (papa_with_driver n = Some c ↔ (n, c) ∈ papa_arms) ∧ (golf2_with_driver n = Some c ↔ (n, c) ∈ golf2_arms)) ∧
  (∀ n n' c, papa_with_driver n = Some c → papa_with_driver n' = Some c → n = n') ∧
  (∀ n n' c, golf2_with_driver n = Some c → golf2_with_driver n' = Some c → n = n').
Proof.
  assert (Hp : ∀ n c, papa_with_driver n = Some c ↔ (n, c) ∈ papa_arms) by (intros; by apply first_arm_spec, papa_numbers_distinct).
  assert (Hg : ∀ n c, golf2_with_driver n = Some c ↔ (n, c) ∈ golf2_arms) by (intros; by apply first_arm_spec, golf2_numbers_distinct).
  split_and!; [| done | |].
  - unfold otpilot_clients. rewrite <- alarm_number, <- console_number, <- gpio_number, <- spi_controller_number.
    repeat apply Forall_cons_2; [.. | done]; apply Hp; unfold papa_arms;
      repeat first [by apply list_elem_of_here | apply list_elem_of_further].
  - intros n n' c. rewrite !Hp. unfold papa_arms. rewrite !elem_of_cons, !elem_of_nil. intros Hn Hn'. destruct_or!; congruence.
  - intros n n' c. rewrite !Hg. unfold golf2_arms. rewrite !elem_of_cons, !elem_of_nil. intros Hn Hn'. destruct_or!; congruence.
Qed.

End Facts.

(** Tock's numbers. *)
#[local] Instance tock_numbers : TockNumbers :=
  {| alarm_NUM := 0; console_NUM := 1; gpio_NUM := 4; low_level_debug_NUM := 8; rng_NUM := 0x40001; spi_controller_NUM := 0x20001; ipc_NUM := 0x10000 |}.
#[local] Instance tock_laws : TockLaws.
Proof. split; try reflexivity; by_compute. Defined.

Lemma drivers_connected_witness : papa_with_driver 0x40040 = Some c_flash_syscalls ∧ golf2_with_driver 0x40040 = None.
Proof.
  destruct drivers_connected as (_ & H & _). split; [apply H; by_compute |].
  destruct (golf2_with_driver 0x40040) eqn:E; [discriminate E | reflexivity].
Defined.

End DriverFacts.

(** ** Flash regions *)

(** A region of the flash: [ctrl] enables it, and reads and writes in it.  "The value of the
    SIZE register is one less than the size of the region, i.e. the last address within the
    region is the start address + the size register." *)
Definition region_writable (ctrl base size a : Z) : bool :=
  Z.testbit ctrl 0 && Z.testbit ctrl 2 && (base <=? a) && (a <=? base + size).

Module Golf2Regions.
Import Start.

Definition GLOBALSEC_BASE : Z := 0x40090000.
Definition CPU0_D_REGION_CTRL : list Z := [GLOBALSEC_BASE + 0x0; GLOBALSEC_BASE + 0x4; GLOBALSEC_BASE + 0x8; GLOBALSEC_BASE + 0xc].
Definition DDMA0_REGION_CTRL : list Z := [GLOBALSEC_BASE + 0x80; GLOBALSEC_BASE + 0x84; GLOBALSEC_BASE + 0x88; GLOBALSEC_BASE + 0x8c].
Definition DUSB0_REGION_CTRL : list Z := [GLOBALSEC_BASE + 0xc0; GLOBALSEC_BASE + 0xc4; GLOBALSEC_BASE + 0xc8; GLOBALSEC_BASE + 0xcc].
Definition FLASH_REGION2_BASE : Z := GLOBALSEC_BASE + 0x240.
Definition FLASH_REGION2_SIZE : Z := GLOBALSEC_BASE + 0x244.
Definition FLASH_REGION2_CTRL : Z := GLOBALSEC_BASE + 0x0e8.
Definition FLASH_START : Z := 0x40000.
Definition FLASH_SIZE : Z := 512 * 1024.
Definition FLASH_PAGE_SIZE : Z := 2048.

(** The volatile stores in their order; [!0] is all ones. *)
Definition stores : list (Z * Z) :=
  ((λ a, (a, 0xffffffff)) <$> CPU0_D_REGION_CTRL ++ DDMA0_REGION_CTRL ++ DUSB0_REGION_CTRL) ++
  [(FLASH_REGION2_BASE, u32 (FLASH_START + FLASH_SIZE - 3 * FLASH_PAGE_SIZE));
   (FLASH_REGION2_SIZE, u32 (3 * FLASH_PAGE_SIZE - 1));
   (FLASH_REGION2_CTRL, 7)].

Definition open_regions (m : Memory) : Memory := foldl (λ m '(a, v), store a v m) m stores.

Definition region2_writable (m : Memory) (a : Z) : bool :=
  region_writable (m FLASH_REGION2_CTRL) (m FLASH_REGION2_BASE) (m FLASH_REGION2_SIZE) a.

End Golf2Regions.

Module RegionFacts.
Import Start Golf2Regions GlobalSecHardware GlobalSecFacts.

(** The page of an address of the flash. *)
Definition page_of (a : Z) : Z := (a - H1_FLASH_START) / H1_FLASH_PAGE_SIZE.

(** The region that golf2 opens for writing is exactly the pages that its two users of the
    flash erase and write: the page of the personality and the two pages of the counter.
    The start-up code, the personality and the counter each compute these for themselves. *)
Theorem golf2_region_exact (m : Memory) (a : Z) :
  region2_writable (open_regions m) a = true ↔ page_of a ∈ [PERSONALITY_PAGE; page_number High; page_number Low].
Proof.
  assert (E : region2_writable (open_regions m) a = (0xbe800 <=? a) && (a <=? 0xbffff)) by reflexivity.
  assert (P : [PERSONALITY_PAGE; page_number High; page_number Low] = [253; 254; 255]) by reflexivity.
  rewrite E, P, andb_true_iff, Z.leb_le, Z.leb_le, !elem_of_cons, elem_of_nil. unfold page_of, H1_FLASH_START, H1_FLASH_PAGE_SIZE.
  pose proof (Z.div_mod (a - 0x40000) 0x800 ltac:(lia)). pose proof (Z.mod_pos_bound (a - 0x40000) 0x800 ltac:(lia)). lia.
Qed.

(** The addresses of a segment, and the regions that [init] opens for the inactive ones. *)
Definition in_segment (seg : SegmentInfo) (a : Z) : Prop := base_of seg <= a < base_of seg + seg_size seg.

Definition papa_writable (r : GsRegisters) (a : Z) : bool :=
  region_writable (nth 2 (flash_region_ctrl r) 0) (nth 2 (flash_region_base_addr r) 0) (nth 2 (flash_region_size r) 0) a ||
  region_writable (nth 3 (flash_region_ctrl r) 0) (nth 3 (flash_region_base_addr r) 0) (nth 3 (flash_region_size r) 0) a.

Lemma open_region base size a : region_writable REGION_CTRL_ALL base size a = true ↔ base <= a <= base + size.
Proof. unfold region_writable. change (Z.testbit REGION_CTRL_ALL 0 && Z.testbit REGION_CTRL_ALL 2) with true. simpl. rewrite andb_true_iff, Z.leb_le, Z.leb_le. lia. Qed.

Lemma regions_of ro rw r :
  booted papa_segments ro rw r → length (flash_region_ctrl r) = 4%nat → length (flash_region_size r) = 4%nat →
  let self := init papa_segments (new r) in let info := get_runtime_segment_info self in let regs := registers self in
  nth 2 (flash_region_ctrl regs) 0 = REGION_CTRL_ALL ∧ nth 3 (flash_region_ctrl regs) 0 = REGION_CTRL_ALL ∧
  nth 2 (flash_region_base_addr regs) 0 = base_of (inactive_ro info) ∧ nth 3 (flash_region_base_addr regs) 0 = base_of (inactive_rw info) ∧
  nth 2 (flash_region_size regs) 0 = seg_size (inactive_ro info) ∧ nth 3 (flash_region_size regs) 0 = seg_size (inactive_rw info) ∧
  0 <= seg_size (inactive_ro info) ∧ 0 <= seg_size (inactive_rw info).
Proof.
  intros (Hro & Hrw & Hl & H0 & H1) Hc Hs. destruct r as [? ? ? f b z]. cbn [flash_region_base_addr flash_region_ctrl flash_region_size] in *.
  do 5 (destruct b as [| ? b]; try discriminate). do 5 (destruct f as [| ? f]; try discriminate). do 5 (destruct z as [| ? z]; try discriminate).
  cbn in H0, H1. subst. destruct Hro as [-> | ->], Hrw as [-> | ->]; cbv zeta; split_and!; try reflexivity; vm_compute; discriminate.
Qed.

(** The segments of the board in numbers. *)
Ltac papa_layout :=
  change (other papa_segments (ro_a papa_segments)) with (ro_b papa_segments); change (other papa_segments (ro_b papa_segments)) with (ro_a papa_segments);
  change (other papa_segments (rw_a papa_segments)) with (rw_b papa_segments); change (other papa_segments (rw_b papa_segments)) with (rw_a papa_segments);
  change (base_of (ro_a papa_segments)) with 0x40000; change (base_of (rw_a papa_segments)) with 0x44000;
  change (base_of (ro_b papa_segments)) with 0x80000; change (base_of (rw_b papa_segments)) with 0x84000;
  change (seg_size (ro_a papa_segments)) with 0x4000; change (seg_size (rw_a papa_segments)) with 0x3c000;
  change (seg_size (ro_b papa_segments)) with 0x4000; change (seg_size (rw_b papa_segments)) with 0x3c000.

(** C40: The regions that papa opens for the inactive images are one address too long: it writes
    the size of a segment, not the last offset, into the size register.  An address can be
    written exactly when it is in an inactive segment or the first one behind one.  So a
    running image is protected from writes only when both running images are the images A;
    otherwise the first address of a running image can be written. *)
Theorem papa_regions_one_too_long (ro rw : SegmentInfo) (r : GsRegisters) :
  booted papa_segments ro rw r → length (flash_region_ctrl r) = 4%nat → length (flash_region_size r) = 4%nat →
  let self := init papa_segments (new r) in
  let info := get_runtime_segment_info self in
  (∀ a, papa_writable (registers self) a = true ↔
     in_segment (inactive_ro info) a ∨ in_segment (inactive_rw info) a ∨
     a = base_of (inactive_ro info) + seg_size (inactive_ro info) ∨ a = base_of (inactive_rw info) + seg_size (inactive_rw info)) ∧
  ((∃ a, papa_writable (registers self) a = true ∧ (in_segment ro a ∨ in_segment rw a)) ↔
     ¬ (ro = ro_a papa_segments ∧ rw = rw_a papa_segments)).
Proof.
  intros Hb Hc Hs self info.
  assert (Hexact : ∀ a, papa_writable (registers self) a = true ↔
     in_segment (inactive_ro info) a ∨ in_segment (inactive_rw info) a ∨
     a = base_of (inactive_ro info) + seg_size (inactive_ro info) ∨ a = base_of (inactive_rw info) + seg_size (inactive_rw info)).
  { intros a. subst self info. unfold papa_writable.
    destruct (regions_of ro rw r Hb Hc Hs) as (-> & -> & -> & -> & -> & -> & Hro & Hrw). cbv zeta in Hro, Hrw.
    rewrite orb_true_iff, !open_region. unfold in_segment. lia. }
  split; [exact Hexact |]. setoid_rewrite Hexact. subst info self. unfold get_runtime_segment_info, new.
  rewrite (proj1 (papa_init ro rw r UNKNOWN_RUNTIME_SEGMENT_INFO Hb)). cbn [inactive_ro inactive_rw].
  destruct Hb as ([-> | ->] & [-> | ->] & _); papa_layout; unfold in_segment; papa_layout.
  - split; [intros (a & ? & ?); lia | by intros []].
  - split; [by intros _ [_ ?] | intros _; exists 0x84000; lia].
  - split; [by intros _ [? _] | intros _; exists 0x44000; lia].
  - split; [by intros _ [? _] | intros _; exists 0x80000; lia].
Qed.

(** The images B of both segments are running: the update was installed. *)
Lemma papa_regions_one_too_long_witness :
  let r := mk_GsRegisters [] [] [] [0; 0; 0; 0] [0x80000; 0x84000; 0; 0] [0x4000; 0x3c000; 0; 0] in
  let self := init papa_segments (new r) in
  papa_writable (registers self) (base_of (ro_b papa_segments)) = true ∧
  ∃ a, papa_writable (registers self) a = true ∧ (in_segment (ro_b papa_segments) a ∨ in_segment (rw_b papa_segments) a).
Proof.
  intros r self. assert (Hb : booted papa_segments (ro_b papa_segments) (rw_b papa_segments) r) by (repeat split; by right).
  destruct (papa_regions_one_too_long _ _ r Hb eq_refl eq_refl) as [H1 H2]. split.
  - apply H1. right. right. right. reflexivity.
  - apply H2. intros [H _]. discriminate H.
Defined.

End RegionFacts.

(** ** The pins of the golf2 board *)

Definition LED_0 : PinId := (false, 0%nat).
Definition SW1 : PinId := (false, 1%nat).

(** The statements of [reset_handler] that set up the pins, in their order. *)
Definition golf2_pins : list (GPIO.t → GPIO.t) :=
  let mux f := GPIO.on_pinmux f in
  let pulled p := mux (set_pad_control p (Z.lor (Z.shiftl 1 2) (Z.shiftl 1 4))) in
  [mux (set_pad_select Dioa11 (gpio_function LED_0));
   mux (set_gpio_select SW1 Diom2); mux (set_pad_select Diom2 (gpio_function SW1)); pulled Diom2;
   mux (set_pad_select Diob1 Function_Uart0Tx); pulled Diob6; mux (set_uart0_rx Diob6)].

Definition golf2_setup (s : GPIO.t) : GPIO.t := foldl (λ s f, f s) s golf2_pins.

Module Golf2PinFacts.
Import GPIO GpioFacts.

(** The set-up changes the state of no pin: nothing that was an input drives a line after
    it.  The switch is connected to its pad in both directions and pulled up, the pad of the
    light shows its pin, and the console has its two pads. *)
Theorem golf2_pins_connected s :
  let s' := golf2_setup s in
  (∀ x, pin_state x s' = pin_state x s ∧ driven x s' = driven x s) ∧
  get_pinmux_pin SW1 s' = Some Diom2 ∧ pad_select (pinmux s') Diom2 = gpio_function SW1 ∧ floating_state SW1 s' = PullUp ∧
  pad_select (pinmux s') Dioa11 = gpio_function LED_0 ∧ pad_select (pinmux s') Diob1 = Function_Uart0Tx ∧ uart0_rx (pinmux s') = Diob6.
Proof.
  intros s'. assert (Hp : ∀ x, pin_state x s' = pin_state x s) by done.
  split; [intros x; rewrite !driven_pin, Hp; done |]. split_and!; reflexivity.
Qed.

End Golf2PinFacts.
