(* ===== verification/PapaStart.v ===== *)
(** The start-up of the papa board (kernel/papa/src/main.rs, [reset_handler] up to the
    loading of processes), over the drivers that have their own models.

    The drivers of the chip share the power-management unit; each is given its present
    registers when it is called.  Capsules start with no process in their grants.  The
    set-up of the UART and SPI multiplexers is Tock's: the class [Components], with the
    documented effect as [ComponentLaws].  The flash driver, the multiplexer and the flash
    system calls start as their [new] makes them (FlashHil, VirtualFlash, FlashSyscalls).
    Messages are written as [core::fmt] writes them, in pieces. *)

From S2P Require Import Prelude Io Wire FlashProto FirmwareProto Tock FlashHw GlobalSec FlashSyscalls Registers SpiHw SpiHwFacts.
From S2P Require Import SpiSyscall Digest Info Dcrypto SpiHost Aes Uart Gpio Timer.
From Stdlib Require Import ZArith Lia.
From stdpp Require Import base decidable option list list_numbers strings pretty.

#[local] Open Scope Z_scope.

Definition bytes_of (s : string) : list Z := Z.of_nat ∘ Ascii.nat_of_ascii <$> String.list_ascii_of_string s.

(** The registers of the chip at reset. *)
Record Silicon := mk_Silicon {
  si_pmu : Pmu.t;
  si_counters : list Timeus.Counter;
  si_gpio : GPIO.t;
  si_sha : ShaRegisters;
  si_aes : AesRegisters;
  si_dcrypto : DReg → Z;
  si_int_reads : list Z;
  si_dmem : list Z;
  si_imem : list Z;
  si_spi_host : HostRegisters;
  si_spi_device : Registers;
  si_fuse : FuseRegisters;
  si_globalsec : GsRegisters
}.

(** What Tock's components do to the drivers that they are created on. *)
Class Components := {
  uart_mux_component : UART.t → UART.t;
  spi_mux_component : SpiHostHardware.t → SpiHostHardware.t
}.

Class ComponentLaws `{Components} := {
  uart_mux_law s : ∃ n, uart_mux_component s = UART.set_clients true true (UART.set_nco n s);
  spi_mux_law s : spi_mux_component s = SpiHostHardware.set_client s
}.

(** The drivers of the board when the kernel starts its main loop. *)
Record Papa (C : Type) := mk_Papa {
  p_pmu : Pmu.t;
  p_boot_tics : Z;
  p_gpio : GPIO.t;
  p_uart : UART.t;
  p_timels : Timels.t;
  p_digest : DigestDriver.t ShaEngine.t;
  p_aes : AesDriver.t;
  p_dcrypto : DcryptoDriver.t;
  p_trng : Trng.t C;
  p_spi_host : SpiHostSyscall.t;
  p_spi_device : SpiDeviceSyscall.t;
  p_fuse : InfoCapsule FuseRegisters;
  p_globalsec : InfoCapsule GlobalSecHardware.t;
  p_reset : InfoCapsule ResetImpl.t
}.
Arguments mk_Papa {C}. Arguments p_pmu {C}. Arguments p_boot_tics {C}. Arguments p_gpio {C}. Arguments p_uart {C}.
Arguments p_timels {C}. Arguments p_digest {C}. Arguments p_aes {C}. Arguments p_dcrypto {C}. Arguments p_trng {C}.
Arguments p_spi_host {C}. Arguments p_spi_device {C}. Arguments p_fuse {C}. Arguments p_globalsec {C}. Arguments p_reset {C}.

Section Papa.
Context `{RegisterInterface} {C : Type} `{Components}.

(** [Writer::write_str], for the pieces of a message one after the other. *)
Definition print (pieces : list (list Z)) (u : UART.t) : option UART.t :=
  foldl (λ u p, u ← u; UART.send_bytes_sync FIFO_DEPTH p u) (Some u) pieces.

Definition boot_message (tics : Z) : list (list Z) :=
  [bytes_of "Tock: booted in "; bytes_of (pretty tics); bytes_of " tics; initializing USB and loading processes." ++ [10]].

(** The statements for each driver, in the order of the source. *)

Definition start_timer (pmu : Pmu.t) (counters : list Timeus.Counter) : option (Pmu.t * list Timeus.Counter * Z) :=
  let pmu := Pmu.enable (Bank1 TimeLs0) (Pmu.enable (Bank1 TimeUs0Timer) pmu) in
  counters ← Timeus.start 0 counters;
  start ← Timeus.now 0 counters;
  Some (pmu, counters, start).

Definition start_uart (pmu : Pmu.t) : UART.t := UART.config 115200 (uart_mux_component (UART.new Uart0Timer pmu)).

Definition start_timels : Timels.t := Timels.set_alarm_client Timels.new.

Definition start_digest (r : ShaRegisters) : DigestDriver.t ShaEngine.t := DigestDriver.new (ShaEngine.new r) (λ _, None).

Definition start_aes (r : AesRegisters) : AesDriver.t :=
  (AesDriver.initialize (replicate AES128_BLOCK_SIZE 0) (AesDriver.new (AesEngine.set_client (AesEngine.new r)) (λ _, None))).2.

Definition start_dcrypto (r : DReg → Z) (int_reads dmem imem : list Z) (pmu : Pmu.t) : DcryptoDriver.t :=
  let engine := (DcryptoEngine.initialize (DcryptoEngine.new r int_reads dmem imem pmu)).2 in
  DcryptoDriver.new (DcryptoEngine.set_client engine).

Definition start_trng (entropy_to_random : C) : Trng.t C := Trng.set_client entropy_to_random (Trng.init Trng.new).

Definition start_spi_host (r : HostRegisters) : SpiHostSyscall.t :=
  SpiHostSyscall.new (spi_mux_component (SpiHostHardware.init (SpiHostHardware.new r))) (λ _, false).

Definition start_spi_device (r : Registers) : SpiDeviceSyscall.t :=
  SpiDeviceSyscall.new (SpiDeviceHardware.set_client true (SpiDeviceHardware.init papa_config (SpiDeviceHardware.new r))) (λ _, None).

Definition start_fuse (r : FuseRegisters) : InfoCapsule FuseRegisters := mk_Info r (λ _, None) None.

Definition start_globalsec (r : GsRegisters) : InfoCapsule GlobalSecHardware.t :=
  mk_Info (GlobalSecHardware.init papa_segments (GlobalSecHardware.new r)) (λ _, None) None.

Definition start_reset (pmu : Pmu.t) : InfoCapsule ResetImpl.t := mk_Info (ResetImpl.init (ResetImpl.new pmu)) (λ _, None) None.

(** [elapsed]: how often the counter ticks during the start-up; [entropy_to_random]: the
    client of the random number generator. *)
Definition papa_reset_handler (elapsed : nat) (entropy_to_random : C) (si : Silicon) : option (Papa C) :=
  '(pmu, counters, start) ← start_timer (si_pmu si) (si_counters si);
  let pmu := Pmu.enable (Bank0 Gpio0) pmu in
  let gpio := papa_setup (si_gpio si) in
  let uart := start_uart pmu in
  let dcrypto := start_dcrypto (si_dcrypto si) (si_int_reads si) (si_dmem si) (si_imem si) pmu in
  let pmu := DcryptoEngine.pmu (DcryptoDriver.device dcrypto) in
  let reset := start_reset pmu in
  let pmu := ResetImpl.pmu (info_device reset) in
  end_ ← Timeus.now 0 (Nat.iter elapsed Timeus.tick counters);
  let tics := u32 (end_ - start) in
  uart ← print (boot_message tics) (UART.set_pmu pmu uart);
  Some (mk_Papa (UART.pmu uart) tics gpio uart start_timels (start_digest (si_sha si)) (start_aes (si_aes si)) dcrypto
          (start_trng entropy_to_random) (start_spi_host (si_spi_host si)) (start_spi_device (si_spi_device si))
          (start_fuse (si_fuse si)) (start_globalsec (si_globalsec si)) reset).

End Papa.

Module PapaStartFacts.

(** A write to the unit switched the clock on. *)
Definition switched_on (k : PeripheralClock) (l : list (PmuReg * Z)) : Prop :=
  match k with
  | Bank0 c => (peripheral_clocks0_enable, shl1 (clock0_u32 c)) ∈ l
  | Bank1 c => (peripheral_clocks1_enable, shl1 (clock1_u32 c)) ∈ l
  end.

Lemma enable_on k p : switched_on k (Pmu.writes (Pmu.enable k p)).
Proof. destruct k; cbn; apply elem_of_app; right; by apply list_elem_of_singleton. Qed.
Lemma write_on r v k p : switched_on k (Pmu.writes p) → switched_on k (Pmu.writes (Pmu.write r v p)).
Proof. destruct k; cbn; intros ?; apply elem_of_app; by left. Qed.
Lemma other_on k' k p : switched_on k (Pmu.writes p) → switched_on k (Pmu.writes (Pmu.enable k' p)).
Proof. destruct k'; apply write_on. Qed.

Lemma reset_on k p : switched_on k (Pmu.writes p) → switched_on k (Pmu.writes (Pmu.reset_dcrypto p)).
Proof. intros Hk. unfold Pmu.reset_dcrypto. by repeat apply write_on. Qed.

Ltac clocks := repeat first [apply reset_on | apply (enable_on (Bank1 Uart0Timer)) | apply enable_on | apply other_on | apply write_on].

Section Facts.
Context `{RI : RegisterInterface} `{!RegisterLaws} {C : Type} `{ComponentLaws}.

Lemma enable_settings u v : UartFacts.settings u = UartFacts.settings v → UartFacts.settings (UART.enable_tx u) = UartFacts.settings (UART.enable_tx v).
Proof. destruct u, v. unfold UartFacts.settings. cbn. intros [=]. by subst. Qed.

Lemma iter_settings n u v : UartFacts.settings u = UartFacts.settings v →
  UartFacts.settings (Nat.iter n UART.enable_tx u) = UartFacts.settings (Nat.iter n UART.enable_tx v).
Proof. intros E. induction n as [| n IH]; [done |]. by apply enable_settings. Qed.

(** A message is on the wire, whole and in order, when [print] returns; each piece has
    switched the transmitter on. *)
Lemma print_ok pieces u : UART.tx_fifo u = [] →
  ∃ u', print pieces u = Some u' ∧ UART.line u' = UART.line u ++ concat pieces ∧ UART.tx_fifo u' = [] ∧
    UartFacts.settings u' = UartFacts.settings (Nat.iter (length pieces) UART.enable_tx u).
Proof.
  revert u. induction pieces as [| b pieces IH]; intros u Hf.
  - exists u. by rewrite app_nil_r.
  - destruct (UartFacts.send_sync_delivers b u) as (u1 & E1 & Hl1 & Hf1); [rewrite Hf; simpl; lia |].
    destruct (IH u1 Hf1) as (u' & E & Hl & Hf' & Hs). exists u'. split_and!; [| | done |].
    + unfold print in *. cbn [foldl mbind option_bind]. change FIFO_DEPTH with 32%nat in *. by rewrite E1.
    + rewrite Hl, Hl1, Hf. simpl. by rewrite <- app_assoc.
    + rewrite Hs. cbn [length]. rewrite Nat.iter_succ_r. apply iter_settings. by eapply UartFacts.send_sync_settings.
Qed.

(** What the chip guarantees at reset: the first counter exists and is at zero, no pin of the
    first port drives its line, the AES engine is idle, the SPI controllers have their
    memories, the boot ROM has entered the running images. *)
Record at_reset (ro rw : SegmentInfo) (si : Silicon) : Prop := mk_at_reset {
  ar_counter : ∃ c, si_counters si !! 0%nat = Some c ∧ Timeus.current_value c = 0 ∧ Timeus.current_divider_value c = 0;
  ar_pins : ∀ x, x.1 = false → GPIO.is_output x (si_gpio si) = false;
  ar_aes : wfifo (si_aes si) = [] ∧ (4 <= wfifo_depth (si_aes si))%nat ∧ int_state (si_aes si) = 0;
  ar_spi_host : length (SpiHost.tx_fifo (si_spi_host si)) = 128%nat ∧ length (SpiHost.rx_fifo (si_spi_host si)) = 128%nat ∧
                is_set TXDONE (hreg (si_spi_host si) host_istate) = false;
  ar_spi_device : SpiHwFacts.wf (si_spi_device si);
  ar_images : GlobalSecFacts.booted papa_segments ro rw (si_globalsec si)
}.

(** The UART with the message of the start-up on the wire: [pmu0] and [pmu1] are the
    power-management unit when the UART is set up and when the message is printed. *)
Lemma uart_boots pmu0 pmu1 tics :
  ∃ u, print (boot_message tics) (UART.set_pmu pmu1 (start_uart pmu0)) = Some u ∧ UART.line u = concat (boot_message tics) ∧ UART.tx_fifo u = [] ∧
    UART.tx_buffer u = None ∧ UART.tx_client u = true ∧ UART.nco u = 5033 ∧ Z.testbit (UART.control u) 0 = true ∧
    ∀ k, k = Bank1 Uart0Timer ∨ switched_on k (Pmu.writes pmu1) → switched_on k (Pmu.writes (UART.pmu u)).
Proof.
  destruct (uart_mux_law (UART.new Uart0Timer pmu0)) as [n0 Hu].
  set (u0 := UART.set_pmu pmu1 _). destruct (print_ok (boot_message tics) u0) as (u' & Ep & Hl & Hf & Hset).
  { subst u0. unfold start_uart. by rewrite Hu. }
  change (length _) with 3%nat in Hset. set (u3 := Nat.iter 3 _ _) in Hset. unfold UartFacts.settings in Hset. injection Hset as Hnco Hctl _ Hpmu _ Htb _ Htc _ _.
  subst u0 u3. unfold start_uart in *. rewrite Hu in *. exists u'.
  split_and!; [exact Ep | exact Hl | exact Hf | exact Htb | exact Htc | exact Hnco | by rewrite Hctl |].
  rewrite Hpmu. intros k [-> | Hk]; [apply (enable_on (Bank1 Uart0Timer)) |].
  set (on := Pmu.enable (Bank1 Uart0Timer)). change (UART.pmu _) with (on (on (on pmu1))). by do 3 apply (other_on (Bank1 Uart0Timer)).
Qed.

Lemma aes_start_ok r : wfifo r = [] → (4 <= wfifo_depth r)%nat → int_state r = 0 →
  AesFacts.driver_ok (start_aes r).
Proof.
  intros Hw Hd Hi. split; [| intros id a E; discriminate E]. cbn. unfold AesEngine.pending. split_and!; try done. cbn. by rewrite Hi.
Qed.

Lemma spi_device_start r : SpiHwFacts.wf r →
  let d := SpiDeviceSyscall.device (start_spi_device r) in
  SpiDeviceHardware.get_address_mode d = ThreeByte ∧ SpiDeviceHardware.client d = true ∧
  is_set EXT_FLASH_DIS (reg (SpiDeviceHardware.registers d) eeprom_ctrl) = true ∧ is_set RAM_DIS (reg (SpiDeviceHardware.registers d) eeprom_ctrl) = true.
Proof.
  intros Hwf. destruct (init_state papa_config (SpiDeviceHardware.new r) Hwf) as (Ha & _ & _ & _ & He & Hr & _).
  unfold start_spi_device. generalize dependent (SpiDeviceHardware.init papa_config (SpiDeviceHardware.new r)). intros d Ha He Hr. by split_and!.
Qed.

Lemma host_init_idle r : length (SpiHost.tx_fifo r) = 128%nat → length (SpiHost.rx_fifo r) = 128%nat →
  is_set TXDONE (hreg r host_istate) = false → SpiHostFacts.idle (SpiHostHardware.set_client (SpiHostHardware.init (SpiHostHardware.new r))).
Proof.
  intros Ht Hr Hd. unfold SpiHostFacts.idle, SpiHostFacts.wf. split_and!; [done | done | exact Hd | | done | done].
  change (hreg _ host_xact) with (field_sum [field_clear START; field_val BCNT 7; field_val SIZE 0; field_clear RDY_POLL; field_val RDY_POLL_DLY 0]).
  unfold is_set, field_set, field_clear.
  rewrite field_sum_concrete, !(field_val_concrete (RI := RI)), (field_read_concrete (RI := RI)). reflexivity.
Qed.


End Facts.
End PapaStartFacts.

Module PapaStartWitnesses.
Import TockBits PapaStartFacts.

#[local] Instance tock_components : Components :=
  {| uart_mux_component s := UART.set_clients true true (UART.config 115200 s); spi_mux_component := SpiHostHardware.set_client |}.
#[local] Instance tock_component_laws : ComponentLaws.
Proof. split; [intros s; eexists; reflexivity | reflexivity]. Defined.

(** A chip that was reset by software, running the images A. *)
Definition sample_silicon : Silicon :=
  mk_Silicon (Pmu.mk (λ r, if decide (r = reset_source_reg) then 0x20 else 0) []) [Timeus.mk_Counter false 0 0 0 0] GpioWitnesses.reset_state
    (mk_Sha 0 0 [] [] 0 false [] None) (mk_Aes 0 [] [] [] 0 [] 0 0 false 4) (λ _, 0) [] [] []
    (mk_HostRegisters (λ _, 0) (replicate 128 0) (replicate 128 0)) blank_registers (mk_FuseRegisters 1 2) GlobalSecFacts.sample_registers.


End PapaStartWitnesses.
