(* ===== verification/Golf2Start.v ===== *)
(** The start-up of the golf2 board (kernel/golf2/src/main.rs, [reset_handler] up to the
    loading of processes), over the drivers that have their own models.

    The statements that golf2 has in common with papa (timer, UART, alarm, digest, AES,
    coprocessor, random numbers) are those of PapaStart.  The flash is the device that the
    flash driver implements; the counter and the personality share its multiplexer, which
    the personality holds.  Capsules start with no process in their grants. *)

From S2P Require Import Prelude Io Tock FlashHil NvCounter NvDevice NvSyscall VirtualFlash FlashSyscalls Registers.
From S2P Require Import UsbTypes Usb UsbFacts UsbDevice U2f Personality Digest Info Dcrypto Aes Uart Gpio Timer Board PapaStart.
From Stdlib Require Import ZArith Lia.
From stdpp Require Import base decidable option list list_numbers.

#[local] Open Scope Z_scope.
#[local] Existing Instance Golf2.personality_flash.

(** The registers of the chip at reset; [gs_memory] is the memory behind the addresses of
    the flash regions. *)
Record GolfSilicon := mk_GolfSilicon {
  gs_pmu : Pmu.t;
  gs_counters : list Timeus.Counter;
  gs_gpio : GPIO.t;
  gs_sha : ShaRegisters;
  gs_aes : AesRegisters;
  gs_dcrypto : DReg → Z;
  gs_int_reads : list Z;
  gs_dmem : list Z;
  gs_imem : list Z;
  gs_flash : Z → Z;
  gs_usb : UReg → Z;
  gs_usb_reads : list Z;
  gs_memory : Start.Memory
}.

(** The drivers of the board when the kernel starts its main loop. *)
Record Golf (C : Type) := mk_Golf {
  g_pmu : Pmu.t;
  g_boot_tics : Z;
  g_gpio : GPIO.t;
  g_uart : UART.t;
  g_timels : Timels.t;
  g_digest : DigestDriver.t ShaEngine.t;
  g_aes : AesDriver.t;
  g_dcrypto : DcryptoDriver.t;
  g_nvcounter : NvCounterSyscall.t (FlashCounter.t unit);
  g_u2f_usb : USB.t U2fSyscallDriver;
  g_rng : Trng.t C;
  g_personality : PersonalitySyscall.t (MuxFlash.t Dev);
  g_memory : Start.Memory
}.
Arguments mk_Golf {C}. Arguments g_pmu {C}. Arguments g_boot_tics {C}. Arguments g_gpio {C}. Arguments g_uart {C}.
Arguments g_timels {C}. Arguments g_digest {C}. Arguments g_aes {C}. Arguments g_dcrypto {C}. Arguments g_nvcounter {C}.
Arguments g_u2f_usb {C}. Arguments g_rng {C}. Arguments g_personality {C}. Arguments g_memory {C}.

(** The buffers of the USB driver (kernel/h1/src/usb/mod.rs). *)
Definition EP0_OUT_DESCRIPTORS : list DMADescriptor := replicate 2 (mk_DMADescriptor HOST_BUSY Null).
Definition EP0_IN_DESCRIPTORS : list DMADescriptor := replicate 4 (mk_DMADescriptor HOST_BUSY Null).
Definition EP0_OUT_BUFFERS : list (list Z) := replicate 2 (replicate 16 0).
Definition EP0_IN_BUFFER : list Z := replicate (16 * 4) 0.
Definition EP1_OUT_DESCRIPTOR : DMADescriptor := mk_DMADescriptor HOST_BUSY Null.
Definition EP1_IN_DESCRIPTOR : DMADescriptor := mk_DMADescriptor HOST_BUSY Null.
Definition EP1_OUT_BUFFER : list Z := replicate 16 0.
Definition EP1_IN_BUFFER : list Z := replicate 16 0.
Definition CONFIGURATION_BUFFER : list Z := replicate 64 0.

Section Golf.
Context `{RegisterInterface} {C : Type} `{Components}.

(** The multiplexer, with the counter linked as its user. *)
Definition start_flash (m : Z → Z) : MuxFlash.t Dev :=
  (MuxFlash.user_set_client Golf2.COUNTER_USER (MuxFlash.new (mk_Dev m None))).2.

Definition start_nvcounter : NvCounterSyscall.t (FlashCounter.t unit) :=
  NvCounterSyscall.new (FlashCounter.set_client (FlashCounter.new [0] tt)) [].

(** [set_flash], [set_buffer] and [set_client] of the personality, then its user is linked. *)
Definition start_personality (flash_mux : MuxFlash.t Dev) : PersonalitySyscall.t (MuxFlash.t Dev) :=
  let d := PersonalityDriver.set_client (PersonalityDriver.set_buffer (replicate 512 0) (PersonalityDriver.set_flash flash_mux PersonalityDriver.new)) in
  PersonalitySyscall.new (PersonalityDriver.on_flash (MuxFlash.user_set_client Golf2.PERSONALITY_USER) d).2 (λ _, None).

Definition start_u2f (r : UReg → Z) (reads : list Z) : USB.t U2fSyscallDriver :=
  USB.set_u2f_client (Some (U2fSyscallDriver_new [])) (USB.new r reads).

Definition init_usb : K (USB.t U2fSyscallDriver) unit :=
  USB.init EP0_OUT_DESCRIPTORS EP0_OUT_BUFFERS EP0_IN_DESCRIPTORS EP0_IN_BUFFER EP1_OUT_DESCRIPTOR EP1_OUT_BUFFER EP1_IN_DESCRIPTOR
    EP1_IN_BUFFER CONFIGURATION_BUFFER PhyA None (Some 0x18d1) (Some 0x5026) GOLF2_STRINGS.

(** [elapsed]: how often the counter ticks during the start-up; [entropy_to_random]: the
    client of the random number generator. *)
Definition golf2_reset_handler (elapsed : nat) (entropy_to_random : C) (si : GolfSilicon) : option (Golf C) :=
  '(pmu, counters, start) ← start_timer (gs_pmu si) (gs_counters si);
  let pmu := Pmu.enable (Bank0 Gpio0) pmu in
  let gpio := golf2_setup (gs_gpio si) in
  let uart := start_uart pmu in
  let flash_mux := start_flash (gs_flash si) in
  let dcrypto := start_dcrypto (gs_dcrypto si) (gs_int_reads si) (gs_dmem si) (gs_imem si) pmu in
  let pmu := DcryptoEngine.pmu (DcryptoDriver.device dcrypto) in
  let memory := Golf2Regions.open_regions (gs_memory si) in
  end_ ← Timeus.now 0 (Nat.iter elapsed Timeus.tick counters);
  let tics := u32 (end_ - start) in
  uart ← print (boot_message tics) (UART.set_pmu pmu uart);
  match init_usb (start_u2f (gs_usb si) (gs_usb_reads si)) with
  | (Ok _, usb) =>
      Some (mk_Golf (UART.pmu uart) tics gpio uart start_timels (start_digest (gs_sha si)) (start_aes (gs_aes si)) dcrypto start_nvcounter usb
              (start_trng entropy_to_random) (start_personality flash_mux) memory)
  | _ => None
  end.

End Golf.

Module Golf2StartFacts.
Import PapaStartFacts.
Section Facts.
Context `{RI : RegisterInterface} `{!RegisterLaws} {C : Type} `{ComponentLaws}.

(** What the chip guarantees at reset. *)
Record golf_at_reset (si : GolfSilicon) : Prop := mk_golf_at_reset {
  gr_counter : ∃ c, gs_counters si !! 0%nat = Some c ∧ Timeus.current_value c = 0 ∧ Timeus.current_divider_value c = 0;
  gr_aes : wfifo (gs_aes si) = [] ∧ (4 <= wfifo_depth (gs_aes si))%nat ∧ int_state (gs_aes si) = 0
}.

(** A user of the multiplexer that is linked and has nothing to do. *)
Definition linked_user : FlashUser := mk_FlashUser None 0 0 OpIdle true.

Lemma golf2_usb_starts r reads :
  ∃ usb s, init_usb (start_u2f r reads) = (Ok tt, usb) ∧ USB.u2f_client usb = Some (U2fSyscallDriver_new []) ∧
    USB.usb_reset usb = (Ok tt, s) ∧ good s ∧ USB.state s = WaitingForSetupPacket ∧ device_address s = 0 ∧
    settings s = (0, 0x18d1, 0x5026, Some (CONFIGURATION ++ replicate 23 0), 41, Some GOLF2_STRINGS).
Proof.
  destruct (init_wf (C := U2fSyscallDriver) (Some (U2fSyscallDriver_new [])) r reads EP0_OUT_DESCRIPTORS EP0_OUT_BUFFERS EP0_IN_DESCRIPTORS
    EP0_IN_BUFFER EP1_OUT_DESCRIPTOR EP1_OUT_BUFFER EP1_IN_DESCRIPTOR EP1_IN_BUFFER CONFIGURATION_BUFFER PhyA None (Some 0x18d1) (Some 0x5026)
    GOLF2_STRINGS) as (usb & E & Hwf & Hs & Hc); [split; by_compute || reflexivity|].
  destruct (usb_reset_good usb Hwf) as (s & E2 & Hg & _ & Hst & Hda & Hs2).
  exists usb, s. split_and!; [exact E|exact Hc|exact E2|exact Hg|exact Hst|exact Hda|]. rewrite Hs2, Hs. reflexivity.
Qed.

(** The flash behind the multiplexer, with both users linked and nothing to do. *)
Definition flash_ready (m : Z → Z) (x : MuxFlash.t Dev) : Prop :=
  MuxFlash.driver x = mk_Dev m None ∧ MuxFlash.users x = [Golf2.PERSONALITY_USER; Golf2.COUNTER_USER] ∧ MuxFlash.in_flight x = None ∧
  MuxFlash.node x Golf2.PERSONALITY_USER = linked_user ∧ MuxFlash.node x Golf2.COUNTER_USER = linked_user.


End Facts.
End Golf2StartFacts.

Module Golf2StartWitnesses.
Import TockBits Golf2StartFacts.

#[local] Instance golf2_components : Components :=
  {| uart_mux_component s := UART.set_clients true true (UART.config 115200 s); spi_mux_component := SpiHost.SpiHostHardware.set_client |}.
#[local] Instance golf2_component_laws : ComponentLaws.
Proof. split; [intros s; eexists; reflexivity | reflexivity]. Defined.

Definition sample_golf : GolfSilicon :=
  mk_GolfSilicon (Pmu.mk (λ _, 0) []) [Timeus.mk_Counter false 0 0 0 0] GpioWitnesses.reset_state (mk_Sha 0 0 [] [] 0 false [] None)
    (mk_Aes 0 [] [] [] 0 [] 0 0 false 4) (λ _, 0) [] [] [] (λ _, 0xFFFFFFFF) (λ _, 0) [] (λ _, 0).


End Golf2StartWitnesses.
