(* ===== verification/OtGpio.v ===== *)
(** The reset lines of the host processor: otpilot's GPIO and alarm clients
    (userspace/otpilot/src/gpio.rs, gpio_control.rs, alarm.rs), its GPIO and
    console processors (gpio_processor.rs, console_processor.rs), the SPI host
    helper they use (spi_host_helper.rs, spi_host_h1.rs), and the branches of the
    main loop that run them.

    Every call that leaves the application is an entry of the history [hist]; the
    environment answers it with a value or an error, as a function of the history.
    A transfer of the SPI host is one call, with the bytes written and the length.
    Callbacks of the kernel run where the application yields: while it waits for
    a transfer and while it prints. *)

From S2P Require Import Prelude Io Wire FlashProto Tock FlashSyscalls.
From Stdlib Require Import ZArith Lia.
From stdpp Require Import base decidable option list list_numbers.

#[local] Open Scope Z_scope.

Definition usize_max : Z := 0xFFFFFFFF.
Definition usize_min : Z := 0.

(** ** Calls and state *)

(** The callbacks that the application has subscribed. *)
Inductive upcall := GpioUpcall (gpio_num : Z) | AlarmUpcall (id : Z).

Inductive call :=
| Command (driver num arg1 arg2 : Z)
| Subscribe (driver num : Z)
| HostTransfer (bytes : list Z) (len : nat)
| DeviceSetMode (m : AddressMode)
| ResetChip
| ReadBuildInfo (segment : nat).

#[global] Instance call_eq_dec : EqDecision call.
Proof. solve_decision. Defined.

(** [None] is an error. *)
Definition Env : Type := list call → call → option Z.

Record Events := mk_Events { count : Z }.

Record st := mk_st {
  hist : list call;
  num_gpios : Z;
  events : list (option Events);
  clock_frequency : Z;
  alarm_id : option Z;
  alarm_expired_ : bool;
  ignore_bmc_rstmon_n_events : bool;
  initial_address_mode : AddressMode;
  alarm_ticks : Z;
  address_mode : AddressMode
}.

Definition set_hist (h : list call) (s : st) : st :=
  mk_st h (num_gpios s) (events s) (clock_frequency s) (alarm_id s) (alarm_expired_ s) (ignore_bmc_rstmon_n_events s)
    (initial_address_mode s) (alarm_ticks s) (address_mode s).
Definition set_events (e : list (option Events)) (s : st) : st :=
  mk_st (hist s) (num_gpios s) e (clock_frequency s) (alarm_id s) (alarm_expired_ s) (ignore_bmc_rstmon_n_events s)
    (initial_address_mode s) (alarm_ticks s) (address_mode s).
Definition set_num (n : Z) (s : st) : st :=
  mk_st (hist s) n (events s) (clock_frequency s) (alarm_id s) (alarm_expired_ s) (ignore_bmc_rstmon_n_events s)
    (initial_address_mode s) (alarm_ticks s) (address_mode s).
Definition set_clock (f : Z) (s : st) : st :=
  mk_st (hist s) (num_gpios s) (events s) f (alarm_id s) (alarm_expired_ s) (ignore_bmc_rstmon_n_events s)
    (initial_address_mode s) (alarm_ticks s) (address_mode s).
Definition set_alarm_id (i : option Z) (s : st) : st :=
  mk_st (hist s) (num_gpios s) (events s) (clock_frequency s) i (alarm_expired_ s) (ignore_bmc_rstmon_n_events s)
    (initial_address_mode s) (alarm_ticks s) (address_mode s).
Definition set_expired (b : bool) (s : st) : st :=
  mk_st (hist s) (num_gpios s) (events s) (clock_frequency s) (alarm_id s) b (ignore_bmc_rstmon_n_events s)
    (initial_address_mode s) (alarm_ticks s) (address_mode s).
Definition set_ignore (b : bool) (s : st) : st :=
  mk_st (hist s) (num_gpios s) (events s) (clock_frequency s) (alarm_id s) (alarm_expired_ s) b
    (initial_address_mode s) (alarm_ticks s) (address_mode s).
Definition set_mode (m : AddressMode) (s : st) : st :=
  mk_st (hist s) (num_gpios s) (events s) (clock_frequency s) (alarm_id s) (alarm_expired_ s) (ignore_bmc_rstmon_n_events s)
    (initial_address_mode s) (alarm_ticks s) m.

Abbreviation G := (M st TockError).

Section App.
(** [during h]: the callbacks that run at a yield after the calls [h]. *)
Context (env : Env) (during : list call → list upcall).

(** A call with [?]. *)
Definition sys (c : call) : G Z := λ s,
  match env (hist s) c with
  | Some v => (Ok v, set_hist (hist s ++ [c]) s)
  | None => (Err mk_TockError, set_hist (hist s ++ [c]) s)
  end.

(** ** gpio.rs *)

Inductive GpioValue := Low | High.
Inductive FloatingState := PullNone | PullUp | PullDown.
Inductive InterruptEdge := EitherEdge | RisingEdge | FallingEdge.

Definition MAX_GPIOS : nat := 4.
Definition GPIO : Z := 0x00004.
Definition COUNT : Z := 0.
Definition ENABLE_OUTPUT : Z := 1.
Definition SET : Z := 2.
Definition CLEAR : Z := 3.
Definition TOGGLE : Z := 4.
Definition ENABLE_INPUT : Z := 5.
Definition READ : Z := 6.
Definition INTERRUPT_ENABLE : Z := 7.
Definition INTERRUPT_DISABLE : Z := 8.
Definition DISABLE : Z := 9.

Definition floating_state_usize (f : FloatingState) : Z := match f with PullNone => 0 | PullUp => 1 | PullDown => 2 end.
Definition interrupt_edge_usize (e : InterruptEdge) : Z := match e with EitherEdge => 0 | RisingEdge => 1 | FallingEdge => 2 end.

(** The methods of [Events]; [consume] and [clear] return the count before. *)
Definition events_add (e : Events) : Events :=
  if count e <? usize_max - 1 then mk_Events (count e + 1) else e.
Definition events_consume (e : Events) : Z * Events :=
  (count e, if usize_min <? count e then mk_Events (count e - 1) else e).
Definition events_clear (e : Events) : Z * Events := (count e, mk_Events usize_min).
Definition events_has_any (e : Events) : bool := usize_min <? count e.

(** [for idx in 0..min(num_gpios, events.len()) { events[idx] = Some(Default::default()) }] *)
Definition default_events (n : nat) (l : list (option Events)) : list (option Events) :=
  replicate n (Some (mk_Events 0)) ++ drop n l.

Definition with_events {A} (gpio_num : Z) (default : A) (f : Events → A * Events) (s : st) : A * st :=
  if Z.of_nat (length (events s)) <=? gpio_num then (default, s)
  else
    match nth (Z.to_nat gpio_num) (events s) None with
    | Some e => let '(a, e) := f e in (a, set_events (<[Z.to_nat gpio_num := Some e]> (events s)) s)
    | None => (default, s)
    end.

(** The callback of the kernel: [callback] and [add_event]. *)
Definition gpio_callback (gpio_num : Z) (s : st) : st :=
  snd (with_events gpio_num tt (λ e, (tt, events_add e)) s).

Definition enable_output (gpio_num : Z) : G unit := sys (Command GPIO ENABLE_OUTPUT gpio_num 0) ;; mret tt.
Definition enable_input (gpio_num : Z) (f : FloatingState) : G unit :=
  sys (Command GPIO ENABLE_INPUT gpio_num (floating_state_usize f)) ;; mret tt.
Definition enable_events (gpio_num : Z) (e : InterruptEdge) : G unit :=
  sys (Command GPIO INTERRUPT_ENABLE gpio_num (interrupt_edge_usize e)) ;; mret tt.
Definition gpio_write (gpio_num : Z) (v : GpioValue) : G unit :=
  match v with
  | High => sys (Command GPIO SET gpio_num 0)
  | Low => sys (Command GPIO CLEAR gpio_num 0)
  end ;; mret tt.
Definition disable (gpio_num : Z) : G unit := sys (Command GPIO DISABLE gpio_num 0) ;; mret tt.
Definition toggle (gpio_num : Z) : G unit := sys (Command GPIO TOGGLE gpio_num 0) ;; mret tt.
Definition gpio_read (gpio_num : Z) : G GpioValue :=
  v ← sys (Command GPIO READ gpio_num 0);
  if v =? 0 then mret Low else if v =? 1 then mret High else throw mk_TockError.
Definition disable_events (gpio_num : Z) (e : InterruptEdge) : G unit :=
  sys (Command GPIO INTERRUPT_DISABLE gpio_num (interrupt_edge_usize e)) ;; mret tt.
Definition has_event (gpio_num : Z) (s : st) : bool := fst (with_events gpio_num false (λ e, (events_has_any e, e)) s).
Definition gpio_consume_event (gpio_num : Z) : G bool := λ s,
  let '(b, s) := with_events gpio_num false (λ e, let '(n, e) := events_consume e in (0 <? n, e)) s in (Ok b, s).
Definition gpio_clear_event (gpio_num : Z) : G bool := λ s,
  let '(b, s) := with_events gpio_num false (λ e, let '(n, e) := events_clear e in (0 <? n, e)) s in (Ok b, s).

(** ** gpio_control.rs *)

Inductive GpioPin := BMC_SRST_N | BMC_CPU_RST_N | SYS_RSTMON_N | BMC_RSTMON_N.

#[global] Instance GpioPin_eq_dec : EqDecision GpioPin.
Proof. solve_decision. Defined.

Definition pin_usize (p : GpioPin) : Z :=
  match p with BMC_SRST_N => 0 | BMC_CPU_RST_N => 1 | SYS_RSTMON_N => 2 | BMC_RSTMON_N => 3 end.

Definition pin_try_from (item : Z) : option GpioPin :=
  match item with
  | 0 => Some BMC_SRST_N | 1 => Some BMC_CPU_RST_N | 2 => Some SYS_RSTMON_N | 3 => Some BMC_RSTMON_N
  | _ => None
  end.

Definition control_initialize : G unit :=
  enable_output (pin_usize BMC_SRST_N) ;;
  enable_output (pin_usize BMC_CPU_RST_N) ;;
  enable_input (pin_usize SYS_RSTMON_N) PullNone ;;
  enable_events (pin_usize SYS_RSTMON_N) RisingEdge ;;
  enable_input (pin_usize BMC_RSTMON_N) PullNone ;;
  enable_events (pin_usize BMC_RSTMON_N) RisingEdge.

Definition have_events (s : st) : bool :=
  has_event (pin_usize SYS_RSTMON_N) s || has_event (pin_usize BMC_RSTMON_N) s.
Definition consume_event (p : GpioPin) : G bool := gpio_consume_event (pin_usize p).
Definition clear_event (p : GpioPin) : G bool := gpio_clear_event (pin_usize p).
Definition control_set (p : GpioPin) (v : GpioValue) : G unit := gpio_write (pin_usize p) v.

(** ** alarm.rs *)

Definition ALARM : Z := 0x00000.
Definition CHECK_IF_PRESENT : Z := 0.
Definition GET_CLOCK_FREQUENCY : Z := 1.
Definition STOP_ALARM : Z := 3.
Definition SET_RELATIVE_ALARM : Z := 5.

Definition alarm_initialize : G unit :=
  sys (Command ALARM CHECK_IF_PRESENT 0 0) ;;
  f ← sys (Command ALARM GET_CLOCK_FREQUENCY 0 0);
  modify (set_clock f) ;;
  sys (Subscribe ALARM 0) ;;
  mret tt.

(** The callback of the kernel. *)
Definition alarm_callback (id : Z) (s : st) : st :=
  match alarm_id s with
  | Some i => if i =? id then set_expired true s else s
  | None => s
  end.

Definition alarm_set (ticks : Z) : G unit :=
  modify (set_expired false) ;;
  modify (set_alarm_id None) ;;
  id ← sys (Command ALARM SET_RELATIVE_ALARM ticks 0);
  modify (set_alarm_id (Some id)).

Definition is_expired (s : st) : bool := bool_decide (is_Some (alarm_id s)) && alarm_expired_ s.

Definition alarm_clear : G unit :=
  expired ← gets alarm_expired_;
  if expired : bool then modify (set_expired false) ;; modify (set_alarm_id None)
  else
    id ← gets alarm_id;
    match id with
    | Some i => sys (Command ALARM STOP_ALARM i 0) ;; modify (set_alarm_id None)
    | None => mret tt
    end.

(** ** spi_host_h1.rs and spi_host_helper.rs *)

Definition SPI_HOST_H1 : Z := 0x40020.
Definition ENABLE_DISABLE_PASSTHROUGH : Z := 1.

Definition set_passthrough (enabled : bool) : G unit :=
  sys (Command SPI_HOST_H1 ENABLE_DISABLE_PASSTHROUGH (if enabled then 1 else 0) 0) ;; mret tt.

Definition ENABLE_DISABLE_WAIT_BUSY_CLEAR_IN_TRANSACTIONS : Z := 2.
Definition set_wait_busy_clear_in_transactions (enabled : bool) : G unit :=
  sys (Command SPI_HOST_H1 ENABLE_DISABLE_WAIT_BUSY_CLEAR_IN_TRANSACTIONS (if enabled then 1 else 0) 0) ;; mret tt.
Definition host_initialize : G unit := sys (Command SPI_HOST_H1 CHECK_IF_PRESENT 0 0) ;; mret tt.

(** [yieldk()]: callbacks run. *)
Definition upcall_run (s : st) (u : upcall) : st :=
  match u with GpioUpcall n => gpio_callback n s | AlarmUpcall id => alarm_callback id s end.
Definition yieldk : G unit := modify (λ s, foldl upcall_run s (during (hist s))).

(** [GpioImpl::initialize]; the warning that there are too many GPIOs yields. *)
Definition gpio_initialize : G unit :=
  n ← sys (Command GPIO COUNT 0 0);
  modify (set_num n) ;;
  len ← gets (λ s, Z.of_nat (length (events s)));
  (if len <? n then yieldk else mret tt) ;;
  modify (λ s, set_events (default_events (Nat.min (Z.to_nat n) (length (events s))) (events s)) s) ;;
  sys (Subscribe GPIO 0) ;;
  mret tt.

(** [read_write_bytes(..)?; wait_read_write_done();] *)
Definition transfer (bytes : list Z) (len : nat) : G unit := sys (HostTransfer bytes len) ;; yieldk.

Definition enter_4b : G unit := transfer [0xb7] 1.
Definition exit_4b : G unit := transfer [0xe9] 1.

Definition HOST_BUFFER : nat := 128.

(** [create_tx_buf]: the buffer; its result is the constant 5. *)
Definition create_tx_buf (cmd addr : Z) : list Z :=
  cmd :: be_bytes 4 addr ++ replicate (HOST_BUFFER - 5) 0xff.

Definition read_data (addr : Z) (rx_len : nat) : G unit :=
  transfer (create_tx_buf 0x03 addr) (5 + rx_len).

Definition read_and_print_data (addr : Z) : G unit := read_data addr 8 ;; yieldk.

(** ** gpio_processor.rs *)

Definition ALARM_MSECS : Z := 62.
Definition MSECS_IN_SEC : Z := 1000.

(** [GpioProcessor::new] *)
Definition new (s : st) : st :=
  mk_st (hist s) (num_gpios s) (events s) (clock_frequency s) (alarm_id s) (alarm_expired_ s) false
    (address_mode s) (u32 (clock_frequency s * ALARM_MSECS / MSECS_IN_SEC)) (address_mode s).

Definition set_alarm : G unit :=
  modify (set_ignore true) ;;
  ticks ← gets alarm_ticks;
  alarm_set ticks.

Definition set_bmc_cpu_rst (asserted : bool) : G unit :=
  if asserted then control_set BMC_CPU_RST_N Low
  else control_set BMC_CPU_RST_N High ;; set_alarm.

Definition set_bmc_srst (asserted : bool) : G unit :=
  if asserted then control_set BMC_SRST_N Low
  else control_set BMC_SRST_N High ;; set_alarm.

(** [spi_device::get().set_address_mode(mode)] *)
Definition device_set_mode (m : AddressMode) : G unit := sys (DeviceSetMode m) ;; modify (set_mode m).

Definition handle_bmc_rstmon : G unit :=
  set_bmc_cpu_rst true ;;
  set_passthrough false ;;
  enter_4b ;;
  read_and_print_data 0 ;;
  mode ← gets initial_address_mode;
  match mode with ThreeByte => exit_4b | FourByte => enter_4b end ;;
  device_set_mode mode ;;
  set_passthrough true ;;
  clear_event BMC_RSTMON_N ;;
  set_bmc_cpu_rst false.

Definition process_gpio_events : G unit :=
  bmc_rstmon_n ← consume_event BMC_RSTMON_N;
  (if bmc_rstmon_n : bool then
     ignore ← gets ignore_bmc_rstmon_n_events;
     if ignore : bool then yieldk else yieldk ;; handle_bmc_rstmon
   else mret tt) ;;
  sys_rstmon_n ← consume_event SYS_RSTMON_N;
  if sys_rstmon_n : bool then yieldk else mret tt.

Definition alarm_expired : G unit := yieldk ;; modify (set_ignore false) ;; alarm_clear.

(** ** console_processor.rs *)

Definition process_input (data : list Z) : G unit :=
  match data with
  | [] => mret tt
  | c :: _ =>
      if c =? 63 (* '?' *) then yieldk
      else if c =? 49 (* '1' *) then yieldk ;; set_bmc_cpu_rst true
      else if c =? 33 (* '!' *) then yieldk ;; set_bmc_cpu_rst false
      else if c =? 50 (* '2' *) then yieldk ;; set_bmc_srst true
      else if c =? 64 (* '@' *) then yieldk ;; set_bmc_srst false
      else if c =? 105 (* 'i' *) then
        sys (ReadBuildInfo 0) ;; yieldk ;; sys (ReadBuildInfo 1) ;; yieldk ;;
        sys (ReadBuildInfo 2) ;; yieldk ;; sys (ReadBuildInfo 3) ;; yieldk
      else if c =? 82 (* 'R' *) then yieldk ;; sys ResetChip ;; panic
      else mret tt
  end.

(** ** main.rs: the console, GPIO and alarm branches of the loop *)

(** An error is only printed. *)
Definition ignore_error (m : G unit) : G unit := λ s,
  match m s with (Err _, s) => yieldk s | r => r end.

Definition console_branch (data : option (list Z)) : G unit :=
  match data with Some d => ignore_error (process_input d) | None => mret tt end.

Definition gpio_branch : G unit := λ s,
  if have_events s then ignore_error process_gpio_events s else (Ok tt, s).

Definition alarm_branch : G unit := λ s,
  if is_expired s then ignore_error alarm_expired s else (Ok tt, s).

End App.

(** ** Facts *)

Module GpioFacts.

Section Facts.
Context (env : Env) (during : list call → list upcall).

(** Callbacks touch the event counters and the expiry flag only. *)
Definition upcall_frame (s s' : st) : Prop :=
  hist s' = hist s ∧ num_gpios s' = num_gpios s ∧ clock_frequency s' = clock_frequency s ∧ alarm_id s' = alarm_id s ∧
  ignore_bmc_rstmon_n_events s' = ignore_bmc_rstmon_n_events s ∧ initial_address_mode s' = initial_address_mode s ∧
  alarm_ticks s' = alarm_ticks s ∧ address_mode s' = address_mode s ∧ length (events s') = length (events s).

#[export] Instance upcall_frame_preorder : PreOrder upcall_frame.
Proof.
  split; [by intros s|]. intros a b c (? & ? & ? & ? & ? & ? & ? & ? & ?) (? & ? & ? & ? & ? & ? & ? & ? & ?).
  unfold upcall_frame. split_and!; congruence.
Qed.

Lemma with_events_frame {A} n (d : A) f s : upcall_frame s (with_events n d f s).2.
Proof.
  unfold with_events. destruct (_ <=? n); [done|]. destruct (nth _ _ _) as [e|]; [|done].
  destruct (f e) as [a e']. unfold upcall_frame. cbn. rewrite length_insert. by split_and!.
Qed.

Lemma upcall_run_frame s u : upcall_frame s (upcall_run s u).
Proof.
  destruct u as [n|id]; [apply with_events_frame|]. cbn [upcall_run]. unfold alarm_callback.
  destruct (alarm_id s) as [i|] eqn:E; [|done]. destruct (i =? id); [|done]. by split_and!.
Qed.

Lemma yieldk_ok s : ∃ s', yieldk during s = (Ok tt, s') ∧ upcall_frame s s'.
Proof.
  eexists. split; [reflexivity|]. generalize (during (hist s)) as us. intros us. revert s.
  induction us as [|u us IH]; intros s; [done|]. cbn [foldl]. etrans; [apply upcall_run_frame|apply IH].
Qed.

End Facts.

(** ** What the calls do to the board *)

(** The reset line of the host processor, whether the SPI passthrough is enabled, and
    the address modes of the external flash and of the SPI device port. *)
Record board := mk_board { cpu_held : bool; passthrough : bool; flash_mode : AddressMode; port_mode : AddressMode }.

Definition effect (c : call) (b : board) : board :=
  match c with
  | Command drv num arg1 _ =>
      if (drv =? GPIO) && (num =? SET) && (arg1 =? 1) then mk_board false (passthrough b) (flash_mode b) (port_mode b)
      else if (drv =? GPIO) && (num =? CLEAR) && (arg1 =? 1) then mk_board true (passthrough b) (flash_mode b) (port_mode b)
      else if (drv =? SPI_HOST_H1) && (num =? ENABLE_DISABLE_PASSTHROUGH)
      then mk_board (cpu_held b) (negb (arg1 =? 0)) (flash_mode b) (port_mode b)
      else b
  | HostTransfer [cmd] _ =>
      if cmd =? 0xb7 then mk_board (cpu_held b) (passthrough b) FourByte (port_mode b)
      else if cmd =? 0xe9 then mk_board (cpu_held b) (passthrough b) ThreeByte (port_mode b)
      else b
  | DeviceSetMode m => mk_board (cpu_held b) (passthrough b) (flash_mode b) m
  | _ => b
  end.

(** The states of the board while calls are made after [pre]; a call that fails
    has no effect. *)
Fixpoint boards (env : Env) (pre new : list call) (b : board) : list board :=
  match new with
  | [] => [b]
  | c :: new' => b :: boards env (pre ++ [c]) new' match env pre c with Some _ => effect c b | None => b end
  end.

Definition final (env : Env) (pre new : list call) (b : board) : board := default b (last (boards env pre new b)).

(** The processor can run only while the passthrough is enabled. *)
Definition isolated_ok (b : board) : Prop := passthrough b = false → cpu_held b = true.

Lemma boards_app env pre n1 n2 b :
  boards env pre (n1 ++ n2) b =
  take (length n1) (boards env pre n1 b) ++ boards env (pre ++ n1) n2 (final env pre n1 b).
Proof.
  revert pre b. induction n1 as [|c n1 IH]; intros pre b; [by rewrite app_nil_r|].
  cbn [app boards length]. rewrite firstn_cons, <-app_comm_cons, IH. f_equal.
  rewrite <-(assoc_L (++)). f_equal. unfold final. cbn [boards].
  assert (∀ pre n b, boards env pre n b ≠ []) as Hne by (by intros ? []). rewrite last_cons.
  destruct (last (boards _ _ n1 _)) eqn:E; [done|]. apply last_None in E. by apply Hne in E.
Qed.

Lemma final_app env pre n1 n2 b : final env pre (n1 ++ n2) b = final env (pre ++ n1) n2 (final env pre n1 b).
Proof.
  unfold final at 1. rewrite boards_app, last_app. unfold final at 2.
  destruct (last (boards env (pre ++ n1) n2 _)) eqn:E; [done|]. apply last_None in E. by destruct n2.
Qed.

(** Hoare triples about the calls made: [P] is the state and board before, [Q] after a
    return, [E] after an error, which a call that failed has caused; the board satisfies [isolated_ok] all along. *)
Section Triples.
Context (env : Env) (during : list call → list upcall).

Definition assertion : Type := st → board → Prop.

Definition triple {A} (P : assertion) (m : G A) (Q : A → assertion) (E : assertion) : Prop :=
  ∀ s b, P s b → isolated_ok b →
    ∃ new, hist (m s).2 = hist s ++ new ∧ Forall isolated_ok (boards env (hist s) new b) ∧
      match (m s).1 with
      | Ok a => Q a (m s).2 (final env (hist s) new b)
      | Err _ => E (m s).2 (final env (hist s) new b) ∧ (∃ h c, env h c = None)
      | Panic => False
      end.

Lemma triple_pure {A} P (m : G A) (Q : A → assertion) E :
  (∀ s b, P s b → ∃ a s', m s = (Ok a, s') ∧ hist s' = hist s ∧ Q a s' b) → triple P m Q E.
Proof.
  intros Hm s b HP Hi. destruct (Hm s b HP) as (a & s' & E1 & Hh & HQ). exists []. rewrite E1. cbn [fst snd].
  rewrite app_nil_r. split_and!; [done|by repeat constructor|done].
Qed.

Lemma final_held pre new b : Forall isolated_ok (boards env pre new b) → isolated_ok (final env pre new b).
Proof.
  intros Hf. unfold final. destruct (last (boards env pre new b)) eqn:E; [|apply last_None in E; by destruct new].
  apply last_Some in E as [l E]. rewrite E in Hf. apply Forall_app in Hf as [_ Hf]. by apply Forall_cons in Hf as [? _].
Qed.

Lemma triple_bind {A B} P (m : G A) R (f : A → G B) Q E :
  triple P m R E → (∀ a, triple (R a) (f a) Q E) → triple P (m ≫= f) Q E.
Proof.
  intros Hm Hf s b HP Hi. destruct (Hm s b HP Hi) as (n1 & Hh & Hb & Hr). rewrite bind_unfold.
  destruct (m s) as [[a|e|] s1]; cbn [fst snd] in *; [|by exists n1|done].
  destruct (Hf a s1 _ Hr (final_held _ _ _ Hb)) as (n2 & Hh2 & Hb2 & Hr2). exists (n1 ++ n2).
  rewrite Hh in *. rewrite <-(assoc_L (++)) in Hh2. split_and!; [done| |by rewrite final_app].
  rewrite boards_app. apply Forall_app. split; [by apply Forall_take|done].
Qed.

Lemma triple_sys P c (Q : Z → assertion) (E : assertion) :
  (∀ s b h, P s b → isolated_ok b → isolated_ok (effect c b) ∧ (∀ v, Q v (set_hist h s) (effect c b)) ∧ E (set_hist h s) b) →
  triple P (sys env c) Q E.
Proof.
  intros Hc s b HP Hi. destruct (Hc s b (hist s ++ [c]) HP Hi) as (Ho & HQ & HE). exists [c]. unfold sys, final. cbn [boards].
  destruct (env (hist s) c) eqn:Ec; cbn; (split; [done|split; [by repeat constructor|]]); by eauto.
Qed.

Lemma triple_yield P (Q : unit → assertion) E :
  (∀ s s' b, P s b → upcall_frame s s' → Q tt s' b) → triple P (yieldk during) Q E.
Proof.
  intros Hc. apply triple_pure. intros s b HP. destruct (yieldk_ok during s) as (s' & E1 & Hf).
  exists tt, s'. split_and!; [done|apply Hf|by eapply Hc].
Qed.

Lemma triple_weaken {A} P P' (m : G A) (Q : A → assertion) E :
  triple P' m Q E → (∀ s b, P s b → P' s b) → triple P m Q E.
Proof. intros Hm Hp s b HP. by apply Hm, Hp. Qed.

Lemma clear_no_event n s : has_event n (gpio_clear_event n s).2 = false ∧ (gpio_clear_event n s).1 ≠ Panic ∧
  upcall_frame s (gpio_clear_event n s).2.
Proof.
  split; [|split].
  - unfold gpio_clear_event, has_event, with_events. destruct (Z.of_nat (length (events s)) <=? n) eqn:El; cbn [snd fst].
    { by rewrite El. }
    destruct (nth (Z.to_nat n) (events s) None) as [e|] eqn:En; cbn [snd fst events_clear].
    + cbn [events set_events]. rewrite length_insert, El.
      apply Z.leb_gt in El. destruct (decide (Z.to_nat n < length (events s))%nat) as [Hlt|].
      * erewrite nth_lookup_Some by (by apply list_lookup_insert_eq). done.
      * exfalso. destruct (decide (0 <= n)); [lia|]. rewrite nth_overflow in En by lia. done.
    + by rewrite El, En.
  - unfold gpio_clear_event. by destruct (with_events _ _ _ s).
  - pose proof (with_events_frame n false (λ e, let '(c, e) := events_clear e in (0 <? c, e)) s) as Hf.
    unfold gpio_clear_event. by destruct (with_events _ _ _ s).
Qed.

(** The stages of [handle_bmc_rstmon]. *)
Definition held (m : AddressMode) (pass : option bool) (fm pm : option AddressMode) : assertion := λ s b,
  initial_address_mode s = m ∧ cpu_held b = true ∧ (∀ p, pass = Some p → passthrough b = p) ∧
  (∀ x, fm = Some x → flash_mode b = x) ∧ (∀ x, pm = Some x → port_mode b = x ∧ address_mode s = x).

Definition failed (b0 : board) : assertion := λ s b,
  b = b0 ∨ cpu_held b = true ∨
  (cpu_held b = false ∧ passthrough b = true ∧ ignore_bmc_rstmon_n_events s = true ∧ alarm_id s = None).

Definition released (m : AddressMode) : assertion := λ s b,
  cpu_held b = false ∧ passthrough b = true ∧ flash_mode b = m ∧ port_mode b = m ∧ address_mode s = m ∧
  ignore_bmc_rstmon_n_events s = true ∧ is_Some (alarm_id s) ∧ is_expired s = false ∧
  has_event (pin_usize BMC_RSTMON_N) s = false.

Lemma held_yield m p f q (Q : unit → assertion) E :
  (∀ s b, held m p f q s b → Q tt s b) → triple (held m p f q) (yieldk during) Q E.
Proof.
  intros HQ. apply triple_yield. intros s s' b (H1 & H2 & H3 & H4 & H5) (_ & _ & _ & _ & _ & F1 & _ & F2 & _).
  apply HQ. unfold held. rewrite F1, F2. split_and!; done.
Qed.

Lemma held_transfer m p f f' q bytes len b0 :
  (∀ b, effect (HostTransfer bytes len) b =
        mk_board (cpu_held b) (passthrough b) (default (flash_mode b) f') (port_mode b)) →
  triple (held m p f q) (transfer env during bytes len)
    (λ _, held m p (match f' with Some x => Some x | None => f end) q) (failed b0).
Proof.
  intros Heff. unfold transfer. eapply triple_bind.
  - apply (triple_sys _ _ (λ _, held m p (match f' with Some x => Some x | None => f end) q)).
    intros s b h (H1 & H2 & H3 & H4 & H5) Hi. rewrite Heff. unfold isolated_ok, held, failed. cbn. split_and!; try done.
    + intros _. split_and!; try done. intros x Hx. destruct f' as [y|]; [by simplify_eq|by apply H4].
    + by right; left.
  - intros ?. apply held_yield. done.
Qed.

Lemma sys_unit P c (Q E : assertion) : triple P (sys env c) (λ _, Q) E → triple P (sys env c ;; mret tt) (λ _, Q) E.
Proof. intros Hc. eapply triple_bind; [exact Hc|]. intros ?. apply triple_pure. intros s b HP. by exists tt, s. Qed.

Lemma has_event_events n s s' : events s' = events s → has_event n s' = has_event n s.
Proof.
  intros He. unfold has_event, with_events. rewrite He. destruct (_ <=? n); [done|].
  by destruct (nth _ _ _).
Qed.

(** Splits a postcondition whose parts are hypotheses up to fields that were not set. *)
Ltac settle := repeat split; first [done | erewrite has_event_events; done | tauto | by eexists].

Abbreviation settled m b :=
  (cpu_held b = false ∧ passthrough b = true ∧ flash_mode b = m ∧ port_mode b = m).

Lemma set_alarm_triple m b0 :
  triple (λ s b, settled m b ∧ address_mode s = m ∧ has_event (pin_usize BMC_RSTMON_N) s = false)
    (set_alarm env) (λ _, released m) (failed b0).
Proof.
  unfold set_alarm, alarm_set. set (P := λ s b, settled m b ∧ address_mode s = m ∧
    has_event (pin_usize BMC_RSTMON_N) s = false ∧ ignore_bmc_rstmon_n_events s = true).
  eapply triple_bind with (R := λ _, P).
  { apply triple_pure. intros s b (H1 & H2 & H3). exists tt, (set_ignore true s). settle. }
  intros ?. eapply triple_bind with (R := λ _, P).
  { apply triple_pure. intros s b HP. by exists (alarm_ticks s), s. }
  intros ticks. set (R' := λ s b, P s b ∧ alarm_expired_ s = false).
  eapply triple_bind with (R := λ _, R').
  { apply triple_pure. intros s b (H1 & H2 & H3 & H4). exists tt, (set_expired false s). settle. }
  intros ?. eapply triple_bind with (R := λ _ s b, R' s b ∧ alarm_id s = None).
  { apply triple_pure. intros s b ((H1 & H2 & H3 & H4) & H5). exists tt, (set_alarm_id None s). settle. }
  intros ?. eapply triple_bind with (R := λ _, R').
  { apply triple_sys. intros s b h [((H1 & H2 & H3 & H4) & H5) Ha] Hi. unfold failed.
    change (effect _ b) with b. split; [done|]. split; [intros _; settle|].
    right; right. settle. }
  intros id. apply triple_pure. intros s b (((H1 & H2 & H3 & H4) & H5 & H6 & H7) & H8). exists tt, (set_alarm_id (Some id) s).
  unfold released, is_expired. cbn. rewrite H8. settle.
Qed.

(** The first half: the processor is held, the passthrough closed, the flash read. *)
Lemma isolate_triple {B} m b0 (k : AddressMode → G B) Q :
  triple (held m (Some false) None None) (k m) Q (failed b0) →
  triple (λ s b, initial_address_mode s = m ∧ b = b0)
    (set_bmc_cpu_rst env true ;; set_passthrough env false ;; enter_4b env during ;;
     read_and_print_data env during 0 ;; mode ← gets initial_address_mode; k mode) Q (failed b0).
Proof.
  intros Hk. eapply triple_bind.
  { apply sys_unit, (triple_sys _ _ (λ _, held m None None None)). intros s b h [Hm ->] Hi.
    unfold isolated_ok, held, failed. cbn. split_and!; try done. by left. }
  intros ?. eapply triple_bind.
  { apply sys_unit, (triple_sys _ _ (λ _, held m (Some false) None None)). intros s b h (H1 & H2 & _) Hi.
    unfold isolated_ok, held, failed. cbn. split_and!; try done; [intros; split_and!; try done; intros; by simplify_eq|by right; left]. }
  intros ?. eapply triple_bind; [by apply (held_transfer m (Some false) None (Some FourByte) None)|].
  intros ?. eapply triple_bind.
  { unfold read_and_print_data, read_data. eapply triple_bind;
      [apply (held_transfer m (Some false) (Some FourByte) None None); intros []; reflexivity|]. intros ?.
    apply (held_yield _ _ _ _ (λ _, held m (Some false) (Some FourByte) None)). done. }
  intros ?. eapply triple_bind.
  { apply (triple_pure _ _ (λ a s b, a = m ∧ held m (Some false) (Some FourByte) None s b)).
    intros s b Hh. exists m, s. unfold gets. destruct Hh as [H1 Hh]. by rewrite H1. }
  intros a' s b [-> (H1 & H2 & H3 & _ & _)]. apply Hk. by split_and!.
Qed.

Lemma handle_triple m b0 :
  triple (λ s b, initial_address_mode s = m ∧ b = b0) (handle_bmc_rstmon env during)
    (λ _, released m) (failed b0).
Proof.
  apply isolate_triple. eapply triple_bind with (R := λ _, held m (Some false) (Some m) None).
  { destruct m; [by apply (held_transfer ThreeByte (Some false) None (Some ThreeByte) None)|
                 by apply (held_transfer FourByte (Some false) None (Some FourByte) None)]. }
  intros ?. eapply triple_bind with (R := λ _, held m (Some false) (Some m) (Some m)).
  { unfold device_set_mode. eapply triple_bind.
    - apply (triple_sys _ _ (λ _ s b, initial_address_mode s = m ∧ cpu_held b = true ∧ passthrough b = false ∧
        flash_mode b = m ∧ port_mode b = m)). intros s b h (H1 & H2 & H3 & H4 & _) Hi.
      unfold isolated_ok, failed. cbn. split_and!; try done; [intros; split_and!; auto|by right; left].
    - intros ?. apply triple_pure. intros s b (H1 & H2 & H3 & H4 & H5). exists tt, (set_mode m s). unfold held. cbn.
      split_and!; try done; intros; by simplify_eq. }
  intros ?. eapply triple_bind with (R := λ _, held m (Some true) (Some m) (Some m)).
  { apply sys_unit, triple_sys. intros s b h (H1 & H2 & _ & H4 & H5) Hi.
    unfold isolated_ok, held, failed. cbn. split_and!; try done; [intros; split_and!; try done; intros; by simplify_eq|by right; left]. }
  intros ?. eapply triple_bind with
    (R := λ _ s b, held m (Some true) (Some m) (Some m) s b ∧ has_event (pin_usize BMC_RSTMON_N) s = false).
  { apply triple_pure. intros s b (H1 & H2 & H3 & H4 & H5). unfold clear_event.
    destruct (clear_no_event (pin_usize BMC_RSTMON_N) s) as (Hn & _ & F0 & _ & _ & _ & _ & F1 & _ & F2 & _).
    unfold gpio_clear_event in *. destruct (with_events _ _ _ s) as [x s']. cbn [fst snd] in *. exists x, s'.
    unfold held. rewrite F1, F2. by split_and!. }
  intros ?. unfold set_bmc_cpu_rst, control_set, gpio_write.
  eapply triple_bind; [|intros ?; apply set_alarm_triple].
  apply sys_unit, triple_sys. intros s b h [(H1 & H2 & H3 & H4 & H5) He] Hi. destruct (H5 m eq_refl) as [H5a H5b].
  unfold isolated_ok, failed. cbn. split_and!; [|intros _; pose proof (H3 _ eq_refl); pose proof (H4 _ eq_refl); settle|by right; left].
  rewrite (H3 true eq_refl). done.
Qed.

(** C13: The response to a reset of the board controller isolates it: whatever the calls
    return and whatever callbacks run meanwhile, the controller is held in reset at every
    moment at which the SPI passthrough is closed; when every call succeeds it is
    released at the end with the passthrough open, the flash chip, the port and the
    application in the initial address mode, the alarm armed and the monitor line's
    events cleared and ignored; after an error, which a failed call has caused, either
    the board is as before or the controller stays in reset, or only the alarm failed. *)
Theorem bmc_held_while_isolated (s : st) (b : board) :
  isolated_ok b →
  ∃ new, hist (handle_bmc_rstmon env during s).2 = hist s ++ new ∧
    Forall isolated_ok (boards env (hist s) new b) ∧
    match handle_bmc_rstmon env during s with
    | (Ok tt, s') => released (initial_address_mode s) s' (final env (hist s) new b)
    | (Err _, s') => failed b s' (final env (hist s) new b) ∧ (∃ h c, env h c = None)
    | (Panic, _) => False
    end.
Proof.
  intros Hi. destruct (handle_triple (initial_address_mode s) b s b) as (new & Hh & Hb & Hr); [done..|].
  exists new. split_and!; [done..|]. by destruct (handle_bmc_rstmon env during s) as [[[]|?|] s'].
Qed.

End Triples.

(** ** The window in which resets are ignored *)

(** What happens between two inputs of the console: callbacks, and the branches of the
    main loop. *)
Inductive occurrence := Callbacks (us : list upcall) | GpioBranch | AlarmBranch.

Definition occur (env : Env) (during : list call → list upcall) (s : st) (o : occurrence) : st :=
  match o with
  | Callbacks us => foldl upcall_run s us
  | GpioBranch => (gpio_branch env during s).2
  | AlarmBranch => (alarm_branch env during s).2
  end.

Definition ignoring (h : list call) (i : option Z) (s : st) : Prop :=
  hist s = h ∧ ignore_bmc_rstmon_n_events s = true ∧ alarm_id s = i.

Section Window.
Context (env : Env) (during : list call → list upcall).

Lemma ignoring_frame h i s s' : ignoring h i s → upcall_frame s s' → ignoring h i s'.
Proof. intros (<- & Hi & <-) (Hh & _ & _ & Ha & Hg & _). unfold ignoring. by rewrite Hh, Ha, Hg. Qed.

Lemma callbacks_frame us s : upcall_frame s (foldl upcall_run s us).
Proof.
  revert s. induction us as [|u us IH]; intros s; [done|]. cbn [foldl]. etrans; [apply upcall_run_frame|apply IH].
Qed.

Lemma consume_frame p s : ∃ x s', consume_event p s = (Ok x, s') ∧ upcall_frame s s'.
Proof.
  unfold consume_event, gpio_consume_event.
  pose proof (with_events_frame (pin_usize p) false (λ e, let '(n, e) := events_consume e in (0 <? n, e)) s) as Hf.
  destruct (with_events _ _ _ s) as [x s']. by exists x, s'.
Qed.

(** While resets are ignored, the GPIO branch only consumes events. *)
Lemma gpio_branch_ignoring s :
  ignore_bmc_rstmon_n_events s = true →
  ∃ s', gpio_branch env during s = (Ok tt, s') ∧ upcall_frame s s'.
Proof.
  intros Hg. unfold gpio_branch. destruct (have_events s); [|by exists s].
  assert (∃ s', process_gpio_events env during s = (Ok tt, s') ∧ upcall_frame s s') as (s' & E & Hf);
    [|exists s'; unfold ignore_error; by rewrite E].
  unfold process_gpio_events. destruct (consume_frame BMC_RSTMON_N s) as (x & s1 & E1 & F1).
  rewrite bind_unfold, E1, bind_unfold.
  assert (∃ s2, (if x : bool then
            ignore ← gets ignore_bmc_rstmon_n_events;
            if ignore : bool then yieldk during else yieldk during ;; handle_bmc_rstmon env during
          else mret tt) s1 = (Ok tt, s2) ∧ upcall_frame s s2) as (s2 & E2 & F2).
  { destruct x; [|by exists s1]. rewrite bind_unfold. unfold gets at 1.
    assert (ignore_bmc_rstmon_n_events s1 = true) as -> by (rewrite <-Hg; apply F1).
    destruct (yieldk_ok during s1) as (s2 & E2 & F2). exists s2. split; [done|by etrans]. }
  rewrite E2, bind_unfold. destruct (consume_frame SYS_RSTMON_N s2) as (y & s3 & E3 & F3). rewrite E3.
  destruct y; [|exists s3; split; [done|by etrans]].
  destruct (yieldk_ok during s3) as (s4 & E4 & F4). exists s4. split; [done|]. by etrans; [etrans|].
Qed.

Lemma occur_ignoring h s o : ignoring h None s → ignoring h None (occur env during s o).
Proof.
  intros Hs. destruct o as [us| |]; cbn [occur].
  - eapply ignoring_frame; [done|apply callbacks_frame].
  - destruct (gpio_branch_ignoring s) as (s' & -> & Hf); [apply Hs|]. by eapply ignoring_frame.
  - unfold alarm_branch, is_expired. destruct Hs as (H1 & H2 & H3). rewrite H3. by split_and!.
Qed.

(** When the alarm cannot be set, resets are ignored. *)
Lemma set_alarm_failed s e s' :
  set_alarm env s = (Err e, s') → ignoring (hist s ++ [Command ALARM SET_RELATIVE_ALARM (alarm_ticks s) 0]) None s'.
Proof.
  unfold set_alarm, alarm_set, sys, gets, modify. rewrite !bind_unfold. cbn. intros Hs.
  destruct (env _ _); cbn in Hs; simplify_eq. done.
Qed.

(** An alarm that cannot be set disables the reset handling: when the call that sets
    the alarm fails, resets stay ignored and, whatever callbacks run and however often the
    loop's GPIO and alarm branches do, no further call is made. *)
Theorem alarm_failure_ignores_forever (s s' : st) (e : TockError) (os : list occurrence) :
  set_alarm env s = (Err e, s') →
  ignore_bmc_rstmon_n_events (foldl (occur env during) s' os) = true ∧
  hist (foldl (occur env during) s' os) = hist s'.
Proof.
  intros Hs. apply set_alarm_failed in Hs. destruct Hs as (Hh & Hs). rewrite Hh. revert Hh Hs. generalize s'.
  induction os as [|o os IH]; intros t Hh Hs; [by destruct Hs|]. cbn [foldl].
  destruct (occur_ignoring _ t o (conj Hh Hs)) as [Hh' Hs']. by apply IH.
Qed.

Lemma upcalls_no_match i us s :
  alarm_id s = Some i → alarm_expired_ s = false → AlarmUpcall i ∉ us →
  alarm_expired_ (foldl upcall_run s us) = false.
Proof.
  revert s. induction us as [|u us IH]; intros s Ha He Hu; [done|]. apply not_elem_of_cons in Hu as [Hu Hus]. cbn [foldl].
  pose proof (upcall_run_frame s u) as Hf. apply IH; [rewrite <-Ha; apply Hf| |done].
  destruct u as [n|j]; cbn [upcall_run].
  - unfold gpio_callback, with_events. destruct (_ <=? n); [done|]. by destruct (nth _ _ _).
  - unfold alarm_callback. rewrite Ha. destruct (i =? j) eqn:E; [|done]. apply Z.eqb_eq in E. by subst.
Qed.

Lemma upcalls_match i us s :
  alarm_id s = Some i → AlarmUpcall i ∈ us ∨ alarm_expired_ s = true →
  alarm_expired_ (foldl upcall_run s us) = true.
Proof.
  revert s. induction us as [|u us IH]; intros s Ha Hu; [destruct Hu as [Hu|]; [by apply elem_of_nil in Hu|done]|].
  cbn [foldl]. pose proof (upcall_run_frame s u) as Hf. apply IH; [rewrite <-Ha; apply Hf|].
  destruct Hu as [Hu|Hu]; [apply elem_of_cons in Hu as [<-|Hu]; [|by left]|].
  - right. cbn [upcall_run]. unfold alarm_callback. by rewrite Ha, Z.eqb_refl.
  - right. destruct u as [n|j]; cbn [upcall_run].
    + unfold gpio_callback, with_events. destruct (_ <=? n); [done|]. by destruct (nth _ _ _).
    + unfold alarm_callback. rewrite Ha. by destruct (i =? j).
Qed.

(** Resets are ignored exactly until the armed alarm fires: callbacks other than that
    of the armed alarm leave the alarm branch idle and the GPIO branch making no call;
    once its callback has run, the alarm branch ends the window, without a call. *)
Theorem ignore_window (i : Z) (us : list upcall) (s : st) :
  ignoring (hist s) (Some i) s → alarm_expired_ s = false →
  let s1 := foldl upcall_run s us in
  (AlarmUpcall i ∉ us →
     alarm_branch env during s1 = (Ok tt, s1) ∧
     ∃ s2, gpio_branch env during s1 = (Ok tt, s2) ∧ ignoring (hist s) (Some i) s2) ∧
  (AlarmUpcall i ∈ us →
     ∃ s2, alarm_branch env during s1 = (Ok tt, s2) ∧ hist s2 = hist s ∧
       ignore_bmc_rstmon_n_events s2 = false ∧ alarm_id s2 = None ∧ is_expired s2 = false).
Proof.
  intros Hs He s1. pose proof (callbacks_frame us s) as Hf. pose proof (ignoring_frame _ _ _ _ Hs Hf) as Hs1.
  fold s1 in Hf, Hs1. split; intros Hu.
  - assert (alarm_expired_ s1 = false) as He1 by (eapply upcalls_no_match; [apply Hs|done..]).
    split; [unfold alarm_branch, is_expired; by rewrite He1, andb_false_r|].
    destruct (gpio_branch_ignoring s1) as (s2 & E2 & F2); [apply Hs1|]. exists s2. split; [done|]. by eapply ignoring_frame.
  - assert (alarm_expired_ s1 = true) as He1 by (eapply upcalls_match; [apply Hs|by left]).
    destruct Hs1 as (Hh1 & Hi1 & Ha1). unfold alarm_branch, is_expired. rewrite Ha1, He1. cbn.
    unfold ignore_error, alarm_expired. rewrite bind_unfold.
    destruct (yieldk_ok during s1) as (s2 & E2 & F2). rewrite E2.
    assert (alarm_expired_ s2 = true) as He2.
    { injection E2 as <-. apply (upcalls_match i); [done|by right]. }
    unfold alarm_clear, gets, modify. rewrite !bind_unfold. cbn. rewrite He2. cbn. eexists. split; [done|]. cbn.
    destruct F2 as (-> & _). by rewrite Hh1.
Qed.

End Window.

(** A board with four GPIOs whose calls succeed, and whose monitor line sees an edge at every yield. *)
Definition calm : Env := λ _ _, Some 7.
Definition ringing : list call → list upcall := λ _, [GpioUpcall 3].
(** The same where the alarm cannot be set. *)
Definition no_alarm : Env := λ _ c, if decide (c = Command ALARM SET_RELATIVE_ALARM 62000 0) then None else Some 7.

Definition start : st :=
  new (mk_st [] 4 (replicate 4 (Some (mk_Events 0))) 1000000 None false true FourByte 0 ThreeByte).

Lemma bmc_held_while_isolated_witness :
  ∃ new, hist (handle_bmc_rstmon calm ringing start).2 = new ∧
    Forall isolated_ok (boards calm [] new (mk_board false true ThreeByte ThreeByte)) ∧
    released ThreeByte (handle_bmc_rstmon calm ringing start).2
      (final calm [] new (mk_board false true ThreeByte ThreeByte)).
Proof.
  destruct (bmc_held_while_isolated calm ringing start (mk_board false true ThreeByte ThreeByte)) as (new & Hh & Hb & Hr);
    [discriminate|].
  exists new. split; [exact Hh|]. split; [exact Hb|].
  assert ((handle_bmc_rstmon calm ringing start).1 = Ok tt) as He by (vm_compute; reflexivity).
  change (initial_address_mode start) with ThreeByte in Hr. change (hist start) with (@nil call) in Hr.
  destruct (handle_bmc_rstmon calm ringing start) as [r s']. cbn [fst snd] in *. rewrite He in Hr. exact Hr.
Defined.

Lemma alarm_failure_ignores_forever_witness :
  let s' := (set_alarm no_alarm start).2 in
  let s2 := foldl (occur no_alarm ringing) s' [Callbacks [GpioUpcall 3; AlarmUpcall 7]; GpioBranch; AlarmBranch; GpioBranch] in
  ignore_bmc_rstmon_n_events s2 = true ∧ hist s2 = hist s'.
Proof.
  apply (alarm_failure_ignores_forever no_alarm ringing start (set_alarm no_alarm start).2 mk_TockError).
  vm_compute. reflexivity.
Defined.

Lemma ignore_window_witness :
  ∃ s2, alarm_branch calm ringing (foldl upcall_run (set_alarm calm start).2 [GpioUpcall 3; AlarmUpcall 7]) = (Ok tt, s2) ∧
    ignore_bmc_rstmon_n_events s2 = false.
Proof.
  destruct (ignore_window calm ringing 7 [GpioUpcall 3; AlarmUpcall 7] (set_alarm calm start).2) as [_ Hw];
    [vm_compute; auto|reflexivity|].
  destruct Hw as (s2 & E & _ & Hi & _); [right; left|]. exists s2. split; [exact E|exact Hi].
Defined.

End GpioFacts.
