(* ===== verification/OtMain.v ===== *)
(** The main loop of the otpilot application (userspace/otpilot/src/main.rs), the
    part that handles a received SPI transaction. *)

From S2P Require Import Prelude Io Wire FlashProto Payload FirmwareProto Tock.
From S2P Require Import FirmwareController SpiProcessor SpiForward SpiSafety.
From Stdlib Require Import ZArith Lia.
From stdpp Require Import base decidable option list list_numbers.

#[local] Open Scope Z_scope.

Import FcFacts SpiProcessor SpFacts.

Section Loop.
Context (env : Env) (fuel : nat).

(** [if spi_device::get().have_transaction() { .. }]: an error of the processor
    is printed, and the transaction is ended here. *)
Definition handle_transaction (rx_buf : list Z) : M st Empty_set unit := λ s,
  match process_spi_packet env fuel rx_buf s with
  | (Ok _, s) => (Ok tt, s)
  | (Err _, s) =>
      if env_busy env (hist s) then
        (* the error of the call is only printed *)
        match svc (FirmwareController.call env (EndWithStatus true false)) s with
        | (Panic, s) => (Panic, s)
        | (_, s) => (Ok tt, s)
        end
      else
        match svc (FirmwareController.tell EndTransaction) s with
        | (Panic, s) => (Panic, s)
        | (_, s) => (Ok tt, s)
        end
  | (Panic, s) => (Panic, s)
  end.

End Loop.

(** ** Facts *)

Section Facts.
Context (env : Env).

(** [m] answers [Ok] only after a call that ends the transaction. *)
Definition ends_ok (m : SP unit) : Prop :=
  ∀ s s', m s = (Ok tt, s') → ∃ h, hist s' = h ++ [EndWithStatus true true].

Lemma ends_bind {A} (m : SP A) (f : A → SP unit) : (∀ a, ends_ok (f a)) → ends_ok (m ≫= f).
Proof. intros Hf s s' (a & s1 & _ & E)%bind_inv. by apply (Hf a s1). Qed.

Lemma ends_status : ends_ok (clear_device_status env true true).
Proof.
  intros s s'. unfold clear_device_status, call_ok, svc, zoom, FirmwareController.call_ok,
    FirmwareController.call, mbind, M_bind.
  destruct (env_ok _ _ _); [|done]. intros [= <-]. by exists (hist s).
Qed.

Lemma ends_throw e : ends_ok (throw e).
Proof. intros s s' [=]. Qed.

Lemma ends_header fuel {t} `{Address t} (h : Header t) rx : ends_ok (process_spi_header env fuel h rx).
Proof.
  apply ends_bind. intros d. unfold get_address.
  destruct (opcode h); try apply ends_throw;
    try (apply ends_bind; intros we; apply ends_bind; intros _; apply ends_status);
    (destruct (address h) as [a|]; [|apply ends_throw]);
    (destruct (is_mailbox_address a); [|apply ends_bind; intros we; apply ends_bind; intros _; apply ends_status]);
    first [apply ends_status|apply ends_bind; intros we; apply ends_bind; intros _; apply ends_status].
Qed.

Lemma ends_packet fuel rx : ends_ok (process_spi_packet env fuel rx).
Proof.
  apply ends_bind. intros []; apply ends_bind; intros [h rest]; apply ends_header.
Qed.

End Facts.

(** A call that ends the transaction. *)
Definition ends_transaction (c : Call) : Prop :=
  match c with
  | EndTransaction | EndWithStatus _ _ => True
  | _ => False
  end.


