(* ===== verification/OtStart.v ===== *)
(** The start of the otpilot application (userspace/otpilot/src/main.rs, up to the loop),
    its console input (userspace/otpilot/src/console_reader.rs) and its adapter to the
    Manticore protocol server (userspace/otpilot/src/manticore_support.rs).

    The application's parts have their own models: the reset lines, the SPI host and the
    alarm (OtGpio), the SPI device port (SpiDevice), the SFDP table (Sfdp), the wire format
    of the build information (FirmwareProto).  What the flash and fuse clients answer is an
    argument, as are the banner, which the build generates, and the protocol server, which
    is a third-party library. *)

From S2P Require Import Prelude Io Wire FlashProto FirmwareProto Tock FlashSyscalls Sfdp SpiProcessor SpiDevice Info OtGpio.
From Stdlib Require Import ZArith Lia.
From stdpp Require Import base decidable option list list_numbers.

#[local] Open Scope Z_scope.

(** ** console_reader.rs *)

Module ConsoleReaderImpl.

Definition MAX_CONSOLE_BUFFER_SIZE : nat := 512.
Definition CHECK_IF_PRESENT : Z := 0.
Definition READ : Z := 2.
Definition ABORT_READ : Z := 3.
Definition READ_DONE : Z := 2.
Definition READ_BUFFER : Z := 2.

Section Reader.
(** The system calls of the console driver. *)
Context {Kn : Type} `{SpiKernel Kn}.

Record t := mk { read_buffer : list Z; read_buffer_share : bool; received_len : nat; kernel : Kn }.

Definition initial (k : Kn) : t := mk (replicate MAX_CONSOLE_BUFFER_SIZE 0) false 0 k.

Definition set_share (b : bool) (s : t) : t := mk (read_buffer s) b (received_len s) (kernel s).
Definition set_received (n : nat) (s : t) : t := mk (read_buffer s) (read_buffer_share s) n (kernel s).
Definition set_kernel (k : Kn) (s : t) : t := mk (read_buffer s) (read_buffer_share s) (received_len s) k.

Definition command (num arg1 : Z) : M t TockError unit := λ s,
  match spi_command num arg1 0 (kernel s) with
  | (Some _, k) => (Ok tt, set_kernel k s)
  | (None, k) => (Err mk_TockError, set_kernel k s)
  end.

Definition allow_buffer : M t TockError unit := λ s,
  match spi_allow READ_BUFFER (read_buffer s) (kernel s) with
  | (true, k) => (Ok tt, set_share true (set_kernel k s))
  | (false, k) => (Err mk_TockError, set_kernel k s)
  end.

Definition subscribe_fn (num : Z) : M t TockError unit := λ s,
  match spi_subscribe num (kernel s) with
  | (true, k) => (Ok tt, set_kernel k s)
  | (false, k) => (Err mk_TockError, set_kernel k s)
  end.

Definition initialize : M t TockError unit := command CHECK_IF_PRESENT 0 ;; subscribe_fn READ_DONE.

Definition allow_read (len : nat) : M t TockError unit :=
  modify (set_share false) ;;
  modify (set_received 0) ;;
  read_len ← gets (λ s, Nat.min (length (read_buffer s)) len);
  allow_buffer ;;
  command READ (Z.of_nat read_len).

Definition abort_read : M t TockError unit := command ABORT_READ 0.

(** The callback; the kernel has put [bytes] into the shared buffer before. *)
Definition read_done (bytes : list Z) (arg2 : nat) (s : t) : t :=
  set_received arg2 (if read_buffer_share s then mk (take (length (read_buffer s)) (bytes ++ drop (length bytes) (read_buffer s))) true (received_len s) (kernel s) else s).

Definition have_data (s : t) : bool := (0 <? received_len s)%nat.

(** [&self.read_buffer[0..len]] *)
Definition get_data : M t TockError (list Z) := s ← gets id; unwrap (slice (read_buffer s) 0 (received_len s)).

End Reader.
Arguments t : clear implicits.
End ConsoleReaderImpl.

(** ** manticore_support.rs *)

Record Identity := mk_Identity { version : list Z; ro_version : list Z; rw_version : list Z; device_id : list Z }.

Module Identity.
Definition vendor_firmware_version (i : Identity) (slot : Z) : option (list Z) :=
  if slot =? 1 then Some (ro_version i) else if slot =? 2 then Some (rw_version i) else None.
Definition firmware_version (i : Identity) : list Z := version i.
Definition unique_device_identity (i : Identity) : list Z := device_id i.
End Identity.

Module Manticore.
Section Handler.
(** The library: headers of a fixed length, and the server, which answers a request by a
    header and data in the buffer it is given, or not at all. *)
Context {MHeader FwErr TwErr SrvErr Server : Type}.
Context (HEADER_LEN : nat) (header_from_wire : list Z → (MHeader * list Z) + FwErr) (header_to_wire : MHeader → list Z + TwErr).
Context (server_process : MHeader → list Z → list Z → Server → (option (MHeader * nat) + SrvErr) * list Z * Server).

Inductive HandlerError := HeFromWire (e : FwErr) | HeToWire (e : TwErr) | HeManticore (e : SrvErr) | HeNoResponse.

Definition Handler : Type := Server * list Z.

(** [process_request(input, output)]: the state is the server and the output buffer. *)
Definition process_request (input : list Z) : M Handler HandlerError nat := λ s,
  let '(srv, output) := s in
  match header_from_wire input with
  | inr e => (Err (HeFromWire e), s)
  | inl (header, input) =>
      if (length output <? HEADER_LEN)%nat then (Panic, s)
      else
        let '(r, data, srv) := server_process header input (drop HEADER_LEN output) srv in
        let output := take HEADER_LEN output ++ data in
        match r with
        | inr e => (Err (HeManticore e), (srv, output))
        | inl None => (Err HeNoResponse, (srv, output))
        | inl (Some (resp_header, resp_data_len)) =>
            match header_to_wire resp_header with
            | inr e => (Err (HeToWire e), (srv, output))
            | inl bytes => (Ok (resp_data_len + HEADER_LEN)%nat, (srv, bytes ++ drop (length bytes) output))
            end
        end
  end.

End Handler.
End Manticore.

(** ** main.rs *)

Definition get_segment_id_string (s : SegmentAndLocation) : list Z :=
  match s with RoA | RoB => [82; 79] | RwA | RwB => [82; 87] | _ => [63] end.

(** [buffer[..max_len].copy_from_slice(&bytes[..max_len])], with the shorter length. *)
Definition put_truncated (bytes buffer : list Z) : list Z :=
  let max_len := Nat.min (length buffer) (length bytes) in copy_at buffer 0 (take max_len bytes).

Module OtStart.
Section Start.
Context {Kn Ck : Type} `{!SpiKernel Kn} `{!SpiKernel Ck}.
(** The answers of the clients of the flash, of the segments and of the fuses. *)
Context (env : Env) (during : list call → list upcall).
Context (banner : list Z) (active_ro active_rw : SegmentInfo) (build_info : SegmentInfo → option BuildInfo) (dev_id : option Z).

Record boot := mk_boot { app : st; port : SpiDeviceImpl.t Kn; console : ConsoleReaderImpl.t Ck }.

Abbreviation B := (M boot TockError).
Definition on_app {A} (m : M st TockError A) : B A := zoom app (λ a b, mk_boot a (port b) (console b)) m.
Definition on_port {A} (m : M (SpiDeviceImpl.t Kn) TockError A) : B A := zoom port (λ p b, mk_boot (app b) p (console b)) m.
Definition on_console {A} (m : M (ConsoleReaderImpl.t Ck) TockError A) : B A := zoom console (λ c b, mk_boot (app b) (port b) c) m.
Definition device_mode : B AddressMode := gets (λ b, SpiDeviceImpl.get_address_mode (port b)).

Definition run_host_helper_demo : B unit :=
  on_app (set_passthrough env false) ;;
  on_app (enter_4b env during) ;;
  on_app (read_and_print_data env during 0) ;;
  mode ← device_mode;
  match mode with ThreeByte => on_app (exit_4b env during) | FourByte => mret tt end.

(** Failures are only printed. *)
Definition store_build_info (segment_info : SegmentInfo) (buf : list Z) : list Z :=
  match build_info segment_info with
  | Some b => (serialize_into b buf).2
  | None => buf
  end.

Definition make_identity : B Identity :=
  let version := put_truncated banner (replicate 32 0) in
  let ro_version := store_build_info active_ro (replicate 32 0) in
  let rw_version := store_build_info active_rw (replicate 32 0) in
  id ← ok_or mk_TockError dev_id;
  mret (mk_Identity version ro_version rw_version (put_truncated (be_bytes 8 id) (replicate 64 0))).

Definition address_config : AddressConfig := mk_AddressConfig 0 0 SPI_FLASH_SIZE SPI_MAILBOX_ADDRESS SPI_FLASH_SIZE.
Definition JEDEC_ID : list Z := [0x26; 0x31; 0x19].

Definition startup_table (mode : AddressMode) : M (list Z) SfdpTableError unit :=
  get_table (u32 (SPI_FLASH_SIZE * 8)) mode (bool_decide (mode = ThreeByte)) SPI_MAILBOX_ADDRESS (Z.of_nat MAX_READ_BUFFER_SIZE) 0.

Definition set_up_sfdp : B unit :=
  mode ← device_mode;
  match startup_table mode (replicate 128 0xff) with
  | (Ok _, sfdp) => on_port (SpiDeviceImpl.set_sfdp sfdp)
  | (Err _, _) => throw mk_TockError
  | (Panic, _) => panic
  end.

(** [let _ = m;] *)
Definition ignore_result (m : B unit) : B unit := λ b, match m b with (Panic, b) => (Panic, b) | (_, b) => (Ok tt, b) end.

(** [GpioProcessor::new] reads the address mode of the device. *)
Definition new_processor : B unit :=
  mode ← device_mode;
  modify (λ b, mk_boot (OtGpio.new (set_mode mode (app b))) (port b) (console b)).

(** [run], up to the passthrough. *)
Definition prepare : B Identity :=
  run_host_helper_demo ;;
  identity ← make_identity;
  new_processor ;;
  on_port (SpiDeviceImpl.set_address_mode_handling HmKernelSpace) ;;
  on_port (SpiDeviceImpl.configure_addresses address_config) ;;
  on_port (SpiDeviceImpl.set_jedec_id JEDEC_ID) ;;
  set_up_sfdp ;;
  on_app (set_passthrough env true) ;;
  mret identity.

Definition release_resets : B unit :=
  ignore_result (on_app (set_bmc_cpu_rst env false)) ;;
  ignore_result (on_app (set_bmc_srst env false)).

(** [run], up to the loop. *)
Definition start : B Identity :=
  identity ← prepare;
  release_resets ;;
  on_console (ConsoleReaderImpl.allow_read 1) ;;
  mret identity.

End Start.
Arguments boot Kn Ck : clear implicits.
End OtStart.

(** ** Facts *)

Module ConsoleFacts.
Import ConsoleReaderImpl.
Section Console.
Context {Kn : Type} `{SpiKernel Kn}.
Implicit Types s : t Kn.
#[local] Arguments Nat.min : simpl never.

(** The kernel takes a buffer and a read of at most its length. *)
Definition console_accepts (k : Kn) (buffer : list Z) (n : nat) : Prop :=
  ∃ k1 k2 v, spi_allow READ_BUFFER buffer k = (true, k1) ∧ spi_command READ (Z.of_nat n) 0 k1 = (Some v, k2).

(** What is typed is what is read. Once [allow_read] has been accepted nothing is
    reported until the kernel calls back; after the callback the data is exactly the bytes
    received, whatever was in the buffer; a further [allow_read] forgets them. When the
    system calls fail, so does [allow_read], and nothing panics. *)
Theorem console_data_received s len bytes :
  length (read_buffer s) = MAX_CONSOLE_BUFFER_SIZE → (length bytes <= Nat.min MAX_CONSOLE_BUFFER_SIZE len)%nat →
  ∃ r s1, allow_read len s = (r, s1) ∧ r ≠ Panic ∧ have_data s1 = false ∧ length (read_buffer s1) = MAX_CONSOLE_BUFFER_SIZE
    ∧ (r = Ok tt ↔ console_accepts (kernel s) (read_buffer s) (Nat.min MAX_CONSOLE_BUFFER_SIZE len))
    ∧ (r = Ok tt →
        let s2 := read_done bytes (length bytes) s1 in
        have_data s2 = negb (length bytes =? 0)%nat ∧ (get_data s2).1 = Ok bytes ∧ length (read_buffer s2) = MAX_CONSOLE_BUFFER_SIZE
        ∧ have_data (allow_read len s2).2 = false).
Proof.
  intros Hbuf Hlen.
  assert (Hno : ∀ x : t Kn, have_data (allow_read len x).2 = false).
  { intros x. unfold allow_read. run. rewrite bind_unfold. unfold allow_buffer at 1. simpl.
    destruct (spi_allow _ _ _) as [[] k1]; [| done]. unfold command. simpl. by destruct (spi_command _ _ _ _) as [[v |] k2]. }
  specialize (Hno s) as Hno1. unfold allow_read in Hno1 |- *. rewrite !bind_modify, bind_gets, bind_unfold in Hno1 |- *. simpl in Hno1 |- *.
  unfold allow_buffer in Hno1 |- *. simpl in Hno1 |- *. rewrite Hbuf in Hno1 |- *. unfold console_accepts.
  destruct (spi_allow READ_BUFFER (read_buffer s) (kernel s)) as [[] k1] eqn:Ea.
  2:{ eexists _, _. split; [done |]. split_and!; try done. split; [done |]. intros (? & ? & ? & ? & ?). congruence. }
  unfold command in Hno1 |- *. simpl in Hno1 |- *.
  destruct (spi_command READ (Z.of_nat (Nat.min MAX_CONSOLE_BUFFER_SIZE len)) 0 k1) as [[v |] k2] eqn:Ec.
  2:{ eexists _, _. split; [done |]. split_and!; try done. split; [done |]. intros (? & ? & ? & ? & ?). simplify_eq. congruence. }
  eexists _, _. split; [done |]. split_and!; try done.
  - split; [| done]. intros _. by eexists _, _, _.
  - intros _. unfold have_data, get_data. simpl. split_and!.
    + destruct bytes; done.
    + rewrite bind_gets. simpl. unfold slice. rewrite length_take, length_app, length_drop, Hbuf.
      rewrite drop_0, Nat.sub_0_r, take_take.
      replace (Nat.min MAX_CONSOLE_BUFFER_SIZE (length bytes + (MAX_CONSOLE_BUFFER_SIZE - length bytes))) with MAX_CONSOLE_BUFFER_SIZE by lia.
      replace (Nat.min (length bytes) MAX_CONSOLE_BUFFER_SIZE) with (length bytes) by lia. rewrite take_app_length.
      destruct (Nat.leb_spec (length bytes) MAX_CONSOLE_BUFFER_SIZE); [done | lia].
    + rewrite length_take, length_app, length_drop. lia.
    + apply Hno.
Qed.

End Console.
End ConsoleFacts.

Module ManticoreFacts.
Import Manticore.
Section Server.
Context {MHeader FwErr TwErr SrvErr Server : Type}.
Context (HEADER_LEN : nat) (header_from_wire : list Z → (MHeader * list Z) + FwErr) (header_to_wire : MHeader → list Z + TwErr).
Context (server_process : MHeader → list Z → list Z → Server → (option (MHeader * nat) + SrvErr) * list Z * Server).
(** Headers have their length; the server writes within the buffer it is given. *)
Context (header_length : ∀ h bytes, header_to_wire h = inl bytes → length bytes = HEADER_LEN).
Context (server_bounds : ∀ h i o srv, let '(r, data, _) := server_process h i o srv in
  length data = length o ∧ ∀ rh n, r = inl (Some (rh, n)) → (n <= length o)%nat).

(** The adapter wraps the server. For a buffer with room for a header, a request is
    answered with the header and the data of the server, back to back at the front of the
    buffer, of the length returned, which never exceeds the buffer; parse, server and
    serialization failures are the errors of the adapter; and it does not panic. *)
Theorem manticore_answers srv output input :
  (HEADER_LEN <= length output)%nat →
  ∃ r srv' output', process_request HEADER_LEN header_from_wire header_to_wire server_process input (srv, output) = (r, (srv', output'))
    ∧ r ≠ Panic ∧ length output' = length output
    ∧ match r with
      | Ok n => ∃ h rest rh bytes k data, header_from_wire input = inl (h, rest)
          ∧ server_process h rest (drop HEADER_LEN output) srv = (inl (Some (rh, k)), data, srv')
          ∧ header_to_wire rh = inl bytes ∧ n = (HEADER_LEN + k)%nat ∧ (n <= length output)%nat ∧ take n output' = bytes ++ take k data
      | Err (HeFromWire e) => header_from_wire input = inr e ∧ srv' = srv ∧ output' = output
      | _ => True
      end.
Proof.
  intros Hlen. unfold process_request. destruct (header_from_wire input) as [[h rest] | e] eqn:Eh.
  2:{ eexists _, _, _. split; [done |]. split_and!; done. }
  rewrite (proj2 (Nat.ltb_ge _ _)) by lia.
  pose proof (server_bounds h rest (drop HEADER_LEN output) srv) as Hs.
  destruct (server_process h rest (drop HEADER_LEN output) srv) as [[r data] srv'] eqn:Es. destruct Hs as [Hd Hk].
  rewrite length_drop in Hd, Hk.
  assert (Hout : length (take HEADER_LEN output ++ data) = length output) by (rewrite length_app, length_take; lia).
  destruct r as [[[rh k] |] | e]; [| eexists _, _, _; split; [done | split_and!; done] ..].
  destruct (header_to_wire rh) as [bytes | e] eqn:Ew; [| eexists _, _, _; split; [done | split_and!; done]].
  pose proof (header_length rh bytes Ew) as Hb. specialize (Hk rh k eq_refl).
  assert (Hdrop : drop (length bytes) (take HEADER_LEN output ++ data) = data).
  { rewrite Hb. apply drop_app_length'. rewrite length_take. lia. }
  rewrite Hdrop. eexists _, _, _. split; [done |]. split; [done |]. split; [rewrite length_app; lia |].
  exists h, rest, rh, bytes, k, data. split_and!; [done | done | done | lia | lia |].
  rewrite take_app, take_ge by lia. do 2 f_equal. lia.
Qed.

End Server.
End ManticoreFacts.

(** *** The start *)

Module StartFacts.
Import OtStart.

(** A call that releases a reset line of the system. *)
Definition releases (c : call) : Prop := c = Command GPIO SET (pin_usize BMC_SRST_N) 0 ∨ c = Command GPIO SET (pin_usize BMC_CPU_RST_N) 0.

(** Calls are made, none of which releases a reset line. *)
Definition held (s s' : st) : Prop := ∃ l, hist s' = hist s ++ l ∧ Forall (λ c, ¬ releases c) l.

#[global] Instance held_preorder : PreOrder held.
Proof.
  split; [intros s; exists []; by rewrite app_nil_r |]. intros a b c (l1 & H1 & F1) (l2 & H2 & F2).
  exists (l1 ++ l2). rewrite H2, H1, app_assoc. split; [done |]. by apply Forall_app.
Qed.

Section Calls.
Context (env : Env) (during : list call → list upcall).

Lemma held_sys c : ¬ releases c → steps_in held (sys env c).
Proof. intros Hc s. exists [c]. unfold sys. destruct (env (hist s) c); by split; [| constructor]. Qed.

Lemma held_yieldk : steps_in (E := TockError) held (yieldk during).
Proof.
  intros s. destruct (GpioFacts.yieldk_ok during s) as (s' & E & Hh & _). rewrite E. exists []. by rewrite app_nil_r.
Qed.

Lemma not_release_passthrough b : ¬ releases (Command SPI_HOST_H1 ENABLE_DISABLE_PASSTHROUGH (if b : bool then 1 else 0) 0).
Proof. by intros [[=] | [=]]. Qed.

Lemma not_release_transfer l n : ¬ releases (HostTransfer l n).
Proof. by intros [[=] | [=]]. Qed.

Lemma held_passthrough b : steps_in held (set_passthrough env b).
Proof. unfold set_passthrough. steps. apply held_sys, not_release_passthrough. Qed.

Lemma hold_transfer l n : steps_in held (transfer env during l n).
Proof. unfold transfer. steps; [apply held_sys, not_release_transfer | apply held_yieldk]. Qed.

Lemma held_read a : steps_in held (read_and_print_data env during a).
Proof. apply steps_bind; [apply _ | apply hold_transfer | intros _; apply held_yieldk]. Qed.

End Calls.

Section Start.
Context {Kn Ck : Type} `{!SpiKernel Kn} `{!SpiKernel Ck}.
Context (env : Env) (during : list call → list upcall).
Context (banner : list Z) (active_ro active_rw : SegmentInfo) (build_info : SegmentInfo → option BuildInfo) (dev_id : option Z).
Abbreviation boot := (OtStart.boot Kn Ck).

Definition quiet (s s' : boot) : Prop := held (app s) (app s').

#[global] Instance quiet_preorder : PreOrder quiet.
Proof. split; [intros s; unfold quiet; reflexivity | intros a b c; unfold quiet; apply transitivity]. Qed.

Lemma quiet_app {A} (m : M st TockError A) : steps_in held m → steps_in quiet (on_app m : M boot TockError A).
Proof. intros Hm s. unfold on_app, zoom, quiet. specialize (Hm (app s)). by destruct (m (app s)). Qed.

Lemma quiet_port {A} (m : M (SpiDeviceImpl.t Kn) TockError A) : steps_in quiet (on_port m : M boot TockError A).
Proof. intros s. unfold on_port, zoom, quiet. destruct (m (port s)). reflexivity. Qed.

Lemma quiet_demo : steps_in quiet (run_host_helper_demo env during : M boot TockError unit).
Proof.
  unfold run_host_helper_demo, device_mode. steps.
  - apply quiet_app, held_passthrough.
  - apply quiet_app, hold_transfer.
  - apply quiet_app, held_read.
  - match goal with |- context [match ?m with ThreeByte => _ | FourByte => _ end] => destruct m end; steps. apply quiet_app, hold_transfer.
Qed.

Lemma quiet_sfdp : steps_in quiet (set_up_sfdp : M boot TockError unit).
Proof.
  unfold set_up_sfdp, device_mode. steps. destruct (startup_table _ _) as [[] ?]; [apply quiet_port | intros s; reflexivity | intros s; reflexivity].
Qed.

Lemma quiet_prepare : steps_in quiet (prepare env during banner active_ro active_rw build_info dev_id : M boot TockError Identity).
Proof.
  unfold prepare.
  apply steps_bind; [apply _ | apply quiet_demo | intros _].
  apply steps_bind; [apply _ | unfold make_identity; steps; destruct dev_id; intros s; reflexivity | intros i].
  apply steps_bind; [apply _ | unfold new_processor, device_mode; steps; apply steps_modify; intros s; exists []; by rewrite app_nil_r | intros _].
  do 3 (apply steps_bind; [apply _ | apply quiet_port | intros _]).
  apply steps_bind; [apply _ | apply quiet_sfdp | intros _].
  apply steps_bind; [apply _ | apply quiet_app, held_passthrough | intros _; apply steps_mret, _].
Qed.

(** The port is set up as the application means it. *)
Definition configured (p p' : SpiDeviceImpl.t Kn) : Prop :=
  ∃ p1 p2 p3 table, SpiDeviceImpl.set_address_mode_handling HmKernelSpace p = (Ok tt, p1)
    ∧ SpiDeviceImpl.configure_addresses address_config p1 = (Ok tt, p2) ∧ SpiDeviceImpl.set_jedec_id JEDEC_ID p2 = (Ok tt, p3)
    ∧ startup_table (SpiDeviceImpl.get_address_mode p3) (replicate 128 0xff) = (Ok tt, table) ∧ SpiDeviceImpl.set_sfdp table p3 = (Ok tt, p').

Lemma on_port_inv {A} (m : M (SpiDeviceImpl.t Kn) TockError A) (s : boot) a s' :
  on_port m s = (Ok a, s') → m (port s) = (Ok a, port s') ∧ app s' = app s.
Proof. unfold on_port, zoom. destruct (m (port s)) as [r p]. intros [= -> <-]. done. Qed.

Lemma on_app_inv {A} (m : M st TockError A) (s : boot) a s' : on_app m s = (Ok a, s') → m (app s) = (Ok a, app s') ∧ port s' = port s.
Proof. unfold on_app, zoom. destruct (m (app s)) as [r p]. intros [= -> <-]. done. Qed.

Lemma demo_port (s : boot) a s' : run_host_helper_demo env during s = (Ok a, s') → port s' = port s.
Proof.
  assert (Hp : steps_in (same port) (run_host_helper_demo env during : M boot TockError unit)).
  { assert (Ha : ∀ A (m : M st TockError A), steps_in (same port) (on_app m : M boot TockError A)).
    { intros A m x. unfold on_app, zoom. by destruct (m (app x)). }
    unfold run_host_helper_demo, device_mode. steps; try apply Ha.
    match goal with |- context [match ?m with ThreeByte => _ | FourByte => _ end] => destruct m end; [apply Ha | steps]. }
  intros E. specialize (Hp s). by rewrite E in Hp.
Qed.

Lemma prepare_ok (s : boot) i s' :
  prepare env during banner active_ro active_rw build_info dev_id s = (Ok i, s') →
  configured (port s) (port s') ∧ ∃ h v, hist (app s') = h ++ [Command SPI_HOST_H1 ENABLE_DISABLE_PASSTHROUGH 1 0]
    ∧ env h (Command SPI_HOST_H1 ENABLE_DISABLE_PASSTHROUGH 1 0) = Some v.
Proof.
  unfold prepare. intros ([] & s1 & E1 & E)%bind_inv. apply bind_inv in E as (i1 & s2 & E2 & E). apply bind_inv in E as ([] & s3 & E3 & E).
  apply bind_inv in E as ([] & s4 & (E4 & A4)%on_port_inv & E). apply bind_inv in E as ([] & s5 & (E5 & A5)%on_port_inv & E).
  apply bind_inv in E as ([] & s6 & (E6 & A6)%on_port_inv & E). apply bind_inv in E as ([] & s7 & E7 & E).
  apply bind_inv in E as ([] & s8 & (E8 & P8)%on_app_inv & E). injection E as <- <-.
  apply demo_port in E1.
  assert (H2 : s2 = s1) by (unfold make_identity in E2; apply bind_inv in E2 as (d & s2' & Ed & E2); destruct dev_id; [injection Ed as -> ->; by injection E2 | done]).
  assert (H3 : port s3 = port s2) by (unfold new_processor in E3; by injection E3 as <-).
  unfold set_up_sfdp, device_mode in E7. rewrite bind_gets in E7.
  destruct (startup_table (SpiDeviceImpl.get_address_mode (port s6)) (replicate 128 0xff)) as [[[] | |] table] eqn:Et; [| done | done].
  apply on_port_inv in E7 as [E7 A7]. split.
  - rewrite P8. rewrite H3, H2, E1 in E4. by exists (port s4), (port s5), (port s6), table.
  - unfold set_passthrough in E8. apply bind_inv in E8 as (v & a & Ev & E8). injection E8 as ->. unfold sys in Ev.
    destruct (env (hist (app s7)) _) eqn:Env; [| done]. injection Ev as -> <-. exists (hist (app s7)), v. by split.
Qed.

(** A reset line is released by one call, whether it succeeds or not. *)
Lemma release_calls p (a : st) :
  let x := (control_set env p High ;; set_alarm env) a in
  x.1 ≠ Panic ∧ ∃ l, hist x.2 = hist a ++ Command GPIO SET (pin_usize p) 0 :: l.
Proof.
  unfold control_set, gpio_write, set_alarm, alarm_set, sys, mbind, M_bind, mret, M_ret, modify, gets. cbn.
  destruct (env (hist a) (Command GPIO SET (pin_usize p) 0)) as [v |]; [| by split; [| exists []]].
  cbn. match goal with |- context [env ?h ?c] => destruct (env h c) end; (split; [done |]); cbn; rewrite <- app_assoc; by eexists.
Qed.

Lemma ignore_release p (s : boot) :
  ∃ s', ignore_result (on_app (control_set env p High ;; set_alarm env)) s = (Ok tt, s') ∧ port s' = port s
    ∧ ∃ l, hist (app s') = hist (app s) ++ Command GPIO SET (pin_usize p) 0 :: l.
Proof.
  destruct (release_calls p (app s)) as [Hp [l Hl]]. unfold ignore_result, on_app, zoom.
  destruct ((control_set env p High ;; set_alarm env) (app s)) as [[| |] a]; [..| done]; (eexists; split; [done |]; split; [done |]; by exists l).
Qed.

Lemma console_quiet (s : boot) n : app (on_console (ConsoleReaderImpl.allow_read n) s).2 = app s ∧ port (on_console (ConsoleReaderImpl.allow_read n) s).2 = port s.
Proof. unfold on_console, zoom. by destruct (ConsoleReaderImpl.allow_read n (console s)). Qed.


(** The identity that the protocol server presents is the device's: the banner, cut
    or padded to its 32 bytes, and the device number of the fuses in big-endian order,
    padded to 64; each version, read as a build information, is the one stored in the flash
    with the running image. *)
Theorem identity_is_the_devices (s : boot) id :
  dev_id = Some id →
  ∃ i, make_identity banner active_ro active_rw build_info dev_id s = (Ok i, s)
    ∧ version i = take 32 (banner ++ replicate 32 0)
    ∧ device_id i = be_bytes 8 id ++ replicate 56 0
    ∧ (∀ slot seg b, (slot, seg) = (1, active_ro) ∨ (slot, seg) = (2, active_rw) → build_info seg = Some b → valid b →
        ∃ bytes, Identity.vendor_firmware_version i slot = Some bytes ∧ (from_wire BuildInfo bytes).1 = Ok b).
Proof.
  intros ->. eexists. split; [reflexivity |]. cbn [version device_id]. split_and!.
  - unfold put_truncated, copy_at. rewrite length_replicate, take_0, drop_replicate. simpl app.
    rewrite length_take, take_app. destruct (decide (length banner <= 32)%nat).
    + replace (Nat.min 32 (length banner)) with (length banner) by lia. rewrite Nat.min_id, !(take_ge banner), take_replicate by lia.
      simpl. f_equal. f_equal. lia.
    + replace (Nat.min 32 (length banner)) with 32%nat by lia. replace (Nat.min 32 (length banner)) with 32%nat by lia.
      replace (32 - length banner)%nat with 0%nat by lia. by rewrite take_0.
  - unfold put_truncated. rewrite length_replicate, length_be_bytes. change (Nat.min 64 8) with 8%nat. unfold copy_at.
    rewrite (take_ge (be_bytes 8 id)) by (rewrite length_be_bytes; lia). by rewrite take_0, length_be_bytes, drop_replicate.
  - intros slot seg b Hs Hb Hv.
    destruct (serialize_ok b (replicate 32 0) Hv) as (bytes & E & Hp); [rewrite length_replicate; lia | |].
    { rewrite length_replicate. cbn. lia. }
    exists bytes. unfold Identity.vendor_firmware_version, store_build_info.
    destruct Hs as [[= -> ->] | [= -> ->]]; cbn [Z.eqb Pos.eqb ro_version rw_version]; rewrite Hb, E; done.
Qed.

End Start.
End StartFacts.

Module StartWitnesses.

(** A kernel that takes every call. *)
#[local] Instance willing_kernel : SpiKernel unit :=
  {| spi_command _ _ _ k := (Some 0, k); spi_allow _ _ k := (true, k); spi_subscribe _ k := (true, k) |}.

Lemma console_data_received_witness :
  let s := ConsoleReaderImpl.initial tt in
  ∃ r s1, ConsoleReaderImpl.allow_read 1 s = (r, s1) ∧ r = Ok tt ∧ (ConsoleReaderImpl.get_data (ConsoleReaderImpl.read_done [63] 1 s1)).1 = Ok [63].
Proof.
  intros s.
  destruct (ConsoleFacts.console_data_received s 1 [63] (length_replicate _ _)) as (r & s1 & E & _ & _ & _ & Hok & Hd); [vm_compute; lia |].
  assert (Hr : r = Ok tt) by (apply Hok; exists tt, tt, 0; split; reflexivity).
  exists r, s1. split; [exact E |]. split; [exact Hr | exact (proj1 (proj2 (Hd Hr)))].
Defined.

(** A server that sends the request back, with headers of two bytes. *)
Definition echo (h : Z) (i o : list Z) (srv : nat) : (option (Z * nat) + unit) * list Z * nat :=
  let n := Nat.min (length i) (length o) in (inl (Some (h, n)), take n i ++ drop n o, S srv).

Lemma manticore_answers_witness :
  ∃ r srv' output',
    Manticore.process_request (FwErr := unit) (TwErr := unit) 2 (λ l, match l with a :: b :: rest => inl (a, rest) | _ => inr tt end) (λ h, inl [h; 0]) echo
      [7; 0; 1; 2; 3] (0%nat, replicate 6 255) = (r, (srv', output')) ∧ r = Ok 5%nat ∧ take 5 output' = [7; 0; 1; 2; 3].
Proof.
  destruct (ManticoreFacts.manticore_answers (FwErr := unit) (TwErr := unit) 2 (λ l, match l with a :: b :: rest => inl (a, rest) | _ => inr tt end) (λ h, inl [h; 0]) echo)
    with (srv := 0%nat) (output := replicate 6 255) (input := [7; 0; 1; 2; 3]) as (r & srv' & output' & E & _ & _ & Hm).
  - intros h bytes [= <-]. reflexivity.
  - intros h i o srv. unfold echo. rewrite length_app, length_take, length_drop. split; [lia |]. intros rh n [= <- <-]. lia.
  - vm_compute. lia.
  - exists r, srv', output'. split; [exact E |]. vm_compute in E. injection E as <- <- <-. split; reflexivity.
Defined.

Lemma identity_is_the_devices_witness :
  let seg := mk_SegmentInfo RoA 0 0 0 0 in
  let b := mk_BuildInfo 1 2 3 4 in
  ∃ i, OtStart.make_identity (Kn := unit) (Ck := unit) [111; 116] seg seg (λ _, Some b) (Some 0x0102)
      (OtStart.mk_boot (mk_st [] 0 [] 0 None false false ThreeByte 0 ThreeByte) (SpiDeviceImpl.initial tt) (ConsoleReaderImpl.initial tt)) =
      (Ok i, OtStart.mk_boot (mk_st [] 0 [] 0 None false false ThreeByte 0 ThreeByte) (SpiDeviceImpl.initial tt) (ConsoleReaderImpl.initial tt))
    ∧ ∃ bytes, Identity.vendor_firmware_version i 2 = Some bytes ∧ (from_wire BuildInfo bytes).1 = Ok b.
Proof.
  intros seg b.
  destruct (StartFacts.identity_is_the_devices (Kn := unit) (Ck := unit) [111; 116] seg seg (λ _, Some b) (Some 0x0102)
    (OtStart.mk_boot (mk_st [] 0 [] 0 None false false ThreeByte 0 ThreeByte) (SpiDeviceImpl.initial tt) (ConsoleReaderImpl.initial tt)) 0x0102 eq_refl)
    as (i & E & _ & _ & H).
  exists i. split; [exact E |]. apply (H 2 seg b); [right; reflexivity | reflexivity |].
  unfold valid. cbn. unfold fits. lia.
Defined.

End StartWitnesses.
