(* ===== verification/SizeTools.v ===== *)
(** The tools that compare the sizes of firmware images: the symbol graph
    (tools/size_graph/src/lib.rs and objdump.rs) and the difference of two images
    (tools/size_diff/src/main.rs).

    The symbols of a file, by section, come from the ELF library, their readable names from
    the demangler, and the listing from objdump; reads of the listing succeed.  Sizes, which
    the tools keep in 64 bits, are integers. *)

From S2P Require Import Prelude.
From Stdlib Require Import ZArith Lia.
From stdpp Require Import base decidable option list list_numbers gmap sorting.

#[local] Open Scope Z_scope.

(** ** objdump.rs *)

Inductive ListingEvent := SymbolHeader (name : list Z) | SymbolReference (name : list Z).

Module Objdump.

Definition LT : Z := 60.
Definition GT : Z := 62.
Definition COLON : Z := 58.
Definition NL : Z := 10.

(** Read up to a byte and past it; [None] at the end of the listing. *)
Fixpoint read_until (c : Z) (l : list Z) : option (list Z * list Z) :=
  match l with
  | [] => None
  | b :: l => if b =? c then Some ([], l) else '(x, r) ← read_until c l; Some (b :: x, r)
  end.

(** [parse]: the calls to [header] and [reference], in their order. *)
Fixpoint parse (fuel : nat) (l : list Z) : option (list ListingEvent) :=
  match fuel with
  | O => None
  | S fuel =>
      match read_until LT l with
      | None => Some []
      | Some (_, l) =>
          match read_until GT l with
          | None => Some []
          | Some (symbol, l) =>
              match l with
              | [] => Some [SymbolReference symbol]
              | byte :: l =>
                  let e := if byte =? COLON then SymbolHeader symbol else SymbolReference symbol in
                  match read_until NL l with
                  | None => Some [e]
                  | Some (_, l) => es ← parse fuel l; Some (e :: es)
                  end
              end
          end
      end
  end.

(** Every round of the loop reads at least one byte. *)
Definition parse_all (l : list Z) : option (list ListingEvent) := parse (S (length l)) l.

End Objdump.

(** ** lib.rs *)

Record SymbolData := mk_SymbolData { sd_name : list Z; sd_size : Z; deps : list nat; rev_deps : list nat }.

Record SizeGraph := mk_SizeGraph { name_to_idx : gmap (list Z) nat; symbols : list SymbolData }.

Module SizeGraphImpl.
Section Load.
Context (demangle : list Z → list Z).

(** The symbols of the ELF file, one by one. *)
Definition add_symbol (g : SizeGraph) (s : list Z * Z) : SizeGraph :=
  mk_SizeGraph (<[s.1 := length (symbols g)]> (name_to_idx g)) (symbols g ++ [mk_SymbolData (demangle s.1) s.2 [] []]).

Definition add_dep (j : nat) (d : SymbolData) : SymbolData := mk_SymbolData (sd_name d) (sd_size d) (deps d ++ [j]) (rev_deps d).
Definition add_rev_dep (i : nat) (d : SymbolData) : SymbolData := mk_SymbolData (sd_name d) (sd_size d) (deps d) (rev_deps d ++ [i]).

(** The callbacks of [parse]: the current symbol and the graph. *)
Definition on_event (x : option nat * SizeGraph) (e : ListingEvent) : option nat * SizeGraph :=
  let '(current_symbol, g) := x in
  match e with
  | SymbolHeader name => (name_to_idx g !! name, g)
  | SymbolReference name =>
      match current_symbol, name_to_idx g !! name with
      | Some i, Some j => (current_symbol, mk_SizeGraph (name_to_idx g) (alter (add_rev_dep i) j (alter (add_dep j) i (symbols g))))
      | _, _ => x
      end
  end.

Definition load (sections : list (list (list Z * Z))) (listing : list Z) : option SizeGraph :=
  let g := foldl (foldl add_symbol) (mk_SizeGraph ∅ []) sections in
  events ← Objdump.parse_all listing;
  Some (foldl on_event (None, g) events).2.

Definition get (g : SizeGraph) (name : list Z) : option nat := name_to_idx g !! name.
Definition len (g : SizeGraph) : nat := length (symbols g).

(** [SymbolIter::next] *)
Definition iter_next (g : SizeGraph) (current : nat) : option nat * nat :=
  if (len g <=? current)%nat then (None, current) else (Some current, S current).

(** The methods of [Symbol]; indexing panics out of range. *)
Definition symbol_size (g : SizeGraph) (i : nat) : option Z := sd_size <$> symbols g !! i.
Definition symbol_deps (g : SizeGraph) (i : nat) : option (list nat) := deps <$> symbols g !! i.
Definition symbol_reverse_deps (g : SizeGraph) (i : nat) : option (list nat) := rev_deps <$> symbols g !! i.

End Load.

(** [find_objdump]: the value of the flag, [None] for [FlagWithoutValue]. *)
Fixpoint find_objdump (flag default_value : list Z) (args : list (list Z)) : option (list Z) :=
  match args with
  | [] => Some default_value
  | a :: args => if decide (a = flag) then head args else find_objdump flag default_value args
  end.

End SizeGraphImpl.

(** ** size_diff *)

Record SizeData := mk_SizeData { name_to_size : gmap (list Z) Z; data_size : Z; rodata_size : Z }.

Module SizeDiff.
Section Diff.
Context (demangle : list Z → list Z) (DATA RODATA : list Z).

(** A section: its name, its size and its symbols. *)
Definition read_section (d : SizeData) (s : list Z * Z * list (list Z * Z)) : SizeData :=
  let '(name, size, syms) := s in
  mk_SizeData
    (foldl (λ m x, <[demangle x.1 := default 0 (m !! demangle x.1) + x.2]> m) (name_to_size d) syms)
    (if decide (name = DATA) then data_size d + size else data_size d)
    (if decide (name = DATA) then rodata_size d else if decide (name = RODATA) then rodata_size d + size else rodata_size d).

Definition read_elf (sections : list (list Z * Z * list (list Z * Z))) : SizeData := foldl read_section (mk_SizeData ∅ 0 0) sections.
End Diff.

Definition added_syms (before after : SizeData) : list (Z * list Z) :=
  omap (λ x, match name_to_size before !! x.1 with Some _ => None | None => Some (x.2, x.1) end) (map_to_list (name_to_size after)).
Definition changed_syms (before after : SizeData) : list (Z * list Z) :=
  omap (λ x, match name_to_size after !! x.1 with Some a => if x.2 =? a then None else Some (a - x.2, x.1) | None => None end)
    (map_to_list (name_to_size before)).
Definition removed_syms (before after : SizeData) : list (Z * list Z) :=
  omap (λ x, match name_to_size after !! x.1 with Some _ => None | None => Some (- x.2, x.1) end) (map_to_list (name_to_size before)).

(** [for (delta, sym) in &syms { total_delta += delta; }] *)
Definition accumulate (total : Z) (l : list (Z * list Z)) : Z := foldl (λ t x, t + x.1) total l.

(** [main], for the sorting of the standard library, which permutes. *)
Definition total_delta (sort : list (Z * list Z) → list (Z * list Z)) (before after : SizeData) : Z :=
  let total := accumulate 0 (sort (added_syms before after)) in
  let total := accumulate total (sort (changed_syms before after)) in
  let total := accumulate total (sort (removed_syms before after)) in
  let total := if negb (data_size before =? 0) || negb (data_size after =? 0) then total + (data_size after - data_size before) else total in
  if negb (rodata_size before =? 0) || negb (rodata_size after =? 0) then total + (rodata_size after - rodata_size before) else total.

End SizeDiff.

(** ** Facts *)

Module ObjdumpFacts.
Import Objdump.

Lemma read_until_found c x r : c ∉ x → read_until c (x ++ c :: r) = Some (x, r).
Proof.
  induction x as [| b x IH]; intros Hx; simpl; [by rewrite Z.eqb_refl |].
  apply not_elem_of_cons in Hx as [Hb Hx]. rewrite (proj2 (Z.eqb_neq b c)) by done. by rewrite IH.
Qed.

Lemma read_until_inv c l x r : read_until c l = Some (x, r) → l = x ++ c :: r ∧ c ∉ x.
Proof.
  revert x r. induction l as [| b l IH]; intros x r; simpl; [done |]. destruct (Z.eqb_spec b c) as [-> | Hb].
  - intros [= <- <-]. split; [done | apply not_elem_of_nil].
  - destruct (read_until c l) as [[x' r'] |]; [| done]. intros [= <- <-]. destruct (IH x' r' eq_refl) as [-> Hx].
    split; [done |]. by apply not_elem_of_cons.
Qed.

Lemma read_until_skip c x l : c ∉ x → read_until c (x ++ l) = ('(y, r) ← read_until c l; Some (x ++ y, r)).
Proof.
  induction x as [| b x IH]; intros Hx; simpl; [by destruct (read_until c l) as [[]|] |].
  apply not_elem_of_cons in Hx as [Hb Hx]. rewrite (proj2 (Z.eqb_neq b c)), IH by done. by destruct (read_until c l) as [[]|].
Qed.

Lemma read_until_shorter c l x r : read_until c l = Some (x, r) → (length r < length l)%nat.
Proof. intros [-> _]%read_until_inv. rewrite length_app. simpl. lia. Qed.

(** Fuel beyond the length of the listing does not matter. *)
Lemma parse_enough f g l : (length l < f)%nat → (length l < g)%nat → parse f l = parse g l ∧ is_Some (parse f l).
Proof.
  revert g l. induction f as [| f IH]; intros g l Hf Hg; [lia |]. destruct g as [| g]; [lia |]. simpl.
  destruct (read_until LT l) as [[x1 r1] |] eqn:E1; [| by eauto]. apply read_until_shorter in E1.
  destruct (read_until GT r1) as [[x2 r2] |] eqn:E2; [| by eauto]. apply read_until_shorter in E2.
  destruct r2 as [| b r2]; [by eauto |]. simpl in E2.
  destruct (read_until NL r2) as [[x3 r3] |] eqn:E3; [| by eauto]. apply read_until_shorter in E3.
  destruct (IH g r3 ltac:(lia) ltac:(lia)) as [<- [es Hes]]. rewrite Hes. by eauto.
Qed.

Lemma parse_all_fuel f l : (length l < f)%nat → parse f l = parse_all l.
Proof. intros Hf. apply parse_enough; [done | lia]. Qed.

(** What a line of the listing says, read by itself. *)
Definition event_of_line (line : list Z) : option ListingEvent :=
  '(_, r) ← read_until LT line;
  '(name, r) ← read_until GT r;
  Some match r with b :: _ => if b =? COLON then SymbolHeader name else SymbolReference name | [] => SymbolReference name end.

(** A line that names no symbol, or one with something behind the name. *)
Definition complete_line (line : list Z) : bool :=
  match read_until LT line with
  | None => true
  | Some (_, r) => match read_until GT r with Some (_, _ :: _) => true | _ => false end
  end.

Definition as_text (lines : list (list Z)) : list Z := concat ((λ l, l ++ [NL]) <$> lines).

Lemma as_text_cons l lines : as_text (l :: lines) = l ++ NL :: as_text lines.
Proof. unfold as_text. simpl. by rewrite <- app_assoc. Qed.

Lemma read_until_none c l : read_until c l = None → c ∉ l.
Proof.
  induction l as [| b l IH]; simpl; [intros _; apply not_elem_of_nil |]. destruct (Z.eqb_spec b c) as [-> | Hb]; [done |].
  destruct (read_until c l) as [[]|]; [done |]. intros _. apply not_elem_of_cons. split; [done | by apply IH].
Qed.

Lemma parse_line f line rest :
  NL ∉ line → complete_line line = true →
  parse (S f) (line ++ NL :: rest) =
  match event_of_line line with Some e => es ← parse f rest; Some (e :: es) | None => parse (S f) rest end.
Proof.
  intros Hnl Hc. unfold complete_line, event_of_line in *. destruct (read_until LT line) as [[pre r] |] eqn:E1.
  - apply read_until_inv in E1 as [-> Hpre]. destruct (read_until GT r) as [[name [| b post]] |] eqn:E2; [done | | done].
    apply read_until_inv in E2 as [-> Hname]. simpl.
    rewrite <- app_assoc, <- app_comm_cons, <- app_assoc, <- !app_comm_cons, read_until_found, read_until_found by done. 
    assert (Hpost : NL ∉ post) by (rewrite !elem_of_app, !elem_of_cons, !elem_of_app, !elem_of_cons in Hnl; tauto).
    rewrite read_until_found by done. by rewrite (read_until_found GT name) by done.
  - apply read_until_none in E1. simpl.
    assert (Hskip : ∀ l, read_until LT (line ++ NL :: l) = ('(y, r) ← read_until LT l; Some (line ++ NL :: y, r))).
    { intros l. change (line ++ NL :: l) with (line ++ ([NL] ++ l)). rewrite app_assoc, read_until_skip.
      - destruct (read_until LT l) as [[]|]; simpl; [by rewrite <- app_assoc | done].
      - rewrite elem_of_app, list_elem_of_singleton. intros [? | ?]; done. }
    rewrite Hskip. by destruct (read_until LT rest) as [[]|].
Qed.

(** A listing is read line by line, as long as no line ends with the name of a symbol:
    a line that names one gives a header if a colon follows the name and a reference
    otherwise, and the other lines give nothing. Reading always comes to an end. *)
Theorem listing_parsed lines :
  Forall (λ l, (NL ∉ l) ∧ complete_line l = true) lines → parse_all (as_text lines) = Some (omap event_of_line lines).
Proof.
  intros H. induction H as [| line lines [Hnl Hc] _ IH]; [done |].
  rewrite as_text_cons. unfold parse_all. rewrite parse_line by done. cbn [omap list_omap].
  destruct (event_of_line line) as [e |] eqn:E.
  - rewrite parse_all_fuel by (rewrite length_app; simpl; lia). by rewrite IH.
  - rewrite parse_all_fuel by (rewrite length_app; simpl; lia). by rewrite IH.
Qed.

(** A line that ends with a symbol, as the calls and branches of a listing do, hides
    the line after it: the byte read behind the name is the newline, and everything through
    the next newline is ignored. The hidden line may be the header of the next symbol, whose
    references then count for the one before. *)
Theorem next_line_lost pre name next lines :
  LT ∉ pre → GT ∉ name → NL ∉ next →
  parse_all (as_text ((pre ++ LT :: name ++ [GT]) :: next :: lines)) = (es ← parse_all (as_text lines); Some (SymbolReference name :: es)).
Proof.
  intros Hpre Hname Hnext. rewrite !as_text_cons. unfold parse_all at 1. simpl.
  rewrite <- app_assoc, <- app_comm_cons, <- app_assoc, read_until_found by done. simpl. rewrite read_until_found by done. simpl.
  rewrite read_until_found by done. rewrite parse_all_fuel; [done |].
  repeat (rewrite length_app; simpl). lia.
Qed.

Lemma listing_parsed_witness :
  parse_all (as_text [[56; 48; 32; 60; 102; 62; 58]; [110; 111; 112]; [98; 108; 32; 60; 103; 62; 32]]) =
  Some [SymbolHeader [102]; SymbolReference [103]].
Proof.
  apply (listing_parsed [[56; 48; 32; 60; 102; 62; 58]; [110; 111; 112]; [98; 108; 32; 60; 103; 62; 32]]).
  repeat constructor; by_compute.
Defined.

Lemma next_line_lost_witness :
  parse_all (as_text [[98; 32; 60; 103; 62]; [60; 104; 62; 58]; [60; 105; 62; 58]]) = Some [SymbolReference [103]; SymbolHeader [105]].
Proof. apply (next_line_lost [98; 32] [103] [60; 104; 62; 58] [[60; 105; 62; 58]]); by_compute. Defined.

End ObjdumpFacts.

Module SizeGraphFacts.
Import SizeGraphImpl.

(** How often [i] refers to [j], by either list. *)
Definition occurs (j : nat) (l : list nat) : nat := length (filter (λ k, k = j) l).
Definition dep_count (g : SizeGraph) (i j : nat) : nat := match symbols g !! i with Some d => occurs j (deps d) | None => 0 end.
Definition rev_dep_count (g : SizeGraph) (j i : nat) : nat := match symbols g !! j with Some d => occurs i (rev_deps d) | None => 0 end.

Definition converse (g : SizeGraph) : Prop :=
  (∀ i j, dep_count g i j = rev_dep_count g j i) ∧ (∀ name i, name_to_idx g !! name = Some i → (i < length (symbols g))%nat).

Lemma occurs_snoc j l k : occurs j (l ++ [k]) = (occurs j l + if decide (k = j) then 1 else 0)%nat.
Proof. unfold occurs. rewrite filter_app, length_app, filter_cons, filter_nil. by case_decide. Qed.

Lemma link_deps g i j a b :
  (i < length (symbols g))%nat → (j < length (symbols g))%nat →
  let g' := mk_SizeGraph (name_to_idx g) (alter (add_rev_dep i) j (alter (add_dep j) i (symbols g))) in
  dep_count g' a b = (dep_count g a b + if decide (a = i ∧ b = j) then 1 else 0)%nat
  ∧ rev_dep_count g' b a = (rev_dep_count g b a + if decide (a = i ∧ b = j) then 1 else 0)%nat.
Proof.
  intros Hi Hj g'. unfold dep_count, rev_dep_count, g'. simpl.
  rewrite !list_lookup_alter.
  destruct (lookup_lt_is_Some_2 _ _ Hi) as [di Hdi]. destruct (lookup_lt_is_Some_2 _ _ Hj) as [dj Hdj]. split.
  - destruct (decide (a = i)) as [-> | Ha].
    + rewrite (decide_True (P := i = i)), Hdi by done. destruct (decide (j = i)) as [-> | Hji];
        rewrite ?(decide_True (P := i = i)) by done; simpl; rewrite occurs_snoc;
        repeat case_decide; try lia; naive_solver.
    + rewrite (decide_False (P := i = a)), (decide_False (P := a = i ∧ b = j)) by naive_solver.
      destruct (decide (j = a)) as [-> | Hja]; rewrite ?(decide_False (P := i = a)), ?Hdj by done; simpl; destruct (symbols g !! a); simpl; lia.
  - destruct (decide (b = j)) as [-> | Hb].
    + rewrite (decide_True (P := j = j)) by done. destruct (decide (i = j)) as [-> | Hij];
        rewrite ?(decide_True (P := j = j)), Hdj by done; simpl; rewrite occurs_snoc;
        repeat case_decide; try lia; naive_solver.
    + rewrite (decide_False (P := j = b)), (decide_False (P := a = i ∧ b = j)) by naive_solver.
      destruct (decide (i = b)) as [-> | Hib]; rewrite ?Hdi; simpl; destruct (symbols g !! b); simpl; lia.
Qed.

Section Load.
Context (demangle : list Z → list Z).

Lemma add_symbol_converse g x : converse g → converse (add_symbol demangle g x).
Proof.
  intros [Hc Hn]. split.
  - intros i j. specialize (Hc i j). unfold dep_count, rev_dep_count, add_symbol in *. simpl. rewrite !lookup_app.
    destruct (symbols g !! i) as [di |], (symbols g !! j) as [dj |]; simpl in *; try done;
      repeat match goal with |- context [[?d] !! ?n] => destruct ([d] !! n) as [? |] eqn:?; simpl end; try done;
      repeat match goal with H : [_] !! ?n = Some _ |- _ => destruct n; simpl in H; simplify_eq; simpl end; done.
  - intros name i. unfold add_symbol. simpl. rewrite length_app. simpl. intros Hi.
    apply lookup_insert_Some in Hi as [[_ <-] | [_ Hi]]; [lia |]. specialize (Hn _ _ Hi). lia.
Qed.

Lemma on_event_converse (x : option nat * SizeGraph) e :
  converse x.2 → (∀ i, x.1 = Some i → (i < length (symbols x.2))%nat) →
  converse (on_event x e).2 ∧ (∀ i, (on_event x e).1 = Some i → (i < length (symbols (on_event x e).2))%nat)
  ∧ length (symbols (on_event x e).2) = length (symbols x.2).
Proof.
  destruct x as [cur g]. intros Hg Hcur. simpl in *. destruct e as [name | name]; simpl.
  - split_and!; [done | by apply Hg | done].
  - destruct cur as [i |]; [| by split_and!]. destruct (name_to_idx g !! name) as [j |] eqn:Ej; [| by split_and!]. simpl.
    rewrite !length_alter. split_and!; [| done | done]. destruct Hg as [Hc Hn]. split.
    + intros a b. destruct (link_deps g i j a b (Hcur i eq_refl) (Hn _ _ Ej)) as [-> ->]. by rewrite Hc.
    + intros m k Hk. simpl. rewrite !length_alter. by apply (Hn m).
Qed.

(** The graph is consistent. Whatever the file and its listing hold, the graph that
    is loaded has, for every pair of symbols, the one as often among the dependencies of
    the other as that one among its reverse dependencies, and every symbol that a name
    leads to is in the graph, so that no method of a symbol it hands out panics. *)
Theorem graph_converse sections listing :
  ∃ g, load demangle sections listing = Some g ∧ converse g ∧ len g = length (concat sections)
    ∧ ∀ name i, get g name = Some i → is_Some (symbol_size g i) ∧ is_Some (symbol_deps g i) ∧ is_Some (symbol_reverse_deps g i).
Proof.
  unfold load. destruct (ObjdumpFacts.parse_enough (S (length listing)) (S (length listing)) listing) as [_ [es Hes]]; [lia | lia |].
  unfold Objdump.parse_all. rewrite Hes. simpl.
  set (g0 := foldl (foldl (add_symbol demangle)) (mk_SizeGraph ∅ []) sections).
  assert (H0 : converse g0 ∧ length (symbols g0) = length (concat sections)).
  { unfold g0. assert (Hs : ∀ l g, converse g → converse (foldl (add_symbol demangle) g l) ∧ length (symbols (foldl (add_symbol demangle) g l)) = (length (symbols g) + length l)%nat).
    { induction l as [| x l IH]; intros g Hg; simpl; [split; [done | lia] |].
      destruct (IH (add_symbol demangle g x) (add_symbol_converse g x Hg)) as [H1 H2]. split; [done |]. rewrite H2. unfold add_symbol. simpl. rewrite length_app. simpl. lia. }
    assert (Hb : ∀ l g, converse g → converse (foldl (foldl (add_symbol demangle)) g l) ∧ length (symbols (foldl (foldl (add_symbol demangle)) g l)) = (length (symbols g) + length (concat l))%nat).
    { induction l as [| x l IH]; intros g Hg; simpl; [split; [done | lia] |]. destruct (Hs x g Hg) as [H1 H2].
      destruct (IH _ H1) as [H3 H4]. split; [done |]. rewrite H4, H2, length_app. lia. }
    apply Hb. split; [done | intros name i; simpl; by rewrite lookup_empty]. }
  destruct H0 as [Hc0 Hl0].
  assert (He : ∀ x, converse x.2 → (∀ i, x.1 = Some i → (i < length (symbols x.2))%nat) →
    converse (foldl on_event x es).2 ∧ length (symbols (foldl on_event x es).2) = length (symbols x.2)).
  { clear Hes Hc0 Hl0. induction es as [| e es IH]; intros x Hx Hcur; [done |]. simpl.
    destruct (on_event_converse x e Hx Hcur) as (H1 & H2 & H3). destruct (IH _ H1 H2) as [H4 H5]. split; [done | congruence]. }
  destruct (He (None, g0) Hc0 ltac:(done)) as [Hg Hlen]. eexists. split; [reflexivity |]. split; [exact Hg |].
  split; [unfold len; rewrite Hlen; exact Hl0 |]. intros name i Hi. destruct Hg as [_ Hn]. apply Hn in Hi.
  unfold symbol_size, symbol_deps, symbol_reverse_deps. destruct (lookup_lt_is_Some_2 _ _ Hi) as [d ->]. split_and!; by eexists.
Qed.

End Load.
End SizeGraphFacts.

Module SizeDiffFacts.
Import SizeDiff.

Definition sum_delta (l : list (Z * list Z)) : Z := foldr (λ x t, x.1 + t) 0 l.
Definition total_size (m : gmap (list Z) Z) : Z := foldr (λ x t, x.2 + t) 0 (map_to_list m).

#[local] Instance sum_delta_proper : Proper ((≡ₚ) ==> eq) sum_delta.
Proof. intros l1 l2 H. unfold sum_delta. induction H; simpl; lia. Qed.

#[local] Instance sum_snd_proper : Proper ((≡ₚ) ==> eq) (foldr (λ (x : list Z * Z) t, x.2 + t) 0).
Proof. intros l1 l2 H. induction H; simpl; lia. Qed.

Lemma accumulate_sum t l : accumulate t l = t + sum_delta l.
Proof. unfold accumulate. revert t. induction l as [| x l IH]; intros t; simpl; [lia |]. rewrite IH. lia. Qed.

Lemma total_size_insert m k x : m !! k = None → total_size (<[k := x]> m) = x + total_size m.
Proof. intros Hk. unfold total_size. by rewrite map_to_list_insert by done. Qed.

(** The three lists together. *)
Definition symbols_delta (b a : gmap (list Z) Z) : Z :=
  let before := mk_SizeData b 0 0 in let after := mk_SizeData a 0 0 in
  sum_delta (added_syms before after) + sum_delta (changed_syms before after) + sum_delta (removed_syms before after).

Lemma sum_omap_cons {A} (f : A → option (Z * list Z)) y l :
  sum_delta (omap f (y :: l)) = match f y with Some d => d.1 | None => 0 end + sum_delta (omap f l).
Proof. simpl. by destruct (f y). Qed.

Lemma added_insert b a k x :
  b !! k = None →
  sum_delta (added_syms (mk_SizeData b 0 0) (mk_SizeData a 0 0)) =
  sum_delta (added_syms (mk_SizeData (<[k := x]> b) 0 0) (mk_SizeData a 0 0)) + default 0 (a !! k).
Proof.
  intros Hk. unfold added_syms. simpl.
  assert (Hne : ∀ m : gmap (list Z) Z, m !! k = None →
    omap (λ y : list Z * Z, match <[k := x]> b !! y.1 with Some _ => None | None => Some (y.2, y.1) end) (map_to_list m) =
    omap (λ y : list Z * Z, match b !! y.1 with Some _ => None | None => Some (y.2, y.1) end) (map_to_list m)).
  { intros m Hm. apply list_omap_ext, Forall_Forall2_diag, Forall_forall. intros [k' v] Hin. apply elem_of_map_to_list in Hin. simpl.
    rewrite lookup_insert_ne; [done |]. intros ->. congruence. }
  destruct (a !! k) as [v |] eqn:Ea; simpl.
  - rewrite <- (insert_delete_id a k v Ea). rewrite (map_to_list_insert (delete k a) k v) by apply lookup_delete_eq. simpl.
    rewrite Hk, lookup_insert_eq. simpl. rewrite Hne by apply lookup_delete_eq. apply Z.add_comm.
  - rewrite Hne by done. lia.
Qed.

Lemma symbols_delta_total b a : symbols_delta b a = total_size a - total_size b.
Proof.
  unfold symbols_delta. induction b as [| k x b Hk IH] using map_ind.
  - unfold changed_syms, removed_syms, added_syms, total_size. simpl. rewrite map_to_list_empty. simpl.
    generalize (map_to_list a) as l. induction l as [| y l IHl]; [done |].
    rewrite sum_omap_cons, lookup_empty. simpl foldr. cbn [fst]. lia.
  - rewrite total_size_insert by done. rewrite (added_insert b a k x Hk) in IH. revert IH.
    unfold changed_syms, removed_syms. cbn [name_to_size]. rewrite !(map_to_list_insert b k x) by done. rewrite !sum_omap_cons. cbn [fst snd].
    destruct (a !! k) as [v |]; simpl default; [destruct (Z.eqb_spec x v) as [-> | Hxv] |]; cbn [fst]; lia.
Qed.

(** The total that size_diff prints is the difference: of the sizes of all symbols and
    of the two data sections, whether symbols were added, changed or removed, and in
    whatever order they are listed. *)
Theorem total_is_difference sort before after :
  (∀ l, sort l ≡ₚ l) →
  total_delta sort before after =
  (total_size (name_to_size after) + data_size after + rodata_size after) -
  (total_size (name_to_size before) + data_size before + rodata_size before).
Proof.
  intros Hsort. unfold total_delta. rewrite !accumulate_sum, !Hsort.
  pose proof (symbols_delta_total (name_to_size before) (name_to_size after)) as H. unfold symbols_delta in H.
  unfold added_syms, changed_syms, removed_syms in *. simpl in H. rewrite Z.add_0_l, H.
  destruct (Z.eqb_spec (data_size before) 0), (Z.eqb_spec (data_size after) 0), (Z.eqb_spec (rodata_size before) 0), (Z.eqb_spec (rodata_size after) 0); simpl; lia.
Qed.

Lemma total_is_difference_witness :
  let before := mk_SizeData {[ [1] := 10; [2] := 20 ]} 4 0 in
  let after := mk_SizeData {[ [2] := 25; [3] := 7 ]} 4 8 in
  total_delta (λ l, l) before after = 10.
Proof.
  intros before after. etransitivity; [apply (total_is_difference (λ l, l) before after) |]; [reflexivity | vm_compute; reflexivity].
Defined.

End SizeDiffFacts.
