(* ===== verification/TestHarness.v ===== *)
(** The test harness of the applications (userspace/test_harness/src/compiler_required.rs)
    and the runner on the workstation (runner/src/main.rs), which reads the console of the
    chip and turns its output into an exit code.

    A test is what it prints, as lines, and its result.  The terminals, the clock and the
    standard output of the workstation are an environment that says which actions succeed;
    the console is a list of bytes up to its end, with [None] for a read error. *)

From S2P Require Import Prelude.
From Stdlib Require Import ZArith Lia.
From stdpp Require Import base decidable option list list_numbers strings.

#[local] Open Scope Z_scope.

Definition bytes_of_string (s : string) : list Z := Z.of_nat ∘ Ascii.nat_of_ascii <$> String.list_ascii_of_string s.

Definition newline : Z := 10.

(** [println!]: a line and its end. *)
Definition println (line : list Z) : list Z := line ++ [newline].
Definition unlines (lines : list (list Z)) : list Z := concat (println <$> lines).

(** ** The assertions of the tests (userspace/test_harness/src/assertions.rs)

    A test is a computation on the objects it works with; an assertion that does not hold
    makes it return [false] at once, which is [Err tt].  What is printed then is left out. *)

Abbreviation Test S := (M S unit).

Section Assertions.
Context {S : Type}.

Definition require (expr : bool) : Test S unit := if expr then mret tt else throw tt.
Definition require_eq {B} `{EqDecision B} (lhs rhs : B) : Test S unit := if decide (lhs = rhs) then mret tt else throw tt.

(** A call of kernel code, which has no error path of its own. *)
Definition run {B} (m : M S Empty_set B) : Test S B := λ s,
  match m s with
  | (Ok b, s) => (Ok b, s)
  | (Err e, s) => match e with end
  | (Panic, s) => (Panic, s)
  end.

(** A call that has one result and changes the objects, or panics. *)
Definition change (f : S → option S) : Test S unit := λ s,
  match f s with Some s => (Ok tt, s) | None => (Panic, s) end.

(** The assertion [get() == expected]. *)
Definition require_got {B} `{EqDecision B} (get : S → B) (expected : B) : Test S unit := lhs ← gets get; require_eq lhs expected.
Definition require_ret {B} `{EqDecision B} (m : M S Empty_set B) (expected : B) : Test S unit := lhs ← run m; require_eq lhs expected.

(** The result of a test function on the objects it creates. *)
Definition result (test : Test S bool) (s : S) : outcome unit bool := fst (test s).

End Assertions.

(** ** The harness *)

Module Harness.

Record TestDesc := mk_TestDesc { allow_fail : bool; ignore : bool; name : list Z }.
(** [testfn]: the lines that the test prints, and whether it succeeds. *)
Record TestDescAndFn := mk_TestDescAndFn { desc : TestDesc; testfn : list (list Z) * bool }.

Definition assert_test_result (result : bool) : bool := result.

(** The body of the loop: what is printed, and the new [overall_success]. *)
Definition run_test (test_case : TestDescAndFn) (overall_success : bool) : list (list Z) * bool :=
  let name := name (desc test_case) in
  if ignore (desc test_case) then ([bytes_of_string "Skipping ignored test " ++ name], overall_success)
  else
    let '(printed, result) := testfn test_case in
    let succeeded := assert_test_result result in
    ([bytes_of_string "Running test " ++ name] ++ printed ++
     [bytes_of_string "Finished test " ++ name ++ bytes_of_string ". Result: " ++
        bytes_of_string (if succeeded then "succeeded" else "failed")],
     overall_success && succeeded).

Fixpoint run_tests (tests : list TestDescAndFn) (overall_success : bool) : list (list Z) * bool :=
  match tests with
  | [] => ([], overall_success)
  | t :: tests =>
      let '(lines, overall_success) := run_test t overall_success in
      let '(lines', overall_success) := run_tests tests overall_success in
      (lines ++ lines', overall_success)
  end.

Definition FINISHED_SUCCESS : list Z := bytes_of_string "TEST_FINISHED: SUCCESS".
Definition FINISHED_FAIL : list Z := bytes_of_string "TEST_FINISHED: FAIL".

(** [None]: the drivers cannot be retrieved, a panic. *)
Definition test_main_static (drivers : bool) (tests : list TestDescAndFn) : option (list (list Z)) :=
  if negb drivers then None
  else
    let '(lines, overall_success) := run_tests tests true in
    Some ([bytes_of_string "Starting tests."] ++ lines ++ [if overall_success then FINISHED_SUCCESS else FINISHED_FAIL]).

End Harness.

(** ** The runner *)

Module Runner.

Inductive Exit := Returned | Exited (code : Z) | Panicked.

#[global] Instance Exit_eq_dec : EqDecision Exit.
Proof. solve_decision. Defined.

Inductive Action :=
| OpenDebugConsole | WriteDebug (b : list Z) | FlushDebug | Sleep (ms : Z) | OpenTargetConsole | HandleSigint | Echo (b : Z).

Definition fail_message : list Z := [newline] ++ bytes_of_string "TEST_FINISHED: FAIL" ++ [newline].
Definition success_message : list Z := [newline] ++ bytes_of_string "TEST_FINISHED: SUCCESS" ++ [newline].

(** [for i in 1..buffer.len() { buffer[i-1] = buffer[i]; }], then the last byte. *)
Definition rotate (byte : Z) (buffer : list Z) : list Z :=
  let shifted := foldl (λ buf i, match buf !! i with Some b => <[(i - 1)%nat := b]> buf | None => buf end) buffer (seq 1 (length buffer - 1)) in
  <[(length buffer - 1)%nat := byte]> shifted.

Definition initial_buffer : list Z := replicate (Nat.max (length fail_message) (length success_message)) 0.

(** The loop over the bytes of the console; the actions it has taken are returned. *)
Fixpoint watch (env : Action → bool) (test_mode : bool) (buffer : list Z) (input : list (option Z)) : Exit * list Action :=
  match input with
  | [] => (Exited 6, [])
  | None :: _ => (Panicked, [])
  | Some byte :: input =>
      if negb (env (Echo byte)) then (Panicked, [Echo byte])
      else
        let buffer := if test_mode then rotate byte buffer else buffer in
        if test_mode && bool_decide (drop (length success_message - length fail_message) buffer = fail_message) then (Exited 3, [Echo byte])
        else if test_mode && bool_decide (buffer = success_message) then (Returned, [Echo byte])
        else let '(e, l) := watch env test_mode buffer input in (e, Echo byte :: l)
  end.

Definition fallible (a : Action) : bool := match a with Sleep _ | HandleSigint => false | _ => true end.

(** Actions in sequence; the first one that fails is an [expect] that panics. *)
Fixpoint attempt (env : Action → bool) (l : list Action) (k : Exit * list Action) : Exit * list Action :=
  match l with
  | [] => k
  | a :: l => if env a || negb (fallible a) then let '(e, done) := attempt env l k in (e, a :: done) else (Panicked, [a])
  end.

(** [delay]: the argument of [--delay], [Some None] when it cannot be parsed. *)
Definition main (env : Action → bool) (delay : option (option Z)) (test_mode : bool) (input : list (option Z)) : Exit * list Action :=
  match default (Some 100) delay with
  | None => (Panicked, [])
  | Some delay =>
      attempt env
        ([OpenDebugConsole; WriteDebug (bytes_of_string "0"); FlushDebug; Sleep delay; OpenTargetConsole;
          WriteDebug (bytes_of_string "1"); FlushDebug] ++ (if test_mode then [] else [HandleSigint]))
        (watch env test_mode initial_buffer input)
  end.

End Runner.

Module RunnerFacts.
Import Runner.

(** *** The buffer is a window over the output *)

Lemma shift_prefix (b : Z) (l r : list Z) n : (n <= length r)%nat →
  foldl (λ buf i, match buf !! i with Some b => <[(i - 1)%nat := b]> buf | None => buf end) (l ++ b :: r) (seq (S (length l)) n) =
  l ++ take n r ++ drop n (b :: r).
Proof.
  revert b l n. induction r as [| c r IH]; intros b l n Hn; simpl in Hn.
  - replace n with 0%nat by lia. done.
  - destruct n as [| n]; [done |]. cbn [seq foldl].
    rewrite (lookup_app_r l) by lia. replace (S (length l) - length l)%nat with 1%nat by lia. cbn [lookup list_lookup].
    replace (<[(S (length l) - 1)%nat:=c]> (l ++ b :: c :: r)) with ((l ++ [c]) ++ c :: r).
    + replace (S (S (length l))) with (S (length (l ++ [c]))) by (rewrite length_app; simpl; lia).
      rewrite IH by lia. by rewrite <- app_assoc.
    + replace (S (length l) - 1)%nat with (length l + 0)%nat by lia. rewrite insert_app_r. simpl. by rewrite <- app_assoc.
Qed.

Lemma rotate_shifts byte b buffer : rotate byte (b :: buffer) = buffer ++ [byte].
Proof.
  unfold rotate. cbn [length]. replace (S (length buffer) - 1)%nat with (length buffer) by lia.
  pose proof (shift_prefix b [] buffer (length buffer) ltac:(lia)) as E. cbn [app length] in E. rewrite E, take_ge by lia.
  replace (length buffer) with (length buffer + 0)%nat at 1 by lia. rewrite insert_app_r. f_equal.
  destruct (drop (length buffer) (b :: buffer)) as [| c l] eqn:Ed.
  - apply (f_equal length) in Ed. rewrite length_drop in Ed. simpl in Ed. lia.
  - apply (f_equal length) in Ed. rewrite length_drop in Ed. simpl in Ed. destruct l; [done | simpl in Ed; lia].
Qed.

(** The last [n] bytes of the output, after [n] zeros. *)
Definition window (n : nat) (seen : list Z) : list Z := drop (length seen) (replicate n 0 ++ seen).

Lemma window_nil n : window n [] = replicate n 0.
Proof. unfold window. simpl. by rewrite app_nil_r. Qed.

Lemma length_window n seen : length (window n seen) = n.
Proof. unfold window. rewrite length_drop, length_app, length_replicate. lia. Qed.

Lemma window_snoc n seen byte : (0 < n)%nat → window n (seen ++ [byte]) = rotate byte (window n seen).
Proof.
  intros Hn. destruct (window n seen) as [| b w] eqn:E; [apply (f_equal length) in E; rewrite length_window in E; simpl in E; lia |].
  rewrite rotate_shifts. unfold window in *. rewrite length_app, app_assoc. simpl. rewrite drop_app_le.
  - replace (length seen + 1)%nat with (1 + length seen)%nat by lia. rewrite Nat.add_comm, <- drop_drop, E. done.
  - rewrite length_app, length_replicate. lia.
Qed.

(** A message without zeros is in the window exactly when the output ends with it. *)
Lemma window_ends n seen msg : (length msg <= n)%nat → Forall (λ b, b ≠ 0) msg →
  drop (n - length msg) (window n seen) = msg ↔ msg `suffix_of` seen.
Proof.
  intros Hl Hz. unfold window. rewrite drop_drop. split.
  - intros E. destruct (decide (length msg <= length seen)%nat) as [Hs | Hs].
    + rewrite drop_app_ge in E by (rewrite length_replicate; lia). rewrite length_replicate in E.
      exists (take (length seen + (n - length msg) - n) seen). rewrite <- E at 2. by rewrite take_drop.
    + exfalso. destruct msg as [| m msg]; [simpl in Hs; lia |]. apply Forall_inv in Hz. apply Hz. simpl in *.
      apply (f_equal head) in E. rewrite drop_app_le in E by (rewrite length_replicate; lia).
      rewrite drop_replicate in E. destruct (n - (length seen + (n - S (length msg))))%nat eqn:Ek; [lia | simpl in E; congruence].
  - intros [pre ->]. rewrite length_app, app_assoc, drop_app_ge; [| rewrite length_app, length_replicate; lia].
    rewrite length_app, length_replicate. replace (length pre + length msg + (n - length msg) - (n + length pre))%nat with 0%nat by lia. done.
Qed.

(** What the runner is meant to do: look at the whole output after every byte. *)
Fixpoint verdict (seen input : list Z) : Exit * list Z :=
  match input with
  | [] => (Exited 6, seen)
  | byte :: input =>
      let seen := seen ++ [byte] in
      if decide (fail_message `suffix_of` seen) then (Exited 3, seen)
      else if decide (success_message `suffix_of` seen) then (Returned, seen)
      else verdict seen input
  end.

Definition echoed (l : list Action) : list Z := omap (λ a, match a with Echo b => Some b | _ => None end) l.

Lemma watch_verdict env seen input : (∀ b, env (Echo b) = true) →
  let '(e, l) := watch env true (window 24 seen) (Some <$> input) in verdict seen input = (e, seen ++ echoed l).
Proof.
  intros Henv. revert seen. induction input as [| byte input IH]; intros seen; cbn [fmap list_fmap watch verdict]; [by rewrite app_nil_r |].
  rewrite Henv. cbn [negb andb]. rewrite <- window_snoc by lia.
  pose proof (window_ends 24 (seen ++ [byte]) fail_message) as Hf. pose proof (window_ends 24 (seen ++ [byte]) success_message) as Hs.
  change (24 - length fail_message)%nat with 3%nat in Hf. change (24 - length success_message)%nat with 0%nat in Hs. rewrite drop_0 in Hs.
  change (length success_message - length fail_message)%nat with 3%nat.
  rewrite (bool_decide_ext _ (fail_message `suffix_of` (seen ++ [byte]))) by (apply Hf; [vm_compute; lia | by_compute]).
  rewrite (bool_decide_ext (window 24 (seen ++ [byte]) = _) (success_message `suffix_of` (seen ++ [byte]))) by (apply Hs; [vm_compute; lia | by_compute]).
  case_decide as Hd1; [rewrite bool_decide_eq_true_2 by done; done |]. rewrite (bool_decide_eq_false_2 _ Hd1).
  case_decide as Hd2; [rewrite bool_decide_eq_true_2 by done; done |]. rewrite (bool_decide_eq_false_2 _ Hd2).
  specialize (IH (seen ++ [byte])). destruct (watch _ _ _ _) as [e l]. rewrite IH. cbn [echoed omap list_omap]. by rewrite <- app_assoc.
Qed.

(** *** Lines *)

Lemma unlines_cons l ls : unlines (l :: ls) = l ++ newline :: unlines ls.
Proof. unfold unlines, println. simpl. by rewrite <- app_assoc. Qed.
Lemma unlines_app a b : unlines (a ++ b) = unlines a ++ unlines b.
Proof. unfold unlines. by rewrite fmap_app, concat_app. Qed.

(** Where the first newline of a text is. *)
Lemma first_newline (a b x y : list Z) : newline ∉ a → newline ∉ b → a ++ newline :: x = b ++ newline :: y → a = b ∧ x = y.
Proof.
  revert b. induction a as [| c a IH]; intros [| d b] Ha Hb E; simplify_eq/=.
  - done.
  - destruct Hb. left.
  - destruct Ha. left.
  - destruct (IH b) as [-> ->]; [by intros ?; apply Ha; right | by intros ?; apply Hb; right | done | done].
Qed.

(** Text between two newlines of the output, or of a part of it from its start, is a line. *)
Lemma enclosed_is_line ls q w rest : Forall (λ l, newline ∉ l) ls → newline ∉ w →
  q ++ newline :: w ++ newline :: rest = unlines ls → w ∈ ls.
Proof.
  intros Hls Hw. revert q. induction Hls as [| l ls Hl Hls IH]; intros q E; [by destruct q |].
  rewrite unlines_cons in E. destruct (decide (newline ∈ q)) as [Hq | Hq].
  - apply list_elem_of_split_l in Hq as (q1 & q2 & -> & Hq1). rewrite <- app_assoc in E. cbn [app] in E.
    apply first_newline in E as [_ E]; [| done | done]. right. by apply (IH q2).
  - apply first_newline in E as [_ E]; [| done | done]. destruct ls as [| l2 ls]; [by destruct w |]. rewrite unlines_cons in E.
    apply Forall_inv in Hls. apply first_newline in E as [-> _]; [right; left | done | done].
Qed.

Lemma verdict_skip seen l1 l2 :
  (∀ p, p `prefix_of` l1 → p ≠ [] → ¬ (fail_message `suffix_of` (seen ++ p)) ∧ ¬ (success_message `suffix_of` (seen ++ p))) →
  verdict seen (l1 ++ l2) = verdict (seen ++ l1) l2.
Proof.
  revert seen. induction l1 as [| b l1 IH]; intros seen Hp; [by rewrite app_nil_r |]. cbn [app verdict].
  destruct (Hp [b]) as [Hf Hs]; [by exists l1 | done |]. rewrite !decide_False by done.
  rewrite IH; [by rewrite <- app_assoc |]. intros p [r ->] _. rewrite <- app_assoc. apply Hp; [by exists r | done].
Qed.

Import Harness.

(** Lines that are not the last line of a test run. *)
Definition ordinary (l : list Z) : Prop := newline ∉ l ∧ l ≠ FINISHED_SUCCESS ∧ l ≠ FINISHED_FAIL.

Lemma finished_verdict ls (success : bool) rest : ls ≠ [] → Forall ordinary ls →
  let output := unlines (ls ++ [if success then FINISHED_SUCCESS else FINISHED_FAIL]) in
  verdict [] (output ++ rest) = (if success then Returned else Exited 3, output).
Proof.
  intros Hne Hls output. set (final := if success then FINISHED_SUCCESS else FINISHED_FAIL) in *.
  assert (Hfinal : newline ∉ final) by (destruct success; by_compute).
  assert (Hnl : Forall (λ l, newline ∉ l) (ls ++ [final])).
  { apply Forall_app. split; [by eapply Forall_impl; [exact Hls |]; intros l [? _] | by repeat constructor]. }
  assert (Hout : output = (unlines ls ++ final) ++ [newline]).
  { unfold output. rewrite unlines_app. unfold unlines at 2, println. simpl. by rewrite app_nil_r, app_assoc. }
  assert (Hline : ∀ w p r, newline ∉ w → p ++ r = output → (newline :: w ++ [newline]) `suffix_of` p → w ∈ (ls ++ [final])).
  { intros w p r Hw Hp [q ->]. apply (enclosed_is_line _ q w r); [done | done |]. fold output. rewrite <- Hp, <- app_assoc. simpl. by rewrite <- app_assoc. }
  assert (Hbefore : ∀ w p, newline ∉ w → w = FINISHED_SUCCESS ∨ w = FINISHED_FAIL → p `prefix_of` (unlines ls ++ final) → ¬ ((newline :: w ++ [newline]) `suffix_of` p)).
  { intros w p Hw Hm [r Hp] Hs. destruct (decide (p `prefix_of` unlines ls)) as [[r' Hr] | Hn].
    - destruct Hs as [q ->]. assert (Hin : w ∈ ls).
      { apply (enclosed_is_line ls q w r'); [by apply Forall_app in Hnl as [? _] | done |]. rewrite Hr, <- app_assoc. simpl. by rewrite <- app_assoc. }
      rewrite Forall_forall in Hls. destruct (Hls w Hin) as (_ & ? & ?). naive_solver.
    - apply app_eq_inv in Hp as [(k & Hk & Hr) | (k & Hk & Hr)]; [destruct Hn; by exists k |]. destruct Hs as [q Hq].
      rewrite Hq in Hk. destruct k as [| c k _] using rev_ind; [destruct Hn; exists []; by rewrite Hq, Hk, !app_nil_r |].
      apply Hfinal. rewrite Hr. apply elem_of_app. left. apply elem_of_app. right.
      change (newline :: w ++ [newline]) with ((newline :: w) ++ [newline]) in Hk. rewrite !app_assoc in Hk.
      apply app_inj_tail in Hk as [_ <-]. by left. }
  assert (Hend : (newline :: final ++ [newline]) `suffix_of` output).
  { destruct ls as [| l ls _] using rev_ind; [done |]. rewrite Hout, unlines_app. exists (unlines ls ++ l).
    unfold unlines at 2, println. simpl. rewrite app_nil_r, <- !app_assoc. done. }
  rewrite Hout at 1. rewrite <- app_assoc, verdict_skip.
  - cbn [app verdict]. rewrite <- Hout. destruct success.
    + rewrite decide_False; [by rewrite decide_True |]. intros Hs.
      assert (Hin : FINISHED_FAIL ∈ (ls ++ [final])) by (apply (Hline FINISHED_FAIL output []); [by_compute | by rewrite app_nil_r | exact Hs]).
      apply elem_of_app in Hin as [Hin | Hin%list_elem_of_singleton]; [| discriminate Hin].
      rewrite Forall_forall in Hls. by destruct (Hls _ Hin) as (_ & _ & ?).
    + by rewrite decide_True.
  - intros p Hp _. cbn [app]. split; [apply (Hbefore FINISHED_FAIL) | apply (Hbefore FINISHED_SUCCESS)]; auto; by_compute.
Qed.


(** *** The lines of the harness *)

(** A test that prints lines of its own only. *)
Definition well_behaved (t : TestDescAndFn) : Prop := newline ∉ name (desc t) ∧ Forall ordinary (testfn t).1.

(** What the run should report. *)
Definition all_succeed (tests : list TestDescAndFn) : bool := forallb (λ t, ignore (desc t) || (testfn t).2) tests.

Lemma prefixed_ordinary c (s rest : list Z) : c ≠ 84 → newline ∉ (c :: s) → newline ∉ rest → ordinary ((c :: s) ++ rest).
Proof.
  intros Hc Hs Hr. split; [by rewrite elem_of_app; intros [? | ?] |].
  split; intros E; apply (f_equal head) in E; vm_compute in E; congruence.
Qed.

Lemma run_tests_ordinary tests ok : Forall well_behaved tests → Forall ordinary (run_tests tests ok).1 ∧ (run_tests tests ok).2 = ok && all_succeed tests.
Proof.
  intros Hw. revert ok. induction Hw as [| t tests [Hn Hp] _ IH]; intros ok; [by rewrite andb_true_r |].
  cbn [run_tests all_succeed forallb]. unfold run_test.
  assert (Hend : ∀ b : bool, newline ∉ (bytes_of_string ". Result: " ++ bytes_of_string (if b then "succeeded" else "failed"))) by (intros []; by_compute).
  destruct (ignore (desc t)); cbn [orb andb].
  - specialize (IH ok). destruct (run_tests tests ok) as [l o]. cbn [fst snd app] in *. split; [| apply IH].
    constructor; [| apply IH]. apply prefixed_ordinary; [done | by_compute | done].
  - destruct (testfn t) as [printed r]. unfold assert_test_result. specialize (IH (ok && r)). destruct (run_tests tests (ok && r)) as [l o].
    cbn [fst snd app] in *. split; [| by rewrite (proj2 IH), andb_assoc].
    constructor; [apply prefixed_ordinary; [done | by_compute | done] |]. rewrite <- app_assoc. apply Forall_app. split; [done |].
    constructor; [| apply IH]. apply prefixed_ordinary; [done | by_compute |]. rewrite elem_of_app. intros [? | ?]; [done | by apply (Hend r)].
Qed.

Lemma attempt_all env l e done : (∀ a, env a = true) → attempt env l (e, done) = (e, l ++ done).
Proof. intros Henv. induction l as [| a l IH]; [done |]. cbn [attempt]. by rewrite Henv, IH. Qed.

(** What comes behind the end of a run is not read. *)
Lemma watch_app env tm buf input rest e l : watch env tm buf input = (e, l) → e ≠ Exited 6 → watch env tm buf (input ++ rest) = (e, l).
Proof.
  revert buf e l. induction input as [| [b |] input IH]; intros buf e l E He; cbn [watch app] in *; [congruence | | done].
  destruct (negb (env (Echo b))); [done |]. set (buf' := if tm then rotate b buf else buf) in *.
  destruct (tm && bool_decide (drop _ buf' = fail_message)); [done |]. destruct (tm && bool_decide (buf' = success_message)); [done |].
  destruct (watch env tm buf' input) as [e' l'] eqn:Ew. injection E as <- <-. by rewrite (IH _ _ _ Ew He).
Qed.


End RunnerFacts.
