(* ===== verification/FakeFlash.v ===== *)
(** The flash of the counter's tests (userspace/nvcounter_test/src/fake_flash.rs): an
    implementation of the flash interface that knows the two pages of the counter, keeps
    them run-length encoded in five runs, and fails on demand.

    An index behind the five runs panics, which is [None]. *)

From S2P Require Import Prelude Tock FlashHil NvCounter.
From Stdlib Require Import ZArith Lia.
From stdpp Require Import base decidable option list list_numbers.

#[local] Open Scope Z_scope.

Definition HIGH_PAGE_START : Z := NV_WORDS_PER_PAGE * page_number High.
Definition LOW_PAGE_START : Z := NV_WORDS_PER_PAGE * page_number Low.
Definition NUM_RUNS : nat := 5.

Definition offset_to_page (offset : Z) : option Page :=
  if offset <? HIGH_PAGE_START then None
  else if offset <? LOW_PAGE_START then Some High
  else if offset <? NV_WORDS_PER_PAGE * (1 + page_number Low) then Some Low
  else None.

Inductive ErrorTime := Fast | Callback.

Definition start_return_code (error_time : ErrorTime) : ReturnCode :=
  match error_time with Fast => FAIL | Callback => SUCCESS end.

(** ** Building runs *)

Module RleBuilder.

Record t := mk { cur_run : nat; lens : list Z; values : list Z }.

Definition new : t := mk 0 (replicate NUM_RUNS 0) (replicate NUM_RUNS 0).

Definition append (value : Z) (b : t) : option t :=
  cur ← values b !! cur_run b;
  if value =? cur then
    len ← lens b !! cur_run b;
    Some (mk (cur_run b) (<[cur_run b := wrap 16 (len + 1)]> (lens b)) (values b))
  else
    first ← lens b !! 0%nat;
    if first =? 0 then Some (mk (cur_run b) (<[0%nat := 1]> (lens b)) (<[0%nat := value]> (values b)))
    else
      let cur_run := S (cur_run b) in
      if (cur_run <? NUM_RUNS)%nat then Some (mk cur_run (<[cur_run := 1]> (lens b)) (<[cur_run := value]> (values b)))
      else None.

Definition build (b : t) : list Z * list Z := (lens b, values b).

End RleBuilder.

(** ** A page *)

Module FakePage.

Record t := mk { lens : list Z; values : list Z }.

Definition new : t := mk (NV_WORDS_PER_PAGE :: replicate 4 0) (replicate NUM_RUNS 0xFFFFFFFF).

Definition erase (_ : t) : t := mk (NV_WORDS_PER_PAGE :: replicate 4 0) (replicate NUM_RUNS 0xFFFFFFFF).

(** [for i in 0..NUM_RUNS]: the runs from one on, which starts at [start]. *)
Fixpoint read_from (start offset : Z) (lens values : list Z) : Z :=
  match lens, values with
  | l :: lens, v :: values => let end_ := start + l in if offset <? end_ then v else read_from end_ offset lens values
  | _, _ => 0
  end.

Definition read (offset : Z) (p : t) : Z := read_from 0 offset (lens p) (values p).

(** [while start + lens[cur_run] <= i]: the run that contains the index [i]. *)
Fixpoint advance (fuel : nat) (lens : list Z) (i : Z) (cur_run : nat) (start : Z) : option (nat * Z) :=
  len ← lens !! cur_run;
  if start + len <=? i then
    match fuel with O => None | S fuel => advance fuel lens i (S cur_run) (start + len) end
  else Some (cur_run, start).

(** [for i in 0..WORDS_PER_PAGE]: [n] indices from [i] on. *)
Fixpoint write_loop (n : nat) (i : Z) (p : t) (offset : Z) (data : list Z) (cur_run : nat) (start : Z) (b : RleBuilder.t) : option RleBuilder.t :=
  match n with
  | O => Some b
  | S n =>
      if (offset <=? i) && (i <? offset + Z.of_nat (length data)) then
        v ← data !! Z.to_nat (i - offset);
        b ← RleBuilder.append v b;
        write_loop n (i + 1) p offset data cur_run start b
      else
        '(cur_run, start) ← advance NUM_RUNS (lens p) i cur_run start;
        v ← values p !! cur_run;
        b ← RleBuilder.append v b;
        write_loop n (i + 1) p offset data cur_run start b
  end.

Definition write (offset : Z) (data : list Z) (p : t) : option t :=
  b ← write_loop (Z.to_nat NV_WORDS_PER_PAGE) 0 p offset data 0 0 RleBuilder.new;
  let '(lens, values) := RleBuilder.build b in
  Some (mk lens values).

End FakePage.

(** ** The flash *)

Module FakeFlash.

Record t := mk {
  buffer : option (list Z);
  busy : bool;
  high_page : FakePage.t;
  low_page : FakePage.t;
  error_time : option ErrorTime
}.

Definition new : t := mk None false FakePage.new FakePage.new None.

Definition configure_error (e : option ErrorTime) (s : t) : t := mk (buffer s) (busy s) (high_page s) (low_page s) e.
Definition retrieve_buffer (s : t) : option (list Z) * t := (buffer s, mk None (busy s) (high_page s) (low_page s) (error_time s)).
Definition set_busy (b : bool) (s : t) : t := mk (buffer s) b (high_page s) (low_page s) (error_time s).
Definition set_buffer (b : list Z) (s : t) : t := mk (Some b) (busy s) (high_page s) (low_page s) (error_time s).
Definition page (p : Page) (s : t) : FakePage.t := match p with High => high_page s | Low => low_page s end.
Definition set_page (p : Page) (x : FakePage.t) (s : t) : t :=
  match p with
  | High => mk (buffer s) (busy s) x (low_page s) (error_time s)
  | Low => mk (buffer s) (busy s) (high_page s) x (error_time s)
  end.

Definition erase (n : Z) : K t ReturnCode := λ s,
  match error_time s with
  | Some e => (Ok (start_return_code e), s)
  | None =>
      if busy s then (Ok EBUSY, s)
      else if n =? 254 then (Ok SUCCESS, set_page High (FakePage.erase (high_page s)) s)
      else if n =? 255 then (Ok SUCCESS, set_page Low (FakePage.erase (low_page s)) s)
      else (Ok FAIL, s)
  end.

Definition read (offset : Z) (s : t) : ReturnCode :=
  match offset_to_page offset with
  | None => ESIZE
  | Some High => SuccessWithValue (FakePage.read (offset - HIGH_PAGE_START) (high_page s))
  | Some Low => SuccessWithValue (FakePage.read (offset - LOW_PAGE_START) (low_page s))
  end.

Definition write (target : Z) (data : list Z) : K t (ReturnCode * option (list Z)) := λ s,
  match error_time s with
  | Some Fast => (Ok (FAIL, Some data), s)
  | Some Callback => (Ok (SUCCESS, None), set_buffer data s)
  | None =>
      if busy s then (Ok (EBUSY, Some data), s)
      else
        let into p start :=
          match FakePage.write (target - start) data (page p s) with
          | Some x => (Ok (SUCCESS, None), set_buffer data (set_page p x s))
          | None => (Panic, s)
          end in
        match offset_to_page target with
        | None => (Ok (ESIZE, Some data), s)
        | Some High => into High HIGH_PAGE_START
        | Some Low => into Low LOW_PAGE_START
        end
  end.

#[global] Instance FakeFlash_Flash : Flash t := {| flash_erase := erase; flash_read := read; flash_write := write |}.

End FakeFlash.

(** ** The page as 512 words

    What a page stores is the expansion of its runs.  A write is the update of the words
    at its offset whenever the result has at most five runs; with more runs it panics. *)

Module FakeFlashFacts.

Definition expand (lens values : list Z) : list Z :=
  concat (zip_with (λ l v, replicate (Z.to_nat l) v) lens values).

Definition words (p : FakePage.t) : list Z := expand (FakePage.lens p) (FakePage.values p).

(** The maximal blocks of equal words. *)
Fixpoint runs (l : list Z) : nat :=
  match l with
  | [] => 0
  | x :: r => match r with [] => 1 | y :: _ => (if decide (x = y) then 0 else 1) + runs r end
  end%nat.

Record wf (p : FakePage.t) : Prop := {
  wf_lens : length (FakePage.lens p) = NUM_RUNS;
  wf_values : length (FakePage.values p) = NUM_RUNS;
  wf_nonneg : Forall (Z.le 0) (FakePage.lens p);
  wf_words : Z.of_nat (length (words p)) = NV_WORDS_PER_PAGE
}.

(** Where the run [k] starts. *)
Definition start_of (lens : list Z) (k : nat) : Z := foldr Z.add 0 (take k lens).

Lemma expand_cons l v lens values : expand (l :: lens) (v :: values) = replicate (Z.to_nat l) v ++ expand lens values.
Proof. done. Qed.

Lemma expand_app lens1 lens2 values1 values2 :
  length lens1 = length values1 →
  expand (lens1 ++ lens2) (values1 ++ values2) = expand lens1 values1 ++ expand lens2 values2.
Proof. intros. unfold expand. by rewrite zip_with_app, concat_app. Qed.

Lemma expand_zeros n v : expand (replicate n 0) (replicate n v) = [].
Proof. induction n as [|n IH]; [done|]. by rewrite !replicate_S, expand_cons, IH. Qed.

Lemma expand_lookup lens values k n v i :
  Forall (Z.le 0) lens → lens !! k = Some n → values !! k = Some v →
  start_of lens k <= i < start_of lens k + n → expand lens values !! Z.to_nat i = Some v.
Proof.
  unfold start_of. revert values k i; induction lens as [|l lens IH]; intros values k i Hpos; [done|].
  destruct values as [|w values]; [by intros; rewrite lookup_nil in *|].
  apply Forall_cons in Hpos as [Hl Hpos]. rewrite expand_cons.
  destruct k as [|k]; simpl; intros Hn Hv Hi.
  - simplify_eq. rewrite lookup_app_l by (rewrite length_replicate; lia). apply lookup_replicate_2. lia.
  - assert (0 <= foldr Z.add 0 (take k lens)).
    { pose proof (Forall_take (Z.le 0) k lens Hpos) as Ht. revert Ht. generalize (take k lens). induction 1; simpl; lia. }
    rewrite lookup_app_r by (rewrite length_replicate; lia).
    rewrite length_replicate, <- Z2Nat.inj_sub by lia. apply (IH _ k); auto. lia.
Qed.

Lemma expand_length lens values :
  length lens = length values → Forall (Z.le 0) lens → Z.of_nat (length (expand lens values)) = start_of lens (length lens).
Proof.
  revert values; induction lens as [|l lens IH]; intros [|v values] Hlen Hpos; simplify_eq/=; [done|].
  apply Forall_cons in Hpos as [Hl Hpos]. rewrite expand_cons, length_app, length_replicate.
  unfold start_of in *. simpl. rewrite <- (IH values) by done. lia.
Qed.

(** *** Reading *)

Lemma read_from_words lens values start offset v :
  length lens = length values → Forall (Z.le 0) lens → start <= offset →
  expand lens values !! Z.to_nat (offset - start) = Some v →
  FakePage.read_from start offset lens values = v.
Proof.
  revert values start; induction lens as [|l lens IH]; intros [|w values] start Hlen Hpos Hs Hv; simplify_eq/=.
  apply Forall_cons in Hpos as [Hl Hpos]. rewrite expand_cons in Hv. destruct (Z.ltb_spec offset (start + l)).
  - rewrite lookup_app_l in Hv by (rewrite length_replicate; lia). apply lookup_replicate in Hv as [-> _]. done.
  - rewrite lookup_app_r in Hv by (rewrite length_replicate; lia).
    rewrite length_replicate, <- Z2Nat.inj_sub in Hv by lia.
    apply IH; auto with lia. by replace (offset - (start + l)) with (offset - start - l) by lia.
Qed.

Lemma read_words p i w : wf p → 0 <= i → words p !! Z.to_nat i = Some w → FakePage.read i p = w.
Proof.
  intros [Hl Hv Hn _] Hi Hw. apply read_from_words; [congruence|done..|]. by rewrite Z.sub_0_r.
Qed.

(** *** The runs of a list that grows at its end *)

Lemma runs_snoc l v : runs (l ++ [v]) = if decide (last l = Some v) then runs l else S (runs l).
Proof.
  induction l as [|x [|y l] IH]; [done|simpl; repeat case_decide; naive_solver|].
  change (last (x :: y :: l)) with (last (y :: l)).
  change (runs ((x :: y :: l) ++ [v])) with ((if decide (x = y) then 0 else 1) + runs ((y :: l) ++ [v]))%nat.
  rewrite IH. change (runs (x :: y :: l)) with ((if decide (x = y) then 0 else 1) + runs (y :: l))%nat.
  case_decide; lia.
Qed.

Lemma runs_app_le l k : (runs l ≤ runs (l ++ k))%nat.
Proof.
  induction k as [|v k IH] using rev_ind; [by rewrite app_nil_r|].
  rewrite app_assoc, runs_snoc. case_decide; lia.
Qed.

(** The builder has been given the words [l]: [ls] and [vs] are the complete runs. *)
Inductive built (b : RleBuilder.t) (l : list Z) : Prop :=
| Built (ls vs : list Z) (n v : Z) :
    RleBuilder.lens b = ls ++ n :: replicate (4 - length ls) 0 →
    RleBuilder.values b = vs ++ v :: replicate (4 - length ls) 0 →
    RleBuilder.cur_run b = length ls → length vs = length ls → (length ls ≤ 4)%nat →
    Forall (Z.lt 0) ls → 0 <= n → (n = 0 → ls = []) →
    l = expand ls vs ++ replicate (Z.to_nat n) v →
    runs l = (if decide (n = 0) then 0%nat else S (length ls)) →
    built b l.

Lemma built_new : built RleBuilder.new [].
Proof. by apply (Built _ _ [] [] 0 0); simpl; auto with lia. Qed.

Lemma last_replicate_S n (v : Z) l : last (l ++ replicate (S n) v) = Some v.
Proof. by rewrite replicate_S_end, app_assoc, last_snoc. Qed.

Lemma insert_middle (l r : list Z) x y : <[length l := y]> (l ++ x :: r) = l ++ y :: r.
Proof. by rewrite insert_app_r_alt, Nat.sub_diag. Qed.

Lemma next_run (l : list Z) j x y k : length l = j → (j < k)%nat →
  <[S j := y]> (l ++ x :: replicate (k - j) 0) = (l ++ [x]) ++ y :: replicate (k - S j) 0.
Proof.
  intros <- Hk. replace (k - length l)%nat with (S (k - S (length l))) by lia.
  generalize (k - S (length l))%nat; intros m. clear. induction l as [|z l IH]; [done|]. simpl. by rewrite <- IH.
Qed.

Lemma first_run_nonzero ls n r : Forall (Z.lt 0) ls → 0 < n → ∃ f, (ls ++ n :: r) !! 0%nat = Some f ∧ f ≠ 0.
Proof. intros Hls Hn. destruct Hls as [|f ls Hf _]; eexists; split; [done|lia|done|lia]. Qed.

(** The last run grows. *)
Lemma append_same b l ls vs n v r :
  RleBuilder.lens b = ls ++ n :: r → RleBuilder.cur_run b = length ls → length vs = length ls →
  RleBuilder.values b = vs ++ v :: r → 0 <= n < 65535 → l = v →
  RleBuilder.append l b = Some (RleBuilder.mk (length ls) (ls ++ (n + 1) :: r) (vs ++ v :: r)).
Proof.
  intros Hl Hc Hlen Hv Hn ->. unfold RleBuilder.append. rewrite Hl, Hv, Hc.
  rewrite (list_lookup_middle vs) by done. simpl. rewrite Z.eqb_refl, (list_lookup_middle ls) by done. simpl.
  rewrite insert_middle. unfold wrap. by rewrite Z.mod_small by lia.
Qed.

Lemma append_built b l v :
  built b l → Z.of_nat (length l) < 65535 →
  if decide (runs (l ++ [v]) ≤ NUM_RUNS)%nat then ∃ b', RleBuilder.append v b = Some b' ∧ built b' (l ++ [v])
  else RleBuilder.append v b = None.
Proof.
  intros [ls vs n w Hlens Hvals Hcur Hvs Hls Hpos Hn Hn0 -> Hruns] Hlen.
  rewrite length_app, length_replicate in Hlen. rewrite runs_snoc, Hruns.
  assert (Hv : (vs ++ w :: replicate (4 - length ls) 0) !! length ls = Some w) by (by rewrite <- Hvs, list_lookup_middle).
  destruct (decide (v = w)) as [->|Hne].
  - erewrite append_same by (done || lia).
    assert (Hle : (runs ((expand ls vs ++ replicate (Z.to_nat n) w) ++ [w]) = S (length ls))%nat).
    { rewrite runs_snoc, Hruns. destruct (decide (n = 0)) as [->|].
      - rewrite (Hn0 eq_refl) in *. apply nil_length_inv in Hvs as ->. done.
      - case_decide; [done|]. destruct (Z.to_nat n) eqn:E; [lia|]. by rewrite last_replicate_S in *. }
    rewrite runs_snoc, Hruns in Hle. rewrite Hle. rewrite decide_True by (unfold NUM_RUNS; lia).
    eexists; split; [done|]. apply (Built _ _ ls vs (n + 1) w); simpl; auto with lia.
    + by rewrite <- app_assoc, <- replicate_S_end, Z2Nat.inj_add, Nat.add_1_r by lia.
    + rewrite runs_snoc, Hruns, Hle, decide_False; lia.
  - unfold RleBuilder.append. rewrite Hcur, Hvals, Hv, Hlens. simpl.
    rewrite (proj2 (Z.eqb_neq v w)) by done. destruct (decide (n = 0)) as [->|Hn1].
    + rewrite Hn0 in * by done. apply nil_length_inv in Hvs as ->. simpl. eexists; split; [done|].
      by apply (Built _ _ [] [] 1 v); simpl; auto with lia.
    + destruct (first_run_nonzero ls n (replicate (4 - length ls) 0) Hpos ltac:(lia)) as (f & -> & Hf). simpl.
      rewrite (proj2 (Z.eqb_neq f 0)) by done.
      assert (Hlast : last (expand ls vs ++ replicate (Z.to_nat n) w) = Some w).
      { destruct (Z.to_nat n) eqn:E; [lia|]. apply last_replicate_S. }
      rewrite Hlast, (decide_False (P := Some w = Some v)) by congruence. unfold NUM_RUNS.
      case_decide as Hd.
      * rewrite (proj2 (Nat.ltb_lt _ _)) by lia. eexists; split; [done|].
        rewrite (next_run ls), (next_run vs) by lia.
        apply (Built _ _ (ls ++ [n]) (vs ++ [w]) 1 v); simpl; rewrite ?length_app; simpl; rewrite ?Nat.add_1_r; auto with lia.
        -- apply Forall_app; split; [done|]. repeat constructor. lia.
        -- rewrite expand_app by done. unfold expand at 3. simpl. by rewrite app_nil_r.
        -- rewrite runs_snoc, Hlast, Hruns, !decide_False by (congruence || lia). done.
      * by rewrite (proj2 (Nat.ltb_ge _ _)) by lia.
Qed.

Fixpoint append_all (l : list Z) (b : RleBuilder.t) : option RleBuilder.t :=
  match l with [] => Some b | v :: l => b ← RleBuilder.append v b; append_all l b end.

Lemma append_all_built l l0 b :
  built b l0 → Z.of_nat (length (l0 ++ l)) < 65535 →
  if decide (runs (l0 ++ l) ≤ NUM_RUNS)%nat then ∃ b', append_all l b = Some b' ∧ built b' (l0 ++ l)
  else append_all l b = None.
Proof.
  revert l0 b; induction l as [|v l IH]; intros l0 b Hb Hlen.
  - rewrite app_nil_r in *. rewrite decide_True; [by exists b|]. destruct Hb as [ls ? n ? ? ? ? ? ? ? ? ? ? ->].
    unfold NUM_RUNS. case_decide; lia.
  - rewrite length_app in Hlen. simpl in *. pose proof (append_built b l0 v Hb ltac:(lia)) as Hv.
    rewrite (cons_middle v), app_assoc. case_decide as Hd.
    + destruct Hv as (b' & -> & Hb'). simpl. apply IH; [done|]. rewrite !length_app. simpl. lia.
    + rewrite Hv, decide_False; [done|]. pose proof (runs_app_le (l0 ++ [v]) l). lia.
Qed.

(** *** Writing *)

(** The cursor finds the run that contains an index. *)
Lemma advance_finds lens fuel i k :
  (length lens ≤ fuel + k)%nat → start_of lens k <= i < start_of lens (length lens) →
  ∃ k' n, FakePage.advance fuel lens i k (start_of lens k) = Some (k', start_of lens k') ∧
    lens !! k' = Some n ∧ start_of lens k' <= i < start_of lens k' + n.
Proof.
  assert (Hstart : ∀ k n, lens !! k = Some n → start_of lens (S k) = start_of lens k + n).
  { intros j n Hj. unfold start_of. rewrite (take_S_r _ _ _ Hj), foldr_app. simpl.
    rewrite Z.add_0_r. clear. induction (take j lens); simpl; lia. }
  revert k; induction fuel as [|fuel IH]; intros k Hf Hi.
  all: destruct (lens !! k) as [n|] eqn:Hk;
    [|apply lookup_ge_None in Hk; unfold start_of in Hi; rewrite !take_ge in Hi by lia; lia].
  - apply lookup_lt_Some in Hk. lia.
  - simpl. rewrite Hk. simpl. destruct (Z.leb_spec (start_of lens k + n) i).
    + rewrite <- (Hstart k n Hk). apply IH; [lia|]. rewrite (Hstart k n Hk). lia.
    + exists k, n. auto with lia.
Qed.

Lemma write_loop_words p offset data n i k b :
  wf p → 0 <= offset → (n + i = Z.to_nat NV_WORDS_PER_PAGE)%nat → start_of (FakePage.lens p) k <= Z.of_nat i →
  FakePage.write_loop n (Z.of_nat i) p offset data k (start_of (FakePage.lens p) k) b =
  append_all (drop i (list_inserts (Z.to_nat offset) data (words p))) b.
Proof.
  intros Hp Hoff. pose proof (wf_words p Hp) as Hlen.
  revert i k b; induction n as [|n IH]; intros i k b Hni Hk.
  - rewrite drop_ge; [done|]. rewrite length_inserts. lia.
  - destruct (lookup_lt_is_Some_2 (list_inserts (Z.to_nat offset) data (words p)) i) as [w Hw]; [rewrite length_inserts; lia|].
    rewrite (drop_S _ _ _ Hw). cbn [FakePage.write_loop append_all]. replace (Z.of_nat i + 1) with (Z.of_nat (S i)) by lia.
    destruct ((offset <=? Z.of_nat i) && (Z.of_nat i <? offset + Z.of_nat (length data))) eqn:Hin.
    + rewrite list_lookup_inserts in Hw by lia. replace (Z.to_nat (Z.of_nat i - offset)) with (i - Z.to_nat offset)%nat by lia.
      rewrite Hw. simpl. destruct (RleBuilder.append w b); [|done]. simpl. apply IH; lia.
    + assert (Hww : words p !! i = Some w).
      { destruct (decide (i < Z.to_nat offset)%nat); [by rewrite list_lookup_inserts_lt in Hw by lia|].
        by rewrite list_lookup_inserts_ge in Hw by lia. }
      destruct (advance_finds (FakePage.lens p) NUM_RUNS (Z.of_nat i) k) as (k' & m & Ha & Hm & Hk').
      { rewrite (wf_lens p Hp). lia. }
      { split; [done|]. rewrite <- expand_length with (values := FakePage.values p).
        - fold (words p). lia.
        - by rewrite (wf_lens p Hp), (wf_values p Hp).
        - apply (wf_nonneg p Hp). }
      rewrite Ha. simpl.
      destruct (lookup_lt_is_Some_2 (FakePage.values p) k') as [v Hv].
      { apply lookup_lt_Some in Hm. by rewrite (wf_values p Hp), <- (wf_lens p Hp). }
      pose proof (expand_lookup _ _ k' m v (Z.of_nat i) (wf_nonneg p Hp) Hm Hv Hk') as He.
      fold (words p) in He. rewrite Nat2Z.id, Hww in He. simplify_eq. rewrite Hv. simpl.
      destruct (RleBuilder.append v b); [|done]. simpl. apply IH; lia.
Qed.

Lemma built_page b l : built b l → Z.of_nat (length l) = NV_WORDS_PER_PAGE →
  wf (FakePage.mk (RleBuilder.lens b) (RleBuilder.values b)) ∧ words (FakePage.mk (RleBuilder.lens b) (RleBuilder.values b)) = l.
Proof.
  intros [ls vs n v Hl Hv Hc Hvs Hls Hpos Hn Hn0 -> Hr] Hlen.
  assert (Hw : words (FakePage.mk (RleBuilder.lens b) (RleBuilder.values b)) = expand ls vs ++ replicate (Z.to_nat n) v).
  { unfold words. simpl. by rewrite Hl, Hv, expand_app, expand_cons, expand_zeros, app_nil_r. }
  split; [|done]. split; simpl; [..|by rewrite Hw].
  - rewrite Hl, length_app. simpl. rewrite length_replicate. unfold NUM_RUNS. lia.
  - rewrite Hv, length_app. simpl. rewrite length_replicate. unfold NUM_RUNS. lia.
  - rewrite Hl. apply Forall_app; split; [eapply Forall_impl; [done|]; simpl; lia|].
    constructor; [done|]. by apply Forall_replicate.
Qed.

Lemma wf_new : wf FakePage.new ∧ words FakePage.new = replicate (Z.to_nat NV_WORDS_PER_PAGE) 0xFFFFFFFF.
Proof.
  assert (Hw : words FakePage.new = replicate (Z.to_nat NV_WORDS_PER_PAGE) 0xFFFFFFFF).
  { change (words FakePage.new) with (expand (NV_WORDS_PER_PAGE :: replicate 4 0) (0xFFFFFFFF :: replicate 4 0xFFFFFFFF)).
    by rewrite expand_cons, expand_zeros, app_nil_r. }
  split; [|done]. split; [done..| |].
  - repeat constructor; done.
  - rewrite Hw, length_replicate. by vm_compute.
Qed.

(** A write to a page: the words with the data at the offset, cut at the end of the page;
    a panic exactly when this has more than five runs. *)
Lemma write_words p offset data :
  wf p → 0 <= offset →
  let l := list_inserts (Z.to_nat offset) data (words p) in
  if decide (runs l ≤ NUM_RUNS)%nat then ∃ p', FakePage.write offset data p = Some p' ∧ wf p' ∧ words p' = l
  else FakePage.write offset data p = None.
Proof.
  intros Hp Hoff l. assert (Hl : Z.of_nat (length l) = NV_WORDS_PER_PAGE) by (unfold l; rewrite length_inserts; apply (wf_words p Hp)).
  pose proof (append_all_built l [] RleBuilder.new built_new) as Hb. simpl in Hb. rewrite Hl in Hb. specialize (Hb ltac:(done)).
  unfold FakePage.write. pose proof (write_loop_words p offset data (Z.to_nat NV_WORDS_PER_PAGE) 0 0 RleBuilder.new Hp Hoff) as Hw.
  change (start_of (FakePage.lens p) 0) with 0 in Hw. change (Z.of_nat 0) with 0 in Hw. rewrite Hw by lia.
  change (drop 0 (list_inserts (Z.to_nat offset) data (words p))) with l.
  case_decide.
  - destruct Hb as (b & -> & Hb). simpl. destruct (built_page b l Hb Hl). eauto.
  - by rewrite Hb.
Qed.

(** *** The flash *)

Definition page_start (p : Page) : Z := match p with High => HIGH_PAGE_START | Low => LOW_PAGE_START end.
Definition flash_wf (s : FakeFlash.t) : Prop := ∀ p, wf (FakeFlash.page p s).

(** The words behind the two pages' offsets. *)
Definition word_at (offset : Z) (s : FakeFlash.t) : option Z :=
  p ← offset_to_page offset; words (FakeFlash.page p s) !! Z.to_nat (offset - page_start p).

Lemma offset_to_page_range offset p :
  offset_to_page offset = Some p ↔ page_start p <= offset < page_start p + NV_WORDS_PER_PAGE.
Proof.
  unfold offset_to_page, page_start.
  assert (HIGH_PAGE_START = 130048 ∧ LOW_PAGE_START = 130560 ∧ NV_WORDS_PER_PAGE = 512 ∧ page_number Low = 255) as (-> & -> & -> & ->) by done.
  destruct (Z.ltb_spec offset 130048), (Z.ltb_spec offset 130560), (Z.ltb_spec offset (512 * (1 + 255))), p; intuition (congruence || lia).
Qed.

Lemma read_word s offset :
  flash_wf s → FakeFlash.read offset s = match word_at offset s with Some w => SuccessWithValue w | None => ESIZE end.
Proof.
  intros Hs. unfold FakeFlash.read, word_at. destruct (offset_to_page offset) as [p|] eqn:Hp; [|done]. simpl.
  apply offset_to_page_range in Hp. pose proof (Hs p) as Hw.
  destruct (lookup_lt_is_Some_2 (words (FakeFlash.page p s)) (Z.to_nat (offset - page_start p))) as [w Hl].
  { pose proof (wf_words _ Hw). lia. }
  rewrite Hl. destruct p; f_equal; (eapply read_words; [done|simpl in *; lia|done]).
Qed.

Lemma page_set_page p q x s : FakeFlash.page p (FakeFlash.set_page q x s) = if decide (p = q) then x else FakeFlash.page p s.
Proof. by destruct p, q. Qed.

Lemma flash_wf_set_page p x s : flash_wf s → wf x → flash_wf (FakeFlash.set_page p x s).
Proof. intros Hs Hx q. rewrite page_set_page. by case_decide. Qed.

Lemma flash_wf_set_buffer b s : flash_wf s → flash_wf (FakeFlash.set_buffer b s).
Proof. intros Hs q. specialize (Hs q). by destruct q. Qed.

Lemma word_at_set_page p x s offset :
  word_at offset (FakeFlash.set_page p x s) =
  if decide (offset_to_page offset = Some p) then words x !! Z.to_nat (offset - page_start p) else word_at offset s.
Proof.
  unfold word_at. destruct (offset_to_page offset) as [q|]; [|done]. simpl. rewrite page_set_page.
  repeat case_decide; naive_solver.
Qed.

Lemma word_at_set_buffer b s offset : word_at offset (FakeFlash.set_buffer b s) = word_at offset s.
Proof. unfold word_at. by destruct (offset_to_page offset) as [[]|]. Qed.

Lemma write_page s p target data :
  flash_wf s → FakeFlash.error_time s = None → FakeFlash.busy s = false → offset_to_page target = Some p →
  let l := list_inserts (Z.to_nat (target - page_start p)) data (words (FakeFlash.page p s)) in
  if decide (runs l ≤ NUM_RUNS)%nat then
    ∃ x, wf x ∧ words x = l ∧ FakeFlash.write target data s = (Ok (SUCCESS, None), FakeFlash.set_buffer data (FakeFlash.set_page p x s))
  else FakeFlash.write target data s = (Panic, s).
Proof.
  intros Hs He Hb Hp l. pose proof (proj1 (offset_to_page_range _ _) Hp) as Hr.
  pose proof (write_words (FakeFlash.page p s) (target - page_start p) data (Hs p) ltac:(lia)) as Hw.
  unfold FakeFlash.write. rewrite He, Hb, Hp. cbv zeta in Hw. fold l in Hw. case_decide.
  - destruct Hw as (x & Hx & Hwf & Hl). exists x. split_and!; [done..|]. destruct p; simpl in *; by rewrite Hx.
  - destruct p; simpl in *; by rewrite Hw.
Qed.

(** The fake flash of the counter's tests is a flash of two pages of words: a read gives
    the word at its offset or [ESIZE] outside of the two pages; an erase sets the words of
    its page; a write panics exactly when the page it makes has more than the five runs
    that the fake can store, and otherwise stores the data at its offset, up to the end of
    the page, and leaves every other word as it was. *)
Theorem fake_flash_refines s p target data
    (Hwf : flash_wf s) (Herr : FakeFlash.error_time s = None) (Hbusy : FakeFlash.busy s = false)
    (Hin : offset_to_page target = Some p) :
  let l := list_inserts (Z.to_nat (target - page_start p)) data (words (FakeFlash.page p s)) in
  (∀ o, FakeFlash.read o s = match word_at o s with Some w => SuccessWithValue w | None => ESIZE end) ∧
  (∃ s1, FakeFlash.erase (page_number p) s = (Ok SUCCESS, s1) ∧ flash_wf s1 ∧
     ∀ o, word_at o s1 = if decide (offset_to_page o = Some p) then Some 0xFFFFFFFF else word_at o s) ∧
  if decide (runs l ≤ NUM_RUNS)%nat then
    ∃ s2, FakeFlash.write target data s = (Ok (SUCCESS, None), s2) ∧ flash_wf s2 ∧ FakeFlash.buffer s2 = Some data ∧
      ∀ o, word_at o s2 =
        if decide (offset_to_page o = Some p ∧ target <= o < target + Z.of_nat (length data))
        then data !! Z.to_nat (o - target) else word_at o s
  else FakeFlash.write target data s = (Panic, s).
Proof.
  intros l. split; [|split].
  - intros o. by apply read_word.
  - exists (FakeFlash.set_page p FakePage.new s). split.
    { unfold FakeFlash.erase. rewrite Herr, Hbusy. by destruct p. }
    split; [apply flash_wf_set_page; [done|apply wf_new]|]. intros o. rewrite word_at_set_page.
    case_decide as Ho; [|done]. apply offset_to_page_range in Ho.
    rewrite (proj2 wf_new). apply lookup_replicate_2. lia.
  - pose proof (write_page s p target data Hwf Herr Hbusy Hin) as Hw. cbv zeta in Hw. fold l in Hw. case_decide; [|done].
    destruct Hw as (x & Hx & Hl & Hwr). rewrite Hwr. eexists; split; [done|]. split.
    { apply flash_wf_set_buffer. by apply flash_wf_set_page. }
    split; [done|]. intros o. rewrite word_at_set_buffer, word_at_set_page, Hl.
    apply offset_to_page_range in Hin. destruct (decide (offset_to_page o = Some p)) as [Ho|Ho]; [|by rewrite decide_False by (by intros [??])].
    assert (Hwo : word_at o s = words (FakeFlash.page p s) !! Z.to_nat (o - page_start p)) by (unfold word_at; by rewrite Ho).
    rewrite (decide_ext _ (target <= o < target + Z.of_nat (length data))) by (split; [by intros [_ ?]|done]).
    apply offset_to_page_range in Ho. pose proof (wf_words _ (Hwf p)). rewrite Hwo. unfold l. case_decide as Hd.
    + rewrite list_lookup_inserts by lia. f_equal. lia.
    + destruct (decide (o < target)); [by rewrite list_lookup_inserts_lt by lia|by rewrite list_lookup_inserts_ge by lia].
Qed.

Lemma flash_wf_new : flash_wf FakeFlash.new.
Proof. intros []; apply wf_new. Defined.

Lemma fake_flash_refines_witness :
  (∃ s2, FakeFlash.write (HIGH_PAGE_START + 5) [1; 2] FakeFlash.new = (Ok (SUCCESS, None), s2) ∧
     word_at (HIGH_PAGE_START + 6) s2 = Some 2) ∧
  FakeFlash.write LOW_PAGE_START [1; 2; 3; 4; 5] FakeFlash.new = (Panic, FakeFlash.new).
Proof.
  split.
  - destruct (fake_flash_refines FakeFlash.new High (HIGH_PAGE_START + 5) [1; 2] flash_wf_new eq_refl eq_refl eq_refl) as (_ & _ & H).
    rewrite decide_True in H by (vm_compute; lia). destruct H as (s2 & -> & _ & _ & Ho).
    exists s2. split; [done|]. by rewrite Ho.
  - destruct (fake_flash_refines FakeFlash.new Low LOW_PAGE_START [1; 2; 3; 4; 5] flash_wf_new eq_refl eq_refl eq_refl) as (_ & _ & H).
    rewrite decide_False in H by (vm_compute; lia). done.
Defined.

End FakeFlashFacts.
