(* ===== verification/NvTests.v ===== *)
(** The tests of the counter (userspace/nvcounter_test/src): [fake_flash.rs],
    [internal.rs] and [capsule.rs], as the test functions they are, on the models of the
    counter and of the fake flash.  Every one of them returns [true]; the ignored
    [test_full_count], which writes a page 4096 times, is proved, the others run. *)

From S2P Require Import Prelude Tock FlashHil NvCounter NvDevice TestHarness FakeFlash.
From Stdlib Require Import ZArith Lia.
From stdpp Require Import base decidable option list list_numbers strings.

#[local] Open Scope Z_scope.

(** ** fake_flash.rs *)

Module FakeFlashTests.
Import FakeFlash.

Definition write_code (target : Z) (data : list Z) : K FakeFlash.t ReturnCode := '(code, _) ← FakeFlash.write target data; mret code.

Definition test_fake_flash : Test FakeFlash.t bool :=
  require_ret (FakeFlash.erase 254) SUCCESS ;;
  require_ret (FakeFlash.erase 255) SUCCESS ;;
  require_got (FakeFlash.read HIGH_PAGE_START) (SuccessWithValue 0xFFFFFFFF) ;;
  require_got (FakeFlash.read (LOW_PAGE_START + 511)) (SuccessWithValue 0xFFFFFFFF) ;;
  require_ret (FakeFlash.write HIGH_PAGE_START [0]) (SUCCESS, None) ;;
  require_got (FakeFlash.read HIGH_PAGE_START) (SuccessWithValue 0) ;;
  require_got (FakeFlash.read (HIGH_PAGE_START + 1)) (SuccessWithValue 0xFFFFFFFF) ;;
  modify (FakeFlash.configure_error (Some Fast)) ;;
  require_ret (FakeFlash.erase 254) FAIL ;;
  require_ret (FakeFlash.erase 255) FAIL ;;
  require_got (FakeFlash.read HIGH_PAGE_START) (SuccessWithValue 0) ;;
  require_got (FakeFlash.read (LOW_PAGE_START + 511)) (SuccessWithValue 0xFFFFFFFF) ;;
  require_ret (write_code HIGH_PAGE_START [0]) FAIL ;;
  require_got (FakeFlash.read HIGH_PAGE_START) (SuccessWithValue 0) ;;
  require_got (FakeFlash.read (HIGH_PAGE_START + 1)) (SuccessWithValue 0xFFFFFFFF) ;;
  modify (FakeFlash.configure_error (Some Callback)) ;;
  require_ret (FakeFlash.erase 254) SUCCESS ;;
  require_ret (FakeFlash.erase 255) SUCCESS ;;
  require_got (FakeFlash.read HIGH_PAGE_START) (SuccessWithValue 0) ;;
  require_got (FakeFlash.read (LOW_PAGE_START + 511)) (SuccessWithValue 0xFFFFFFFF) ;;
  require_ret (FakeFlash.write HIGH_PAGE_START [3]) (SUCCESS, None) ;;
  require_got (FakeFlash.read HIGH_PAGE_START) (SuccessWithValue 0) ;;
  require_got (FakeFlash.read (HIGH_PAGE_START + 1)) (SuccessWithValue 0xFFFFFFFF) ;;
  mret true.

Definition test_offset_to_page : Test unit bool :=
  require_eq (offset_to_page (254 * 512 - 1)) None ;;
  require_eq (offset_to_page (254 * 512)) (Some High) ;;
  require_eq (offset_to_page (255 * 512 - 1)) (Some High) ;;
  require_eq (offset_to_page (255 * 512)) (Some Low) ;;
  require_eq (offset_to_page (256 * 512 - 1)) (Some Low) ;;
  require_eq (offset_to_page (256 * 512)) None ;;
  require_eq (offset_to_page (2 ^ 32 - 1)) None ;;
  mret true.

Definition page_words (expected : list (Z * Z)) : Test FakePage.t unit :=
  foldr (λ e k, require_got (FakePage.read (fst e)) (snd e) ;; k) (mret tt) expected.

Definition test_fake_page : Test FakePage.t bool :=
  modify FakePage.erase ;;
  page_words [(0, 0xFFFFFFFF); (123, 0xFFFFFFFF); (511, 0xFFFFFFFF)] ;;
  change (FakePage.write 0 [0x3CFFFFFF]) ;;
  page_words [(0, 0x3CFFFFFF); (1, 0xFFFFFFFF)] ;;
  change (FakePage.write 0 [0x00FFFFFF]) ;;
  page_words [(0, 0x00FFFFFF); (1, 0xFFFFFFFF)] ;;
  change (FakePage.write 0 [0; 0; 0; 0; 0; 0]) ;;
  page_words [(0, 0); (1, 0); (2, 0); (3, 0); (4, 0); (5, 0); (6, 0xFFFFFFFF)] ;;
  change (FakePage.write 2 [1; 1]) ;;
  page_words [(0, 0); (1, 0); (2, 1); (3, 1); (4, 0); (5, 0); (6, 0xFFFFFFFF)] ;;
  change (FakePage.write 3 [2; 2; 2; 2; 2]) ;;
  page_words [(0, 0); (1, 0); (2, 1); (3, 2); (4, 2); (5, 2); (6, 2); (7, 2); (8, 0xFFFFFFFF)] ;;
  mret true.

(** [for _ in 0..n { builder.append(v); }] *)
Fixpoint append_times (n : nat) (v : Z) (b : RleBuilder.t) : option RleBuilder.t :=
  match n with O => Some b | S n => b ← RleBuilder.append v b; append_times n v b end.

Definition test_rle_builder : Test RleBuilder.t bool :=
  change (append_times 123 3) ;;
  change (append_times 278 14) ;;
  change (append_times 111 15) ;;
  '(lens, values) ← gets RleBuilder.build;
  require_eq lens [123; 278; 111; 0; 0] ;;
  require_eq (take 3 values) [3; 14; 15] ;;
  mret true.

End FakeFlashTests.

(** ** internal.rs *)

Module InternalTests.

Definition write (target : Z) (data : list Z) : Test FakeFlash.t unit := _ ← run (FakeFlash.write target data); mret tt.

Definition test_read_page_count : Test FakeFlash.t bool :=
  require_got (read_page_count High) 0 ;;
  write HIGH_PAGE_START [0x3FFFFFFF] ;;
  require_got (read_page_count High) 1 ;;
  write HIGH_PAGE_START [0x003CFFFF] ;;
  require_got (read_page_count High) 3 ;;
  write HIGH_PAGE_START [0x002CFFFF] ;;
  require_got (read_page_count High) 4 ;;
  write (HIGH_PAGE_START + 100) [0xFF7FFFFF] ;;
  require_got (read_page_count High) 808 ;;
  mret true.

Definition test_start_increment : Test FakeFlash.t bool :=
  write (HIGH_PAGE_START + 100) [0xFF7FFFFF] ;;
  _ ← run (start_increment High 808 [0]);
  require_got (FakeFlash.read (HIGH_PAGE_START + 101)) (SuccessWithValue 0x3CFFFFFF) ;;
  modify (FakeFlash.configure_error (Some Fast)) ;;
  '(return_code, buffer) ← run (start_increment High 809 [0]);
  require_eq return_code FAIL ;;
  require (bool_decide (is_Some buffer)) ;;
  mret true.

(** The buffer that the flash gives back; it must have one word. *)
Definition retrieved : Test FakeFlash.t (option (list Z)) := λ s,
  let '(b, s) := FakeFlash.retrieve_buffer s in
  match b with
  | None => (Ok None, s)
  | Some b => if (length b =? 1)%nat then (Ok (Some b), s) else (Panic, s)
  end.

(** [for i in 0..COUNTS_PER_PAGE]: [n] rounds from [i] on. *)
Fixpoint count_up (n : nat) (i : Z) (buffer_ref : option (list Z)) : Test FakeFlash.t (option (list Z)) :=
  match n with
  | O => mret buffer_ref
  | S n =>
      require_got (read_page_count Low) i ;;
      buffer ← unwrap buffer_ref;
      _ ← run (start_increment Low i buffer);
      buffer_ref ← retrieved;
      count_up n (i + 1) buffer_ref
  end.

Definition test_full_count : Test FakeFlash.t bool :=
  buffer_ref ← count_up (Z.to_nat COUNTS_PER_PAGE) 0 (Some [0]);
  require_got (read_page_count Low) COUNTS_PER_PAGE ;;
  buffer ← unwrap buffer_ref;
  '(return_code, buffer) ← run (start_increment Low COUNTS_PER_PAGE buffer);
  require_eq return_code ESIZE ;;
  require (bool_decide (is_Some buffer)) ;;
  mret true.

End InternalTests.

(** ** capsule.rs *)

Module CapsuleTests.

Inductive LastCallback := Uncalled | Called (c : CounterCall).

#[global] Instance LastCallback_eq_dec : EqDecision LastCallback.
Proof. solve_decision. Defined.

(** The counter with its flash, and the client. *)
Record t := mk { nvcounter : FlashCounter.t FakeFlash.t; last_callback : LastCallback }.

Definition set_nvcounter (c : FlashCounter.t FakeFlash.t) (s : t) : t := mk c (last_callback s).

Definition setup : t := mk (FlashCounter.set_client (FlashCounter.new [0] FakeFlash.new)) Uncalled.

(** [MockClient]: a call is noted, and taken out by the test. *)
Definition notify (c : option CounterCall) : Test t unit :=
  modify (λ s, match c with Some c => mk (nvcounter s) (Called c) | None => s end).
Definition take_last : M t Empty_set LastCallback := λ s, (Ok (last_callback s), mk (nvcounter s) Uncalled).

Definition on_counter {B} (m : K (FlashCounter.t FakeFlash.t) B) : K t B := zoom nvcounter set_nvcounter m.
Definition initialize : K t ReturnCode := on_counter FlashCounter.initialize.
Definition read_and_increment : K t ReturnCode := on_counter FlashCounter.read_and_increment.
Definition erase_done (code : ReturnCode) : Test t unit := c ← run (on_counter (FlashCounter.erase_done code)); notify c.
(** The test passes a new buffer of one word. *)
Definition write_done (code : ReturnCode) : Test t unit := c ← run (on_counter (FlashCounter.write_done [0] code)); notify c.

Definition on_flash {B} (m : K FakeFlash.t B) : K t B := on_counter (FlashCounter.on_flash m).
Definition configure_error (e : option ErrorTime) : Test t unit := run (on_flash (modify (FakeFlash.configure_error e))).
Definition set_busy (b : bool) : Test t unit := run (on_flash (modify (FakeFlash.set_busy b))).
Definition flash_write (target : Z) (data : list Z) : Test t unit := _ ← run (on_flash (FakeFlash.write target data)); mret tt.

Definition uncalled : Test t unit := require_ret take_last Uncalled.
Definition called (c : CounterCall) : Test t unit := require_ret take_last (Called c).
Definition returns (m : K t ReturnCode) (code : ReturnCode) : Test t unit := require_ret m code.
(** [read_and_increment() == SuccessWithValue { value }] *)
Definition increments (value : Z) : Test t unit := returns read_and_increment (SuccessWithValue value).

(** The failed attempts to initialize, then one that succeeds. *)
Definition test_initialize : Test t unit :=
  flash_write (page_number High * NV_WORDS_PER_PAGE + 100) [0] ;;
  configure_error (Some Fast) ;;
  returns initialize FAIL ;;
  returns initialize FAIL ;;
  configure_error (Some Callback) ;;
  returns initialize SUCCESS ;;
  returns initialize EBUSY ;;
  returns read_and_increment EBUSY ;;
  uncalled ;; erase_done FAIL ;; called (InitializeDone FAIL) ;;
  configure_error None ;;
  returns initialize SUCCESS ;;
  configure_error (Some Fast) ;;
  uncalled ;; erase_done SUCCESS ;; called (InitializeDone FAIL) ;;
  configure_error None ;;
  returns initialize SUCCESS ;;
  configure_error (Some Callback) ;;
  erase_done SUCCESS ;; uncalled ;; erase_done FAIL ;; called (InitializeDone FAIL) ;;
  configure_error None ;;
  returns initialize SUCCESS ;;
  uncalled ;; erase_done SUCCESS ;; uncalled ;; erase_done SUCCESS ;; called (InitializeDone SUCCESS).

(** Increments with and without errors, up to the first rollover. *)
Definition test_increment : Test t unit :=
  increments 0 ;;
  uncalled ;; write_done SUCCESS ;; called (IncrementDone SUCCESS) ;;
  configure_error (Some Fast) ;;
  returns read_and_increment FAIL ;;
  uncalled ;;
  configure_error (Some Callback) ;;
  increments 1 ;;
  uncalled ;; write_done FAIL ;; called (IncrementDone FAIL) ;;
  configure_error None ;;
  flash_write (page_number Low * NV_WORDS_PER_PAGE + 511) [0x0000003C] ;;
  increments (COUNTS_PER_PAGE - 1) ;;
  returns initialize EBUSY ;;
  returns read_and_increment EBUSY ;;
  uncalled ;; write_done SUCCESS ;; called (IncrementDone SUCCESS).

(** The first rollover, every step of which fails before it succeeds. *)
Definition test_rollover : Test t unit :=
  configure_error (Some Fast) ;;
  returns read_and_increment FAIL ;;
  uncalled ;;
  configure_error (Some Callback) ;;
  increments COUNTS_PER_PAGE ;;
  uncalled ;; write_done FAIL ;; called (IncrementDone FAIL) ;;
  configure_error None ;;
  increments COUNTS_PER_PAGE ;;
  uncalled ;; configure_error (Some Fast) ;; write_done SUCCESS ;; called (IncrementDone SUCCESS) ;;
  configure_error (Some Callback) ;;
  increments (COUNTS_PER_PAGE + 1) ;;
  uncalled ;; erase_done FAIL ;; called (IncrementDone FAIL) ;;
  configure_error None ;;
  increments (COUNTS_PER_PAGE + 1) ;;
  uncalled ;; configure_error (Some Fast) ;; erase_done SUCCESS ;; called (IncrementDone FAIL) ;;
  configure_error (Some Callback) ;;
  increments (COUNTS_PER_PAGE + 1) ;;
  uncalled ;; write_done FAIL ;; called (IncrementDone FAIL) ;;
  configure_error None ;;
  increments (COUNTS_PER_PAGE + 1) ;;
  uncalled ;; configure_error (Some Fast) ;; write_done SUCCESS ;; called (IncrementDone FAIL) ;;
  configure_error None ;;
  increments (COUNTS_PER_PAGE + 1) ;;
  uncalled ;; write_done SUCCESS ;; called (IncrementDone SUCCESS).

(** Two rollovers without errors: one is cleaned up in time, the other while the next
    increment waits. *)
Definition test_next_rollovers : Test t unit :=
  flash_write (page_number Low * NV_WORDS_PER_PAGE + 511) [0] ;;
  increments (2 * COUNTS_PER_PAGE + 1) ;;
  uncalled ;; write_done SUCCESS ;; called (IncrementDone SUCCESS) ;;
  erase_done SUCCESS ;; uncalled ;; write_done SUCCESS ;; uncalled ;;
  increments (2 * COUNTS_PER_PAGE + 2) ;;
  uncalled ;; write_done SUCCESS ;; called (IncrementDone SUCCESS) ;;
  flash_write (page_number Low * NV_WORDS_PER_PAGE + 511) [0] ;;
  increments (3 * COUNTS_PER_PAGE + 2) ;;
  uncalled ;; write_done SUCCESS ;; called (IncrementDone SUCCESS) ;;
  set_busy true ;;
  increments (3 * COUNTS_PER_PAGE + 3) ;;
  set_busy false ;;
  erase_done SUCCESS ;; uncalled ;;
  write_done SUCCESS ;; uncalled ;;
  write_done SUCCESS ;; called (IncrementDone SUCCESS).

Definition test_capsule : Test t bool :=
  test_initialize ;; test_increment ;; test_rollover ;; test_next_rollovers ;; mret true.

End CapsuleTests.

(** ** The tests succeed *)

Module NvTestFacts.
Import FakeFlashFacts.

(** *** Counting up a page

    The page has [q] struck words, one that is struck [k] times, and erased words behind. *)
Definition shape (q k : nat) : list Z := replicate q 0 ++ strike k :: replicate (511 - q) 0xFFFFFFFF.

Lemma shape_carry q : (q < 511)%nat → shape q 8 = shape (S q) 0.
Proof.
  intros Hq. unfold shape. replace (511 - q)%nat with (S (511 - S q)) by lia.
  by rewrite (replicate_S_end q), <- app_assoc.
Qed.

Lemma shape_lookup q k i : (q < 512)%nat → (i < 512)%nat →
  shape q k !! i = Some (if decide (i < q)%nat then 0 else if decide (i = q) then strike k else 0xFFFFFFFF).
Proof.
  intros Hq Hi. unfold shape. repeat case_decide.
  - rewrite lookup_app_l by (rewrite length_replicate; lia). by apply lookup_replicate_2.
  - subst. by rewrite list_lookup_middle by (by rewrite length_replicate).
  - rewrite lookup_app_r by (rewrite length_replicate; lia). rewrite length_replicate.
    replace (i - q)%nat with (S (i - q - 1)) by lia. apply lookup_replicate_2. lia.
Qed.

Lemma shape_length q k : (q < 512)%nat → length (shape q k) = 512%nat.
Proof. intros. unfold shape. rewrite length_app. simpl. rewrite !length_replicate. lia. Qed.

Lemma shape_insert q k j : (q < 512)%nat → list_inserts q [strike j] (shape q k) = shape q j.
Proof.
  intros Hq. simpl. unfold shape. rewrite <- (length_replicate q 0) at 1. by rewrite insert_app_r_alt, Nat.sub_diag by done.
Qed.

Lemma runs_replicate n v l : (runs (replicate n v ++ l) ≤ S (runs l))%nat.
Proof.
  induction n as [|n IH]; [simpl; lia|]. rewrite replicate_S. destruct n as [|n].
  - simpl. destruct l; [simpl; lia|]. case_decide; lia.
  - rewrite replicate_S in *. cbn [app] in *. cbn [runs] in *. rewrite decide_True by done. apply IH.
Qed.

Lemma shape_runs q k : (runs (shape q k) ≤ 3)%nat.
Proof.
  unfold shape. pose proof (runs_replicate q 0 (strike k :: replicate (511 - q) 0xFFFFFFFF)) as H1.
  pose proof (runs_replicate 1 (strike k) (replicate (511 - q) 0xFFFFFFFF)) as H2.
  pose proof (runs_replicate (511 - q) 0xFFFFFFFF []) as H3. rewrite app_nil_r in H3.
  change (replicate 1 (strike k) ++ ?l) with (strike k :: l) in H2. simpl runs in H3 at 2. lia.
Qed.

(** The memory that the counter reads. *)
Definition memory (s : FakeFlash.t) (o : Z) : Z := default 0xFFFFFFFF (FakeFlashFacts.word_at o s).

Lemma word_of_page s p i : (i < 512)%nat →
  FakeFlashFacts.word_at (page_offset p + Z.of_nat i) s = words (FakeFlash.page p s) !! i.
Proof.
  intros Hi. unfold FakeFlashFacts.word_at.
  assert (Ho : offset_to_page (page_offset p + Z.of_nat i) = Some p).
  { apply offset_to_page_range. replace (page_start p) with (page_offset p) by (by destruct p). change NV_WORDS_PER_PAGE with 512. lia. }
  rewrite Ho. simpl. f_equal. replace (page_start p) with (page_offset p) by (by destruct p). lia.
Qed.

Lemma read_page_count_memory s p : flash_wf s → read_page_count p s = count p (memory s).
Proof.
  intros Hs. unfold count, read_page_count.
  assert (Hc : ∀ n, (n ≤ 512)%nat → current_word (page_offset p) s n = current_word (page_offset p) (mk_Dev (memory s) None) n);
    [|rewrite Hc; [done|change (Z.to_nat NV_WORDS_PER_PAGE) with 512%nat; lia]].
  induction n as [|n IH]; intros Hn; [done|]. cbn [current_word].
  change (flash_read (page_offset p + Z.of_nat n) s) with (FakeFlash.read (page_offset p + Z.of_nat n) s).
  change (flash_read (page_offset p + Z.of_nat n) (mk_Dev (memory s) None)) with (SuccessWithValue (memory s (page_offset p + Z.of_nat n))).
  rewrite read_word by done. unfold memory. rewrite word_of_page by lia.
  destruct (lookup_lt_is_Some_2 (words (FakeFlash.page p s)) n) as [w ->].
  { pose proof (wf_words _ (Hs p)) as Hl. change NV_WORDS_PER_PAGE with 512 in Hl. lia. }
  simpl. by rewrite IH by lia.
Qed.

Lemma count_shape s p q k : flash_wf s → (q < 512)%nat → (k ≤ 8)%nat → words (FakeFlash.page p s) = shape q k →
  read_page_count p s = 8 * Z.of_nat q + Z.of_nat k.
Proof.
  intros Hs Hq Hk Hw. rewrite read_page_count_memory by done. apply view_count.
  assert (Hm : ∀ i, (i < 512)%nat → NvDevice.word_at (memory s) p i =
    if decide (i < q)%nat then 0 else if decide (i = q) then strike k else 0xFFFFFFFF).
  { intros i Hi. unfold NvDevice.word_at, memory. by rewrite word_of_page, Hw, shape_lookup by done. }
  destruct k as [|k].
  - destruct q as [|q].
    + apply view_empty. intros i Hi. rewrite Hm, decide_False by lia. by case_decide.
    + replace (8 * Z.of_nat (S q) + Z.of_nat 0) with (8 * Z.of_nat q + decode_word (NvDevice.word_at (memory s) p q)).
      * apply view_word; [lia| |].
        -- by rewrite Hm, decide_True by lia.
        -- intros i Hi. rewrite Hm by lia. rewrite decide_False by lia. by case_decide.
      * rewrite Hm, decide_True by lia. change (decode_word 0) with 8. lia.
  - assert (Hk' : strike (S k) ≠ 0xFFFFFFFF ∧ decode_word (strike (S k)) = Z.of_nat (S k)).
    { do 8 (destruct k as [|k]; [by split; vm_compute|]). lia. }
    assert (Hq' : NvDevice.word_at (memory s) p q = strike (S k)) by (by rewrite Hm, decide_False, decide_True by lia).
    replace (Z.of_nat (S k)) with (decode_word (NvDevice.word_at (memory s) p q)) by (rewrite Hq'; apply Hk').
    apply view_word; [lia|rewrite Hq'; apply Hk'|]. intros i Hi. rewrite Hm by lia. by rewrite !decide_False by lia.
Qed.

(** One round of [test_full_count]. *)
Lemma increment_shape s q r b :
  flash_wf s → FakeFlash.error_time s = None → FakeFlash.busy s = false → (q < 512)%nat → (r < 8)%nat →
  words (FakeFlash.page Low s) = shape q r →
  ∃ s', start_increment Low (8 * Z.of_nat q + Z.of_nat r) b s = (Ok (SUCCESS, None), s') ∧
    flash_wf s' ∧ FakeFlash.error_time s' = None ∧ FakeFlash.busy s' = false ∧
    words (FakeFlash.page Low s') = shape q (S r) ∧ FakeFlash.buffer s' = Some [strike (S r)].
Proof.
  intros Hs He Hb Hq Hr Hw. unfold start_increment. change COUNTS_PER_PAGE with 4096. change COUNTS_PER_WORD with 8.
  rewrite (proj2 (Z.leb_gt _ _)) by lia.
  assert (Hdiv : (8 * Z.of_nat q + Z.of_nat r) / 8 = Z.of_nat q) by (symmetry; apply (Z.div_unique _ _ _ (Z.of_nat r)); lia).
  assert (Hmod : (8 * Z.of_nat q + Z.of_nat r) mod 8 = Z.of_nat r) by (symmetry; apply (Z.mod_unique _ _ (Z.of_nat q)); lia).
  rewrite Hdiv, Hmod, Nat2Z.id.
  assert (Hp : WRITE_PATTERNS !! r = Some (strike (S r))) by (do 8 (destruct r as [|r]; [done|]); lia).
  rewrite Hp. assert (Hin : offset_to_page (page_offset Low + Z.of_nat q) = Some Low).
  { apply offset_to_page_range. change (page_start Low) with (page_offset Low). change NV_WORDS_PER_PAGE with 512. lia. }
  pose proof (write_page s Low _ [strike (S r)] Hs He Hb Hin) as Hwr. cbv zeta in Hwr.
  change (page_start Low) with (page_offset Low) in Hwr.
  replace (Z.to_nat (page_offset Low + Z.of_nat q - page_offset Low)) with q in Hwr by lia.
  rewrite Hw, shape_insert in Hwr by done.
  rewrite decide_True in Hwr by (pose proof (shape_runs q (S r)); unfold NUM_RUNS; lia).
  destruct Hwr as (x & Hx & Hwx & Hwrite).
  exists (FakeFlash.set_buffer [strike (S r)] (FakeFlash.set_page Low x s)). split.
  - unfold mbind, M_bind. simpl. unfold flash_write. simpl. rewrite Hwrite. done.
  - split; [apply flash_wf_set_buffer; by apply flash_wf_set_page|]. by simpl.
Qed.

Record counting (s : FakeFlash.t) (c : Z) : Prop := {
  counting_wf : flash_wf s;
  counting_error : FakeFlash.error_time s = None;
  counting_busy : FakeFlash.busy s = false;
  counting_shape : ∃ q k, (q < 512)%nat ∧ (k ≤ 8)%nat ∧ c = 8 * Z.of_nat q + Z.of_nat k ∧ words (FakeFlash.page Low s) = shape q k
}.

Lemma counting_count s c : counting s c → read_page_count Low s = c.
Proof. intros [? _ _ (q & k & ? & ? & -> & ?)]. by apply count_shape. Qed.

Lemma counting_below s c : counting s c → c < 4096 →
  ∃ q r, (q < 512)%nat ∧ (r < 8)%nat ∧ c = 8 * Z.of_nat q + Z.of_nat r ∧ words (FakeFlash.page Low s) = shape q r.
Proof.
  intros [_ _ _ (q & k & Hq & Hk & -> & Hw)] Hc. destruct (decide (k = 8%nat)) as [->|].
  - exists (S q), 0%nat. split_and!; [lia..|]. rewrite <- shape_carry by lia. done.
  - exists q, k. split_and!; [lia..|done].
Qed.

Lemma counting_step s c b : counting s c → 0 <= c < 4096 →
  ∃ s', start_increment Low c b s = (Ok (SUCCESS, None), s') ∧ counting s' (c + 1) ∧ ∃ w, FakeFlash.buffer s' = Some [w].
Proof.
  intros Hs Hc. destruct (counting_below s c Hs ltac:(lia)) as (q & r & Hq & Hr & -> & Hw). destruct Hs as [Hs He Hb _].
  destruct (increment_shape s q r b) as (s' & Hi & Hs' & He' & Hb' & Hw' & Hbuf); [done..|].
  exists s'. split; [done|]. split; [|eauto]. split; [done..|]. exists q, (S r). split_and!; [lia..|done].
Qed.

Lemma counting_retrieve s c w : counting s c → FakeFlash.buffer s = Some [w] →
  ∃ s', InternalTests.retrieved s = (Ok (Some [w]), s') ∧ counting s' c.
Proof.
  intros [Hs He Hb Hw] Hbuf. unfold InternalTests.retrieved, FakeFlash.retrieve_buffer. rewrite Hbuf. simpl.
  eexists; split; [done|]. split; [|done..]. intros p. specialize (Hs p). by destruct p.
Qed.

Lemma require_got_true {S B} `{EqDecision B} (get : S → B) v s : get s = v → require_got get v s = (Ok tt, s).
Proof. intros H. unfold require_got, require_eq, gets, mbind, M_bind. by rewrite decide_True. Qed.

Lemma run_returns {S B} (m : K S B) s b s' : m s = (Ok b, s') → run m s = (Ok b, s').
Proof. intros H. unfold run. by rewrite H. Qed.

Lemma count_up_counting n s c w : counting s c → 0 <= c → c + Z.of_nat n = 4096 →
  ∃ s' w', InternalTests.count_up n c (Some [w]) s = (Ok (Some [w']), s') ∧ counting s' 4096.
Proof.
  revert s c w; induction n as [|n IH]; intros s c w Hs Hc Hn.
  - exists s, w. split; [done|]. by replace 4096 with c by lia.
  - destruct (counting_step s c [w] Hs ltac:(lia)) as (s1 & Hi & Hs1 & w1 & Hb1).
    destruct (counting_retrieve s1 (c + 1) w1 Hs1 Hb1) as (s2 & Hr & Hs2).
    destruct (IH s2 (c + 1) w1 Hs2 ltac:(lia) ltac:(lia)) as (s3 & w3 & Hu & Hs3).
    exists s3, w3. split; [|done]. cbn [InternalTests.count_up].
    rewrite (bind_ok _ _ _ _ _ (require_got_true _ _ _ (counting_count s c Hs))). cbn [unwrap].
    rewrite (bind_ok _ _ _ _ _ (eq_refl : (mret [w] : Test _ _) s = (Ok [w], s))).
    by rewrite (bind_ok _ _ _ _ _ (run_returns _ _ _ _ Hi)), (bind_ok _ _ _ _ _ Hr).
Qed.

Lemma counting_new : counting FakeFlash.new 0.
Proof.
  split; [apply flash_wf_new|done..|]. exists 0%nat, 0%nat. split_and!; [lia..|]. apply (proj2 wf_new).
Qed.

(** The test that is too slow for the chip: a page counts to 4096, and no further. *)
Lemma test_full_count_passes : result InternalTests.test_full_count FakeFlash.new = Ok true.
Proof.
  assert (Hn : 0 + Z.of_nat (Z.to_nat COUNTS_PER_PAGE) = 4096) by (by rewrite Z2Nat.id).
  destruct (count_up_counting _ FakeFlash.new 0 0 counting_new ltac:(lia) Hn) as (s & w & Hu & Hs). clear Hn.
  unfold result, InternalTests.test_full_count. unfold mbind at 1, M_bind at 1. rewrite Hu. clear Hu.
  change COUNTS_PER_PAGE with 4096. rewrite (bind_ok _ _ _ _ _ (require_got_true _ _ _ (counting_count s 4096 Hs))).
  reflexivity.
Qed.

(** The tests of the suite: the name, whether it is ignored, and the result. *)
Definition suite : list (string * bool * outcome unit bool) :=
  [ ("capsule::test_capsule", false, result CapsuleTests.test_capsule CapsuleTests.setup);
    ("fake_flash::test_fake_flash", false, result FakeFlashTests.test_fake_flash FakeFlash.new);
    ("fake_flash::test_offset_to_page", false, result FakeFlashTests.test_offset_to_page tt);
    ("fake_flash::test_fake_page", false, result FakeFlashTests.test_fake_page FakePage.new);
    ("fake_flash::test_rle_builder", false, result FakeFlashTests.test_rle_builder RleBuilder.new);
    ("internal::test_read_page_count", false, result InternalTests.test_read_page_count FakeFlash.new);
    ("internal::test_start_increment", false, result InternalTests.test_start_increment FakeFlash.new);
    ("internal::test_full_count", true, result InternalTests.test_full_count FakeFlash.new) ]%string.

Lemma suite_passes : Forall (λ t, snd t = Ok true) suite.
Proof. unfold suite. do 7 (apply Forall_cons_2; [cbn [snd]; by_compute|]). constructor; [|constructor]. apply test_full_count_passes. Qed.

(** A test as the harness runs it: a test that succeeds prints nothing. *)
Definition as_test (t : string * bool * outcome unit bool) : Harness.TestDescAndFn :=
  let '(name, ignored, o) := t in
  Harness.mk_TestDescAndFn (Harness.mk_TestDesc false ignored (bytes_of_string name)) ([], bool_decide (o = Ok true)).

Definition tests : list Harness.TestDescAndFn := as_test <$> suite.

Lemma as_test_well_behaved l : Forall (λ t, newline ∉ bytes_of_string (fst (fst t))) l → Forall RunnerFacts.well_behaved (as_test <$> l).
Proof. induction 1 as [|[[name ig] o] l Ht _ IH]; constructor; [|exact IH]. split; [exact Ht|constructor]. Qed.

Lemma as_test_succeed l : Forall (λ t, snd t = Ok true) l → RunnerFacts.all_succeed (as_test <$> l) = true.
Proof.
  induction 1 as [|[[name ig] o] l Ht _ IH]; [done|]. simpl in Ht. subst o.
  change (RunnerFacts.all_succeed (as_test <$> (name, ig, Ok true) :: l)) with ((ig || true) && RunnerFacts.all_succeed (as_test <$> l)).
  by rewrite orb_true_r, IH.
Qed.

Lemma tests_well_behaved : Forall RunnerFacts.well_behaved tests.
Proof. apply as_test_well_behaved. unfold suite. do 8 (apply Forall_cons_2; [cbn [fst]; by_compute|]). constructor. Qed.

Lemma tests_succeed : RunnerFacts.all_succeed tests = true.
Proof. apply as_test_succeed, suite_passes. Qed.


End NvTestFacts.
