(* ===== verification/FlashTests.v ===== *)
(** The tests of the flash driver (userspace/flash_test/src): [fake.rs],
    [smart_program.rs] and [driver.rs] on the models of the driver, of the fake hardware
    and of the mock alarm.  [h1_hw.rs], which asks for the size of a register block, is
    left out. *)

From S2P Require Import Prelude Tock FlashHil FlashHw TestHarness.
From Stdlib Require Import ZArith Lia.
From stdpp Require Import base decidable option list list_numbers.

#[local] Open Scope Z_scope.

(** ** fake.rs *)

Module FakeHwTests.

Definition set_data (data : list Z) : Test FakeHw.t unit := change (FakeHw.set_write_data data).
Definition finish_operation : Test FakeHw.t unit := change FakeHw.finish_operation.
Definition programming (b : bool) : Test FakeHw.t unit := require_got FakeHw.is_programming b.
Definition error_is (e : Z) : Test FakeHw.t unit := require_ret (λ s, let '(e, s) := FakeHw.read_error s in (Ok e, s)) e.

(** [fake.read(offset) == SuccessWithValue { value }] for each pair *)
Definition reads (expected : list (Z * Z)) : Test FakeHw.t unit :=
  foldr (λ e k, require_got (FakeHw.read (fst e)) (SuccessWithValue (snd e)) ;; k) (mret tt) expected.

(** The words around the ones that are written, in both banks. *)
Definition contents (a0 b0 a1 b1 : Z) : Test FakeHw.t unit :=
  reads [(512, 0xFFFFFFFF); (1023, 0xFFFFFFFF); (1300, a0); (1301, b0);
         (WORDS_PER_BANK + 512, 0xFFFFFFFF); (WORDS_PER_BANK + 1023, 0xFFFFFFFF); (WORDS_PER_BANK + 1300, a1); (WORDS_PER_BANK + 1301, b1)].

(** A write with its first pulse, which is reported as done, and its final pulse. *)
Definition write_pulses (offset : Z) (data : list Z) (bank : Bank) (error : Z) : Test FakeHw.t unit :=
  modify (FakeHw.set_transaction offset (Z.of_nat (length data) - 1)) ;;
  set_data data ;;
  modify (FakeHw.trigger WRITE_OPCODE bank) ;;
  programming true ;;
  modify (FakeHw.inject_result 0) ;;
  programming false ;;
  error_is 0 ;;
  modify (FakeHw.trigger WRITE_OPCODE bank) ;;
  programming true ;;
  finish_operation ;;
  error_is error ;;
  programming false.

Definition erase_page (offset : Z) (bank : Bank) : Test FakeHw.t unit :=
  modify (FakeHw.set_transaction offset 0) ;;
  programming false ;;
  modify (FakeHw.trigger ERASE_OPCODE bank) ;;
  programming true ;;
  finish_operation ;;
  error_is 0 ;;
  programming false.

Definition fake_hw : Test FakeHw.t bool :=
  programming false ;;
  contents 0xFFFFFFFF 0xFFFFFFFF 0xFFFFFFFF 0xFFFFFFFF ;;
  write_pulses 1300 [0xFFFF0FFF; 0xFFFAFFFF] BankZero 0 ;;
  contents 0xFFFF0FFF 0xFFFAFFFF 0xFFFFFFFF 0xFFFFFFFF ;;
  write_pulses 1300 [0xFFFF1FFF; 0xFFFBFFFF] BankOne 0 ;;
  contents 0xFFFF0FFF 0xFFFAFFFF 0xFFFF1FFF 0xFFFBFFFF ;;
  modify (FakeHw.set_transaction 1300 (2 - 1)) ;;
  set_data [0xFFFF00FF; 0xFFAAFFFF] ;;
  modify (FakeHw.trigger WRITE_OPCODE BankZero) ;;
  programming true ;;
  modify (FakeHw.inject_result 8) ;;
  error_is 8 ;;
  programming false ;;
  reads [(512, 0xFFFFFFFF); (1023, 0xFFFFFFFF); (1300, 0xFFFF0FFF); (1301, 0xFFFAFFFF)] ;;
  write_pulses 1300 [0xFFFF00FF] BankZero 0 ;;
  reads [(512, 0xFFFFFFFF); (1023, 0xFFFFFFFF); (1300, 0xFFFF00FF); (1301, 0xFFFAFFFF)] ;;
  erase_page 512 BankZero ;;
  contents 0xFFFF00FF 0xFFFAFFFF 0xFFFF1FFF 0xFFFBFFFF ;;
  erase_page 512 BankOne ;;
  contents 0xFFFF00FF 0xFFFAFFFF 0xFFFF1FFF 0xFFFBFFFF ;;
  erase_page 1024 BankZero ;;
  contents 0xFFFFFFFF 0xFFFFFFFF 0xFFFF1FFF 0xFFFBFFFF ;;
  erase_page 1024 BankOne ;;
  contents 0xFFFFFFFF 0xFFFFFFFF 0xFFFFFFFF 0xFFFFFFFF ;;
  modify (FakeHw.set_transaction 1300 (1 - 1)) ;;
  set_data [0xABCDC0FF] ;;
  modify (FakeHw.trigger WRITE_OPCODE BankZero) ;;
  programming true ;;
  finish_operation ;;
  error_is 8 ;;
  programming false ;;
  reads [(512, 0xFFFFFFFF); (1023, 0xFFFFFFFF); (1300, 0xFFFFFFFF); (1301, 0xFFFFFFFF)] ;;
  mret true.

Definition write_set_bit : Test FakeHw.t bool :=
  write_pulses 1300 [0xFFFF0FFF] BankZero 0 ;;
  reads [(512, 0xFFFFFFFF); (1023, 0xFFFFFFFF); (1300, 0xFFFF0FFF)] ;;
  write_pulses 1300 [0x0000F000] BankZero 8 ;;
  reads [(512, 0xFFFFFFFF); (1023, 0xFFFFFFFF); (1300, 0xFFFF0FFF)] ;;
  mret true.

End FakeHwTests.

(** ** smart_program.rs *)

Module SmartProgramTests.

Definition decode_error_test : Test unit bool :=
  require_eq (decode_error 0x4029) FAIL ;;
  require_eq (decode_error 0x4002) ESIZE ;;
  require_eq (decode_error 0x8) FAIL ;;
  mret true.

Definition u64_max : Z := 2 ^ 64 - 1.

Definition div_round_up_test : Test unit bool :=
  require_eq (div_round_up 0 1) 0 ;;
  require_eq (div_round_up 1 1) 1 ;;
  require_eq (div_round_up 3 2) 2 ;;
  require_eq (div_round_up 4 2) 2 ;;
  require_eq (div_round_up 0 u64_max) 0 ;;
  require_eq (div_round_up u64_max u64_max) 1 ;;
  require_eq (div_round_up (u64_max - 5) u64_max) 1 ;;
  require_eq (div_round_up u64_max u64_max) 1 ;;
  mret true.

(** The alarm, the hardware and the state machine of a test. *)
Record t := mk { alarm : MockAlarm.t; hw : FakeHw.t; state : SmartProgramState }.

Definition on_hw (f : FakeHw.t → option FakeHw.t) : Test t unit := change (λ s, h ← f (hw s); Some (mk (alarm s) h (state s))).
Definition inject_result (e : Z) : Test t unit := on_hw (λ h, Some (FakeHw.inject_result e h)).
Definition finish_operation : Test t unit := on_hw FakeHw.finish_operation.
Definition set_time (now : Z) : Test t unit := modify (λ s, mk (MockAlarm.set_time now (alarm s)) (hw s) (state s)).
Definition do_step : Test t unit :=
  modify (λ s, let '(st, a, h) := step WRITE_OPCODE BankOne (state s) (alarm s) (hw s) in mk a h st).

Definition setup : option t :=
  h ← FakeHw.set_write_data [0xFFFF0FFF] (FakeHw.set_transaction 1300 1 FakeHw.new);
  Some (mk MockAlarm.new h (init 8 true 100000000)).

Definition freq : Z := frequency MockAlarm.t.

Definition alarm_is (time : Z) : Test t unit := require_got (λ s, MockAlarm.get_alarm (alarm s)) time.
(** [alarm.get_alarm() == alarm.now().wrapping_add(dt)] *)
Definition alarm_in (dt : Z) : Test t unit :=
  require_got (λ s, MockAlarm.get_alarm (alarm s) =? u32 (now (alarm s) + dt)) true.
Definition programming (b : bool) : Test t unit := require_got (λ s, is_programming (hw s)) b.
Definition code_is (c : option ReturnCode) : Test t unit := require_got (λ s, return_code (state s)) c.

Definition successful_program : Test t bool :=
  do_step ;; alarm_in (freq / 10) ;; programming true ;; code_is None ;;
  set_time (freq / 10) ;;
  inject_result 0 ;;
  do_step ;; alarm_is (freq / 5) ;; programming true ;; code_is None ;;
  set_time (freq / 5) ;;
  finish_operation ;;
  do_step ;; alarm_is 0 ;; programming false ;; code_is (Some SUCCESS) ;;
  mret true.

Definition retries : Test t bool :=
  do_step ;; alarm_in (freq / 10) ;; programming true ;; code_is None ;;
  set_time (freq / 10) ;;
  inject_result 4 ;;
  do_step ;; alarm_in (freq / 10) ;; programming true ;; code_is None ;;
  set_time (freq / 5) ;;
  inject_result 0 ;;
  do_step ;; alarm_is (3 * freq / 10) ;; programming true ;; code_is None ;;
  set_time (3 * freq / 5) ;;
  finish_operation ;;
  do_step ;; alarm_is 0 ;; programming false ;; code_is (Some SUCCESS) ;;
  mret true.

(** [for i in 0..8] *)
Definition failed : Test t bool :=
  foldr (λ i k,
    set_time (Z.of_nat i * freq / 10) ;;
    do_step ;; alarm_in (freq / 10) ;; programming true ;; code_is None ;;
    inject_result 4 ;; k) (mret tt) (seq 0 8) ;;
  do_step ;; alarm_is 0 ;; programming false ;; code_is (Some FAIL) ;;
  mret true.

Definition timeout : Test t bool :=
  do_step ;; alarm_in (freq / 10) ;; programming true ;; code_is None ;;
  set_time (freq / 10) ;;
  do_step ;; alarm_is 0 ;; code_is (Some FAIL) ;;
  mret true.

End SmartProgramTests.

(** ** driver.rs *)

Module DriverTests.

Definition ERASE_TIME : Z := 859.
Definition WRITE_WORD_TIME : Z := 14.
Definition PAGES_PER_BANK : Z := 128.

Inductive MockClientState := ClientEraseDone (code : ReturnCode) | ClientWriteDone (code : ReturnCode).

#[global] Instance MockClientState_eq_dec : EqDecision MockClientState.
Proof. solve_decision. Defined.

(** The driver with its alarm and hardware, and the client. *)
Record t := mk { driver : Driver.t MockAlarm.t FakeHw.t; client : option MockClientState }.

Definition set_driver (d : Driver.t MockAlarm.t FakeHw.t) (s : t) : t := mk d (client s).

(** [hw] is what the test has done to the hardware before. *)
Definition setup (hw : FakeHw.t) : t := mk (Driver.set_client (Driver.new MockAlarm.new hw)) None.

Definition client_state : K t (option MockClientState) := λ s, (Ok (client s), mk (driver s) None).
Definition notify (c : option ClientCall) : Test t unit :=
  modify (λ s, match c with
               | Some (EraseDone code) => mk (driver s) (Some (ClientEraseDone code))
               | Some (WriteDone _ code) => mk (driver s) (Some (ClientWriteDone code))
               | None => s
               end).

Definition on_driver {B} (m : K (Driver.t MockAlarm.t FakeHw.t) B) : K t B := zoom driver set_driver m.
Definition erase_call (page : Z) : K t ReturnCode := on_driver (Driver.erase page).
Definition write_call (target val : Z) : K t (ReturnCode * option (list Z)) := on_driver (Driver.write target [val]).
Definition alarm_call : Test t unit := c ← run (on_driver Driver.alarm); notify c.

Definition with_parts (a : MockAlarm.t) (h : FakeHw.t) (d : Driver.t MockAlarm.t FakeHw.t) : Driver.t MockAlarm.t FakeHw.t :=
  Driver.mk a (Driver.client d) (Driver.write_data d) (Driver.write_pos d) (Driver.write_len d) (Driver.write_bank d)
    (Driver.write_bank_target d) h (Driver.smart_program_state d) (Driver.opcode d).
Definition set_time (now : Z) : Test t unit :=
  modify (λ s, mk (with_parts (MockAlarm.set_time now (Driver.alarm_dev (driver s))) (Driver.hw (driver s)) (driver s)) (client s)).
Definition on_hw (f : FakeHw.t → option FakeHw.t) : Test t unit :=
  change (λ s, h ← f (Driver.hw (driver s)); Some (mk (with_parts (Driver.alarm_dev (driver s)) h (driver s)) (client s))).
Definition inject_result (e : Z) : Test t unit := on_hw (λ h, Some (FakeHw.inject_result e h)).
Definition finish_operation : Test t unit := on_hw FakeHw.finish_operation.

Definition alarm_is (time : Z) : Test t unit := require_got (λ s, MockAlarm.get_alarm (Driver.alarm_dev (driver s))) time.
Definition alarm_in (dt : Z) : Test t unit :=
  require_got (λ s, MockAlarm.get_alarm (Driver.alarm_dev (driver s)) =? u32 (now (Driver.alarm_dev (driver s)) + dt)) true.
Definition programming (b : bool) : Test t unit := require_got (λ s, is_programming (Driver.hw (driver s))) b.
Definition client_is (c : option MockClientState) : Test t unit := require_ret client_state c.
Definition hw_reads (address val : Z) : Test t unit := require_got (λ s, FakeHw.read address (Driver.hw (driver s))) (SuccessWithValue val).
Definition driver_reads (address val : Z) : Test t unit := require_got (λ s, Driver.read address (driver s)) (SuccessWithValue val).

Definition erase : Test t bool :=
  require_ret (erase_call 2) SUCCESS ;;
  alarm_in ERASE_TIME ;; client_is None ;; programming true ;;
  set_time ERASE_TIME ;;
  inject_result 4 ;;
  alarm_call ;;
  alarm_is (2 * ERASE_TIME) ;; programming true ;; client_is None ;;
  set_time (2 * ERASE_TIME) ;;
  finish_operation ;;
  alarm_call ;;
  alarm_is 0 ;; programming false ;; hw_reads 1300 0xFFFFFFFF ;;
  client_is (Some (ClientEraseDone SUCCESS)) ;;
  driver_reads 1300 0xFFFFFFFF ;;
  mret true.

(** [for i in 1..45] *)
Definition erase_max_retries : Test t bool :=
  require_ret (erase_call 2) SUCCESS ;;
  alarm_in ERASE_TIME ;; client_is None ;; programming true ;;
  foldr (λ i k,
    set_time (ERASE_TIME * Z.of_nat i) ;;
    inject_result 4 ;;
    alarm_call ;;
    alarm_in ERASE_TIME ;; programming true ;; client_is None ;; k) (mret tt) (seq 1 44) ;;
  inject_result 4 ;;
  alarm_call ;;
  alarm_is 0 ;; programming false ;; client_is (Some (ClientEraseDone FAIL)) ;;
  hw_reads 1300 0xFFFFFFFF ;; driver_reads 1300 0xFFFFFFFF ;;
  mret true.

(** [OperationsTest] *)
Definition ops_read (address expected_val : Z) : Test t unit :=
  hw_reads address expected_val ;; driver_reads address expected_val.

Definition ops_write (address val : Z) : Test t unit :=
  require_ret (write_call address val) (SUCCESS, None) ;;
  alarm_in WRITE_WORD_TIME ;; client_is None ;; programming true ;;
  set_time WRITE_WORD_TIME ;;
  inject_result 0 ;;
  alarm_call ;;
  programming true ;; client_is None ;;
  finish_operation ;;
  alarm_call ;;
  alarm_is 0 ;; programming false ;; client_is (Some (ClientWriteDone SUCCESS)).

Definition ops_erase (page : Z) : Test t unit :=
  require_ret (erase_call page) SUCCESS ;;
  alarm_in ERASE_TIME ;; programming true ;;
  set_time (WRITE_WORD_TIME + ERASE_TIME) ;;
  finish_operation ;;
  alarm_call ;;
  alarm_is 0 ;; programming false ;; client_is (Some (ClientEraseDone SUCCESS)).

Definition write_then_erase : Test t bool :=
  ops_write 1300 0xFFFFABCD ;;
  ops_read 1300 0xFFFFABCD ;;
  ops_read (WORDS_PER_BANK + 1300) 0xFFFFFFFF ;;
  ops_write (WORDS_PER_BANK + 1300) 0x12349876 ;;
  ops_read (WORDS_PER_BANK + 1300) 0x12349876 ;;
  ops_read 1300 0xFFFFABCD ;;
  ops_erase 2 ;;
  ops_read 1300 0xFFFFFFFF ;;
  ops_read (WORDS_PER_BANK + 1300) 0x12349876 ;;
  ops_erase (PAGES_PER_BANK + 2) ;;
  ops_read (WORDS_PER_BANK + 1300) 0xFFFFFFFF ;;
  mret true.

Definition write_to_bad_address : Test t bool :=
  require_ret (write_call 0x100000 0xFFFFABCD) (EINVAL, Some [0xFFFFABCD]) ;;
  mret true.

Definition successful_program : Test t bool :=
  require_ret (write_call 1300 0xFFFFABCD) (SUCCESS, None) ;;
  alarm_in WRITE_WORD_TIME ;; client_is None ;; programming true ;;
  set_time WRITE_WORD_TIME ;;
  inject_result 4 ;;
  alarm_call ;;
  alarm_is (2 * WRITE_WORD_TIME) ;; programming true ;; client_is None ;;
  set_time (2 * WRITE_WORD_TIME) ;;
  inject_result 0 ;;
  alarm_call ;;
  alarm_is (3 * WRITE_WORD_TIME) ;; programming true ;; client_is None ;;
  finish_operation ;;
  alarm_call ;;
  alarm_is 0 ;; programming false ;; client_is (Some (ClientWriteDone SUCCESS)) ;;
  driver_reads 1300 0xFFFFABCD ;;
  mret true.

Definition timeout : Test t bool :=
  require_ret (write_call 1300 0xFFFFABCD) (SUCCESS, None) ;;
  alarm_in WRITE_WORD_TIME ;; client_is None ;; programming true ;;
  set_time WRITE_WORD_TIME ;;
  alarm_call ;;
  alarm_is 0 ;; client_is (Some (ClientWriteDone FAIL)) ;;
  mret true.

(** What [timeout] has done to the hardware before the driver is created. *)
Definition timeout_hw : option FakeHw.t := FakeHw.set_write_data [0xFFFF0FFF] (FakeHw.set_transaction 1300 1 FakeHw.new).

(** [for _ in 1..8] *)
Definition write_max_retries : Test t bool :=
  require_ret (write_call 1300 0xFFFFABCD) (SUCCESS, None) ;;
  alarm_in WRITE_WORD_TIME ;; client_is None ;; programming true ;;
  foldr (λ _ k,
    set_time (100 * WRITE_WORD_TIME) ;;
    inject_result 4 ;;
    alarm_call ;;
    alarm_in WRITE_WORD_TIME ;; programming true ;; client_is None ;; k) (mret tt) (seq 1 7) ;;
  inject_result 4 ;;
  alarm_call ;;
  alarm_is 0 ;; programming false ;; client_is (Some (ClientWriteDone FAIL)) ;;
  mret true.

End DriverTests.

Module FlashTestFacts.

Definition from_setup {S} (s : option S) (test : Test S bool) : outcome unit bool :=
  match s with Some s => result test s | None => Panic end.

(** The tests of the suite, in the order of the files. *)
Definition suite : list (outcome unit bool) :=
  let new := DriverTests.setup FakeHw.new in
  [ result DriverTests.erase new; result DriverTests.erase_max_retries new; result DriverTests.write_then_erase new;
    result DriverTests.write_to_bad_address new; result DriverTests.successful_program new;
    from_setup (DriverTests.setup <$> DriverTests.timeout_hw) DriverTests.timeout; result DriverTests.write_max_retries new;
    result FakeHwTests.fake_hw FakeHw.new; result FakeHwTests.write_set_bit FakeHw.new;
    result SmartProgramTests.decode_error_test tt; result SmartProgramTests.div_round_up_test tt;
    from_setup SmartProgramTests.setup SmartProgramTests.successful_program; from_setup SmartProgramTests.setup SmartProgramTests.retries;
    from_setup SmartProgramTests.setup SmartProgramTests.failed; from_setup SmartProgramTests.setup SmartProgramTests.timeout ].

Lemma flash_suite_passes : Forall (λ o, o = Ok true) suite.
Proof. unfold suite. repeat constructor; by_compute. Qed.

End FlashTestFacts.
