(* ===== verification/SpiTests.v ===== *)
(** The unit tests of spiutils: [io.rs] and [protocol/wire.rs] (their modules [test]).

    A test that fails panics; [unwrap] on an error does too.  The two tests of [io.rs] that
    read a [u16] and write a [u8] in little-endian order have no model: [LeInt] is
    implemented for [u32] and [u64] only. *)

From S2P Require Import Prelude Io Wire.
From Stdlib Require Import ZArith Lia.
From stdpp Require Import base decidable option list list_numbers strings.

#[local] Open Scope Z_scope.

(** ** Assertions *)

Section Assertions.
Context {S : Type}.

Definition assert (b : bool) : M S Empty_set unit := if b then mret tt else panic.
Definition assert_eq {B} `{EqDecision B} (get : S → B) (v : B) : M S Empty_set unit := λ s, assert (bool_decide (get s = v)) s.

(** [m.unwrap()] *)
Definition unwrap_result {E B} (m : M S E B) : M S Empty_set B := λ s,
  match m s with (Ok b, s) => (Ok b, s) | (_, s) => (Panic, s) end.
(** [assert!(m.is_err())] *)
Definition assert_err {E B} (m : M S E B) : M S Empty_set unit := λ s,
  match m s with (Err _, s) => (Ok tt, s) | (_, s) => (Panic, s) end.
(** [assert_eq!(m.unwrap(), v)] *)
Definition assert_ok {E B} `{EqDecision B} (m : M S E B) (v : B) : M S Empty_set unit :=
  b ← unwrap_result m; assert (bool_decide (b = v)).

Definition passes (test : M S Empty_set unit) (s : S) : Prop := fst (test s) = Ok tt.

End Assertions.

(** ** io.rs *)

Module IoTests.
Import BitBuf.

(** The queue of the bits, and its length. *)
Definition holds (bs n : Z) : M BitBuf.t Empty_set unit := assert_eq bits bs ;; assert_eq len n.

Definition bit_buf_queue : M BitBuf.t Empty_set unit :=
  holds 0 0 ;;
  unwrap_result (write_bits 3 5) ;; holds 5 3 ;;
  unwrap_result (write_bits 2 2) ;; holds 22 5 ;;
  unwrap_result (write_bit true) ;; holds 45 6 ;;
  unwrap_result (write_zero_bits 2) ;; holds 180 8 ;;
  assert_err (write_bit true) ;;
  assert_ok (read_bits 3) 5 ;; assert_eq len 5 ;;
  assert_ok read_bit true ;; assert_eq len 4 ;;
  assert_ok (read_bits 4) 4 ;; assert_eq len 0 ;;
  assert_err read_bit.

(** The two buffers of the test, one after the other. *)
Definition bit_bif_edge_cases : M BitBuf.t Empty_set unit :=
  modify (λ _, from_bits 0x55) ;;
  assert_ok (read_bits 0) 0 ;; assert_eq len 8 ;;
  assert_ok (read_bits 8) 0x55 ;; assert_eq len 0 ;;
  modify (λ _, BitBuf.new) ;;
  unwrap_result (write_bits 8 0xaa) ;; holds 0xaa 8 ;;
  unwrap_result (write_bits 0 0x42) ;; holds 0xaa 8.

(** Standard output into the four bytes of a buffer: a write takes what fits. *)
Definition slice_std_write (buf : list Z) (w : SliceMut) : (nat + StdWrite.ErrorKind) * SliceMut :=
  let n := Nat.min (length buf) (length (sm_rest w)) in
  (inl n, mk_slice_mut (sm_done w ++ take n buf) (drop n (sm_rest w))).

#[local] Instance slice_StdWrite : Write SliceMut := {|
  write_bytes bs w := match StdWrite.std_write_bytes slice_std_write (S (length bs)) bs w with Some r => r | None => (Panic, w) end
|}.

Definition std_write : M SliceMut Empty_set unit :=
  unwrap_result (write_le U32 0x04030201) ;;
  assert_eq (λ w, sm_done w ++ sm_rest w) [1; 2; 3; 4].

Definition cursor : M Cursor.t Empty_set unit :=
  unwrap_result (write_le U32 0xffaaffaa) ;;
  assert_eq Cursor.consumed_len 4%nat ;;
  assert_eq Cursor.consumed_bytes [0xaa; 0xff; 0xaa; 0xff] ;;
  assert_ok (λ c, let '(bytes, c) := Cursor.take_consumed_bytes c in (Ok bytes : outcome IoError _, c)) [0xaa; 0xff; 0xaa; 0xff] ;;
  assert_eq Cursor.consumed_len 0%nat ;;
  assert_err (write_bytes (replicate 7 0x55)).

End IoTests.

(** ** wire.rs *)

Module WireTests.

Inductive DemoEnum := Unknown | First | Second.

#[global] Instance DemoEnum_eq_dec : EqDecision DemoEnum.
Proof. solve_decision. Defined.

#[global] Instance DemoEnum_WireEnum : WireEnum DemoEnum := {|
  wire_ty := U8;
  variants := [(Unknown, 0x00, "Unknown"%string); (First, 0x01, "First"%string); (Second, 0x02, "Second"%string)]
|}.

Definition from_name_test : M unit Empty_set unit :=
  assert (bool_decide (from_name "Second" = Some Second)) ;;
  assert (bool_decide (from_name "First" = Some First)) ;;
  assert (bool_decide (from_name "does not exist" = (None : option DemoEnum))).

Definition name_test : M unit Empty_set unit :=
  assert (bool_decide (enum_name First = "First"%string)) ;;
  assert (bool_decide (enum_name Second = "Second"%string)).

End WireTests.

Lemma spiutils_tests_pass :
  passes IoTests.bit_buf_queue BitBuf.new ∧ passes IoTests.bit_bif_edge_cases BitBuf.new ∧
  passes IoTests.std_write (mk_slice_mut [] [0; 0; 0; 0]) ∧ passes IoTests.cursor (Cursor.new (replicate 8 0)) ∧
  passes WireTests.from_name_test tt ∧ passes WireTests.name_test tt.
Proof. split_and!; by vm_compute. Qed.
