(* ===== verification/KernelTests.v ===== *)
(** The self tests of the kernel: [FlashTest] (kernel/h1/src/hil/flash/flash_test.rs),
    [NvCounterTest] (kernel/h1/src/nvcounter/nvcounter_test.rs), [TestDcrypto]
    (kernel/h1/src/test_dcrypto.rs) and [TestRng] (kernel/h1/src/test_rng.rs), clients of
    the drivers that print what they see.

    The tests of the flash and of the counter run on the device that the flash driver
    implements, whose operations complete; the lines on the console are values. *)

From S2P Require Import Prelude Tock Registers FlashHil NvCounter NvDevice NvAtomic Info Dcrypto.
From Stdlib Require Import ZArith Lia.
From stdpp Require Import base decidable option list list_numbers.

#[local] Open Scope Z_scope.

(** ** The flash *)

Module FlashTest.

Inductive Tests := Erase1 | Write1 | Write2 | Erase2.

(** [Unexpected]: a callback that does not belong to the state ("FlashTest FAIL"). *)
Inductive Line :=
| BeginErase (test : Tests) (code : ReturnCode)
| BeginWrite (test : Tests) (code : ReturnCode * option (list Z))
| DoneWith (test : Tests) (code : ReturnCode)
| WrongValue (test : Tests) (value : Z)
| ReadFailed (test : Tests) (code : ReturnCode)
| Unexpected (during : option Tests).

Definition TEST_PAGE : Z := 255.
Definition TEST_WORD : Z := 512 * TEST_PAGE.

Section FlashTest.
Context {F : Type} `{Flash F}.

Record t := mk { driver : F; state : option Tests; console : list Line }.

Definition new (driver : F) : t := mk driver None [].

Definition set_driver (d : F) (s : t) : t := mk d (state s) (console s).
Definition set_state (x : Tests) : K t unit := modify (λ s, mk (driver s) (Some x) (console s)).
Definition take_state : K t (option Tests) := λ s, (Ok (state s), mk (driver s) None (console s)).
Definition println (l : Line) : K t unit := modify (λ s, mk (driver s) (state s) (console s ++ [l])).
Definition on_driver {B} (m : K F B) : K t B := zoom driver set_driver m.

(** The start of an erase or write step, and the check of the word behind it. *)
Definition start_erase (x : Tests) : K t unit :=
  code ← on_driver (flash_erase TEST_PAGE);
  println (BeginErase x code) ;;
  set_state x.

Definition start_write (x : Tests) (value : Z) : K t unit :=
  code ← on_driver (flash_write TEST_WORD [value]);
  println (BeginWrite x code) ;;
  set_state x.

Definition check_word (x : Tests) (code : ReturnCode) (value : Z) : K t unit :=
  println (DoneWith x code) ;;
  read_value ← gets (λ s, flash_read TEST_WORD (driver s));
  match read_value with
  | SuccessWithValue val => if negb (val =? value) then println (WrongValue x val) else mret tt
  | _ => println (ReadFailed x read_value)
  end.

Definition erase1_start : K t unit := start_erase Erase1.
Definition write1_start : K t unit := start_write Write1 0x0000FFFF.
Definition write2_start : K t unit := start_write Write2 0x00000000.
Definition erase2_start : K t unit := start_erase Erase2.
Definition erase1_done (code : ReturnCode) : K t unit := check_word Erase1 code 0xFFFFFFFF ;; write1_start.
Definition write1_done (code : ReturnCode) : K t unit := check_word Write1 code 0x0000FFFF ;; write2_start.
Definition write2_done (code : ReturnCode) : K t unit := check_word Write2 code 0x00000000 ;; erase2_start.
Definition erase2_done (code : ReturnCode) : K t unit := check_word Erase2 code 0xFFFFFFFF.

Definition run : K t unit := erase1_start.

Definition erase_done (code : ReturnCode) : K t unit :=
  x ← take_state;
  match x with
  | Some Erase1 => erase1_done code
  | Some Erase2 => erase2_done code
  | _ => println (Unexpected x)
  end.

Definition write_done (code : ReturnCode) : K t unit :=
  x ← take_state;
  match x with
  | Some Write1 => write1_done code
  | Some Write2 => write2_done code
  | _ => println (Unexpected x)
  end.

End FlashTest.
Arguments t : clear implicits.

(** The device completes the operation that is pending, and tells the test. *)
Definition complete : K (t Dev) unit := λ s,
  match pending (driver s) with
  | None => (Ok tt, s)
  | Some op =>
      let s := set_driver (mk_Dev (finish op (mem (driver s))) None) s in
      match op with PErase _ => erase_done SUCCESS s | PWrite _ _ => write_done SUCCESS s end
  end.

End FlashTest.

(** ** The counter *)

Module NvCounterTest.

Inductive Line :=
| BeginInitialize (code : ReturnCode)
| InitializeDoneWith (status : ReturnCode)
| BeginIncrement (code : ReturnCode)
| IncrementDoneWith (status : ReturnCode)
| FAILED
| CompletedSuccessfully.

#[global] Instance Line_eq_dec : EqDecision Line.
Proof. solve_decision. Defined.

Section NvCounterTest.
(** The trait [NvCounter]. *)
Context {C : Type} (initialize read_and_increment : K C ReturnCode).

Record t := mk { current_value : Z; failed : bool; nvcounter : C; console : list Line }.

Definition new (c : C) : t := mk 0 false c [].

Definition set_nvcounter (c : C) (s : t) : t := mk (current_value s) (failed s) c (console s).
Definition set_value (v : Z) : K t unit := modify (λ s, mk v (failed s) (nvcounter s) (console s)).
Definition set_failed : K t unit := modify (λ s, mk (current_value s) true (nvcounter s) (console s)).
Definition println (l : Line) : K t unit := modify (λ s, mk (current_value s) (failed s) (nvcounter s) (console s ++ [l])).
Definition on_counter {B} (m : K C B) : K t B := zoom nvcounter set_nvcounter m.

Definition run : K t unit := code ← on_counter initialize; println (BeginInitialize code).

Definition fail : K t unit := println FAILED ;; set_failed.

Definition initialize_done (status : ReturnCode) : K t unit :=
  println (InitializeDoneWith status) ;;
  if bool_decide (status ≠ SUCCESS) then fail
  else
    increment_result ← on_counter read_and_increment;
    println (BeginIncrement increment_result) ;;
    if bool_decide (increment_result ≠ SuccessWithValue 0) then fail else mret tt.

Definition increment_done (status : ReturnCode) : K t unit :=
  println (IncrementDoneWith status) ;;
  if bool_decide (status ≠ SUCCESS) then fail
  else
    v ← gets current_value;
    set_value (u32 (v + 1)) ;;
    v ← gets current_value;
    if 5000 <? v then println CompletedSuccessfully
    else
      increment_result ← on_counter read_and_increment;
      println (BeginIncrement increment_result) ;;
      if bool_decide (increment_result ≠ SuccessWithValue v) then fail else mret tt.

Definition client (c : option CounterCall) : K t unit :=
  match c with
  | Some (InitializeDone code) => initialize_done code
  | Some (IncrementDone code) => increment_done code
  | None => mret tt
  end.

End NvCounterTest.
Arguments t : clear implicits.

(** The counter of the kernel on the device; the device completes what is pending. *)
Abbreviation Counted := (t Sys).

Definition deliver_pending : K Sys (option CounterCall) := λ k,
  match pending (FlashCounter.flash k) with
  | None => (Ok None, k)
  | Some op => deliver op SUCCESS (at_rest (finish op (mem (FlashCounter.flash k))) k)
  end.

Definition complete : K Counted unit := c ← on_counter deliver_pending; client FlashCounter.read_and_increment c.

Fixpoint completions (n : nat) : K Counted unit :=
  match n with O => mret tt | S n => complete ;; completions n end.

End NvCounterTest.

(** ** The coprocessor *)

Module TestDcrypto.

Inductive TestCase := NoCase | SuccessfulExecution | StackError.

#[global] Instance TestCase_eq_dec : EqDecision TestCase.
Proof. solve_decision. Defined.

Inductive Line :=
| TestingReturn | ExecPass (error : ReturnCode) | ExecFail (fault : ProgramFault)
| TestingStack | StackPass (fault : ProgramFault) | StackFail (error : ReturnCode) (fault : ProgramFault)
| NoTestCase | AllPassed | NeverReset | NeverWiped.

Record t := mk { dcrypto : DcryptoEngine.t; case : TestCase; console : list Line }.

Definition new (d : DcryptoEngine.t) : t := mk d NoCase [].

Definition set_dcrypto (d : DcryptoEngine.t) (s : t) : t := mk d (case s) (console s).
Definition set_case (c : TestCase) : K t unit := modify (λ s, mk (dcrypto s) c (console s)).
Definition println (l : Line) : K t unit := modify (λ s, mk (dcrypto s) (case s) (console s ++ [l])).
Definition on_dcrypto {B} (m : K DcryptoEngine.t B) : K t B := zoom dcrypto set_dcrypto m.

Definition RET : list Z := [0x00; 0x00; 0x00; 0x0c].
Definition CALL_BREAK : list Z := [0x00; 0x00; 0x00; 0x08; 0x00; 0x00; 0x00; 0x00].

Definition start_test_exec : K t unit :=
  set_case SuccessfulExecution ;;
  println TestingReturn ;;
  _ ← on_dcrypto (DcryptoEngine.write_instructions RET 0 4);
  _ ← on_dcrypto (DcryptoEngine.call_imem 0);
  mret tt.

Definition complete_test_exec (error : ReturnCode) (fault : ProgramFault) : K t unit :=
  if bool_decide (error = SUCCESS) then println (ExecPass error) else println (ExecFail fault).

Definition start_test_stack : K t unit :=
  set_case StackError ;;
  println TestingStack ;;
  _ ← on_dcrypto (DcryptoEngine.write_instructions CALL_BREAK 0 8);
  _ ← on_dcrypto (DcryptoEngine.call_imem 0);
  mret tt.

Definition complete_test_stack (error : ReturnCode) (fault : ProgramFault) : K t unit :=
  if bool_decide (error = FAIL) && bool_decide (fault = StackOverflow) then println (StackPass fault)
  else if bool_decide (error = FAIL) && bool_decide (fault = Trap) then println (StackPass fault) ;; set_case NoCase
  else println (StackFail error fault).

Definition run : K t unit := start_test_exec.

Definition execution_complete (error : ReturnCode) (fault : ProgramFault) : K t unit :=
  c ← gets case;
  match c with
  | SuccessfulExecution => complete_test_exec error fault ;; start_test_stack
  | StackError => complete_test_stack error fault
  | NoCase => println NoTestCase
  end ;;
  c ← gets case;
  if bool_decide (c = NoCase) then println AllPassed else mret tt.

Definition reset_complete (_ : ReturnCode) : K t unit := println NeverReset.
Definition secret_wipe_complete (_ : ReturnCode) : K t unit := println NeverWiped.

(** [run_dcrypto] of kernel/h1_syscalls/src/dcrypto_test.rs *)
Definition run_dcrypto (d : DcryptoEngine.t) : outcome Empty_set unit * t := run (new (DcryptoEngine.set_client d)).

End TestDcrypto.

(** ** Random numbers *)

Module TestRng.

(** kernel/h1/src/hil/rng.rs *)
Inductive Continue := More | Done.

(** The words that are printed, and the answer. *)
Definition randomness_available (randomness : list Z) : list Z * Continue := (take 5 randomness, Done).

End TestRng.

(** ** What the tests report *)

Module KernelTestFacts.

(** *** The flash *)

Section Flash.
Import FlashTest.

Definition session (m : Z → Z) : outcome Empty_set unit * FlashTest.t Dev :=
  (run ;; complete ;; complete ;; complete ;; complete) (new (mk_Dev m None)).

(** The eight lines of a test that finds what it expects. *)
Definition expected_console : list Line :=
  [ BeginErase Erase1 SUCCESS; DoneWith Erase1 SUCCESS; BeginWrite Write1 (SUCCESS, None); DoneWith Write1 SUCCESS;
    BeginWrite Write2 (SUCCESS, None); DoneWith Write2 SUCCESS; BeginErase Erase2 SUCCESS; DoneWith Erase2 SUCCESS ].

Lemma start_erase_dev m st l x :
  start_erase x (mk (mk_Dev m None) st l) = (Ok tt, mk (mk_Dev m (Some (PErase TEST_PAGE))) (Some x) (l ++ [BeginErase x SUCCESS])).
Proof. reflexivity. Qed.

Lemma start_write_dev m st l x v :
  start_write x v (mk (mk_Dev m None) st l) =
  (Ok tt, mk (mk_Dev m (Some (PWrite TEST_WORD [v]))) (Some x) (l ++ [BeginWrite x (SUCCESS, None)])).
Proof. reflexivity. Qed.

Lemma check_word_dev m op st l x code v : m TEST_WORD = v →
  check_word x code v (mk (mk_Dev m op) st l) = (Ok tt, mk (mk_Dev m op) st (l ++ [DoneWith x code])).
Proof.
  intros Hv. unfold check_word, println, gets, modify, mbind, M_bind. unfold flash_read, Dev_Flash. cbn [driver mem].
  rewrite Hv, Z.eqb_refl. reflexivity.
Qed.

(** A completed operation: the word is as expected, and the next step starts. *)
Lemma complete_dev m op x l (v : Z) (next : K (FlashTest.t Dev) unit) r :
  finish op m TEST_WORD = v →
  (match op with PErase _ => erase_done SUCCESS | PWrite _ _ => write_done SUCCESS end) (mk (mk_Dev (finish op m) None) (Some x) l) =
    (check_word x SUCCESS v ;; next) (mk (mk_Dev (finish op m) None) None l) →
  next (mk (mk_Dev (finish op m) None) None (l ++ [DoneWith x SUCCESS])) = r →
  complete (mk (mk_Dev m (Some op)) (Some x) l) = r.
Proof.
  intros Hv Hd <-. transitivity ((check_word x SUCCESS v ;; next) (mk (mk_Dev (finish op m) None) None l)).
  - rewrite <- Hd. destruct op; reflexivity.
  - apply (bind_ok _ (λ _, next) _ tt). by apply check_word_dev.
Qed.

Lemma erase_word m : finish (PErase TEST_PAGE) m TEST_WORD = 0xFFFFFFFF.
Proof. done. Qed.

Lemma write_word m v : finish (PWrite TEST_WORD [v]) m TEST_WORD = Z.land (m TEST_WORD) v.
Proof. done. Qed.

(** The test of the flash succeeds on every device, whatever is in the test page, ends, and
    leaves the other pages alone. *)
Lemma flash_test_passes m :
  ∃ s, session m = (Ok tt, s) ∧ console s = expected_console ∧ state s = None ∧ pending (driver s) = None ∧
    ∀ x, mem (driver s) x = if decide (in_page TEST_PAGE x) then 0xFFFFFFFF else m x.
Proof.
  set (m1 := finish (PErase TEST_PAGE) m). set (m2 := finish (PWrite TEST_WORD [0x0000FFFF]) m1).
  set (m3 := finish (PWrite TEST_WORD [0]) m2). set (m4 := finish (PErase TEST_PAGE) m3).
  exists (mk (mk_Dev m4 None) None expected_console). split.
  - assert (H1 : m1 TEST_WORD = 0xFFFFFFFF) by apply erase_word.
    assert (H2 : m2 TEST_WORD = 0x0000FFFF) by (unfold m2; by rewrite write_word, H1).
    assert (H3 : m3 TEST_WORD = 0) by (unfold m3; by rewrite write_word, H2).
    assert (H4 : m4 TEST_WORD = 0xFFFFFFFF) by apply erase_word.
    unfold session. rewrite (bind_ok _ _ _ _ _ (start_erase_dev m None [] Erase1)).
    erewrite bind_ok by (eapply (complete_dev _ _ Erase1 _ 0xFFFFFFFF write1_start); [exact H1|reflexivity|apply start_write_dev]). fold m1.
    erewrite bind_ok by (eapply (complete_dev _ _ Write1 _ 0x0000FFFF write2_start); [exact H2|reflexivity|apply start_write_dev]). fold m2.
    erewrite bind_ok by (eapply (complete_dev _ _ Write2 _ 0 erase2_start); [exact H3|reflexivity|apply start_erase_dev]). fold m3.
    eapply (complete_dev _ _ Erase2 _ 0xFFFFFFFF (mret tt)); [exact H4| |reflexivity].
    fold m4. change (erase_done SUCCESS (mk (mk_Dev m4 None) (Some Erase2) ?l)) with (check_word Erase2 SUCCESS 0xFFFFFFFF (mk (mk_Dev m4 None) None l)).
    by rewrite (bind_ok _ _ _ _ _ (check_word_dev m4 None None _ Erase2 SUCCESS _ H4)), check_word_dev.
  - do 3 (split; [reflexivity|]). intros x. cbn [driver mem]. unfold m4, m3, m2, m1, finish.
    destruct (decide (in_page TEST_PAGE x)) as [Hx|Hx]; [done|].
    rewrite !decide_False; [done| |]; unfold in_write, in_page, TEST_WORD in *; simpl length; lia.
Qed.

End Flash.

(** *** The counter *)

Section Counter.
Import NvCounterTest.

(** The states in which the counter reports the end of an increment: at rest, or with the
    clean-up of a rollover under way. *)
Definition ready (k : Sys) (v : Z) : Prop :=
  ∃ m b op, k = sys m op (Some [b]) None ∧ mem_ok m ∧ val m = v ∧
    (op = None ∨ op = Some (PErase (page_number Low)) ∧ Z.odd (count High m) = true).

Lemma ready_R k v : ready k v → R k (AIdle v).
Proof. intros (m & b & op & -> & Hm & <- & [->|[-> Ho]]); [by apply R_idle|by apply (R_rollover2 m b false)]. Qed.

(** From there the next increment starts, with the value. *)
Lemma ready_call k v : ready k v → v < MAX_COUNT → ∃ k', rai k = (Ok (SuccessWithValue v), k') ∧ R k' (ABusy v).
Proof.
  intros Hk Hv. destruct (rai k) as [[rc|[]|] k'] eqn:E.
  - destruct (sim_call k (AIdle v) rc k' (ready_R k v Hk) E) as (a' & Ha & HR).
    inversion Ha; subst; [eauto|lia].
  - exfalso. destruct Hk as (m & b & op & -> & Hm & <- & [->|[-> Ho]]); [destruct (Z.odd (count High m)) eqn:Ho|].
    + destruct (rai_odd m None (Some [b])) as (op' & buf' & Hr & _); [done..|by right|]. by rewrite Hr in E.
    + rewrite rai_even in E by done. repeat case_decide; discriminate E.
    + destruct (rai_odd m (Some (PErase (page_number Low))) (Some [b])) as (op' & buf' & Hr & _); [done..|by right|]. by rewrite Hr in E.
Qed.

(** A strike that counts ends the increment. *)
Lemma counted k m1 x v :
  deliver_pending k = FlashCounter.write_done [x] SUCCESS (sys m1 None None (Some TaskIncrement)) →
  mem_ok m1 → count Low m1 ≠ 0 → val m1 = v →
  ∃ k', deliver_pending k = (Ok (Some (IncrementDone SUCCESS)), k') ∧ ready k' v.
Proof.
  intros Hd Hm Hl Hv. destruct (write_done_counted m1 x Hl) as (op & Hw & Hop). rewrite Hd, Hw.
  eexists; split; [done|]. by exists m1, x, op.
Qed.

(** The completions that an increment takes, at most [n]. *)
Fixpoint within (n : nat) (k : Sys) (v : Z) : Prop :=
  match n with
  | O => False
  | S n => (∃ k', deliver_pending k = (Ok (Some (IncrementDone SUCCESS)), k') ∧ ready k' (v + 1)) ∨
           (∃ k', deliver_pending k = (Ok None, k') ∧ within n k' v)
  end.

Lemma incr1_within m0 m n : mem_ok m0 → Z.odd (count High m0) = false → count Low m0 < 4096 →
  partway (strike_op Low (count Low m0)) m0 m →
  within (S n) (sys m (Some (strike_op Low (count Low m0))) None (Some TaskIncrement)) (val m0).
Proof.
  intros Hm Ho Hl Hp. left. destruct (strike_done Low High m0 m) as (Hok & Hc1 & Hc2); [discriminate|done..|].
  pose proof (count_bounds m0 Low). eapply counted; [reflexivity|done|cbn [mem FlashCounter.flash sys]; lia|]; cbn [mem FlashCounter.flash sys].
  unfold val, value. rewrite Hc1, Hc2, Ho. lia.
Qed.

Lemma rollover1_within m0 m n : mem_ok m0 → Z.odd (count High m0) = false → count High m0 < 4096 → count Low m0 = 4096 →
  partway (strike_op High (count High m0)) m0 m →
  within (S n) (sys m (Some (strike_op High (count High m0))) None (Some TaskIncrement)) (val m0).
Proof.
  intros Hm Ho Hh Hl Hp. left. destruct (strike_done High Low m0 m) as (Hok & Hc1 & Hc2); [discriminate|done..|].
  pose proof (count_bounds m0 High). eapply counted; [reflexivity|done|cbn [mem FlashCounter.flash sys]; lia|]; cbn [mem FlashCounter.flash sys].
  unfold val. rewrite Hc1, Hc2, Hl. apply value_rollover; [lia|done].
Qed.

Lemma rollover3_within m0 m n : mem_ok m0 → Z.odd (count High m0) = true → count Low m0 = 0 →
  partway (strike_op High (count High m0)) m0 m →
  within (S (S n)) (sys m (Some (strike_op High (count High m0))) None (Some TaskIncrement)) (val m0).
Proof.
  intros Hm Ho Hl Hp. pose proof (odd_below _ _ Ho) as Hh.
  destruct (strike_done High Low m0 m) as (Hok & Hc1 & Hc2); [discriminate|done..|]. rewrite Hl in Hc2.
  right. eexists; split; [by apply write_done_settled|].
  set (m1 := finish _ m) in *.
  assert (val m0 = val m1) as -> by (unfold val; rewrite Hc1, Hc2, Hl; symmetry; by apply value_settled).
  apply incr1_within; [done|by rewrite Hc1, Z.odd_add, Ho|lia|]. apply partway_refl; [apply strike_op_ok|done].
Qed.

Lemma rollover2_within m b n : mem_ok m → Z.odd (count High m) = true →
  within (S (S (S n))) (sys m (Some (PErase (page_number Low))) (Some [b]) (Some TaskIncrement)) (val m).
Proof.
  intros Hm Ho. set (m1 := finish (PErase (page_number Low)) m).
  assert (partway (PErase (page_number Low)) m m1) as Hpart by (by apply finish_partway).
  pose proof (erase_low_high _ _ Hpart) as Hh. pose proof (erase_low_finish m) as Hl. fold m1 in Hl.
  right. eexists; split; [apply (erase_done_ok m1 b true); by rewrite Hh|].
  assert (val m = val m1) as -> by (unfold val; rewrite Hh; by apply value_odd).
  apply rollover3_within; [apply Hpart|by rewrite Hh|done|]. apply partway_refl; [apply strike_op_ok|apply Hpart].
Qed.

Lemma busy_within k v : R k (ABusy v) → within 3 k v.
Proof.
  intros HR. inversion HR as [|m0 m Hm Ho Hl Hp|m0 m Hm Ho Hh Hl Hp|m b busy Hm Ho Hk Hv|m0 m busy Hm Ho Hl Hp Hk Hv]; subst.
  - by apply incr1_within.
  - by apply rollover1_within.
  - destruct busy; [|discriminate]. injection Hv as <-. by apply rollover2_within.
  - destruct busy; [|discriminate]. injection Hv as <-. by apply rollover3_within.
Qed.

(** What the test prints for the increments that follow the value [v]. *)
Fixpoint trace (d : nat) (v : Z) : list Line :=
  match d with
  | O => [IncrementDoneWith SUCCESS; CompletedSuccessfully]
  | S d => IncrementDoneWith SUCCESS :: BeginIncrement (SuccessWithValue (v + 1)) :: trace d (v + 1)
  end.

Lemma complete_counter v f k l c k' : deliver_pending k = (Ok c, k') →
  complete (mk v f k l) = client FlashCounter.read_and_increment c (mk v f k' l).
Proof. intros Hd. unfold complete, on_counter, zoom, mbind, M_bind. cbn [nvcounter]. by rewrite Hd. Qed.

Lemma begin_increment v w f k l k' : rai k = (Ok (SuccessWithValue w), k') →
  (increment_result ← on_counter FlashCounter.read_and_increment;
   println (BeginIncrement increment_result) ;;
   if bool_decide (increment_result ≠ SuccessWithValue w) then fail else mret tt) (mk v f k l) =
  (Ok tt, mk v f k' (l ++ [BeginIncrement (SuccessWithValue w)])).
Proof.
  intros Hr. unfold rai in Hr. unfold on_counter, zoom, mbind, M_bind. cbn [nvcounter]. rewrite Hr. simpl.
  by rewrite bool_decide_eq_false_2 by (by intros []).
Qed.

Lemma increment_done_next v k l k' : 0 <= v < 5000 → rai k = (Ok (SuccessWithValue (v + 1)), k') →
  increment_done FlashCounter.read_and_increment SUCCESS (mk v false k l) =
  (Ok tt, mk (v + 1) false k' (l ++ [IncrementDoneWith SUCCESS; BeginIncrement (SuccessWithValue (v + 1))])).
Proof.
  intros Hv Hr. pose proof (begin_increment (v + 1) (v + 1) false k (l ++ [IncrementDoneWith SUCCESS]) k' Hr) as Hb.
  rewrite <- app_assoc in Hb. etransitivity; [|exact Hb]. unfold increment_done, println, set_value, gets, modify, mbind at 1 2 3 4, M_bind at 1 2 3 4. simpl.
  rewrite u32_small by (unfold fits; lia). by rewrite (proj2 (Z.ltb_ge 5000 (v + 1))) by lia.
Qed.

Lemma increment_done_last k l :
  increment_done FlashCounter.read_and_increment SUCCESS (mk 5000 false k l) =
  (Ok tt, mk 5001 false k (l ++ [IncrementDoneWith SUCCESS; CompletedSuccessfully])).
Proof.
  change [IncrementDoneWith SUCCESS; CompletedSuccessfully] with ([IncrementDoneWith SUCCESS] ++ [CompletedSuccessfully]).
  rewrite app_assoc. reflexivity.
Qed.

Lemma within_completions j k v l : within j k v →
  ∃ n k', (n ≤ j)%nat ∧ ready k' (v + 1) ∧
    ∀ r, completions (n + r) (mk v false k l) =
         (increment_done FlashCounter.read_and_increment SUCCESS ;; completions r) (mk v false k' l).
Proof.
  revert k; induction j as [|j IH]; intros k; [done|]. cbn [within]. intros [(k' & Hd & Hk')|(k' & Hd & Hw)].
  - exists 1%nat, k'. split; [lia|]. split; [done|]. intros r. cbn [Nat.add completions]. unfold mbind at 1, M_bind at 1.
    by rewrite (complete_counter _ _ _ _ _ _ Hd).
  - destruct (IH k' Hw) as (n & k2 & Hn & Hk2 & Hc). exists (S n), k2. split; [lia|]. split; [done|]. intros r.
    rewrite <- Hc. cbn [Nat.add completions]. apply (bind_ok _ (λ _, completions (n + r)) _ tt).
    by rewrite (complete_counter _ _ _ _ _ _ Hd).
Qed.

(** The increments of the test, from one that is under way. *)
Lemma increments_complete d v k l : R k (ABusy v) → 0 <= v → v + Z.of_nat d = 5000 →
  ∃ n k', (n ≤ 3 * S d)%nat ∧ completions n (mk v false k l) = (Ok tt, mk 5001 false k' (l ++ trace d v)) ∧ ready k' 5001.
Proof.
  revert v k l; induction d as [|d IH]; intros v k l HR Hv Hd; apply busy_within in HR;
    destruct (within_completions 3 k v l HR) as (n & k1 & Hn & Hk1 & Hc).
  - assert (v = 5000) as -> by lia. exists (n + 0)%nat, k1. split; [lia|]. split; [|done].
    rewrite Hc. by apply (bind_ok _ (λ _, completions 0) _ tt), increment_done_last.
  - destruct (ready_call k1 (v + 1) Hk1) as (k2 & Hr & HR2); [unfold MAX_COUNT; lia|].
    destruct (IH (v + 1) k2 (l ++ [IncrementDoneWith SUCCESS; BeginIncrement (SuccessWithValue (v + 1))]) HR2) as (n2 & k3 & Hn2 & Hc2 & Hk3); [lia..|].
    exists (n + n2)%nat, k3. split; [lia|]. split; [|done]. rewrite Hc.
    rewrite (bind_ok _ (λ _, completions n2) _ _ _ (increment_done_next v k1 l k2 ltac:(lia) Hr)), Hc2, <- app_assoc. done.
Qed.

(** Initialization: the low page is erased, and the high page if it is not empty. *)
Lemma initialized m b l : mem_ok m → count Low m = 0 → count High m = 0 →
  ∃ k, initialize_done FlashCounter.read_and_increment SUCCESS (mk 0 false (sys m None (Some [b]) None) l) =
    (Ok tt, mk 0 false k (l ++ [InitializeDoneWith SUCCESS; BeginIncrement (SuccessWithValue 0)])) ∧ R k (ABusy 0).
Proof.
  intros Hm Hl Hh. assert (Hk : ready (sys m None (Some [b]) None) 0).
  { exists m, b, None. split_and!; [done..| |by left]. unfold val. by rewrite Hl, Hh. }
  destruct (ready_call _ 0 Hk) as (k & Hr & HR); [done|]. exists k. split; [|done].
  pose proof (begin_increment 0 0 false _ (l ++ [InitializeDoneWith SUCCESS]) k Hr) as Hb. rewrite <- app_assoc in Hb.
  etransitivity; [|exact Hb]. reflexivity.
Qed.

Lemma erase_empties p m : count p (finish (PErase (page_number p)) m) = 0.
Proof.
  apply count_empty. intros i Hi. unfold word_at, finish. rewrite decide_True; [done|].
  unfold in_page, page_offset. change NV_WORDS_PER_PAGE with 512. lia.
Qed.

Lemma erase_other p q m : p ≠ q → count q (finish (PErase (page_number p)) m) = count q m.
Proof.
  intros Hpq. apply count_ext. intros i Hi. unfold word_at, finish. rewrite decide_False; [done|].
  unfold in_page, page_offset. change NV_WORDS_PER_PAGE with 512. destruct p, q; try done; simpl page_number; lia.
Qed.

Lemma init_erased m b :
  FlashCounter.erase_done SUCCESS (sys m None (Some [b]) (Some TaskInitialize)) =
  if decide (count High m = 0) then (Ok (Some (InitializeDone SUCCESS)), sys m None (Some [b]) None)
  else (Ok None, sys m (Some (PErase (page_number High))) (Some [b]) (Some TaskInitialize)).
Proof.
  unfold FlashCounter.erase_done, sys. simpl. unfold mbind, M_bind. simpl. rewrite page_empty_count. simpl.
  destruct (decide (count High m = 0)) as [E|E]; [rewrite (bool_decide_eq_true_2 _ E)|rewrite (bool_decide_eq_false_2 _ E)]; reflexivity.
Qed.

Definition blank_start (m : Z → Z) (b : Z) : Counted := new (sys m None (Some [b]) None).

(** After at most two completions the first increment is under way. *)
Lemma initialization_completes m b : mem_ok m →
  ∃ n k, (n ≤ 2)%nat ∧ R k (ABusy 0) ∧
    ∀ r, (run FlashCounter.initialize ;; completions (n + r)) (blank_start m b) =
         completions r (mk 0 false k [BeginInitialize SUCCESS; InitializeDoneWith SUCCESS; BeginIncrement (SuccessWithValue 0)]).
Proof.
  intros Hm. set (m1 := finish (PErase (page_number Low)) m). assert (Hm1 : mem_ok m1) by (by apply finish_ok).
  set (k0 := sys m (Some (PErase (page_number Low))) (Some [b]) (Some TaskInitialize)).
  assert (Hrun : run FlashCounter.initialize (blank_start m b) = (Ok tt, mk 0 false k0 [BeginInitialize SUCCESS])) by reflexivity.
  assert (Hd : deliver_pending k0 = FlashCounter.erase_done SUCCESS (sys m1 None (Some [b]) (Some TaskInitialize))) by reflexivity.
  rewrite init_erased in Hd. destruct (decide (count High m1 = 0)) as [Hh|Hh].
  - destruct (initialized m1 b [BeginInitialize SUCCESS] Hm1 (erase_empties Low m) Hh) as (k & Hi & HR).
    exists 1%nat, k. split; [lia|]. split; [done|]. intros r. rewrite (bind_ok _ (λ _, completions (1 + r)) _ _ _ Hrun).
    cbn [Nat.add completions]. apply (bind_ok _ (λ _, completions r) _ tt). by rewrite (complete_counter _ _ _ _ _ _ Hd).
  - set (m2 := finish (PErase (page_number High)) m1). assert (Hm2 : mem_ok m2) by (by apply finish_ok).
    set (k1 := sys m1 (Some (PErase (page_number High))) (Some [b]) (Some TaskInitialize)) in *.
    assert (Hd2 : deliver_pending k1 = FlashCounter.erase_done SUCCESS (sys m2 None (Some [b]) (Some TaskInitialize))) by reflexivity.
    rewrite init_erased, decide_True in Hd2 by apply erase_empties.
    destruct (initialized m2 b [BeginInitialize SUCCESS] Hm2) as (k & Hi & HR); [|apply erase_empties|].
    { unfold m2. rewrite (erase_other High Low) by done. apply erase_empties. }
    exists 2%nat, k. split; [lia|]. split; [done|]. intros r. rewrite (bind_ok _ (λ _, completions (2 + r)) _ _ _ Hrun).
    cbn [Nat.add completions].
    rewrite (bind_ok _ (λ _, complete ;; completions r) _ tt (mk 0 false k1 [BeginInitialize SUCCESS])) by (by rewrite (complete_counter _ _ _ _ _ _ Hd)).
    apply (bind_ok _ (λ _, completions r) _ tt). by rewrite (complete_counter _ _ _ _ _ _ Hd2).
Qed.

(** The values that increments have returned. *)
Definition returned (l : list Line) : list ReturnCode := omap (λ x, match x with BeginIncrement c => Some c | _ => None end) l.

Lemma trace_facts d v :
  FAILED ∉ trace d v ∧ last (trace d v) = Some CompletedSuccessfully ∧ returned (trace d v) = SuccessWithValue <$> seqZ (v + 1) (Z.of_nat d).
Proof.
  revert v; induction d as [|d IH]; intros v.
  - split_and!; [|done..]. cbn [trace]. rewrite !elem_of_cons, elem_of_nil. naive_solver.
  - destruct (IH (v + 1)) as (H1 & H2 & H3). split_and!.
    + cbn [trace]. rewrite !elem_of_cons. naive_solver.
    + cbn [trace]. destruct (trace d (v + 1)) as [|x l] eqn:E; [done|]. by rewrite !last_cons_cons.
    + cbn [trace]. change (returned (IncrementDoneWith SUCCESS :: BeginIncrement (SuccessWithValue (v + 1)) :: trace d (v + 1)))
        with (SuccessWithValue (v + 1) :: returned (trace d (v + 1))).
      rewrite H3, (seqZ_cons (v + 1) (Z.of_nat (S d))) by lia. simpl.
      replace (Z.pred (Z.of_nat (S d))) with (Z.of_nat d) by lia. by replace (Z.succ (v + 1)) with (v + 1 + 1) by lia.
Qed.

(** C20: the integration test of the counter succeeds on the model: from any contents of the flash,
    when the device completes its operations, the test initializes the counter and makes
    5001 increments across a rollover of the low page, each answered with the number of
    increments before it, and reports its success; no step fails or panics, and it takes at
    most three completions for an increment. *)
Theorem counter_test_completes (m : Z → Z) (b : Z) (Hm : mem_ok m) :
  ∃ n s, Z.of_nat n <= 2 + 3 * 5001 ∧ (run FlashCounter.initialize ;; completions n) (blank_start m b) = (Ok tt, s) ∧
    failed s = false ∧ last (console s) = Some CompletedSuccessfully ∧ FAILED ∉ console s ∧
    returned (console s) = SuccessWithValue <$> seqZ 0 5001 ∧ ready (nvcounter s) 5001.
Proof.
  destruct (initialization_completes m b Hm) as (n1 & k1 & Hn1 & HR & Hc1).
  assert (Hd : 0 + Z.of_nat (Z.to_nat 5000) = 5000) by (by rewrite Z2Nat.id). revert Hd. generalize (Z.to_nat 5000). intros d Hd.
  destruct (increments_complete d 0 k1 [BeginInitialize SUCCESS; InitializeDoneWith SUCCESS; BeginIncrement (SuccessWithValue 0)] HR) as (n2 & k2 & Hn2 & Hc2 & Hk2); [lia..|].
  destruct (trace_facts d 0) as (Hf & Hl & Hv). eexists (n1 + n2)%nat, _. split; [lia|]. split; [by rewrite Hc1|]. cbn [failed console nvcounter].
  split; [done|]. split_and!.
  - rewrite last_app, Hl. done.
  - rewrite elem_of_app, !elem_of_cons, elem_of_nil. naive_solver.
  - unfold returned in *. rewrite omap_app, Hv. replace (Z.of_nat d) with 5000 by lia.
    rewrite (seqZ_cons 0 5001) by lia. rewrite fmap_cons. change (Z.pred 5001) with 5000. change (Z.succ 0) with (0 + 1).
    generalize (SuccessWithValue <$> seqZ (0 + 1) 5000). intros l. reflexivity.
  - done.
Qed.

Lemma counter_test_completes_witness :
  ∃ n s, Z.of_nat n <= 2 + 3 * 5001 ∧ (run FlashCounter.initialize ;; completions n) (blank_start blank 0) = (Ok tt, s) ∧
    last (console s) = Some CompletedSuccessfully.
Proof.
  destruct (counter_test_completes blank 0 blank_ok) as (n & s & Hn & Hr & _ & Hl & _). by exists n, s.
Defined.

End Counter.

(** The report of success does not depend on what failed before. *)
Lemma failed_test_completes f (k : Sys) l :
  NvCounterTest.increment_done FlashCounter.read_and_increment SUCCESS (NvCounterTest.mk 5000 f k l) =
  (Ok tt, NvCounterTest.mk 5001 f k (l ++ [NvCounterTest.IncrementDoneWith SUCCESS] ++ [NvCounterTest.CompletedSuccessfully])).
Proof. rewrite app_assoc. reflexivity. Qed.

(** *** The coprocessor *)

(** The lengths are given in bytes, but the driver takes them for words and reads behind the
    end of the program: on an engine that has been initialized, the test panics. *)
Lemma dcrypto_test_panics d :
  DcryptoEngine.state d = Halt → DcryptoEngine.mapped d = true → fst (TestDcrypto.run_dcrypto d) = Panic.
Proof.
  intros Hs Hm. destruct d as [regs reads cl st mapped dmem imem pmu]. simpl in *. subst. reflexivity.
Qed.

(** The interrupt that the last test waits for is not reported to the client. *)
Lemma trap_not_reported d : fst (DcryptoEngine.handle_error_interrupt 11 d) = Ok None.
Proof.
  unfold DcryptoEngine.handle_error_interrupt. cbn [DcryptoEngine.cause_of DcryptoEngine.flag_of]. unfold mbind, M_bind. simpl.
  destruct (bool_decide _); reflexivity.
Qed.

(** So "all tests passed" is never printed for an engine that reports only what the driver
    reports: execution ends with success, or with one of the four faults. *)
Lemma stack_test_never_ends (s : TestDcrypto.t) error fault :
  TestDcrypto.case s = TestDcrypto.StackError → fault ≠ Trap →
  ∃ line, TestDcrypto.execution_complete error fault s = (Ok tt, TestDcrypto.mk (TestDcrypto.dcrypto s) TestDcrypto.StackError (TestDcrypto.console s ++ [line])) ∧
    line ≠ TestDcrypto.AllPassed.
Proof.
  intros Hc Hf. destruct s as [d c l]. simpl in Hc. subst c.
  unfold TestDcrypto.execution_complete, TestDcrypto.complete_test_stack, gets, mbind, M_bind. cbn [TestDcrypto.case].
  rewrite (bool_decide_eq_false_2 (fault = Trap)) by done. rewrite andb_false_r.
  destruct (bool_decide (error = FAIL) && bool_decide (fault = StackOverflow)); eexists; (split; [reflexivity|done]).
Qed.

End KernelTestFacts.
